(* ===== verification/_CoqProject ===== *)
-Q . S2P
Prelude.v
Circular.v
Machine.v
Sha256.v
Fabric.v
Bus.v
BusSteps.v
Command.v
Ends.v
DecodedEvent.v
Lines.v
LinesRun.v
LinesWire.v
Moments.v
TrigPacket.v
TrigSerial.v
TrigQualify.v
TrigSymbol.v
Status.v
Open.v
Arm.v
ArmRun.v
ArmTriggers.v
RecallSpans.v
Recall.v
RecallSteps.v
Sinks.v
RecallDevice.v
RecallWindow.v
Verify.v
Stream.v
DecodedStream.v
Panel.v
StreamRun.v
WorkerRing.v
WorkerDrain.v
Stack.v
StackRun.v
StackScan.v
Worker.v
WorkerHandle.v
WorkerServe.v
WorkerInv.v
WorkerProtocol.v
WorkerClient.v
WorkerLink.v
WorkerStream.v
WorkerFifo.v
Liveness.v
Sim.v
Witnesses.v
WorkerWitnesses.v
Files.v
Crash.v
Slots.v
SlotsRun.v
AgentState.v
Agent.v
Takeover.v
Landing.v
Supervise.v
Watchdog.v
Update.v
Upload.v
Rollback.v
Xdr.v
Vxi11Srv.v
Vxi11Lan.v
Vxi11.v
Vxi11Run.v
Vxi11Link.v
EdgeLine.v
StreamDec.v
StreamDecRun.v
StreamDecFrames.v
StreamDecEdges.v
AgentWitnesses.v
Vxi11Witnesses.v
StreamDecWitnesses.v
Findings.v
