(* ===== verification/Prelude.v ===== *)
(** * The acquisition stack of open-sds1000cml

    A verification development beside six parts of the oscilloscope's
    software (Go). src/app/internal/sramcapture drives the capture FPGA: it
    arms acquisitions and their hardware triggers, reads frozen records back
    out of the SRAM, drains continuous streams, reads decoded events and stacks
    records in the fabric (with src/app/internal/superres/fpga_moments.go, the
    wire format of the stacking accumulator). src/app/internal/bus isolates
    the bus in an acquisition worker, a process of its own behind a packet
    socket: its server, its ring of stream words and its client. And
    src/app/internal/decodedlines folds decoded events into transcript lines,
    in the worker, and carries them to the reader's copy. And src/ota/internal,
    the update agent, takes the instrument over from the factory firmware,
    keeps two slots for the app on the stick, updates and supervises it. The
    LAN link is the app's VXI-11 server (src/app/internal/vxi11srv) and the
    client with which the takeover speaks to one (src/ota/internal/vxi11). Last,
    stream.go and edgeline.go of src/app/internal/decode cut the frames of a
    bus out of a continuous stream, of samples or of edges. The FPGA's side (src/fpga) appears as ports and small devices, and the stick as
    a disk that may lose power, so that a theorem can say what the fabric does
    with what the code wrote, and what the next boot finds.

    ** How the program is put together

    A [Capture] (capture.go) owns a bus. Its methods read and write 16-bit
    registers; some buses batch, pop DMA bytes or words, or hand a whole job to
    an isolated worker. Arm caches a batch of registers and queues its writes; a
    recall queues its writes too; a read sends the queue first. A command is a
    write of register 1, acknowledged by a bit that flips. Records are read
    back in bursts around a moving pointer; a stream is drained a bank at a time
    and each bank is released once; a stacking session configures an engine,
    scans records under an SRAM grant and downloads a tile of moments.

    The worker owns a Capture and the bus below it. A turn of its loop pumps
    the decoded events into a queue (or a transcript), pumps the ready stream
    banks into a byte ring, sends the reply that waits, and takes one request:
    registers, pops, events, lines, recalls, stacking downloads, the panel, the
    stream. The app's Dev sends those requests instead of touching the bus; its
    Capture does not know the difference.

    The agent is a process of its own. Its supervisor loop waits until the
    instrument is taken over, adopts an app a former agent left or starts the
    active slot's, watches its health token, confirms a slot that ran stably
    and goes back to the confirmed one after MaxFails failures. Its handlers
    install an update into the inactive slot and activate it, take over
    (stop the factory app, see the engine idle, persist, kill), receive uploads
    in chunks, and hold the hardware watchdog. Pointers, binaries, uploads and
    the persisted state are each written beside and renamed into place.

    The LAN server reads ONC RPC records off each TCP connection and answers
    them one by one. One connection at a time owns the link; what it writes is
    cut into lines for the SCPI handler, whose replies wait for its reads. The
    client makes one call after another, reads past late replies to earlier
    ones, and puts a reply's chunks together.

    A stream decoder keeps the stream's tail as a window and runs a decoder
    made for whole buffers over it after every push. It groups what the decoder
    reports into frames, hands out those with enough silence after them, and
    starts the next window in the silence after the last. It also runs on lines
    held as their edges, which are what digital probes deliver.

    ** Files

    - Prelude: Go's unsigned widths, bit slices and little-endian bytes, with
      the lemmas and the tactics ([bits_tac], [width], [blia]) the rest uses.
    - Circular: copies into buffers, and circular buffers as queues.
    - Machine: errors, outcomes, the class [Env] (everything outside the
      package as functions of the event history), the state [capture] and the
      state-and-error monad [M] with its weakest preconditions.
    - Fabric: what registers hold after writes, fields of registers, and
      [fabricRuns], the relation between a configure step and a block's port.
    - Bus: read, write, queue, batch, command, wait, Halt, Force, Snapshot of
      capture.go; [issued], the writes a method asked for however carried.
    - BusSteps, Open, Command, Ends: invariants of register access ([BusStep]
      is the interface a relation implements to hold across every method), the
      state between methods, the command protocol, and total correctness
      against a clock that advances.
    - TrigPacket (packet.go), TrigSerial (sent.go, mil1553.go, usbls.go, spi.go,
      i2c.go), TrigQualify (qualify.go), TrigSymbol (symbol.go, sequence.go):
      the trigger blocks, each with its configuration, validation, register
      writes, and the port of src/fpga/common/top.v that reads them.
    - Status: New, Status, Poll, sampleTimeline and sameFrozen of capture.go.
    - Arm, ArmRun, ArmTriggers: Config, Check, Arm (with the UART block and the
      decoded stream's enable), decoded_capture.go; what an arm leaves behind,
      and the trigger blocks composed over one register space.
    - RecallSpans, Recall, RecallSteps: the spans of a window, recallFrozen with
      its three transfer modes, the envelope recall (envelope.go), and the
      entry points. Sinks, RecallDevice, RecallWindow: what a sink has, the
      SRAM's read side as a device, and the delivery theorem.
    - Verify: the startup check (verify.go).
    - DecodedEvent, DecodedStream: decoded_event.go, decoded_event_stream.go.
    - Stream, StreamRun: stream.go, stream_ring.go, stream_marks.go; the drain
      against the drum.
    - Panel: panel.go.
    - Moments, Stack, StackRun, StackScan: fpga_moments.go and stack.go; the
      mailbox, the tile, sessions and scans.
    - Lines, LinesRun, LinesWire (lines.go of decodedlines, appendLocked of
      streamview.go): the transcript and its operations; what a run of events
      builds; the batch on the wire, its parser, and builder and reader
      together.
    - WorkerRing, WorkerDrain (streamRingWriter, streamPeek, the words of a
      reply): the stream ring as a queue and as the sink of a drain.
    - Worker (state, pump, stream, streamPump and its pace), WorkerHandle
      (handle, one definition a request), WorkerServe (serve over a packet
      socket): worker_server_linux.go. WorkerInv: what every step keeps, and
      the reply of a request.
    - WorkerProtocol: requests and replies over the socket's history.
    - WorkerClient (worker_linux.go, PeekIsolatedStream), WorkerLink: the
      client's calls, a call met by the worker's handling, and register
      batches through the worker.
    - WorkerStream, WorkerFifo: the stream's service, from the drum to what the
      app is shown.
    - Liveness: every entry point of a Capture ends.
    - Sha256 (crypto/sha256 and encoding/hex), Files (paths, the disk, the
      system's calls as the class [OsEnv]), Crash: a Hoare logic whose crash
      condition holds on every disk of a run; [sure], what every disk a cut
      leaves has in common.
    - Slots, SlotsRun (slots.go): the app slots, and what a cut leaves of a
      copied executable. AgentState (state.go): the persisted state.
    - Agent (agent.go, health.go): the agent's state and the health watcher.
      Takeover (takeover.go, gpmc.go), Landing: the takeover, and the order of
      what it did. Supervise (supervise.go, handlers.go): the supervisor and
      the app's handlers. Update: the app update under power cuts. Rollback:
      a crash loop against the supervisor. Upload (upload.go).
    - Watchdog (watchdog.go): a step relation of every interleaving.
    - Xdr: the width of an int ([GoInt]: 32 bits on the instrument, 64 on a
      host), slices, big-endian words, opaque data, record marks. Vxi11Srv
      (server.go): a connection's calls as programs of atomic steps, and all
      connections as a step relation; Vxi11Lan: its invariants. Vxi11
      (vxi11.go): the client over the class [Net]. Vxi11Run, Vxi11Link: one
      connection's calls, and client and server over a connection.
    - EdgeLine (edgeline.go): a line as its edges; every operation against the
      samples it stands for. StreamDec (stream.go): the window, its groups, the
      cut. StreamDecRun: what a run hands out and leaves, for any decoder.
      StreamDecFrames: for a decoder that reads the bus. StreamDecEdges: the
      decoder on edges against the one on samples.
    - Sim, Witnesses, WorkerWitnesses, Findings, AgentWitnesses, Vxi11Witnesses
      and StreamDecWitnesses: concrete fabrics, sticks and streams, the
      properties applied on them, and runs where the code departs from what it
      means.

    ** What the theorems show

    Delivery, against devices: a recall gives its sink exactly the window
    ([recallFrozen_window]), a drain exactly the stream's next words
    ([DrainStream_stream]), a download exactly the tile
    ([StackDownload_tile]), an event read exactly what it consumed
    ([ReadDecodedEventsInto_exact]), the startup check the whole memory
    ([counterRecall_memory]), a panel read one frame ([ReadPanel_frame]).
    Configuration, against ports: every trigger block, the record and the
    stacking session the fabric runs are those configured (the [_fabric]
    theorems, [Arm_arms], [Arm_triggers], [configureSymbol_table]), and Check
    admits only combinations the fabric has ([Check_exclusive]).
    Protocol and failure: acknowledged commands, closed queues on every return,
    banks held on failure, the grant's order, Poll and sameFrozen agreeing with
    the whole status. Termination: the [_ends] theorems and
    [recallSpans_partition]. Codecs: both directions of the event record and of
    the moments' 308 bits, and 128-bit addition.
    Transcripts: every unit kept in order and counted once ([Add_units]), the
    batch's round trip ([DecodeLines_EncodeLines]), the reader's copy
    ([reader_mirrors]). The worker: the stream from the drum to the app without
    a gap, whatever the order of looks, replies and peeks ([stream_fifo]); one
    answer a request, in order ([serve_answers]); a batch of writes through it
    as the writes themselves ([RawWriteMany_remote]).
    The update agent: whatever fails and whenever power goes, an update boots
    the old app or the whole new one ([AppUpdate_powercut]), a copy and an
    upload are the old file or the whole new one ([CopyExecutable_atomic],
    [transfer_whole]), the state is the old or the new ([update_durable]); a
    crash loop ends on the confirmed slot ([crash_loop_rolls_back]); nothing is
    killed before an idle landing ([Takeover_lands]); the watchdog is never
    leaked, closed armed or left unpetted ([watchdog_held]).

    The LAN link: a query returns the handler's replies to its own lines, each
    line handed over once and in order ([Query_answers]), however it was cut
    into writes ([pieces_whole]) or fragments ([readRecord_fragments]); the link
    has one owner, alive, under every interleaving ([single_link]); no bytes
    make the client panic ([client_safe]), nor the server where an int has 64
    bits ([hostile_bytes]). On the instrument two calls do
    ([read_size_crashes], [record_mark_crashes]).

    Continuous streams: whatever the decoder reports, no span is handed out
    twice or before an earlier one ([spans_once]) and the window stays within
    twice Max ([window_bounded]); of a decoder that reads frames as they are
    where the window holds them, the frames come out whole, in order, the same
    for any cut into pushes ([chunks_frames]). A line built from words holds
    their bits ([edges_samples]), and the decoder on edges hands out the frames
    of the decoder on samples, call by call ([edge_frames]).

    ** Bounds and fuel

    Polling loops take a bound, [fuel]; running out is [OutOfFuel], never a
    return. The [_ends] theorems show that on any bus whose accesses each take
    at least [tick] nanoseconds a bound that outlasts the loop's deadline
    ([lasts]) is never reached. WaitFrozen and a decoded capture's wait have no
    deadline of their own (the caller's context ends them) and no such theorem.
    [spansLoop] and [counterPairs] are given as many turns as they have words,
    which is enough ([recallSpans_partition], [counterWrite_exact]); so are
    [writeLoop] and [takeLoop] (the bytes: [writeLoop_spec], [takeLoop_spec]),
    [writeBatches] (the registers: [RawWriteMany_remote]) and [fillGap] (the
    missed lines: [fillGap_spec]). [serve] runs a given number of turns; its
    invariants hold after each. [copyLoop] has a turn more than its source has
    bytes, which is enough ([wpc_copyLoop], part of [CopyExecutable_atomic]).
    The loops of [watch], [adoptedLoop], [killWait] and [confirmIdle] end by
    the clock or by another process: [crash_loop_rolls_back] takes a fuel that
    outlasts AppGrace; [Takeover_lands] holds of whatever a run did, out of
    fuel too. The server's readFragments has a turn a byte that came, which is
    enough ([readRecord_fragments]); the client's takes a bound on a reply's
    fragments, which only the call's deadline ends, and [Query_answers] needs
    one turn. [wordEdges] has sixteen turns, one a bit of the word
    ([wordEdges_bits]).

    ** Conventions

    A Go call that returns a value beside an error is [Fail] alone: a partial
    count or block beside an error is dropped. SampleRateHz, a float64 that
    only holds exact values here, is a rational; the pump's rates are 53-bit
    floating point. A slice or index out of range is [Panic]. In the worker and
    the transcripts an int is the 32-bit target's ([int32]).

    A disk is its names, its files and the name tables that may still be what
    the medium holds; a cut leaves one of those tables, with each file it names
    whole when synced, else any content. Names reach the medium in order.
    Paths are cleaned; there are no links or directories but as names. Only
    the agent writes the stick. A wake of a select and an answer of the system
    are functions of the history. Texts of log lines, times and step arguments
    are left out.

    On the LAN, what the SCPI handler replies is a function of the lines it was
    given so far, the steps of a connection that touch what others share are
    the sections of the server's mutex, the handler's calls and the sleeps, and
    a read with nothing pending sleeps its whole timeout at once. A client's
    network call returns or fails; a full read returns that many bytes.

    The decoder a stream decoder runs is a function of the window's lines.
    Indices within a window are unbounded, those of the stream have 64 bits,
    and the theorems take streams under 2^63 samples. [chunks_frames] is about
    one line, no lead, and a decoder with the contract [readsBus].

    ** Not modelled

    The mutexes of a Capture, the worker and the agent (their methods hold
    their own throughout, so they do not interleave) and the goroutines around
    them; the bus below its interface
    and the kernel driver, which are the parameters of [Env] and [Hardware];
    the start and end of the worker's process, the socket's options, the
    mapping of the shared ring, SetStreamYield (how a transfer waits) and the
    rounding of the durations in a fault's text; Rate, Header and Format of a
    transcript, which render text; the contents of the stream's reused buffers,
    which a drain overwrites. Of the agent: its transport (rpc, TCP, NATS), the
    shell commands of exec, reboot and reassertNetwork, get, logs, status and
    probe, the board diagnostics, the replacement of the agent itself, Run and
    Stop; the interleaving of its goroutines but for the watchdog's; the decoder
    of a state document the agent did not write, a parameter ([JsonEnv]). Of the
    rest of the repository: the acquisition engine, the offline decoders,
    analysis, measurement and sound (mostly floating point), the user
    interfaces, the web server and the SCPI commands are left out. Of the LAN
    server: Start, the portmapper's registration and the accept errors. Of the
    streams: the decoding of one record (StreamRecord and its variants), the
    analysis the edge decoders make of a line (runs, slice, heldBeyond) and the
    arrays they borrow. *)

From stdpp Require Export base list numbers option strings gmap.
From Stdlib Require Export ZArith Lia.

#[export] Set Default Goal Selector "!".
#[export] Set Bullet Behavior "Strict Subproofs".

Open Scope Z_scope.
Declare Scope go_scope.
Delimit Scope go_scope with go.

(** ** Go's unsigned integers: the value reduced modulo the width *)

Definition u8 (x : Z) : Z := x mod 2 ^ 8.
Definition u16 (x : Z) : Z := x mod 2 ^ 16.
Definition u32 (x : Z) : Z := x mod 2 ^ 32.
Definition u64 (x : Z) : Z := x mod 2 ^ 64.

(** [int(x)] on the instrument (GOARCH=arm), whose int has 32 bits. *)
Definition int32 (x : Z) : Z := (x + 2 ^ 31) mod 2 ^ 32 - 2 ^ 31.

(** A value of a [w]-bit unsigned type. *)
Definition fits (w x : Z) : Prop := 0 <= x < 2 ^ w.
Definition fitsb (w x : Z) : bool := (0 <=? x) && (x <? 2 ^ w).

(** [a | b], [a & b] and the shifts of the source, on non-negative values; a
    shift left at a width is wrapped by the width's conversion. *)
Notation "a .| b" := (Z.lor a b) (at level 52, left associativity) : go_scope.
Notation "a .& b" := (Z.land a b) (at level 50, left associativity) : go_scope.
Notation "a .<< b" := (Z.shiftl a b) (at level 48, left associativity) : go_scope.
Notation "a .>> b" := (Z.shiftr a b) (at level 48, left associativity) : go_scope.
Open Scope go_scope.

(** [x&m != 0], [x&m == 0]: the flag tests of the source. *)
Definition has (x m : Z) : bool := negb (x .& m =? 0).

(** [if b then v], as the source's [if p.F { control |= v }]. *)
Definition bit (b : bool) (v : Z) : Z := if b then v else 0.

(** The [w] bits of [x] from bit [o]. *)
Definition bits (x o w : Z) : Z := (x .>> o) .& Z.ones w.

(** ** Lemmas on widths *)

Lemma fits_u8 x : fits 8 (u8 x).
Proof. unfold fits, u8. apply Z.mod_pos_bound. lia. Qed.
Lemma fits_u16 x : fits 16 (u16 x).
Proof. unfold fits, u16. apply Z.mod_pos_bound. lia. Qed.
Lemma fits_u32 x : fits 32 (u32 x).
Proof. unfold fits, u32. apply Z.mod_pos_bound. lia. Qed.
Lemma u8_fits x : fits 8 x -> u8 x = x.
Proof. apply Z.mod_small. Qed.
Lemma u16_fits x : fits 16 x -> u16 x = x.
Proof. apply Z.mod_small. Qed.
Lemma u32_fits x : fits 32 x -> u32 x = x.
Proof. apply Z.mod_small. Qed.
Lemma u64_fits x : fits 64 x -> u64 x = x.
Proof. apply Z.mod_small. Qed.

Lemma int32_small x : - 2 ^ 31 <= x < 2 ^ 31 -> int32 x = x.
Proof. intros Hx. unfold int32. rewrite Z.mod_small; lia. Qed.
Lemma int32_range x : - 2 ^ 31 <= int32 x < 2 ^ 31.
Proof. unfold int32. pose proof (Z.mod_pos_bound (x + 2 ^ 31) (2 ^ 32)). lia. Qed.

Lemma fits_le v w x : v <= w -> fits v x -> fits w x.
Proof.
  unfold fits. intros H [H0 H1]. split; [lia|].
  eapply Z.lt_le_trans; [exact H1|]. apply Z.pow_le_mono_r; lia.
Qed.

Lemma fitsb_spec w x : fitsb w x = true <-> fits w x.
Proof. unfold fitsb, fits. rewrite andb_true_iff, Z.leb_le, Z.ltb_lt. done. Qed.

(** ** The bit-slice rewrites: reading a field back from a packed word

    A packed register word is a disjunction of shifted fields; these lemmas,
    as the rewrite base [bits], read one field of it back. *)

Lemma testbit_bits x o w i :
  0 <= o -> 0 <= w -> 0 <= i ->
  Z.testbit (bits x o w) i = Z.testbit x (i + o) && (i <? w).
Proof.
  intros. unfold bits. rewrite Z.land_spec, Z.shiftr_spec by lia.
  rewrite Z.testbit_ones_nonneg by lia. done.
Qed.

Lemma bits_mod x o w : 0 <= o -> 0 <= w -> bits x o w = (x / 2 ^ o) mod 2 ^ w.
Proof.
  intros. unfold bits. rewrite Z.land_ones by lia.
  rewrite Z.shiftr_div_pow2 by lia. done.
Qed.

Lemma fits_bits x o w : 0 <= o -> 0 <= w -> fits w (bits x o w).
Proof.
  intros. rewrite bits_mod by lia. apply Z.mod_pos_bound. apply Z.pow_pos_nonneg; lia.
Qed.

Lemma fits_testbit w x i : fits w x -> w <= i -> Z.testbit x i = false.
Proof.
  intros [H0 H1] Hi. assert (x = 0 \/ 0 < x) as [->|Hx] by lia.
  { apply Z.testbit_0_l. }
  apply Z.bits_above_log2; [lia|].
  destruct (Z_lt_le_dec w 0) as [Hw|Hw].
  { rewrite Z.pow_neg_r in H1 by lia. lia. }
  apply Z.log2_lt_pow2 in H1; lia.
Qed.

Lemma bits_lor x y o w : 0 <= o -> 0 <= w -> bits (x .| y) o w = bits x o w .| bits y o w.
Proof.
  intros. apply Z.bits_inj'. intros i Hi.
  rewrite Z.lor_spec, !testbit_bits, Z.lor_spec by lia. by rewrite andb_orb_distrib_l.
Qed.

(** A field below the slice. *)
Lemma bits_above x o w : fits o x -> 0 <= o -> 0 <= w -> bits x o w = 0.
Proof.
  intros H Ho Hw. apply Z.bits_inj'. intros i Hi.
  rewrite testbit_bits, Z.testbit_0_l by lia.
  by rewrite (fits_testbit o x) by (lia || done).
Qed.

(** The field itself. *)
Lemma bits_self x w : fits w x -> 0 <= w -> bits x 0 w = x.
Proof.
  intros H Hw. rewrite bits_mod by lia. rewrite Z.pow_0_r, Z.div_1_r. by apply Z.mod_small.
Qed.

Lemma bits_shl x k o w : 0 <= k -> k <= o -> 0 <= w -> bits (x .<< k) o w = bits x (o - k) w.
Proof.
  intros. apply Z.bits_inj'. intros i Hi. rewrite !testbit_bits by lia.
  rewrite Z.shiftl_spec by lia. do 2 f_equal. lia.
Qed.

(** A field above the slice. *)
Lemma bits_below x k o w : 0 <= o -> 0 <= w -> o + w <= k -> bits (x .<< k) o w = 0.
Proof.
  intros. apply Z.bits_inj'. intros i Hi. rewrite testbit_bits, Z.testbit_0_l by lia.
  rewrite Z.shiftl_spec by lia. destruct (Z.ltb_spec i w); [|by rewrite andb_false_r].
  rewrite Z.testbit_neg_r by lia. done.
Qed.

Lemma bits_mod_pow x n o w :
  0 <= o -> 0 <= w -> o + w <= n -> bits (x mod 2 ^ n) o w = bits x o w.
Proof.
  intros. apply Z.bits_inj'. intros i Hi. rewrite !testbit_bits by lia.
  destruct (Z.ltb_spec i w); [|by rewrite !andb_false_r].
  by rewrite Z.mod_pow2_bits_low by lia.
Qed.

Lemma bits_u16 x o w : 0 <= o -> 0 <= w -> o + w <= 16 -> bits (u16 x) o w = bits x o w.
Proof. apply bits_mod_pow. Qed.

(** A value is its low and high part. *)
Lemma bits_split x k n : fits n x -> 0 <= k <= n -> bits x 0 k .| (bits x k (n - k) .<< k) = x.
Proof.
  intros Hx Hk. apply Z.bits_inj'. intros i Hi.
  rewrite Z.lor_spec, Z.shiftl_spec, testbit_bits, Z.add_0_r by lia.
  destruct (Z.ltb_spec i k).
  - rewrite (Z.testbit_neg_r _ (i - k)) by lia. by rewrite andb_true_r, orb_false_r.
  - rewrite testbit_bits by lia. rewrite andb_false_r. simpl.
    replace (i - k + k) with i by lia.
    destruct (Z.ltb_spec (i - k) (n - k)); [by rewrite andb_true_r|].
    rewrite andb_false_r. by rewrite (fits_testbit n x) by (done || lia).
Qed.

(** A value over a lower field: no carry. *)
Lemma lor_shl_add n lo hi : 0 <= n -> fits n lo -> lo .| (hi .<< n) = lo + hi * 2 ^ n.
Proof.
  intros Hn Hlo. rewrite <- Z.shiftl_mul_pow2 by lia. symmetry. apply Z.add_nocarry_lor.
  apply Z.bits_inj'. intros i Hi. rewrite Z.land_spec, Z.testbit_0_l, Z.shiftl_spec by lia.
  destruct (Z.lt_ge_cases i n).
  - by rewrite (Z.testbit_neg_r _ (i - n)), andb_false_r by lia.
  - by rewrite (fits_testbit n lo) by (done || lia).
Qed.

Lemma fits_lor_shl n k lo hi : 0 <= n -> 0 <= k -> fits n lo -> fits k hi -> fits (n + k) (lo .| (hi .<< n)).
Proof.
  intros Hn Hk Hlo Hhi. rewrite lor_shl_add by done. unfold fits in *. rewrite Z.pow_add_r by lia. nia.
Qed.

Lemma fits_lor w x y : 0 <= w -> fits w x -> fits w y -> fits w (x .| y).
Proof.
  intros Hw Hx Hy. assert (x .| y = bits (x .| y) 0 w) as ->; [|apply fits_bits; lia].
  rewrite bits_lor, !bits_self by (done || lia). done.
Qed.
Lemma fits_shl1 w k : 0 <= k < w -> fits w (1 .<< k).
Proof.
  intros Hk. rewrite Z.shiftl_1_l. unfold fits. split; [apply Z.pow_nonneg; lia|]. apply Z.pow_lt_mono_r; lia.
Qed.

Lemma has_bit0 x : has x 1 = Z.odd x.
Proof.
  unfold has. change 1 with (Z.ones 1) at 1. rewrite Z.land_ones by lia. change (2 ^ 1) with 2.
  rewrite Zmod_odd. by destruct (Z.odd x).
Qed.

(** ** Little-endian bytes (encoding/binary) *)

Fixpoint leBytes (n : nat) (v : Z) : list Z :=
  match n with
  | O => []
  | S n => (v mod 256) :: leBytes n (v / 256)
  end.
Fixpoint leVal (l : list Z) : Z :=
  match l with
  | [] => 0
  | b :: l => b + 256 * leVal l
  end.

(** A string's bytes. *)
Definition text (s : string) : list Z := map (fun c => Z.of_N (Ascii.N_of_ascii c)) (String.list_ascii_of_string s).
Arguments text _%_string.

(** [b[o:o+n]] within range. *)
Definition slice {A} (o n : nat) (b : list A) : list A := take n (drop o b).

Definition isBytes (l : list Z) : Prop := Forall (fits 8) l.

Lemma length_leBytes n v : length (leBytes n v) = n.
Proof. revert v. induction n; intros; simpl; auto. Qed.

Lemma isBytes_leBytes n v : isBytes (leBytes n v).
Proof.
  revert v. induction n; intros v; simpl; constructor; [|apply IHn].
  apply (Z.mod_pos_bound v 256). lia.
Qed.

Lemma leVal_leBytes n v : fits (8 * Z.of_nat n) v -> leVal (leBytes n v) = v.
Proof.
  revert v. induction n as [|n IH]; intros v [H0 H1]; simpl.
  { change (2 ^ (8 * Z.of_nat 0)) with 1 in H1. lia. }
  rewrite IH; [rewrite (Z.div_mod v 256) at 3; lia|].
  replace (8 * Z.of_nat (S n)) with (8 + 8 * Z.of_nat n) in H1 by lia.
  rewrite Z.pow_add_r in H1 by lia. change (2 ^ 8) with 256 in H1.
  split; [apply Z.div_pos; lia|]. apply Z.div_lt_upper_bound; lia.
Qed.

Lemma leVal_bound l : isBytes l -> fits (8 * Z.of_nat (length l)) (leVal l).
Proof.
  induction 1 as [|b l Hb Hl IH]; cbn [leVal length].
  { unfold fits. change (2 ^ (8 * Z.of_nat 0)) with 1. lia. }
  unfold fits in *. change (2 ^ 8) with 256 in Hb.
  replace (8 * Z.of_nat (S (length l))) with (8 + 8 * Z.of_nat (length l)) by lia.
  rewrite Z.pow_add_r by lia. change (2 ^ 8) with 256. lia.
Qed.

Lemma leBytes_leVal l : isBytes l -> leBytes (length l) (leVal l) = l.
Proof.
  induction 1 as [|b l Hb Hl IH]; simpl; [done|].
  unfold fits in Hb. change (2 ^ 8) with 256 in Hb.
  replace (b + 256 * leVal l) with (b + leVal l * 256) by lia. f_equal.
  - rewrite Z.mod_add by lia. by apply Z.mod_small.
  - rewrite Z.div_add by lia. rewrite (Z.div_small b) by lia. simpl. exact IH.
Qed.

Lemma isBytes_slice o n l : isBytes l -> isBytes (slice o n l).
Proof. intros H. apply Forall_take, Forall_drop, H. Qed.

Lemma length_slice {A} o n (l : list A) : (o + n <= length l)%nat -> length (slice o n l) = n.
Proof. intros. unfold slice. rewrite length_take, length_drop. lia. Qed.

Lemma slice_take {A} o n k (l : list A) : (o + n <= k)%nat -> slice o n (take k l) = slice o n l.
Proof. intros. unfold slice. rewrite skipn_firstn_comm, take_take, Nat.min_l by lia. done. Qed.

Lemma leBytes_slice o n l :
  isBytes l -> (o + n <= length l)%nat -> leBytes n (leVal (slice o n l)) = slice o n l.
Proof.
  intros Hl Hn. rewrite <- (length_slice o n l Hn) at 1. apply leBytes_leVal.
  by apply isBytes_slice.
Qed.

Lemma leVal_app l l' : leVal (l ++ l') = leVal l + leVal l' * 2 ^ (8 * Z.of_nat (length l)).
Proof.
  induction l as [|b l IH]; cbn [app leVal length]; [lia|].
  rewrite IH. replace (8 * Z.of_nat (S (length l))) with (8 + 8 * Z.of_nat (length l)) by lia.
  rewrite Z.pow_add_r by lia. change (2 ^ 8) with 256. ring.
Qed.

Lemma slice_app {A} o n k (l : list A) : slice o (n + k) l = slice o n l ++ slice (o + n) k l.
Proof. unfold slice. by rewrite <- (drop_drop l n o), take_take_drop. Qed.

(** Big-endian: network order. *)
Definition beBytes (n : nat) (v : Z) : list Z := rev (leBytes n v).
Definition beVal (b : list Z) : Z := leVal (rev b).

Lemma length_beBytes n v : length (beBytes n v) = n.
Proof. unfold beBytes. by rewrite length_rev, length_leBytes. Qed.
Lemma isBytes_beBytes n v : isBytes (beBytes n v).
Proof. apply Forall_rev, isBytes_leBytes. Qed.
Lemma beVal_beBytes n v : fits (8 * Z.of_nat n) v -> beVal (beBytes n v) = v.
Proof. intros. unfold beVal, beBytes. rewrite rev_involutive. by apply leVal_leBytes. Qed.
Lemma beVal_bound b : isBytes b -> fits (8 * Z.of_nat (length b)) (beVal b).
Proof. intros. unfold beVal. rewrite <- length_rev. apply leVal_bound. by apply Forall_rev. Qed.

#[global] Arguments leBytes : simpl never.
#[global] Arguments beBytes : simpl never.
#[global] Arguments beVal : simpl never.
#[global] Arguments leVal : simpl never.
#[global] Arguments slice : simpl never.
#[global] Arguments bits : simpl never.
#[global] Arguments Z.land : simpl never.
#[global] Arguments Z.lor : simpl never.
#[global] Arguments Z.shiftl : simpl never.
#[global] Arguments Z.shiftr : simpl never.

(** ** Reading one field of a packed word

    [bits_tac]: with the width of each packed value as a [fits] hypothesis,
    reduce a slice of a disjunction of shifted values and flags to the one
    field that lies there. *)

Lemma bits_hi n x o w : fits n x -> n <= o -> 0 <= o -> 0 <= w -> bits x o w = 0.
Proof. intros H Hn Ho Hw. apply bits_above; [by apply (fits_le n)|done..]. Qed.
Lemma bits_in n x w : fits n x -> n <= w -> 0 <= w -> bits x 0 w = x.
Proof. intros H Hn Hw. apply bits_self; [by apply (fits_le n)|done]. Qed.
Lemma bits_flag (b : bool) v o w : bits (bit b v) o w = bit b (bits v o w).
Proof.
  destruct b; [done|]. unfold bit, bits. by rewrite Z.shiftr_0_l, Z.land_0_l.
Qed.
Lemma bits_0 o w : bits 0 o w = 0.
Proof. unfold bits. by rewrite Z.shiftr_0_l, Z.land_0_l. Qed.
Lemma bit_0 b : bit b 0 = 0.
Proof. by destruct b. Qed.
Lemma bit_flag b : (bit b 1 =? 1) = b.
Proof. by destruct b. Qed.

Ltac bits_step :=
  match goal with
  | |- context [bits (Z.lor _ _) _ _] => rewrite bits_lor by lia
  | |- context [bits (u16 _) _ _] => rewrite bits_u16 by lia
  | |- context [bits (bit _ _) _ _] => rewrite bits_flag
  | |- context [bits (Z.shiftl _ ?k) ?o ?w] =>
      first [ rewrite bits_below by lia
            | rewrite bits_shl by lia;
              let o' := eval cbv in (o - k) in change (o - k) with o' ]
  | |- context [bits Z0 ?o ?w] => rewrite bits_0
  | |- context [bits (Zpos ?v) ?o ?w] =>
      let r := eval vm_compute in (bits (Zpos v) o w) in change (bits (Zpos v) o w) with r
  | H : fits ?n ?x |- context [bits ?x ?o ?w] =>
      first [ rewrite (bits_in n x w H) by lia | rewrite (bits_hi n x o w H) by lia ]
  | |- context [bit _ 0] => rewrite bit_0
  end.
Ltac bits_tac := repeat bits_step; rewrite ?Z.lor_0_l, ?Z.lor_0_r, ?bit_flag.

(** [lia] after comparisons as propositions (it loses the sign of a
    [Z.of_nat] inside a boolean comparison). *)
Ltac blia :=
  rewrite ?andb_true_iff, ?andb_false_iff, ?orb_true_iff, ?orb_false_iff, ?Z.ltb_lt, ?Z.ltb_ge, ?Z.leb_le, ?Z.leb_gt,
    ?Z.eqb_eq, ?Z.eqb_neq in *; lia.

(** A value's width from its bounds. *)
Lemma fits_bound n x : 0 <= x -> x <= 2 ^ n - 1 -> fits n x.
Proof. unfold fits. lia. Qed.
Ltac width n x := assert (fits n x) by (apply fits_bound; [unfold fits in *; lia | unfold fits in *; simpl in *; lia]).
