(* ===== verification/Circular.v ===== *)
(** * Copies into buffers, and circular buffers

    Go's [copy] into a slice, and what a circular buffer holds: the cells of
    an array from a head on, past its end from its start. The rings of
    src/app/internal/bus and src/app/internal/decodedlines are proved against
    these lemmas as queues. *)
From S2P Require Import Prelude.

(** [copy(dst[o:], src)] *)
Definition copyAt {A} (o : nat) (src dst : list A) : list A :=
  take o dst ++ take (length dst - o) src ++ drop (o + length src) dst.

Lemma length_copyAt {A} o (src dst : list A) : length (copyAt o src dst) = length dst.
Proof. unfold copyAt. rewrite !length_app, !length_take, length_drop. lia. Qed.

(** A copy leaves what lies before it, and what it put there. *)
Lemma take_copyAt {A} k o (src dst : list A) : (k <= length dst)%nat -> take k (copyAt (k + o) src dst) = take k dst.
Proof.
  intros. unfold copyAt. rewrite take_app_le by (rewrite length_take; lia). rewrite take_take. f_equal. lia.
Qed.
Lemma slice_copyAt {A} o (src dst : list A) :
  (o + length src <= length dst)%nat -> slice o (length src) (copyAt o src dst) = src.
Proof.
  intros. unfold slice, copyAt. rewrite drop_app_length' by (rewrite length_take; lia).
  rewrite take_app_le by (rewrite length_take; lia). rewrite take_take, take_ge by lia. done.
Qed.

Lemma lookup_copyAt {A} o (src dst : list A) i :
  (o + length src <= length dst)%nat ->
  copyAt o src dst !! i = if decide (o <= i < o + length src)%nat then src !! (i - o)%nat else dst !! i.
Proof.
  intros Hlen. unfold copyAt. case_decide as Hi.
  - rewrite lookup_app_r by (rewrite length_take; lia). rewrite length_take, Nat.min_l by lia.
    rewrite lookup_app_l by (rewrite length_take; lia). apply lookup_take_lt. lia.
  - destruct (decide (i < o)%nat) as [Ho|Ho].
    + rewrite lookup_app_l by (rewrite length_take; lia). by apply lookup_take_lt.
    + rewrite lookup_app_r by (rewrite length_take; lia). rewrite length_take, Nat.min_l by lia.
      rewrite lookup_app_r by (rewrite length_take; lia). rewrite length_take, lookup_drop. f_equal. lia.
Qed.

(** ** The [n] cells of the array [r] from [h] on *)

Definition circ {A} (r : list A) (h n : nat) : list A := take n (rotate h r).
#[global] Arguments circ : simpl never.

Section circ.
Context {A : Type}.
Implicit Types (r d : list A).

Lemma length_circ r h n : (n <= length r)%nat -> length (circ r h n) = n.
Proof. intros. unfold circ. rewrite length_take, length_rotate. lia. Qed.

Lemma lookup_circ r h n i :
  (h < length r)%nat -> (i < n <= length r)%nat -> circ r h n !! i = r !! ((h + i) `mod` length r)%nat.
Proof.
  intros Hh Hi. unfold circ. rewrite lookup_take_lt by lia. rewrite lookup_rotate_r by lia.
  unfold rotate_nat_add. rewrite <- Nat2Z.inj_add, <- Nat2Z.inj_mod, Nat2Z.id. done.
Qed.

Lemma circ_0 r h : circ r h 0 = [].
Proof. done. Qed.

(** A lookup inside is a cell; outside, nothing. *)
Lemma lookup_circ_ge r h n i : (n <= length r)%nat -> (n <= i)%nat -> circ r h n !! i = None.
Proof. intros. apply lookup_ge_None_2. by rewrite length_circ by lia. Qed.

(** Equal cells, equal content. *)
Lemma circ_ext r l h n :
  (h < length r)%nat -> (n <= length r)%nat -> length l = n ->
  (forall i, (i < n)%nat -> r !! ((h + i) `mod` length r)%nat = l !! i) -> circ r h n = l.
Proof.
  intros Hh Hn Hl Hi. apply list_eq. intros i. destruct (decide (i < n)%nat) as [Hlt|Hge].
  - rewrite lookup_circ by lia. by apply Hi.
  - rewrite lookup_circ_ge by lia. symmetry. apply lookup_ge_None_2. lia.
Qed.

(** The index of a cell, past the end at most once. *)
Lemma mod_once a N : (0 < N)%nat -> (a < N + N)%nat -> (a `mod` N = if decide (a < N) then a else a - N)%nat.
Proof.
  intros HN Ha. case_decide; [by apply Nat.mod_small|].
  symmetry. apply (Nat.mod_unique _ _ 1); lia.
Qed.

Ltac cases := repeat match goal with
  | H : context [if decide ?P then _ else _] |- _ => destruct (decide P)
  | |- context [if decide ?P then _ else _] => destruct (decide P)
  end.

(** A write behind the content appends to it. *)
Lemma circ_put r d h n :
  (h < length r)%nat -> (n + length d <= length r)%nat ->
  ((h + n) `mod` length r + length d <= length r)%nat ->
  circ (copyAt ((h + n) `mod` length r)%nat d r) h (n + length d) = circ r h n ++ d.
Proof.
  intros Hh Hn Ha. set (a := ((h + n) `mod` length r)%nat) in *.
  assert (length (copyAt a d r) = length r) as Hl by by apply length_copyAt.
  apply circ_ext; rewrite ?Hl; [lia|lia|rewrite length_app, length_circ; lia|]. intros i Hi.
  rewrite lookup_copyAt by done.
  pose proof (mod_once (h + i) (length r) ltac:(lia) ltac:(lia)) as Hm.
  pose proof (mod_once (h + n) (length r) ltac:(lia) ltac:(lia)) as Hma. fold a in Hma.
  destruct (decide (i < n)%nat) as [Hlt|Hge].
  - rewrite lookup_app_l by (rewrite length_circ; lia). rewrite lookup_circ by lia.
    match goal with |- context [decide ?P] => destruct (decide P) as [Hd|Hd] end; [|done]. exfalso. cases; lia.
  - rewrite lookup_app_r by (rewrite length_circ; lia). rewrite length_circ by lia.
    match goal with |- context [decide ?P] => destruct (decide P) as [Hd|Hd] end; [|exfalso; cases; lia].
    f_equal. cases; lia.
Qed.

Lemma circ_push r x h n :
  (h < length r)%nat -> (n < length r)%nat ->
  circ (<[((h + n) `mod` length r)%nat := x]> r) h (S n) = circ r h n ++ [x].
Proof.
  intros Hh Hn. pose proof (mod_once (h + n) (length r) ltac:(lia) ltac:(lia)) as Hma.
  apply circ_ext; rewrite ?length_insert; [lia|lia|rewrite length_app, length_circ; simpl; lia|]. intros i Hi.
  pose proof (mod_once (h + i) (length r) ltac:(lia) ltac:(lia)) as Hm.
  destruct (decide (i < n)%nat) as [Hlt|Hge].
  - rewrite lookup_app_l by (rewrite length_circ; lia). rewrite lookup_circ by lia.
    apply list_lookup_insert_ne. cases; lia.
  - rewrite lookup_app_r by (rewrite length_circ; lia). rewrite length_circ by lia.
    replace (i - n)%nat with 0%nat by lia. replace i with n by lia. apply list_lookup_insert_eq.
    cases; lia.
Qed.

(** A full ring: the oldest cell is overwritten and the head steps past it. *)
Lemma circ_over r x h :
  (h < length r)%nat ->
  circ (<[h := x]> r) ((h + 1) `mod` length r) (length r) = drop 1 (circ r h (length r)) ++ [x].
Proof.
  intros Hh. pose proof (mod_once (h + 1) (length r) ltac:(lia) ltac:(lia)) as Hm1.
  apply circ_ext; rewrite ?length_insert; [cases; lia|lia| |].
  { rewrite length_app, length_drop, length_circ; simpl; lia. }
  intros i Hi. pose proof (mod_once ((h + 1) `mod` length r + i) (length r) ltac:(lia)) as Hm.
  rewrite Hm1 in *. destruct (decide (i < length r - 1)%nat) as [Hlt|Hge].
  - rewrite lookup_app_l by (rewrite length_drop, length_circ; lia).
    rewrite lookup_drop, lookup_circ by lia.
    pose proof (mod_once (h + (1 + i)) (length r) ltac:(lia) ltac:(lia)) as Hm2. rewrite Hm2.
    rewrite Hm by (cases; lia).
    rewrite list_lookup_insert_ne by (cases; lia). f_equal. cases; lia.
  - rewrite lookup_app_r by (rewrite length_drop, length_circ; lia). rewrite length_drop, length_circ by lia.
    replace (i - (length r - 1))%nat with 0%nat by lia. simpl.
    rewrite Hm by (cases; lia).
    replace (if decide _ then _ else _) with h by (cases; lia). by apply list_lookup_insert_eq.
Qed.

(** The head moves on. *)
Lemma circ_drop r h n k :
  (h < length r)%nat -> (k <= n <= length r)%nat ->
  circ r ((h + k) `mod` length r) (n - k) = drop k (circ r h n).
Proof.
  intros Hh Hk. assert ((h + k) `mod` length r < length r)%nat as Hm by (apply Nat.mod_upper_bound; lia).
  apply circ_ext; [done|lia|rewrite length_drop, length_circ; lia|]. intros i Hi.
  rewrite lookup_drop, lookup_circ by lia. f_equal.
  rewrite Nat.Div0.add_mod_idemp_l. f_equal. lia.
Qed.

(** A run of cells before the end. *)
Lemma circ_slice r h n k :
  (h < length r)%nat -> (k <= n <= length r)%nat -> (h + k <= length r)%nat -> take k (circ r h n) = slice h k r.
Proof.
  intros Hh Hk Hhk. apply list_eq. intros i. destruct (decide (i < k)%nat) as [Hi|Hi].
  - rewrite lookup_take_lt by lia. unfold slice. rewrite lookup_take_lt, lookup_drop, lookup_circ by lia.
    by rewrite Nat.mod_small by lia.
  - rewrite !lookup_ge_None_2; [done|rewrite length_slice; lia|rewrite length_take; lia].
Qed.

(** The content in two pieces, the second past the end. *)
Lemma circ_pieces r h n :
  (h < length r)%nat -> (n <= length r)%nat ->
  circ r h n = slice h (Nat.min n (length r - h)) r ++ take (n - Nat.min n (length r - h)) r.
Proof.
  intros Hh Hn. set (k := Nat.min n (length r - h)).
  rewrite <- (take_drop k (circ r h n)). rewrite circ_slice by lia. f_equal.
  rewrite <- circ_drop by lia. destruct (decide (n = k)) as [Hk|Hk].
  { by replace (n - k)%nat with 0%nat by lia. }
  assert (k = length r - h)%nat as Hk' by lia. rewrite Hk'.
  replace (h + (length r - h))%nat with (length r) by lia. rewrite Nat.Div0.mod_same.
  unfold circ, rotate. rewrite Nat.Div0.mod_0_l. simpl. by rewrite app_nil_r.
Qed.

(** The content in two, at any place. *)
Lemma circ_split r h n k :
  (h < length r)%nat -> (k <= n <= length r)%nat ->
  circ r h n = circ r h k ++ circ r ((h + k) `mod` length r) (n - k).
Proof.
  intros Hh Hk. rewrite circ_drop by lia. unfold circ at 2. rewrite <- (take_drop k (circ r h n)) at 1. f_equal.
  unfold circ. rewrite take_take. by rewrite Nat.min_l by lia.
Qed.
End circ.
