(* ===== verification/Machine.v ===== *)
(** * The machine the capture code runs on

    Errors, the bus as an oracle over its own history, the state of one
    [Capture], and the state-and-error monad its methods are written in.

    Everything outside the package is the class [Env]: the [Bus] interface and
    the optional interfaces the code asserts on it, the sinks data is written
    to, and the clock. Each answer is a function of the history of bus and sink
    events so far, so an [Env] is any deterministic environment. *)
From S2P Require Import Prelude.

(** ** Errors and outcomes *)

(** An error value. [EMsg] and [EWrap] are [errors.New] / [fmt.Errorf] with
    their constant text and their integer arguments ([EWrap] is [%w], whose
    operand may be nil, [ENil]); [EBus] is an error made outside the package. *)
Inductive err :=
| EBus (code : Z)
| ECanceled
| EDeadline
| EShortWrite
| EMsg (m : string) (args : list Z)
| EWrap (m : string) (args : list Z) (e : err)
| EJoin (e1 e2 : err)
| ENil.
Arguments EMsg _%_string _%_list.
Arguments EWrap _%_string _%_list _.

(** What a call does: return, return an error, panic (a slice or index out of
    range) or exhaust the loop bound of the model. *)
Inductive outcome (A : Type) :=
| Ret (a : A)
| Fail (e : err)
| Panic
| OutOfFuel.
Arguments Ret {A} a.
Arguments Fail {A} e.
Arguments Panic {A}.
Arguments OutOfFuel {A}.

(** ** The history *)

(** A data sink: one made outside the package, or the startup check's own
    [counterVerifier]. *)
Inductive sink := SExt (id : Z) | SCounter.

Inductive event :=
| EvRead (sel : Z) (r : Z + err)
| EvWrite (sel v : Z) (r : option err)
| EvWriteMany (regs : list (Z * Z)) (r : option err)
| EvReadMany (sels : list Z) (r : list Z + err)
| EvPopBytes (sel n : Z) (r : list Z + err)
| EvPopWords (sel n : Z) (r : list Z + err)
| EvRecallIsolated (epoch record : Z) (windows : list Z) (r : bool * (list Z + err))
| EvPanelIsolated (r : bool * (list Z + err))
| EvEventsIsolated (epoch : Z) (r : bool * (Z * list Z + err))
| EvStackIsolated (n : Z) (r : bool * (list Z + err))
| EvLineMode (proto : Z) (r : bool + err)
| EvLines (epoch from : Z) (flush : bool) (r : Z * bool * option err)
| EvSleep (ns : Z)
| EvYield (done total : Z)
| EvSink (id : Z) (data : list Z) (r : Z * option err)
| EvRoom (id n : Z) (granted : bool)
| EvRoomPut (id off : Z) (data : list Z)
| EvFill (id n : Z)
| EvReserve (id n : Z) (r : Z * Z + err)
| EvReservedPut (id : Z) (data : list Z)
| EvCommit (id n : Z)
(** the acquisition worker's own: plane 3's registers, its thread's real-time
    deadline and the shared ring's mapping *)
| EvRead3 (sel : Z) (r : Z + err)
| EvWrite3 (sel v : Z) (r : option err)
| EvDeadline (r : bool + err)
| EvRaise
| EvRelax (r : option err)
| EvPin (shared : bool).

Definition history := list event.

(** ** The environment *)

Class Env := {
  (** the [Bus] interface, plane 1 *)
  env_Read : history -> Z -> Z + err;
  env_RawWrite : history -> Z -> Z -> option err;
  (** the interfaces a bus may also have: manyWriter, manyReader,
      PopBytesChecked, PopWordsChecked, isolatedRecall, ReadIsolatedPanel,
      ReadIsolatedDecodedBytes, isolatedStack, SetIsolatedLineMode,
      ReadIsolatedLines *)
  env_RawWriteMany : option (history -> list (Z * Z) -> option err);
  env_ReadMany : option (history -> list Z -> list Z + err);
  env_PopBytes : option (history -> Z -> Z -> list Z + err);
  env_PopWords : option (history -> Z -> Z -> list Z + err);
  env_RecallIsolated : option (history -> Z -> Z -> list Z -> Z -> bool * (list Z + err));
  env_PanelIsolated : option (history -> bool * (list Z + err));
  env_EventsIsolated : option (history -> Z -> Z -> bool * (Z * list Z + err));
  env_StackIsolated : option (history -> Z -> bool * (list Z + err));
  env_LineMode : option (history -> Z -> bool + err);
  env_Lines : option (history -> Z -> Z -> bool -> Z -> Z * bool * option err);
  (** io.Writer, and the RecallRoom and StreamReserver a sink may also be *)
  env_SinkWrite : history -> Z -> list Z -> Z * option err;
  env_SinkIsRoom : Z -> bool;
  env_Room : history -> Z -> Z -> bool;
  env_SinkIsReserver : Z -> bool;
  env_Reserve : history -> Z -> Z -> Z * Z + err;
  (** time.Now in nanoseconds, and a context's cancellation *)
  env_Now : history -> Z;
  env_Done : history -> Z -> bool;
}.

(** ** The state of a Capture *)

Record capture := Capture {
  trace : list event (* the bus and sink history (ghost) *);
  armRead : list Z (* registers Arm read in one batch *);
  armReady : bool (* they answer Arm's reads *);
  queueWrites : bool (* writes queue in pending *);
  pending : list (Z * Z) (* the queued writes, oldest first *);
  envelopeOn : bool (* an envelope recall may have left the reducer on *);
  envelopeRejects : Z (* rejected envelope commands *);
  envelopeLast : option err (* the last of them *);
  symbolTable : list Z (* the symbol trigger's table last written *);
  symbolTableOK : bool (* symbolTable is what the fabric holds *);
  beats : Z (* successful bus activity, an atomic.Uint64 *);
  ringStream : bool (* a stream started with its record as a ring *);
  streamWords : Z (* the stream buffer's words, 0 until prepared *);
  streamCap : Z (* len(streamHalves); streamBytes is twice that *);
  streamBacklog : bool (* the drum's backlog flag at the last drain *);
  recallScratch : list Z (* its array, up to its capacity: a forward recall's window, reused *);
  counterNext : Z (* the startup verifier's next word (counterVerifier.next) *)
}.

(** Each field's assignment. *)
Definition set_trace (x : list event) (s : capture) : capture :=
  Capture x (armRead s) (armReady s) (queueWrites s) (pending s) (envelopeOn s) (envelopeRejects s) (envelopeLast s)
    (symbolTable s) (symbolTableOK s) (beats s) (ringStream s) (streamWords s) (streamCap s)
    (streamBacklog s) (recallScratch s) (counterNext s).
Definition set_armRead (x : list Z) (s : capture) : capture :=
  Capture (trace s) x (armReady s) (queueWrites s) (pending s) (envelopeOn s) (envelopeRejects s) (envelopeLast s)
    (symbolTable s) (symbolTableOK s) (beats s) (ringStream s) (streamWords s) (streamCap s)
    (streamBacklog s) (recallScratch s) (counterNext s).
Definition set_armReady (x : bool) (s : capture) : capture :=
  Capture (trace s) (armRead s) x (queueWrites s) (pending s) (envelopeOn s) (envelopeRejects s) (envelopeLast s)
    (symbolTable s) (symbolTableOK s) (beats s) (ringStream s) (streamWords s) (streamCap s)
    (streamBacklog s) (recallScratch s) (counterNext s).
Definition set_queueWrites (x : bool) (s : capture) : capture :=
  Capture (trace s) (armRead s) (armReady s) x (pending s) (envelopeOn s) (envelopeRejects s) (envelopeLast s)
    (symbolTable s) (symbolTableOK s) (beats s) (ringStream s) (streamWords s) (streamCap s)
    (streamBacklog s) (recallScratch s) (counterNext s).
Definition set_pending (x : list (Z * Z)) (s : capture) : capture :=
  Capture (trace s) (armRead s) (armReady s) (queueWrites s) x (envelopeOn s) (envelopeRejects s) (envelopeLast s)
    (symbolTable s) (symbolTableOK s) (beats s) (ringStream s) (streamWords s) (streamCap s)
    (streamBacklog s) (recallScratch s) (counterNext s).
Definition set_envelopeOn (x : bool) (s : capture) : capture :=
  Capture (trace s) (armRead s) (armReady s) (queueWrites s) (pending s) x (envelopeRejects s) (envelopeLast s)
    (symbolTable s) (symbolTableOK s) (beats s) (ringStream s) (streamWords s) (streamCap s)
    (streamBacklog s) (recallScratch s) (counterNext s).
Definition set_envelopeRejects (x : Z) (s : capture) : capture :=
  Capture (trace s) (armRead s) (armReady s) (queueWrites s) (pending s) (envelopeOn s) x (envelopeLast s)
    (symbolTable s) (symbolTableOK s) (beats s) (ringStream s) (streamWords s) (streamCap s)
    (streamBacklog s) (recallScratch s) (counterNext s).
Definition set_envelopeLast (x : option err) (s : capture) : capture :=
  Capture (trace s) (armRead s) (armReady s) (queueWrites s) (pending s) (envelopeOn s) (envelopeRejects s) x
    (symbolTable s) (symbolTableOK s) (beats s) (ringStream s) (streamWords s) (streamCap s)
    (streamBacklog s) (recallScratch s) (counterNext s).
Definition set_symbolTable (x : list Z) (s : capture) : capture :=
  Capture (trace s) (armRead s) (armReady s) (queueWrites s) (pending s) (envelopeOn s) (envelopeRejects s)
    (envelopeLast s) x (symbolTableOK s) (beats s) (ringStream s) (streamWords s) (streamCap s)
    (streamBacklog s) (recallScratch s) (counterNext s).
Definition set_symbolTableOK (x : bool) (s : capture) : capture :=
  Capture (trace s) (armRead s) (armReady s) (queueWrites s) (pending s) (envelopeOn s) (envelopeRejects s)
    (envelopeLast s) (symbolTable s) x (beats s) (ringStream s) (streamWords s) (streamCap s)
    (streamBacklog s) (recallScratch s) (counterNext s).
Definition set_beats (x : Z) (s : capture) : capture :=
  Capture (trace s) (armRead s) (armReady s) (queueWrites s) (pending s) (envelopeOn s) (envelopeRejects s)
    (envelopeLast s) (symbolTable s) (symbolTableOK s) x (ringStream s) (streamWords s) (streamCap s)
    (streamBacklog s) (recallScratch s) (counterNext s).
Definition set_ringStream (x : bool) (s : capture) : capture :=
  Capture (trace s) (armRead s) (armReady s) (queueWrites s) (pending s) (envelopeOn s) (envelopeRejects s)
    (envelopeLast s) (symbolTable s) (symbolTableOK s) (beats s) x (streamWords s) (streamCap s)
    (streamBacklog s) (recallScratch s) (counterNext s).
Definition set_streamWords (x : Z) (s : capture) : capture :=
  Capture (trace s) (armRead s) (armReady s) (queueWrites s) (pending s) (envelopeOn s) (envelopeRejects s)
    (envelopeLast s) (symbolTable s) (symbolTableOK s) (beats s) (ringStream s) x (streamCap s)
    (streamBacklog s) (recallScratch s) (counterNext s).
Definition set_streamCap (x : Z) (s : capture) : capture :=
  Capture (trace s) (armRead s) (armReady s) (queueWrites s) (pending s) (envelopeOn s) (envelopeRejects s)
    (envelopeLast s) (symbolTable s) (symbolTableOK s) (beats s) (ringStream s) (streamWords s) x
    (streamBacklog s) (recallScratch s) (counterNext s).
Definition set_streamBacklog (x : bool) (s : capture) : capture :=
  Capture (trace s) (armRead s) (armReady s) (queueWrites s) (pending s) (envelopeOn s) (envelopeRejects s)
    (envelopeLast s) (symbolTable s) (symbolTableOK s) (beats s) (ringStream s) (streamWords s)
    (streamCap s) x (recallScratch s) (counterNext s).
Definition set_recallScratch (x : list Z) (s : capture) : capture :=
  Capture (trace s) (armRead s) (armReady s) (queueWrites s) (pending s) (envelopeOn s) (envelopeRejects s)
    (envelopeLast s) (symbolTable s) (symbolTableOK s) (beats s) (ringStream s) (streamWords s)
    (streamCap s) (streamBacklog s) x (counterNext s).
Definition set_counterNext (x : Z) (s : capture) : capture :=
  Capture (trace s) (armRead s) (armReady s) (queueWrites s) (pending s) (envelopeOn s) (envelopeRejects s)
    (envelopeLast s) (symbolTable s) (symbolTableOK s) (beats s) (ringStream s) (streamWords s)
    (streamCap s) (streamBacklog s) (recallScratch s) x.

(** A fresh [Capture{bus: b}]. *)
Definition zeroCapture : capture :=
  Capture [] [] false false [] false 0 None (replicate (Z.to_nat 2048) 0) false 0 false 0 0 false [] 0.

(** ** The monad

    A computation over a state [S] that may fail; the package's methods, over
    a Capture, are [M]. *)

Definition SE (S A : Type) : Type := S -> outcome A * S.
Abbreviation M := (SE capture).

#[export] Instance SE_ret {S} : MRet (SE S) := fun A a s => (Ret a, s).
#[export] Instance SE_bind {S} : MBind (SE S) := fun A B f m s =>
  match m s with
  | (Ret a, s') => f a s'
  | (Fail e, s') => (Fail e, s')
  | (Panic, s') => (Panic, s')
  | (OutOfFuel, s') => (OutOfFuel, s')
  end.

Definition fail {S A} (e : err) : SE S A := fun s => (Fail e, s).
Definition failMsg {S A} (m : string) (args : list Z) : SE S A := fail (EMsg m args).
Arguments failMsg {S A} _%_string _%_list.
Definition panic {S A} : SE S A := fun s => (Panic, s).
Definition outOfFuel {S A} : SE S A := fun s => (OutOfFuel, s).
Definition gets {S A} (f : S -> A) : SE S A := fun s => (Ret (f s), s).
Definition modify {S} (f : S -> S) : SE S unit := fun s => (Ret tt, f s).
Definition emit (e : event) : M unit := modify (fun s => set_trace (trace s ++ [e]) s).

(** A result of the environment as a return or an error. *)
Definition lift {S A} (r : A + err) : SE S A :=
  match r with inl a => mret a | inr e => fail e end.
Definition liftErr {S} (r : option err) : SE S unit :=
  match r with None => mret tt | Some e => fail e end.

(** [v, err := m] with the error inspected by the caller. *)
Definition attempt {S A} (m : SE S A) : SE S (A + err) := fun s =>
  match m s with
  | (Ret a, s') => (Ret (inl a), s')
  | (Fail e, s') => (Ret (inr e), s')
  | (Panic, s') => (Panic, s')
  | (OutOfFuel, s') => (OutOfFuel, s')
  end.

(** The call's error alone: [err := m]. *)
Definition errOf {S} (m : SE S unit) : SE S (option err) :=
  r ← attempt m; mret (match r with inl _ => None | inr e => Some e end).

(** [_ = m]: an error is dropped. *)
Definition ignore {S A} (m : SE S A) : SE S unit := attempt m;; mret tt.

(** A deferred function that sees the named result [err] and may set it. *)
Definition finally {S A} (m : SE S A) (d : option err -> SE S (option err)) : SE S A :=
  r ← attempt m;
  e ← d (match r with inl _ => None | inr e => Some e end);
  match e, r with
  | Some e, _ => fail e
  | None, inl a => mret a
  | None, inr e => fail e
  end.

Definition guard {S} (b : bool) (e : err) : SE S unit := if b then fail e else mret tt.

Fixpoint each {S A} (f : A -> SE S unit) (l : list A) : SE S unit :=
  match l with
  | [] => mret tt
  | a :: l => f a;; each f l
  end.

(** Bytes or words a device returns into an [n]-long buffer. *)
Definition fitTo (n : Z) (conv : Z -> Z) (l : list Z) : list Z :=
  take (Z.to_nat n) (map conv l) ++ replicate (Z.to_nat n - length l) 0.

(** ** Weakest preconditions

    [wp m Q s]: from [s], [m] gives an outcome and a state [Q] holds of. *)

Definition wp {S A} (m : SE S A) (Q : outcome A -> S -> Prop) (s : S) : Prop :=
  Q (m s).1 (m s).2.

(** The continuation of a bind. *)
Definition andThen {S A B} (f : A -> SE S B) (Q : outcome B -> S -> Prop) :
    outcome A -> S -> Prop := fun o s =>
  match o with
  | Ret a => wp (f a) Q s
  | Fail e => Q (Fail e) s
  | Panic => Q Panic s
  | OutOfFuel => Q OutOfFuel s
  end.

Section wp_rules.
Context {S A B : Type}.
Implicit Types (s : S).

Lemma wp_bind (m : SE S A) (f : A -> SE S B) Q s : wp m (andThen f Q) s -> wp (m ≫= f) Q s.
Proof. unfold wp, mbind, SE_bind. by destruct (m s) as [[] ?]. Qed.

Lemma wp_ret (a : A) Q s : Q (Ret a) s -> wp (mret a) Q s.
Proof. done. Qed.
Lemma wp_fail e (Q : outcome A -> S -> Prop) s : Q (Fail e) s -> wp (fail e) Q s.
Proof. done. Qed.
Lemma wp_gets (f : S -> A) Q s : Q (Ret (f s)) s -> wp (gets f) Q s.
Proof. done. Qed.
Lemma wp_modify f Q s : Q (Ret tt) (f s) -> wp (modify f) Q s.
Proof. done. Qed.

Lemma wp_attempt (m : SE S A) Q s :
  wp m (fun o s' => match o with
        | Ret a => Q (Ret (inl a)) s' | Fail e => Q (Ret (inr e)) s'
        | Panic => Q Panic s' | OutOfFuel => Q OutOfFuel s' end) s ->
  wp (attempt m) Q s.
Proof. unfold wp, attempt. by destruct (m s) as [[] ?]. Qed.

Lemma wp_mono (m : SE S A) (Q Q' : outcome A -> S -> Prop) s :
  wp m Q s -> (forall o s', Q o s' -> Q' o s') -> wp m Q' s.
Proof. unfold wp. auto. Qed.

Lemma wp_run (m : SE S A) Q s o s' : wp m Q s -> m s = (o, s') -> Q o s'.
Proof. unfold wp. intros H E. by rewrite E in H. Qed.
End wp_rules.

(** ** Transition invariants

    [steps R m]: every run of [m] relates its first and last state by [R]. A
    preorder is closed under all the monad's combinators, so a property of a
    whole method follows from its leaves: [steps_tac] decomposes the method
    and [auto] with the base [steps] closes the leaves. *)

Definition steps {S A} (R : S -> S -> Prop) (m : SE S A) : Prop :=
  forall s, R s (m s).2.

Create HintDb steps.

Section steps_rules.
Context {S : Type} (R : S -> S -> Prop) {HR : PreOrder R}.
Context {A B : Type}.

Lemma steps_bind (m : SE S A) (f : A -> SE S B) :
  steps R m -> (forall a, steps R (f a)) -> steps R (m ≫= f).
Proof using HR.
  intros Hm Hf s. unfold mbind, SE_bind. specialize (Hm s).
  destruct (m s) as [[] s'] eqn:E; simpl in *; try done.
  etransitivity; [exact Hm|apply Hf].
Qed.
Lemma steps_ret (a : A) : steps R (mret a).
Proof using HR. intros s. simpl. reflexivity. Qed.
Lemma steps_fail e : steps R (fail (A := A) e).
Proof using HR. intros s. simpl. reflexivity. Qed.
Lemma steps_failMsg m l : steps R (failMsg (A := A) m l).
Proof using HR. intros s. simpl. reflexivity. Qed.
Lemma steps_panic : steps R (panic (A := A)).
Proof using HR. intros s. simpl. reflexivity. Qed.
Lemma steps_outOfFuel : steps R (outOfFuel (A := A)).
Proof using HR. intros s. simpl. reflexivity. Qed.
Lemma steps_gets (f : S -> A) : steps R (gets f).
Proof using HR. intros s. simpl. reflexivity. Qed.
Lemma steps_modify f : (forall s, R s (f s)) -> steps R (modify f).
Proof. intros H s. apply H. Qed.
Lemma steps_lift (r : A + err) : steps R (lift r).
Proof using HR. destruct r; intros s; simpl; reflexivity. Qed.
Lemma steps_liftErr r : steps R (liftErr r).
Proof using HR. destruct r; intros s; simpl; reflexivity. Qed.
Lemma steps_guard b e : steps R (guard b e).
Proof using HR. destruct b; intros s; simpl; reflexivity. Qed.
Lemma steps_attempt (m : SE S A) : steps R m -> steps R (attempt m).
Proof. intros H s. unfold attempt. specialize (H s). by destruct (m s) as [[] ?]. Qed.
End steps_rules.

Section steps_more.
Context {S : Type} (R : S -> S -> Prop) {HR : PreOrder R}.
Context {A : Type}.

Lemma steps_errOf (m : SE S unit) : steps R m -> steps R (errOf m).
Proof using HR.
  intros. apply steps_bind; [done| |]; [by apply steps_attempt|].
  intros. by apply steps_ret.
Qed.
Lemma steps_ignore (m : SE S A) : steps R m -> steps R (ignore m).
Proof using HR.
  intros. apply steps_bind; [done| |]; [by apply steps_attempt|].
  intros. by apply steps_ret.
Qed.
Lemma steps_finally (m : SE S A) d :
  steps R m -> (forall e, steps R (d e)) -> steps R (finally m d).
Proof using HR.
  intros Hm Hd. apply steps_bind; [done| |]; [by apply steps_attempt|].
  intros r. apply steps_bind; [done| |]; [apply Hd|].
  intros [e|]; [|destruct r]; (by apply steps_ret) || by apply steps_fail.
Qed.
Lemma steps_each (f : A -> SE S unit) l : (forall a, steps R (f a)) -> steps R (each f l).
Proof using HR.
  intros Hf. induction l as [|a l IH]; simpl; [by apply steps_ret|].
  by apply steps_bind.
Qed.
Lemma steps_if {C} (b : bool) (m m' : SE S C) : steps R m -> steps R m' -> steps R (if b then m else m').
Proof using. by destruct b. Qed.
End steps_more.

Ltac steps_step :=
  match goal with
  | |- steps ?R (mbind ?f (mret ?a)) => change (steps R (f a)); cbv beta
  | |- steps _ (mbind _ _) => apply steps_bind; [typeclasses eauto| |intros ?]
  | |- steps _ (mret _) => apply steps_ret; typeclasses eauto
  | |- steps _ (fail _) => apply steps_fail; typeclasses eauto
  | |- steps _ (failMsg _ _) => apply steps_failMsg; typeclasses eauto
  | |- steps _ panic => apply steps_panic; typeclasses eauto
  | |- steps _ outOfFuel => apply steps_outOfFuel; typeclasses eauto
  | |- steps _ (gets _) => apply steps_gets; typeclasses eauto
  | |- steps _ (lift _) => apply steps_lift; typeclasses eauto
  | |- steps _ (liftErr _) => apply steps_liftErr; typeclasses eauto
  | |- steps _ (guard _ _) => apply steps_guard; typeclasses eauto
  | |- steps _ (attempt _) => apply steps_attempt
  | |- steps _ (errOf _) => apply steps_errOf; [typeclasses eauto|]
  | |- steps _ (ignore _) => apply steps_ignore; [typeclasses eauto|]
  | |- steps _ (finally _ _) => apply steps_finally; [typeclasses eauto| |intros ?]
  | |- steps _ (each _ _) => apply steps_each; [typeclasses eauto|intros ?]
  | |- steps _ (if ?b then _ else _) => destruct b
  | |- steps _ (match ?x with _ => _ end) => destruct x
  end.
Ltac steps_tac := repeat first [solve [auto with steps] | steps_step]; auto with steps.

(** ** Inverting a successful run *)

Lemma bind_Ret_inv {S A B} (m : SE S A) (f : A -> SE S B) s b s'' :
  (m ≫= f) s = (Ret b, s'') -> exists a s', m s = (Ret a, s') /\ f a s' = (Ret b, s'').
Proof.
  unfold mbind, SE_bind. destruct (m s) as [[] s'] eqn:E; intros H; try discriminate H. eauto.
Qed.

Lemma bind_Ret {S A B} (m : SE S A) (f : A -> SE S B) s a s' :
  m s = (Ret a, s') -> (m ≫= f) s = f a s'.
Proof. unfold mbind, SE_bind. by intros ->. Qed.

Lemma attempt_Ret_inv {S A} (m : SE S A) s r s' :
  attempt m s = (Ret r, s') ->
  (exists a, r = inl a /\ m s = (Ret a, s')) \/ (exists e, r = inr e /\ m s = (Fail e, s')).
Proof. unfold attempt. destruct (m s) as [[] ?]; intros [= <- <-]; eauto. Qed.

Lemma liftErr_Ret_inv {S} r (s : S) a s' : liftErr r s = (Ret a, s') -> r = None /\ s' = s.
Proof. destruct r; intros [=]; auto. Qed.

Lemma lift_Ret_inv {S A} (r : A + err) (s : S) a s' : lift r s = (Ret a, s') -> r = inl a /\ s' = s.
Proof. destruct r; intros H; inversion H; auto. Qed.

Lemma guard_Ret_inv {S} b e (s : S) a s' : guard b e s = (Ret a, s') -> b = false /\ s' = s.
Proof. destruct b; intros [=]; auto. Qed.

Lemma mret_Ret_inv {S A} (x : A) (s : S) a s' : (mret x : SE S A) s = (Ret a, s') -> a = x /\ s' = s.
Proof. intros [=]. auto. Qed.

Lemma finally_Ret_inv {S A} (m : SE S A) d s a s' :
  finally m d s = (Ret a, s') -> exists s1, m s = (Ret a, s1) /\ d None s1 = (Ret None, s').
Proof.
  intros H. unfold finally in H. apply bind_Ret_inv in H as (r & s1 & H1 & H).
  apply bind_Ret_inv in H as (e & s2 & H2 & H).
  apply attempt_Ret_inv in H1 as [(x & -> & H1)|(x & -> & H1)]; destruct e; try discriminate H.
  apply mret_Ret_inv in H as [-> ->]. eauto.
Qed.

(** Invert the hypothesis [H : m s = (Ret a, s')] along the binds of [m]. *)
Ltac inv_ret H :=
  lazymatch type of H with
  | (mbind _ _) _ = (Ret _, _) =>
      let a := fresh "a" in let s := fresh "st" in
      let H1 := fresh "R" in
      apply bind_Ret_inv in H as (a & s & H1 & H); inv_ret H1; inv_ret H
  | mret _ _ = (Ret _, _) => apply mret_Ret_inv in H as [? ?]; subst
  | gets _ _ = (Ret _, _) => injection H as ? ?; subst
  | modify _ _ = (Ret _, _) => injection H as ? ?; subst
  | emit _ _ = (Ret _, _) => injection H as ? ?; subst
  | lift _ _ = (Ret _, _) => let Q := fresh "Q" in apply lift_Ret_inv in H as [Q ?]; subst
  | liftErr _ _ = (Ret _, _) => let Q := fresh "Q" in apply liftErr_Ret_inv in H as [Q ?]; subst
  | guard _ _ _ = (Ret _, _) => let Q := fresh "Q" in apply guard_Ret_inv in H as [Q ?]; subst
  | fail _ _ = (Ret _, _) => discriminate H
  | failMsg _ _ _ = (Ret _, _) => discriminate H
  | panic _ = (Ret _, _) => discriminate H
  | outOfFuel _ = (Ret _, _) => discriminate H
  | _ => idtac
  end.
