(* ===== verification/Sha256.v ===== *)
(** * SHA-256

    Go's crypto/sha256 and the hexadecimal form encoding/hex gives a digest
    (FIPS 180-4), as functions on bytes: what the update agent compares
    uploads and binaries by. A [hash.Hash] is the bytes written to it. *)
From S2P Require Import Prelude.

Definition rotr (x n : Z) : Z := u32 ((x .>> n) .| (x .<< (32 - n))).

(** The standard's constants are the first 32 bits of the fractional parts of
    roots: square roots of the first 8 primes, cube roots of the first 64. *)
Definition isPrime (p : nat) : bool := forallb (fun d => negb (p mod d =? 0)%nat) (seq 2 (p - 2)).
Definition primes : list Z := map Z.of_nat (List.filter isPrime (seq 2 310)).
(** The integer cube root, from bit [n] down, on top of [r]. *)
Fixpoint cubeRoot (n : nat) (x r : Z) : Z :=
  let r := if (r + 2 ^ Z.of_nat n) ^ 3 <=? x then r + 2 ^ Z.of_nat n else r in
  match n with
  | O => r
  | S n => cubeRoot n x r
  end.
Definition initialHash : list Z :=
  Eval vm_compute in map (fun p => u32 (Z.sqrt (p * 2 ^ 64))) (take 8 primes).
Definition roundConstants : list Z :=
  Eval vm_compute in map (fun p => u32 (cubeRoot 35 (p * 2 ^ 96) 0)) primes.

(** Big-endian words. *)
Fixpoint beWords (n : nat) (b : list Z) : list Z :=
  match n with
  | O => []
  | S n => beVal (take 4 b) :: beWords n (drop 4 b)
  end.

(** The message, a one bit, zeroes to 56 bytes modulo 64, its length in bits. *)
Definition padded (m : list Z) : list Z :=
  let n := Z.of_nat (length m) in
  m ++ 0x80 :: replicate (Z.to_nat ((55 - n) mod 64)) 0 ++ beBytes 8 (u64 (8 * n)).

(** [n] more words of the schedule, newest first. *)
Fixpoint schedule (n : nat) (w : list Z) : list Z :=
  match n with
  | O => w
  | S n =>
      let s0 := let x := nth 14 w 0 in Z.lxor (Z.lxor (rotr x 7) (rotr x 18)) (x .>> 3) in
      let s1 := let x := nth 1 w 0 in Z.lxor (Z.lxor (rotr x 17) (rotr x 19)) (x .>> 10) in
      schedule n (u32 (nth 15 w 0 + s0 + nth 6 w 0 + s1) :: w)
  end.

Definition round (s : list Z) (kw : Z * Z) : list Z :=
  match s with
  | [a; b; c; d; e; f; g; h] =>
      let s1 := Z.lxor (Z.lxor (rotr e 6) (rotr e 11)) (rotr e 25) in
      let ch := Z.lxor (e .& f) ((0xffffffff - e) .& g) in
      let t1 := h + s1 + ch + kw.1 + kw.2 in
      let s0 := Z.lxor (Z.lxor (rotr a 2) (rotr a 13)) (rotr a 22) in
      let maj := Z.lxor (Z.lxor (a .& b) (a .& c)) (b .& c) in
      [u32 (t1 + s0 + maj); a; b; c; u32 (d + t1); e; f; g]
  | _ => s
  end.

Definition block (h : list Z) (b : list Z) : list Z :=
  let w := rev (schedule 48 (rev (beWords 16 b))) in
  zip_with (fun x y => u32 (x + y)) h (foldl round h (zip roundConstants w)).

Fixpoint blocks (n : nat) (h m : list Z) : list Z :=
  match n with
  | O => h
  | S n => blocks n (block h (take 64 m)) (drop 64 m)
  end.

(** [sha256.Sum256] *)
Definition sha256 (m : list Z) : list Z :=
  let p := padded m in
  concat (map (beBytes 4) (blocks (length p / 64) initialHash p)).

(** [hex.EncodeToString] *)
Definition hexDigit (x : Z) : Z := if x <? 10 then 48 + x else 87 + x.
Definition hex (b : list Z) : list Z := concat (map (fun x => [hexDigit (x .>> 4); hexDigit (x .& 15)]) b).

(** [hex.EncodeToString(h.Sum(nil))] of the bytes written. *)
Definition hexSum (m : list Z) : list Z := hex (sha256 m).

(** The standard's own examples. *)
Lemma sha256_abc : hexSum (text "abc") =
  text "ba7816bf8f01cfea414140de5dae2223b00361a396177a9cb410ff61f20015ad".
Proof. vm_compute. reflexivity. Qed.
Lemma sha256_empty : hexSum [] =
  text "e3b0c44298fc1c149afbf4c8996fb92427ae41e4649b934ca495991b7852b855".
Proof. vm_compute. reflexivity. Qed.
Lemma sha256_twoBlocks : hexSum (text "abcdbcdecdefdefgefghfghighijhijkijkljklmklmnlmnomnopnopq") =
  text "248d6a61d20638b8e5c026930c3e6039a33ce45964ff2167f6ecedd419db06c1".
Proof. vm_compute. reflexivity. Qed.

#[global] Arguments hexSum : simpl never.
