(* ===== verification/Fabric.v ===== *)
(** * The fabric's side of the registers

    src/fpga/common/top.v: what the FPGA makes of the host's register writes.
    A register keeps the last value written to it, truncated to its width; a
    trigger block is wired to bits of those registers. The host's methods are
    proved against these ports: a configuration they accept is the one the
    fabric runs. *)
From S2P Require Import Prelude.

(** The registers after the writes [regs] (selector, value), oldest first. *)
Definition written (regs : list (Z * Z)) (f : Z -> Z) : Z -> Z :=
  fold_left (fun f r x => if x =? r.1 then r.2 else f x) regs f.

Lemma written_app r1 r2 f : written (r1 ++ r2) f = written r2 (written r1 f).
Proof. apply fold_left_app. Qed.

(** [{reg2[w-17:0], reg1[15:0]}]: a value over two registers, [w] bits wide. *)
Definition wide (lo hi w : Z) : Z := bits lo 0 16 .| (bits hi 0 (w - 16) .<< 16).

(** A 64-bit pattern over four registers. *)
Definition quad (a b c d : Z) : Z :=
  bits a 0 16 .| (bits b 0 16 .<< 16) .| (bits c 0 16 .<< 32) .| (bits d 0 16 .<< 48).

Definition flag (x i : Z) : bool := bits x i 1 =? 1.

(** ** Reading back what the host splits *)

Lemma wide_split v w :
  fits w v -> 16 <= w <= 32 -> wide (v .& 0xffff) (u16 (v .>> 16)) w = v.
Proof.
  intros Hv Hw. unfold wide. change (v .& 0xffff) with (bits v 0 16).
  assert (bits (bits v 0 16) 0 16 = bits v 0 16) as ->.
  { apply bits_self; [apply fits_bits; lia|lia]. }
  rewrite bits_u16 by lia.
  assert (bits (v .>> 16) 0 (w - 16) = bits v 16 (w - 16)) as ->.
  { apply Z.bits_inj'. intros i Hi. rewrite !testbit_bits, Z.shiftr_spec by lia. do 2 f_equal. lia. }
  apply bits_split; [done|lia].
Qed.

Lemma quad_split v :
  fits 64 v ->
  quad (v .& 0xffff) ((v .>> 16) .& 0xffff) ((v .>> 32) .& 0xffff) (u16 (v .>> 48)) = v.
Proof.
  intros Hv. unfold quad. apply Z.bits_inj'. intros i Hi.
  rewrite !Z.lor_spec, !Z.shiftl_spec by lia.
  destruct (Z.lt_ge_cases i 64); [|rewrite (fits_testbit 64 v) by (done || lia)].
  - assert (i < 16 \/ 16 <= i < 32 \/ 32 <= i < 48 \/ 48 <= i < 64) as Hc by lia.
    change 0xffff with (Z.ones 16). unfold u16.
    destruct Hc as [Hc|[Hc|[Hc|Hc]]];
      rewrite ?(Z.testbit_neg_r _ (i - 16)), ?(Z.testbit_neg_r _ (i - 32)), ?(Z.testbit_neg_r _ (i - 48)) by lia;
      rewrite ?testbit_bits by lia; rewrite ?Z.land_spec, ?Z.testbit_ones_nonneg, ?Z.shiftr_spec by lia;
      repeat match goal with |- context [?a <? ?b] =>
        first [replace (a <? b) with true by (symmetry; apply Z.ltb_lt; lia)
              |replace (a <? b) with false by (symmetry; apply Z.ltb_ge; lia)] end;
      rewrite ?andb_false_r, ?andb_true_r, ?orb_false_r, ?orb_false_l; simpl;
      try (f_equal; lia).
    rewrite Z.mod_pow2_bits_low, Z.shiftr_spec by lia. f_equal. lia.
  - rewrite !testbit_bits by lia.
    repeat match goal with |- context [?a <? ?b] =>
        replace (a <? b) with false by (symmetry; apply Z.ltb_ge; lia) end.
    by rewrite !andb_false_r.
Qed.

(** ** Host and fabric agree

    From the writes [w] issued before a configure step and [w'] after it: the
    step's own writes make the block run [want] when the configuration is
    enabled; otherwise the block is left alone or disabled. [f] is what the
    registers held before. *)
Definition fabricRuns {P} (port : (Z -> Z) -> P) (on : P -> bool) (enabled : bool) (want : P)
    (f : Z -> Z) (w w' : list (Z * Z)) : Prop :=
  exists regs, w' = w ++ regs /\
    if enabled then port (written regs f) = want
    else regs = [] \/ on (port (written regs f)) = false.

(** An 8-bit register read as two's complement. *)
Definition signed8 (x : Z) : Z := let b := bits x 0 8 in if b <? 128 then b else b - 256.

Lemma signed8_u8 d : -128 <= d <= 127 -> signed8 (u16 (u8 d)) = d.
Proof.
  intros Hd. unfold signed8. rewrite bits_u16 by lia.
  rewrite bits_self by (apply fits_u8 || lia). unfold u8. change (2 ^ 8) with 256.
  destruct (Z.lt_ge_cases d 0).
  - replace (d mod 256) with (d + 256) by (apply Z.mod_unique with (-1); lia).
    destruct (Z.ltb_spec (d + 256) 128); lia.
  - rewrite Z.mod_small by lia. destruct (Z.ltb_spec d 128); lia.
Qed.
