(* ===== verification/Bus.v ===== *)
(** * Register access: queued writes, cached reads, commands and waits

    The lowest layer of src/app/internal/sramcapture/capture.go: every other
    method reaches the FPGA through these. *)
From S2P Require Import Prelude Machine Fabric.

(** ** Contexts *)

(** A context: its deadline in nanoseconds and the caller's cancellation
    (none for context.Background). *)
Record ctx := Ctx { ctxDeadline : option Z; ctxId : option Z }.
Definition background : ctx := Ctx None None.

Definition millisecond : Z := 1000000.
Definition second : Z := 1000000000.

(** The registers Arm reads in one batch. *)
Definition qualCapability : Z := 74.
Definition armSels : list Z := [1; 13; 63; 73; 110; qualCapability; 48; 53; 64; 77; 97; 102; 109; 118].

(** The position of [s] in [l]. *)
Fixpoint indexOf (s : Z) (l : list Z) : option nat :=
  match l with
  | [] => None
  | a :: l => if a =? s then Some O else S <$> indexOf s l
  end.

Section bus.
Context {E : Env}.

Definition now : M Z := gets (fun s => env_Now (trace s)).

Definition ctxErr (c : ctx) : M (option err) := gets (fun s =>
  if (match ctxId c with Some i => env_Done (trace s) i | None => false end) then Some ECanceled
  else match ctxDeadline c with
       | Some d => if d <=? env_Now (trace s) then Some EDeadline else None
       | None => None
       end).

(** [if e := ctx.Err(); e != nil { return e }] *)
Definition checkCtx (c : ctx) : M unit := e ← ctxErr c; liftErr e.

Definition withTimeout (c : ctx) (d : Z) : M ctx :=
  t ← now;
  mret (Ctx (Some (match ctxDeadline c with Some d0 => Z.min d0 (t + d) | None => t + d end)) (ctxId c)).

Definition addBeats (n : Z) : M unit := modify (fun s => set_beats (u64 (beats s + n)) s).

(** c.bus.Read(1, s) *)
Definition busRead (sel : Z) : M Z :=
  h ← gets trace;
  let r := env_Read h sel in
  emit (EvRead sel r);;
  v ← lift r;
  mret (u16 v).

(** c.bus.RawWrite(s, v) *)
Definition busWrite (sel v : Z) : M unit :=
  h ← gets trace;
  let r := env_RawWrite h sel v in
  emit (EvWrite sel v r);;
  liftErr r.

(** sendMany puts regs on the bus, in one call when it batches. *)
Definition sendMany (regs : list (Z * Z)) : M unit :=
  match env_RawWriteMany with
  | Some many =>
      h ← gets trace;
      let r := many h regs in
      emit (EvWriteMany regs r);;
      liftErr r
  | None => each (fun r => busWrite r.1 r.2) regs
  end.

(** flushWrites sends the queued writes; the queue is empty afterwards,
    error or not. *)
Definition flushWrites : M unit :=
  p ← gets pending;
  match p with
  | [] => mret tt
  | _ =>
      e ← errOf (sendMany p);
      modify (set_pending []);;
      liftErr e
  end.

Definition read (sel : Z) : M Z :=
  cached ← gets (fun s =>
    if armReady s then
      match indexOf sel (drop 1 armSels) with
      | Some i => Some (default 0 (armRead s !! S i))
      | None => None
      end
    else None);
  match cached with
  | Some v => mret v
  | None =>
      flushWrites;;
      v ← busRead sel;
      addBeats 1;;
      mret v
  end.

Definition writeMany (regs : list (Z * Z)) : M unit :=
  q ← gets queueWrites;
  if (q : bool) then modify (fun s => set_pending (pending s ++ regs) s) else sendMany regs.

Definition write (sel v : Z) : M unit :=
  q ← gets queueWrites;
  if (q : bool) then modify (fun s => set_pending (pending s ++ [(sel, v)]) s) else busWrite sel v.

Fixpoint readEach (sels : list Z) : M (list Z) :=
  match sels with
  | [] => mret []
  | s :: sels => v ← read s; vs ← readEach sels; mret (v :: vs)
  end.

Definition readMany (sels : list Z) : M (list Z) :=
  flushWrites;;
  match env_ReadMany with
  | Some many =>
      h ← gets trace;
      let r := many h sels in
      emit (EvReadMany sels r);;
      vs ← lift r;
      addBeats (Z.of_nat (length sels));;
      mret (fitTo (Z.of_nat (length sels)) u16 vs)
  | None => readEach sels
  end.

(** The [i]-th register of a batch (the arrays of the source are fixed). *)
Definition at_ (l : list Z) (i : nat) : Z := default 0 (l !! i).
Definition pair32 (lo hi : Z) : Z := lo .| (hi .<< 16).

Definition read32 (s : Z) : M Z :=
  lo ← read s;
  hi ← read (s + 1);
  mret (pair32 lo hi).

Definition write32 (s v : Z) : M unit :=
  write s (v .& 0xffff);;
  write (s + 1) (u16 (v .>> 16)).

(** bytePop.PopBytesChecked(sel, dst) and pop.PopWordsChecked(sel, dst),
    where the bus has them. *)
Definition popBytesWith (f : history -> Z -> Z -> list Z + err) (sel n : Z) : M (list Z) :=
  h ← gets trace;
  let r := f h sel n in
  emit (EvPopBytes sel n r);;
  l ← lift r;
  mret (fitTo n u8 l).
Definition popWordsWith (f : history -> Z -> Z -> list Z + err) (sel n : Z) : M (list Z) :=
  h ← gets trace;
  let r := f h sel n in
  emit (EvPopWords sel n r);;
  l ← lift r;
  mret (fitTo n u16 l).

(** [n] single reads of one register. *)
Fixpoint readN (n : nat) (sel : Z) : M (list Z) :=
  match n with
  | O => mret []
  | S n => v ← read sel; vs ← readN n sel; mret (v :: vs)
  end.

(** ** Commands *)

Section loops.
(** The bound of each polling loop of the model. *)
Variable fuel : nat.

Fixpoint commandLoop (n : nat) (c : ctx) (op ack : Z) : M unit :=
  match n with
  | O => outOfFuel
  | S n =>
      e ← ctxErr c;
      match e with
      | Some e => fail (EWrap "sramcapture: command %d" [op] e)
      | None =>
          s ← read 1;
          if negb (s .& 512 =? ack) then
            guard (has s 384) (EMsg "sramcapture: command %d rejected (status %04x)" [op; s])
          else commandLoop n c op ack
      end
  end.

Definition commandIn (c : ctx) (op : Z) : M unit :=
  checkCtx c;;
  s ← read 1;
  let ack := s .& 512 in
  write 1 op;;
  commandLoop fuel c op ack.

Definition command (c : ctx) (op : Z) : M unit :=
  c ← withTimeout c second;
  commandIn c op.

Definition waitSpin : Z := 3 * millisecond.
Definition waitClockEvery : Z := 64.

Fixpoint waitLoop (n : nat) (c : ctx) (mask i : Z) (spinUntil : option Z) : M unit :=
  match n with
  | O => outOfFuel
  | S n =>
      checkCtx c;;
      s ← read 1;
      if s .& mask =? mask then mret tt
      else if negb (i mod waitClockEvery =? waitClockEvery - 1) then waitLoop n c mask (i + 1) spinUntil
      else
        t ← now;
        let u := default (t + waitSpin) spinUntil in
        if t <? u then waitLoop n c mask (i + 1) (Some u)
        else
          (* the timer or the context; the loop's head tells which *)
          emit (EvSleep 100000);;
          waitLoop n c mask (i + 1) (Some u)
  end.

Definition wait (c : ctx) (mask : Z) : M unit := waitLoop fuel c mask 0 None.

Definition ready (c : ctx) : M unit :=
  c ← withTimeout c (3 * second);
  wait c 4.

(** Force triggers the armed acquisition now. *)
Definition Force (c : ctx) : M unit := command c 4.

(** Halt stops the acquisition and waits for the fabric to be ready. *)
Definition Halt (c : ctx) : M unit := command c 5;; ready c.

Fixpoint waitFrozenLoop (n : nat) (c : ctx) : M unit :=
  match n with
  | O => outOfFuel
  | S n =>
      checkCtx c;;
      s ← read 1;
      if s .& 20 =? 20 then mret tt
      else emit (EvSleep 100000);; waitFrozenLoop n c
  end.
Definition WaitFrozen (c : ctx) : M unit := waitFrozenLoop fuel c.

Fixpoint snapshotWait (n : nat) (c : ctx) : M unit :=
  match n with
  | O => outOfFuel
  | S n =>
      flags ← read 1;
      if flags .& 2048 =? 0 then mret tt
      else checkCtx c;; snapshotWait n c
  end.

Fixpoint snapshotRead (n : nat) (i : Z) : M (list Z) :=
  match n with
  | O => mret []
  | S n =>
      v ← read (20 + i);
      rest ← snapshotRead n (i + 1);
      mret ((v .& 0xff) :: u8 (v .>> 8) :: rest)
  end.

Definition Snapshot (c : ctx) : M (list Z) :=
  command c 6;;
  snapshotWait fuel c;;
  snapshotRead 5 0.
End loops.

Definition RestartEncode : M unit :=
  write 15 0;;
  emit (EvSleep millisecond);;
  write 15 0x3ff.
End bus.

(** ** The issued writes

    What the code asks the fabric to write, whether the write is queued, on
    the bus alone or in a batch: the accepted writes of the history and the
    queue after them. Reads keep it (a read sends the queue first), so the
    register protocol of a method is a list of writes that no longer shows
    how the bus carried them. *)

Definition accepted (e : event) : list (Z * Z) :=
  match e with
  | EvWrite s v None => [(s, v)]
  | EvWriteMany regs None => regs
  | _ => []
  end.
Definition writesOf (h : history) : list (Z * Z) := concat (map accepted h).
Definition issued (s : capture) : list (Z * Z) := writesOf (trace s) ++ pending s.

Lemma writesOf_app h h' : writesOf (h ++ h') = writesOf h ++ writesOf h'.
Proof. unfold writesOf. by rewrite map_app, concat_app. Qed.
Lemma writesOf_one e : writesOf [e] = accepted e.
Proof. unfold writesOf. simpl. apply app_nil_r. Qed.

(** The parts of the state a register access leaves alone. *)
Definition sameSettings (s s' : capture) : Prop :=
  armRead s' = armRead s /\ armReady s' = armReady s /\ queueWrites s' = queueWrites s /\
  envelopeOn s' = envelopeOn s /\ symbolTable s' = symbolTable s /\ symbolTableOK s' = symbolTableOK s /\
  ringStream s' = ringStream s /\ streamWords s' = streamWords s /\ streamCap s' = streamCap s /\
  streamBacklog s' = streamBacklog s /\ counterNext s' = counterNext s.

#[export] Instance sameSettings_preorder : PreOrder sameSettings.
Proof.
  split; [by intros s; unfold sameSettings|].
  unfold sameSettings. intros s1 s2 s3 H H'. destruct_and!. split_and!; congruence.
Qed.

(** Writes wait in the queue only while they are being queued. *)
Definition queueOk (s : capture) : Prop := queueWrites s = false -> pending s = [].

Section issued.
Context {E : Env}.

(** [m] issues exactly [regs] when it succeeds. *)
Definition issues {A} (m : M A) (regs : list (Z * Z)) : Prop :=
  forall s a s', queueOk s -> m s = (Ret a, s') -> queueOk s' /\ issued s' = issued s ++ regs.

Lemma issues_bind {A B} (m : M A) (f : A -> M B) r1 r2 :
  issues m r1 -> (forall a, issues (f a) r2) -> issues (m ≫= f) (r1 ++ r2).
Proof.
  intros Hm Hf s b s'' Hq H. apply bind_Ret_inv in H as (a & s' & H1 & H2).
  apply Hm in H1 as [Hq' H1]; [|done]. apply Hf in H2 as [Hq'' H2]; [|done].
  split; [done|]. by rewrite H2, H1, app_assoc.
Qed.
Lemma issues_then {A B} (m : M A) (f : A -> M B) r :
  issues m [] -> (forall a, issues (f a) r) -> issues (m ≫= f) r.
Proof. apply (issues_bind m f [] r). Qed.
Lemma issues_first {A B} (m : M A) (f : A -> M B) r :
  issues m r -> (forall a, issues (f a) []) -> issues (m ≫= f) r.
Proof. intros H1 H2. rewrite <- (app_nil_r r). by apply issues_bind. Qed.
Lemma issues_nil {A} (m : M A) :
  (forall s a s', m s = (Ret a, s') -> s' = s) -> issues m [].
Proof. intros H s a s' Hq Hr. apply H in Hr as ->. by rewrite app_nil_r. Qed.
Lemma issues_mret {A} (a : A) : issues (mret a) [].
Proof. apply issues_nil. by intros s a' s' [= _ <-]. Qed.
Lemma issues_gets {A} (f : capture -> A) : issues (gets f) [].
Proof. apply issues_nil. by intros s a' s' [= _ <-]. Qed.
Lemma issues_guard b e : issues (guard b e) [].
Proof. apply issues_nil. by intros s a s' [_ ->]%guard_Ret_inv. Qed.
Lemma issues_liftErr r : issues (liftErr r) [].
Proof. apply issues_nil. by intros s a s' [_ ->]%liftErr_Ret_inv. Qed.
Lemma issues_lift {A} (r : A + err) : issues (lift r) [].
Proof. apply issues_nil. by intros s a s' [_ ->]%lift_Ret_inv. Qed.
Lemma issues_fail {A} e r : issues (fail (A := A) e) r.
Proof. by intros s a s' _ [=]. Qed.
Lemma issues_failMsg {A} m l r : issues (failMsg (A := A) m l) r.
Proof. by intros s a s' _ [=]. Qed.
Lemma issues_panic {A} r : issues (panic (A := A)) r.
Proof. by intros s a s' _ [=]. Qed.
Lemma issues_outOfFuel {A} r : issues (outOfFuel (A := A)) r.
Proof. by intros s a s' _ [=]. Qed.
Lemma issues_emit e : accepted e = [] -> issues (emit e) [].
Proof.
  intros He s a s' Hq [= _ <-]. split; [exact Hq|].
  unfold issued. simpl. by rewrite writesOf_app, writesOf_one, He, !app_nil_r.
Qed.
(** A change of fields that are neither the history nor the queue. *)
Definition quiet (f : capture -> capture) : Prop :=
  forall s, trace (f s) = trace s /\ pending (f s) = pending s /\ queueWrites (f s) = queueWrites s.
Lemma issues_modify f : quiet f -> issues (modify f) [].
Proof.
  intros Hf s a s' Hq [= _ <-]. unfold queueOk, issued in *.
  destruct (Hf s) as (-> & -> & ->). by rewrite app_nil_r.
Qed.

Lemma issues_each {A} (f : A -> M unit) (g : A -> list (Z * Z)) l :
  (forall a, issues (f a) (g a)) -> issues (each f l) (concat (map g l)).
Proof.
  intros H. induction l as [|a l IH]; simpl; [apply issues_mret|].
  apply issues_bind; [apply H|intros _; apply IH].
Qed.

Lemma busWrite_Ret s sel v a s' :
  busWrite sel v s = (Ret a, s') ->
  writesOf (trace s') = writesOf (trace s) ++ [(sel, v)] /\ pending s' = pending s /\ sameSettings s s'.
Proof.
  unfold busWrite. intros H. inv_ret H. simpl.
  by rewrite writesOf_app, writesOf_one, Q.
Qed.

Lemma eachWrite_Ret regs s a s' :
  each (fun r => busWrite r.1 r.2) regs s = (Ret a, s') ->
  writesOf (trace s') = writesOf (trace s) ++ regs /\ pending s' = pending s /\ sameSettings s s'.
Proof.
  revert s. induction regs as [|[sel v] regs IH]; intros s H; simpl in H.
  { inv_ret H. by rewrite app_nil_r. }
  apply bind_Ret_inv in H as ([] & s1 & H1 & H2).
  apply busWrite_Ret in H1 as (Hw & Hp & Hs). apply IH in H2 as (Hw' & Hp' & Hs').
  rewrite Hw', Hw, Hp', Hp, <- app_assoc. split_and!; [done..|by etransitivity].
Qed.

Lemma sendMany_Ret regs s a s' :
  sendMany regs s = (Ret a, s') ->
  writesOf (trace s') = writesOf (trace s) ++ regs /\ pending s' = pending s /\ sameSettings s s'.
Proof.
  unfold sendMany. destruct env_RawWriteMany as [many|]; [|apply eachWrite_Ret].
  intros H. inv_ret H. simpl. by rewrite writesOf_app, writesOf_one, Q.
Qed.

Lemma errOf_None_inv (m : M unit) s s' : errOf m s = (Ret None, s') -> m s = (Ret tt, s').
Proof.
  unfold errOf. intros H. apply bind_Ret_inv in H as (r & s1 & H1 & H2).
  apply mret_Ret_inv in H2 as [H2 ->].
  apply attempt_Ret_inv in H1 as [([] & -> & H1)|(e & -> & H1)]; [done|discriminate H2].
Qed.

Lemma flushWrites_Ret s a s' :
  flushWrites s = (Ret a, s') -> issued s' = issued s /\ pending s' = [] /\ sameSettings s s'.
Proof.
  unfold flushWrites. intros H. apply bind_Ret_inv in H as (p & s0 & Hg & H).
  injection Hg as <- <-. unfold issued. destruct (pending s) as [|r p] eqn:Hp.
  { inv_ret H. by rewrite Hp. }
  apply bind_Ret_inv in H as (e & s1 & H1 & H2). inv_ret H2.
  apply errOf_None_inv, sendMany_Ret in H1 as (Hw & Hp' & Hs). simpl.
  rewrite Hw, app_nil_r. done.
Qed.

(** What [read] returns in a run: the cached register while Arm runs. *)
Lemma read_Ret sel s v s' :
  read sel s = (Ret v, s') -> issued s' = issued s /\ sameSettings s s'.
Proof.
  unfold read. intros H. apply bind_Ret_inv in H as (c & s0 & Hg & H).
  injection Hg as <- <-. destruct (if armReady s then _ else _) as [w|].
  { by inv_ret H. }
  apply bind_Ret_inv in H as ([] & s1 & H1 & H2).
  apply flushWrites_Ret in H1 as (Hi & Hp & Hs).
  unfold busRead, addBeats in H2. inv_ret H2. unfold issued in *. simpl.
  rewrite writesOf_app, writesOf_one, <- Hi. simpl. by rewrite app_nil_r.
Qed.

Lemma read_queueOk sel s v s' : queueOk s -> read sel s = (Ret v, s') -> queueOk s'.
Proof.
  unfold read. intros Hq H. apply bind_Ret_inv in H as (c & s0 & Hg & H).
  injection Hg as <- <-. destruct (if armReady s then _ else _) as [w|].
  { by inv_ret H. }
  apply bind_Ret_inv in H as ([] & s1 & H1 & H2).
  apply flushWrites_Ret in H1 as (Hi & Hp & Hs).
  unfold busRead, addBeats in H2. inv_ret H2. intros _. exact Hp.
Qed.

(** A register Arm does not cache is answered by the bus, after every write
    issued before it. *)
Lemma read_answer sel s v s' :
  queueOk s -> indexOf sel (drop 1 armSels) = None -> read sel s = (Ret v, s') ->
  exists h x, env_Read h sel = inl x /\ v = u16 x /\ writesOf h = issued s.
Proof.
  intros Hq Hi. unfold read. rewrite Hi. intros H. apply bind_Ret_inv in H as (c & s0 & Hg & H).
  injection Hg as Hc <-.
  assert (c = None) as -> by (rewrite <- Hc; by destruct (armReady s)). clear Hc. apply bind_Ret_inv in H as ([] & s1 & H1 & H2).
  apply flushWrites_Ret in H1 as (Hi1 & Hp & Hs).
  unfold busRead, addBeats in H2. inv_ret H2. eexists _, _.
  split_and!; [exact Q|done|]. rewrite <- Hi1. unfold issued. by rewrite Hp, app_nil_r.
Qed.

(** *** The values read, outside Arm *)

Lemma read_uncached sel s :
  armReady s = false -> read sel s = (flushWrites;; v ← busRead sel; addBeats 1;; mret v) s.
Proof. intros Ha. unfold read. erewrite bind_Ret by reflexivity. by rewrite Ha. Qed.

Lemma read_fits sel s v s' :
  armReady s = false -> read sel s = (Ret v, s') -> fits 16 v /\ sameSettings s s'.
Proof.
  intros Ha H. split; [|by apply read_Ret in H as [_ ?]].
  unfold read in H. apply bind_Ret_inv in H as (c & s0 & Hg & H).
  injection Hg as <- <-. rewrite Ha in H. apply bind_Ret_inv in H as ([] & s1 & _ & H).
  unfold busRead, addBeats in H. inv_ret H. apply fits_u16.
Qed.

Lemma issues_read sel : issues (read sel) [].
Proof.
  intros s a s' Hq H. rewrite app_nil_r. split; [by eapply read_queueOk|].
  by apply read_Ret in H as [? _].
Qed.

Lemma issues_flushWrites : issues flushWrites [].
Proof.
  intros s a s' Hq H. rewrite app_nil_r. apply flushWrites_Ret in H as (? & ? & ?).
  split; [by intros _|done].
Qed.

Lemma direct_issued s s' regs :
  queueOk s -> queueWrites s = false ->
  writesOf (trace s') = writesOf (trace s) ++ regs -> pending s' = pending s -> sameSettings s s' ->
  queueOk s' /\ issued s' = issued s ++ regs.
Proof.
  intros Hq Hf Hw Hp Hs. unfold queueOk, issued. rewrite Hw, Hp, (Hq Hf).
  split; [done|]. by rewrite !app_nil_r.
Qed.

Lemma issues_writeMany regs : issues (writeMany regs) regs.
Proof.
  intros s a s' Hq H. unfold writeMany in H. apply bind_Ret_inv in H as (q & s0 & Hg & H).
  injection Hg as <- <-. destruct (queueWrites s) eqn:Hw.
  { inv_ret H. split; [intros Hf; simpl in Hf; congruence|].
    unfold issued. simpl. by rewrite app_assoc. }
  apply sendMany_Ret in H as (? & ? & ?). by apply direct_issued.
Qed.

Lemma issues_write sel v : issues (write sel v) [(sel, v)].
Proof.
  intros s a s' Hq H. unfold write in H. apply bind_Ret_inv in H as (q & s0 & Hg & H).
  injection Hg as <- <-. destruct (queueWrites s) eqn:Hw.
  { inv_ret H. split; [intros Hf; simpl in Hf; congruence|].
    unfold issued. simpl. by rewrite app_assoc. }
  apply busWrite_Ret in H as (? & ? & ?). by apply direct_issued.
Qed.

Lemma issues_readEach sels : issues (readEach sels) [].
Proof.
  induction sels as [|x sels IH]; simpl; [apply issues_mret|].
  apply issues_then; [apply issues_read|intros v].
  apply issues_then; [exact IH|intros vs; apply issues_mret].
Qed.

Lemma issues_readN n sel : issues (readN n sel) [].
Proof.
  induction n as [|n IH]; simpl; [apply issues_mret|].
  apply issues_then; [apply issues_read|intros v].
  apply issues_then; [exact IH|intros vs; apply issues_mret].
Qed.

Lemma quiet_addBeats n : quiet (fun s => set_beats (u64 (beats s + n)) s).
Proof. by intros s. Qed.

Lemma issues_readMany sels : issues (readMany sels) [].
Proof.
  unfold readMany. apply issues_then; [apply issues_flushWrites|intros _].
  destruct env_ReadMany as [many|]; [|apply issues_readEach].
  apply issues_then; [apply issues_gets|intros h].
  apply issues_then; [by apply issues_emit|intros _].
  apply issues_then; [apply issues_lift|intros vs].
  apply issues_then; [apply issues_modify, quiet_addBeats|intros _]. apply issues_mret.
Qed.

Lemma Forall_u16 l : Forall (fits 16) (map u16 l).
Proof. apply (proj2 (Forall_fmap _ _ _)), Forall_true. intros x. apply fits_u16. Qed.

Lemma length_fitTo n conv l : 0 <= n -> length (fitTo n conv l) = Z.to_nat n.
Proof. intros. unfold fitTo. rewrite length_app, length_take, length_map, length_replicate. lia. Qed.
Lemma Forall_fitTo P n conv l : (forall x, P (conv x)) -> P 0 -> Forall P (fitTo n conv l).
Proof.
  intros Hc H0. unfold fitTo. apply Forall_app. split.
  - apply Forall_take. apply (proj2 (Forall_fmap _ _ _)), Forall_true. exact Hc.
  - by apply Forall_replicate.
Qed.

Lemma readEach_fits sels s vs s' :
  armReady s = false -> readEach sels s = (Ret vs, s') ->
  length vs = length sels /\ Forall (fits 16) vs /\ sameSettings s s'.
Proof.
  revert s vs s'. induction sels as [|sel sels IH]; intros s vs s' Ha H; simpl in H.
  { by inv_ret H. }
  apply bind_Ret_inv in H as (v & s1 & H1 & H). apply bind_Ret_inv in H as (vs' & s2 & H2 & H).
  inv_ret H. apply read_fits in H1 as [Hv Hs]; [|done].
  apply IH in H2 as (Hl & Hf & Hs'); [|by destruct Hs as (_ & -> & _)].
  split_and!; [by simpl; rewrite Hl|by constructor|by etransitivity].
Qed.

Lemma readMany_fits sels s vs s' :
  armReady s = false -> readMany sels s = (Ret vs, s') ->
  length vs = length sels /\ Forall (fits 16) vs /\ sameSettings s s'.
Proof.
  intros Ha H. unfold readMany in H. apply bind_Ret_inv in H as ([] & s1 & H1 & H).
  apply flushWrites_Ret in H1 as (_ & _ & Hs). destruct env_ReadMany as [many|].
  - unfold addBeats in H. inv_ret H. split_and!.
    + rewrite length_fitTo by lia. lia.
    + apply Forall_fitTo; [apply fits_u16|split; lia].
    + etransitivity; [exact Hs|done].
  - apply readEach_fits in H as (? & ? & ?); [|by destruct Hs as (_ & -> & _)].
    split_and!; [done..|by etransitivity].
Qed.

Lemma fits_at l i : Forall (fits 16) l -> fits 16 (at_ l i).
Proof.
  intros H. unfold at_. destruct (l !! i) eqn:Hi; simpl; [|split; lia].
  by eapply Forall_lookup_1 in H.
Qed.

Lemma fits_pair32 lo hi : fits 16 lo -> fits 16 hi -> fits 32 (pair32 lo hi).
Proof. intros. unfold pair32. by apply (fits_lor_shl 16 16). Qed.

Lemma issues_read32 sel : issues (read32 sel) [].
Proof.
  unfold read32. apply issues_then; [apply issues_read|intros lo].
  apply issues_then; [apply issues_read|intros hi]. apply issues_mret.
Qed.

Lemma issues_write32 sel v :
  issues (write32 sel v) [(sel, v .& 0xffff); (sel + 1, u16 (v .>> 16))].
Proof. apply (issues_bind _ _ [_] [_]); [|intros _]; apply issues_write. Qed.

Lemma issues_checkCtx c : issues (checkCtx c) [].
Proof.
  apply issues_then; [apply issues_gets|intros e]. apply issues_liftErr.
Qed.

Lemma issues_withTimeout c d : issues (withTimeout c d) [].
Proof. apply issues_then; [apply issues_gets|intros t]. apply issues_mret. Qed.
End issued.

(** ** A fabric that holds its registers still

    [r] is what every register reads while the code looks at it. *)

Definition answers {E : Env} (r : Z -> Z) : Prop :=
  (forall h sel, env_Read h sel = inl (r sel)) /\
  match env_ReadMany with
  | Some many => forall h sels, many h sels = inl (map r sels)
  | None => True
  end.

(** No writes wait and Arm's cache is off: every method but Arm starts so. *)
Definition settled (s : capture) : Prop := armReady s = false /\ pending s = [].

Section answers.
Context {E : Env} (r : Z -> Z) (Hr : answers r).

Lemma flushWrites_settled s : settled s -> flushWrites s = (Ret tt, s).
Proof.
  intros [_ Hp]. unfold flushWrites. erewrite bind_Ret by reflexivity. by rewrite Hp.
Qed.

Lemma busRead_answers sel s :
  busRead sel s = (Ret (u16 (r sel)), set_trace (trace s ++ [EvRead sel (inl (r sel))]) s).
Proof using Hr. unfold busRead, gets, emit, modify, mbind, SE_bind. by rewrite (proj1 Hr). Qed.

Lemma read_answers sel s : settled s -> exists s', read sel s = (Ret (u16 (r sel)), s') /\ settled s'.
Proof using Hr.
  intros Hs. unfold read. erewrite bind_Ret by reflexivity. rewrite (proj1 Hs).
  erewrite bind_Ret by (by apply flushWrites_settled).
  erewrite bind_Ret by apply busRead_answers. eexists. by split; [reflexivity|].
Qed.

Lemma fitTo_exact conv l : fitTo (Z.of_nat (length l)) conv l = map conv l.
Proof.
  unfold fitTo. rewrite Nat2Z.id, Nat.sub_diag, app_nil_r. apply take_ge. by rewrite length_map.
Qed.

Lemma readMany_answers sels s :
  settled s -> exists s', readMany sels s = (Ret (map (fun x => u16 (r x)) sels), s') /\ settled s'.
Proof using Hr.
  intros Hs. unfold readMany. erewrite bind_Ret by (by apply flushWrites_settled).
  destruct Hr as [Hr1 Hrm]. destruct env_ReadMany as [many|].
  - unfold gets, emit, modify, addBeats, mbind, SE_bind. rewrite Hrm. eexists. split.
    + cbn. rewrite <- (length_map r), fitTo_exact, map_map. reflexivity.
    + exact Hs.
  - clear Hrm. revert s Hs. induction sels as [|sel sels IH]; intros s Hs; simpl; [by exists s|].
    destruct (read_answers sel s Hs) as (s1 & H1 & Hs1). destruct (IH s1 Hs1) as (s2 & H2 & Hs2).
    exists s2. split; [|done]. erewrite bind_Ret by exact H1. by erewrite bind_Ret by exact H2.
Qed.

Lemma read_answers_inv sel s v s' : settled s -> read sel s = (Ret v, s') -> v = u16 (r sel) /\ settled s'.
Proof using Hr. intros Hs H. destruct (read_answers sel s Hs) as (s1 & H1 & Hs1). rewrite H1 in H. by injection H as <- <-. Qed.
Lemma readMany_answers_inv sels s vs s' :
  settled s -> readMany sels s = (Ret vs, s') -> vs = map (fun x => u16 (r x)) sels /\ settled s'.
Proof using Hr.
  intros Hs H. destruct (readMany_answers sels s Hs) as (s1 & H1 & Hs1). rewrite H1 in H. by injection H as <- <-.
Qed.
End answers.

(** ** Automation: the silent steps of a method *)

Create HintDb issues.
#[export] Hint Resolve issues_mret issues_gets issues_guard issues_liftErr issues_lift issues_fail
  issues_failMsg issues_panic issues_outOfFuel issues_read issues_readMany issues_read32 issues_readEach
  issues_readN issues_checkCtx issues_withTimeout issues_flushWrites issues_writeMany issues_write : issues.
#[export] Hint Extern 1 (issues (emit _) []) => apply issues_emit; reflexivity : issues.
#[export] Hint Extern 1 (issues (modify _) []) => apply issues_modify; intros ?; done : issues.

Ltac issues_step :=
  match goal with
  | |- issues (mbind _ _) _ => apply issues_then; [solve [auto with issues]|intros ?]
  | |- issues (if ?b then _ else _) _ => destruct b eqn:?
  | |- issues (match ?x with _ => _ end) _ => destruct x eqn:?
  end.
(** Runs the goal's silent prefix. *)
Ltac issues_tac := repeat (issues_step; try solve [auto with issues]); try solve [auto with issues].

Lemma issues_write_then {E : Env} {A} sel v (k : M A) regs :
  issues k regs -> issues (write sel v;; k) ((sel, v) :: regs).
Proof. intros H. apply (issues_bind _ _ [_]); [apply issues_write|done]. Qed.

(** ** What a trigger block's configure step leaves issued

    An enabled configuration's registers [regs], or at most the writes [off]
    that disable the block. *)
Definition configured (enabled : bool) (regs off : list (Z * Z)) (s s' : capture) : Prop :=
  queueOk s' /\
  if enabled then issued s' = issued s ++ regs
  else issued s' = issued s \/ issued s' = issued s ++ off.

Section configured.
Context {E : Env}.

(** The steps before the block's writes are silent. *)
Lemma configured_then {A B} (m : M A) (f : A -> M B) en regs off s b s'' :
  issues m [] -> queueOk s -> (m ≫= f) s = (Ret b, s'') ->
  (forall a s', queueOk s' -> f a s' = (Ret b, s'') -> configured en regs off s' s'') ->
  configured en regs off s s''.
Proof.
  intros Hm Hq H Hf. apply bind_Ret_inv in H as (a & s' & H1 & H2).
  apply Hm in H1 as [Hq' Hi]; [|done]. rewrite app_nil_r in Hi.
  unfold configured in *. rewrite <- Hi. by apply (Hf a).
Qed.

(** The fabric has no such block: only a disabled configuration passes. *)
Lemma configured_absent (en : bool) e regs off s a s' :
  queueOk s -> guard en e s = (Ret a, s') -> configured en regs off s s'.
Proof. intros Hq H. apply guard_Ret_inv in H as [-> ->]. split; auto. Qed.

Lemma configured_on (en : bool) (m : M unit) regs off s a s' :
  en = true -> issues m regs -> queueOk s -> m s = (Ret a, s') -> configured en regs off s s'.
Proof. intros -> Hm Hq H. by apply Hm in H. Qed.

Lemma configured_off (en : bool) (m : M unit) regs off s a s' :
  en = false -> issues m off -> queueOk s -> m s = (Ret a, s') -> configured en regs off s s'.
Proof. intros -> Hm Hq H. apply Hm in H as [? ?]; [|done]. split; auto. Qed.
End configured.

(** Follow a configure step's run [H : m s = (Ret a, s')] to its writes. *)
Ltac configured_step H :=
  cbv beta in H;
  lazymatch type of H with
  | (mbind _ _) _ = (Ret _, _) =>
      eapply configured_then; [| |exact H|]; [by issues_tac|assumption|]; clear H;
      intros ? ? ? H
  | guard _ _ _ = (Ret _, _) => eapply configured_absent; [eassumption|exact H]
  | (if ?b then _ else _) _ = (Ret _, _) => destruct b eqn:?
  | (match ?b with _ => _ end) _ = (Ret _, _) => destruct b eqn:?
  | (let x := _ in _) _ = (Ret _, _) => cbv zeta in H
  end.
Ltac configured_tac H := repeat configured_step H;
  try (eapply configured_on; [first [reflexivity|eassumption]| |eassumption|exact H]; by auto with issues);
  try (eapply configured_off; [first [reflexivity|eassumption]| |eassumption|exact H]; by auto with issues).

Lemma configured_fabricRuns {P} (port : (Z -> Z) -> P) on en want f regs off s s' :
  configured en regs off s s' ->
  (en = true -> port (written regs f) = want) ->
  on (port (written off f)) = false ->
  fabricRuns port on en want f (issued s) (issued s').
Proof.
  intros [_ H] Hon Hoff. unfold fabricRuns. destruct en.
  - exists regs. auto.
  - destruct H as [H|H]; [exists []; rewrite app_nil_r|exists off]; auto.
Qed.
