(* ===== verification/BusSteps.v ===== *)
(** * Invariants of register access

    A relation between states that no register access breaks ([BusStep]) holds
    across every read, write, command and wait, whatever their outcome:
    [bus_steps] proves [steps R m] for a method made of them. *)
From S2P Require Import Prelude Machine Fabric Bus.

(** Events of the bus and the clock, not of a sink. *)
Definition busEvent (e : event) : bool :=
  match e with
  | EvSink _ _ _ | EvRoom _ _ _ | EvRoomPut _ _ _ | EvFill _ _ | EvReserve _ _ _ | EvReservedPut _ _ | EvCommit _ _ => false
  | _ => true
  end.

Class BusStep (R : capture -> capture -> Prop) := {
  bus_preorder :: PreOrder R;
  bus_emit e s : busEvent e = true -> R s (set_trace (trace s ++ [e]) s);
  bus_pending l s : l = [] \/ queueWrites s = true -> R s (set_pending l s);
  bus_beats n s : R s (set_beats n s)
}.

Section steps.
Context {E : Env} (R : capture -> capture -> Prop) {HR : BusStep R}.

Lemma steps_emit e : busEvent e = true -> steps R (emit e).
Proof using HR. intros He s. by apply bus_emit. Qed.
(** Writes queue only while the queue is on. *)
Lemma steps_queue f (m : M unit) :
  steps R m ->
  steps R (q ← gets queueWrites; if (q : bool) then modify (fun s => set_pending (f s) s) else m).
Proof using HR.
  intros Hm s. unfold mbind, SE_bind, gets. destruct (queueWrites s) eqn:Hq; [|apply Hm]. apply bus_pending. auto.
Qed.
Lemma steps_addBeats n : steps R (addBeats n).
Proof using HR. intros s. apply bus_beats. Qed.

Lemma steps_busRead sel : steps R (busRead sel).
Proof using HR. unfold busRead. steps_tac. by apply steps_emit. Qed.
Lemma steps_busWrite sel v : steps R (busWrite sel v).
Proof using HR. unfold busWrite. steps_tac. by apply steps_emit. Qed.
Lemma steps_sendMany regs : steps R (sendMany regs).
Proof using HR.
  unfold sendMany. steps_tac; [by apply steps_emit|]. apply steps_busWrite.
Qed.
Lemma steps_flushWrites : steps R flushWrites.
Proof using HR.
  unfold flushWrites. steps_tac; [apply steps_sendMany|]. intros s. apply bus_pending. auto.
Qed.
Lemma steps_read sel : steps R (read sel).
Proof using HR.
  unfold read. steps_tac; [apply steps_flushWrites|apply steps_busRead|apply steps_addBeats].
Qed.
Lemma steps_write sel v : steps R (write sel v).
Proof using HR. apply steps_queue, steps_busWrite. Qed.
Lemma steps_writeMany regs : steps R (writeMany regs).
Proof using HR. apply steps_queue, steps_sendMany. Qed.
Lemma steps_write32 sel v : steps R (write32 sel v).
Proof using HR. unfold write32. steps_tac; apply steps_write. Qed.
Lemma steps_read32 sel : steps R (read32 sel).
Proof using HR. unfold read32. steps_tac; apply steps_read. Qed.
Lemma steps_readEach sels : steps R (readEach sels).
Proof using HR.
  induction sels as [|sel sels IH]; cbn [readEach]; steps_tac. apply steps_read.
Qed.
Lemma steps_readN n sel : steps R (readN n sel).
Proof using HR. induction n as [|n IH]; cbn [readN]; steps_tac. apply steps_read. Qed.
Lemma steps_readMany sels : steps R (readMany sels).
Proof using HR.
  unfold readMany. steps_tac; [apply steps_flushWrites|by apply steps_emit|apply steps_addBeats|apply steps_readEach].
Qed.
Lemma steps_popBytesWith f sel n : steps R (popBytesWith f sel n).
Proof using HR. unfold popBytesWith. steps_tac. by apply steps_emit. Qed.
Lemma steps_popWordsWith f sel n : steps R (popWordsWith f sel n).
Proof using HR. unfold popWordsWith. steps_tac. by apply steps_emit. Qed.

Lemma steps_ctxErr c : steps R (ctxErr c).
Proof using HR. unfold ctxErr. steps_tac. Qed.
Lemma steps_checkCtx c : steps R (checkCtx c).
Proof using HR. unfold checkCtx. steps_tac. apply steps_ctxErr. Qed.
Lemma steps_withTimeout c d : steps R (withTimeout c d).
Proof using HR. unfold withTimeout, now. steps_tac. Qed.
Lemma steps_commandLoop n c op ack : steps R (commandLoop n c op ack).
Proof using HR.
  induction n as [|n IH]; cbn [commandLoop]; steps_tac; [apply steps_ctxErr|apply steps_read].
Qed.
Lemma steps_commandIn fuel c op : steps R (commandIn fuel c op).
Proof using HR.
  unfold commandIn. steps_tac; [apply steps_checkCtx|apply steps_read|apply steps_write|apply steps_commandLoop].
Qed.
Lemma steps_command fuel c op : steps R (command fuel c op).
Proof using HR. unfold command. steps_tac; [apply steps_withTimeout|apply steps_commandIn]. Qed.
Lemma steps_waitLoop n c mask i u : steps R (waitLoop n c mask i u).
Proof using HR.
  revert i u. induction n as [|n IH]; intros i u; cbn [waitLoop]; unfold now;
    steps_tac; [apply steps_checkCtx|apply steps_read|by apply steps_emit].
Qed.
Lemma steps_wait fuel c mask : steps R (wait fuel c mask).
Proof using HR. apply steps_waitLoop. Qed.
Lemma steps_ready fuel c : steps R (ready fuel c).
Proof using HR. unfold ready. steps_tac; [apply steps_withTimeout|apply steps_wait]. Qed.
Lemma steps_waitFrozenLoop n c : steps R (waitFrozenLoop n c).
Proof using HR.
  induction n as [|n IH]; cbn [waitFrozenLoop]; steps_tac; [apply steps_checkCtx|apply steps_read|by apply steps_emit].
Qed.
Lemma steps_Halt fuel c : steps R (Halt fuel c).
Proof using HR. unfold Halt. steps_tac; [apply steps_command|apply steps_ready]. Qed.
End steps.

Ltac bus_leaf :=
  lazymatch goal with
  | |- steps _ (read _) => apply steps_read
  | |- steps _ (write _ _) => apply steps_write
  | |- steps _ (readMany _) => apply steps_readMany
  | |- steps _ (writeMany _) => apply steps_writeMany
  | |- steps _ (write32 _ _) => apply steps_write32
  | |- steps _ (read32 _) => apply steps_read32
  | |- steps _ (readEach _) => apply steps_readEach
  | |- steps _ (readN _ _) => apply steps_readN
  | |- steps _ flushWrites => apply steps_flushWrites
  | |- steps _ (popBytesWith _ _ _) => apply steps_popBytesWith
  | |- steps _ (popWordsWith _ _ _) => apply steps_popWordsWith
  | |- steps _ (ctxErr _) => apply steps_ctxErr
  | |- steps _ (checkCtx _) => apply steps_checkCtx
  | |- steps _ (withTimeout _ _) => apply steps_withTimeout
  | |- steps _ (commandIn _ _ _) => apply steps_commandIn
  | |- steps _ (command _ _ _) => apply steps_command
  | |- steps _ (wait _ _ _) => apply steps_wait
  | |- steps _ (ready _ _) => apply steps_ready
  | |- steps _ (waitFrozenLoop _ _) => apply steps_waitFrozenLoop
  | |- steps _ (Halt _ _) => apply steps_Halt
  | |- steps _ (addBeats _) => apply steps_addBeats
  | |- steps _ (emit _) => apply steps_emit; first [typeclasses eauto | reflexivity]
  end.
(** [steps R m] for a method made of register accesses. *)
Ltac bus_steps := repeat first [bus_leaf | steps_step | solve [auto with steps]].
