(* ===== verification/Command.v ===== *)
(** * Commands and waits: acknowledgement and termination

    Theorems on the command protocol of src/app/internal/sramcapture/capture.go
    (command, commandIn, wait, ready, Halt; defined in Bus): what a successful
    command did on the bus, and that each polling loop ends once its deadline
    passes, on any bus whose accesses take time. *)
From S2P Require Import Prelude Machine Fabric Bus.

Section commands.
Context {E : Env}.

Lemma indexOf_status : indexOf 1 (drop 1 armSels) = None.
Proof. reflexivity. Qed.

(** ** What a successful command did *)

(** The status the fabric answers after the writes [w]. *)
Definition statusAfter (w : list (Z * Z)) (v : Z) : Prop :=
  exists h x, env_Read h 1 = inl x /\ v = u16 x /\ writesOf h = w.

Lemma commandLoop_Ret n c op ack s a s' :
  queueOk s -> commandLoop n c op ack s = (Ret a, s') ->
  queueOk s' /\ issued s' = issued s /\
  exists v, statusAfter (issued s) v /\ v .& 512 <> ack /\ v .& 384 = 0.
Proof.
  revert s. induction n as [|n IH]; intros s Hq H; [done|]. simpl in H.
  apply bind_Ret_inv in H as (e & s1 & H1 & H). injection H1 as He <-.
  destruct e as [e|]; [done|]. apply bind_Ret_inv in H as (v & s2 & H2 & H).
  apply read_answer in H2 as Hv; [|done|apply indexOf_status].
  apply issues_read in H2 as [Hq2 Hi2]; [|done]. rewrite app_nil_r in Hi2.
  destruct (negb (v .& 512 =? ack)) eqn:Hack.
  - apply guard_Ret_inv in H as [Hg ->]. split_and!; [done..|]. exists v. split; [exact Hv|].
    unfold has in Hg. lia.
  - apply IH in H as (Hq' & Hi' & Hx); [|done]. rewrite <- Hi2. done.
Qed.

(** What a successful command means on the bus. *)
Definition acknowledged (op : Z) (s s' : capture) : Prop :=
  issued s' = issued s ++ [(1, op)] /\
  exists before after, statusAfter (issued s) before /\ statusAfter (issued s') after /\
    after .& 512 <> before .& 512 /\ after .& 384 = 0.

Lemma commandIn_Ret fuel c op s a s' :
  queueOk s -> commandIn fuel c op s = (Ret a, s') -> queueOk s' /\ acknowledged op s s'.
Proof.
  unfold commandIn. intros Hq H.
  apply bind_Ret_inv in H as ([] & s1 & H1 & H). apply issues_checkCtx in H1 as [Hq1 Hi1]; [|done].
  apply bind_Ret_inv in H as (v & s2 & H2 & H).
  apply read_answer in H2 as Hv; [|done|apply indexOf_status].
  apply issues_read in H2 as [Hq2 Hi2]; [|done]. cbv zeta in H.
  apply bind_Ret_inv in H as ([] & s3 & H3 & H). apply issues_write in H3 as [Hq3 Hi3]; [|done].
  apply commandLoop_Ret in H as (Hq' & Hi' & w & Hw & Hack & Hrej); [|done].
  rewrite app_nil_r in Hi1, Hi2. rewrite Hi2, Hi1 in Hi3. rewrite Hi1 in Hv.
  unfold acknowledged. rewrite Hi', Hi3. split_and!; [done..|]. exists v, w. rewrite Hi3 in Hw. done.
Qed.

Lemma command_Ret fuel c op s a s' :
  queueOk s -> command fuel c op s = (Ret a, s') -> queueOk s' /\ acknowledged op s s'.
Proof.
  unfold command. intros Hq H. apply bind_Ret_inv in H as (d & s1 & H1 & H).
  apply issues_withTimeout in H1 as [Hq1 Hi]; [|done]. rewrite app_nil_r in Hi.
  apply commandIn_Ret in H; [|done]. unfold acknowledged in *. by rewrite <- Hi.
Qed.

(** C33: a command that succeeds was issued exactly once, nothing else was
    written, and the fabric acknowledged it: the status read before it and a
    status read after it differ in the acknowledge bit, and the latter
    carries no reject bit. *)
Theorem command_acknowledged fuel c op s a s' :
  queueOk s -> command fuel c op s = (Ret a, s') -> acknowledged op s s'.
Proof. intros Hq H. by apply command_Ret in H as [_ H]. Qed.

Lemma issues_commandIn fuel c op : issues (commandIn fuel c op) [(1, op)].
Proof.
  unfold commandIn. apply issues_then; [apply issues_checkCtx|intros _].
  apply issues_then; [apply issues_read|intros v]. cbv zeta.
  apply (issues_bind _ _ [_] []); [apply issues_write|intros _].
  intros s a s' Hq H. apply commandLoop_Ret in H as (? & ? & _); [|done]. by rewrite app_nil_r.
Qed.
Lemma issues_command fuel c op : issues (command fuel c op) [(1, op)].
Proof.
  unfold command. apply issues_then; [apply issues_withTimeout|intros d]. apply issues_commandIn.
Qed.
Lemma issues_waitLoop n c mask i u : issues (waitLoop n c mask i u) [].
Proof.
  revert i u. induction n as [|n IH]; intros i u; simpl; [apply issues_outOfFuel|].
  apply issues_then; [apply issues_checkCtx|intros _]. apply issues_then; [apply issues_read|intros v].
  destruct (_ =? _); [apply issues_mret|]. destruct (negb _); [apply IH|].
  apply issues_then; [apply issues_gets|intros t]. destruct (_ <? _); [apply IH|].
  apply issues_then; [by apply issues_emit|intros _]. apply IH.
Qed.
Lemma issues_wait fuel c mask : issues (wait fuel c mask) [].
Proof. apply issues_waitLoop. Qed.
Lemma issues_ready fuel c : issues (ready fuel c) [].
Proof.
  unfold ready. apply issues_then; [apply issues_withTimeout|intros d]. apply issues_wait.
Qed.

(** ** Every access takes time, so every wait ends *)

(** The outcome is a return or an error. *)
Definition ends {A} (o : outcome A) : Prop := match o with Ret _ | Fail _ => True | _ => False end.

Definition grows (s s' : capture) : Prop := exists l, trace s' = trace s ++ l.

#[export] Instance grows_preorder : PreOrder grows.
Proof.
  split; [intros s; exists []; by rewrite app_nil_r|].
  intros s1 s2 s3 [l H] [l' H']. exists (l ++ l'). by rewrite H', H, app_assoc.
Qed.

(** At least one event later. *)
Definition after (s s' : capture) : Prop := exists e l, trace s' = trace s ++ e :: l.

Lemma after_grows s1 s2 s3 : after s1 s2 -> grows s2 s3 -> after s1 s3.
Proof. intros (e & l & H) [l' H']. exists e, (l ++ l'). by rewrite H', H, <- app_assoc. Qed.
Lemma grows_after s1 s2 s3 : grows s1 s2 -> after s2 s3 -> after s1 s3.
Proof.
  intros [l' H'] (e & l & H). destruct l' as [|e' l'].
  - exists e, l. by rewrite H, H', app_nil_r.
  - exists e', (l' ++ e :: l). by rewrite H, H', <- app_assoc.
Qed.
Lemma after_is_grows s s' : after s s' -> grows s s'.
Proof. intros (e & l & H). by exists (e :: l). Qed.

Lemma busWrite_after sel v s : ends (busWrite sel v s).1 /\ after s (busWrite sel v s).2.
Proof.
  unfold busWrite, gets, emit, modify, mbind, SE_bind. simpl.
  destruct (env_RawWrite _ _ _); (split; [done|by eexists _, []]).
Qed.

Lemma eachWrite_after regs s :
  ends (each (fun r => busWrite r.1 r.2) regs s).1 /\
  (regs <> [] -> after s (each (fun r => busWrite r.1 r.2) regs s).2).
Proof.
  revert s. induction regs as [|[sel v] regs IH]; intros s; [done|]. cbn [each fst snd].
  unfold mbind, SE_bind. destruct (busWrite_after sel v s) as [He Ha].
  destruct (busWrite sel v s) as [[] s1]; try done. simpl in Ha. destruct (IH s1) as [He' Ha'].
  split; [done|]. intros _. destruct regs; [done|]. by apply (after_grows _ s1), after_is_grows, Ha'.
Qed.

Lemma sendMany_after regs s : regs <> [] -> ends (sendMany regs s).1 /\ after s (sendMany regs s).2.
Proof.
  intros Hr. unfold sendMany. destruct env_RawWriteMany as [many|].
  - unfold gets, emit, modify, mbind, SE_bind. simpl.
    destruct (many _ _); (split; [done|by eexists _, []]).
  - destruct (eachWrite_after regs s) as [He Ha]. auto.
Qed.

Lemma flushWrites_after s :
  ends (flushWrites s).1 /\ grows s (flushWrites s).2 /\ (forall e, (flushWrites s).1 = Fail e -> after s (flushWrites s).2).
Proof.
  unfold flushWrites, errOf, attempt, modify, gets, mbind, SE_bind. destruct (pending s) as [|r p].
  { simpl. split_and!; [done|reflexivity|intros ? [=]]. }
  destruct (sendMany_after (r :: p) s) as [He Ha]; [done|].
  destruct (sendMany (r :: p) s) as [[[]|e| |] s1]; try done; simpl.
  - split_and!; [done|by apply after_is_grows|intros ? [=]].
  - split_and!; [done|by apply after_is_grows|done].
Qed.

Lemma if_same {A} (b : bool) (x : A) : (if b then x else x) = x.
Proof. by destruct b. Qed.

(** A status read, which Arm does not cache, is an event. *)
Lemma read_status_after s : ends (read 1 s).1 /\ after s (read 1 s).2.
Proof.
  unfold read. rewrite indexOf_status. unfold gets, mbind, SE_bind. rewrite if_same.
  destruct (flushWrites_after s) as (He & Hg & Hf).
  destruct (flushWrites s) as [[[]|e| |] s1]; try done; [|by split; [|apply (Hf e)]].
  unfold busRead, addBeats, gets, emit, modify, mbind, SE_bind. simpl in *.
  destruct (env_Read _ _); (split; [done|]); apply (grows_after _ s1); try done; by eexists _, [].
Qed.

Lemma write_ends sel v s : ends (write sel v s).1 /\ grows s (write sel v s).2.
Proof.
  unfold write. unfold gets, mbind, SE_bind. destruct (queueWrites s).
  - split; [done|]. exists []. by rewrite app_nil_r.
  - destruct (busWrite_after sel v s) as [He Ha]. split; [done|by apply after_is_grows].
Qed.

Section clock.
(** Each bus access, yield and sleep takes at least [tick] nanoseconds. *)
Variable tick : Z.
Hypothesis tick_pos : 0 < tick.
Hypothesis clock : forall h e l, env_Now h + tick <= env_Now (h ++ e :: l).

Lemma now_after s s' : after s s' -> env_Now (trace s) + tick <= env_Now (trace s').
Proof using clock. intros (e & l & ->). apply clock. Qed.
Lemma now_grows s s' : grows s s' -> env_Now (trace s) <= env_Now (trace s').
Proof using clock tick_pos.
  intros [[|e l] ->]; [rewrite app_nil_r; lia|]. pose proof (clock (trace s) e l). lia.
Qed.

(** The time [n] more turns of a loop leave. *)
Definition within (d : Z) (n : nat) (s : capture) : Prop :=
  (0 < n)%nat /\ d - env_Now (trace s) <= tick * (Z.of_nat n - 1).

Lemma within_after d n s s' : within d (S n) s -> env_Now (trace s) < d -> after s s' -> within d n s'.
Proof using clock tick_pos.
  unfold within. intros [_ Hw] Hd Ha. apply now_after in Ha. split; [|nia].
  destruct n; [|lia]. nia.
Qed.
Lemma within_grows d n s s' : within d n s -> grows s s' -> within d n s'.
Proof using clock tick_pos. unfold within. intros [? Hw] Hg. apply now_grows in Hg. split; [done|lia]. Qed.

(** A context with deadline [d]: expired, cancelled or before [d]. *)
Lemma ctxErr_deadline c d s :
  ctxDeadline c = Some d ->
  (exists e, ctxErr c s = (Ret (Some e), s)) \/ (ctxErr c s = (Ret None, s) /\ env_Now (trace s) < d).
Proof.
  intros Hd. unfold ctxErr, gets. rewrite Hd.
  destruct (match ctxId c with Some _ => _ | None => _ end); [eauto|].
  destruct (d <=? env_Now (trace s)) eqn:Hn; [eauto|]. right. split; [done|lia].
Qed.

Lemma commandLoop_ends n c op ack d s :
  ctxDeadline c = Some d -> within d n s -> ends (commandLoop n c op ack s).1.
Proof using clock tick_pos.
  intros Hd. revert s. induction n as [|n IH]; intros s Hw; [destruct Hw; lia|].
  cbn [commandLoop]. unfold mbind, SE_bind.
  destruct (ctxErr_deadline c d s Hd) as [(e & ->)|[-> Hlt]]; [done|].
  destruct (read_status_after s) as [He Ha].
  destruct (read 1 s) as [[v|e| |] s1]; try done. simpl in Ha.
  destruct (negb _); [by destruct (has v 384)|]. by apply IH, (within_after d n s).
Qed.

Lemma commandIn_ends fuel c op d s :
  ctxDeadline c = Some d -> within d fuel s -> ends (commandIn fuel c op s).1.
Proof using clock tick_pos.
  intros Hd Hw. unfold commandIn, checkCtx. unfold mbind, SE_bind.
  destruct (ctxErr_deadline c d s Hd) as [(e & ->)|[-> Hlt]]; [done|]. simpl.
  destruct (read_status_after s) as [He Ha]. destruct (read 1 s) as [[v|e| |] s1]; try done. simpl in Ha.
  destruct (write_ends 1 op s1) as [He2 Hg]. destruct (write 1 op s1) as [[[]|e| |] s2]; try done.
  apply (commandLoop_ends fuel c op _ d); [done|].
  apply (within_grows d fuel s); [done|]. etransitivity; [by apply after_is_grows|done].
Qed.
Lemma command_bounded fuel c op s :
  second <= tick * (Z.of_nat fuel - 1) -> ends (command fuel c op s).1.
Proof using clock tick_pos.
  intros Hfuel. assert (0 < fuel)%nat by (destruct fuel; unfold second in *; nia || lia).
  unfold command, withTimeout, now. unfold gets at 1, mbind at 1 2, SE_bind at 1 2. cbn [fst snd].
  eapply commandIn_ends; [reflexivity|]. split; [lia|]. destruct (ctxDeadline c); lia.
Qed.

(** A command always ends, acknowledged, rejected or timed out: with
    accesses of at least [tick] nanoseconds and more than a second's worth of
    them as the loop's bound, neither the bound nor a panic is its outcome. *)
Theorem command_ends fuel c op s :
  second <= tick * (Z.of_nat fuel - 1) -> ends (command fuel c op s).1.
Proof using clock tick_pos. apply command_bounded. Qed.

Lemma waitLoop_ends n c mask i u d s :
  ctxDeadline c = Some d -> within d n s -> ends (waitLoop n c mask i u s).1.
Proof using clock tick_pos.
  intros Hd. revert s i u. induction n as [|n IH]; intros s i u Hw; [destruct Hw; lia|].
  cbn [waitLoop]. unfold checkCtx. unfold mbind, SE_bind.
  destruct (ctxErr_deadline c d s Hd) as [(e & ->)|[-> Hlt]]; [done|]. simpl.
  destruct (read_status_after s) as [He Ha]. destruct (read 1 s) as [[v|e| |] s1]; try done. simpl in Ha.
  assert (within d n s1) as Hw1 by by apply (within_after d n s).
  destruct (_ =? mask); [done|]. destruct (negb _); [by apply IH|]. simpl.
  destruct (_ <? _); [by apply IH|]. simpl. apply IH. apply (within_grows d n s1); [done|].
  by eexists.
Qed.

Lemma ready_bounded fuel c s : 3 * second <= tick * (Z.of_nat fuel - 1) -> ends (ready fuel c s).1.
Proof using clock tick_pos.
  intros Hfuel. assert (0 < fuel)%nat by (destruct fuel; unfold second in *; nia || lia).
  unfold ready, withTimeout, now. unfold gets at 1, mbind at 1 2, SE_bind at 1 2. cbn [fst snd].
  unfold wait. eapply waitLoop_ends; [reflexivity|].
  split; [lia|]. destruct (ctxDeadline c); lia.
Qed.

(** Waiting for the ready bit ends within its three seconds on such a bus. *)
Theorem ready_ends fuel c s : 3 * second <= tick * (Z.of_nat fuel - 1) -> ends (ready fuel c s).1.
Proof using clock tick_pos. apply ready_bounded. Qed.
End clock.
End commands.

#[export] Hint Resolve issues_commandIn issues_command issues_wait issues_ready : issues.
