(* ===== verification/Ends.v ===== *)
(** * Every method ends

    The polling loops of the package run to a deadline. On a bus whose
    accesses take time each of them ends before the model's loop bound does,
    so a method made of them returns or fails: [total]. [ends_tac] proves it
    of a method from its loops. *)
From S2P Require Import Prelude Machine Fabric Bus BusSteps Command.

(** Every run of [m] from a state of [P] ends, in a state of [P]. *)
Definition total {A} (P : capture -> Prop) (m : M A) : Prop := forall s, P s -> ends (m s).1 /\ P (m s).2.

(** Arm's cache is off: the invariant of every method but Arm. *)
Definition uncached (s : capture) : Prop := armReady s = false.
Definition anyState (s : capture) : Prop := True.

(** A predicate register accesses keep. *)
Class Stable (P : capture -> Prop) := { stable_steps :: BusStep (fun s s' => P s -> P s') }.
#[export] Instance uncached_stable : Stable uncached.
Proof. split. split; [split; [by intros s|]|done..]. intros s1 s2 s3 H1 H2 H. auto. Qed.
#[export] Instance anyState_stable : Stable anyState.
Proof. split. split; [split; [by intros s|]|done..]. done. Qed.

(** Two invariants at once. *)
Definition both (P Q : capture -> Prop) (s : capture) : Prop := P s /\ Q s.
#[export] Instance both_stable P Q : Stable P -> Stable Q -> Stable (both P Q).
Proof.
  intros [[Hp1 Hp2 Hp3 Hp4]] [[Hq1 Hq2 Hq3 Hq4]]. split. split.
  - split; [by intros s|]. intros s1 s2 s3 H1 H2 H. auto.
  - intros e s He [H1 H2]. split; [by apply (Hp2 e s)|by apply (Hq2 e s)].
  - intros l s Hl [H1 H2]. split; [by apply (Hp3 l s)|by apply (Hq3 l s)].
  - intros n s [H1 H2]. split; [by apply (Hp4 n s)|by apply (Hq4 n s)].
Qed.
Lemma total_both {A} P Q (m : M A) : total P m -> steps (fun s s' => Q s -> Q s') m -> total (both P Q) m.
Proof. intros Hm Hq s [H1 H2]. destruct (Hm s H1) as [He Hp]. split; [done|]. split; [done|by apply Hq]. Qed.

Section total_rules.
Context (P : capture -> Prop) {A B : Type}.

Lemma total_bind (m : M A) (f : A -> M B) : total P m -> (forall a, total P (f a)) -> total P (m ≫= f).
Proof.
  intros Hm Hf s Hs. unfold mbind, SE_bind. destruct (Hm s Hs) as [He Hp].
  destruct (m s) as [[] s1]; try done. by apply Hf.
Qed.
(** As [total_bind], with what the first part's result is known to be. *)
Lemma total_bind_with (Q : A -> Prop) (m : M A) (f : A -> M B) :
  total P m -> (forall s a s', m s = (Ret a, s') -> Q a) -> (forall a, Q a -> total P (f a)) -> total P (m ≫= f).
Proof.
  intros Hm HQ Hf s Hs. unfold mbind, SE_bind. destruct (Hm s Hs) as [He Hp].
  destruct (m s) as [[] s1] eqn:H1; try done. apply Hf; [by eapply HQ|done].
Qed.
Lemma total_bind_run (m : M A) (f : A -> M B) :
  total P m -> (forall s a s', P s -> m s = (Ret a, s') -> P s' -> ends (f a s').1 /\ P (f a s').2) -> total P (m ≫= f).
Proof.
  intros Hm Hf s Hs. unfold mbind, SE_bind. destruct (Hm s Hs) as [He Hp].
  destruct (m s) as [[a|e| |] s1] eqn:H1; try done. by apply (Hf s).
Qed.
Lemma total_pure (m : M A) : (forall s, ends (m s).1 /\ (m s).2 = s) -> total P m.
Proof. intros H s Hs. destruct (H s) as [He ->]. done. Qed.
Lemma total_ret (a : A) : total P (mret a).
Proof. done. Qed.
Lemma total_fail e : total P (fail (A := A) e).
Proof. done. Qed.
Lemma total_failMsg m l : total P (failMsg (A := A) m l).
Proof. done. Qed.
Lemma total_gets (f : capture -> A) : total P (gets f).
Proof. done. Qed.
Lemma total_lift (r : A + err) : total P (lift r).
Proof. by destruct r. Qed.
Lemma total_attempt (m : M A) : total P m -> total P (attempt m).
Proof. intros H s Hs. unfold attempt. specialize (H s Hs). by destruct (m s) as [[] ?]. Qed.
End total_rules.

Section total_more.
Context (P : capture -> Prop).

Lemma total_modify f : (forall s, P s -> P (f s)) -> total P (modify f).
Proof. intros Hf s Hs. split; [done|by apply Hf]. Qed.
Lemma total_liftErr r : total P (liftErr r).
Proof. by destruct r. Qed.
Lemma total_guard b e : total P (guard b e).
Proof. by destruct b. Qed.
Lemma total_errOf m : total P m -> total P (errOf m).
Proof. intros. apply total_bind; [by apply total_attempt|]. intros. apply total_ret. Qed.
Lemma total_ignore {A} (m : M A) : total P m -> total P (ignore m).
Proof. intros. apply total_bind; [by apply total_attempt|]. intros. apply total_ret. Qed.
Lemma total_finally {A} (m : M A) d : total P m -> (forall e, total P (d e)) -> total P (finally m d).
Proof.
  intros Hm Hd. apply total_bind; [by apply total_attempt|]. intros r. apply total_bind; [apply Hd|].
  intros [e|]; [apply total_fail|]. destruct r; [apply total_ret|apply total_fail].
Qed.
Lemma total_each {A} (f : A -> M unit) l : (forall a, total P (f a)) -> total P (each f l).
Proof. intros Hf. induction l as [|a l IH]; simpl; [apply total_ret|]. by apply total_bind. Qed.

(** What ends and is made of register accesses is total. *)
Context {HP : Stable P} {E : Env}.

Lemma total_steps {A} (m : M A) :
  (forall s, ends (m s).1) -> steps (fun s s' => P s -> P s') m -> total P m.
Proof. intros He Hm s Hs. split; [apply He|by apply Hm]. Qed.
Lemma total_emit e : busEvent e = true -> total P (emit e).
Proof using HP. intros He. apply total_steps; [done|]. apply steps_emit; [apply _|done]. Qed.
Lemma total_addBeats n : total P (addBeats n).
Proof using HP. apply total_steps; [done|]. apply steps_addBeats, _. Qed.
Lemma total_flushWrites : total P flushWrites.
Proof using HP. apply total_steps; [intros s; apply flushWrites_after|]. apply steps_flushWrites, _. Qed.
Lemma total_write sel v : total P (write sel v).
Proof using HP. apply total_steps; [intros s; apply write_ends|]. apply steps_write, _. Qed.
Lemma total_busRead sel : total P (busRead sel).
Proof using HP.
  unfold busRead. apply total_bind; [apply total_gets|intros h]. apply total_bind; [by apply total_emit|intros _].
  apply total_bind; [apply total_lift|intros v; apply total_ret].
Qed.
Lemma total_read sel : total P (read sel).
Proof using HP.
  unfold read. apply total_bind; [apply total_gets|intros [v|]]; [apply total_ret|].
  apply total_bind; [apply total_flushWrites|intros _]. apply total_bind; [apply total_busRead|intros v].
  apply total_bind; [apply total_addBeats|intros _; apply total_ret].
Qed.
Lemma sendMany_ends regs s : ends (sendMany regs s).1.
Proof.
  destruct regs as [|r regs]; [|by apply sendMany_after].
  unfold sendMany. destruct env_RawWriteMany as [many|]; [|done].
  unfold gets, emit, modify, mbind, SE_bind. simpl. by destruct (many _ _).
Qed.
Lemma total_writeMany regs : total P (writeMany regs).
Proof using HP.
  apply total_steps; [|apply steps_writeMany, _]. intros s. unfold writeMany, gets, mbind, SE_bind.
  destruct (queueWrites s); [done|apply sendMany_ends].
Qed.
Lemma total_write32 sel v : total P (write32 sel v).
Proof using HP. apply total_bind; [|intros _]; apply total_write. Qed.
Lemma total_read32 sel : total P (read32 sel).
Proof using HP.
  apply total_bind; [apply total_read|intros lo]. apply total_bind; [apply total_read|intros hi; apply total_ret].
Qed.
Lemma total_readEach sels : total P (readEach sels).
Proof using HP.
  induction sels as [|x sels IH]; simpl; [apply total_ret|]. apply total_bind; [apply total_read|intros v].
  apply total_bind; [done|intros vs; apply total_ret].
Qed.
Lemma total_readN n sel : total P (readN n sel).
Proof using HP.
  induction n as [|n IH]; simpl; [apply total_ret|]. apply total_bind; [apply total_read|intros v].
  apply total_bind; [done|intros vs; apply total_ret].
Qed.
Lemma total_readMany sels : total P (readMany sels).
Proof using HP.
  unfold readMany. apply total_bind; [apply total_flushWrites|intros _].
  destruct env_ReadMany as [many|]; [|apply total_readEach]. apply total_bind; [apply total_gets|intros h].
  apply total_bind; [by apply total_emit|intros _]. apply total_bind; [apply total_lift|intros vs].
  apply total_bind; [apply total_addBeats|intros _; apply total_ret].
Qed.
Lemma total_popBytesWith f sel n : total P (popBytesWith f sel n).
Proof using HP.
  unfold popBytesWith. apply total_bind; [apply total_gets|intros h]. apply total_bind; [by apply total_emit|intros _].
  apply total_bind; [apply total_lift|intros l; apply total_ret].
Qed.
Lemma total_popWordsWith f sel n : total P (popWordsWith f sel n).
Proof using HP.
  unfold popWordsWith. apply total_bind; [apply total_gets|intros h]. apply total_bind; [by apply total_emit|intros _].
  apply total_bind; [apply total_lift|intros l; apply total_ret].
Qed.
Lemma total_checkCtx c : total P (checkCtx c).
Proof. apply total_bind; [apply total_gets|intros e]. apply total_liftErr. Qed.
Lemma total_withTimeout c d : total P (withTimeout c d).
Proof. apply total_bind; [apply total_gets|intros t]. apply total_ret. Qed.
End total_more.

Section later.
Context {E : Env}.

(** ** A read ends, later than it began *)

Lemma read_after sel s : armReady s = false -> ends (read sel s).1 /\ after s (read sel s).2.
Proof.
  intros Ha. rewrite read_uncached by done. unfold mbind, SE_bind.
  destruct (flushWrites_after s) as (He & Hg & Hf).
  destruct (flushWrites s) as [[[]|e| |] s1]; try done; [|by split; [|apply (Hf e)]].
  unfold busRead, addBeats, gets, emit, modify, mbind, SE_bind. simpl in *.
  destruct (env_Read _ _); (split; [done|]); apply (grows_after _ s1); try done; by eexists _, [].
Qed.
End later.

(** One step of a proof that a method is total. *)
Ltac ends_step :=
  match goal with
  | |- total _ (mbind _ _) => apply total_bind; [|intros ?]
  | |- total _ (mret _) => apply total_ret
  | |- total _ (fail _) => apply total_fail
  | |- total _ (failMsg _ _) => apply total_failMsg
  | |- total _ (gets _) => apply total_gets
  | |- total _ (modify _) => apply total_modify; let H := fresh in intros ? H; exact H
  | |- total _ (emit _) => apply total_emit; [apply _|reflexivity]
  | |- total _ (lift _) => apply total_lift
  | |- total _ (liftErr _) => apply total_liftErr
  | |- total _ (guard _ _) => apply total_guard
  | |- total _ (attempt _) => apply total_attempt
  | |- total _ (errOf _) => apply total_errOf
  | |- total _ (ignore _) => apply total_ignore
  | |- total _ (finally _ _) => apply total_finally; [|intros ?]
  | |- total _ (each _ _) => apply total_each; intros ?
  | |- total _ (read _) => apply total_read; apply _
  | |- total _ (write _ _) => apply total_write; apply _
  | |- total _ (readMany _) => apply total_readMany; apply _
  | |- total _ (writeMany _) => apply total_writeMany; apply _
  | |- total _ (write32 _ _) => apply total_write32; apply _
  | |- total _ (read32 _) => apply total_read32; apply _
  | |- total _ (readN _ _) => apply total_readN; apply _
  | |- total _ flushWrites => apply total_flushWrites; apply _
  | |- total _ (addBeats _) => apply total_addBeats; apply _
  | |- total _ now => apply total_gets
  | |- total _ (ctxErr _) => apply total_gets
  | |- total _ (popBytesWith _ _ _) => apply total_popBytesWith; apply _
  | |- total _ (popWordsWith _ _ _) => apply total_popWordsWith; apply _
  | |- total _ (checkCtx _) => apply total_checkCtx
  | |- total _ (withTimeout _ _) => apply total_withTimeout
  | |- total _ (if ?b then _ else _) => destruct b
  | |- total _ (match ?x with _ => _ end) => destruct x
  end.
Ltac ends_tac := repeat first [assumption | ends_step]; eauto.

Create HintDb ends.

Section clock.
Context {E : Env} (tick : Z).
Hypothesis tick_pos : 0 < tick.
Hypothesis clock : forall h e l, env_Now h + tick <= env_Now (h ++ e :: l).

(** A loop bound that outlasts [d] nanoseconds. *)
Definition lasts (fuel : nat) (d : Z) : Prop := d <= tick * (Z.of_nat fuel - 1).

Lemma lasts_le fuel d d' : lasts fuel d -> d' <= d -> lasts fuel d'.
Proof. unfold lasts. lia. Qed.
(** The loop run behind [withTimeout c d] has the time it needs. *)
Lemma timeout_within fuel c d s :
  0 < d -> lasts fuel d ->
  exists c' t, withTimeout c d s = (Ret c', s) /\ ctxDeadline c' = Some t /\ within tick t fuel s.
Proof using tick_pos.
  intros Hd Hf. assert (0 < fuel)%nat by (destruct fuel; unfold lasts in *; nia || lia).
  unfold withTimeout, now, gets, mbind, SE_bind. eexists _, _. split; [reflexivity|]. split; [reflexivity|].
  split; [done|]. unfold lasts in Hf. destruct (ctxDeadline c); lia.
Qed.

(** Time enough for a loop is an invariant: the clock does not turn back, and
    what the time was measured from only moves forward. *)
#[export] Instance within_stable d fuel : Stable (within tick d fuel).
Proof using clock tick_pos.
  split. split; [split; [by intros s|]|..].
  - intros s1 s2 s3 H1 H2 H. auto.
  - intros e s _ H. apply (within_grows tick tick_pos clock d fuel s); [done|]. by exists [e].
  - intros l s _ H. exact H.
  - intros n s H. exact H.
Qed.
Lemma total_within_emit d fuel e : total (within tick d fuel) (emit e).
Proof using clock tick_pos.
  intros s H. split; [done|]. apply (within_grows tick tick_pos clock d fuel s); [done|]. by exists [e].
Qed.
Lemma total_commandIn fuel c op d :
  ctxDeadline c = Some d -> total (within tick d fuel) (commandIn fuel c op).
Proof using clock tick_pos.
  intros Hd s Hs. split; [by apply (commandIn_ends tick tick_pos clock fuel c op d)|].
  by apply (steps_commandIn (fun s s' => within tick d fuel s -> within tick d fuel s')).
Qed.
Lemma total_wait fuel c mask d :
  ctxDeadline c = Some d -> total (within tick d fuel) (wait fuel c mask).
Proof using clock tick_pos.
  intros Hd s Hs. split; [by apply (waitLoop_ends tick tick_pos clock fuel c mask _ _ d)|].
  by apply (steps_wait (fun s s' => within tick d fuel s -> within tick d fuel s')).
Qed.
(** A method whose first step sets its deadline. *)
Lemma total_timeout {A} (P : capture -> Prop) fuel c d (f : ctx -> M A) s :
  0 < d -> lasts fuel d -> P s ->
  (forall c' t, ctxDeadline c' = Some t -> total (both (within tick t fuel) P) (f c')) ->
  ends ((c' ← withTimeout c d; f c') s).1 /\ P ((c' ← withTimeout c d; f c') s).2.
Proof using tick_pos.
  intros Hd Hf Hs Ht. destruct (timeout_within fuel c d s Hd Hf) as (c' & t & H1 & Hc & Hw).
  rewrite (bind_Ret _ _ _ _ _ H1). destruct (Ht c' t Hc s) as (He & _ & Hp); [done|]. done.
Qed.

Section commands.
Context (P : capture -> Prop) {HP : Stable P} (fuel : nat) (c : ctx).

Lemma total_command op : lasts fuel second -> total P (command fuel c op).
Proof using HP tick_pos clock.
  intros Hf. apply total_steps; [|apply steps_command, _]. intros s. by apply (command_bounded tick).
Qed.
Lemma total_ready : lasts fuel (3 * second) -> total P (ready fuel c).
Proof using HP tick_pos clock.
  intros Hf. apply total_steps; [|apply steps_ready, _]. intros s. by apply (ready_bounded tick).
Qed.
Lemma total_Halt : lasts fuel (3 * second) -> total P (Halt fuel c).
Proof using HP tick_pos clock.
  intros Hf. apply total_bind; [apply total_command, (lasts_le _ _ _ Hf); done|intros _]. by apply total_ready.
Qed.
End commands.
End clock.
