(* ===== verification/DecodedEvent.v ===== *)
(** * The decoded event's transport record

    src/app/internal/sramcapture/decoded_event.go: the 32-byte record the
    FPGA's decoders publish, its validity rules, its encoder and its decoder. *)
From S2P Require Import Prelude Machine.

Definition DecodedEventBytes : Z := 32.

Definition EventStart : Z := 1.
Definition EventData : Z := 2.
Definition EventEnd : Z := 3.
Definition EventError : Z := 4.
Definition EventLoss : Z := 5.
Definition EventTrigger : Z := 6.
Definition EventRetained : Z := 7.

Record DecodedEvent := MkDecodedEvent {
  Epoch : Z; Sequence : Z;
  Sample : Z;
  Record_ : Z; Value : Z;
  Count : Z;
  Protocol : Z; Kind : Z;
  Channels : Z;
  Valid : bool;
  RecordValid : bool
}.

#[export] Instance DecodedEvent_eq_dec : EqDecision DecodedEvent.
Proof. solve_decision. Defined.

(** The fields' Go types. *)
Definition wfEvent (e : DecodedEvent) : Prop :=
  fits 32 (Epoch e) /\ fits 32 (Sequence e) /\ fits 64 (Sample e) /\ fits 32 (Record_ e) /\
  fits 32 (Value e) /\ fits 32 (Count e) /\ fits 8 (Protocol e) /\ fits 8 (Kind e) /\ fits 8 (Channels e).

Definition validate (e : DecodedEvent) : option err :=
  if (Kind e <? EventStart) || (EventRetained <? Kind e) || (10 <? Protocol e) || (3 <? Channels e)
  then Some (EMsg "invalid decoded event header" [])
  else if (Protocol e =? 0) && negb (Kind e =? EventLoss) && negb (Kind e =? EventRetained)
  then Some (EMsg "protocol required for decoded event" [])
  else if ((Kind e =? EventLoss) || (Kind e =? EventError)) && Valid e
  then Some (EMsg "loss or error cannot be valid decoded data" [])
  else if (Kind e =? EventRetained) && (negb (RecordValid e) || (Count e =? 0))
  then Some (EMsg "retained event requires a record and nonempty sample range" [])
  else None.

(** MarshalTo into a buffer of [n] bytes: the buffer's contents, or the error. *)
Definition MarshalTo (e : DecodedEvent) (n : Z) : list Z + err :=
  if negb (n =? DecodedEventBytes) then inr (EMsg "invalid decoded event output size" [])
  else match validate e with
  | Some x => inr x
  | None =>
      inl ([1; Kind e; Protocol e; Channels e .| bit (Valid e) (1 .<< 2) .| bit (RecordValid e) (1 .<< 3)] ++
           leBytes 4 (Epoch e) ++ leBytes 4 (Sequence e) ++ leBytes 8 (Sample e) ++
           leBytes 4 (Record_ e) ++ leBytes 4 (Value e) ++ leBytes 4 (Count e))
  end.

Definition byteAt (b : list Z) (i : nat) : Z := default 0 (b !! i).

Definition ParseDecodedEvent (b : list Z) : DecodedEvent + err :=
  if negb (Z.of_nat (length b) =? DecodedEventBytes) || negb (byteAt b 0 =? 1) || has (byteAt b 3) 0xf0
  then inr (EMsg "invalid decoded event framing" [])
  else
    let e := {| Kind := byteAt b 1; Protocol := byteAt b 2; Channels := byteAt b 3 .& 3;
                Valid := has (byteAt b 3) 4; RecordValid := has (byteAt b 3) 8;
                Epoch := leVal (slice 4 4 b); Sequence := leVal (slice 8 4 b);
                Sample := leVal (slice 12 8 b); Record_ := leVal (slice 20 4 b);
                Value := leVal (slice 24 4 b); Count := leVal (slice 28 4 b) |} in
    match validate e with
    | Some x => inr x
    | None => inl e
    end.

(** ** The flag byte *)

Lemma flags_roundtrip ch (v r : bool) :
  fits 8 ch -> ch <= 3 ->
  let f := ch .| bit v (1 .<< 2) .| bit r (1 .<< 3) in
  fits 8 f /\ has f 0xf0 = false /\ f .& 3 = ch /\ has f 4 = v /\ has f 8 = r.
Proof.
  intros [H0 _] H3. assert (ch = 0 \/ ch = 1 \/ ch = 2 \/ ch = 3) as Hc by lia.
  destruct v, r; repeat (destruct Hc as [->|Hc]); try subst ch; vm_compute; intuition congruence.
Qed.

Lemma flags_inverse f :
  fits 8 f -> has f 0xf0 = false ->
  (f .& 3) .| bit (has f 4) (1 .<< 2) .| bit (has f 8) (1 .<< 3) = f.
Proof.
  intros [H0 H1] Hh. change (2 ^ 8) with 256 in H1.
  assert (forallb (fun x => has x 0xf0 ||
            ((x .& 3) .| bit (has x 4) (1 .<< 2) .| bit (has x 8) (1 .<< 3) =? x))
            (seqZ 0 256) = true) as Hall by (vm_compute; reflexivity).
  rewrite forallb_forall in Hall. specialize (Hall f). rewrite Hh in Hall.
  apply Z.eqb_eq, Hall, list_elem_of_In, elem_of_seqZ. lia.
Qed.

Lemma validate_channels e : validate e = None -> Channels e <= 3.
Proof.
  unfold validate. destruct (3 <? Channels e) eqn:H; [|lia].
  by rewrite !orb_true_r.
Qed.

(** ** The record and the event determine each other *)

(** The seven encoded fields of a record, in their places. *)
Lemma slices_of_record h ep sq sa re va co :
  length h = 4%nat ->
  let b := h ++ leBytes 4 ep ++ leBytes 4 sq ++ leBytes 8 sa ++ leBytes 4 re ++ leBytes 4 va ++ leBytes 4 co in
  length b = 32%nat /\
  slice 4 4 b = leBytes 4 ep /\ slice 8 4 b = leBytes 4 sq /\ slice 12 8 b = leBytes 8 sa /\
  slice 20 4 b = leBytes 4 re /\ slice 24 4 b = leBytes 4 va /\ slice 28 4 b = leBytes 4 co.
Proof.
  intros Hh. destruct h as [|h0 [|h1 [|h2 [|h3 [|]]]]]; try discriminate Hh.
  repeat split; reflexivity.
Qed.

(** a valid event's 32-byte record parses back to the event itself, every
    byte of it in range. *)
Theorem parse_marshal e :
  wfEvent e -> validate e = None ->
  exists b, MarshalTo e 32 = inl b /\ length b = 32%nat /\ isBytes b /\ ParseDecodedEvent b = inl e.
Proof.
  intros (Hep & Hsq & Hsa & Hre & Hva & Hco & Hpr & Hki & Hch) Hv.
  unfold MarshalTo. rewrite Hv. simpl (negb _). cbv iota. eexists. split; [reflexivity|].
  destruct (flags_roundtrip (Channels e) (Valid e) (RecordValid e) Hch (validate_channels e Hv))
    as (Hf & Hz & Hc & Hb2 & Hb3).
  set (f := Channels e .| _ .| _) in *.
  destruct (slices_of_record [1; Kind e; Protocol e; f] (Epoch e) (Sequence e) (Sample e) (Record_ e)
              (Value e) (Count e) eq_refl) as (Hl & H1 & H2 & H3 & H4 & H5 & H6).
  set (b := [1; Kind e; Protocol e; f] ++ _) in *.
  split; [exact Hl|]. split.
  { subst b. unfold isBytes. rewrite !Forall_app. split_and!; try apply (isBytes_leBytes _ _).
    repeat apply Forall_cons_2; try done; unfold fits; lia. }
  unfold ParseDecodedEvent. rewrite Hl.
  change (byteAt b 0) with 1. change (byteAt b 1) with (Kind e).
  change (byteAt b 2) with (Protocol e). change (byteAt b 3) with f.
  rewrite H1, H2, H3, H4, H5, H6, Hz, Hc, Hb2, Hb3, !leVal_leBytes by assumption.
  simpl. destruct e; simpl in *. by rewrite Hv.
Qed.

Lemma parsed_encodes b e :
  isBytes b -> ParseDecodedEvent b = inl e ->
  wfEvent e /\ validate e = None /\ MarshalTo e 32 = inl b.
Proof.
  intros Hb. unfold ParseDecodedEvent.
  destruct (negb _ || _ || _) eqn:Hg; [done|].
  apply orb_false_iff in Hg as [Hg Hz]. apply orb_false_iff in Hg as [Hl H0].
  apply negb_false_iff, Z.eqb_eq in Hl, H0.
  match goal with |- context [validate ?x] => set (e' := x) end.
  destruct (validate e') eqn:Hv; [done|]. intros [= <-].
  assert (length b = 32%nat) as Hlen by (unfold DecodedEventBytes in Hl; lia).
  assert (forall i, fits 8 (byteAt b i)) as Hat.
  { intros i. unfold byteAt. destruct (b !! i) eqn:Hi; simpl; [|by unfold fits; lia].
    eapply Forall_lookup_1; eauto. }
  assert (forall o n, (o + n <= 32)%nat -> fits (8 * Z.of_nat n) (leVal (slice o n b))) as Hs.
  { intros o n Hon. pose proof (leVal_bound (slice o n b) (isBytes_slice _ _ _ Hb)) as H.
    by rewrite length_slice in H by lia. }
  pose proof (flags_inverse (byteAt b 3) (Hat 3%nat) Hz) as Hfl.
  split; [|split; [done|]].
  { subst e'. unfold wfEvent; simpl.
    split_and!; try (apply (Hs _ 4%nat); lia); try (apply (Hs _ 8%nat); lia); try (apply Hat).
    split.
    - apply Z.land_nonneg. right. lia.
    - pose proof (fits_bits (byteAt b 3) 0 2 ltac:(lia) ltac:(lia)) as Hb2.
      change (bits (byteAt b 3) 0 2) with (byteAt b 3 .& 3) in Hb2.
      unfold fits in Hb2. change (2 ^ 8) with 256. change (2 ^ 2) with 4 in Hb2. lia. }
  unfold MarshalTo. rewrite Hv. simpl (negb _). cbv iota. f_equal. subst e'.
  cbn [Epoch Sequence Sample Record_ Value Count Protocol Kind Channels Valid RecordValid].
  rewrite Hfl, (leBytes_slice 4 4), (leBytes_slice 8 4), (leBytes_slice 12 8), (leBytes_slice 20 4),
    (leBytes_slice 24 4), (leBytes_slice 28 4) by (done || lia). rewrite <- H0 at 1.
  clear -Hlen. do 32 (destruct b as [|? b]; [discriminate Hlen|]).
  destruct b; [reflexivity|discriminate Hlen].
Qed.


(** a record that parses is exactly the encoding of the event it parses to
    (no two records decode alike), and that event is a valid one. *)
Theorem marshal_parse b e :
  isBytes b -> ParseDecodedEvent b = inl e ->
  wfEvent e /\ validate e = None /\ MarshalTo e 32 = inl b.
Proof. apply parsed_encodes. Qed.

(** A data event of the general image, as [parse_marshal] and [marshal_parse]
    apply to it. *)
Definition sampleEvent : DecodedEvent :=
  {| Epoch := 7; Sequence := 3; Sample := 2 ^ 40 + 5; Record_ := 9; Value := 0x148; Count := 0;
     Protocol := 2; Kind := EventData; Channels := 3; Valid := true; RecordValid := true |}.

Lemma parse_marshal_witness :
  exists b, MarshalTo sampleEvent 32 = inl b /\ length b = 32%nat /\ isBytes b /\
    ParseDecodedEvent b = inl sampleEvent.
Proof.
  apply (parse_marshal sampleEvent); [|reflexivity].
  repeat split; vm_compute; congruence.
Defined.

Definition sampleRecord : list Z := default [] (match MarshalTo sampleEvent 32 with inl b => Some b | _ => None end).

Lemma marshal_parse_witness :
  wfEvent sampleEvent /\ validate sampleEvent = None /\ MarshalTo sampleEvent 32 = inl sampleRecord.
Proof.
  apply (marshal_parse sampleRecord sampleEvent); [|vm_compute; reflexivity].
  apply Forall_forall. intros x Hx. apply fitsb_spec. revert x Hx. apply Forall_forall.
  vm_compute. repeat constructor.
Defined.
