(* ===== verification/Lines.v ===== *)
(** * The decoded stream's transcript

    src/app/internal/decodedlines/lines.go: decoded events folded into lines
    of up to sixteen units, held in a ring that drops the oldest and whose
    absolute line indices survive its wrap. Texts are lists of bytes. *)
From S2P Require Import Prelude Circular Machine DecodedEvent.

(** One line: its first unit's sample, up to sixteen units, which of them are
    errors or unacknowledged, and a note. *)
Module Line.
Record t := Make {
  Sample : Z; Vals : list Z (* [16]uint32 *); N : Z; Errs : Z; Naks : Z; Note : list Z
}.
Definition zero : t := Make 0 (replicate 16 0) 0 0 0 [].
Definition set_sampleNote (s : Z) (n : list Z) (l : t) : t := Make s (Vals l) (N l) (Errs l) (Naks l) n.
Definition set_Sample (s : Z) (l : t) : t := Make s (Vals l) (N l) (Errs l) (Naks l) (Note l).
Definition set_Note (n : list Z) (l : t) : t := Make (Sample l) (Vals l) (N l) (Errs l) (Naks l) n.
Definition set_Errs (x : Z) (l : t) : t := Make (Sample l) (Vals l) (N l) x (Naks l) (Note l).
Definition set_Naks (x : Z) (l : t) : t := Make (Sample l) (Vals l) (N l) (Errs l) x (Note l).
Definition set_unit (v : list Z) (n : Z) (l : t) : t := Make (Sample l) v n (Errs l) (Naks l) (Note l).
End Line.

Record Transcript := Make {
  proto : Z; perLine : Z; hexDigits : Z; ascii : bool; capacity : Z;
  lines : list Line.t (* a ring once full *); head : Z (* its start *);
  dropped : Z (* lines overwritten: the first absolute index held *);
  cur : Line.t; first : Z; haveFirst : bool;
  Events : Z; Units : Z; Lost : Z; Errors : Z (* Counters *);
  trig : Z; recFirst : Z; recLast : Z; marked : bool; triggerHint : bool;
  Cut : Z; lineUnits : Z
}.

(** Each field's assignment. *)
Definition set_held (l : list Line.t) (h d : Z) (t : Transcript) : Transcript :=
  Make (proto t) (perLine t) (hexDigits t) (ascii t) (capacity t) l h d (cur t) (first t) (haveFirst t) (Events t)
    (Units t) (Lost t) (Errors t) (trig t) (recFirst t) (recLast t) (marked t) (triggerHint t) (Cut t) (lineUnits t).
Definition set_cur (x : Line.t) (t : Transcript) : Transcript :=
  Make (proto t) (perLine t) (hexDigits t) (ascii t) (capacity t) (lines t) (head t) (dropped t) x (first t)
    (haveFirst t) (Events t) (Units t) (Lost t) (Errors t) (trig t) (recFirst t) (recLast t) (marked t) (triggerHint t)
    (Cut t) (lineUnits t).
Definition set_first (x : Z) (t : Transcript) : Transcript :=
  Make (proto t) (perLine t) (hexDigits t) (ascii t) (capacity t) (lines t) (head t) (dropped t) (cur t) x true
    (Events t) (Units t) (Lost t) (Errors t) (trig t) (recFirst t) (recLast t) (marked t) (triggerHint t) (Cut t)
    (lineUnits t).
Definition set_counters (ev un lo er : Z) (t : Transcript) : Transcript :=
  Make (proto t) (perLine t) (hexDigits t) (ascii t) (capacity t) (lines t) (head t) (dropped t) (cur t) (first t)
    (haveFirst t) ev un lo er (trig t) (recFirst t) (recLast t) (marked t) (triggerHint t) (Cut t) (lineUnits t).
Definition set_hint (x : bool) (t : Transcript) : Transcript :=
  Make (proto t) (perLine t) (hexDigits t) (ascii t) (capacity t) (lines t) (head t) (dropped t) (cur t) (first t)
    (haveFirst t) (Events t) (Units t) (Lost t) (Errors t) (trig t) (recFirst t) (recLast t) (marked t) x (Cut t)
    (lineUnits t).
Definition set_Cut (x : Z) (t : Transcript) : Transcript :=
  Make (proto t) (perLine t) (hexDigits t) (ascii t) (capacity t) (lines t) (head t) (dropped t) (cur t) (first t)
    (haveFirst t) (Events t) (Units t) (Lost t) (Errors t) (trig t) (recFirst t) (recLast t) (marked t) (triggerHint t)
    x (lineUnits t).
Definition set_lineUnits (x : Z) (t : Transcript) : Transcript :=
  Make (proto t) (perLine t) (hexDigits t) (ascii t) (capacity t) (lines t) (head t) (dropped t) (cur t) (first t)
    (haveFirst t) (Events t) (Units t) (Lost t) (Errors t) (trig t) (recFirst t) (recLast t) (marked t) (triggerHint t)
    (Cut t) x.
Definition set_marks (a b c : Z) (t : Transcript) : Transcript :=
  Make (proto t) (perLine t) (hexDigits t) (ascii t) (capacity t) (lines t) (head t) (dropped t) (cur t) (first t)
    (haveFirst t) (Events t) (Units t) (Lost t) (Errors t) a b c true (triggerHint t) (Cut t) (lineUnits t).


(** Reset keeps the capacity (and the storage). *)
Definition layout (p : Z) : Z * Z * bool :=
  if p =? 5 then (16, 1, false)
  else if p =? 7 then (8, 4, false)
  else if p =? 8 then (4, 8, false)
  else if (p =? 29) || (p =? 30) then (8, 4, false)
  else if p =? 26 then (4, 6, false)
  else if (p =? 28) || (p =? 49) then (4, 8, false)
  else if p =? 52 then (8, 4, false)
  else if (p =? 31) || (p =? 32) || (p =? 35) then (16, 1, false)
  else (16, 2, true).
Definition Reset (p : Z) (t : Transcript) : Transcript :=
  let '(per, hex, asc) := layout p in
  Make p per hex asc (capacity t) [] 0 0 Line.zero 0 false 0 0 0 0 0 0 0 false false 0 0.
(** A transcript before its first Reset. *)
Definition New (p cap : Z) : Transcript :=
  Reset p (Make 0 0 0 false (Z.max cap 1) [] 0 0 Line.zero 0 false 0 0 0 0 0 0 0 false false 0 0).

Definition HistorySamples : Z := 524288.

Definition startNotes : list (list Z) := map text
  [""; "LDR"; "REP"; "SIRC"; "RC5"; "RC6"; "RST"; "START"; "SOF"; "BRK"; "B"; "SOP"; "SOP'";
   String.concat "" ["SOP"; String (Ascii.ascii_of_nat 34) EmptyString]; "SOP'D";
   String.concat "" ["SOP"; String (Ascii.ascii_of_nat 34) EmptyString; "D"]; "HRST"; "CRST"; "MATSUSH"; "KASEIKYO";
   "SAMSUNG"; "DENON"; "SAMSG32"; "JVC"; "NEC16"; "NEC42"]%string.

Definition usbPIDs : list (Z * list Z) := map (fun p => (p.1, text p.2))
  [(0xE1, "OUT"); (0x69, "IN"); (0xA5, "SOF"); (0x2D, "SETUP"); (0xC3, "DATA0"); (0x4B, "DATA1");
   (0x87, "DATA2"); (0x0F, "MDATA"); (0xD2, "ACK"); (0x5A, "NAK"); (0x1E, "STALL"); (0x96, "NYET"); (0x3C, "PRE")]%string.
Definition usbPID (v : Z) : option (list Z) := snd <$> List.find (fun p => p.1 =? v) usbPIDs.

(** A hex digit, upper case. *)
Definition hexDigit (d : Z) : Z := if d <? 10 then 48 + d else 55 + d.
(** [strings.ToUpper(strconv.FormatUint(v, 16))]: no leading zeros; eight digits hold a uint32. *)
Fixpoint hexLoop (n : nat) (v : Z) (acc : list Z) : list Z :=
  match n with
  | O => acc
  | S n => let acc := hexDigit (v .& 15) :: acc in if v .>> 4 =? 0 then acc else hexLoop n (v .>> 4) acc
  end.
Definition hexUpper (v : Z) : list Z := hexLoop 8 v [].
(** [%02X] of a byte. *)
Definition hex2 (v : Z) : list Z := [hexDigit (v .>> 4); hexDigit (v .& 15)].
(** [%d] of a uint32: at most ten digits. *)
Fixpoint decimalLoop (n : nat) (v : Z) (acc : list Z) : list Z :=
  match n with
  | O => acc
  | S n => let acc := 48 + v mod 10 :: acc in if v / 10 =? 0 then acc else decimalLoop n (v / 10) acc
  end.
Definition decimal (v : Z) : list Z := decimalLoop 10 v [].

Definition canNote (v : Z) : list Z :=
  let n := hexUpper (v .& 0x1fffffff) in
  let n := if has v (1 .<< 29) then text "X" ++ n else n in
  let n := if has v (1 .<< 30) then n ++ text " FD" else n in
  if has v (1 .<< 31) then n ++ text " RTR" else n.

(** The index of a start's text, 0 for none. *)
Fixpoint startNoteFrom (i : Z) (l : list (list Z)) (t : list Z) : Z :=
  match l with
  | [] => 0
  | s :: l => if (0 <? i) && bool_decide (s = t) then i else startNoteFrom (i + 1) l t
  end.
Definition StartNoteCode (t : list Z) : Z := startNoteFrom 0 startNotes t.

(** ** What is held *)

Definition Count_ (t : Transcript) : Z := Z.of_nat (length (lines t)).
Definition Base (t : Transcript) : Z := dropped t.
Definition Next (t : Transcript) : Z := int32 (dropped t + Z.of_nat (length (lines t))).
(** None where the source's index is out of range. *)
Definition At (t : Transcript) (i : Z) : option Line.t :=
  lines t !! Z.to_nat ((head t + i) mod Z.of_nat (length (lines t))).
Definition TakeTriggerHint (t : Transcript) : bool * Transcript := (triggerHint t, set_hint false t).

Fixpoint popcount (n : nat) (v : Z) : Z :=
  match n with O => 0 | S n => Z.b2z (Z.odd v) + popcount n (v .>> 1) end.
Definition OnesCount16 (v : Z) : Z := popcount 16 v.

(** ** Building lines *)

Definition push (l : Line.t) : SE Transcript unit :=
  modify (fun t => set_lineUnits (int32 (lineUnits t + (Line.N l - OnesCount16 (Line.Errs l)))) t);;
  t ← gets id;
  if Z.of_nat (length (lines t)) <? capacity t
  then modify (set_held (lines t ++ [l]) (head t) (dropped t))
  else if decide (0 <= head t < Z.of_nat (length (lines t))) then
    modify (set_held (<[Z.to_nat (head t) := l]> (lines t)) ((head t + 1) mod Z.of_nat (length (lines t))) (int32 (dropped t + 1)))
  else panic.

Definition Pending (t : Transcript) : bool := (0 <? Line.N (cur t)) || negb (bool_decide (Line.Note (cur t) = [])).

(** Flush completes the line being built. *)
Definition Flush : SE Transcript unit :=
  t ← gets id;
  if (Line.N (cur t) =? 0) && bool_decide (Line.Note (cur t) = []) then mret tt
  else
    push (cur t);;
    modify (set_cur Line.zero).

Definition slot (sample v : Z) (isErr : bool) : SE Transcript unit :=
  modify (fun t => if (Line.N (cur t) =? 0) && bool_decide (Line.Note (cur t) = [])
                   then set_cur (Line.set_Sample sample (cur t)) t else t);;
  modify (fun t => if isErr then set_cur (Line.set_Errs (Line.Errs (cur t) .| u16 (1 .<< Line.N (cur t))) (cur t)) t else t);;
  t ← gets id;
  if decide (0 <= Line.N (cur t) < Z.of_nat (length (Line.Vals (cur t)))) then
    modify (set_cur (Line.set_unit (<[Z.to_nat (Line.N (cur t)) := v]> (Line.Vals (cur t))) (u8 (Line.N (cur t) + 1)) (cur t)));;
    full ← gets (fun t => perLine t <=? Line.N (cur t));
    if (full : bool) then Flush else mret tt
  else panic.

(** The line's note, and its sample. *)
Definition note (sample : Z) (n : list Z) : SE Transcript unit :=
  modify (fun t => set_cur (Line.set_sampleNote sample n (cur t)) t).

Definition i2cNote (e : DecodedEvent) : list Z :=
  text "@" ++ hex2 ((Value e .>> 1) .& 0x7f) ++ (if has (Value e) 1 then text "R" else text "W") ++
  (if has (Count e) 2 then text "!" else []).

(** Add's cases, by the event's kind. *)
Definition addStart (e : DecodedEvent) : SE Transcript unit :=
  Flush;;
  p ← gets proto;
  match usbPID (Value e .& 0xff) with
  | Some name => if p =? 9 then note (Sample e) name else mret tt
  | None => mret tt
  end;;
  if (10 <? p) && (0 <? Value e) && (int32 (Value e) <? Z.of_nat (length startNotes)) then
    match startNotes !! Z.to_nat (Value e) with
    | Some name => note (Sample e) name
    | None => panic
    end
  else mret tt.

Definition addData (e : DecodedEvent) : SE Transcript unit :=
  modify (fun t => set_counters (Events t) (u64 (Units t + 1)) (Lost t) (Errors t) t);;
  p ← gets proto;
  if (p =? 2) && has (Count e) 1 then Flush;; note (Sample e) (i2cNote e)
  else
    (if (p =? 2) && has (Count e) 2
     then modify (fun t => set_cur (Line.set_Naks (Line.Naks (cur t) .| u16 (1 .<< Line.N (cur t))) (cur t)) t) else mret tt);;
    slot (Sample e) (Value e) false.

Definition addEnd (e : DecodedEvent) : SE Transcript unit :=
  modify (fun t =>
    if (proto t =? 6) && bool_decide (Line.Note (cur t) = []) then
      let c := Line.set_Note (canNote (Value e)) (cur t) in
      set_cur (if Line.N c =? 0 then Line.set_Sample (Sample e) c else c) t
    else t);;
  Flush.

(** An error the FPGA's trigger could not see. *)
Definition cutError (t : Transcript) (e : DecodedEvent) : bool :=
  ((proto t <=? 10) || (proto t =? 13)) && (Sample e <? u64 (first t + HistorySamples)).

Definition addError (e : DecodedEvent) : SE Transcript unit :=
  t ← gets id;
  if cutError t e then modify (set_Cut (u64 (Cut t + 1)))
  else
    modify (fun t => set_counters (Events t) (Units t) (Lost t) (u64 (Errors t + 1)) t);;
    if (proto t <=? 10) && (Line.N (cur t) =? 0) && negb (bool_decide (Line.Note (cur t) = [])) then
      modify (set_cur (Line.set_Note (Line.Note (cur t) ++ text "!") (cur t)));;
      Flush
    else slot (Sample e) 0 true.

Definition addLoss (e : DecodedEvent) : SE Transcript unit :=
  modify (fun t => set_counters (Events t) (Units t) (u64 (Lost t + Count e)) (Errors t) t);;
  Flush;;
  note (Sample e) (text "LOST " ++ decimal (Count e));;
  Flush.

Definition addEvent (e : DecodedEvent) : SE Transcript unit :=
  modify (fun t => set_counters (u64 (Events t + 1)) (Units t) (Lost t) (Errors t) t);;
  modify (fun t => if negb (Kind e =? EventLoss) && negb (haveFirst t) then set_first (Sample e) t else t);;
  if Kind e =? EventStart then addStart e
  else if Kind e =? EventData then addData e
  else if Kind e =? EventEnd then addEnd e
  else if Kind e =? EventError then addError e
  else if (Kind e =? EventTrigger) || (Kind e =? EventRetained) then modify (set_hint true)
  else if Kind e =? EventLoss then addLoss e
  else mret tt.

(** Add folds decoded events into lines. *)
Definition Add (events : list DecodedEvent) : SE Transcript unit := each addEvent events.

(** ** Adding finished lines *)

(** The missed lines up to [index]: [n] bounds them. *)
Fixpoint fillGap (n : nat) (index sample : Z) : SE Transcript unit :=
  t ← gets id;
  if Next t <? index then
    match n with
    | O => outOfFuel
    | S n =>
        push (Line.Make sample (replicate 16 0) 0 0 0 (text "GAP"));;
        fillGap n index sample
    end
  else mret tt.

Definition Append (index : Z) (l : Line.t) : SE Transcript unit :=
  t ← gets id;
  if index <? Next t then mret tt
  else
    (if (Count_ t =? 0) || (capacity t <=? index - Next t) then modify (set_held [] 0 index) else mret tt);;
    fillGap (Z.to_nat (capacity t)) index (Line.Sample l);;
    modify (fun t => if haveFirst t then t else set_first (Line.Sample l) t);;
    push l.

Definition SetCounters (ev un lo er : Z) (t : Transcript) : Transcript := set_counters ev un lo er t.
Definition Mark (a b c : Z) (t : Transcript) : Transcript := set_marks a b c t.

(** ** The trigger's line *)

(** The held line [i]'s sample; out of range it is not read. *)
Definition sampleAt (t : Transcript) (i : Z) : Z := match At t i with Some l => Line.Sample l | None => 0 end.

Fixpoint triggerSearch (n : nat) (t : Transcript) (lo hi : Z) : Z :=
  match n with
  | O => lo
  | S n =>
      if lo <? hi then
        let mid := Z.quot (lo + hi + 1) 2 in
        if sampleAt t mid <=? trig t then triggerSearch n t mid hi else triggerSearch n t lo (mid - 1)
      else lo
  end.
Definition TriggerLine (t : Transcript) : Z :=
  if negb (marked t) || (Count_ t =? 0) || (trig t <? sampleAt t 0) then -1
  else triggerSearch (length (lines t)) t 0 (Count_ t - 1).
