(* ===== verification/LinesRun.v ===== *)
(** * The transcript keeps every unit

    The ring of src/app/internal/decodedlines/lines.go as the newest lines of
    an unbounded history, and Add against that history: the units of its lines
    are the events' units, in order. *)
From S2P Require Import Prelude Circular Machine DecodedEvent Lines.

(** ** The ring holds the newest lines *)

(** The lines held, the oldest first. *)
Definition content (t : Transcript) : list Line.t := circ (lines t) (Z.to_nat (head t)) (length (lines t)).

(** The head is at the start until the ring is full, and inside it then. *)
Definition wfRing (t : Transcript) : Prop :=
  1 <= capacity t /\ Count_ t <= capacity t /\
  (Count_ t < capacity t -> head t = 0) /\ (Count_ t = capacity t -> 0 <= head t < capacity t).

(** Of the lines [H] the transcript holds the last, and its first index counts
    the others; [tight] where it holds as many as its capacity lets it. *)
Definition holds (tight : bool) (H : list Line.t) (t : Transcript) : Prop :=
  wfRing t /\ 0 <= dropped t /\ dropped t + Count_ t = Z.of_nat (length H) /\
  (tight = true -> dropped t = 0 \/ Count_ t = capacity t) /\
  content t = drop (Z.to_nat (dropped t)) H.

(** [H] is every line ever pushed. *)
Abbreviation built := (holds true).

Lemma circ_all {A} (r : list A) : circ r 0 (length r) = r.
Proof.
  unfold circ, rotate. rewrite Nat.Div0.mod_0_l. simpl. by rewrite app_nil_r, firstn_all.
Qed.

Lemma length_content t : length (content t) = length (lines t).
Proof. apply length_circ. lia. Qed.

(** A held line by its position, and by its absolute index. *)
Lemma At_content t i : wfRing t -> 0 <= i < Count_ t -> At t i = content t !! Z.to_nat i.
Proof.
  unfold Count_. intros (H1 & H2 & H3 & H4) Hi. unfold At, content.
  destruct (Z.eq_dec (Count_ t) (capacity t)) as [Hc|Hc]; unfold Count_ in *.
  - specialize (H4 Hc). rewrite lookup_circ by lia. f_equal.
    rewrite <- (Nat2Z.id (_ `mod` _)), Nat2Z.inj_mod. do 2 f_equal. lia.
  - rewrite H3 by lia. simpl. rewrite circ_all, Z.mod_small by lia. done.
Qed.

Lemma holds_At tight H t i :
  holds tight H t -> dropped t <= i < dropped t + Count_ t -> At t (i - dropped t) = H !! Z.to_nat i.
Proof.
  intros (Hw & Hd & Hl & Hf & Hc) Hi. rewrite At_content by (done || lia). rewrite Hc, lookup_drop.
  f_equal. lia.
Qed.

Lemma holds_Next tight H t : holds tight H t -> Z.of_nat (length H) < 2 ^ 31 -> Next t = Z.of_nat (length H).
Proof.
  intros (Hw & Hd & Hl & _) Hb. unfold Next, Count_ in *. rewrite Hl, int32_small by lia. done.
Qed.

Lemma built_New p c : built [] (New p c).
Proof.
  unfold New, Reset. destruct (layout p) as [[per hx] asc]. unfold holds, wfRing, Count_, content. cbn.
  split_and!; (lia || auto || (intros; lia)).
Qed.

(** What a push leaves alone: the settings and the totals. *)
Record books := Books {
  bProto : Z; bPer : Z; bCap : Z; bFirst : Z; bHave : bool; bEvents : Z; bUnits : Z; bLost : Z; bErrors : Z; bCut : Z
}.
Definition aside (t : Transcript) : books :=
  Books (proto t) (perLine t) (capacity t) (first t) (haveFirst t) (Events t) (Units t) (Lost t) (Errors t) (Cut t).

Lemma push_spec tight H t l :
  holds tight H t -> Z.of_nat (length H) < 2 ^ 31 - 1 ->
  exists t', push l t = (Ret tt, t') /\ holds tight (H ++ [l]) t' /\ cur t' = cur t /\ aside t' = aside t /\
    dropped t <= dropped t'.
Proof.
  intros (Hw & Hd & Hl & Hf & Hc) Hb. destruct Hw as (W1 & W2 & W3 & W4). unfold Count_, content in *.
  unfold push, modify, gets, mbind, SE_bind, id. cbn.
  destruct (Z.ltb_spec (Z.of_nat (length (lines t))) (capacity t)) as [Hlt|Hge].
  - eexists. split; [reflexivity|]. split; [|split; [done|split; [done|cbn; rewrite ?int32_small; unfold Count_ in *; lia]]]. unfold holds, wfRing, Count_, content. cbn.
    rewrite !length_app. cbn. rewrite W3 in Hc |- * by done.
    change (Z.to_nat 0) with 0%nat in *. rewrite circ_all in Hc.
    assert (circ (lines t ++ [l]) 0 (length (lines t) + 1) = lines t ++ [l]) as Hr.
    { rewrite <- (circ_all (lines t ++ [l])) at 2. by rewrite length_app. }
    rewrite Hr, skipn_app, <- Hc. replace (Z.to_nat (dropped t) - length H)%nat with 0%nat by lia.
    split_and!; try (lia || done). intros Ht. left. specialize (Hf Ht). lia.
  - assert (Z.of_nat (length (lines t)) = capacity t) as Hcap by lia. specialize (W4 Hcap).
    destruct (decide _) as [Hr|Hr]; [|exfalso; lia].
    eexists. split; [reflexivity|]. split; [|split; [done|split; [done|cbn; rewrite ?int32_small; unfold Count_ in *; lia]]]. unfold holds, wfRing, Count_, content. cbn.
    rewrite length_insert, length_app. cbn. rewrite int32_small by lia.
    pose proof (Z.mod_pos_bound (head t + 1) (Z.of_nat (length (lines t)))) as Hm.
    split_and!; [lia|lia|lia|lia|lia|lia|intros _; by right|].
    assert (Z.to_nat ((head t + 1) mod Z.of_nat (length (lines t))) = ((Z.to_nat (head t) + 1) `mod` length (lines t))%nat) as ->.
    { rewrite <- (Nat2Z.id (_ `mod` _)%nat), Nat2Z.inj_mod. do 2 f_equal. lia. }
    rewrite circ_over by lia. rewrite Hc, drop_drop.
    rewrite (skipn_app (Z.to_nat (dropped t + 1))). f_equal; [f_equal; lia|].
    replace (Z.to_nat (dropped t + 1) - length H)%nat with 0%nat by lia. done.
Qed.

(** ** A line's units *)

(** The units of a line that are not errors, in order. *)
Definition unitsFrom (vals : list Z) (errs : Z) (k n : nat) : list Z :=
  omap (fun i => if Z.testbit errs (Z.of_nat i) then None else vals !! i) (seq k n).
Definition unitsOf (l : Line.t) : list Z := unitsFrom (Line.Vals l) (Line.Errs l) 0 (Z.to_nat (Line.N l)).

(** A line as Add builds it: room for sixteen, nothing beyond its units. *)
Definition wfLine (l : Line.t) : Prop :=
  0 <= Line.N l <= 16 /\ length (Line.Vals l) = 16%nat /\ Forall (fits 32) (Line.Vals l) /\
  drop (Z.to_nat (Line.N l)) (Line.Vals l) = replicate (16 - Z.to_nat (Line.N l)) 0 /\
  fits (Line.N l) (Line.Errs l) /\ fits 16 (Line.Naks l) /\ fits 64 (Line.Sample l) /\
  isBytes (Line.Note l) /\ Z.of_nat (length (Line.Note l)) <= 255.

Lemma wfLine_zero : wfLine Line.zero.
Proof. unfold wfLine, Line.zero, fits. cbn. split_and!; try lia; try done; by repeat constructor. Qed.
Lemma units_zero : unitsOf Line.zero = [].
Proof. done. Qed.

Lemma unitsFrom_ext v v' e e' n :
  (forall i, (i < n)%nat -> Z.testbit e (Z.of_nat i) = Z.testbit e' (Z.of_nat i) /\ v !! i = v' !! i) ->
  unitsFrom v e 0 n = unitsFrom v' e' 0 n.
Proof.
  intros Hi. unfold unitsFrom. 
  assert (forall l, Forall (fun i => (i < n)%nat) l ->
    omap (fun i => if Z.testbit e (Z.of_nat i) then None else v !! i) l =
    omap (fun i => if Z.testbit e' (Z.of_nat i) then None else v' !! i) l) as He.
  { induction 1 as [|i l Hl _ IH]; [done|]. cbn. destruct (Hi i Hl) as [-> ->]. by rewrite IH. }
  apply He. apply Forall_forall. intros i Hin. apply elem_of_seq in Hin. lia.
Qed.

Lemma unitsFrom_snoc v e n : unitsFrom v e 0 (S n) = unitsFrom v e 0 n ++ (if Z.testbit e (Z.of_nat n) then [] else option_list (v !! n)).
Proof.
  unfold unitsFrom. rewrite seq_S, omap_app. f_equal. cbn. destruct (Z.testbit _ _); [done|]. by destruct (v !! n).
Qed.

(** ** Operations against the history *)

(** The history and the line being built are well formed; the line is not full. *)
Definition ok (H : list Line.t) (t : Transcript) : Prop :=
  built H t /\ Forall wfLine H /\ wfLine (cur t) /\ Z.of_nat (length (Line.Note (cur t))) <= 64 /\
  0 <= Line.N (cur t) < perLine t /\ perLine t <= 16.

(** The units so far. *)
Definition goods (H : list Line.t) (t : Transcript) : list Z := concat (map unitsOf H) ++ unitsOf (cur t).

(** At most [k] more lines. *)
Definition grown (k : nat) (H H' : list Line.t) : Prop := (length H' <= length H + k)%nat /\ H `prefix_of` H'.
Lemma grown_same k H : grown k H H.
Proof. split; [lia|done]. Qed.
Lemma grown_one H l : grown 1 H (H ++ [l]).
Proof. split; [rewrite length_app; simpl; lia|by exists [l]]. Qed.
Lemma grown_trans k1 k2 k H1 H2 H3 : (k1 + k2 <= k)%nat -> grown k1 H1 H2 -> grown k2 H2 H3 -> grown k H1 H3.
Proof. intros Hk [L1 P1] [L2 P2]. split; [lia|]. by etransitivity. Qed.
Lemma grown_weak k k' H H' : (k <= k')%nat -> grown k H H' -> grown k' H H'.
Proof. intros Hk [L P]. split; [lia|done]. Qed.
#[local] Hint Resolve grown_same grown_one : core.

(** From [H] and [t], [m] returns, adds at most [k] lines and exactly the
    units [u], and leaves [a] aside. *)
Definition does (m : SE Transcript unit) (k : nat) (u : list Z) (H : list Line.t) (t : Transcript) (a : books) : Prop :=
  exists H' t', m t = (Ret tt, t') /\ ok H' t' /\ grown k H H' /\
  goods H' t' = goods H t ++ u /\ aside t' = a.

Lemma does_bind m f k1 k2 u1 u2 H t a1 a2 :
  does m k1 u1 H t a1 ->
  (forall H' t', ok H' t' -> aside t' = a1 -> grown k1 H H' -> does f k2 u2 H' t' a2) ->
  does (m;; f) (k1 + k2) (u1 ++ u2) H t a2.
Proof.
  intros (H1 & t1 & R1 & O1 & L1 & G1 & A1) Hf.
  destruct (Hf H1 t1 O1 A1 L1) as (H2 & t2 & R2 & O2 & L2 & G2 & A2). exists H2, t2.
  rewrite (bind_Ret _ _ _ _ _ R1). split; [done|]. split; [done|]. split; [by eapply (grown_trans k1 k2)|]. split; [|done]. by rewrite G2, G1, app_assoc.
Qed.

Lemma does_ret H t : ok H t -> does (mret tt) 0 [] H t (aside t).
Proof. intros Ho. exists H, t. do 3 (split; [auto|]). split; [by rewrite app_nil_r|done]. Qed.

(** A change to fields other than the ring and the line. *)
Lemma does_modify f H t :
  ok H t -> built H (f t) -> cur (f t) = cur t -> perLine (f t) = perLine t -> does (modify f) 0 [] H t (aside (f t)).
Proof.
  intros (Hb & Hw & Hc & Hn & Hp & H16) Hb' Hcur Hper. exists H, (f t). unfold ok, goods. rewrite Hcur, Hper.
  split; [done|]. split; [split_and!; (done || lia)|]. split; [auto|]. by rewrite app_nil_r.
Qed.

(** Such a change first. *)
Lemma does_set f m k u H t a :
  built H (f t) /\ cur (f t) = cur t -> does m k u H (f t) a -> does (modify f;; m) k u H t a.
Proof.
  intros [_ Hc] (H' & t' & R & O & L & G & A). exists H', t'. do 3 (split; [done|]). split; [|done]. rewrite G. unfold goods. by rewrite Hc.
Qed.

Lemma built_counters a b c d H t : built H t -> built H (set_counters a b c d t).
Proof. done. Qed.

(** A change to the line's note and sample. *)
Lemma does_line f H t :
  ok H t -> wfLine (f (cur t)) -> Z.of_nat (length (Line.Note (f (cur t)))) <= 64 ->
  Line.N (f (cur t)) = Line.N (cur t) -> Line.Vals (f (cur t)) = Line.Vals (cur t) -> Line.Errs (f (cur t)) = Line.Errs (cur t) ->
  does (modify (fun t => set_cur (f (cur t)) t)) 0 [] H t (aside t).
Proof.
  intros (Hb & Hw & Hc & Hn & Hp & H16) Hf Hfn Hfl Hfv Hfe. exists H, (set_cur (f (cur t)) t).
  split; [done|]. split; [|split; [auto|split; [|done]]].
  - unfold ok. cbn. rewrite Hfl. split_and!; try done; lia.
  - unfold goods, unitsOf. cbn. by rewrite Hfl, Hfv, Hfe, app_nil_r.
Qed.

Lemma note_does sample n H t :
  ok H t -> fits 64 sample -> isBytes n -> Z.of_nat (length n) <= 64 -> does (note sample n) 0 [] H t (aside t).
Proof.
  intros Ho Hs Hb Hl. pose proof Ho as (_ & _ & (C1 & C2 & C3 & C4 & C5 & C6 & C7 & C8 & C9) & _).
  apply (does_line (Line.set_sampleNote sample n)); try done. unfold wfLine. cbn. split_and!; (done || lia).
Qed.

(** The most lines the indices count. *)
Definition small (H : list Line.t) : Prop := Z.of_nat (length H) < 2 ^ 31 - 1.

Lemma goods_push H t t' :
  cur t' = Line.zero -> goods (H ++ [cur t]) t' = goods H t.
Proof.
  intros Hc. unfold goods. rewrite Hc, units_zero, map_app, concat_app. cbn. by rewrite !app_nil_r.
Qed.

Lemma Flush_does H t : small H ->
  built H t -> Forall wfLine H -> wfLine (cur t) -> 1 <= perLine t <= 16 -> does Flush 1 [] H t (aside t).
Proof.
  intros Hs Hb Hw Hc Hp. unfold does, Flush. rewrite (bind_Ret _ _ t t t) by done.
  destruct ((Line.N (cur t) =? 0) && bool_decide (Line.Note (cur t) = [])) eqn:He.
  - apply andb_true_iff in He as [H0 Hn]. apply bool_decide_eq_true in Hn.
    exists H, t. split; [done|]. split; [|split; [auto|split; [by rewrite app_nil_r|done]]]. unfold ok. rewrite Hn. cbn. split_and!; (done || blia).
  - destruct (push_spec true H t (cur t) Hb Hs) as (t1 & R1 & B1 & C1 & A1 & _).
    exists (H ++ [cur t]), (set_cur Line.zero t1). rewrite (bind_Ret _ _ _ _ _ R1).
    split; [done|]. split; [|split; [auto|split; [by rewrite goods_push, app_nil_r|by rewrite <- A1]]].
    assert (perLine t1 = perLine t) as Hp1 by by injection A1.
    unfold ok. cbn. rewrite Hp1. split_and!; [done|by apply Forall_app; split; [|constructor]|apply wfLine_zero|lia..].
Qed.

(** A bit of a line's sixteen. *)
Lemma fits_slot n w : 0 <= n < 16 -> fits n w -> fits (n + 1) (w .| u16 (1 .<< n)) /\ fits (n + 1) w /\
  (forall i, 0 <= i < n -> Z.testbit (w .| u16 (1 .<< n)) i = Z.testbit w i) /\
  Z.testbit (w .| u16 (1 .<< n)) n = true /\ Z.testbit w n = false.
Proof.
  intros Hn Hw. assert (u16 (1 .<< n) = 1 .<< n) as ->.
  { apply u16_fits. unfold fits. rewrite Z.shiftl_1_l. split; [lia|]. apply Z.pow_lt_mono_r; lia. }
  assert (forall i, 0 <= i -> Z.testbit (1 .<< n) i = (i =? n)) as Hb.
  { intros i Hi. rewrite Z.shiftl_1_l. destruct (Z.eqb_spec i n) as [->|].
    - by apply Z.pow2_bits_true; lia.
    - by apply Z.pow2_bits_false; lia. }
  split_and!.
  - apply (fits_lor_shl n 1 w 1); [lia|lia|done|unfold fits; lia].
  - apply (fits_le n); [lia|done].
  - intros i Hi. rewrite Z.lor_spec, Hb by lia. rewrite (proj2 (Z.eqb_neq i n)) by lia. by rewrite orb_false_r.
  - by rewrite Z.lor_spec, Hb, Z.eqb_refl, orb_true_r by lia.
  - by apply (fits_testbit n); [|lia].
Qed.

(** The line with one more unit. *)
Definition withUnit (v : Z) (isErr : bool) (l : Line.t) : Line.t :=
  let l := if isErr then Line.set_Errs (Line.Errs l .| u16 (1 .<< Line.N l)) l else l in
  Line.set_unit (<[Z.to_nat (Line.N l) := v]> (Line.Vals l)) (u8 (Line.N l + 1)) l.

Lemma withUnit_wf v isErr l :
  wfLine l -> Line.N l < 16 -> fits 32 v ->
  wfLine (withUnit v isErr l) /\ Line.N (withUnit v isErr l) = Line.N l + 1 /\
  unitsOf (withUnit v isErr l) = unitsOf l ++ (if isErr then [] else [v]).
Proof.
  intros ((N0 & N1) & HV & HF & HD & HE & HK & HS & HB & HL) Hn Hv.
  assert (u8 (Line.N l + 1) = Line.N l + 1) as Hu by (apply u8_fits; unfold fits; lia).
  destruct (fits_slot (Line.N l) (Line.Errs l) ltac:(lia) HE) as (E1 & E2 & E3 & E4 & E5).
  assert (Line.N (withUnit v isErr l) = Line.N l + 1) as HN by by destruct isErr; cbn.
  assert (Line.Vals (withUnit v isErr l) = <[Z.to_nat (Line.N l) := v]> (Line.Vals l)) as HVv by by destruct isErr.
  split; [|split; [done|]].
  - unfold wfLine. rewrite HN, HVv, length_insert. split_and!; try done; try lia; try by destruct isErr.
    + by apply Forall_insert.
    + rewrite drop_insert_lt by lia. replace (Z.to_nat (Line.N l + 1)) with (Z.to_nat (Line.N l) + 1)%nat by lia.
      rewrite <- drop_drop, HD, drop_replicate. f_equal. lia.
  - unfold unitsOf. rewrite HN, HVv. replace (Z.to_nat (Line.N l + 1)) with (S (Z.to_nat (Line.N l))) by lia.
    rewrite unitsFrom_snoc, Z2Nat.id by lia. rewrite list_lookup_insert_eq by lia. f_equal.
    + apply unitsFrom_ext. intros i Hi. rewrite list_lookup_insert_ne by lia. split; [|done].
      destruct isErr; cbn; [|done]. apply E3. lia.
    + destruct isErr; cbn; by rewrite ?E4, ?E5.
Qed.

Lemma slot_does sample v isErr H t :
  ok H t -> small H -> fits 64 sample -> fits 32 v ->
  does (slot sample v isErr) 1 (if isErr then [] else [v]) H t (aside t).
Proof.
  intros (Hb & Hw & Hc & Hn & Hp & H16) Hs Hsa Hv.
  set (l0 := if (Line.N (cur t) =? 0) && bool_decide (Line.Note (cur t) = []) then Line.set_Sample sample (cur t) else cur t).
  assert (wfLine l0 /\ Line.N l0 = Line.N (cur t) /\ unitsOf l0 = unitsOf (cur t) /\ Line.Note l0 = Line.Note (cur t))
    as (Hw0 & N0 & U0 & T0).
  { subst l0. destruct (_ && _); [|done]. split_and!; try done. unfold wfLine in *. cbn. by destruct_and! Hc; split_and!. }
  destruct (withUnit_wf v isErr l0 Hw0 ltac:(lia) Hv) as (W1 & W2 & W3).
  set (t1 := set_cur (withUnit v isErr l0) t).
  assert (slot sample v isErr t = (if perLine t <=? Line.N (withUnit v isErr l0) then Flush else mret tt) t1) as Hslot.
  { unfold slot, modify, gets, id. unfold mbind, SE_bind. cbn -[decide].
    destruct Hw0 as (Wn & WV & _). unfold withUnit in t1, W2 |- *. subst t1 l0.
    destruct (_ && _), isErr; cbn -[decide] in *; rewrite ?WV in *; destruct (decide _) as [|Hd];
      try reflexivity; exfalso; apply Hd; lia. }
  unfold does. rewrite Hslot. assert (goods H t1 = goods H t ++ (if isErr then [] else [v])) as Hg.
  { unfold goods. subst t1. cbn [cur set_cur]. by rewrite W3, U0, app_assoc. }
  destruct (Z.leb_spec (perLine t) (Line.N (withUnit v isErr l0))).
  - destruct (Flush_does H t1 Hs Hb Hw W1 ltac:(subst t1; cbn; lia)) as (H' & t' & R & O & L & G & A).
    exists H', t'. do 3 (split; [done|]). split; [by rewrite G, app_nil_r|done].
  - exists H, t1. split; [done|]. split; [|by split; [auto|split]]. unfold ok. subst t1. cbn [cur set_cur perLine].
    assert (Line.Note (withUnit v isErr l0) = Line.Note (cur t)) as -> by by destruct isErr.
    split_and!; try done; lia.
Qed.

(** ** The notes *)

Lemma hexDigit_byte d : 0 <= d < 16 -> fits 8 (hexDigit d).
Proof. intros. unfold hexDigit, fits. destruct (Z.ltb_spec d 10); lia. Qed.
Lemma land15 v : 0 <= v .& 15 < 16.
Proof. change 15 with (Z.ones 4). rewrite Z.land_ones by lia. apply (Z.mod_pos_bound v 16). lia. Qed.

Lemma hexLoop_short n v acc :
  isBytes acc -> isBytes (hexLoop n v acc) /\ (length (hexLoop n v acc) <= n + length acc)%nat.
Proof.
  revert v acc. induction n as [|n IH]; intros v acc Hb; cbn [hexLoop]; [split; [done|lia]|].
  assert (isBytes (hexDigit (v .& 15) :: acc)) as Hb' by (constructor; [apply hexDigit_byte, land15|done]).
  destruct (_ =? 0); [split; [done|simpl; lia]|]. destruct (IH (v .>> 4) _ Hb') as [H1 H2].
  split; [done|]. simpl in H2. lia.
Qed.
Lemma decimalLoop_short n v acc :
  isBytes acc -> isBytes (decimalLoop n v acc) /\ (length (decimalLoop n v acc) <= n + length acc)%nat.
Proof.
  revert v acc. induction n as [|n IH]; intros v acc Hb; cbn [decimalLoop]; [split; [done|lia]|].
  assert (isBytes (48 + v mod 10 :: acc)) as Hb'.
  { constructor; [|done]. pose proof (Z.mod_pos_bound v 10). unfold fits. lia. }
  destruct (_ =? 0); [split; [done|simpl; lia]|]. destruct (IH (v / 10) _ Hb') as [H1 H2].
  split; [done|]. simpl in H2. lia.
Qed.

(** A text the builder writes. *)
Definition shortNote (n : list Z) : Prop := isBytes n /\ Z.of_nat (length n) <= 32.
Lemma shortNote_app n m k : isBytes n -> isBytes m -> (length n + length m <= k)%nat -> (k <= 32)%nat -> shortNote (n ++ m).
Proof. intros. split; [by apply Forall_app|]. rewrite length_app. lia. Qed.
Definition shortNoteb (n : list Z) : bool := forallb (fitsb 8) n && (Z.of_nat (length n) <=? 32).
Lemma shortNoteb_spec n : shortNoteb n = true -> shortNote n.
Proof.
  unfold shortNoteb. rewrite andb_true_iff, Z.leb_le. intros [H1 H2]. split; [|done].
  apply Forall_forall. intros x Hx. apply fitsb_spec. rewrite forallb_forall in H1. by apply H1, list_elem_of_In.
Qed.

Lemma usbPID_short v n : usbPID v = Some n -> shortNote n.
Proof.
  unfold usbPID. intros H. apply fmap_Some in H as ([k m] & Hf & ->). apply find_some in Hf as [Hin _].
  apply shortNoteb_spec. revert Hin. 
  assert (forallb (fun p => shortNoteb p.2) usbPIDs = true) as Hall by (vm_compute; reflexivity).
  rewrite forallb_forall in Hall. apply Hall.
Qed.
Lemma startNote_short i n : startNotes !! i = Some n -> shortNote n.
Proof.
  intros H. apply list_elem_of_lookup_2, list_elem_of_In in H. apply shortNoteb_spec. revert H.
  assert (forallb shortNoteb startNotes = true) as Hall by (vm_compute; reflexivity).
  rewrite forallb_forall in Hall. apply Hall.
Qed.
Lemma byteText s : forallb (fitsb 8) (text s) = true -> isBytes (text s).
Proof.
  intros H. apply Forall_forall. intros x Hx. apply fitsb_spec. rewrite forallb_forall in H.
  by apply H, list_elem_of_In.
Qed.
Ltac text_tac := apply byteText; vm_compute; reflexivity.

Lemma canNote_short v : shortNote (canNote v).
Proof.
  unfold canNote, hexUpper. destruct (hexLoop_short 8 (v .& 0x1fffffff) [] ltac:(constructor)) as [H1 H2].
  set (n := hexLoop _ _ _) in *. cbn [length] in H2.
  assert (forall b m, isBytes m -> (length m <= 9)%nat -> isBytes (if has v b then m ++ text " FD" else m) /\
    (length (if has v b then m ++ text " FD" else m) <= 12)%nat) as HF.
  { intros b m Hm Hl. destruct (has v b); [|split; [done|lia]]. split; [apply Forall_app; split; [done|text_tac]|].
    rewrite length_app. change (length (text " FD")) with 3%nat. lia. }
  assert (isBytes (if has v (1 .<< 29) then text "X" ++ n else n) /\
    (length (if has v (1 .<< 29) then text "X" ++ n else n) <= 9)%nat) as [X1 X2].
  { destruct (has v _); [|split; [done|lia]]. split; [apply Forall_app; split; [text_tac|done]|].
    rewrite length_app. change (length (text "X")) with 1%nat. lia. }
  destruct (HF (1 .<< 30) _ X1 X2) as [F1 F2]. set (m := if has v (1 .<< 30) then _ else _) in *.
  destruct (has v (1 .<< 31)); [|split; [done|lia]].
  apply (shortNote_app _ _ 16); [done|text_tac| |lia]. change (length (text " RTR")) with 4%nat. lia.
Qed.

Lemma i2cNote_short e : fits 32 (Value e) -> shortNote (i2cNote e).
Proof.
  intros Hv. unfold i2cNote. set (a := (Value e .>> 1) .& 0x7f).
  assert (0 <= a < 128) as Ha.
  { subst a. change 0x7f with (Z.ones 7). rewrite Z.land_ones by lia. apply (Z.mod_pos_bound _ (2 ^ 7)). lia. }
  assert (isBytes (hex2 a)) as Hh.
  { unfold hex2. constructor; [|constructor; [apply hexDigit_byte, land15|constructor]]. apply hexDigit_byte. rewrite Z.shiftr_div_pow2 by lia.
    split; [by apply Z.div_pos; lia|apply Z.div_lt_upper_bound; lia]. }
  apply (shortNote_app _ _ 5); [text_tac| | |lia].
  - repeat (apply Forall_app; split); [done| |]; destruct (has _ _); (text_tac || constructor).
  - rewrite !length_app. change (length (text "@")) with 1%nat. change (length (hex2 a)) with 2%nat.
    destruct (has (Value e) 1), (has (Count e) 2); vm_compute; lia.
Qed.

Lemma lost_short v : shortNote (text "LOST " ++ decimal v).
Proof.
  unfold decimal. destruct (decimalLoop_short 10 v [] ltac:(constructor)) as [H1 H2].
  apply (shortNote_app _ _ 15); [text_tac|done| |lia]. change (length (text "LOST ")) with 5%nat. cbn [length] in H2. lia.
Qed.

(** ** Adding events *)

(** The unit an event carries into a line: a data event's value, but an I2C
    address goes into its line's note. *)
Definition unitOf (p : Z) (e : DecodedEvent) : list Z :=
  if (Kind e =? EventData) && negb ((p =? 2) && has (Count e) 1) then [Value e] else [].

(** The totals an event counts into. *)
Definition booksFirst (e : DecodedEvent) (a : books) : books :=
  Books (bProto a) (bPer a) (bCap a) (if negb (Kind e =? EventLoss) && negb (bHave a) then Sample e else bFirst a)
    (bHave a || negb (Kind e =? EventLoss)) (u64 (bEvents a + 1)) (bUnits a) (bLost a) (bErrors a) (bCut a).
Definition booksCut (e : DecodedEvent) (a : books) : bool :=
  ((bProto a <=? 10) || (bProto a =? 13)) && (Sample e <? u64 (bFirst a + HistorySamples)).
Definition tally (e : DecodedEvent) (a : books) : books :=
  let a := booksFirst e a in
  let counted un lo er cu := Books (bProto a) (bPer a) (bCap a) (bFirst a) (bHave a) (bEvents a) un lo er cu in
  if Kind e =? EventData then counted (u64 (bUnits a + 1)) (bLost a) (bErrors a) (bCut a)
  else if Kind e =? EventError then
    if booksCut e a then counted (bUnits a) (bLost a) (bErrors a) (u64 (bCut a + 1))
    else counted (bUnits a) (bLost a) (u64 (bErrors a + 1)) (bCut a)
  else if Kind e =? EventLoss then counted (bUnits a) (u64 (bLost a + Count e)) (bErrors a) (bCut a)
  else a.

(** A start's text index is one of the table, or not a positive int. *)
Definition startOk (p : Z) (e : DecodedEvent) : Prop := 10 < p -> Kind e = EventStart -> Value e < 2 ^ 31.

Lemma short_64 n : shortNote n -> isBytes n /\ Z.of_nat (length n) <= 64.
Proof. intros [H1 H2]. split; [done|lia]. Qed.

Lemma Flush_ok H t : ok H t -> small H -> does Flush 1 [] H t (aside t).
Proof. intros (Hb & Hw & Hc & Hn & Hp & H16) Hs. apply Flush_does; try done; lia. Qed.

(** Sequencing where the first part is blank and one line at most. *)
Lemma does_then m f k1 k2 k u H t a1 a2 :
  does m k1 [] H t a1 -> (k1 + k2 <= k)%nat ->
  (forall H' t', ok H' t' -> aside t' = a1 -> grown k1 H H' -> does f k2 u H' t' a2) ->
  does (m;; f) k u H t a2.
Proof.
  intros Hm Hk Hf. destruct (does_bind m f k1 k2 [] u H t a1 a2 Hm Hf) as (H' & t' & R & O & L & G & A).
  exists H', t'. do 2 (split; [done|]). split; [by eapply grown_weak|done].
Qed.
Lemma does_weak m k k' u H t a : does m k u H t a -> (k <= k')%nat -> does m k' u H t a.
Proof. intros (H' & t' & R & O & L & G & A) Hk. exists H', t'. do 2 (split; [done|]). split; [by eapply grown_weak|done]. Qed.
Lemma does_gets {A} (g : Transcript -> A) f k u H t a : does (f (g t)) k u H t a -> does (x ← gets g; f x) k u H t a.
Proof. intros (H' & t' & R & D). exists H', t'. split; [|exact D]. by rewrite (bind_Ret _ _ t (g t) t). Qed.

(** Room for this many more lines. *)
Definition roomFor_ (k : nat) (H : list Line.t) : Prop := Z.of_nat (length H) + Z.of_nat k < 2 ^ 31.
Lemma roomFor_small k H H' : roomFor_ (S k) H -> (length H' <= length H)%nat -> small H'.
Proof. unfold roomFor_, small. lia. Qed.

Lemma addStart_does e H t :
  ok H t -> roomFor_ 2 H -> wfEvent e -> startOk (proto t) e -> Kind e = EventStart ->
  does (addStart e) 1 [] H t (aside t).
Proof.
  intros Ho Hr (W1 & W2 & W3 & W4 & W5 & W6 & _) Hst Hk.
  unfold addStart. eapply (does_then _ _ 1 0); [apply Flush_ok; [done|by eapply roomFor_small]|lia|].
  intros H1 t1 Ho1 A1 L1. apply does_gets.
  assert (proto t1 = proto t) as -> by by injection A1.
  apply (does_then _ _ 0 0 _ _ _ _ (aside t)); [|lia|].
  - destruct (usbPID _) as [n|] eqn:Hn; [|rewrite <- A1; by apply does_ret].
    destruct (_ =? _); [|rewrite <- A1; by apply does_ret]. rewrite <- A1.
    apply usbPID_short, short_64 in Hn as [? ?]. by apply note_does.
  - intros H2 t2 Ho2 A2 L2. destruct ((10 <? proto t) && (0 <? Value e) && _) eqn:Hc; [|rewrite <- A2; by apply does_ret].
    apply andb_true_iff in Hc as [Hc Hlt]. apply andb_true_iff in Hc as [Hp Hv]. apply Z.ltb_lt in Hp, Hv, Hlt.
    rewrite int32_small in Hlt by (specialize (Hst Hp Hk); lia).
    destruct (startNotes !! Z.to_nat (Value e)) as [n|] eqn:Hn.
    + rewrite <- A2. apply startNote_short, short_64 in Hn as [? ?]. by apply note_does.
    + apply lookup_ge_None_1 in Hn. lia.
Qed.

Lemma addData_does e H t :
  ok H t -> roomFor_ 2 H -> wfEvent e -> Kind e = EventData ->
  does (addData e) 1 (unitOf (proto t) e) H t
    (aside (set_counters (Events t) (u64 (Units t + 1)) (Lost t) (Errors t) t)).
Proof.
  intros Ho Hr (W1 & W2 & W3 & W4 & W5 & W6 & _) Hk. set (f := fun t => set_counters (Events t) (u64 (Units t + 1)) (Lost t) (Errors t) t).
  unfold addData. apply (does_then _ _ 0 1 1 _ H t (aside (f t)) (aside (f t))); [apply (does_modify f); try done; apply Ho|lia|].
  intros H1 t1 Ho1 A1 L1. apply does_gets. assert (proto t1 = proto t) as -> by by injection A1.
  rewrite <- A1. clear A1. unfold unitOf. rewrite Hk. cbn [Z.eqb EventData Pos.eqb].
  destruct ((proto t =? 2) && has (Count e) 1) eqn:Ha; cbn [andb negb].
  - apply (does_then _ _ 1 0 _ _ _ _ (aside t1)); [apply Flush_ok; [done|eapply roomFor_small; [exact Hr|unfold grown in *; lia]]|lia|].
    intros H2 t2 Ho2 A2 L2. rewrite <- A2. destruct (short_64 _ (i2cNote_short e W5)) as [? ?]. by apply note_does.
  - apply (does_then _ _ 0 1 _ _ _ _ (aside t1)); [|lia|].
    + destruct ((proto t =? 2) && has (Count e) 2); [|by apply does_ret].
      pose proof Ho1 as (_ & _ & (C1 & C2 & C3 & C4 & C5 & C6 & C7 & C8 & C9) & CN & CP & CL).
      apply (does_line (fun l => Line.set_Naks (Line.Naks l .| u16 (1 .<< Line.N l)) l)); try done.
      unfold wfLine. cbn. split_and!; try done; [lia..|].
      assert (fits 16 (Line.Naks (cur t1) .| u16 (1 .<< Line.N (cur t1)))) as [? ?]; [|unfold fits; lia].
      apply fits_lor; [lia|done|apply fits_u16].
    + intros H2 t2 Ho2 A2 L2. rewrite <- A2. apply (slot_does _ _ false); try done. eapply roomFor_small; [exact Hr|unfold grown in *; lia].
Qed.

Lemma addEnd_does e H t :
  ok H t -> roomFor_ 2 H -> wfEvent e -> does (addEnd e) 1 [] H t (aside t).
Proof.
  intros Ho Hr (W1 & W2 & W3 & W4 & W5 & W6 & _). unfold addEnd.
  set (f := fun t => if (proto t =? 6) && bool_decide (Line.Note (cur t) = []) then _ else t).
  pose proof Ho as (Hb & Hw & (C1 & C2 & C3 & C4 & C5 & C6 & C7 & C8 & C9) & CN & CP & CL).
  destruct (short_64 _ (canNote_short (Value e))) as [N1 N2].
  assert (exists H' t', modify f t = (Ret tt, t') /\ ok H' t' /\ grown 0 H H' /\
    goods H' t' = goods H t ++ [] /\ aside t' = aside t) as Hm.
  { destruct ((proto t =? 6) && bool_decide (Line.Note (cur t) = [])) eqn:Hc.
    - set (g := fun c => let c := Line.set_Note (canNote (Value e)) c in if Line.N c =? 0 then Line.set_Sample (Sample e) c else c).
      destruct (does_line g H t) as (H' & t' & R & D); try done.
      + unfold g, wfLine. cbn -[canNote]. destruct (Line.N (cur t) =? 0); cbn -[canNote]; split_and!; (done || lia).
      + unfold g. cbn -[canNote]. destruct (Line.N (cur t) =? 0); done.
      + unfold g. cbn -[canNote]. by destruct (Line.N (cur t) =? 0).
      + unfold g. cbn -[canNote]. by destruct (Line.N (cur t) =? 0).
      + unfold g. cbn -[canNote]. by destruct (Line.N (cur t) =? 0).
      + exists H', t'. split; [|exact D]. rewrite <- R. unfold modify, f. by rewrite Hc.
    - destruct (does_ret H t Ho) as (H' & t' & R & D). exists H', t'. split; [|exact D]. rewrite <- R.
      unfold modify, f. by rewrite Hc. }
  apply (does_then _ _ 0 1 1 _ H t (aside t)); [exact Hm|lia|].
  intros H1 t1 Ho1 A1 L1. rewrite <- A1. apply Flush_ok; [done|]. eapply roomFor_small; [exact Hr|unfold grown in *; lia].
Qed.

Lemma addLoss_does e H t :
  ok H t -> roomFor_ 2 H -> wfEvent e ->
  does (addLoss e) 2 [] H t (aside (set_counters (Events t) (Units t) (u64 (Lost t + Count e)) (Errors t) t)).
Proof.
  intros Ho Hr (W1 & W2 & W3 & W4 & W5 & W6 & _). set (f := fun t => set_counters (Events t) (Units t) (u64 (Lost t + Count e)) (Errors t) t).
  unfold addLoss. apply (does_then _ _ 0 2 2 _ H t (aside (f t)) (aside (f t))); [apply (does_modify f); try done; apply Ho|lia|].
  intros H1 t1 Ho1 A1 L1. apply (does_then _ _ 1 1 _ _ _ _ (aside (f t))); [|lia|].
  { rewrite <- A1. apply Flush_ok; [done|]. eapply roomFor_small; [exact Hr|unfold grown in *; lia]. }
  intros H2 t2 Ho2 A2 L2. apply (does_then _ _ 0 1 _ _ _ _ (aside (f t))); [|lia|].
  { rewrite <- A2. destruct (short_64 _ (lost_short (Count e))) as [? ?]. by apply note_does. }
  intros H3 t3 Ho3 A3 L3. rewrite <- A3. apply Flush_ok; [done|]. unfold roomFor_, small, grown in *. lia.
Qed.

Lemma addError_does e H t :
  ok H t -> roomFor_ 2 H -> wfEvent e ->
  does (addError e) 1 [] H t
    (if booksCut e (aside t) then aside (set_Cut (u64 (Cut t + 1)) t)
     else aside (set_counters (Events t) (Units t) (Lost t) (u64 (Errors t + 1)) t)).
Proof.
  intros Ho Hr (W1 & W2 & W3 & W4 & W5 & W6 & _). unfold addError. apply (does_gets id). unfold id.
  change (booksCut e (aside t)) with (cutError t e). destruct (cutError t e).
  { eapply does_weak; [|apply Nat.le_0_1]. apply does_modify; try done. apply Ho. }
  set (f := fun t => set_counters (Events t) (Units t) (Lost t) (u64 (Errors t + 1)) t).
  apply (does_set f); [split; [apply Ho|done]|]. change (aside _) with (aside (f t)).
  destruct (_ && _ && _).
  - (* the line is closed with its note marked *)
    pose proof Ho as (Hb & Hw & (C1 & C2 & C3 & C4 & C5 & C6 & C7 & C8 & C9) & CN & CP & CL).
    set (t2 := set_cur (Line.set_Note (Line.Note (cur t) ++ text "!") (cur t)) (f t)).
    destruct (Flush_does H t2) as (H' & t' & R & O & L & G & A).
    + eapply roomFor_small; [exact Hr|unfold grown in *; lia].
    + exact Hb.
    + exact Hw.
    + assert (isBytes (Line.Note (cur t) ++ text "!")) by (apply Forall_app; split; [done|text_tac]).
      unfold wfLine, t2. cbn -[text]. rewrite length_app. change (length (text "!")) with 1%nat. split_and!; (done || lia).
    + unfold t2. cbn. lia.
    + by exists H', t'.
  - apply (slot_does _ _ true); try done. eapply roomFor_small; [exact Hr|unfold grown in *; lia].
Qed.

(** One event: its unit, its totals, and at most two lines. *)
Lemma addEvent_does e H t :
  ok H t -> roomFor_ 2 H -> wfEvent e -> startOk (proto t) e ->
  does (addEvent e) 2 (unitOf (proto t) e) H t (tally e (aside t)).
Proof.
  intros Ho Hr He Hst.
  set (f := fun t => set_counters (u64 (Events t + 1)) (Units t) (Lost t) (Errors t) t).
  set (g := fun t => if negb (Kind e =? EventLoss) && negb (haveFirst t) then set_first (Sample e) t else t).
  unfold addEvent.
  assert (forall t, cur (g t) = cur t /\ perLine (g t) = perLine t /\ proto (g t) = proto t /\ (built H t -> built H (g t))) as Hg.
  { intros t0. unfold g. by destruct (_ && _). }
  assert (aside (g (f t)) = booksFirst e (aside t)) as Hbk.
  { unfold booksFirst, g. cbn. destruct (Kind e =? EventLoss), (haveFirst t) eqn:Hh; cbn; unfold aside; cbn; by rewrite ?Hh. }
  apply (does_set f); [split; [apply Ho|done]|]. apply (does_set g); [split; [apply Hg, Ho|apply Hg]|].
  set (t2 := g (f t)) in *.
  assert (ok H t2) as Ho2.
  { destruct Ho as (Hb & Hw & Hc & Hn & Hp & H16). destruct (Hg (f t)) as (G1 & G2 & _ & G4). unfold ok.
    subst t2. rewrite G1, G2. split_and!; try done; [by apply G4|apply Hp..]. }
  assert (proto t2 = proto t) as Hp by exact (proj1 (proj2 (proj2 (Hg (f t))))). rename Hbk into A2, Hr into Hr2.
  unfold tally. rewrite <- A2. unfold unitOf. rewrite <- Hp in *.
  destruct (Z.eqb_spec (Kind e) EventStart) as [Hk|].
  { rewrite Hk. eapply does_weak; [by apply addStart_does|lia]. }
  destruct (Z.eqb_spec (Kind e) EventData) as [Hk|].
  { pose proof (addData_does e H t2 Ho2 Hr2 He Hk) as Hd. unfold unitOf in Hd. rewrite Hk in Hd.
    eapply does_weak; [exact Hd|lia]. }
  cbn [andb].
  destruct (Z.eqb_spec (Kind e) EventEnd) as [Hk|].
  { rewrite Hk. eapply does_weak; [by apply addEnd_does|lia]. }
  destruct (Z.eqb_spec (Kind e) EventError) as [Hk|].
  { eapply does_weak; [by apply addError_does|lia]. }
  destruct (_ || _) eqn:Hk.
  { destruct (Z.eqb_spec (Kind e) EventLoss) as [Hl|]; [rewrite Hl in Hk; done|].
    eapply does_weak; [|apply Nat.le_0_l]. apply (does_modify (set_hint true)); try done. apply Ho2. }
  destruct (Z.eqb_spec (Kind e) EventLoss) as [Hl|].
  { by apply addLoss_does. }
  eapply does_weak; [by apply does_ret|lia].
Qed.

Lemma ok_New p c : ok [] (New p c).
Proof.
  unfold ok. split; [apply built_New|]. split; [constructor|].
  unfold New, Reset, layout. repeat (destruct (_ =? _) || destruct (_ || _)); cbn -[Line.zero];
    (split; [apply wfLine_zero|cbn; lia]).
Qed.

Lemma tally_proto e a : bProto (tally e a) = bProto a.
Proof.
  unfold tally. destruct (_ =? _); [done|]. destruct (_ =? _); [by destruct (booksCut _ _)|].
  by destruct (_ =? _).
Qed.

Lemma Add_does evs H t :
  ok H t -> roomFor_ (2 * length evs) H -> Forall wfEvent evs -> Forall (startOk (proto t)) evs ->
  does (Add evs) (2 * length evs) (concat (map (unitOf (proto t)) evs)) H t (fold_left (fun a e => tally e a) evs (aside t)).
Proof.
  revert H t. induction evs as [|e evs IH]; intros H t Ho Hr Hw Hst; [by apply does_ret|].
  apply Forall_cons in Hw as [He Hw]. apply Forall_cons in Hst as [Hs Hst]. unfold roomFor_ in Hr. cbn [length] in Hr.
  change (Add (e :: evs)) with (addEvent e;; Add evs). cbn [map concat fold_left].
  replace (2 * length (e :: evs))%nat with (2 + 2 * length evs)%nat by (simpl; lia).
  eapply does_bind; [apply addEvent_does; try done; unfold roomFor_; lia|].
  intros H' t' Ho' A' L'. assert (proto t' = proto t) as Hp.
  { change (bProto (aside t') = proto t). rewrite A', tally_proto. done. }
  rewrite <- A', <- Hp. apply IH; try done; [unfold roomFor_, grown in *; lia|by rewrite Hp].
Qed.

(** ** The totals *)

Definition countKind (k : Z) (evs : list DecodedEvent) : Z := Z.of_nat (length (List.filter (fun e => Kind e =? k) evs)).
Definition lostIn (evs : list DecodedEvent) : Z := foldr (fun e n => (if Kind e =? EventLoss then Count e else 0) + n) 0 evs.

Lemma u64_add x y : u64 (u64 x + y) = u64 (x + y).
Proof. unfold u64. by rewrite Z.add_mod_idemp_l. Qed.

Lemma u64_add_l x y z : u64 (u64 x + y + z) = u64 (x + y + z).
Proof. by rewrite <- !Z.add_assoc, u64_add. Qed.
Lemma u64_add_mid x y z : u64 (x + u64 y + z) = u64 (x + y + z).
Proof. by rewrite (Z.add_comm x), (Z.add_comm x y), u64_add_l. Qed.

Lemma countKind_cons k e evs : countKind k (e :: evs) = Z.b2z (Kind e =? k) + countKind k evs.
Proof. unfold countKind. cbn [List.filter]. destruct (_ =? _); cbn [length Z.b2z]; lia. Qed.

(** What folding events into the totals adds to each. *)
Lemma tally_totals evs a :
  let b := fold_left (fun a e => tally e a) evs a in
  u64 (bEvents b) = u64 (bEvents a + Z.of_nat (length evs)) /\
  u64 (bUnits b) = u64 (bUnits a + countKind EventData evs) /\
  u64 (bLost b) = u64 (bLost a + lostIn evs) /\
  u64 (bErrors b + bCut b) = u64 (bErrors a + bCut a + countKind EventError evs).
Proof.
  revert a. induction evs as [|e evs IH]; intros a; cbn [fold_left].
  { change (countKind _ []) with 0. change (lostIn []) with 0. cbn [length]. split_and!; f_equal; lia. }
  destruct (IH (tally e a)) as (I1 & I2 & I3 & I4). cbv zeta in *. rewrite I1, I2, I3, I4. clear I1 I2 I3 I4 IH.
  rewrite !countKind_cons. cbn [length lostIn foldr]. rewrite Nat2Z.inj_succ. fold (lostIn evs).
  assert (bEvents (tally e a) = u64 (bEvents a + 1)) as ->.
  { unfold tally. repeat (destruct (_ =? _) || destruct (booksCut _ _)); done. }
  rewrite u64_add. split; [f_equal; lia|]. unfold tally.
  destruct (Z.eqb_spec (Kind e) EventData) as [->|]; [cbn [Z.eqb EventData EventError EventLoss Pos.eqb Z.b2z booksFirst bUnits bLost bErrors bCut]; rewrite ?u64_add; split_and!; f_equal; lia|].
  destruct (Z.eqb_spec (Kind e) EventError) as [->|].
  { cbn [Z.eqb EventData EventError EventLoss Pos.eqb Z.b2z].
    destruct (booksCut _ _); cbn [booksFirst bUnits bLost bErrors bCut]; split_and!; try (f_equal; lia).
    - rewrite u64_add_mid. f_equal. lia.
    - rewrite u64_add_l. f_equal. lia. }
  destruct (_ =? _); cbn [booksFirst bUnits bLost bErrors bCut Z.b2z]; rewrite ?u64_add; split_and!; f_equal; lia.
Qed.

(** C22: Add keeps every unit. A new transcript that takes events of the fields'
    widths always returns; the lines it ever made, with the one in progress,
    carry exactly the units of the data events, in order (an I2C address goes
    into its line's note), however errors, losses and the ends of frames cut
    them into lines; the ring holds the newest lines of that history; and the
    totals count every event, data unit, lost unit and error once. *)
Theorem Add_units p c evs :
  Forall wfEvent evs -> Forall (startOk p) evs -> 2 * Z.of_nat (length evs) < 2 ^ 31 ->
  exists H t, Add evs (New p c) = (Ret tt, t) /\ ok H t /\
    goods H t = concat (map (unitOf p) evs) /\
    u64 (Events t) = u64 (Z.of_nat (length evs)) /\ u64 (Units t) = u64 (countKind EventData evs) /\
    u64 (Lost t) = u64 (lostIn evs) /\ u64 (Errors t + Cut t) = u64 (countKind EventError evs).
Proof.
  intros Hw Hs Hl. assert (proto (New p c) = p) as Hp.
  { unfold New, Reset. by destruct (layout p) as [[? ?] ?]. }
  destruct (Add_does evs [] (New p c)) as (H & t & R & O & L & G & A).
  - apply ok_New.
  - unfold roomFor_. cbn [length]. lia.
  - done.
  - by rewrite Hp.
  - exists H, t. rewrite Hp in G. split; [done|]. split; [done|]. split.
    { rewrite G. unfold goods, New, Reset. by destruct (layout p) as [[? ?] ?]. }
    destruct (tally_totals evs (aside (New p c))) as (T1 & T2 & T3 & T4). cbv zeta in *. rewrite <- A in *.
    assert (aside (New p c) = Books p (perLine (New p c)) (Z.max c 1) 0 false 0 0 0 0 0) as Hz.
    { unfold New, Reset. by destruct (layout p) as [[? ?] ?]. }
    rewrite Hz in *. done.
Qed.

(** ** The trigger's line *)

(** Samples never go back along the lines held. *)
Definition ordered (t : Transcript) : Prop :=
  forall i j, 0 <= i <= j -> j < Count_ t -> sampleAt t i <= sampleAt t j.

Lemma triggerSearch_spec n t lo hi :
  ordered t -> 0 <= lo <= hi -> hi < Count_ t -> hi - lo <= Z.of_nat n -> sampleAt t lo <= trig t ->
  (forall j, hi < j < Count_ t -> trig t < sampleAt t j) ->
  let r := triggerSearch n t lo hi in
  lo <= r <= hi /\ sampleAt t r <= trig t /\ forall j, r < j < Count_ t -> trig t < sampleAt t j.
Proof.
  intros Hord. revert lo hi. induction n as [|n IH]; intros lo hi Hlo Hhi Hn Hs Hj; cbn [triggerSearch].
  { assert (lo = hi) as <- by lia. split_and!; (done || lia). }
  destruct (Z.ltb_spec lo hi) as [Hlt|Hge].
  - rewrite Z.quot_div_nonneg by lia. set (mid := (lo + hi + 1) / 2).
    assert (lo < mid <= hi) as Hm.
    { subst mid. pose proof (Z.div_mod (lo + hi + 1) 2). pose proof (Z.mod_pos_bound (lo + hi + 1) 2). lia. }
    destruct (Z.leb_spec (sampleAt t mid) (trig t)) as [Hle|Hgt].
    + destruct (IH mid hi) as (R1 & R2 & R3); try (done || lia). split_and!; (done || lia).
    + destruct (IH lo (mid - 1)) as (R1 & R2 & R3); try (done || lia).
      * intros j Hj'. apply Z.lt_le_trans with (1 := Hgt). apply Hord; lia.
      * split_and!; (done || lia).
  - assert (lo = hi) as <- by lia. split_and!; (done || lia).
Qed.

(** The trigger's line is the last held line that starts at or before it. *)
Theorem TriggerLine_last t :
  ordered t ->
  (TriggerLine t = -1 /\ (marked t = false \/ Count_ t = 0 \/ trig t < sampleAt t 0)) \/
  (0 <= TriggerLine t < Count_ t /\ sampleAt t (TriggerLine t) <= trig t /\
   forall j, TriggerLine t < j < Count_ t -> trig t < sampleAt t j).
Proof.
  intros Hord. unfold TriggerLine. destruct (negb (marked t) || (Count_ t =? 0) || (trig t <? sampleAt t 0)) eqn:Hc.
  - left. split; [done|]. rewrite !orb_true_iff, negb_true_iff, Z.eqb_eq, Z.ltb_lt in Hc. tauto.
  - right. rewrite !orb_false_iff, Z.eqb_neq, Z.ltb_ge in Hc. destruct Hc as [[_ H0] Hs].
    assert (0 < Count_ t) as Hpos by (unfold Count_ in *; lia).
    destruct (triggerSearch_spec (length (lines t)) t 0 (Count_ t - 1)) as (R1 & R2 & R3); try (done || lia).
    + unfold Count_. lia.
    + split_and!; (done || lia).
Qed.

(** Every text a start may carry has its code. *)
Lemma StartNoteCode_texts : map StartNoteCode (drop 1 startNotes) = seqZ 1 25.
Proof. vm_compute. reflexivity. Qed.
