(* ===== verification/LinesWire.v ===== *)
(** * A transcript's lines on the wire

    EncodeLines and DecodeLines of src/app/internal/decodedlines/lines.go: the
    batches by which a reader (src/app/internal/streamview/streamview.go)
    mirrors the transcript the worker builds. *)
From S2P Require Import Prelude Circular Machine DecodedEvent Lines LinesRun.

Definition batchHeader : Z := 4 + 4 + 8 * 4 + 1 + 2.
(** MaxLineBytes bounds one encoded line. *)
Definition MaxLineBytes : Z := 4 + 8 + 1 + 2 + 2 + 1 + 255 + 16 * 4.

(** Counters are the transcript's running totals. *)
Record Totals := { tEvents : Z; tUnits : Z; tLost : Z; tErrors : Z }.
Record Batch := {
  bBase : Z; bNext : Z; bCounters : Totals; bTriggerHint : bool; bIndices : list Z; bLines : list Line.t
}.

(** The units that go on the wire: [l.Vals[k]] for [k] below [l.N]. *)
Definition wireVals (l : Line.t) : list Z := take (Z.to_nat (Line.N l)) (Line.Vals l).
Definition wireNote (l : Line.t) : list Z := take 255 (Line.Note l).
Definition wireWidth (l : Line.t) : nat := if existsb (fun v => 0xff <? v) (wireVals l) then 4%nat else 1%nat.

Definition encodeLine (i : Z) (l : Line.t) : list Z :=
  leBytes 4 (u32 i) ++ leBytes 8 (Line.Sample l) ++
  [Line.N l .| bit (Nat.eqb (wireWidth l) 1) 0x80] ++ leBytes 2 (Line.Errs l) ++ leBytes 2 (Line.Naks l) ++
  [Z.of_nat (length (wireNote l))] ++ wireNote l ++
  concat (map (fun v => if Nat.eqb (wireWidth l) 1 then [v .& 0xff] else leBytes 4 v) (wireVals l)).

(** The lines from [i] on that fit into [room] more bytes, and how many. *)
Fixpoint encodeLoop (n : nat) (t : Transcript) (i room count : Z) : outcome (list Z * Z) :=
  match n with
  | O => Ret ([], count)
  | S n =>
      match At t (i - dropped t) with
      | None => Panic
      | Some l =>
          let need := 4 + 8 + 1 + 2 + 2 + 1 + Z.of_nat (length (wireNote l)) + Line.N l * Z.of_nat (wireWidth l) in
          if (room <? need) || (count =? 0xffff) then Ret ([], count)
          else
            match encodeLoop n t (i + 1) (room - need) (count + 1) with
            | Ret (b, c) => Ret (encodeLine i l ++ b, c)
            | o => o
            end
      end
  end.

(** The batch, as long as the destination's [limit] lets it be; the loop runs
    from [from] to the next line. *)
Definition EncodeLines (from limit : Z) : SE Transcript (list Z) :=
  if limit <? batchHeader then mret []
  else
    t ← gets id;
    let from := Z.min (Z.max from (Base t)) (Next t) in
    match encodeLoop (Z.to_nat (Next t - from)) t from (limit - batchHeader) 0 with
    | Ret (body, count) =>
        let '(hint, t') := TakeTriggerHint t in
        modify (fun _ => t');;
        mret (leBytes 4 (u32 (Base t)) ++ leBytes 4 (u32 (Next t)) ++
              leBytes 8 (Events t) ++ leBytes 8 (Units t) ++ leBytes 8 (Lost t) ++ leBytes 8 (Errors t) ++
              [Z.b2z hint] ++ leBytes 2 (u16 count) ++ body)
    | _ => panic
    end.

(** [n] values of [w] bytes. *)
Fixpoint decodeVals (n w : nat) (b : list Z) : list Z :=
  match n with
  | O => []
  | S n => leVal (take w b) :: decodeVals n w (drop w b)
  end.

(** A line at the head of [b]: its index, the line, and what follows. *)
Definition decodeLine (c : Z) (b : list Z) : (Z * Line.t * list Z) + err :=
  if (length b <? 18)%nat then inr (EMsg "decodedlines: truncated line %d" [c])
  else
    let idx := int32 (leVal (take 4 b)) in
    let n := byteAt b 12 .& 0x7f in
    let w := if has (byteAt b 12) 0x80 then 1%nat else 4%nat in
    let nl := Z.to_nat (byteAt b 17) in
    let rest := drop 18 b in
    if (16 <? n) || (Z.of_nat (length rest) <? Z.of_nat nl + n * Z.of_nat w) then inr (EMsg "decodedlines: bad line %d" [c])
    else
      let vals := decodeVals (Z.to_nat n) w (drop nl rest) in
      inl (idx,
           Line.Make (leVal (slice 4 8 b)) (vals ++ replicate (16 - length vals) 0) n
             (leVal (slice 13 2 b)) (leVal (slice 15 2 b)) (take nl rest),
           drop (nl + Z.to_nat n * w) rest).

Fixpoint decodeLoop (n : nat) (c : Z) (b : list Z) : list Z * list Line.t + err :=
  match n with
  | O => inl ([], [])
  | S n =>
      match decodeLine c b with
      | inr e => inr e
      | inl (i, l, b) =>
          match decodeLoop n (c + 1) b with
          | inr e => inr e
          | inl (ids, ls) => inl (i :: ids, l :: ls)
          end
      end
  end.

Definition DecodeLines (b : list Z) : Batch + err :=
  if (length b <? Z.to_nat batchHeader)%nat then inr (EMsg "decodedlines: short batch" [])
  else
    match decodeLoop (Z.to_nat (leVal (slice 41 2 b))) 0 (drop (Z.to_nat batchHeader) b) with
    | inr e => inr e
    | inl (ids, ls) =>
        inl {| bBase := int32 (leVal (slice 0 4 b)); bNext := int32 (leVal (slice 4 4 b));
               bCounters := {| tEvents := leVal (slice 8 8 b); tUnits := leVal (slice 16 8 b);
                               tLost := leVal (slice 24 8 b); tErrors := leVal (slice 32 8 b) |};
               bTriggerHint := has (byteAt b 40) 1; bIndices := ids; bLines := ls |}
    end.

(** appendLocked of streamview.go: a batch's lines and totals into the reader's transcript. *)
Definition appendBatch (b : Batch) : SE Transcript unit :=
  each (fun il => Append il.1 il.2) (combine (bIndices b) (bLines b));;
  modify (SetCounters (tEvents (bCounters b)) (tUnits (bCounters b)) (tLost (bCounters b)) (tErrors (bCounters b))).

(** ** One line's round trip *)

Lemma int32_u32 i : 0 <= i < 2 ^ 31 -> int32 (u32 i) = i.
Proof. intros Hi. rewrite u32_fits by (unfold fits; lia). apply int32_small. lia. Qed.

Lemma decodeVals_spec vals w rest :
  (w = 1%nat /\ Forall (fits 8) vals) \/ (w = 4%nat /\ Forall (fits 32) vals) ->
  decodeVals (length vals) w (concat (map (fun v => if Nat.eqb w 1 then [v .& 0xff] else leBytes 4 v) vals) ++ rest) = vals.
Proof.
  intros Hw. induction vals as [|v vals IH]; [done|].
  assert (decodeVals (length vals) w (concat (map (fun v => if Nat.eqb w 1 then [v .& 0xff] else leBytes 4 v) vals) ++ rest) = vals) as IH'.
  { apply IH. destruct Hw as [[-> H]|[-> H]]; apply Forall_cons in H as [_ H]; auto. }
  cbn [length map concat decodeVals]. rewrite <- app_assoc.
  rewrite take_app_length', drop_app_length', IH' by (by destruct Hw as [[-> _]|[-> _]]). f_equal.
  destruct Hw as [[-> H]|[-> H]]; apply Forall_cons in H as [H _]; cbn [Nat.eqb].
  - change (leVal [v .& 0xff]) with ((v .& Z.ones 8) + 256 * 0). rewrite Z.land_ones by lia.
    unfold fits in H. rewrite Z.mod_small; lia.
  - by apply leVal_leBytes.
Qed.

Lemma wireWidth_vals l :
  wfLine l -> (wireWidth l = 1%nat /\ Forall (fits 8) (wireVals l)) \/ (wireWidth l = 4%nat /\ Forall (fits 32) (wireVals l)).
Proof.
  intros (_ & _ & HF & _). assert (Forall (fits 32) (wireVals l)) as H32 by by apply Forall_take.
  unfold wireWidth. destruct (existsb _ _) eqn:He; [by right|left]. split; [done|].
  apply Forall_forall. intros x Hx. rewrite Forall_forall in H32. specialize (H32 x Hx).
  destruct (Z.le_gt_cases x 0xff) as [H|H]; [unfold fits in *; lia|].
  exfalso. apply not_true_iff_false in He. apply He. apply existsb_exists. exists x.
  split; [by apply list_elem_of_In|]. by apply Z.ltb_lt.
Qed.

(** The line's fields on the wire, and what they decode to. *)
Lemma flagByte n w : 0 <= n <= 16 -> w = 1%nat \/ w = 4%nat ->
  let b := n .| bit (Nat.eqb w 1) 0x80 in
  fits 8 b /\ b .& 0x7f = n /\ has b 0x80 = Nat.eqb w 1.
Proof.
  intros Hn Hw. 
  assert (forallb (fun n => let b := n .| 0x80 in fitsb 8 b && (b .& 0x7f =? n) && has b 0x80 && (n .& 0x7f =? n) && negb (has n 0x80))
            (seqZ 0 17) = true) as Hall by (vm_compute; reflexivity).
  rewrite forallb_forall in Hall. assert (In n (seqZ 0 17)) as Hin by (apply list_elem_of_In, elem_of_seqZ; lia).
  specialize (Hall n Hin).
  cbv zeta in Hall. rewrite !andb_true_iff, !Z.eqb_eq, fitsb_spec, negb_true_iff in Hall. destruct_and! Hall.
  destruct Hw as [-> | ->]; cbn [Nat.eqb bit]; [done|]. rewrite Z.lor_0_r. split_and!; try done. unfold fits. lia.
Qed.

Lemma length_wireVals l : wfLine l -> length (wireVals l) = Z.to_nat (Line.N l).
Proof. intros (HN & HV & _). unfold wireVals. rewrite length_take. lia. Qed.

Lemma length_wireConcat w vals : w = 1%nat \/ w = 4%nat ->
  length (concat (map (fun v => if Nat.eqb w 1 then [v .& 0xff] else leBytes 4 v) vals)) = (length vals * w)%nat.
Proof.
  intros Hw. induction vals as [|v vals IH]; [done|]. cbn [map concat length]. rewrite length_app, IH.
  destruct Hw as [-> | ->]; reflexivity.
Qed.

Lemma wireWidth_cases l : wireWidth l = 1%nat \/ wireWidth l = 4%nat.
Proof. unfold wireWidth. destruct (existsb _ _); auto. Qed.

Lemma length_encodeLine i l : wfLine l ->
  Z.of_nat (length (encodeLine i l)) =
  4 + 8 + 1 + 2 + 2 + 1 + Z.of_nat (length (wireNote l)) + Line.N l * Z.of_nat (wireWidth l).
Proof.
  intros Hw. unfold encodeLine. rewrite !length_app, !length_leBytes, length_wireConcat by apply wireWidth_cases.
  rewrite length_wireVals by done. destruct Hw as (HN & _). cbn [length]. lia.
Qed.

Lemma slices_of_line f4 f8 f1 f2 f2' f1' (rest : list Z) :
  length f4 = 4%nat -> length f8 = 8%nat -> length f2 = 2%nat -> length f2' = 2%nat ->
  let b := f4 ++ f8 ++ [f1] ++ f2 ++ f2' ++ [f1'] ++ rest in
  take 4 b = f4 /\ slice 4 8 b = f8 /\ byteAt b 12 = f1 /\ slice 13 2 b = f2 /\ slice 15 2 b = f2' /\
  byteAt b 17 = f1' /\ drop 18 b = rest /\ (length b = 18 + length rest)%nat.
Proof.
  intros H4 H8 H2 H2'. do 5 (destruct f4 as [|? f4]; try discriminate H4).
  do 9 (destruct f8 as [|? f8]; try discriminate H8). do 3 (destruct f2 as [|? f2]; try discriminate H2).
  do 3 (destruct f2' as [|? f2']; try discriminate H2'). repeat split; reflexivity.
Qed.

Lemma decode_encodeLine c i l rest :
  wfLine l -> 0 <= i < 2 ^ 31 -> decodeLine c (encodeLine i l ++ rest) = inl (i, l, rest).
Proof.
  intros Hw Hi. pose proof Hw as (HN & HV & HF & HD & HE & HK & HS & HB & HL).
  pose proof (wireWidth_vals l Hw) as Hww. pose proof (length_wireVals l Hw) as Hlv.
  unfold encodeLine. rewrite <- !app_assoc.
  set (tail := wireNote l ++ _).
  destruct (slices_of_line (leBytes 4 (u32 i)) (leBytes 8 (Line.Sample l)) (Line.N l .| bit (Nat.eqb (wireWidth l) 1) 0x80)
    (leBytes 2 (Line.Errs l)) (leBytes 2 (Line.Naks l)) (Z.of_nat (length (wireNote l))) tail) as (S1 & S2 & S3 & S4 & S5 & S6 & S7 & S8);
    [apply length_leBytes..|].
  set (b := leBytes 4 (u32 i) ++ _) in *.
  destruct (flagByte (Line.N l) (wireWidth l) HN (wireWidth_cases l)) as (_ & B1 & B2). cbv zeta in B1, B2.
  assert (wireNote l = Line.Note l) as Hn by (apply take_ge; lia).
  assert (length tail = length (wireNote l) + (Z.to_nat (Line.N l) * wireWidth l + length rest))%nat as Ht.
  { unfold tail. rewrite !length_app, length_wireConcat, Hlv by apply wireWidth_cases. done. }
  unfold decodeLine. rewrite S1, S2, S3, S4, S5, S6, S7, S8, B1, B2.
  destruct (Nat.ltb_spec (18 + length tail) 18); [lia|].
  assert ((if Nat.eqb (wireWidth l) 1 then 1%nat else 4%nat) = wireWidth l) as ->.
  { by destruct (wireWidth_cases l) as [-> | ->]. }
  rewrite Nat2Z.id. rewrite (proj2 (Z.ltb_ge 16 (Line.N l))) by lia. cbn [orb].
  rewrite (proj2 (Z.ltb_ge _ _)) by lia. cbv zeta.
  assert (take (length (wireNote l)) tail = wireNote l) as -> by apply take_app_length.
  rewrite <- drop_drop. assert (drop (length (wireNote l)) tail = _) as Hd by apply drop_app_length. rewrite Hd.
  rewrite <- Hlv, decodeVals_spec by done. rewrite Hlv.
  rewrite drop_app_length'.
  2: { rewrite length_wireConcat, Hlv by apply wireWidth_cases. done. }
  rewrite !leVal_leBytes; [|eapply fits_le; [|done]; lia|eapply fits_le; [|exact HE]; lia|done|apply fits_u32].
  rewrite int32_u32 by done. do 3 f_equal. destruct l as [sa va n er na no]. cbn [Line.Sample Line.Vals Line.N Line.Errs Line.Naks Line.Note] in *.
  f_equal; [|done]. rewrite <- (take_drop (Z.to_nat n) va) at 2. unfold wireVals. cbn. by rewrite HD.
Qed.

(** ** A batch's round trip *)

(** Lines one after the other, the first with index [i]. *)
Fixpoint encodeAll (i : Z) (ls : list Line.t) : list Z :=
  match ls with
  | [] => []
  | l :: ls => encodeLine i l ++ encodeAll (i + 1) ls
  end.

Lemma decode_encodeAll ls i c rest :
  Forall wfLine ls -> 0 <= i -> i + Z.of_nat (length ls) < 2 ^ 31 ->
  decodeLoop (length ls) c (encodeAll i ls ++ rest) = inl (seqZ i (Z.of_nat (length ls)), ls).
Proof.
  revert i c. induction ls as [|l ls IH]; intros i c Hw H0 Hi; [done|].
  apply Forall_cons in Hw as [Hl Hw]. cbn [length encodeAll decodeLoop] in *. rewrite <- app_assoc.
  rewrite decode_encodeLine by (done || lia). rewrite IH by (done || lia).
  rewrite Nat2Z.inj_succ, (seqZ_cons i), Z.pred_succ by lia. done.
Qed.

Lemma encodeLine_bound i l : wfLine l -> Z.of_nat (length (encodeLine i l)) <= MaxLineBytes.
Proof.
  intros Hw. rewrite length_encodeLine by done. destruct Hw as (HN & _). unfold wireNote, MaxLineBytes.
  rewrite length_take. destruct (wireWidth_cases l) as [-> | ->]; lia.
Qed.

(** The loop takes a run of lines that fits, and a line whenever there is room for the longest. *)
Lemma encodeLoop_spec tight H t n i room count :
  holds tight H t -> Forall wfLine H -> dropped t <= i -> i + Z.of_nat n = Z.of_nat (length H) -> 0 <= room ->
  0 <= count <= 0xffff ->
  exists k, encodeLoop n t i room count = Ret (encodeAll i (slice (Z.to_nat i) k H), count + Z.of_nat k) /\
    (k <= n)%nat /\ count + Z.of_nat k <= 0xffff /\
    Z.of_nat (length (encodeAll i (slice (Z.to_nat i) k H))) <= room /\
    ((0 < n)%nat -> MaxLineBytes <= room -> count < 0xffff -> (0 < k)%nat).
Proof.
  intros Hh HwH. revert i room count. induction n as [|n IH]; intros i room count Hi Hn Hr Hc.
  { exists 0%nat. cbn. rewrite Z.add_0_r. split_and!; (done || lia). }
  pose proof Hh as (_ & Hd0 & Hlen & _). cbn [encodeLoop].
  rewrite (holds_At tight H) by (done || lia).
  destruct (lookup_lt_is_Some_2 H (Z.to_nat i)) as [l Hl]; [lia|]. rewrite Hl.
  assert (wfLine l) as Hwl by by eapply Forall_lookup_1 in HwH.
  rewrite <- length_encodeLine with (i := i) by done.
  destruct ((room <? _) || (count =? 0xffff)) eqn:Hfull.
  - exists 0%nat. cbn. rewrite Z.add_0_r. split_and!; try (done || lia).
    intros _ Hm Hlt. pose proof (encodeLine_bound i l Hwl). blia.
  - destruct (IH (i + 1) (room - Z.of_nat (length (encodeLine i l))) (count + 1)) as (k & R & K1 & K2 & K3 & K4); [lia|lia|blia|blia|].
    rewrite R. exists (S k).
    assert (slice (Z.to_nat i) (S k) H = l :: slice (Z.to_nat (i + 1)) k H) as Hs.
    { unfold slice. rewrite (drop_S H l (Z.to_nat i)) by done. cbn [take]. do 2 f_equal. f_equal. lia. }
    rewrite Hs. cbn [encodeAll]. rewrite length_app. split_and!; try (done || lia). do 2 f_equal. lia.
Qed.

(** The totals' widths. *)
Definition wfTotals (t : Transcript) : Prop :=
  fits 64 (Events t) /\ fits 64 (Units t) /\ fits 64 (Lost t) /\ fits 64 (Errors t).

Lemma slices_of_batch a b e1 e2 e3 e4 h n (rest : list Z) :
  let l := leBytes 4 a ++ leBytes 4 b ++ leBytes 8 e1 ++ leBytes 8 e2 ++ leBytes 8 e3 ++ leBytes 8 e4 ++
           [h] ++ leBytes 2 n ++ rest in
  slice 0 4 l = leBytes 4 a /\ slice 4 4 l = leBytes 4 b /\ slice 8 8 l = leBytes 8 e1 /\ slice 16 8 l = leBytes 8 e2 /\
  slice 24 8 l = leBytes 8 e3 /\ slice 32 8 l = leBytes 8 e4 /\ byteAt l 40 = h /\ slice 41 2 l = leBytes 2 n /\
  drop 43 l = rest /\ (length l = 43 + length rest)%nat.
Proof. repeat split; reflexivity. Qed.

(** The first line a request from [from] gets. *)
Definition firstLine (t : Transcript) (from : Z) : Z := Z.min (Z.max from (Base t)) (Next t).

(** The batch of [k] lines from there, as a reader gets it. *)
Definition batchAt (H : list Line.t) (t : Transcript) (from : Z) (k : nat) : Batch :=
  {| bBase := Base t; bNext := Next t;
     bCounters := {| tEvents := Events t; tUnits := Units t; tLost := Lost t; tErrors := Errors t |};
     bTriggerHint := triggerHint t;
     bIndices := seqZ (firstLine t from) (Z.of_nat k); bLines := slice (Z.to_nat (firstLine t from)) k H |}.

Lemma EncodeLines_batch tight H t from limit :
  holds tight H t -> Forall wfLine H -> wfTotals t -> Z.of_nat (length H) < 2 ^ 31 -> batchHeader <= limit ->
  exists b k, EncodeLines from limit t = (Ret b, set_hint false t) /\ Z.of_nat (length b) <= limit /\
    DecodeLines b = inl (batchAt H t from k) /\
    firstLine t from + Z.of_nat k <= Next t /\
    (firstLine t from < Next t -> batchHeader + MaxLineBytes <= limit -> (0 < k)%nat).
Proof.
  intros Hh HwH (T1 & T2 & T3 & T4) Hsmall Hlim. pose proof (holds_Next tight H t Hh Hsmall) as HN.
  pose proof Hh as (_ & Hd0 & Hlen & _). unfold EncodeLines. rewrite (proj2 (Z.ltb_ge limit batchHeader)) by lia.
  assert (dropped t <= firstLine t from <= Z.of_nat (length H)) as Hf.
  { unfold firstLine, Base, Count_ in *. lia. }
  rewrite (bind_Ret _ _ t t t) by done. cbv zeta. fold (firstLine t from). unfold batchHeader in *.
  destruct (encodeLoop_spec tight H t (Z.to_nat (Next t - firstLine t from)) (firstLine t from) (limit - (4 + 4 + 8 * 4 + 1 + 2)) 0)
    as (k & R & K1 & K2 & K3 & K4); [done|done|lia|lia|lia|lia|]. rewrite R. cbn [TakeTriggerHint].
  rewrite (bind_Ret _ _ t tt (set_hint false t)) by done.
  eexists; exists k. split; [reflexivity|].
  destruct (slices_of_batch (u32 (Base t)) (u32 (Next t)) (Events t) (Units t) (Lost t) (Errors t) (Z.b2z (triggerHint t))
    (u16 (0 + Z.of_nat k)) (encodeAll (firstLine t from) (slice (Z.to_nat (firstLine t from)) k H)))
    as (S1 & S2 & S3 & S4 & S5 & S6 & S7 & S8 & S9 & S10).
  set (b := leBytes 4 _ ++ _) in *. split; [lia|]. split; [|split; [lia|intros; apply K4; lia]].
  unfold DecodeLines. change (Z.to_nat batchHeader) with 43%nat.
  destruct (Nat.ltb_spec (length b) 43); [lia|].
  rewrite S1, S2, S3, S4, S5, S6, S7, S8, S9, !leVal_leBytes by (done || apply fits_u32 || apply fits_u16).
  rewrite u16_fits by (unfold fits; lia). rewrite Z.add_0_l, Nat2Z.id.
  assert (length (slice (Z.to_nat (firstLine t from)) k H) = k) as Hk by (apply length_slice; lia).
  pose proof (decode_encodeAll (slice (Z.to_nat (firstLine t from)) k H) (firstLine t from) 0 []) as Hdec.
  rewrite app_nil_r, Hk in Hdec. rewrite Hdec by (try lia; by apply Forall_take, Forall_drop).
  rewrite !int32_u32 by (unfold Base, Count_ in *; lia). unfold batchAt. do 2 f_equal. by destruct (triggerHint t).
Qed.

(** C23: the wire format's round trip. Any request a transcript answers decodes,
    at the reader, to the transcript's own state: its first and next indices,
    its totals, the trigger hint (taken from the builder), and a run of its
    lines, unit for unit, with the indices they have in the history, from the
    line asked for (or the oldest still held); the batch fits the reader's
    buffer, and holds at least one line when there is one and the buffer has
    room for the longest. *)
Theorem DecodeLines_EncodeLines tight H t from limit :
  holds tight H t -> Forall wfLine H -> wfTotals t -> Z.of_nat (length H) < 2 ^ 31 -> batchHeader <= limit ->
  exists b k, EncodeLines from limit t = (Ret b, set_hint false t) /\ Z.of_nat (length b) <= limit /\
    DecodeLines b = inl (batchAt H t from k) /\
    firstLine t from + Z.of_nat k <= Next t /\
    (firstLine t from < Next t -> batchHeader + MaxLineBytes <= limit -> (0 < k)%nat).
Proof. apply EncodeLines_batch. Qed.

(** ** The reader's copy *)

Definition gapLine (sample : Z) : Line.t := Line.Make sample (replicate 16 0) 0 0 0 (text "GAP").

Lemma fillGap_spec n index sample G r :
  holds false G r -> Z.of_nat (length G) <= index < 2 ^ 31 - 1 -> index - Z.of_nat (length G) <= Z.of_nat n ->
  exists r', fillGap n index sample r = (Ret tt, r') /\
    holds false (G ++ replicate (Z.to_nat (index - Z.of_nat (length G))) (gapLine sample)) r' /\
    dropped r <= dropped r' /\ capacity r' = capacity r.
Proof.
  revert G r. induction n as [|n IH]; intros G r Hh Hi Hn; cbn [fillGap]; rewrite (bind_Ret _ _ r r r) by done;
    rewrite (holds_Next false G r Hh) by lia; destruct (Z.ltb_spec (Z.of_nat (length G)) index) as [Hlt|Hge].
  - lia.
  - exists r. replace (Z.to_nat _) with 0%nat by lia. rewrite app_nil_r. split_and!; (done || lia).
  - destruct (push_spec false G r (gapLine sample) Hh) as (r1 & R1 & H1 & _ & A1 & D1); [lia|].
    destruct (IH (G ++ [gapLine sample]) r1 H1) as (r2 & R2 & H2 & D2 & C2); rewrite ?length_app in *; cbn [length] in *; [lia|lia|].
    exists r2. rewrite (bind_Ret _ _ _ _ _ R1). split; [exact R2|]. rewrite <- app_assoc in H2.
    assert (capacity r1 = capacity r) as Hcap by by injection A1. split_and!; [|lia|congruence].
    replace (Z.to_nat (index - Z.of_nat (length G))) with (S (Z.to_nat (index - Z.of_nat (length G + 1)))) by lia. done.
  - exists r. replace (Z.to_nat _) with 0%nat by lia. rewrite app_nil_r. split_and!; (done || lia).
Qed.

(** A line already held changes nothing; a later one is added at its index. *)
Lemma Append_spec index l G r :
  holds false G r -> Z.of_nat (length G) < 2 ^ 31 -> 0 <= index < 2 ^ 31 - 1 ->
  exists r', Append index l r = (Ret tt, r') /\ dropped r <= dropped r' /\ capacity r' = capacity r /\
    if index <? Z.of_nat (length G) then r' = r
    else exists x, holds false (G ++ replicate (Z.to_nat (index - Z.of_nat (length G))) x ++ [l]) r'.
Proof.
  intros Hh Hs Hi. unfold Append. rewrite (bind_Ret _ _ r r r) by done. rewrite (holds_Next false G r Hh Hs).
  destruct (Z.ltb_spec index (Z.of_nat (length G))) as [Hlt|Hge]; [by exists r|].
  pose proof Hh as ((W1 & W2 & W3 & W4) & Hd & Hl & _ & Hc).
  assert (forall G1 r1 x, holds false G1 r1 -> Z.of_nat (length G1) <= index -> dropped r <= dropped r1 -> capacity r1 = capacity r ->
    index - Z.of_nat (length G1) <= capacity r -> G ++ replicate (Z.to_nat (index - Z.of_nat (length G))) x =
    G1 ++ replicate (Z.to_nat (index - Z.of_nat (length G1))) (gapLine (Line.Sample l)) ->
    exists r', (fillGap (Z.to_nat (capacity r)) index (Line.Sample l);;
      modify (fun t => if haveFirst t then t else set_first (Line.Sample l) t);; push l) r1 = (Ret tt, r') /\
      dropped r <= dropped r' /\ capacity r' = capacity r /\
      exists x, holds false (G ++ replicate (Z.to_nat (index - Z.of_nat (length G))) x ++ [l]) r') as Hrest.
  { intros G1 r1 x Hh1 Hi1 Hd1 Hc1 Hfuel Heq.
    destruct (fillGap_spec (Z.to_nat (capacity r)) index (Line.Sample l) G1 r1 Hh1) as (r2 & R2 & H2 & D2 & C2); [lia|lia|].
    rewrite (bind_Ret _ _ _ _ _ R2).
    set (f := fun t => if haveFirst t then t else set_first (Line.Sample l) t).
    rewrite (bind_Ret (modify f) _ r2 tt (f r2)) by done.
    assert (holds false (G1 ++ replicate (Z.to_nat (index - Z.of_nat (length G1))) (gapLine (Line.Sample l))) (f r2)) as H3.
    { unfold f. by destruct (haveFirst r2). }
    assert (dropped (f r2) = dropped r2 /\ capacity (f r2) = capacity r2) as [D3 C3] by (unfold f; by destruct (haveFirst r2)).
    destruct (push_spec false _ (f r2) l H3) as (r3 & R3 & H4 & _ & A3 & D4).
    { rewrite length_app, length_replicate. lia. }
    exists r3. split; [done|]. assert (capacity r3 = capacity (f r2)) as C4 by by injection A3.
    split_and!; [lia|congruence|]. exists x. by rewrite app_assoc, Heq. }
  destruct ((Count_ r =? 0) || (capacity r <=? index - Z.of_nat (length G))) eqn:Hre.
  - rewrite (bind_Ret (modify _) _ r tt (set_held [] 0 index r)) by done.
    apply (Hrest (G ++ replicate (Z.to_nat (index - Z.of_nat (length G))) (gapLine (Line.Sample l))) _ (gapLine (Line.Sample l)));
      rewrite ?length_app, ?length_replicate; unfold Count_ in *; cbn [dropped set_held capacity]; try lia.
    + unfold holds, wfRing, content, Count_. cbn. rewrite length_app, length_replicate.
      split_and!; try lia. rewrite drop_ge; [done|]. rewrite length_app, length_replicate. lia.
    + replace (Z.to_nat (index - Z.of_nat (length G + _))) with 0%nat by lia. by rewrite app_nil_r.
  - rewrite (bind_Ret (mret tt) _ r tt r) by done. apply orb_false_iff in Hre as [H0 Hfull].
    apply Z.leb_gt in Hfull. apply (Hrest G r (gapLine (Line.Sample l))); (done || lia).
Qed.

(** The reader's lines [G] are the builder's [H] wherever both hold them. *)
Definition mirrors (H G : list Line.t) (t r : Transcript) : Prop :=
  holds false G r /\ (length G <= length H)%nat /\
  forall i, dropped t <= i -> dropped r <= i < Z.of_nat (length G) -> G !! Z.to_nat i = H !! Z.to_nat i.

Lemma appendLines_spec H t G r i k :
  mirrors H G t r -> dropped t <= i -> Z.of_nat (length G) <= i ->
  (i = Z.of_nat (length G) \/ i = dropped t) -> i + Z.of_nat k <= Z.of_nat (length H) < 2 ^ 31 - 1 ->
  exists r' G', each (fun il => Append il.1 il.2) (combine (seqZ i (Z.of_nat k)) (slice (Z.to_nat i) k H)) r = (Ret tt, r') /\
    mirrors H G' t r' /\ Z.of_nat (length G') = (if (0 <? Z.of_nat k) then i + Z.of_nat k else Z.of_nat (length G)).
Proof.
  revert G r i. induction k as [|k IH]; intros G r i Hm Hi HG Hor Hk.
  { exists r, G. done. }
  destruct Hm as (Hh & HGH & Hag). pose proof Hh as (_ & Hd & Hl & _).
  destruct (lookup_lt_is_Some_2 H (Z.to_nat i)) as [l Hli]; [lia|].
  assert (slice (Z.to_nat i) (S k) H = l :: slice (Z.to_nat (i + 1)) k H) as Hs.
  { unfold slice. rewrite (drop_S H l (Z.to_nat i)) by done. cbn [take]. do 2 f_equal. f_equal. lia. }
  rewrite Hs, Nat2Z.inj_succ, (seqZ_cons i), Z.pred_succ by lia. cbn [combine each fst snd].
  destruct (Append_spec i l G r Hh) as (r1 & R1 & D1 & C1 & Hcase); [lia|unfold Count_ in *; lia|].
  rewrite (proj2 (Z.ltb_ge _ _)) in Hcase by lia. destruct Hcase as [x Hh1].
  set (G1 := G ++ replicate _ x ++ [l]) in *.
  assert (Z.of_nat (length G1) = i + 1) as HG1.
  { unfold G1. rewrite !length_app, length_replicate. cbn [length]. lia. }
  assert (mirrors H G1 t r1) as Hm1.
  { split; [done|]. split; [lia|]. intros j Hj1 Hj2. destruct (decide (j < Z.of_nat (length G))) as [Hj|Hj].
    - unfold G1. rewrite lookup_app_l by lia. apply Hag; lia.
    - destruct (decide (j = i)) as [->|Hne].
      + rewrite Hli. unfold G1. rewrite lookup_app_r by lia. rewrite lookup_app_r by (rewrite length_replicate; lia).
        rewrite length_replicate. replace (_ - _)%nat with 0%nat by lia. done.
      + (* the missed lines are no longer the builder's *) exfalso. lia. }
  destruct (IH G1 r1 (i + 1) Hm1) as (r2 & G2 & R2 & M2 & L2); [lia|lia|lia|lia|].
  exists r2, G2. rewrite (bind_Ret _ _ _ _ _ R1). change (Z.succ i) with (i + 1). split; [exact R2|]. split; [done|].
  rewrite L2. rewrite (proj2 (Z.ltb_lt 0 (Z.succ _))) by lia. destruct (Z.ltb_spec 0 (Z.of_nat k)); lia.
Qed.

(** ** Builder and reader together

    The builder's transcript and the reader's, as the worker and the stream
    view hold them; the transport between them carries the bytes. *)

(** A turn of streamview's loop: ask from the next line on, append what comes. *)
Definition fetch (limit : Z) (s : Transcript * Transcript) : outcome unit * (Transcript * Transcript) :=
  match EncodeLines (Next s.2) limit s.1 with
  | (Ret b, t') =>
      match DecodeLines b with
      | inl batch => match appendBatch batch s.2 with (o, r') => (o, (t', r')) end
      | inr e => (Fail e, (t', s.2))
      end
  | (Fail e, t') => (Fail e, (t', s.2))
  | (Panic, t') => (Panic, (t', s.2))
  | (OutOfFuel, t') => (OutOfFuel, (t', s.2))
  end.

(** The builder takes events, the reader fetches; [n] events in all. *)
Inductive lineRun (limit : Z) : Z -> Transcript * Transcript -> Transcript * Transcript -> Prop :=
| run_nil s : lineRun limit 0 s s
| run_add n s t r evs t' :
    lineRun limit n s (t, r) -> Forall wfEvent evs -> Forall (startOk (proto t)) evs ->
    Add evs t = (Ret tt, t') -> lineRun limit (n + Z.of_nat (length evs)) s (t', r)
| run_fetch n s s1 o s' : lineRun limit n s s1 -> fetch limit s1 = (o, s') -> lineRun limit n s s'.

(** What holds between the two. *)
Definition inStep (H G : list Line.t) (s : Transcript * Transcript) : Prop :=
  ok H s.1 /\ wfTotals s.1 /\ mirrors H G s.1 s.2.

Lemma tally_wf e a :
  fits 64 (bEvents a) /\ fits 64 (bUnits a) /\ fits 64 (bLost a) /\ fits 64 (bErrors a) ->
  let b := tally e a in fits 64 (bEvents b) /\ fits 64 (bUnits b) /\ fits 64 (bLost b) /\ fits 64 (bErrors b).
Proof.
  assert (forall x, fits 64 (u64 x)) as Hu by (intros x; unfold fits, u64; apply Z.mod_pos_bound; lia).
  intros (H1 & H2 & H3 & H4). unfold tally. repeat (destruct (_ =? _) || destruct (booksCut _ _)); cbn; auto.
Qed.
Lemma tallies_wf evs a :
  fits 64 (bEvents a) /\ fits 64 (bUnits a) /\ fits 64 (bLost a) /\ fits 64 (bErrors a) ->
  let b := fold_left (fun a e => tally e a) evs a in
  fits 64 (bEvents b) /\ fits 64 (bUnits b) /\ fits 64 (bLost b) /\ fits 64 (bErrors b).
Proof. revert a. induction evs as [|e evs IH]; intros a Ha; [done|]. cbn [fold_left]. by apply IH, tally_wf. Qed.

Lemma tally_cap e a : bCap (tally e a) = bCap a.
Proof.
  unfold tally. destruct (_ =? _); [done|]. destruct (_ =? _); [by destruct (booksCut _ _)|]. by destruct (_ =? _).
Qed.

(** A builder has dropped only what its capacity made it drop. *)
Lemma holds_dropped H t : built H t -> dropped t = Z.max 0 (Z.of_nat (length H) - capacity t).
Proof. intros ((W1 & W2 & W3 & W4) & Hd & Hl & Hf & _). specialize (Hf eq_refl). lia. Qed.

Lemma fetch_step H G s limit :
  inStep H G s -> Z.of_nat (length H) < 2 ^ 31 - 1 -> batchHeader <= limit ->
  exists s' G', fetch limit s = (Ret tt, s') /\ inStep H G' s' /\ (length G <= length G')%nat /\
    ((length G < length H)%nat -> batchHeader + MaxLineBytes <= limit -> (length G < length G')%nat).
Proof.
  destruct s as [t r]. intros (Ho & Ht & Hm) Hsmall Hlim. cbn [fst snd] in *.
  pose proof Ho as (Hb & HwH & _). pose proof Hm as (Hh & HGH & _).
  destruct (EncodeLines_batch true H t (Next r) limit Hb HwH Ht ltac:(lia) Hlim) as (b & k & R & _ & D & K & P).
  pose proof (holds_Next true H t Hb ltac:(lia)) as HN. pose proof (holds_Next false G r Hh ltac:(lia)) as HNr.
  pose proof Hb as (_ & Hd & Hl & _). unfold Count_ in Hl.
  assert (firstLine t (Next r) = Z.max (Z.of_nat (length G)) (dropped t)) as Hf by (unfold firstLine, Base in *; lia).
  destruct (appendLines_spec H t G r (firstLine t (Next r)) k Hm) as (r' & G' & A & M & L); [lia..|].
  unfold fetch. cbn [fst snd]. rewrite R, D. unfold appendBatch. cbn [batchAt bIndices bLines bCounters].
  rewrite (bind_Ret _ _ _ _ _ A). eexists (_, _), G'. split; [reflexivity|].
  split; [by split|]. destruct (Z.ltb_spec 0 (Z.of_nat k)) as [Hk|Hk]; (split; [lia|]); intros HlH Hroom; [lia|].
  pose proof (holds_dropped H t Hb). destruct Hb as ((W1 & _) & _). assert (0 < k)%nat by (apply P; lia). lia.
Qed.

Lemma lineRun_inStep limit n p c c' s :
  batchHeader <= limit -> 2 * n < 2 ^ 31 - 1 -> lineRun limit n (New p c, New p c') s ->
  exists H G, inStep H G s /\ Z.of_nat (length H) <= 2 * n /\ 0 <= n.
Proof.
  intros Hlim Hn Hr. remember (New p c, New p c') as s0 eqn:E0. revert Hn.
  induction Hr as [s|n s t r evs t' Hr IH Hw Hst HA|n s s1 o s' Hr IH HF]; intros Hn.
  - subst s. exists [], []. split; [|cbn; lia]. split; [apply ok_New|]. cbn [fst snd]. split.
    + unfold wfTotals, New, Reset. destruct (layout p) as [[? ?] ?]. cbn. unfold fits. lia.
    + destruct (built_New p c') as (W & D & L & _ & C). split; [by repeat (split; [done|])|].
      split; [done|]. intros i _ Hi. cbn [length] in Hi. lia.
  - destruct (IH E0 ltac:(lia)) as (H & G & (Ho & Ht & Hm) & Hl & H0). cbn [fst snd] in *.
    destruct (Add_does evs H t Ho) as (H' & t1 & R & O & [L0 [Ll ->]] & _ & A); [unfold roomFor_; lia|done|done|].
    assert (t1 = t') as -> by congruence. exists (H ++ Ll), G. split; [|lia]. split; [done|]. cbn [fst snd].
    split; [pose proof (tallies_wf evs (aside t) Ht) as Hw'; cbv zeta in Hw'; by rewrite <- A in Hw'|].
    destruct Hm as (Hh & HGH & Hag).
    assert (dropped t <= dropped t') as Hdd.
    { destruct Ho as [Hb _], O as [Hb' _]. rewrite (holds_dropped _ _ Hb), (holds_dropped _ _ Hb').
      assert (capacity t' = capacity t) as ->; [|rewrite length_app; lia].
      change (bCap (aside t') = bCap (aside t)). rewrite A. clear. generalize (aside t). 
      induction evs as [|e evs IH]; intros a; [done|]. cbn [fold_left]. rewrite IH. apply tally_cap. }
    split; [done|]. rewrite length_app. split; [lia|]. intros i Hi1 Hi2. pose proof Hh as (_ & Hd0 & _).
    rewrite lookup_app_l by lia. apply Hag; lia.
  - destruct (IH E0 Hn) as (H & G & Hi & Hl & H0).
    destruct (fetch_step H G s1 limit Hi ltac:(lia) Hlim) as (s2 & G' & R & I & _).
    exists H, G'. split; [|done]. rewrite HF in R. by injection R as _ ->.
Qed.

(** The reader's turns, one after the other. *)
Fixpoint fetches (n : nat) (limit : Z) (s : Transcript * Transcript) : outcome unit * (Transcript * Transcript) :=
  match n with
  | O => (Ret tt, s)
  | S n => match fetch limit s with (Ret _, s) => fetches n limit s | r => r end
  end.

Lemma fetches_catch_up n H G s limit :
  inStep H G s -> Z.of_nat (length H) < 2 ^ 31 - 1 -> batchHeader + MaxLineBytes <= limit ->
  (length H <= length G + n)%nat ->
  exists s' G', fetches n limit s = (Ret tt, s') /\ inStep H G' s' /\ length G' = length H.
Proof.
  revert G s. induction n as [|n IH]; intros G s Hi Hs Hlim Hn.
  { exists s, G. split; [done|]. split; [done|]. destruct Hi as (_ & _ & _ & HGH & _). lia. }
  destruct (fetch_step H G s limit Hi Hs ltac:(unfold MaxLineBytes in *; lia)) as (s1 & G1 & R & I & L & P).
  cbn [fetches]. rewrite R. apply (IH G1); try done.
  destruct Hi as (_ & _ & _ & HGH & _). destruct (decide (length G < length H)%nat) as [Hlt|]; [specialize (P Hlt Hlim)|]; lia.
Qed.

(** C24: the reader's copy. Whatever the builder has taken and the reader has
    fetched, in any order and with any gaps between the fetches, every line
    both transcripts hold is the same line at the same absolute index: a
    reader never shows a line the builder did not make, twice, or out of
    place; and left alone it catches up: after at most as many fetches as
    lines it is behind, its next line is the builder's. *)
Theorem reader_mirrors limit n p c c' s :
  batchHeader + MaxLineBytes <= limit -> 2 * n < 2 ^ 31 - 1 -> lineRun limit n (New p c, New p c') s ->
  (forall i l, Base s.1 <= i < Next s.1 -> Base s.2 <= i < Next s.2 ->
     At s.2 (i - Base s.2) = Some l -> At s.1 (i - Base s.1) = Some l) /\
  Next s.2 <= Next s.1 /\
  exists s', fetches (Z.to_nat (Next s.1 - Next s.2)) limit s = (Ret tt, s') /\ Next s'.2 = Next s.1.
Proof.
  intros Hlim Hn Hr. destruct (lineRun_inStep limit n p c c' s) as (H & G & Hi & Hl & _);
    [unfold MaxLineBytes in *; lia|done|done|]. pose proof Hi as ((Hb & _) & _ & Hh & HGH & Hag).
  pose proof (holds_Next true H s.1 Hb ltac:(lia)) as N1. pose proof (holds_Next false G s.2 Hh ltac:(lia)) as N2.
  pose proof Hb as (_ & D1 & L1 & _). pose proof Hh as (_ & D2 & L2 & _).
  split; [|split; [lia|]].
  - unfold Base. intros i l Hi1 Hi2. rewrite (holds_At true H s.1), (holds_At false G s.2) by (done || lia).
    intros <-. symmetry. apply Hag; lia.
  - destruct (fetches_catch_up (Z.to_nat (Next s.1 - Next s.2)) H G s limit Hi ltac:(lia) Hlim ltac:(lia)) as (s' & G' & R & (_ & _ & Hh' & _) & Lg).
    exists s'. split; [done|]. rewrite (holds_Next false G' s'.2 Hh') by lia. lia.
Qed.
