(* ===== verification/Moments.v ===== *)
(** * Stacking moments

    src/app/internal/superres/fpga_moments.go: the integer state of one
    channel and bin of the FPGA's stacking tile, its 308-bit layout over twenty
    16-bit words, the encoder and the word-at-a-time decoder, and the exact
    128-bit addition of two states. *)
From S2P Require Import Prelude Machine.

Definition FPGAStackWords : nat := 20.

(** [[2]uint64], little-endian limbs. *)
Abbreviation limbs := (Z * Z)%type.
Record FPGAStackMoments := MkMoments { Sum : limbs; SumSquares : limbs; SumOdd : limbs; Count : Z; CountOdd : Z }.

(** [value[i]] *)
Definition limb (v : limbs) (i : Z) : Z := if i =? 0 then v.1 else v.2.

(** One bit of a field: [words[p/16] |= 1 << (p%16)] where it is set. *)
Definition putBit (offset : Z) (value : limbs) (words : list Z) (bit : Z) : list Z :=
  if has (limb value (bit / 64)) (1 .<< (bit mod 64)) then
    let p := offset + bit in
    alter (fun w => w .| (1 .<< (p mod 16))) (Z.to_nat (p / 16)) words
  else words.
Definition putFPGAField (offset width : Z) (value : limbs) (words : list Z) : list Z :=
  fold_left (putBit offset value) (seqZ 0 width) words.

(** A word's bits at a time. *)
Fixpoint getLoop (n : nat) (words : list Z) (offset width bit : Z) (value : limbs) : limbs :=
  match n with
  | O => value
  | S n =>
      if bit <? width then
        let p := offset + bit in
        let k := Z.min (16 - p mod 16) (width - bit) in
        let w := (default 0 (words !! Z.to_nat (p / 16)) .>> (p mod 16)) .& (2 ^ k - 1) in
        let value :=
          if bit <? 64 then
            (value.1 .| u64 (w .<< bit), if 64 <? bit + k then value.2 .| (w .>> (64 - bit)) else value.2)
          else (value.1, value.2 .| u64 (w .<< (bit - 64))) in
        getLoop n words offset width (bit + k) value
      else value
  end.
(** Each turn takes at least one bit. *)
Definition getFPGAField (words : list Z) (offset width : Z) : limbs :=
  getLoop (Z.to_nat width) words offset width 0 (0, 0).

Definition EncodeFPGAMoments (m : FPGAStackMoments) : list Z + err :=
  if negb ((Sum m).2 .>> 5 =? 0) || negb ((SumOdd m).2 .>> 5 =? 0) || negb ((SumSquares m).2 .>> 42 =? 0) then
    inr (EMsg "FPGA stack moment exceeds wire width" [])
  else
    inl (putFPGAField 276 32 (CountOdd m, 0) (
         putFPGAField 207 69 (SumOdd m) (
         putFPGAField 175 32 (Count m, 0) (
         putFPGAField 69 106 (SumSquares m) (
         putFPGAField 0 69 (Sum m) (replicate FPGAStackWords 0)))))).

Definition DecodeFPGAMoments (words : list Z) : FPGAStackMoments + err :=
  if negb (length words =? FPGAStackWords)%nat then
    inr (EMsg "FPGA stack state has %d words, want %d" [Z.of_nat (length words); Z.of_nat FPGAStackWords])
  else if negb (default 0 (words !! 19%nat) .& 0xfff0 =? 0) then
    inr (EMsg "FPGA stack state has nonzero reserved padding" [])
  else
    inl {| Sum := getFPGAField words 0 69; SumSquares := getFPGAField words 69 106;
           SumOdd := getFPGAField words 207 69; Count := u32 (getFPGAField words 175 32).1;
           CountOdd := u32 (getFPGAField words 276 32).1 |}.

(** AddFPGAMoments *)
Definition addLimbs (x y : limbs) : limbs :=
  let lo := u64 (x.1 + y.1) in
  let carry := if lo <? x.1 then 1 else 0 in
  (lo, u64 (x.2 + y.2 + carry)).
Definition AddFPGAMoments (a b : FPGAStackMoments) : FPGAStackMoments :=
  {| Sum := addLimbs (Sum a) (Sum b); SumSquares := addLimbs (SumSquares a) (SumSquares b);
     SumOdd := addLimbs (SumOdd a) (SumOdd b); Count := u32 (Count a + Count b);
     CountOdd := u32 (CountOdd a + CountOdd b) |}.

(** ** The bits of words and limbs *)

Definition wfLimbs (v : limbs) : Prop := fits 64 v.1 /\ fits 64 v.2.
Definition wfMoments (m : FPGAStackMoments) : Prop :=
  wfLimbs (Sum m) /\ wfLimbs (SumSquares m) /\ wfLimbs (SumOdd m) /\ fits 32 (Count m) /\ fits 32 (CountOdd m).

Definition limbBit (v : limbs) (i : Z) : bool := Z.testbit (limb v (i / 64)) (i mod 64).
Definition wordBit (words : list Z) (p : Z) : bool := Z.testbit (default 0 (words !! Z.to_nat (p / 16))) (p mod 16).

Lemma has_pow x i : 0 <= i -> has x (1 .<< i) = Z.testbit x i.
Proof.
  intros Hi. unfold has. rewrite Z.shiftl_1_l. destruct (Z.testbit x i) eqn:Hb.
  - destruct (Z.eqb_spec (x .& 2 ^ i) 0) as [H|]; [|done]. exfalso.
    apply (f_equal (fun v => Z.testbit v i)) in H. rewrite Z.land_spec, Z.pow2_bits_true, Hb, Z.testbit_0_l in H by lia. done.
  - replace (x .& 2 ^ i) with 0; [done|]. symmetry. apply Z.bits_inj'. intros j Hj.
    rewrite Z.land_spec, Z.testbit_0_l. destruct (Z.eq_dec j i) as [->|]; [by rewrite Hb|].
    by rewrite Z.pow2_bits_false, andb_false_r by lia.
Qed.

(** Limbs are equal when their 128 bits are. *)
Lemma limbs_ext v w : wfLimbs v -> wfLimbs w -> (forall i, 0 <= i < 128 -> limbBit v i = limbBit w i) -> v = w.
Proof.
  intros [V1 V2] [W1 W2] H. destruct v as [v1 v2], w as [w1 w2]. simpl in *. f_equal.
  - apply Z.bits_inj'. intros i Hi. destruct (Z.lt_ge_cases i 64) as [Hl|Hl].
    + specialize (H i). unfold limbBit in H. rewrite Z.div_small, Z.mod_small in H by lia. apply H. lia.
    + by rewrite (fits_testbit 64 v1), (fits_testbit 64 w1).
  - apply Z.bits_inj'. intros i Hi. destruct (Z.lt_ge_cases i 64) as [Hl|Hl].
    + specialize (H (i + 1 * 64)). unfold limbBit in H. rewrite Z.div_add, Z.mod_add, Z.div_small, Z.mod_small in H by lia.
      apply H. lia.
    + by rewrite (fits_testbit 64 v2), (fits_testbit 64 w2).
Qed.

(** Twenty 16-bit words are equal when their 320 bits are. *)
Lemma words_ext l k :
  length l = length k -> Forall (fits 16) l -> Forall (fits 16) k ->
  (forall p, 0 <= p < 16 * Z.of_nat (length l) -> wordBit l p = wordBit k p) -> l = k.
Proof.
  intros Hlen Hl Hk H. apply list_eq. intros i. destruct (decide (i < length l)%nat) as [Hi|Hi].
  - destruct (lookup_lt_is_Some_2 l i) as [x Hx]; [lia|]. destruct (lookup_lt_is_Some_2 k i) as [y Hy]; [lia|].
    rewrite Hx, Hy. f_equal. rewrite Forall_lookup in Hl, Hk. apply Hl in Hx as Fx. apply Hk in Hy as Fy.
    apply Z.bits_inj'. intros j Hj. destruct (Z.lt_ge_cases j 16) as [H16|H16].
    + specialize (H (j + Z.of_nat i * 16)). unfold wordBit in H.
      rewrite Z.div_add, Z.mod_add, Z.div_small, Z.mod_small, Z.add_0_l, Nat2Z.id, Hx, Hy in H by lia. apply H. lia.
    + by rewrite (fits_testbit 16 x), (fits_testbit 16 y).
  - by rewrite !lookup_ge_None_2 by lia.
Qed.

(** ** Writing a field *)

Lemma putBit_sane offset v words b : Forall (fits 16) words -> Forall (fits 16) (putBit offset v words b).
Proof.
  intros H. unfold putBit. destruct (has _ _); [|done]. cbv zeta. apply Forall_alter; [done|].
  intros x _ Fx. apply fits_lor; [lia|done|]. apply fits_shl1. apply Z.mod_pos_bound. lia.
Qed.
Lemma length_putBit offset v words b : length (putBit offset v words b) = length words.
Proof. unfold putBit. destruct (has _ _); [|done]. apply length_alter. Qed.

Lemma putBit_bit offset v words b p :
  0 <= offset -> 0 <= b -> 0 <= p -> offset + b < 16 * Z.of_nat (length words) ->
  wordBit (putBit offset v words b) p = wordBit words p || ((p =? offset + b) && limbBit v b).
Proof.
  intros Ho Hb Hp Hlen. unfold putBit. rewrite has_pow by (apply Z.mod_pos_bound; lia). fold (limbBit v b).
  destruct (limbBit v b); [|by rewrite andb_false_r, orb_false_r]. rewrite andb_true_r. unfold wordBit.
  pose proof (Z.div_mod p 16). pose proof (Z.mod_pos_bound p 16). pose proof (Z.div_mod (offset + b) 16).
  pose proof (Z.mod_pos_bound (offset + b) 16). assert (0 <= p / 16) by (apply Z.div_pos; lia).
  assert (0 <= (offset + b) / 16) by (apply Z.div_pos; lia).
  destruct (Z.eq_dec (p / 16) ((offset + b) / 16)) as [E|E].
  - rewrite E, list_lookup_alter. destruct (lookup_lt_is_Some_2 words (Z.to_nat ((offset + b) / 16))) as [x ->]; [lia|].
    rewrite decide_True by done. simpl. rewrite Z.lor_spec, Z.shiftl_1_l, Z.pow2_bits_eqb by lia. f_equal.
    destruct (Z.eqb_spec ((offset + b) mod 16) (p mod 16)), (Z.eqb_spec p (offset + b)); lia.
  - rewrite list_lookup_alter_ne by lia. destruct (Z.eqb_spec p (offset + b)); [by subst p|]. by rewrite orb_false_r.
Qed.

Lemma put_field offset v words n :
  0 <= offset -> offset + Z.of_nat n <= 16 * Z.of_nat (length words) -> Forall (fits 16) words ->
  let words' := putFPGAField offset (Z.of_nat n) v words in
  length words' = length words /\ Forall (fits 16) words' /\
  forall p, 0 <= p ->
    wordBit words' p = wordBit words p || ((offset <=? p) && (p <? offset + Z.of_nat n) && limbBit v (p - offset)).
Proof.
  intros Ho Hlen Hw. cbv zeta. induction n as [|n IH].
  - split_and!; [done|done|]. intros p Hp. change (putFPGAField offset (Z.of_nat 0) v words) with words.
    destruct (Z.leb_spec offset p), (Z.ltb_spec p (offset + Z.of_nat 0)); try lia; by rewrite orb_false_r.
  - destruct IH as (IHl & IHw & IHp); [lia|]. unfold putFPGAField in *.
    rewrite Nat2Z.inj_succ, <- Z.add_1_r, seqZ_app by lia. rewrite fold_left_app. set (w := fold_left _ _ words) in *.
    change (seqZ (0 + Z.of_nat n) 1) with [0 + (0 + Z.of_nat n)]. cbn [fold_left]. rewrite !Z.add_0_l.
    split_and!; [by rewrite length_putBit|by apply putBit_sane|]. intros p Hp.
    rewrite putBit_bit, IHp by (rewrite ?IHl; lia). rewrite <- orb_assoc. f_equal.
    destruct (Z.leb_spec offset p), (Z.ltb_spec p (offset + Z.of_nat n)), (Z.ltb_spec p (offset + (Z.of_nat n + 1))),
      (Z.eqb_spec p (offset + Z.of_nat n)); try lia; simpl; rewrite ?orb_false_r; try done.
    subst p. f_equal. lia.
Qed.

(** ** Reading a field *)

Lemma testbit_u64 x j : 0 <= j -> Z.testbit (u64 x) j = (j <? 64) && Z.testbit x j.
Proof.
  intros Hj. unfold u64. destruct (Z.ltb_spec j 64); [by apply Z.mod_pow2_bits_low|by apply Z.mod_pow2_bits_high; lia].
Qed.

(** The bits one turn takes from its word. *)
Lemma turn_bits words offset width b i :
  0 <= offset -> 0 <= b < width -> b <= i ->
  let p := offset + b in
  let k := Z.min (16 - p mod 16) (width - b) in
  Z.testbit ((default 0 (words !! Z.to_nat (p / 16)) .>> (p mod 16)) .& (2 ^ k - 1)) (i - b) =
  (i <? b + k) && wordBit words (offset + i).
Proof.
  intros Ho Hb Hi p k. pose proof (Z.div_mod p 16). pose proof (Z.mod_pos_bound p 16).
  replace (2 ^ k - 1) with (Z.ones k) by (rewrite Z.ones_equiv; lia).
  fold (bits (default 0 (words !! Z.to_nat (p / 16))) (p mod 16) k). rewrite testbit_bits by lia.
  rewrite andb_comm. destruct (Z.ltb_spec (i - b) k), (Z.ltb_spec i (b + k)); try lia. simpl. unfold wordBit.
  assert (offset + i = p / 16 * 16 + (p mod 16 + (i - b))) as -> by lia.
  rewrite Z.div_add_l, (Z.div_small (p mod 16 + (i - b))), Z.add_0_r by lia.
  rewrite (Z.add_comm (p / 16 * 16)), Z.mod_add, (Z.mod_small (p mod 16 + (i - b))) by lia. f_equal. lia.
Qed.

(** What the turns so far have read. *)
Definition readTo (words : list Z) (offset b : Z) (v : limbs) : Prop :=
  wfLimbs v /\ forall i, 0 <= i < 128 -> limbBit v i = (i <? b) && wordBit words (offset + i).

Lemma limbBit_low v i : 0 <= i < 64 -> limbBit v i = Z.testbit v.1 i.
Proof. intros. unfold limbBit. by rewrite Z.div_small, Z.mod_small by lia. Qed.
Lemma limbBit_high v i : 64 <= i < 128 -> limbBit v i = Z.testbit v.2 (i - 64).
Proof.
  intros. unfold limbBit. replace i with (i - 64 + 1 * 64) at 1 2 by lia.
  by rewrite Z.div_add, Z.mod_add, Z.div_small, Z.mod_small by lia.
Qed.

Lemma bit_step (i b k : Z) (old new w : bool) :
  0 < k -> old = (i <? b) && w -> (b <= i -> new = (i <? b + k) && w) -> (i < b -> new = false) ->
  old || new = (i <? b + k) && w.
Proof.
  intros Hk -> H1 H2. destruct (Z.ltb_spec i b), (Z.ltb_spec i (b + k)); try lia; simpl.
  - rewrite H2 by done. by rewrite orb_false_r.
  - by rewrite H1.
  - by rewrite H1.
Qed.

Lemma read_turn words offset width b v :
  0 <= offset -> 0 <= b < width -> width <= 128 -> readTo words offset b v ->
  let p := offset + b in
  let k := Z.min (16 - p mod 16) (width - b) in
  let w := (default 0 (words !! Z.to_nat (p / 16)) .>> (p mod 16)) .& (2 ^ k - 1) in
  readTo words offset (b + k)
    (if b <? 64 then (v.1 .| u64 (w .<< b), if 64 <? b + k then v.2 .| (w .>> (64 - b)) else v.2)
     else (v.1, v.2 .| u64 (w .<< (b - 64)))).
Proof.
  intros Ho Hb Hw [[F1 F2] Hr] p k w. pose proof (Z.mod_pos_bound p 16) as Hm.
  assert (0 < k <= 16) as Hk by lia.
  assert (forall i, b <= i -> Z.testbit w (i - b) = (i <? b + k) && wordBit words (offset + i)) as Ht.
  { intros i Hi. by apply turn_bits. }
  assert (fits 16 w) as Fw.
  { unfold w. replace (2 ^ k - 1) with (Z.ones k) by (rewrite Z.ones_equiv; lia).
    fold (bits (default 0 (words !! Z.to_nat (p / 16))) (p mod 16) k). apply (fits_le k); [lia|]. apply fits_bits; lia. }
  assert (forall x, fits 64 (u64 x)) as F64 by (intros x; apply Z.mod_pos_bound; lia). split.
  - destruct (Z.ltb_spec b 64) as [H64|H64]; split; simpl.
    + by apply fits_lor.
    + destruct (64 <? b + k); [|done]. apply fits_lor; [lia|done|]. apply (fits_le 16); [lia|].
      unfold fits in *. rewrite Z.shiftr_div_pow2 by lia. split; [apply Z.div_pos; lia|].
      apply Z.div_lt_upper_bound; [lia|]. pose proof (Z.pow_pos_nonneg 2 (64 - b)). nia.
    + done.
    + by apply fits_lor.
  - intros i Hi. specialize (Hr i Hi). destruct (Z.ltb_spec b 64) as [H64|H64].
    + destruct (Z.lt_ge_cases i 64) as [Hl|Hl].
      * rewrite limbBit_low in * by lia. simpl. rewrite Z.lor_spec, testbit_u64, Z.shiftl_spec by lia.
        destruct (Z.ltb_spec i 64); [|lia]. simpl. apply bit_step; [lia|done|intros; by apply Ht|].
        intros. apply Z.testbit_neg_r. lia.
      * rewrite limbBit_high in * by lia. simpl. destruct (Z.ltb_spec 64 (b + k)) as [Hs|Hs].
        -- rewrite Z.lor_spec, Z.shiftr_spec by lia. replace (i - 64 + (64 - b)) with (i - b) by lia.
           apply bit_step; [lia|done|intros; by apply Ht|lia].
        -- rewrite Hr. destruct (Z.ltb_spec i b), (Z.ltb_spec i (b + k)); lia || done.
    + destruct (Z.lt_ge_cases i 64) as [Hl|Hl].
      * rewrite limbBit_low in * by lia. simpl. rewrite Hr.
        destruct (Z.ltb_spec i b), (Z.ltb_spec i (b + k)); lia || done.
      * rewrite limbBit_high in * by lia. simpl. rewrite Z.lor_spec, testbit_u64, Z.shiftl_spec by lia.
        destruct (Z.ltb_spec (i - 64) 64); [|lia]. simpl. replace (i - 64 - (b - 64)) with (i - b) by lia.
        apply bit_step; [lia|done|intros; by apply Ht|]. intros. apply Z.testbit_neg_r. lia.
Qed.

Lemma getLoop_reads n words offset width b v :
  0 <= offset -> 0 <= b <= width -> width <= 128 -> width - b <= Z.of_nat n ->
  readTo words offset b v -> readTo words offset width (getLoop n words offset width b v).
Proof.
  intros Ho Hb Hw Hn. revert b v Hb Hn. induction n as [|n IH]; intros b v Hb Hn Hr; cbn [getLoop].
  - by replace width with b by lia.
  - destruct (Z.ltb_spec b width) as [Hlt|]; [|by replace width with b by lia].
    pose proof (Z.mod_pos_bound (offset + b) 16). cbv zeta. apply IH; [lia|lia|].
    apply (read_turn words offset width b v); [done|lia|done|done].
Qed.

(** The field's bits, and nothing else. *)
Lemma get_field words offset width :
  0 <= offset -> 0 <= width <= 128 -> readTo words offset width (getFPGAField words offset width).
Proof.
  intros Ho Hw. apply getLoop_reads; [lia..|]. split; [done|]. intros i Hi.
  destruct (Z.ltb_spec i 0); [lia|]. unfold limbBit, limb. destruct (i / 64 =? 0); apply Z.testbit_0_l.
Qed.

(** ** The codec *)

Lemma fits_high v k : fits 64 v -> 0 <= k <= 64 -> (v .>> k =? 0) = true -> fits k v.
Proof.
  intros Hv Hk H%Z.eqb_eq. rewrite Z.shiftr_div_pow2 in H by lia. pose proof (Z.pow_pos_nonneg 2 k).
  unfold fits in *. split; [lia|]. apply Z.div_small_iff in H; lia.
Qed.

(** A value of [64 + k] bits has no bit above them. *)
Lemma limbBit_above v k i : wfLimbs v -> fits k v.2 -> 0 <= k -> 64 + k <= i < 128 -> limbBit v i = false.
Proof. intros Hv Hk H0 Hi. rewrite limbBit_high by lia. apply (fits_testbit k); [done|lia]. Qed.
Lemma limbBit_above32 n i : fits 32 n -> 32 <= i < 128 -> limbBit (n, 0) i = false.
Proof.
  intros Hn Hi. destruct (Z.lt_ge_cases i 64).
  - rewrite limbBit_low by lia. apply (fits_testbit 32); [done|lia].
  - rewrite limbBit_high by lia. apply Z.testbit_0_l.
Qed.

(** The record's fields: first bit, width, value. *)
Definition fields (m : FPGAStackMoments) : list (Z * Z * limbs) :=
  [(0, 69, Sum m); (69, 106, SumSquares m); (175, 32, (Count m, 0)); (207, 69, SumOdd m); (276, 32, (CountOdd m, 0))].
Definition fieldBit (p : Z) (f : Z * Z * limbs) : bool :=
  (f.1.1 <=? p) && (p <? f.1.1 + f.1.2) && limbBit f.2 (p - f.1.1).
Definition momentBit (m : FPGAStackMoments) (p : Z) : bool := existsb (fieldBit p) (fields m).

Lemma put_fields fs words :
  Forall (fits 16) words ->
  Forall (fun f => 0 <= f.1.1 /\ 0 <= f.1.2 /\ f.1.1 + f.1.2 <= 16 * Z.of_nat (length words)) fs ->
  let words' := fold_left (fun w f => putFPGAField f.1.1 f.1.2 f.2 w) fs words in
  length words' = length words /\ Forall (fits 16) words' /\
  forall p, 0 <= p -> wordBit words' p = wordBit words p || existsb (fieldBit p) fs.
Proof.
  cbv zeta. revert words. induction fs as [|[[o w] v] fs IH]; intros words Hw Hf.
  { split_and!; [done|done|]. intros p _. simpl. by rewrite orb_false_r. }
  apply Forall_cons in Hf as [(H0 & H1 & H2) Hf]. simpl in H0, H1, H2. cbn [fold_left fst snd].
  destruct (put_field o v words (Z.to_nat w)) as (L & F & B); [lia|lia|done|]. rewrite Z2Nat.id in * by lia.
  destruct (IH (putFPGAField o w v words)) as (L' & F' & B'); [done|by rewrite L|].
  split_and!; [by rewrite L', L|done|]. intros p Hp. rewrite B', B by done. cbn [existsb]. by rewrite orb_assoc.
Qed.

Lemma wordBit_zero n p : wordBit (replicate n 0) p = false.
Proof.
  unfold wordBit. destruct (replicate n 0 !! _) as [x|] eqn:H; [|apply Z.testbit_0_l].
  apply lookup_replicate in H as [-> _]. apply Z.testbit_0_l.
Qed.

Lemma fold_five {A B} (f : A -> B -> A) x1 x2 x3 x4 x5 a :
  fold_left f [x1; x2; x3; x4; x5] a = f (f (f (f (f a x1) x2) x3) x4) x5.
Proof. reflexivity. Qed.

Lemma encode_fields m words :
  EncodeFPGAMoments m = inl words ->
  ((Sum m).2 .>> 5 =? 0) = true /\ ((SumOdd m).2 .>> 5 =? 0) = true /\ ((SumSquares m).2 .>> 42 =? 0) = true /\
  length words = FPGAStackWords /\ Forall (fits 16) words /\ forall p, 0 <= p -> wordBit words p = momentBit m p.
Proof.
  intros H. unfold EncodeFPGAMoments in H. destruct (_ || _) eqn:Hg in H; [discriminate H|]. apply (inj inl) in H. subst words.
  rewrite !orb_false_iff, !negb_false_iff in Hg. destruct Hg as [[G1 G2] G3].
  destruct (put_fields (fields m) (replicate FPGAStackWords 0)) as (L & F & B).
  { apply Forall_replicate. unfold fits. lia. }
  { unfold fields, FPGAStackWords. repeat constructor; simpl; lia. }
  unfold fields in L, F, B. rewrite fold_five in L, F. setoid_rewrite fold_five in B. cbn [fst snd] in L, F, B.
  rewrite length_replicate in L.
  split_and!; [exact G1|exact G2|exact G3|exact L|exact F|]. intros p Hp. rewrite (B p Hp), wordBit_zero.
  unfold momentBit, fields. reflexivity.
Qed.

(** The value of one field in a record's bits. *)
Lemma field_read m words o w v :
  (forall p, 0 <= p -> wordBit words p = momentBit m p) -> In (o, w, v) (fields m) ->
  wfLimbs v -> (forall i, w <= i < 128 -> limbBit v i = false) -> getFPGAField words o w = v.
Proof.
  intros Hb Hin Hv Hz. assert (0 <= o /\ 0 <= w <= 128) as [Ho Hw].
  { simpl in Hin. destruct_or! Hin; try injection Hin as <- <- <-; try done; lia. }
  destruct (get_field words o w) as [Hg Hr]; [lia|lia|]. apply limbs_ext; [done..|]. intros i Hi. rewrite Hr by done.
  destruct (Z.ltb_spec i w) as [Hl|Hl]; [|simpl; symmetry; apply Hz; lia]. rewrite Hb by lia. simpl.
  unfold momentBit, fields. cbn [existsb]. unfold fieldBit. cbn [fst snd].
  simpl in Hin. destruct_or! Hin; try done; injection Hin as <- <- <-.
  all: repeat match goal with
    | |- context [?a <=? ?b] => destruct (Z.leb_spec a b); try lia
    | |- context [?a <? ?b] => destruct (Z.ltb_spec a b); try lia
    end; simpl; rewrite ?orb_false_r; f_equal; lia.
Qed.

(** The reserved padding: the last word's upper twelve bits. *)
Lemma padding_bits x : fits 16 x -> x .& 0xfff0 = 0 <-> forall j, 4 <= j < 16 -> Z.testbit x j = false.
Proof.
  intros Hx. change 0xfff0 with (Z.ones 12 .<< 4). split.
  - intros H j Hj. apply (f_equal (fun v => Z.testbit v j)) in H.
    rewrite Z.land_spec, Z.shiftl_spec, Z.testbit_0_l, Z.testbit_ones_nonneg in H by lia.
    destruct (Z.ltb_spec (j - 4) 12); [|lia]. by rewrite andb_true_r in H.
  - intros H. apply Z.bits_inj'. intros j Hj. rewrite Z.land_spec, Z.shiftl_spec, Z.testbit_0_l by lia.
    destruct (Z.lt_ge_cases j 4); [by rewrite (Z.testbit_neg_r _ (j - 4)), andb_false_r by lia|].
    destruct (Z.lt_ge_cases j 16); [by rewrite H by lia|]. by rewrite (fits_testbit 16) by (done || lia).
Qed.
Lemma wordBit_last words j : 0 <= j < 16 -> wordBit words (304 + j) = Z.testbit (default 0 (words !! 19%nat)) j.
Proof.
  intros Hj. unfold wordBit. replace (304 + j) with (j + 19 * 16) by lia.
  by rewrite Z.div_add, Z.mod_add, Z.div_small, Z.mod_small by lia.
Qed.

Lemma momentBit_above m p : 308 <= p -> momentBit m p = false.
Proof.
  intros Hp. unfold momentBit, fields. cbn [existsb]. unfold fieldBit. cbn [fst snd].
  repeat match goal with |- context [?a <? ?b] => destruct (Z.ltb_spec a b); try lia end.
Qed.

Lemma decode_encode m words :
  wfMoments m -> EncodeFPGAMoments m = inl words -> DecodeFPGAMoments words = inl m.
Proof.
  intros (Hs & Hq & Ho & Hc & Hd) H. apply encode_fields in H as (G1 & G2 & G3 & L & F & B).
  unfold DecodeFPGAMoments. rewrite L, Nat.eqb_refl. simpl negb. cbn iota.
  assert (default 0 (words !! 19%nat) .& 0xfff0 = 0) as ->.
  { apply padding_bits.
    - destruct (lookup_lt_is_Some_2 words 19) as [x Hx]; [rewrite L; unfold FPGAStackWords; lia|].
      rewrite Hx. by eapply Forall_lookup_1 in F.
    - intros j Hj. rewrite <- wordBit_last, B by lia. apply momentBit_above. lia. }
  simpl negb. cbn iota.
  assert (forall n, fits 32 n -> wfLimbs (n, 0)) as Hn by (intros n Hf; split; [by apply (fits_le 32)|done]).
  assert (forall v k o w, wfLimbs v -> (v.2 .>> k =? 0) = true -> 0 <= k <= 64 -> w = 64 + k ->
    In (o, w, v) (fields m) -> getFPGAField words o w = v) as Hf.
  { intros v k o w Hv Hk Hr -> Hin. apply (field_read m); [done..|]. intros i Hi.
    apply (limbBit_above _ k); [done|by apply fits_high; [apply Hv|..]|lia..]. }
  assert (forall n o, fits 32 n -> In (o, 32, (n, 0)) (fields m) -> getFPGAField words o 32 = (n, 0)) as Hg.
  { intros n o Hw Hin. apply (field_read m); [done|done|by apply Hn|]. intros i Hi. by apply limbBit_above32. }
  rewrite (Hf (Sum m) 5 0 69), (Hf (SumSquares m) 42 69 106), (Hf (SumOdd m) 5 207 69), (Hg (Count m) 175), (Hg (CountOdd m) 276);
    try done; try (simpl; tauto). rewrite !u32_fits by done. by destruct m.
Qed.

(** A field read from words has no bit above its width. *)
Lemma get_field_high words o k w :
  0 <= o -> 0 <= k <= 64 -> w = 64 + k -> ((getFPGAField words o w).2 .>> k =? 0) = true.
Proof.
  intros Ho Hk ->. destruct (get_field words o (64 + k)) as [[_ F] Hr]; [lia|lia|]. apply Z.eqb_eq, Z.bits_inj'.
  intros j Hj. rewrite Z.shiftr_spec, Z.testbit_0_l by lia. destruct (Z.lt_ge_cases (j + k) 64) as [Hl|Hl].
  - specialize (Hr (j + k + 64)). rewrite limbBit_high in Hr by lia. replace (j + k + 64 - 64) with (j + k) in Hr by lia.
    rewrite Hr by lia. destruct (Z.ltb_spec (j + k + 64) (64 + k)); [lia|done].
  - apply (fits_testbit 64); [done|lia].
Qed.
Lemma get_field_32 words o : 0 <= o -> exists n, getFPGAField words o 32 = (n, 0) /\ fits 32 n.
Proof.
  intros Ho. destruct (get_field words o 32) as [[F1 F2] Hr]; [lia|lia|].
  destruct (getFPGAField words o 32) as [n h]. simpl in F1, F2. exists n. split.
  - f_equal. apply Z.bits_inj'. intros j Hj. rewrite Z.testbit_0_l. destruct (Z.lt_ge_cases j 64).
    + specialize (Hr (j + 64)). rewrite limbBit_high in Hr by lia. simpl in Hr. replace (j + 64 - 64) with j in Hr by lia.
      rewrite Hr by lia. destruct (Z.ltb_spec (j + 64) 32); [lia|done].
    + by apply (fits_testbit 64).
  - apply fits_high; [done|lia|]. apply Z.eqb_eq, Z.bits_inj'. intros j Hj. rewrite Z.shiftr_spec, Z.testbit_0_l by lia.
    destruct (Z.lt_ge_cases (j + 32) 64).
    + specialize (Hr (j + 32)). rewrite limbBit_low in Hr by lia. simpl in Hr. rewrite Hr by lia.
      destruct (Z.ltb_spec (j + 32) 32); [lia|done].
    + apply (fits_testbit 64); [done|lia].
Qed.

Lemma encode_decode words m :
  Forall (fits 16) words -> DecodeFPGAMoments words = inl m -> wfMoments m /\ EncodeFPGAMoments m = inl words.
Proof.
  intros Hw H. unfold DecodeFPGAMoments in H. destruct (Nat.eqb_spec (length words) FPGAStackWords) as [L|]; [|discriminate H].
  simpl negb in H. cbn iota in H. destruct (Z.eqb_spec (default 0 (words !! 19%nat) .& 0xfff0) 0) as [Hpad|]; [|discriminate H].
  simpl negb in H. cbn iota in H. apply (inj inl) in H. subst m.
  destruct (get_field_32 words 175) as (c & Hc & Fc); [lia|]. destruct (get_field_32 words 276) as (d & Hd & Fd); [lia|].
  rewrite Hc, Hd. simpl fst. rewrite !u32_fits by done.
  assert (wfMoments {| Sum := getFPGAField words 0 69; SumSquares := getFPGAField words 69 106;
    SumOdd := getFPGAField words 207 69; Count := c; CountOdd := d |}) as Hwf.
  { unfold wfMoments. cbn [Sum SumSquares SumOdd Count CountOdd]. do 3 (split; [apply get_field; lia|]); by split. }
  split; [done|]. set (m := MkMoments _ _ _ _ _) in *.
  assert (exists w, EncodeFPGAMoments m = inl w) as [w He].
  { unfold EncodeFPGAMoments, m. cbn [Sum SumOdd SumSquares].
    rewrite (get_field_high words 0 5), (get_field_high words 207 5), (get_field_high words 69 42) by lia. by eexists. }
  rewrite He. f_equal. apply encode_fields in He as (_ & _ & _ & Lw & Fw & Bw). apply words_ext; [congruence|done..|].
  rewrite Lw. intros p Hp. change (16 * Z.of_nat FPGAStackWords) with 320 in Hp. rewrite Bw by lia.
  assert (forall o n, 0 <= o -> 0 <= n <= 128 -> fieldBit p (o, n, getFPGAField words o n) =
    (o <=? p) && (p <? o + n) && wordBit words p) as Hf.
  { intros o n Ho Hn. unfold fieldBit. simpl. destruct (get_field words o n) as [_ Hr]; [done..|].
    destruct (Z.leb_spec o p), (Z.ltb_spec p (o + n)); try done. simpl. rewrite Hr by lia.
    destruct (Z.ltb_spec (p - o) n); [|lia]. simpl. f_equal. lia. }
  unfold momentBit, fields. cbn [existsb Sum SumSquares SumOdd Count CountOdd m]. rewrite <- Hc, <- Hd, !Hf by lia.
  destruct (Z.lt_ge_cases p 308) as [Hl|Hl].
  - repeat match goal with
      | |- context [?a <=? ?b] => destruct (Z.leb_spec a b); try lia
      | |- context [?a <? ?b] => destruct (Z.ltb_spec a b); try lia
      end; simpl; by rewrite ?orb_false_r.
  - transitivity false.
    { repeat match goal with |- context [?a <? ?b] => destruct (Z.ltb_spec a b); try lia end. }
    destruct (lookup_lt_is_Some_2 words 19) as [x Hx]; [rewrite L; unfold FPGAStackWords; lia|].
    rewrite Hx in Hpad. apply padding_bits with (j := p - 304) in Hpad; [|by eapply Forall_lookup_1 in Hw|lia].
    replace p with (304 + (p - 304)) by lia. rewrite wordBit_last by lia. by rewrite Hx.
Qed.

(** what the stack encoder writes the decoder reads back: every state
    whose sums are within the wire widths survives the 308-bit layout. *)
Theorem moments_decode_encode m words :
  wfMoments m -> EncodeFPGAMoments m = inl words -> DecodeFPGAMoments words = inl m.
Proof. apply decode_encode. Qed.

(** the stack decoder loses nothing: twenty words it accepts encode back
    to themselves, and the state it reads is within the wire widths. *)
Theorem moments_encode_decode words m :
  Forall (fits 16) words -> DecodeFPGAMoments words = inl m -> wfMoments m /\ EncodeFPGAMoments m = inl words.
Proof. apply encode_decode. Qed.

(** ** Addition *)

Definition limbsVal (v : limbs) : Z := v.1 + v.2 * 2 ^ 64.

Lemma addLimbs_val x y :
  wfLimbs x -> wfLimbs y -> wfLimbs (addLimbs x y) /\ limbsVal (addLimbs x y) = (limbsVal x + limbsVal y) mod 2 ^ 128.
Proof.
  intros [X1 X2] [Y1 Y2]. unfold addLimbs, limbsVal, wfLimbs. cbn [fst snd].
  assert (forall z, fits 64 (u64 z)) as F by (intros z; apply Z.mod_pos_bound; lia). split; [done|].
  assert (u64 (x.1 + y.1) = x.1 + y.1 - (if u64 (x.1 + y.1) <? x.1 then 1 else 0) * 2 ^ 64) as Hlo.
  { unfold u64, fits in *. destruct (Z.lt_ge_cases (x.1 + y.1) (2 ^ 64)) as [Hl|Hl].
    - rewrite Z.mod_small by lia. destruct (Z.ltb_spec (x.1 + y.1) x.1); lia.
    - assert ((x.1 + y.1) mod 2 ^ 64 = x.1 + y.1 - 2 ^ 64) as ->.
      { symmetry. apply (Z.mod_unique _ _ 1); lia. }
      destruct (Z.ltb_spec (x.1 + y.1 - 2 ^ 64) x.1); lia. }
  specialize (F (x.1 + y.1)). set (lo := u64 (x.1 + y.1)) in *. set (c := if lo <? x.1 then 1 else 0) in *.
  clearbody c lo. unfold u64, fits in *. change (2 ^ 128) with (2 ^ 64 * 2 ^ 64).
  replace (x.1 + x.2 * 2 ^ 64 + (y.1 + y.2 * 2 ^ 64)) with (lo + (x.2 + y.2 + c) * 2 ^ 64) by (rewrite Hlo; ring).
  rewrite Z.rem_mul_r, Z.div_add, Z.mod_add by lia. rewrite (Z.mod_small lo), (Z.div_small lo), Z.add_0_l by lia. ring.
Qed.

(** C38: adding two stack states is exact: each sum adds as one 128-bit integer
    with its carry, so as long as the totals fit their 128 bits a tile added
    record by record equals one accumulated in the FPGA; the hit counts add
    modulo 2^32. *)
Theorem AddFPGAMoments_exact a b :
  wfMoments a -> wfMoments b ->
  wfMoments (AddFPGAMoments a b) /\
  limbsVal (Sum (AddFPGAMoments a b)) = (limbsVal (Sum a) + limbsVal (Sum b)) mod 2 ^ 128 /\
  limbsVal (SumSquares (AddFPGAMoments a b)) = (limbsVal (SumSquares a) + limbsVal (SumSquares b)) mod 2 ^ 128 /\
  limbsVal (SumOdd (AddFPGAMoments a b)) = (limbsVal (SumOdd a) + limbsVal (SumOdd b)) mod 2 ^ 128 /\
  Count (AddFPGAMoments a b) = (Count a + Count b) mod 2 ^ 32 /\
  CountOdd (AddFPGAMoments a b) = (CountOdd a + CountOdd b) mod 2 ^ 32.
Proof.
  intros (A1 & A2 & A3 & A4 & A5) (B1 & B2 & B3 & B4 & B5).
  destruct (addLimbs_val _ _ A1 B1), (addLimbs_val _ _ A2 B2), (addLimbs_val _ _ A3 B3).
  split; [|by split_and!]. split_and!; try done; apply fits_u32.
Qed.
