(* ===== verification/TrigPacket.v ===== *)
(** * The packet and line images' triggers

    src/app/internal/sramcapture/packet.go: the CAN / ARINC 429 / FlexRay
    block, the Manchester block and the decimation marks, with the fabric's
    ports for them. *)
From S2P Require Import Prelude Machine Fabric Bus.

Module Packet.
Definition PacketCAN : Z := 6.
Definition PacketARINC : Z := 8.
Definition PacketFlexRay : Z := 10.

Record PacketTriggerConfig := {
  Enabled : bool;
  Protocol : Z;
  Channel : Z;
  Inverted : bool;
  Ticks : Z;
  Aux : Z;
  Pattern : Z;
  Length : Z
}.

(** The fields' Go types. *)
Definition wf (p : PacketTriggerConfig) : Prop :=
  fits 8 (Protocol p) /\ fits 8 (Channel p) /\ fits 32 (Ticks p) /\ fits 32 (Aux p) /\
  fits 64 (Pattern p) /\ fits 8 (Length p).

Definition invalid : err := EMsg "sramcapture: invalid hardware packet trigger configuration" [].

Definition validate (p : PacketTriggerConfig) : option err :=
  if negb (Enabled p) then None
  else
    let bad := (1 <? Channel p) || (0xffffff <? Ticks p) in
    let bad :=
      if Protocol p =? PacketCAN then
        bad || (Ticks p <? 2048) || (Aux p <? 2048) || (0xffffff <? Aux p) || (8 <? Length p)
      else if Protocol p =? PacketFlexRay then
        bad || (Ticks p <? 1024) || negb (Aux p =? 0) || (8 <? Length p)
      else if Protocol p =? PacketARINC then
        let lo := Aux p .& 0xff in
        let hi := (Aux p .>> 8) .& 0xff in
        let exitLo := (Aux p .>> 16) .& 0xff in
        let exitHi := u8 (Aux p .>> 24) in
        bad || (Ticks p <? 4) || Inverted p || negb (Length p =? 0) ||
          ((exitLo <=? lo) || (exitHi <? exitLo) || (hi <=? exitHi))
      else true in
    if bad then Some invalid else None.

Definition control (p : PacketTriggerConfig) : Z :=
  1 .| u16 (Channel p .<< 1) .| u16 (Length p .<< 3) .| u16 (Protocol p .<< 8) .| bit (Inverted p) 4.

(** The registers, then the control. *)
Definition registers (p : PacketTriggerConfig) : list (Z * Z) :=
  [(110, Ticks p .& 0xffff); (111, u16 (Ticks p .>> 16));
   (112, Aux p .& 0xffff); (113, u16 (Aux p .>> 16));
   (114, Pattern p .& 0xffff); (115, (Pattern p .>> 16) .& 0xffff);
   (116, (Pattern p .>> 32) .& 0xffff); (117, u16 (Pattern p .>> 48));
   (109, control p)].

Section ops.
Context {E : Env}.

Definition packetProtocols : M Z :=
  revision ← read 13;
  if negb (revision =? 10) then mret 0
  else
    capability ← read 109;
    if negb (capability =? 0x5001) then mret 0 else read 110.

Definition configurePacket (p : PacketTriggerConfig) : M unit :=
  mask ← packetProtocols;
  if mask =? 0 then
    guard (Enabled p) (EMsg "sramcapture: fabric lacks the hardware packet trigger" [])
  else if Enabled p then
    guard (mask .& (1 .<< Protocol p) =? 0) (EMsg "sramcapture: fabric lacks hardware protocol %d" [Protocol p]);;
    writeMany (registers p)
  else write 109 0.
End ops.

(** top.v's packet block: 109 goes to the receiver its protocol field names
    and is 0 to the others. *)
Record Port := {
  enabled : bool; channel : Z; inverted : bool; pattern_len : Z; protocol : Z;
  ticks : Z; aux : Z; pattern : Z
}.
Definition port (f : Z -> Z) : Port :=
  {| enabled := flag (f 109) 0; channel := bits (f 109) 1 1; inverted := flag (f 109) 2;
     pattern_len := bits (f 109) 3 4; protocol := bits (f 109) 8 4;
     ticks := wide (f 110) (f 111) 24; aux := wide (f 112) (f 113) 32;
     pattern := quad (f 114) (f 115) (f 116) (f 117) |}.
Definition run (p : PacketTriggerConfig) : Port :=
  {| enabled := true; channel := Channel p; inverted := Inverted p; pattern_len := Length p;
     protocol := Protocol p; ticks := Ticks p; aux := Aux p; pattern := Pattern p |}.

Lemma validate_bounds p :
  wf p -> Enabled p = true -> validate p = None ->
  fits 1 (Channel p) /\ fits 24 (Ticks p) /\ fits 4 (Length p) /\ fits 4 (Protocol p).
Proof.
  intros (H1 & H2 & H3 & H4 & H5 & H6) He. unfold validate. rewrite He. unfold fits in *.
  unfold PacketCAN, PacketFlexRay, PacketARINC. cbn [negb]. cbv zeta. intros Hv.
  repeat case_match; try discriminate; lia.
Qed.

Lemma packet_port_registers p f :
  wf p -> Enabled p = true -> validate p = None -> port (written (registers p) f) = run p.
Proof.
  intros Hw He Hv. destruct (validate_bounds p Hw He Hv) as (Hc & Ht & Hl & Hp).
  destruct Hw as (_ & _ & _ & Ha & Hpat & _).
  unfold port, run, flag, control. cbn -[wide quad]. unfold control.
  rewrite !wide_split, quad_split by (done || lia). f_equal; by bits_tac.
Qed.
End Packet.

Module Manchester.
Record ManchesterTriggerConfig := {
  Enabled : bool;
  Channel : Z;
  Inverted : bool;
  IEEE : bool;
  MSB : bool;
  Bits : Z;
  BitTicks : Z;
  Pattern : Z;
  Length : Z
}.

Definition wf (p : ManchesterTriggerConfig) : Prop :=
  fits 8 (Channel p) /\ fits 8 (Bits p) /\ fits 32 (BitTicks p) /\ fits 64 (Pattern p) /\ fits 8 (Length p).

Definition validate (p : ManchesterTriggerConfig) : option err :=
  if Enabled p && ((1 <? Channel p) || (Bits p <? 1) || (16 <? Bits p) || (BitTicks p <? 8) ||
                   (0x3fffff <? BitTicks p) || (4 <? Length p))
  then Some (EMsg "sramcapture: invalid hardware Manchester configuration" [])
  else None.

Definition control (p : ManchesterTriggerConfig) : Z :=
  1 .| u16 (Channel p .<< 1) .| u16 (Bits p .<< 5) .| u16 (Length p .<< 10)
    .| bit (Inverted p) 4 .| bit (IEEE p) 8 .| bit (MSB p) 16.

Definition registers (p : ManchesterTriggerConfig) : list (Z * Z) :=
  [(103, BitTicks p .& 0xffff); (104, u16 (BitTicks p .>> 16));
   (105, Pattern p .& 0xffff); (106, (Pattern p .>> 16) .& 0xffff); (107, (Pattern p .>> 32) .& 0xffff);
   (108, u16 (Pattern p .>> 48)); (102, control p)].

Section ops.
Context {E : Env}.

Definition manchesterCapability : M bool :=
  revision ← read 13;
  if revision <? 10 then mret false
  else
    v ← read 102;
    mret (v =? 0x4d01).

Definition SupportsManchester : M bool := manchesterCapability.

Definition configureManchester (p : ManchesterTriggerConfig) : M unit :=
  present ← manchesterCapability;
  if negb present then guard (Enabled p) (EMsg "sramcapture: fabric lacks hardware Manchester trigger" [])
  else if Enabled p then writeMany (registers p)
  else write 102 0.
End ops.

(** top.v's Manchester block. *)
Record Port := {
  enabled : bool; channel : Z; inverted : bool; ieee : bool; msb : bool; word_bits : Z;
  pattern_len : Z; bit_ticks : Z; pattern : Z
}.
Definition port (f : Z -> Z) : Port :=
  {| enabled := flag (f 102) 0; channel := bits (f 102) 1 1; inverted := flag (f 102) 2;
     ieee := flag (f 102) 3; msb := flag (f 102) 4; word_bits := bits (f 102) 5 5;
     pattern_len := bits (f 102) 10 3; bit_ticks := wide (f 103) (f 104) 24;
     pattern := quad (f 105) (f 106) (f 107) (f 108) |}.
Definition run (p : ManchesterTriggerConfig) : Port :=
  {| enabled := true; channel := Channel p; inverted := Inverted p; ieee := IEEE p; msb := MSB p;
     word_bits := Bits p; pattern_len := Length p; bit_ticks := BitTicks p; pattern := Pattern p |}.

Lemma manchester_port_registers p f :
  wf p -> Enabled p = true -> validate p = None -> port (written (registers p) f) = run p.
Proof.
  intros (Hc & Hb & Ht & Hp & Hl) He. unfold validate. rewrite He. simpl (true && _).
  intros Hv. case_match; [done|].
  width 1 (Channel p). width 5 (Bits p). width 24 (BitTicks p). width 3 (Length p).
  clear Hc Hb Hl. unfold port, run, flag. cbn -[wide quad]. unfold control.
  rewrite wide_split, quad_split by (done || lia). f_equal; by bits_tac.
Qed.
End Manchester.

(** ** The decimation an image carries (register 30) *)
Section decimation.
Context {E : Env}.

Definition boxDecimationMark : Z := 0x4258.
Definition pickDecimationMark : Z := 0x5053.
Definition pickOnAskingMark : Z := 0x5041.

Definition BoxDecimation : M bool :=
  revision ← read 13;
  if negb (revision =? 10) then mret false
  else v ← read 30; mret (v =? boxDecimationMark).

Definition PickDecimation : M bool :=
  revision ← read 13;
  if negb (revision =? 10) then mret false
  else v ← read 30; mret (v =? pickDecimationMark).

Definition PickOnAsking : M bool :=
  revision ← read 13;
  if negb (revision =? 10) then mret false
  else v ← read 30; mret (v =? pickOnAskingMark).

Definition rawOnly : M bool :=
  revision ← read 13;
  if negb (revision =? 10) then mret false
  else v ← read 30; mret (v =? 0x4e44).

Definition RawOnly : M bool := rawOnly.
Definition PacketProtocols : M Z := Packet.packetProtocols.

Lemma issues_rawOnly : issues rawOnly [].
Proof. unfold rawOnly. issues_tac. Qed.
End decimation.

Section packet_properties.
Context {E : Env}.

Lemma issues_packetProtocols : issues Packet.packetProtocols [].
Proof. unfold Packet.packetProtocols. issues_tac. Qed.

Lemma configurePacket_configured p s a s' :
  queueOk s -> Packet.configurePacket p s = (Ret a, s') ->
  configured (Packet.Enabled p) (Packet.registers p) [(109, 0)] s s'.
Proof.
  unfold Packet.configurePacket. intros Hq H.
  eapply configured_then; [apply issues_packetProtocols|done|exact H|]. clear s Hq H.
  intros mask s Hq H. configured_tac H.
Qed.

Lemma issues_manchesterCapability : issues Manchester.manchesterCapability [].
Proof. unfold Manchester.manchesterCapability. issues_tac. Qed.

Lemma configureManchester_configured p s a s' :
  queueOk s -> Manchester.configureManchester p s = (Ret a, s') ->
  configured (Manchester.Enabled p) (Manchester.registers p) [(102, 0)] s s'.
Proof.
  unfold Manchester.configureManchester. intros Hq H.
  eapply configured_then; [apply issues_manchesterCapability|done|exact H|]. clear s Hq H.
  intros mask s Hq H. configured_tac H.
Qed.

(** A packet trigger that passes validation and is configured is the one
    the FPGA runs: the fabric's receiver reads back its protocol, channel,
    polarity, length, ticks, auxiliary word and 64-bit pattern from the
    registers written; a disabled one leaves the block alone or off. *)
Theorem configurePacket_fabric p s a s' f :
  Packet.wf p -> Packet.validate p = None -> queueOk s ->
  Packet.configurePacket p s = (Ret a, s') ->
  fabricRuns Packet.port Packet.enabled (Packet.Enabled p) (Packet.run p) f (issued s) (issued s').
Proof.
  intros Hw Hv Hq H. eapply configured_fabricRuns; [by eapply configurePacket_configured| |done].
  intros He. by apply Packet.packet_port_registers.
Qed.

(** The same for the Manchester block: word length, bit order, coding,
    bit period and four-word pattern are those of the configuration. *)
Theorem configureManchester_fabric p s a s' f :
  Manchester.wf p -> Manchester.validate p = None -> queueOk s ->
  Manchester.configureManchester p s = (Ret a, s') ->
  fabricRuns Manchester.port Manchester.enabled (Manchester.Enabled p) (Manchester.run p) f
    (issued s) (issued s').
Proof.
  intros Hw Hv Hq H. eapply configured_fabricRuns; [by eapply configureManchester_configured| |done].
  intros He. by apply Manchester.manchester_port_registers.
Qed.
End packet_properties.
