(* ===== verification/TrigSerial.v ===== *)
(** * The general and line images' serial triggers

    src/app/internal/sramcapture/sent.go, mil1553.go, usbls.go, spi.go and
    i2c.go, with the fabric's ports for them (src/fpga/common/top.v). *)
From S2P Require Import Prelude Machine Fabric Bus.

(** regSampleDelay and regSecondLevel (spi.go). *)
Definition regSampleDelay : Z := 58.
Definition regSecondLevel : Z := 59.

(** A capability register an image from revision 10 has; 0 before. *)
Definition capabilityFrom10 {E : Env} (revision sel : Z) : M Z :=
  if 10 <=? revision then read sel else mret 0.

Lemma issues_capabilityFrom10 {E : Env} revision sel : issues (capabilityFrom10 revision sel) [].
Proof. unfold capabilityFrom10. issues_tac. Qed.
#[export] Hint Resolve issues_capabilityFrom10 : issues.

Module SENT.
Record SENTTriggerConfig := {
  Enabled : bool;
  Channel : Z;
  Inverted : bool;
  PausePulse : bool;
  TickTicks : Z;
  Nibbles : Z;
  Pattern : Z;
  Length : Z
}.
Definition wf (p : SENTTriggerConfig) : Prop :=
  fits 8 (Channel p) /\ fits 32 (TickTicks p) /\ fits 8 (Nibbles p) /\ fits 32 (Pattern p) /\ fits 8 (Length p).

Definition validate (p : SENTTriggerConfig) : option err :=
  if negb (Enabled p) then None
  else if (1 <? Channel p) || (TickTicks p <? 4) || (0xffffff <? TickTicks p) || (Nibbles p <? 1) ||
          (64 <? Nibbles p) || (4 <? Length p)
  then Some (EMsg "sramcapture: invalid hardware SENT configuration" [])
  else if existsb (fun i => 15 <? (Pattern p .>> (u8 (8 * i))) .& 255) (seqZ 0 (Length p))
  then Some (EMsg "sramcapture: SENT pattern values must be nibbles" [])
  else None.

Definition control (p : SENTTriggerConfig) : Z :=
  1 .| u16 (Channel p .<< 1) .| u16 (Length p .<< 4) .| bit (Inverted p) 4 .| bit (PausePulse p) 8.
Definition registers (p : SENTTriggerConfig) : list (Z * Z) :=
  [(78, TickTicks p .& 0xffff); (79, u16 (TickTicks p .>> 16)); (80, Pattern p .& 0xffff);
   (81, u16 (Pattern p .>> 16)); (82, Nibbles p); (77, control p)].

Definition SupportsSENT {E : Env} : M bool := v ← read 77; mret (v =? 0x5e01).

Definition configureSENT {E : Env} (revision : Z) (p : SENTTriggerConfig) : M unit :=
  capability ← capabilityFrom10 revision 77;
  if negb (capability =? 0x5e01) then
    guard (Enabled p) (EMsg "sramcapture: fabric lacks hardware SENT trigger" [])
  else if Enabled p then writeMany (registers p)
  else write 77 0.

Record Port := {
  enabled : bool; channel : Z; inverted : bool; pause_pulse : bool; pattern_len : Z;
  tick_ticks : Z; nibbles : Z; pattern : Z
}.
Definition port (f : Z -> Z) : Port :=
  {| enabled := flag (f 77) 0; channel := bits (f 77) 1 1; inverted := flag (f 77) 2;
     pause_pulse := flag (f 77) 3; pattern_len := bits (f 77) 4 3;
     tick_ticks := wide (f 78) (f 79) 24; nibbles := bits (f 82) 0 7; pattern := wide (f 80) (f 81) 32 |}.
Definition run (p : SENTTriggerConfig) : Port :=
  {| enabled := true; channel := Channel p; inverted := Inverted p; pause_pulse := PausePulse p;
     pattern_len := Length p; tick_ticks := TickTicks p; nibbles := Nibbles p; pattern := Pattern p |}.

Lemma sent_port_registers p f :
  wf p -> Enabled p = true -> validate p = None -> port (written (registers p) f) = run p.
Proof.
  intros (Hc & Ht & Hn & Hp & Hl) He. unfold validate. rewrite He. simpl (negb _). cbv iota.
  intros Hv. case_match; [done|]. clear Hv.
  width 1 (Channel p). width 24 (TickTicks p). width 7 (Nibbles p). width 3 (Length p).
  clear Hc Hn Hl. unfold port, run, flag. cbn -[wide quad]. unfold control.
  rewrite !wide_split by (done || lia). f_equal; by bits_tac.
Qed.

Lemma configureSENT_configured {E : Env} revision p s a s' :
  queueOk s -> configureSENT revision p s = (Ret a, s') ->
  configured (Enabled p) (registers p) [(77, 0)] s s'.
Proof. unfold configureSENT. intros Hq H. configured_tac H. Qed.
End SENT.

Module MIL1553.
Record MIL1553TriggerConfig := {
  Enabled : bool;
  Channel : Z;
  Inverted : bool;
  BitTicks : Z;
  Pattern : Z;
  MatchAny : bool
}.
Definition wf (p : MIL1553TriggerConfig) : Prop :=
  fits 8 (Channel p) /\ fits 32 (BitTicks p) /\ fits 16 (Pattern p).

Definition validate (p : MIL1553TriggerConfig) : option err :=
  if Enabled p && ((1 <? Channel p) || (BitTicks p <? 8) || (0x3fffff <? BitTicks p))
  then Some (EMsg "sramcapture: invalid hardware MIL-STD-1553 configuration" [])
  else None.

Definition control (p : MIL1553TriggerConfig) : Z :=
  1 .| u16 (Channel p .<< 1) .| bit (Inverted p) 4 .| bit (MatchAny p) 8.
Definition registers (p : MIL1553TriggerConfig) : list (Z * Z) :=
  [(94, BitTicks p .& 0xffff); (95, u16 (BitTicks p .>> 16)); (96, Pattern p); (93, control p)].

Definition SupportsMIL1553 {E : Env} : M bool := v ← read 93; mret (v =? 0x4d01).

Definition configureMIL1553 {E : Env} (revision : Z) (p : MIL1553TriggerConfig) : M unit :=
  capability ← capabilityFrom10 revision 93;
  if negb (capability =? 0x4d01) then
    guard (Enabled p) (EMsg "sramcapture: fabric lacks hardware MIL-STD-1553 trigger" [])
  else if Enabled p then writeMany (registers p)
  else write 93 0.

Record Port := {
  enabled : bool; channel : Z; inverted : bool; match_any : bool; bit_ticks : Z; pattern : Z
}.
Definition port (f : Z -> Z) : Port :=
  {| enabled := flag (f 93) 0; channel := bits (f 93) 1 1; inverted := flag (f 93) 2;
     match_any := flag (f 93) 3; bit_ticks := wide (f 94) (f 95) 24; pattern := bits (f 96) 0 16 |}.
Definition run (p : MIL1553TriggerConfig) : Port :=
  {| enabled := true; channel := Channel p; inverted := Inverted p; match_any := MatchAny p;
     bit_ticks := BitTicks p; pattern := Pattern p |}.

Lemma mil1553_port_registers p f :
  wf p -> Enabled p = true -> validate p = None -> port (written (registers p) f) = run p.
Proof.
  intros (Hc & Ht & Hp) He. unfold validate. rewrite He. simpl (true && _).
  intros Hv. case_match; [done|]. width 1 (Channel p). width 24 (BitTicks p).
  clear Hc. unfold port, run, flag. cbn -[wide quad]. unfold control.
  rewrite wide_split by (done || lia). f_equal; by bits_tac.
Qed.

Lemma configureMIL1553_configured {E : Env} revision p s a s' :
  queueOk s -> configureMIL1553 revision p s = (Ret a, s') ->
  configured (Enabled p) (registers p) [(93, 0)] s s'.
Proof. unfold configureMIL1553. intros Hq H. configured_tac H. Qed.
End MIL1553.

Module USBLS.
Record USBLSTriggerConfig := {
  Enabled : bool;
  Channel : Z;
  Inverted : bool;
  BitTicksQ8 : Z;
  Pattern : Z;
  Length : Z
}.
Definition wf (p : USBLSTriggerConfig) : Prop :=
  fits 8 (Channel p) /\ fits 32 (BitTicksQ8 p) /\ fits 32 (Pattern p) /\ fits 8 (Length p).

Definition validate (p : USBLSTriggerConfig) : option err :=
  if Enabled p && ((1 <? Channel p) || (BitTicksQ8 p <? 2048) || (0xffffff <? BitTicksQ8 p) || (4 <? Length p))
  then Some (EMsg "sramcapture: invalid hardware USB configuration" [])
  else None.

Definition control (p : USBLSTriggerConfig) : Z :=
  1 .| u16 (Channel p .<< 1) .| u16 (Length p .<< 3) .| bit (Inverted p) 4.
Definition registers (p : USBLSTriggerConfig) : list (Z * Z) :=
  [(98, BitTicksQ8 p .& 0xffff); (99, u16 (BitTicksQ8 p .>> 16)); (100, Pattern p .& 0xffff);
   (101, u16 (Pattern p .>> 16)); (97, control p)].

Definition SupportsUSBLS {E : Env} : M bool := v ← read 97; mret (v =? 0x5501).

Definition configureUSBLS {E : Env} (revision : Z) (p : USBLSTriggerConfig) : M unit :=
  capability ← capabilityFrom10 revision 97;
  if negb (capability =? 0x5501) then
    guard (Enabled p) (EMsg "sramcapture: fabric lacks hardware USB trigger" [])
  else if Enabled p then writeMany (registers p)
  else write 97 0.

Record Port := {
  enabled : bool; channel : Z; inverted : bool; pattern_len : Z; bit_ticks_q8 : Z; pattern : Z
}.
Definition port (f : Z -> Z) : Port :=
  {| enabled := flag (f 97) 0; channel := bits (f 97) 1 1; inverted := flag (f 97) 2;
     pattern_len := bits (f 97) 3 3; bit_ticks_q8 := wide (f 98) (f 99) 24; pattern := wide (f 100) (f 101) 32 |}.
Definition run (p : USBLSTriggerConfig) : Port :=
  {| enabled := true; channel := Channel p; inverted := Inverted p; pattern_len := Length p;
     bit_ticks_q8 := BitTicksQ8 p; pattern := Pattern p |}.

Lemma usbls_port_registers p f :
  wf p -> Enabled p = true -> validate p = None -> port (written (registers p) f) = run p.
Proof.
  intros (Hc & Ht & Hp & Hl) He. unfold validate. rewrite He. simpl (true && _).
  intros Hv. case_match; [done|]. width 1 (Channel p). width 24 (BitTicksQ8 p). width 3 (Length p).
  clear Hc Hl. unfold port, run, flag. cbn -[wide quad]. unfold control.
  rewrite !wide_split by (done || lia). f_equal; by bits_tac.
Qed.

Lemma configureUSBLS_configured {E : Env} revision p s a s' :
  queueOk s -> configureUSBLS revision p s = (Ret a, s') ->
  configured (Enabled p) (registers p) [(97, 0)] s s'.
Proof. unfold configureUSBLS. intros Hq H. configured_tac H. Qed.
End USBLS.

Module SPI.
Record SPITriggerConfig := {
  Enabled : bool;
  ClockChannel : Z;
  Inverted : bool;
  CPOL : bool;
  CPHA : bool;
  MSB : bool;
  GapTicks : Z;
  Pattern : Z;
  Length : Z;
  Delay : Z
}.
Definition wf (p : SPITriggerConfig) : Prop :=
  fits 8 (ClockChannel p) /\ fits 32 (GapTicks p) /\ fits 32 (Pattern p) /\ fits 8 (Length p) /\
  -128 <= Delay p <= 127.

(** The block's share of Config.Check. *)
Definition inRange (p : SPITriggerConfig) : bool :=
  negb ((1 <? ClockChannel p) || (4 <? Length p) || (GapTicks p <? 3) || (0xffffff <? GapTicks p)).

Definition spiLevels : Z := 0x5301.
Definition spiSamples : Z := 0x5303.

Definition control (p : SPITriggerConfig) : Z :=
  1 .| u16 (ClockChannel p .<< 1) .| u16 (Length p .<< 6) .| bit (Inverted p) 4
    .| bit (CPOL p) 8 .| bit (CPHA p) 16 .| bit (MSB p) 32.
Definition registers (capability : Z) (p : SPITriggerConfig) : list (Z * Z) :=
  [(65, GapTicks p .& 0xffff); (66, u16 (GapTicks p .>> 16)); (67, Pattern p .& 0xffff); (68, u16 (Pattern p .>> 16))]
  ++ (if capability =? spiSamples then [(regSampleDelay, u16 (u8 (Delay p)))] else [])
  ++ [(64, control p)].

Definition SupportsSPI {E : Env} : M bool :=
  v ← read 64; mret ((v =? spiLevels) || (v =? spiSamples)).
Definition SupportsSampleSPI {E : Env} : M bool := v ← read 64; mret (v =? spiSamples).

Definition configureSPI {E : Env} (revision : Z) (p : SPITriggerConfig) : M unit :=
  capability ← capabilityFrom10 revision 64;
  if negb (capability =? spiLevels) && negb (capability =? spiSamples) then
    guard (Enabled p) (EMsg "sramcapture: fabric lacks hardware SPI trigger" [])
  else if negb (Enabled p) then write 64 0
  else writeMany (registers capability p).

Record Port := {
  enabled : bool; channel : Z; inverted : bool; cpol : bool; cpha : bool; msb : bool;
  pattern_len : Z; gap_ticks : Z; pattern : Z; sample_delay : Z
}.
Definition port (f : Z -> Z) : Port :=
  {| enabled := flag (f 64) 0; channel := bits (f 64) 1 1; inverted := flag (f 64) 2;
     cpol := flag (f 64) 3; cpha := flag (f 64) 4; msb := flag (f 64) 5;
     pattern_len := bits (f 64) 6 3; gap_ticks := wide (f 65) (f 66) 24;
     pattern := wide (f 67) (f 68) 32; sample_delay := signed8 (f 58) |}.
(** What runs: only a receiver on the samples takes the delay. *)
Definition run (capability : Z) (f : Z -> Z) (p : SPITriggerConfig) : Port :=
  {| enabled := true; channel := ClockChannel p; inverted := Inverted p; cpol := CPOL p; cpha := CPHA p;
     msb := MSB p; pattern_len := Length p; gap_ticks := GapTicks p; pattern := Pattern p;
     sample_delay := if capability =? spiSamples then Delay p else signed8 (f 58) |}.

Lemma spi_port_registers capability p f :
  wf p -> inRange p = true -> port (written (registers capability p) f) = run capability f p.
Proof.
  intros (Hc & Ht & Hp & Hl & Hd). unfold inRange. intros Hv.
  width 1 (ClockChannel p). width 24 (GapTicks p). width 3 (Length p). clear Hc Hl Hv.
  unfold port, run, flag, registers.
  destruct (capability =? spiSamples); cbn -[wide quad]; unfold control;
    rewrite ?signed8_u8, !wide_split by (done || lia); f_equal; by bits_tac.
Qed.

Lemma configureSPI_configured {E : Env} revision p s a s' :
  queueOk s -> configureSPI revision p s = (Ret a, s') ->
  exists capability, configured (Enabled p) (registers capability p) [(64, 0)] s s' /\
    (Enabled p = true -> capability = spiLevels \/ capability = spiSamples).
Proof.
  unfold configureSPI. intros Hq H. apply bind_Ret_inv in H as (cap & s1 & H1 & H). exists cap.
  apply issues_capabilityFrom10 in H1 as [Hq' Hi]; [|done]. rewrite app_nil_r in Hi.
  unfold configured. rewrite <- Hi. clear Hi. split.
  - change (configured (Enabled p) (registers cap p) [(64, 0)] s1 s').
    destruct (Enabled p) eqn:He; cbn [negb] in H; configured_tac H.
  - intros He. rewrite He in H. destruct (cap =? spiLevels) eqn:H3; [left; by apply Z.eqb_eq|].
    destruct (cap =? spiSamples) eqn:H4; [right; by apply Z.eqb_eq|]. discriminate H.
Qed.
End SPI.

Module I2C.
Record I2CTriggerConfig := {
  Enabled : bool;
  ClockChannel : Z;
  Inverted : bool;
  Address : Z;
  Direction : Z;
  Pattern : Z;
  Length : Z;
  Samples : bool;
  Delay : Z
}.
Definition wf (p : I2CTriggerConfig) : Prop :=
  fits 8 (ClockChannel p) /\ fits 8 (Direction p) /\ fits 32 (Pattern p) /\ fits 8 (Length p) /\
  -128 <= Delay p <= 127.

(** The block's share of Config.Check. *)
Definition inRange (p : I2CTriggerConfig) : bool :=
  negb ((1 <? ClockChannel p) || (Address p <? -1) || (127 <? Address p) || (2 <? Direction p) || (4 <? Length p)).

Definition i2cLevels : Z := 0x4901.
Definition i2cSamples : Z := 0x4902.

Definition control (p : I2CTriggerConfig) : Z :=
  1 .| u16 (ClockChannel p .<< 1) .| u16 (Direction p .<< 3) .| u16 (Length p .<< 6)
    .| bit (Inverted p) 4 .| bit (Address p <? 0) 32.
Definition registers (capability : Z) (p : I2CTriggerConfig) : list (Z * Z) :=
  [(54, Address p .& 127); (55, Pattern p .& 0xffff); (56, u16 (Pattern p .>> 16))]
  ++ (if capability =? i2cSamples then [(regSampleDelay, u16 (u8 (Delay p)))] else [])
  ++ [(53, control p)].

Definition SupportsI2C {E : Env} : M bool :=
  revision ← read 13;
  if revision <? 10 then mret false
  else
    capability ← read 53;
    mret ((capability =? i2cLevels) || (capability =? i2cSamples)).
Definition SupportsSampleI2C {E : Env} : M bool := v ← read 53; mret (v =? i2cSamples).

Definition configureI2C {E : Env} (revision : Z) (p : I2CTriggerConfig) : M unit :=
  capability ← capabilityFrom10 revision 53;
  if (negb (capability =? i2cLevels) && negb (capability =? i2cSamples)) ||
     (Enabled p && Samples p && negb (capability =? i2cSamples)) then
    guard (Enabled p) (EMsg "sramcapture: fabric lacks hardware I2C trigger" [])
  else if Enabled p then writeMany (registers capability p)
  else write 53 0.

Record Port := {
  enabled : bool; channel : Z; inverted : bool; direction : Z; any_address : bool;
  pattern_len : Z; address : Z; pattern : Z; sample_delay : Z
}.
Definition port (f : Z -> Z) : Port :=
  {| enabled := flag (f 53) 0; channel := bits (f 53) 1 1; inverted := flag (f 53) 2;
     direction := bits (f 53) 3 2; any_address := flag (f 53) 5; pattern_len := bits (f 53) 6 3;
     address := bits (f 54) 0 7; pattern := wide (f 55) (f 56) 32; sample_delay := signed8 (f 58) |}.
(** What runs: any address for -1, and the delay only on the samples. *)
Definition run (capability : Z) (f : Z -> Z) (p : I2CTriggerConfig) : Port :=
  {| enabled := true; channel := ClockChannel p; inverted := Inverted p; direction := Direction p;
     any_address := Address p =? -1; pattern_len := Length p;
     address := if Address p =? -1 then 127 else Address p; pattern := Pattern p;
     sample_delay := if capability =? i2cSamples then Delay p else signed8 (f 58) |}.

Lemma address_field a : -1 <= a <= 127 -> bits (a .& 127) 0 7 = if a =? -1 then 127 else a.
Proof.
  intros Ha. destruct (Z.eqb_spec a (-1)) as [->|Hn]; [reflexivity|].
  change (a .& 127) with (bits a 0 7).
  assert (fits 7 a) by (unfold fits; lia).
  rewrite (bits_self a) by (done || lia). by rewrite bits_self by (done || lia).
Qed.

Lemma i2c_port_registers capability p f :
  wf p -> inRange p = true -> port (written (registers capability p) f) = run capability f p.
Proof.
  intros (Hc & Hdir & Hp & Hl & Hd). unfold inRange. intros Hv.
  width 1 (ClockChannel p). width 2 (Direction p). width 3 (Length p).
  assert (-1 <= Address p <= 127) as Ha by lia.
  assert ((Address p <? 0) = (Address p =? -1)) as Hany
    by (clear -Ha; destruct (Z.ltb_spec (Address p) 0), (Z.eqb_spec (Address p) (-1)); lia). clear Hc Hdir Hl Hv.
  unfold port, run, flag, registers.
  destruct (capability =? i2cSamples); cbn -[wide quad]; unfold control; rewrite Hany;
    rewrite ?signed8_u8, !wide_split, address_field by (done || lia); f_equal; by bits_tac.
Qed.

Lemma configureI2C_configured {E : Env} revision p s a s' :
  queueOk s -> configureI2C revision p s = (Ret a, s') ->
  exists capability, configured (Enabled p) (registers capability p) [(53, 0)] s s' /\
    (Enabled p = true -> (capability = i2cLevels \/ capability = i2cSamples) /\
                         (Samples p = true -> capability = i2cSamples)).
Proof.
  unfold configureI2C. intros Hq H. apply bind_Ret_inv in H as (cap & s1 & H1 & H). exists cap.
  apply issues_capabilityFrom10 in H1 as [Hq' Hi]; [|done]. rewrite app_nil_r in Hi.
  unfold configured. rewrite <- Hi. clear Hi. split.
  - change (configured (Enabled p) (registers cap p) [(53, 0)] s1 s'). configured_tac H.
  - intros He. rewrite He in H. unfold guard in H.
    destruct (cap =? i2cSamples) eqn:Hc; [apply Z.eqb_eq in Hc; auto|].
    destruct (Samples p); simpl in H; [by rewrite orb_true_r in H|].
    destruct (cap =? i2cLevels) eqn:Hl; [|discriminate H].
    apply Z.eqb_eq in Hl. split; [auto|done].
Qed.
End I2C.

(** ** Host and fabric agree on the serial triggers *)

Section serial_properties.
Context {E : Env}.

(** An accepted SENT configuration (ticks, pause pulse, nibble count,
    pattern nibbles) is the one the FPGA's SENT receiver runs. *)
Theorem configureSENT_fabric revision p s a s' f :
  SENT.wf p -> SENT.validate p = None -> queueOk s ->
  SENT.configureSENT revision p s = (Ret a, s') ->
  fabricRuns SENT.port SENT.enabled (SENT.Enabled p) (SENT.run p) f (issued s) (issued s').
Proof.
  intros Hw Hv Hq H. eapply configured_fabricRuns; [by eapply SENT.configureSENT_configured| |done].
  intros He. by apply SENT.sent_port_registers.
Qed.

(** The same for MIL-STD-1553: channel, polarity, bit period, word and
    match-any. *)
Theorem configureMIL1553_fabric revision p s a s' f :
  MIL1553.wf p -> MIL1553.validate p = None -> queueOk s ->
  MIL1553.configureMIL1553 revision p s = (Ret a, s') ->
  fabricRuns MIL1553.port MIL1553.enabled (MIL1553.Enabled p) (MIL1553.run p) f (issued s) (issued s').
Proof.
  intros Hw Hv Hq H. eapply configured_fabricRuns; [by eapply MIL1553.configureMIL1553_configured| |done].
  intros He. by apply MIL1553.mil1553_port_registers.
Qed.

(** The same for low-speed USB. *)
Theorem configureUSBLS_fabric revision p s a s' f :
  USBLS.wf p -> USBLS.validate p = None -> queueOk s ->
  USBLS.configureUSBLS revision p s = (Ret a, s') ->
  fabricRuns USBLS.port USBLS.enabled (USBLS.Enabled p) (USBLS.run p) f (issued s) (issued s').
Proof.
  intros Hw Hv Hq H. eapply configured_fabricRuns; [by eapply USBLS.configureUSBLS_configured| |done].
  intros He. by apply USBLS.usbls_port_registers.
Qed.

(** An SPI configuration within Check's ranges is the one the FPGA runs,
    on whichever of the two receivers the image has; the signed data delay
    reaches the receiver on the samples. *)
Theorem configureSPI_fabric revision p s a s' f :
  SPI.wf p -> SPI.inRange p = true -> queueOk s ->
  SPI.configureSPI revision p s = (Ret a, s') ->
  exists capability,
    (SPI.Enabled p = true -> capability = SPI.spiLevels \/ capability = SPI.spiSamples) /\
    fabricRuns SPI.port SPI.enabled (SPI.Enabled p) (SPI.run capability f p) f (issued s) (issued s').
Proof.
  intros Hw Hv Hq H. apply SPI.configureSPI_configured in H as (cap & H & Hcap); [|done].
  exists cap. split; [done|]. eapply configured_fabricRuns; [exact H| |done].
  intros He. by apply SPI.spi_port_registers.
Qed.

(** The same for I2C, whose address -1 runs as "any address"; a request
    for the receiver on the samples is never run by the other one. *)
Theorem configureI2C_fabric revision p s a s' f :
  I2C.wf p -> I2C.inRange p = true -> queueOk s ->
  I2C.configureI2C revision p s = (Ret a, s') ->
  exists capability,
    (I2C.Enabled p = true -> (capability = I2C.i2cLevels \/ capability = I2C.i2cSamples) /\
                             (I2C.Samples p = true -> capability = I2C.i2cSamples)) /\
    fabricRuns I2C.port I2C.enabled (I2C.Enabled p) (I2C.run capability f p) f (issued s) (issued s').
Proof.
  intros Hw Hv Hq H. apply I2C.configureI2C_configured in H as (cap & H & Hcap); [|done].
  exists cap. split; [done|]. eapply configured_fabricRuns; [exact H| |done].
  intros He. by apply I2C.i2c_port_registers.
Qed.
End serial_properties.
