(* ===== verification/TrigQualify.v ===== *)
(** * The qualify image's hardware trigger: pulse, slope, video and zones

    src/app/internal/sramcapture/qualify.go, with the fabric's ports for the
    qualifier and zone blocks (src/fpga/common/top.v). *)
From S2P Require Import Prelude Machine Fabric Bus.

Module Qualifier.
Definition QualPulse : Z := 0.
Definition QualSlope : Z := 1.
Definition QualVideo : Z := 2.
Definition QualBetween : Z := 3.
Definition QualMaxTicks : Z := 2 ^ 16 - 1.
Definition QualMaxPrescale : Z := 2 ^ 16.

Record QualifierConfig := {
  Enabled : bool;
  Kind : Z;
  Channel : Z;
  Negative : bool;
  Cond : Z;
  MinTicks : Z;
  MaxTicks : Z;
  Prescale : Z;
  LevelA : Z;
  LevelB : Z;
  Line : Z
}.
Definition wf (p : QualifierConfig) : Prop :=
  fits 8 (Kind p) /\ fits 8 (Channel p) /\ fits 8 (Cond p) /\ fits 32 (MinTicks p) /\ fits 32 (MaxTicks p) /\
  fits 32 (Prescale p) /\ fits 8 (LevelA p) /\ fits 8 (LevelB p) /\ fits 16 (Line p).

Definition validate (p : QualifierConfig) : option err :=
  if negb (Enabled p) then None
  else if (QualVideo <? Kind p) || (1 <? Channel p) || (QualBetween <? Cond p) ||
          (QualMaxTicks <? MinTicks p) || (QualMaxTicks <? MaxTicks p) ||
          (Prescale p <? 1) || (QualMaxPrescale <? Prescale p) ||
          has (Prescale p) (Prescale p - 1) || (1023 <? Line p)
  then Some (EMsg "sramcapture: invalid hardware qualifier configuration" [])
  else None.

Definition minM1 (p : QualifierConfig) : Z := if MinTicks p =? 0 then 0 else MinTicks p - 1.
Definition control (p : QualifierConfig) : Z :=
  1 .| u16 (Kind p .<< 1) .| u16 (Cond p .<< 4) .| u16 (Channel p .<< 6)
    .| bit (Negative p) 8 .| bit (MinTicks p =? 0) 0x80.
Definition registers (p : QualifierConfig) : list (Z * Z) :=
  [(22, u16 (minM1 p)); (24, MaxTicks p .& 0xffff); (26, u16 (LevelB p .<< 8) .| LevelA p); (27, Line p);
   (28, (Prescale p - 1) .& 0xffff); (21, control p)].

Section ops.
Context {E : Env}.

Definition SupportsQualifier : M bool := v ← read qualCapability; mret (v =? 0x5154).

Definition configureQualifier (revision : Z) (p : QualifierConfig) : M unit :=
  capability ← (if 10 <=? revision then read qualCapability else mret 0);
  if negb (capability =? 0x5154) then
    guard (Enabled p) (EMsg "sramcapture: fabric lacks hardware trigger qualifiers" [])
  else if Enabled p then writeMany (registers p)
  else write 21 0.
End ops.

(** top.v's qualifier: limits less one and a flag for a zero minimum. *)
Record Port := {
  enabled : bool; kind : Z; negative : bool; cond : Z; channel : Z; min_zero : bool;
  min_m1 : Z; max_t : Z; prescale_m1 : Z; line : Z; level_a : Z; level_b : Z
}.
Definition port (f : Z -> Z) : Port :=
  {| enabled := flag (f 21) 0; kind := bits (f 21) 1 2; negative := flag (f 21) 3; cond := bits (f 21) 4 2;
     channel := bits (f 21) 6 1; min_zero := flag (f 21) 7; min_m1 := bits (f 22) 0 16;
     max_t := bits (f 24) 0 16; prescale_m1 := bits (f 28) 0 16; line := bits (f 27) 0 10;
     level_a := bits (f 26) 0 8; level_b := bits (f 26) 8 8 |}.
Definition run (p : QualifierConfig) : Port :=
  {| enabled := true; kind := Kind p; negative := Negative p; cond := Cond p; channel := Channel p;
     min_zero := MinTicks p =? 0; min_m1 := minM1 p; max_t := MaxTicks p; prescale_m1 := Prescale p - 1;
     line := Line p; level_a := LevelA p; level_b := LevelB p |}.

Lemma qualifier_port_registers p f :
  wf p -> Enabled p = true -> validate p = None -> port (written (registers p) f) = run p.
Proof.
  intros (Hk & Hch & Hco & Hmi & Hma & Hpr & Ha & Hb & Hl) He. unfold validate. rewrite He.
  simpl (negb _). cbv iota. unfold QualVideo, QualBetween, QualMaxTicks, QualMaxPrescale. intros Hv.
  case_match; [done|]. clear Hv.
  width 2 (Kind p). width 1 (Channel p). width 2 (Cond p). width 16 (MaxTicks p). width 10 (Line p).
  assert (fits 16 (minM1 p)).
  { unfold minM1, fits in *. destruct (Z.eqb_spec (MinTicks p) 0); lia. }
  width 16 (Prescale p - 1). clear Hk Hch Hco Hma Hl.
  unfold port, run, flag. cbn. unfold control.
  change (MaxTicks p .& 0xffff) with (bits (MaxTicks p) 0 16).
  change ((Prescale p - 1) .& 0xffff) with (bits (Prescale p - 1) 0 16).
  rewrite (bits_self (MaxTicks p)), (bits_self (Prescale p - 1)) by (done || lia).
  f_equal; by bits_tac.
Qed.

Lemma configureQualifier_configured {E : Env} revision p s a s' :
  queueOk s -> configureQualifier revision p s = (Ret a, s') ->
  configured (Enabled p) (registers p) [(21, 0)] s s'.
Proof. unfold configureQualifier. intros Hq H. configured_tac H. Qed.

(** an accepted pulse, slope or video qualifier is the one the FPGA
    runs: kind, channel, sense, condition, tick limits (the minimum less
    one, with the zero flag), prescale and levels. *)
Theorem configureQualifier_fabric {E : Env} revision p s a s' f :
  wf p -> validate p = None -> queueOk s -> configureQualifier revision p s = (Ret a, s') ->
  fabricRuns port enabled (Enabled p) (run p) f (issued s) (issued s').
Proof.
  intros Hw Hv Hq H. eapply configured_fabricRuns; [by eapply configureQualifier_configured| |done].
  intros He. by apply qualifier_port_registers.
Qed.
End Qualifier.

Module Zone.
Record ZoneWindow := {
  Enabled : bool;
  Channel : Z;
  Lo : Z;
  Hi : Z;
  Start : Z;
  End_ : Z;
  Avoid : bool
}.
Record ZoneConfig := {
  Zones : list ZoneWindow;
  Wait : Z;
  Bucket : Z
}.
(** Four windows; uint8 codes, int16 bounds. *)
Definition wfWindow (w : ZoneWindow) : Prop :=
  fits 8 (Channel w) /\ fits 8 (Lo w) /\ fits 8 (Hi w) /\
  -32768 <= Start w <= 32767 /\ -32768 <= End_ w <= 32767.
Definition wf (z : ZoneConfig) : Prop :=
  length (Zones z) = 4%nat /\ Forall wfWindow (Zones z) /\ fits 16 (Wait z) /\ fits 16 (Bucket z).

Definition anyEnabled (z : ZoneConfig) : bool := existsb Enabled (Zones z).

(** The oldest count read must still be in the 1024-bucket history. *)
Definition outside (z : ZoneConfig) (w : ZoneWindow) : bool :=
  Enabled w && ((1 <? Channel w) || (End_ w <? Start w) || (Start w <? -1000) || (1000 <? End_ w) ||
                (1023 <? Wait z - Start w + 1) || (Wait z <? End_ w + 1)).
Definition validate (z : ZoneConfig) : option err :=
  if negb (anyEnabled z) then None
  else if (Wait z <? 1) || (1023 <? Wait z) || (Bucket z <? 1) || (4096 <? Bucket z) || has (Bucket z) (Bucket z - 1)
  then Some (EMsg "sramcapture: invalid hardware zone configuration" [])
  else if existsb (outside z) (Zones z)
  then Some (EMsg "sramcapture: zone window outside the hardware history" [])
  else None.

Definition starts (i : nat) : Z := nth i [90; 91; 92; 69] 0.
Definition ends (i : nat) : Z := nth i [70; 71; 72; 73] 0.

Definition windowBits (i : nat) (w : ZoneWindow) : Z :=
  if Enabled w then
    (1 .<< Z.of_nat i) .| u16 (Channel w .<< (4 + Z.of_nat i)) .| bit (Avoid w) (1 .<< (8 + Z.of_nat i))
  else 0.
Definition windowRegs (i : nat) (w : ZoneWindow) : list (Z * Z) :=
  if Enabled w then
    [(86 + Z.of_nat i, u16 (Hi w .<< 8) .| Lo w); (starts i, u16 (Start w) .& 0x7ff); (ends i, u16 (End_ w) .& 0x7ff)]
  else [].
(** The control last. *)
Definition registers (z : ZoneConfig) : list (Z * Z) :=
  [(84, Wait z); (85, u16 (Bucket z - 1))]
  ++ concat (imap windowRegs (Zones z))
  ++ [(83, fold_left Z.lor (imap windowBits (Zones z)) 0)].

Section ops.
Context {E : Env}.

Definition zoneKinds (revision : Z) : M Z :=
  if 10 <=? revision then
    v ← read qualCapability;
    if v =? 0x5154 then read (qualCapability + 1) else mret 0
  else mret 0.

Definition configureZones (revision : Z) (z : ZoneConfig) : M unit :=
  kinds ← zoneKinds revision;
  if kinds .& 8 =? 0 then
    guard (anyEnabled z) (EMsg "sramcapture: fabric lacks the hardware zone trigger" [])
  else if anyEnabled z then writeMany (registers z)
  else write 83 0.

Lemma issues_zoneKinds revision : issues (zoneKinds revision) [].
Proof. unfold zoneKinds. issues_tac. Qed.

Lemma configureZones_configured revision z s a s' :
  queueOk s -> configureZones revision z s = (Ret a, s') ->
  configured (anyEnabled z) (registers z) [(83, 0)] s s'.
Proof.
  unfold configureZones. intros Hq H.
  eapply configured_then; [apply issues_zoneKinds|done|exact H|]. clear s Hq H.
  intros kinds s Hq H. configured_tac H.
Qed.
End ops.

(** top.v's zone block: an 11-bit two's-complement bound. *)
Definition signed11 (x : Z) : Z := let b := bits x 0 11 in if b <? 1024 then b else b - 2048.

(** The window [w] is what zone [i] of the block tests. *)
Definition zoneRuns (f : Z -> Z) (i : nat) (w : ZoneWindow) : Prop :=
  flag (f 83) (Z.of_nat i) = Enabled w /\
  (Enabled w = true ->
    bits (f 83) (4 + Z.of_nat i) 1 = Channel w /\ flag (f 83) (8 + Z.of_nat i) = Avoid w /\
    bits (f (86 + Z.of_nat i)) 0 8 = Lo w /\ bits (f (86 + Z.of_nat i)) 8 8 = Hi w /\
    signed11 (f (starts i)) = Start w /\ signed11 (f (ends i)) = End_ w).

Lemma signed11_field d : -1000 <= d <= 1000 -> signed11 (u16 d .& 0x7ff) = d.
Proof.
  intros Hd. unfold signed11. change (u16 d .& 0x7ff) with (bits (u16 d) 0 11).
  rewrite (bits_self (bits (u16 d) 0 11)) by (apply fits_bits || idtac; lia).
  rewrite bits_u16, bits_mod by lia. change (2 ^ 0) with 1. rewrite Z.div_1_r. change (2 ^ 11) with 2048.
  destruct (Z.lt_ge_cases d 0).
  - replace (d mod 2048) with (d + 2048) by (apply Z.mod_unique with (-1); lia).
    destruct (Z.ltb_spec (d + 2048) 1024); lia.
  - rewrite Z.mod_small by lia. destruct (Z.ltb_spec d 1024); lia.
Qed.

(** Channel in range, bounds within the 11 bits of the registers. *)
Lemma window_inside z w :
  outside z w = false -> Enabled w = true ->
  0 <= Wait z <= 1023 ->
  Channel w <= 1 /\ -1000 <= Start w <= 1000 /\ -1000 <= End_ w <= 1000.
Proof. unfold outside. intros H He Hw. rewrite He in H. simpl in H. lia. Qed.

(** One zone of the four, from the registers that hold its fields. *)
Lemma zoneRuns_intro f i w :
  flag (f 83) (Z.of_nat i) = Enabled w ->
  bits (f 83) (4 + Z.of_nat i) 1 = bit (Enabled w) (Channel w) ->
  flag (f 83) (8 + Z.of_nat i) = Enabled w && Avoid w ->
  (Enabled w = true -> f (86 + Z.of_nat i) = u16 (Hi w .<< 8) .| Lo w) ->
  (Enabled w = true -> f (starts i) = u16 (Start w) .& 0x7ff) ->
  (Enabled w = true -> f (ends i) = u16 (End_ w) .& 0x7ff) ->
  fits 8 (Hi w) -> fits 8 (Lo w) ->
  (Enabled w = true -> -1000 <= Start w <= 1000 /\ -1000 <= End_ w <= 1000) ->
  zoneRuns f i w.
Proof.
  intros H1 H2 H3 H4 H5 H6 Hh Hl Hb. split; [done|]. intros He.
  rewrite He in *. destruct (Hb eq_refl) as [Hs Hn]. rewrite H2, H3, H4, H5, H6 by done.
  rewrite !signed11_field by lia. split_and!; [done|done| | |done|done]; by bits_tac.
Qed.

Lemma imap4 {A B} (g : nat -> A -> B) a b c d :
  imap g [a; b; c; d] = [g 0%nat a; g 1%nat b; g 2%nat c; g 3%nat d].
Proof. done. Qed.

(** The channel of an enabled window, else 0. *)
Definition channelBit (w : ZoneWindow) : Z := bit (Enabled w) (Channel w).

Lemma windowBits_flags i w :
  windowBits i w =
  bit (Enabled w) (1 .<< Z.of_nat i)
    .| u16 (channelBit w .<< (4 + Z.of_nat i))
    .| bit (Enabled w && Avoid w) (1 .<< (8 + Z.of_nat i)).
Proof.
  unfold windowBits, channelBit. destruct (Enabled w), (Avoid w); cbn [bit andb]; rewrite ?Z.lor_0_r; [done..| |];
    by rewrite Z.shiftl_0_l.
Qed.

(** What a valid configuration's windows satisfy. *)
Definition sane (w : ZoneWindow) : Prop :=
  fits 8 (Hi w) /\ fits 8 (Lo w) /\ fits 1 (channelBit w) /\
  (Enabled w = true -> -1000 <= Start w <= 1000 /\ -1000 <= End_ w <= 1000).

Lemma validate_sane z : wf z -> anyEnabled z = true -> validate z = None -> Forall sane (Zones z).
Proof.
  intros (_ & Hwf & Hwait & _) He. unfold validate. rewrite He. simpl (negb _). cbv iota.
  case_match; [done|]. case_match eqn:Hout; [done|]. intros _.
  apply Forall_forall. intros w Hw. rewrite Forall_forall in Hwf.
  destruct (Hwf w Hw) as (Hc & Hl & Hh & _).
  assert (outside z w = false) as Ho.
  { destruct (outside z w) eqn:Ho; [|done]. rewrite <- Hout. symmetry. apply existsb_exists.
    exists w. split; [by apply list_elem_of_In|done]. }
  unfold sane, channelBit. destruct (Enabled w) eqn:Hwe; cbn [bit]; [|done].
  apply window_inside in Ho as (? & ? & ?); [|done|lia].
  split_and!; [done|done| |done]. width 1 (Channel w). done.
Qed.

Lemma registers_zones z f i w :
  wf z -> anyEnabled z = true -> validate z = None -> Zones z !! i = Some w ->
  zoneRuns (written (registers z) f) i w.
Proof.
  intros Hwf He Hv Hi. assert (Hsane := validate_sane z Hwf He Hv). destruct Hwf as (Hlen & _).
  clear He Hv. destruct z as [zs wt bk]; cbn [Zones] in *.
  assert (Hlt := lookup_lt_Some _ _ _ Hi).
  destruct zs as [|w0 [|w1 [|w2 [|w3 []]]]]; try discriminate Hlen. cbn [length] in Hlt. clear Hlen.
  unfold registers. cbn [Zones]. rewrite !imap4, !written_app. cbn [fold_left].
  rewrite !windowBits_flags.
  rewrite !Forall_cons in Hsane.
  destruct Hsane as ((? & ? & ? & ?) & (? & ? & ? & ?) & (? & ? & ? & ?) & (? & ? & ? & ?) & _).
  destruct i as [|[|[|[|i]]]]; [..|lia]; injection Hi as <-;
    (apply zoneRuns_intro; try assumption);
    try (cbn [written fold_left fst snd]; unfold flag; cbn - [bits u16 Z.shiftl Z.lor]; by bits_tac).
  all: intros Hwe; unfold windowRegs; rewrite Hwe;
    destruct (Enabled w0), (Enabled w1), (Enabled w2), (Enabled w3); done.
Qed.

Lemma registers_timing z f :
  wf z -> anyEnabled z = true -> validate z = None ->
  bits (written (registers z) f 84) 0 11 = Wait z /\ bits (written (registers z) f 85) 0 12 = Bucket z - 1.
Proof.
  intros (Hlen & _ & Hwait & Hbucket) He. unfold validate. rewrite He. simpl (negb _). cbv iota.
  case_match; [done|]. case_match; [done|]. intros _.
  width 11 (Wait z). width 12 (Bucket z - 1).
  destruct z as [zs wt bk]; cbn [Zones Wait Bucket] in *.
  destruct zs as [|w0 [|w1 [|w2 [|w3 []]]]]; try discriminate Hlen.
  unfold registers. cbn [Zones Wait Bucket]. rewrite !imap4, !written_app. unfold windowRegs.
  split; [replace (written _ _ 84) with wt | replace (written _ _ 85) with (u16 (bk - 1))];
    try (by bits_tac);
    destruct (Enabled w0), (Enabled w1), (Enabled w2), (Enabled w3); done.
Qed.

(** a valid zone configuration that is configured is the one the FPGA's
    zone block tests: each enabled window's channel, codes, side and signed
    bounds, the wait and the bucket length; with no window enabled the block
    is left alone or every zone is off. *)
Theorem configureZones_fabric {E : Env} revision z s a s' f :
  wf z -> validate z = None -> queueOk s -> configureZones revision z s = (Ret a, s') ->
  exists regs, issued s' = issued s ++ regs /\
    let g := written regs f in
    if anyEnabled z then
      (forall i w, Zones z !! i = Some w -> zoneRuns g i w) /\
      bits (g 84) 0 11 = Wait z /\ bits (g 85) 0 12 = Bucket z - 1
    else regs = [] \/ bits (g 83) 0 4 = 0.
Proof.
  intros Hw Hv Hq H. apply configureZones_configured in H as [_ H]; [|done].
  destruct (anyEnabled z) eqn:He.
  - exists (registers z). split; [done|]. cbv zeta. split.
    + intros i w. by apply registers_zones.
    + by apply registers_timing.
  - destruct H as [H|H]; [exists []; rewrite app_nil_r|exists [(83, 0)]]; auto.
Qed.
End Zone.
