(* ===== verification/TrigSymbol.v ===== *)
(** * The symbol trigger's table and block, and the event-sequence trigger

    src/app/internal/sramcapture/symbol.go and sequence.go. Both fabrics hold
    a memory the host fills through an address register and a data register,
    so their ports are state machines over the host's writes; a port's state
    after a run is the one the configuration names. *)
From S2P Require Import Prelude Machine Fabric Bus.

(** ** Memories filled through a stepping address *)

(** Entry [i] of the memory becomes [v]. *)
Definition store {A} (i : Z) (v : A) (m : Z -> A) : Z -> A := fun x => if x =? i then v else m x.

Module Symbol.
Definition SymbolClocked : Z := 3.
Definition SymbolTableSize : Z := 2048.
Definition symbolCapability : Z := 76.
Definition symbolMatches : Z := 78.
Definition symbolLoaded : Z := 98.
Definition symbolBlock : Z := 0x5359.

Record SymbolTriggerConfig := {
  Enabled : bool;
  Channel : Z;
  InvA : bool;
  InvB : bool;
  AndAB : bool;
  ClockFall : bool;
  TwoLines : bool;
  Mode : Z;
  LeadLen : Z;
  Prescale : Z;
  UnitQ8 : Z;
  FrameUnits : Z;
  Period : Z;
  Phase0 : Z;
  K : Z;
  Pattern : Z;
  Mask : Z;
  Table : list Z
}.
Definition wf (p : SymbolTriggerConfig) : Prop :=
  fits 8 (Channel p) /\ fits 8 (Mode p) /\ fits 8 (LeadLen p) /\ fits 8 (Prescale p) /\ fits 32 (UnitQ8 p) /\
  fits 8 (FrameUnits p) /\ fits 8 (Period p) /\ fits 8 (Phase0 p) /\ fits 16 (K p) /\
  fits 64 (Pattern p) /\ fits 64 (Mask p) /\
  Z.of_nat (length (Table p)) = SymbolTableSize /\ isBytes (Table p).

Definition validate (p : SymbolTriggerConfig) : option err :=
  if negb (Enabled p) then None
  else if (1 <? Channel p) || (SymbolClocked <? Mode p) || (4 <? LeadLen p) || (7 <? Prescale p) ||
          (UnitQ8 p <? 2048) || (2 ^ 28 <=? UnitQ8 p) || (63 <? FrameUnits p) || (63 <? Period p) ||
          (63 <? Phase0 p) || (negb (Period p =? 0) && (Period p <=? Phase0 p)) || (1023 <? K p)
  then Some (EMsg "sramcapture: invalid hardware symbol trigger configuration" [])
  else None.

Definition control (p : SymbolTriggerConfig) : Z :=
  1 .| u16 (Channel p .<< 1) .| u16 (Mode p .<< 6) .| u16 (LeadLen p .<< 8) .| u16 (Prescale p .<< 11)
    .| bit (InvA p) 4 .| bit (InvB p) 8 .| bit (AndAB p) 16 .| bit (ClockFall p) 32.

(** SymbolRegisters: the block's writes after its table, the control last. *)
Definition SymbolRegisters (p : SymbolTriggerConfig) : list (Z * Z) :=
  [(94, UnitQ8 p .& 0xffff); (95, u16 (UnitQ8 p .>> 16));
   (96, u16 (Period p .<< 8) .| FrameUnits p); (97, u16 (Phase0 p .<< 10) .| K p);
   (101, Pattern p .& 0xffff); (102, (Pattern p .>> 16) .& 0xffff);
   (103, (Pattern p .>> 32) .& 0xffff); (104, u16 (Pattern p .>> 48));
   (105, Mask p .& 0xffff); (106, (Mask p .>> 16) .& 0xffff);
   (107, (Mask p .>> 32) .& 0xffff); (108, u16 (Mask p .>> 48));
   (93, control p)].

(** The table load. *)
Definition tableRegs (t : list Z) : list (Z * Z) :=
  [(98, 0); (99, 0)] ++ map (fun v => (100, v)) t ++ [(98, 1)].

Section ops.
Context {E : Env}.

Definition SupportsSymbol : M bool := v ← read symbolCapability; mret (v =? symbolBlock).
Definition SymbolMatches : M Z := read symbolMatches.

Definition loadTable (p : SymbolTriggerConfig) : M unit :=
  modify (set_symbolTableOK false);;
  writeMany (tableRegs (Table p));;
  modify (set_symbolTable (Table p));;
  modify (set_symbolTableOK true).

Definition configureSymbol (revision : Z) (p : SymbolTriggerConfig) : M unit :=
  capability ← (if 10 <=? revision then read symbolCapability else mret 0);
  if negb (capability =? symbolBlock) then
    guard (Enabled p) (EMsg "sramcapture: fabric lacks the hardware symbol trigger" [])
  else if negb (Enabled p) then write 93 0
  else
    write 93 0;;
    loaded ← read symbolLoaded;
    stale ← gets (fun s => (loaded .& 1 =? 0) || negb (symbolTableOK s) || negb (bool_decide (symbolTable s = Table p)));
    (if (stale : bool) then loadTable p else mret tt);;
    writeMany (SymbolRegisters p).
End ops.

(** *** The fabric's block *)

(** top.v: 98 sets the loaded flag, 99 the 11-bit address, 100 an entry at
    the address, which steps. *)
Record Memory := { address : Z; entries : Z -> Z; isLoaded : bool }.
Definition memoryStep (m : Memory) (r : Z * Z) : Memory :=
  if r.1 =? 98 then {| address := address m; entries := entries m; isLoaded := flag r.2 0 |}
  else if r.1 =? 99 then {| address := bits r.2 0 11; entries := entries m; isLoaded := isLoaded m |}
  else if r.1 =? 100 then
    {| address := bits (address m + 1) 0 11; entries := store (address m) (bits r.2 0 8) (entries m);
       isLoaded := isLoaded m |}
  else m.
Definition memory (m : Memory) (regs : list (Z * Z)) : Memory := fold_left memoryStep regs m.

(** The memory holds the table [t]. *)
Definition holds (m : Memory) (t : list Z) : Prop := forall i v, t !! i = Some v -> entries m (Z.of_nat i) = v.

Lemma table_app m r1 r2 : memory m (r1 ++ r2) = memory (memory m r1) r2.
Proof. apply fold_left_app. Qed.

(** The writes of other registers. *)
Definition elsewhere (r : Z * Z) : Prop := r.1 <> 98 /\ r.1 <> 99 /\ r.1 <> 100.
Lemma table_elsewhere m regs : Forall elsewhere regs -> memory m regs = m.
Proof.
  intros H. revert m. induction H as [|r regs (H1 & H2 & H3) _ IH]; intros m; [done|]. simpl.
  rewrite IH. unfold memoryStep. by rewrite !(proj2 (Z.eqb_neq _ _)).
Qed.

(** Entries written from an address that stays in range. *)
Lemma table_entries t m :
  isBytes t -> 0 <= address m -> address m + Z.of_nat (length t) <= 2048 ->
  let m' := memory m (map (fun v => (100, v)) t) in
  isLoaded m' = isLoaded m /\
  forall x, entries m' x =
    if (address m <=? x) && (x <? address m + Z.of_nat (length t))
    then default 0 (t !! Z.to_nat (x - address m)) else entries m x.
Proof.
  intros Ht. revert m. induction Ht as [|v t Hv Ht IH]; intros m H0 Hn; cbv zeta.
  { split; [done|]. intros x. cbn [length]. rewrite Nat2Z.inj_0, Z.add_0_r. destruct (_ && _) eqn:Hc; [lia|done]. }
  cbn [length] in Hn. cbn [map memory fold_left]. fold (memory (memoryStep m (100, v)) (map (fun v => (100, v)) t)).
  set (m1 := memoryStep m (100, v)).
  assert (t = [] \/ address m1 = address m + 1) as Ha.
  { destruct t; [by left|right]. cbn [length] in Hn. apply bits_self; [|lia].
    unfold fits. change (2 ^ 11) with 2048. lia. }
  destruct Ha as [->|Ha].
  - split; [done|]. intros x. simpl. change (Z.of_nat 1) with 1. unfold store.
    rewrite bits_self by (done || lia).
    destruct (Z.eqb_spec x (address m)) as [->|Hx].
    + rewrite Z.sub_diag. destruct (_ && _) eqn:Hc; [done|lia].
    + destruct (_ && _) eqn:Hc; [lia|done].
  - destruct (IH m1) as [Hl He]; [lia..|]. split; [by rewrite Hl|]. intros x. rewrite He, Ha.
    unfold m1 at 1, memoryStep. simpl (entries _). unfold store. rewrite bits_self by (done || lia).
    cbn [length]. rewrite Nat2Z.inj_succ.
    destruct (Z.eqb_spec x (address m)) as [->|Hx].
    + rewrite Z.sub_diag. case_match; [blia|]. case_match; [done|blia].
    + do 2 case_match; [|blia..|done].
      replace (Z.to_nat (x - address m)) with (S (Z.to_nat (x - (address m + 1)))) by blia. done.
Qed.

Lemma table_loaded t m :
  isBytes t -> Z.of_nat (length t) <= SymbolTableSize ->
  holds (memory m (tableRegs t)) t /\ isLoaded (memory m (tableRegs t)) = true.
Proof.
  unfold SymbolTableSize. intros Ht Hn. unfold tableRegs. rewrite !table_app.
  set (m0 := memory m [(98, 0); (99, 0)]).
  assert (address m0 = 0) as H0 by done.
  destruct (table_entries t m0 Ht) as [_ He]; [lia..|]. split; [|done].
  intros i v Hi. change (entries (memory ?m [(98, 1)])) with (entries m). rewrite He, H0, Z.sub_0_r.
  apply lookup_lt_Some in Hi as Hlt. case_match; [|blia]. by rewrite Nat2Z.id, Hi.
Qed.

(** top.v's block settings. *)
Record Port := {
  enabled : bool; channel : Z; inv_a : bool; inv_b : bool; and_ab : bool; clk_fall : bool; mode : Z;
  lead_len : Z; prescale : Z; unit_q8 : Z; frame_units : Z; period : Z; phase0 : Z; k : Z;
  pattern : Z; mask : Z
}.
Definition port (f : Z -> Z) : Port :=
  {| enabled := flag (f 93) 0; channel := bits (f 93) 1 1; inv_a := flag (f 93) 2; inv_b := flag (f 93) 3;
     and_ab := flag (f 93) 4; clk_fall := flag (f 93) 5; mode := bits (f 93) 6 2;
     lead_len := bits (f 93) 8 3; prescale := bits (f 93) 11 3; unit_q8 := wide (f 94) (f 95) 28;
     frame_units := bits (f 96) 0 6; period := bits (f 96) 8 6; phase0 := bits (f 97) 10 6; k := bits (f 97) 0 10;
     pattern := quad (f 101) (f 102) (f 103) (f 104); mask := quad (f 105) (f 106) (f 107) (f 108) |}.
Definition run (p : SymbolTriggerConfig) : Port :=
  {| enabled := true; channel := Channel p; inv_a := InvA p; inv_b := InvB p; and_ab := AndAB p;
     clk_fall := ClockFall p; mode := Mode p; lead_len := LeadLen p; prescale := Prescale p; unit_q8 := UnitQ8 p;
     frame_units := FrameUnits p; period := Period p; phase0 := Phase0 p; k := K p;
     pattern := Pattern p; mask := Mask p |}.

Lemma symbol_port_registers p f :
  wf p -> Enabled p = true -> validate p = None -> port (written (SymbolRegisters p) f) = run p.
Proof.
  intros (Hch & Hmo & Hll & Hps & Hu & Hfu & Hpe & Hph & Hk & Hpat & Hmask & _) He. unfold validate.
  rewrite He. simpl (negb _). cbv iota. unfold SymbolClocked. intros Hv. case_match; [done|]. clear Hv.
  width 1 (Channel p). width 2 (Mode p). width 3 (LeadLen p). width 3 (Prescale p). width 28 (UnitQ8 p).
  width 6 (FrameUnits p). width 6 (Period p). width 6 (Phase0 p). width 10 (K p).
  clear Hch Hmo Hll Hps Hu Hfu Hpe Hph Hk.
  unfold port, run, flag. cbn -[wide quad]. unfold control.
  rewrite wide_split, !quad_split by (done || lia). f_equal; by bits_tac.
Qed.

Lemma SymbolRegisters_elsewhere p : Forall elsewhere (SymbolRegisters p).
Proof. unfold SymbolRegisters. repeat constructor; simpl; lia. Qed.

(** *** Host and fabric agree on the table *)

Section table.
Context {E : Env}.
(** The memory before the host's first write. *)
Variable m0 : Memory.
(** Register 98 reads the flag back (top.v). *)
Hypothesis flag_read : forall h x,
  env_Read h symbolLoaded = inl x -> flag x 0 = isLoaded (memory m0 (writesOf h)).

(** The host's copy of the table is the fabric's, while the fabric has one. *)
Definition cacheOk (s : capture) : Prop :=
  symbolTableOK s = true -> isLoaded (memory m0 (issued s)) = true ->
  holds (memory m0 (issued s)) (symbolTable s).

Lemma cacheOk_elsewhere s s' regs :
  issued s' = issued s ++ regs -> Forall elsewhere regs -> sameSettings s s' -> cacheOk s -> cacheOk s'.
Proof.
  unfold cacheOk, sameSettings. intros Hi Hr Hs Hc. destruct_and! Hs.
  rewrite Hi, table_app, table_elsewhere by done.
  intros Hok Hl. replace (symbolTable s') with (symbolTable s) by congruence. apply Hc; congruence.
Qed.

Lemma land1 x : u16 x .& 1 = bits x 0 1.
Proof.
  change (u16 x .& 1) with (u16 x .& Z.ones 1). rewrite <- (Z.shiftr_0_r (u16 x)).
  change (bits (u16 x) 0 1 = bits x 0 1). by rewrite bits_u16 by lia.
Qed.
Lemma land1_flag x : (u16 x .& 1 =? 0) = negb (flag x 0).
Proof.
  rewrite land1. unfold flag. destruct (fits_bits x 0 1); [lia..|]. change (2 ^ 1) with 2 in *.
  destruct (Z.eqb_spec (bits x 0 1) 0), (Z.eqb_spec (bits x 0 1) 1); (done || lia).
Qed.

Lemma sameSettings_write sel v s a s' : write sel v s = (Ret a, s') -> sameSettings s s'.
Proof.
  unfold write. intros H. apply bind_Ret_inv in H as (q & s1 & Hg & H). injection Hg as Hq <-.
  destruct q; [by inv_ret H|]. by apply busWrite_Ret in H as (_ & _ & ?).
Qed.
Lemma sameSettings_writeMany regs s a s' : writeMany regs s = (Ret a, s') -> sameSettings s s'.
Proof.
  unfold writeMany. intros H. apply bind_Ret_inv in H as (q & s1 & Hg & H). injection Hg as Hq <-.
  destruct q; [by inv_ret H|]. by apply sendMany_Ret in H as (_ & _ & ?).
Qed.

(** A load: the memory holds the new table, and the host's copy says so. *)
Lemma loadTable_Ret p s a s' :
  wf p -> queueOk s -> loadTable p s = (Ret a, s') ->
  queueOk s' /\ issued s' = issued s ++ tableRegs (Table p) /\ symbolTable s' = Table p /\ symbolTableOK s' = true.
Proof.
  intros Hw Hq H. unfold loadTable in H.
  apply bind_Ret_inv in H as ([] & s1 & H1 & H). injection H1 as <-.
  apply bind_Ret_inv in H as ([] & s2 & H2 & H).
  assert (queueOk (set_symbolTableOK false s)) as Hq1 by exact Hq.
  apply issues_writeMany in H2 as [Hq2 Hi]; [|done]. inv_ret H. split_and!; [exact Hq2|exact Hi|done..].
Qed.

(** The table as the enable finds it: just loaded, or still the host's. *)
Lemma table_ready p loaded s a s' :
  wf p -> queueOk s -> cacheOk s -> (loaded .& 1 =? 0) = negb (isLoaded (memory m0 (issued s))) ->
  (stale ← gets (fun s => (loaded .& 1 =? 0) || negb (symbolTableOK s) || negb (bool_decide (symbolTable s = Table p)));
   if (stale : bool) then loadTable p else mret tt) s = (Ret a, s') ->
  queueOk s' /\ (exists regs, issued s' = issued s ++ regs) /\
  symbolTable s' = Table p /\ symbolTableOK s' = true /\
  holds (memory m0 (issued s')) (Table p) /\ isLoaded (memory m0 (issued s')) = true.
Proof.
  intros Hw Hq Hc Hl H. apply bind_Ret_inv in H as (stale & s1 & H1 & H). injection H1 as <- <-.
  rewrite Hl in H. destruct (_ || _) eqn:Hs in H.
  - apply loadTable_Ret in H as (? & Hi & ? & ?); [|done..].
    split; [done|]. split; [by eexists|]. split; [done|]. split; [done|].
    rewrite Hi, table_app. destruct Hw as (_ & _ & _ & _ & _ & _ & _ & _ & _ & _ & _ & Hlen & Hb).
    apply table_loaded; [done|lia].
  - inv_ret H. rewrite !orb_false_iff, !negb_false_iff, bool_decide_eq_true in Hs.
    destruct Hs as ((Hld & Hok) & Ht). split_and!; [done|by exists []; rewrite app_nil_r|done..| |done].
    rewrite <- Ht. by apply Hc.
Qed.

End table.
End Symbol.

Module Sequence.
Definition SequenceError : Z := 4.
Definition SequenceMax : Z := 32.

Record SequenceElement := { Kind : Z; Value : Z; Mask : Z }.
Record SequenceTriggerConfig := {
  Length : Z;
  Qualify : bool;
  EndBadValue : bool;
  Elements : list SequenceElement
}.
Definition wfElement (e : SequenceElement) : Prop := fits 8 (Kind e) /\ fits 32 (Value e) /\ fits 32 (Mask e).
Definition wf (p : SequenceTriggerConfig) : Prop :=
  fits 8 (Length p) /\ Z.of_nat (length (Elements p)) = SequenceMax /\ Forall wfElement (Elements p).

(** p.Elements[:p.Length] *)
Definition used (p : SequenceTriggerConfig) : list SequenceElement := take (Z.to_nat (Length p)) (Elements p).

Definition validate (p : SequenceTriggerConfig) : option err :=
  if SequenceMax <? Length p
  then Some (EMsg "sramcapture: a sequence trigger holds at most %d elements" [SequenceMax])
  else
    match find (fun e => SequenceError <? Kind e) (used p) with
    | Some e => Some (EMsg "sramcapture: invalid sequence element kind %d" [Kind e])
    | None => None
    end.

Definition elementRegs (k : nat) (e : SequenceElement) : list (Z * Z) :=
  [(119, u16 (Z.of_nat k)); (120, Value e .& 0xffff); (121, u16 (Value e .>> 16));
   (122, Mask e .& 0xffff); (123, u16 (Mask e .>> 16)); (124, Kind e)].
Definition elementsRegs (p : SequenceTriggerConfig) : list (Z * Z) := concat (imap elementRegs (used p)).
Definition control (p : SequenceTriggerConfig) : Z :=
  Length p .| bit (Qualify p) 64 .| bit (EndBadValue p) 128.

Section ops.
Context {E : Env}.

Definition sequenceCapability : M bool :=
  revision ← read 13;
  if negb (revision =? 10) then mret false
  else
    identity ← read 73;
    if negb (identity =? 0x5201) then mret false
    else v ← read 118; mret (v =? 0x5351).

Definition SupportsSequence : M bool := sequenceCapability.

Definition SequenceOnly : M bool :=
  present ← sequenceCapability;
  if negb present then mret false
  else v ← read 47; mret (v =? 0x534f).

Definition configureSequence (p : SequenceTriggerConfig) : M unit :=
  present ← sequenceCapability;
  if negb present then
    guard (negb (Length p =? 0)) (EMsg "sramcapture: fabric lacks the sequence trigger" [])
  else
    write 118 0;;
    if Length p =? 0 then mret tt
    else if SequenceMax <? Length p then panic (* the slice of a [32] array *)
    else
      writeMany (elementsRegs p);;
      write 118 (control p).

Lemma issues_sequenceCapability : issues sequenceCapability [].
Proof. unfold sequenceCapability. issues_tac. Qed.
End ops.

(** top.v's element memory: 119 the address, 120 to 123 the value and the
    mask, and a write of 124 stores them with the kind. *)
Record Memory := { address : Z; value : Z; mask : Z; elements : Z -> Z * Z * Z }.
Definition memoryStep (m : Memory) (r : Z * Z) : Memory :=
  let lo v := bits r.2 0 16 .| (bits v 16 16 .<< 16) in
  let hi v := bits v 0 16 .| (bits r.2 0 16 .<< 16) in
  if r.1 =? 119 then {| address := bits r.2 0 5; value := value m; mask := mask m; elements := elements m |}
  else if r.1 =? 120 then {| address := address m; value := lo (value m); mask := mask m; elements := elements m |}
  else if r.1 =? 121 then {| address := address m; value := hi (value m); mask := mask m; elements := elements m |}
  else if r.1 =? 122 then {| address := address m; value := value m; mask := lo (mask m); elements := elements m |}
  else if r.1 =? 123 then {| address := address m; value := value m; mask := hi (mask m); elements := elements m |}
  else if r.1 =? 124 then
    {| address := address m; value := value m; mask := mask m;
       elements := store (address m) (bits r.2 0 3, mask m, value m) (elements m) |}
  else m.
Definition memory (m : Memory) (regs : list (Z * Z)) : Memory := fold_left memoryStep regs m.
Lemma elements_app m r1 r2 : memory m (r1 ++ r2) = memory (memory m r1) r2.
Proof. apply fold_left_app. Qed.

Record Port := { length_ : Z; qualify : bool; end_bad_value : bool }.
Definition port (f : Z -> Z) : Port :=
  {| length_ := bits (f 118) 0 6; qualify := flag (f 118) 6; end_bad_value := flag (f 118) 7 |}.

(** A 32-bit register written in two halves, whatever it held. *)
Lemma halves v old :
  fits 32 v ->
  bits (bits (v .& 0xffff) 0 16 .| (bits old 16 16 .<< 16)) 0 16 .| (bits (u16 (v .>> 16)) 0 16 .<< 16) = v.
Proof.
  intros Hv. change (v .& 0xffff) with (bits v 0 16).
  assert (fits 16 (bits v 0 16)) by (apply fits_bits; lia).
  rewrite (bits_self (bits v 0 16)) by (done || lia). rewrite bits_lor, bits_below, Z.lor_0_r by lia.
  rewrite (bits_self (bits v 0 16)) by (done || lia). rewrite bits_u16 by lia.
  rewrite <- (bits_split v 16 32) at 3 by (done || lia). by do 2 f_equal.
Qed.

Lemma memory_element m k e :
  wfElement e -> Kind e <= SequenceError -> (k < 32)%nat ->
  elements (memory m (elementRegs k e)) = store (Z.of_nat k) (Kind e, Mask e, Value e) (elements m).
Proof.
  intros (Hk & Hv & Hm) Hk4 Hlt. unfold SequenceError in Hk4. width 3 (Kind e).
  assert (fits 5 (Z.of_nat k)) by (apply fits_bound; simpl; lia).
  unfold elementRegs. cbn -[Z.of_nat store]. rewrite !halves by done.
  rewrite bits_u16 by lia. by rewrite !bits_self by (done || lia).
Qed.

Definition stored (e : SequenceElement) : Z * Z * Z := (Kind e, Mask e, Value e).

Lemma memory_cons m (n : nat) e l :
  memory m (concat (imap (fun i => elementRegs (n + i)) (e :: l))) =
  memory (memory m (elementRegs n e)) (concat (imap (fun i => elementRegs (S n + i)) l)).
Proof.
  cbn [imap concat]. rewrite elements_app, Nat.add_0_r.
  by rewrite (imap_ext _ (fun i => elementRegs (S n + i))) by (intros; simpl; f_equal; lia).
Qed.

(** Later elements leave an entry alone. *)
Lemma memory_keeps l k n m :
  Forall wfElement l -> Forall (fun e => Kind e <= SequenceError) l -> (k < n)%nat -> (n + length l <= 32)%nat ->
  elements (memory m (concat (imap (fun i => elementRegs (n + i)) l))) (Z.of_nat k) = elements m (Z.of_nat k).
Proof.
  intros Hw. revert n m. induction Hw as [|e l He Hw IH]; intros n m Hk Hlt Hn; [done|].
  apply Forall_cons in Hk as [Hk0 Hk]. cbn [length] in Hn.
  rewrite memory_cons, IH, memory_element by (done || lia).
  unfold store. by rewrite (proj2 (Z.eqb_neq _ _)) by lia.
Qed.

Lemma memory_elements l n m :
  Forall wfElement l -> Forall (fun e => Kind e <= SequenceError) l -> (n + length l <= 32)%nat ->
  forall k e, l !! k = Some e ->
    elements (memory m (concat (imap (fun i => elementRegs (n + i)) l))) (Z.of_nat (n + k)) = stored e.
Proof.
  revert n m. induction l as [|e0 l IH]; intros n m Hw Hk Hn k e He; [done|].
  apply Forall_cons in Hw as [Hw0 Hw]. apply Forall_cons in Hk as [Hk0 Hk]. cbn [length] in Hn.
  rewrite memory_cons. destruct k as [|k].
  - injection He as ->. rewrite Nat.add_0_r.
    rewrite memory_keeps by (done || lia). rewrite memory_element by (done || lia). unfold store. by rewrite Z.eqb_refl.
  - replace (n + S k)%nat with (S n + k)%nat by lia. by apply IH; [..|lia|].
Qed.

Lemma validate_kinds p :
  validate p = None -> Length p <= SequenceMax /\ Forall (fun e => Kind e <= SequenceError) (used p).
Proof.
  unfold validate. destruct (SequenceMax <? Length p) eqn:Hl; [done|].
  destruct (find _ (used p)) eqn:Hf; [done|]. intros _. split; [blia|].
  apply Forall_forall. intros e He. apply list_elem_of_In in He.
  pose proof (find_none _ _ Hf e He) as Hn. simpl in Hn. lia.
Qed.

(** the sequence trigger the FPGA matches is the one configured: after a
    successful configure step the first [Length] entries of the element
    memory are the elements' kinds, masks and values, whatever the memory
    held, and the control word gives their number and the frame rules; an
    empty sequence turns the block off, or leaves a fabric without it alone. *)
Theorem configureSequence_fabric {E : Env} p s s' m f :
  wf p -> validate p = None -> queueOk s -> configureSequence p s = (Ret tt, s') ->
  exists regs, issued s' = issued s ++ regs /\
    if Length p =? 0 then regs = [] \/ length_ (port (written regs f)) = 0
    else
      port (written regs f) = {| length_ := Length p; qualify := Qualify p; end_bad_value := EndBadValue p |} /\
      forall k e, used p !! k = Some e -> elements (memory m regs) (Z.of_nat k) = stored e.
Proof.
  intros (Hl8 & Hlen & Hwf) Hv Hq H. apply validate_kinds in Hv as [Hl Hk].
  assert (configured (negb (Length p =? 0)) ((118, 0) :: elementsRegs p ++ [(118, control p)]) [(118, 0)] s s') as [_ Hi].
  { unfold configureSequence in H.
    eapply configured_then; [apply issues_sequenceCapability|done|exact H|]. clear s Hq H.
    intros present s Hq H. destruct present; simpl in H; [|by eapply configured_absent].
    destruct (Length p =? 0).
    - eapply configured_off; [done| |exact Hq|exact H]. apply issues_write_then. auto with issues.
    - rewrite (proj2 (Z.ltb_ge _ _) Hl) in H.
      eapply configured_on; [done| |exact Hq|exact H]. apply issues_write_then.
      apply issues_bind; [apply issues_writeMany|intros _; apply issues_write]. }
  destruct (Z.eqb_spec (Length p) 0) as [H0|H0]; simpl in Hi.
  { destruct Hi as [Hi|Hi]; [exists []; rewrite app_nil_r|exists [(118, 0)]]; auto. }
  eexists; split; [exact Hi|]. split.
  - unfold SequenceMax in *. width 6 (Length p). rewrite app_comm_cons, written_app. unfold port. cbn -[written]. cbn [written fold_left fst snd].
    simpl (118 =? 118). cbv iota. unfold control, flag. f_equal; by bits_tac.
  - intros k e He. rewrite app_comm_cons, elements_app.
    change (elements (memory ?m [(118, control p)])) with (elements m).
    assert (Forall wfElement (used p)) as Hwu by by apply Forall_take.
    apply (memory_elements (used p) 0 (memoryStep m (118, 0))); [done..| |done].
    unfold used. rewrite length_take. unfold SequenceMax in *. lia.
Qed.
End Sequence.
