(* ===== verification/Status.v ===== *)
(** * Capture state: the record's metadata, its identity and sample timeline

    The status half of src/app/internal/sramcapture/capture.go: New, Status,
    Poll, sampleTimeline and the check that a described record is still the
    frozen one (sameFrozen). Reads go through [readMany], whatever the bus
    offers; a fabric that holds its registers still while it is read is the
    hypothesis [answers]. *)
From Stdlib Require Import QArith_base.
From S2P Require Import Prelude Machine Fabric Bus.
Local Open Scope Z_scope.

Definition Words : Z := 2 ^ 19.
Definition Bytes : Z := Words * 4.
Definition FabricID : Z := 0x5a52.
Definition QualifiedMapID : Z := 0xe192.
Definition addressMask : Z := Words - 1.

(** SampleRateHz is a float64 that only ever holds 10^8 or 5*10^8 over a power
    of two up to 2^20: exact, so a rational. *)
Record Metadata := {
  HasSampleTimeline : bool;
  SampleFirst : Z;
  SampleLast : Z;
  RecordID : Z;
  EventEpoch : Z;
  HasRecordIdentity : bool;
  Locked : bool;
  Ready : bool;
  Running : bool;
  Frozen : bool;
  Triggered : bool;
  Prefetched : bool;
  Length : Z;
  Start : Z;
  TriggerIndex : Z;
  Position : Z;
  Origin : Z;
  Revision : Z;
  MapID : Z;
  SampleRateHz : Q;
  Decimation : Z;
  SampleBits : Z;
  FractionBits : Z;
  SamplesPerWord : Z;
  Interleaved : bool;
  DataFault : bool;
  HostTrigger : bool
}.
Definition withIdentity (id epoch : Z) (m : Metadata) : Metadata :=
  {| HasSampleTimeline := HasSampleTimeline m; SampleFirst := SampleFirst m; SampleLast := SampleLast m;
     RecordID := id; EventEpoch := epoch; HasRecordIdentity := true; Locked := Locked m; Ready := Ready m;
     Running := Running m; Frozen := Frozen m; Triggered := Triggered m; Prefetched := Prefetched m; Length :=
     Length m; Start := Start m; TriggerIndex := TriggerIndex m; Position := Position m; Origin := Origin m;
     Revision := Revision m; MapID := MapID m; SampleRateHz := SampleRateHz m; Decimation := Decimation m;
     SampleBits := SampleBits m; FractionBits := FractionBits m; SamplesPerWord := SamplesPerWord m;
     Interleaved := Interleaved m; DataFault := DataFault m; HostTrigger := HostTrigger m |}.
Definition withRate (rate flags : Z) (m : Metadata) : Metadata :=
  {| HasSampleTimeline := HasSampleTimeline m; SampleFirst := SampleFirst m; SampleLast := SampleLast m;
     RecordID := RecordID m; EventEpoch := EventEpoch m; HasRecordIdentity := HasRecordIdentity m; Locked :=
     Locked m && has flags 2; Ready := Ready m; Running := Running m; Frozen := Frozen m; Triggered :=
     Triggered m; Prefetched := Prefetched m; Length := Length m; Start := Start m; TriggerIndex :=
     TriggerIndex m; Position := Position m; Origin := Origin m; Revision := Revision m; MapID := MapID m;
     SampleRateHz := (inject_Z rate * inject_Z 1000000)%Q; Decimation := Decimation m; SampleBits :=
     SampleBits m; FractionBits := FractionBits m; SamplesPerWord := SamplesPerWord m; Interleaved := true;
     DataFault := has flags 1; HostTrigger := HostTrigger m |}.
Definition withDecimation (log : Z) (m : Metadata) : Metadata :=
  {| HasSampleTimeline := HasSampleTimeline m; SampleFirst := SampleFirst m; SampleLast := SampleLast m;
     RecordID := RecordID m; EventEpoch := EventEpoch m; HasRecordIdentity := HasRecordIdentity m; Locked :=
     Locked m; Ready := Ready m; Running := Running m; Frozen := Frozen m; Triggered := Triggered m;
     Prefetched := Prefetched m; Length := Length m; Start := Start m; TriggerIndex := TriggerIndex m;
     Position := Position m; Origin := Origin m; Revision := Revision m; MapID := MapID m; SampleRateHz :=
     (SampleRateHz m / inject_Z (u32 (1 .<< log)))%Q; Decimation := u32 (1 .<< log); SampleBits := if log =? 0
     then SampleBits m else 16; FractionBits := if log =? 0 then FractionBits m else 8; SamplesPerWord := if
     log =? 0 then SamplesPerWord m else 1; Interleaved := Interleaved m; DataFault := DataFault m;
     HostTrigger := HostTrigger m |}.
Definition withTimeline (first last : Z) (m : Metadata) : Metadata :=
  {| HasSampleTimeline := true; SampleFirst := first; SampleLast := last; RecordID := RecordID m; EventEpoch
     := EventEpoch m; HasRecordIdentity := HasRecordIdentity m; Locked := Locked m; Ready := Ready m; Running
     := Running m; Frozen := Frozen m; Triggered := Triggered m; Prefetched := Prefetched m; Length := Length
     m; Start := Start m; TriggerIndex := TriggerIndex m; Position := Position m; Origin := Origin m; Revision
     := Revision m; MapID := MapID m; SampleRateHz := SampleRateHz m; Decimation := Decimation m; SampleBits
     := SampleBits m; FractionBits := FractionBits m; SamplesPerWord := SamplesPerWord m; Interleaved :=
     Interleaved m; DataFault := DataFault m; HostTrigger := HostTrigger m |}.

(** Registers read in batches; [r k] is the [k]-th of them. *)
Definition statusSels : list Z := [1; 2; 3; 4; 5; 6; 7; 8; 9; 10; 11; 13; 14].
Definition lateSels : list Z := [73; 15; 19; 28; 29].
Definition identitySels : list Z := [69; 70; 71; 72].
Definition timelineSels : list Z := [85; 86; 87; 88; 89; 90; 91; 92].

(** The first batch, with the defaults of a raw image. *)
Definition firstBatch (r : list Z) : Metadata :=
  let s := at_ r 0 in
  {| HasSampleTimeline := false; SampleFirst := 0; SampleLast := 0; RecordID := 0; EventEpoch := 0;
     HasRecordIdentity := false; Locked := has s 64; Ready := has s 4; Running := has s 8; Frozen := has s 16;
     Triggered := has s 32; Prefetched := has s 1024; Length := pair32 (at_ r 1) (at_ r 2);
     Start := pair32 (at_ r 3) (at_ r 4); TriggerIndex := pair32 (at_ r 5) (at_ r 6);
     Position := pair32 (at_ r 7) (at_ r 8); Origin := pair32 (at_ r 9) (at_ r 10); Revision := at_ r 11;
     MapID := at_ r 12; SampleRateHz := inject_Z 100000000; Decimation := 1; SampleBits := 8; FractionBits := 0;
     SamplesPerWord := 2; Interleaved := false; DataFault := false; HostTrigger := false |}.

Section status.
Context {E : Env}.

Definition sampleTimeline (m : Metadata) : M Metadata :=
  capability ← read 83;
  if negb (capability =? 0x5401) then mret m
  else
    valid ← read 84;
    if valid .& 1 =? 0 then mret m
    else
      t ← readMany timelineSels;
      let low := pair32 (at_ t 0) (at_ t 1) in
      let high := pair32 (at_ t 2) (at_ t 3) in
      let id := pair32 (at_ t 4) (at_ t 5) in
      let epoch := pair32 (at_ t 6) (at_ t 7) in
      guard (negb (id =? RecordID m) || negb (epoch =? EventEpoch m))
        (EMsg "sramcapture: sample timeline identity changed" []);;
      let lastWord := (high .<< 32) .| low in
      let span := u64 (2 * u32 (Length m - 1)) in
      guard ((Words <? Length m) || (lastWord <? span) || has lastWord 1)
        (EMsg "sramcapture: invalid raw sample timeline" []);;
      mret (withTimeline (u64 (lastWord - span)) (u64 (lastWord + 1)) m).

(** The record's identity, where the image has one. *)
Definition statusIdentity (late : list Z) (m : Metadata) : M Metadata :=
  if at_ late 0 =? 0x5201 then
    id ← readMany identitySels;
    mret (withIdentity (pair32 (at_ id 0) (at_ id 1)) (pair32 (at_ id 2) (at_ id 3)) m)
  else mret m.

(** What an image from revision 6 adds: the interleave rate and its faults. *)
Definition statusRate (haveLate : bool) (late : list Z) (m : Metadata) : M Metadata :=
  if 6 <=? Revision m then
    rate ← (if haveLate then mret (at_ late 1) else read 15);
    guard (negb (rate =? 500)) (EMsg "sramcapture: unknown interleave rate %d" [rate]);;
    flags ← (if haveLate then mret (at_ late 2) else read 19);
    mret (withRate rate flags m)
  else mret m.

(** What an image from revision 9 adds: the decimation and its format. *)
Definition statusFormat (haveLate : bool) (late : list Z) (m : Metadata) : M Metadata :=
  if 9 <=? Revision m then
    log ← (if haveLate then mret (at_ late 3) else read 28);
    bits ← (if haveLate then mret (at_ late 4) else read 29);
    guard (negb (log =? 0) && ((log <? 4) || (20 <? log))) (EMsg "sramcapture: invalid decimation %d" [log]);;
    let m := withDecimation log m in
    guard (negb (bits =? u16 (SampleBits m))) (EMsg "sramcapture: format mismatch %d" [bits]);;
    mret m
  else mret m.

Definition hasTimeline (m : Metadata) : bool :=
  (10 <=? Revision m) && Ready m && Frozen m && HasRecordIdentity m && Interleaved m &&
  (SamplesPerWord m =? 2) && negb (Length m =? 0).

Definition status : M Metadata :=
  r ← readMany statusSels;
  let m := firstBatch r in
  let haveLate := 10 <=? Revision m in
  late ← (if haveLate then readMany lateSels else mret [0; 0; 0; 0; 0]);
  m ← (if haveLate then statusIdentity late m else mret m);
  m ← statusRate haveLate late m;
  m ← statusFormat haveLate late m;
  if hasTimeline m then sampleTimeline m else mret m.

Definition Status : M Metadata := status.

(** Poll: the flags in one read. *)
Definition pollBatch (r : list Z) : Metadata :=
  let s := at_ r 0 in
  let late := 6 <=? at_ r 1 in
  {| HasSampleTimeline := false; SampleFirst := 0; SampleLast := 0; RecordID := 0; EventEpoch := 0;
     HasRecordIdentity := false; Locked := has s 64 && (negb late || has (at_ r 2) 2); Ready := has s 4;
     Running := has s 8; Frozen := has s 16; Triggered := has s 32; Prefetched := has s 1024; Length := 0;
     Start := 0; TriggerIndex := 0; Position := 0; Origin := 0; Revision := at_ r 1; MapID := 0;
     SampleRateHz := inject_Z 0; Decimation := 0; SampleBits := 0; FractionBits := 0; SamplesPerWord := 0;
     Interleaved := false; DataFault := late && has (at_ r 2) 1; HostTrigger := false |}.
Definition Poll : M Metadata := r ← readMany [1; 13; 19]; mret (pollBatch r).

(** New: a fresh capture once the fabric proves to be the SRAM image. *)
Definition New : M unit :=
  id ← read 0;
  guard (negb (id =? FabricID))
    (EMsg "sramcapture: fabric %04x, expected %04x (do not use the default fabric ABI)" [id; FabricID]);;
  rev ← read 13;
  guard (rev <? 4) (EMsg "sramcapture: revision %d lacks the corrected ADC map" [rev]);;
  m ← read 14;
  guard (negb (m =? QualifiedMapID)) (EMsg "sramcapture: unqualified ADC map %04x, expected %04x" [m; QualifiedMapID]);;
  modify (set_envelopeOn (rev =? 10)).

Definition uartLevels : Z := 0x5502.
Definition uartSamples : Z := 0x5503.
Definition SupportsUART : M bool :=
  revision ← read 13;
  if revision <? 10 then mret false
  else capability ← read 48; mret ((capability =? uartLevels) || (capability =? uartSamples)).
Definition SupportsSampleUART : M bool :=
  revision ← read 13;
  if revision <? 10 then mret false
  else capability ← read 48; mret (capability =? uartSamples).

(** sameFrozen: the record [m] describes is still the frozen one. *)
Definition sameRecord (m now : Metadata) : bool :=
  (Length now =? Length m) && (Start now =? Start m) && (Origin now =? Origin m) &&
  ((TriggerIndex now =? TriggerIndex m) || HostTrigger m) && (Revision now =? Revision m) &&
  (Decimation now =? Decimation m).
Definition sameFrozen (m : Metadata) : M Metadata :=
  if negb (HasRecordIdentity m) then
    now ← status;
    guard (negb (sameRecord m now)) (EMsg "sramcapture: retained record changed" []);;
    mret now
  else
    s ← read 1;
    guard ((s .& 4 =? 0) || (s .& 16 =? 0) || has s 8) (EMsg "sramcapture: record is not frozen" []);;
    record ← read32 69;
    epoch ← read32 71;
    guard (negb (record =? RecordID m) || negb (epoch =? EventEpoch m))
      (EMsg "sramcapture: retained record identity changed" []);;
    mret m.
End status.

(** ** What a reported record satisfies *)

(** The timeline of a raw record: two samples a word, ending on the last
    word's second sample. *)
Definition timelineOk (m : Metadata) : Prop :=
  0 < Length m <= Words /\ 0 <= SampleFirst m /\ SampleLast m < 2 ^ 64 /\
  SampleLast m = SampleFirst m + 2 * Length m - 1 /\ Z.even (SampleFirst m) = true.

Lemma rawTimeline L lastWord :
  0 < L <= Words -> fits 64 lastWord -> 2 * (L - 1) <= lastWord -> Z.odd lastWord = false ->
  let span := u64 (2 * u32 (L - 1)) in
  span = 2 * (L - 1) /\
  u64 (lastWord - span) = lastWord - 2 * (L - 1) /\ u64 (lastWord + 1) = lastWord + 1 /\ lastWord + 1 < 2 ^ 64.
Proof.
  unfold Words, fits. intros HL Hw Hs Hodd. cbv zeta.
  rewrite (u32_fits (L - 1)), (u64_fits (2 * (L - 1))) by (unfold fits; lia).
  assert (lastWord <> 2 ^ 64 - 1) by (intros ->; discriminate Hodd).
  rewrite !u64_fits by (unfold fits; lia). lia.
Qed.

Section status_facts.
Context {E : Env}.

Lemma sampleTimeline_Ret m s m' s' :
  armReady s = false -> 0 < Length m -> fits 32 (Length m) -> HasSampleTimeline m = false ->
  sampleTimeline m s = (Ret m', s') ->
  m' = m \/ exists f l, m' = withTimeline f l m /\ timelineOk m'.
Proof.
  intros Ha HL HL32 Hno H. unfold sampleTimeline in H.
  apply bind_Ret_inv in H as (cap & s1 & H1 & H). apply read_fits in H1 as [_ H1]; [|done].
  destruct (negb _); [inv_ret H; by left|].
  apply bind_Ret_inv in H as (valid & s2 & H2 & H).
  apply read_fits in H2 as [_ H2]; [|by destruct H1 as (_ & -> & _)].
  destruct (_ =? 0); [inv_ret H; by left|].
  apply bind_Ret_inv in H as (t & s3 & H3 & H).
  apply readMany_fits in H3 as (_ & Ht & _); [|by destruct H2 as (_ & -> & _); destruct H1 as (_ & -> & _)].
  cbv zeta in H. inv_ret H. right. do 2 eexists. split; [done|].
  set (low := pair32 (at_ t 0) (at_ t 1)) in *. set (high := pair32 (at_ t 2) (at_ t 3)) in *.
  assert (fits 32 low) by by apply fits_pair32; apply fits_at.
  assert (fits 32 high) by by apply fits_pair32; apply fits_at.
  assert (fits 64 ((high .<< 32) .| low)) as Hw by (rewrite Z.lor_comm; by apply (fits_lor_shl 32 32)).
  set (lastWord := (high .<< 32) .| low) in *. clearbody low high lastWord.
  rewrite !orb_false_iff, has_bit0 in Q0. destruct Q0 as ((HLw & Hspan) & Hodd).
  assert (Length m <= Words) by blia.
  assert (u64 (2 * u32 (Length m - 1)) = 2 * (Length m - 1)) as Hs.
  { unfold fits, Words in *. rewrite u32_fits, u64_fits; unfold fits; lia. }
  rewrite Hs in Hspan. assert (2 * (Length m - 1) <= lastWord) by blia.
  destruct (rawTimeline (Length m) lastWord) as (_ & Hf & Hl & Hmax); [lia|done..|].
  rewrite Hs in *. unfold timelineOk, withTimeline. cbn [Length SampleFirst SampleLast].
  rewrite Hf, Hl. split_and!; [lia..|].
  rewrite Z.even_sub, Z.even_mul, <- Z.negb_odd, Hodd. done.
Qed.

Lemma statusIdentity_Ret late m s m' s' :
  armReady s = false -> statusIdentity late m s = (Ret m', s') ->
  armReady s' = false /\ (m' = m \/ exists i e, m' = withIdentity i e m).
Proof.
  intros Ha H. unfold statusIdentity in H. destruct (_ =? _); [|inv_ret H; auto].
  apply bind_Ret_inv in H as (id & s1 & H1 & H).
  apply readMany_fits in H1 as (_ & _ & _ & Ha' & _); [|done]. inv_ret H. rewrite Ha'. eauto.
Qed.

(** A value from the late batch, or a read of its own register. *)
Lemma lateRead (haveLate : bool) v sel s x s' :
  armReady s = false -> (if haveLate then mret v else read sel) s = (Ret x, s') -> armReady s' = false.
Proof.
  intros Ha H. destruct haveLate; [by inv_ret H|]. apply read_fits in H as (_ & _ & Ha' & _); [|done].
  by rewrite Ha'.
Qed.

Lemma statusRate_Ret haveLate late m s m' s' :
  armReady s = false -> statusRate haveLate late m s = (Ret m', s') ->
  armReady s' = false /\ exists flags, m' = if 6 <=? Revision m then withRate 500 flags m else m.
Proof.
  intros Ha H. unfold statusRate in H. destruct (6 <=? Revision m).
  2: { inv_ret H. by split; [|exists 0]. }
  apply bind_Ret_inv in H as (rate & s1 & H1 & H). apply lateRead in H1; [|done].
  apply bind_Ret_inv in H as ([] & s2 & H2 & H). apply guard_Ret_inv in H2 as [Hr ->].
  apply bind_Ret_inv in H as (flags & s3 & H3 & H). apply lateRead in H3; [|done].
  inv_ret H. split; [done|]. exists flags. by replace rate with 500 by lia.
Qed.

Definition logOk (log : Z) : Prop := log = 0 \/ 4 <= log <= 20.

Lemma statusFormat_Ret haveLate late m s m' s' :
  armReady s = false -> statusFormat haveLate late m s = (Ret m', s') ->
  armReady s' = false /\ exists log, logOk log /\ m' = if 9 <=? Revision m then withDecimation log m else m.
Proof.
  intros Ha H. unfold statusFormat in H. destruct (9 <=? Revision m).
  2: { inv_ret H. split; [done|]. exists 0. split; [by left|done]. }
  apply bind_Ret_inv in H as (log & s1 & H1 & H). apply lateRead in H1; [|done].
  apply bind_Ret_inv in H as (bts & s2 & H2 & H). apply lateRead in H2; [|done].
  apply bind_Ret_inv in H as ([] & s3 & H3 & H). apply guard_Ret_inv in H3 as [Hl ->].
  cbv zeta in H. apply bind_Ret_inv in H as ([] & s4 & H4 & H). apply guard_Ret_inv in H4 as [_ ->].
  inv_ret H. split; [done|]. exists log. split; [unfold logOk; lia|done].
Qed.

(** The shape of every reported status: the first batch with the identity, the
    rate, the decimation and the timeline its revision and format add. *)
Lemma status_Ret s m s' :
  armReady s = false -> status s = (Ret m, s') ->
  exists r m1 flags log m3, length r = 13%nat /\ Forall (fits 16) r /\
    (m1 = firstBatch r \/ exists i e, m1 = withIdentity i e (firstBatch r)) /\ logOk log /\
    m3 = (let m2 := if 6 <=? at_ r 11 then withRate 500 flags m1 else m1 in
          if 9 <=? at_ r 11 then withDecimation log m2 else m2) /\
    (m = m3 \/ hasTimeline m3 = true /\ exists f l, m = withTimeline f l m3 /\ timelineOk m).
Proof.
  intros Ha H. unfold status in H. apply bind_Ret_inv in H as (r & s1 & H1 & H).
  apply readMany_fits in H1 as (Hlen & Hr & _ & Ha1 & _); [|done]. rewrite Ha in Ha1. cbv zeta in H.
  apply bind_Ret_inv in H as (late & s2 & H2 & H).
  assert (armReady s2 = false) as Ha2.
  { destruct (10 <=? _); [|by inv_ret H2]. apply readMany_fits in H2 as (_ & _ & _ & Ha2 & _); congruence. }
  apply bind_Ret_inv in H as (m1 & s3 & H3 & H).
  assert (armReady s3 = false /\ (m1 = firstBatch r \/ exists i e, m1 = withIdentity i e (firstBatch r)))
    as [Ha3 Hm1].
  { destruct (10 <=? _); [by eapply statusIdentity_Ret|]. inv_ret H3. auto. }
  assert (Revision m1 = at_ r 11) as Hrev by (destruct Hm1 as [->|(? & ? & ->)]; done).
  apply bind_Ret_inv in H as (m2 & s4 & H4 & H). apply statusRate_Ret in H4 as [Ha4 [flags H4]]; [|done].
  apply bind_Ret_inv in H as (m3 & s5 & H5 & H). apply statusFormat_Ret in H5 as [Ha5 (log & Hlog & H5)]; [|done].
  assert (Revision m2 = at_ r 11) as Hrev2 by (rewrite H4; by destruct (6 <=? _)).
  rewrite Hrev in H4. rewrite Hrev2 in H5. subst m2.
  exists r, m1, flags, log, m3. split_and!; [done..|].
  assert (Length m3 = pair32 (at_ r 1) (at_ r 2) /\ HasSampleTimeline m3 = false) as [HL Hno].
  { rewrite H5. destruct (6 <=? _), (9 <=? _), Hm1 as [->|(? & ? & ->)]; done. }
  destruct (hasTimeline m3) eqn:Ht; [|inv_ret H; auto].
  assert (fits 32 (Length m3)) as HL32.
  { rewrite HL. by apply fits_pair32; apply fits_at. }
  apply sampleTimeline_Ret in H as [H|H]; [by left|by right|done| |done|done].
  unfold hasTimeline in Ht. destruct HL32. rewrite !andb_true_iff, negb_true_iff in Ht. lia.
Qed.

(** a reported sample timeline is the frozen raw record's: the record is
    ready, frozen, identified, interleaved and two samples a word, no longer
    than the SRAM, and its ordinals run, without wrapping, over exactly
    [2*Length] samples from an even one. *)
Theorem status_timeline s m s' :
  armReady s = false -> status s = (Ret m, s') -> HasSampleTimeline m = true ->
  Ready m = true /\ Frozen m = true /\ HasRecordIdentity m = true /\ Interleaved m = true /\
  SamplesPerWord m = 2 /\ timelineOk m.
Proof.
  intros Ha H Ht. apply status_Ret in H as (r & m1 & flags & log & m3 & _ & _ & Hm1 & _ & Hm3 & Hm); [|done].
  destruct Hm as [->|(H3 & f & l & -> & Hok)].
  { rewrite Hm3 in Ht. destruct (6 <=? _), (9 <=? _), Hm1 as [->|(? & ? & ->)]; done. }
  unfold hasTimeline in H3. rewrite !andb_true_iff in H3.
  destruct H3 as ((((((_ & ?) & ?) & ?) & ?) & ?) & _). simpl. split_and!; (done || lia || idtac).
Qed.

Lemma rate_exact q z : 0 < z -> (q / inject_Z z * inject_Z z == q)%Q.
Proof.
  intros Hz. rewrite Qmult_comm. apply Qmult_div_r. unfold Qeq. simpl. lia.
Qed.

(** Samples, bits and rate of the image's revision and decimation. *)
Definition formatOk (m : Metadata) : Prop :=
  exists log, logOk log /\ Decimation m = (if 9 <=? Revision m then 2 ^ log else 1) /\
    (SampleRateHz m * inject_Z (Decimation m) == inject_Z (if 6 <=? Revision m then 500000000 else 100000000))%Q /\
    Interleaved m = (6 <=? Revision m) /\
    (SampleBits m, FractionBits m, SamplesPerWord m) =
      if (9 <=? Revision m) && negb (log =? 0) then (16, 8, 1) else (8, 0, 2).

(** C40: every reported status describes one of the fabric's formats: two raw
    8-bit samples a word, or from revision 9 one Q8.8 sample of 2^log, log 4 to
    20; the sample rate is the converters' (500 MS/s from revision 6, else 100)
    over the decimation, exactly. *)
Theorem status_format s m s' : armReady s = false -> status s = (Ret m, s') -> formatOk m.
Proof.
  intros Ha H. apply status_Ret in H as (r & m1 & flags & log & m3 & _ & _ & Hm1 & Hlog & Hm3 & Hm); [|done].
  assert (formatOk m3) as (log' & H').
  { exists log. split; [done|]. rewrite Hm3.
    assert (u32 (1 .<< log) = 2 ^ log) as Hpow.
    { rewrite Z.shiftl_mul_pow2, Z.mul_1_l by (unfold logOk in *; lia). apply u32_fits.
      split; [lia|]. apply Z.pow_lt_mono_r; unfold logOk in *; lia. }
    assert (0 < 2 ^ log) by (apply Z.pow_pos_nonneg; unfold logOk in *; lia).
    destruct (6 <=? at_ r 11) eqn:H6, (9 <=? at_ r 11) eqn:H9, Hm1 as [->|(? & ? & ->)];
      cbn [Decimation Revision SampleRateHz Interleaved SampleBits FractionBits SamplesPerWord
        withDecimation withRate withIdentity firstBatch];
      rewrite ?H6, ?H9, ?Hpow; try (exfalso; lia);
      (split; [reflexivity|]; split; [lazymatch goal with |- context [Qdiv] => by apply rate_exact | _ => reflexivity end|]; split; [reflexivity|by destruct (log =? 0)]). }
  destruct Hm as [->|(_ & f & l & -> & _)]; by exists log'.
Qed.
End status_facts.

(** ** The short checks against the whole status

    On a fabric that holds its registers still, Poll's one read and
    sameFrozen's few say what the whole status says. *)

(** What a capture waiting for its event looks at. *)
Definition flagsOf (m : Metadata) :=
  (Ready m, Frozen m, Triggered m, Running m, Prefetched m, Locked m, DataFault m, Revision m).

Section agreement.
Context {E : Env} (r : Z -> Z) (Hr : answers r).
Local Abbreviation R sel := (u16 (r sel)).

Lemma sampleTimeline_same {A} (f : Metadata -> A) m s m' s' :
  (forall a b, f (withTimeline a b m) = f m) -> sampleTimeline m s = (Ret m', s') -> f m' = f m.
Proof.
  intros Hf H. unfold sampleTimeline in H. inv_ret H. destruct (negb _); [by inv_ret H|].
  inv_ret H. destruct (_ =? 0); [by inv_ret H|]. cbv zeta in H. inv_ret H. apply Hf.
Qed.

Definition lateRegs (m : Metadata) (late : list Z) : Prop :=
  10 <= Revision m -> late = map (fun x => R x) lateSels.

Lemma statusIdentity_still late m s m' s' :
  settled s -> statusIdentity late m s = (Ret m', s') ->
  settled s' /\ (m' = m \/ m' = withIdentity (pair32 (R 69) (R 70)) (pair32 (R 71) (R 72)) m).
Proof using Hr.
  intros Hs H. unfold statusIdentity in H. destruct (_ =? _); [|inv_ret H; auto].
  apply bind_Ret_inv in H as (id & s1 & H1 & H).
  apply (readMany_answers_inv r Hr) in H1 as [-> Hs1]; [|done]. inv_ret H. auto.
Qed.

Lemma statusRate_still m0 late m s m' s' :
  settled s -> lateRegs m0 late -> statusRate (10 <=? Revision m0) late m s = (Ret m', s') ->
  m' = if 6 <=? Revision m then withRate 500 (R 19) m else m.
Proof using Hr.
  intros Hs Hl H. unfold statusRate in H. destruct (6 <=? Revision m); [|by inv_ret H].
  apply bind_Ret_inv in H as (rate & s1 & H1 & H).
  assert (settled s1) as Hs1.
  { destruct (10 <=? _); [by inv_ret H1|]. by apply (read_answers_inv r Hr) in H1 as [_ ?]. }
  apply bind_Ret_inv in H as ([] & s2 & H2 & H). apply guard_Ret_inv in H2 as [Hg ->].
  apply bind_Ret_inv in H as (flags & s3 & H3 & H). inv_ret H.
  replace rate with 500 by lia. unfold lateRegs in Hl. destruct (Z.leb_spec 10 (Revision m0)).
  - rewrite Hl in H3 by done. by inv_ret H3.
  - by apply (read_answers_inv r Hr) in H3 as [-> _].
Qed.

Lemma statusFormat_still m0 late m s m' s' :
  statusFormat (10 <=? Revision m0) late m s = (Ret m', s') -> m' = m \/ exists log, m' = withDecimation log m.
Proof.
  intros H. unfold statusFormat in H. destruct (9 <=? Revision m); [|inv_ret H; by left].
  cbv zeta in H. inv_ret H. right. by eexists.
Qed.

(** The flags and the identity of a status on a still fabric. *)
Lemma status_still s m s' :
  settled s -> status s = (Ret m, s') ->
  flagsOf m = flagsOf (pollBatch [R 1; R 13; R 19]) /\
  (HasRecordIdentity m = true -> RecordID m = pair32 (R 69) (R 70) /\ EventEpoch m = pair32 (R 71) (R 72)).
Proof using Hr.
  intros Hs H. unfold status in H.
  apply bind_Ret_inv in H as (b & s1 & H1 & H).
  apply (readMany_answers_inv r Hr) in H1 as [-> Hs1]; [|done]. cbv zeta in H.
  set (m0 := firstBatch _) in H. apply bind_Ret_inv in H as (late & s2 & H2 & H).
  assert (settled s2 /\ lateRegs m0 late) as [Hs2 Hlate].
  { unfold lateRegs. destruct (Z.leb_spec 10 (Revision m0)).
    - apply (readMany_answers_inv r Hr) in H2 as [-> Hs2]; done.
    - inv_ret H2. split; [done|lia]. }
  apply bind_Ret_inv in H as (m1 & s3 & H3 & H).
  assert (settled s3 /\ (m1 = m0 \/ m1 = withIdentity (pair32 (R 69) (R 70)) (pair32 (R 71) (R 72)) m0)) as [Hs3 Hm1].
  { destruct (10 <=? _); [by eapply statusIdentity_still|inv_ret H3; auto]. }
  apply bind_Ret_inv in H as (m2 & s4 & H4 & H). apply statusRate_still in H4; [|done..].
  apply bind_Ret_inv in H as (m3 & s5 & H5 & H). apply statusFormat_still in H5.
  assert (forall A (f : Metadata -> A), (forall a b, f (withTimeline a b m3) = f m3) -> f m = f m3) as Hend.
  { intros A f Hf. destruct (hasTimeline m3); [|by inv_ret H]. by eapply sampleTimeline_same. }
  rewrite (Hend _ flagsOf), (Hend _ HasRecordIdentity), (Hend _ RecordID), (Hend _ EventEpoch) by done.
  clear Hend H H2 H3 Hlate. subst m2. unfold flagsOf, pollBatch. simpl.
  destruct Hm1 as [->| ->]; destruct H5 as [->|[log ->]]; cbn -[Z.leb has pair32 u16];
    destruct (6 <=? R 13) eqn:H6; cbn -[Z.leb has pair32 u16]; rewrite ?andb_true_r; (split; [done|]); try done.
Qed.

(** Poll's single read tells a waiting capture what the whole status
    would: whenever the status can be read, Poll succeeds with the same ready,
    frozen, triggered, running, prefetched, locked and data-fault flags and
    the same revision. *)
Theorem Poll_status s m s' :
  settled s -> status s = (Ret m, s') -> exists p s'', Poll s = (Ret p, s'') /\ flagsOf p = flagsOf m.
Proof using Hr.
  intros Hs H. destruct (status_still s m s' Hs H) as [Hf _].
  destruct (readMany_answers r Hr [1; 13; 19] s Hs) as (s1 & H1 & _).
  unfold Poll. erewrite bind_Ret by exact H1. do 2 eexists. by split; [reflexivity|].
Qed.

(** What the whole status would say of the record [m]: still frozen, still
    the same one. *)
Definition stillFrozen (m now : Metadata) : bool :=
  Ready now && Frozen now && negb (Running now) && (RecordID now =? RecordID m) && (EventEpoch now =? EventEpoch m).

Lemma read32_answers sel s :
  settled s -> exists s', read32 sel s = (Ret (pair32 (R sel) (R (sel + 1))), s') /\ settled s'.
Proof using Hr.
  intros Hs. unfold read32. destruct (read_answers r Hr sel s Hs) as (s1 & H1 & Hs1).
  destruct (read_answers r Hr (sel + 1) s1 Hs1) as (s2 & H2 & Hs2).
  erewrite bind_Ret by exact H1. erewrite bind_Ret by exact H2. eexists. by split; [reflexivity|].
Qed.

Lemma frozen_flags x :
  ((x .& 4 =? 0) || (x .& 16 =? 0) || has x 8) = negb (has x 4 && has x 16 && negb (has x 8)).
Proof. unfold has. by destruct (x .& 4 =? 0), (x .& 16 =? 0), (x .& 8 =? 0). Qed.

(** before a described record is read again, sameFrozen's five reads
    decide what the whole status would: the record is accepted exactly when
    the fabric is ready, frozen, not running, and its identity is unchanged. *)
Theorem sameFrozen_status m s now s' :
  settled s -> HasRecordIdentity m = true -> status s = (Ret now, s') -> HasRecordIdentity now = true ->
  exists s'', if stillFrozen m now then sameFrozen m s = (Ret m, s'')
              else exists e, sameFrozen m s = (Fail e, s'').
Proof using Hr.
  intros Hs Hm H Hnow. destruct (status_still s now s' Hs H) as [Hf Hid].
  destruct (Hid Hnow) as [Hrec Hep]. unfold flagsOf in Hf. injection Hf as HR HF _ HG _ _ _ _. simpl in HR, HF, HG.
  unfold stillFrozen. rewrite HR, HF, HG, Hrec, Hep. change (at_ (R 1 :: _) 0) with (R 1).
  unfold sameFrozen. rewrite Hm. simpl (negb true). cbv iota.
  destruct (read_answers r Hr 1 s Hs) as (s1 & H1 & Hs1). erewrite bind_Ret by exact H1.
  rewrite frozen_flags. destruct (has (R 1) 4 && has (R 1) 16 && negb (has (R 1) 8));
    [|eexists; eexists; reflexivity].
  simpl (negb true). erewrite bind_Ret by reflexivity.
  destruct (read32_answers 69 s1 Hs1) as (s2 & H2 & Hs2). erewrite bind_Ret by exact H2.
  destruct (read32_answers 71 s2 Hs2) as (s3 & H3 & Hs3). erewrite bind_Ret by exact H3.
  simpl (69 + 1). simpl (71 + 1). rewrite <- negb_andb.
  destruct (_ && _) eqn:Hi in |- *; [exists s3; reflexivity|eexists; eexists; reflexivity].
Qed.
End agreement.
