(* ===== verification/Open.v ===== *)
(** * The state between methods

    Outside Arm and a recall no register is cached and no write is queued
    (armReady, queueWrites and pending of Capture, capture.go): every register
    access, and every method made of them, keeps that whatever its outcome. *)
From S2P Require Import Prelude Machine Fabric Bus BusSteps Command Status.

(** The modes only Arm and a recall change. *)
Definition sameModes (s s' : capture) : Prop := armReady s' = armReady s /\ queueWrites s' = queueWrites s.
#[export] Instance sameModes_busStep : BusStep sameModes.
Proof.
  split; [split; [by intros s|]|done..]. unfold sameModes. intros s1 s2 s3 [] []. split; congruence.
Qed.

(** Nothing cached, nothing queued, and the queue closed. *)
Definition open (s : capture) : Prop := settled s /\ queueWrites s = false.
Definition keepsOpen (s s' : capture) : Prop := open s -> open s'.
#[export] Instance keepsOpen_busStep : BusStep keepsOpen.
Proof.
  split; [split; [by intros s H|]|..].
  - intros s1 s2 s3 H1 H2 H. by apply H2, H1.
  - intros e s _ H. exact H.
  - intros l s [->|Hq] [[Ha Hp] Hq']; [by split|congruence].
  - intros n s H. exact H.
Qed.

Section open.
Context {E : Env}.

(** The queue is empty after a flush, whatever the bus did. *)
Lemma flushWrites_clears s :
  pending (flushWrites s).2 = [] /\ sameModes s (flushWrites s).2.
Proof.
  split; [|apply steps_flushWrites; apply _].
  unfold flushWrites, errOf, attempt, modify, gets, mbind, SE_bind.
  destruct (pending s) as [|r p] eqn:Hp; [done|].
  pose proof (sendMany_after (r :: p) s) as [He _]; [done|].
  by destruct (sendMany (r :: p) s) as [[[]|e| |] s1].
Qed.

Lemma readMany_open sels s : open s -> open (readMany sels s).2.
Proof. apply steps_readMany. apply _. Qed.

Lemma status_open s : open s -> open (status s).2.
Proof.
  assert (steps keepsOpen status) as H; [|apply H].
  unfold status, statusIdentity, statusRate, statusFormat, sampleTimeline. bus_steps; apply _.
Qed.
Lemma Halt_open fuel c s : open s -> open (Halt fuel c s).2.
Proof. apply steps_Halt. apply _. Qed.
Lemma WaitFrozen_open fuel c s : open s -> open (WaitFrozen fuel c s).2.
Proof. apply steps_waitFrozenLoop. apply _. Qed.

(** An access in this state is one event. *)
Lemma read_open sel s v s' :
  open s -> read sel s = (Ret v, s') ->
  open s' /\ exists x, env_Read (trace s) sel = inl x /\ v = u16 x /\ trace s' = trace s ++ [EvRead sel (inl x)].
Proof.
  intros Ho H. split.
  { pose proof (steps_read keepsOpen sel s) as Hs. rewrite H in Hs. by apply Hs. }
  destruct Ho as [[Ha Hp] _]. rewrite read_uncached in H by done.
  apply bind_Ret_inv in H as ([] & s1 & H1 & H). rewrite flushWrites_settled in H1 by done. injection H1 as <-.
  unfold busRead, addBeats in H. inv_ret H. eexists. split; [exact Q|]. split; [done|]. simpl. by rewrite Q.
Qed.
Lemma write_open sel v s a s' :
  open s -> write sel v s = (Ret a, s') -> open s' /\ trace s' = trace s ++ [EvWrite sel v None].
Proof.
  intros Ho H. split.
  { pose proof (steps_write keepsOpen sel v s) as Hs. rewrite H in Hs. by apply Hs. }
  destruct Ho as [_ Hq]. unfold write in H. apply bind_Ret_inv in H as (q & s1 & H1 & H). injection H1 as <- <-.
  rewrite Hq in H. unfold busWrite in H. inv_ret H. simpl. by rewrite Q.
Qed.
Lemma keepsOpen_Ret {A} (m : M A) s a s' : steps keepsOpen m -> open s -> m s = (Ret a, s') -> open s'.
Proof. intros Hm Ho H. specialize (Hm s). rewrite H in Hm. by apply Hm. Qed.
Lemma open_queueOk s : open s -> queueOk s.
Proof. by intros [[_ Hp] _] _. Qed.
Lemma open_issued s : open s -> issued s = writesOf (trace s).
Proof. intros [[_ Hp] _]. unfold issued. by rewrite Hp, app_nil_r. Qed.
End open.
