(* ===== verification/Arm.v ===== *)
(** * Arming an acquisition: the configuration, its check and the arm sequence

    Config, Check and Arm of src/app/internal/sramcapture/capture.go, with the
    decoded-event enable Arm uses (decoded_event_stream.go). *)
From S2P Require Import Prelude Machine Fabric Bus Command TrigPacket TrigSerial TrigQualify TrigSymbol Status.

(** Source: ADC or the test counter. *)
Definition ADC : Z := 0.
Definition Counter : Z := 1.

Module UART.
Record UARTTriggerConfig := {
  Enabled : bool;
  Channel : Z;
  Inverted : bool;
  BitTicks : Z;
  Pattern : Z;
  Length : Z;
  Period16 : Z;
  Bits : Z;
  Parity : Z;
  Resync : bool
}.
Definition wf (u : UARTTriggerConfig) : Prop :=
  fits 8 (Channel u) /\ fits 32 (BitTicks u) /\ fits 32 (Pattern u) /\ fits 8 (Length u) /\ fits 32 (Period16 u) /\
  fits 8 (Bits u) /\ fits 8 (Parity u).

Definition sampleUART (u : UARTTriggerConfig) : bool := negb (Period16 u =? 0).
(** The data bits: 0 is 8. *)
Definition dataBits (u : UARTTriggerConfig) : Z := if Bits u =? 0 then 8 else Bits u.
Definition valid (u : UARTTriggerConfig) : bool :=
  if (1 <? Channel u) || (4 <? Length u) then false
  else if sampleUART u then
    (256 <=? Period16 u) && (Period16 u <=? 0xffffff) && (5 <=? dataBits u) && (dataBits u <=? 9) && (Parity u <=? 2)
  else
    (4 <=? BitTicks u) && (BitTicks u <=? 0xffffff) && ((Bits u =? 0) || (Bits u =? 8)) && (Parity u =? 0).

Definition control (u : UARTTriggerConfig) : Z :=
  1 .| u16 (Channel u .<< 1) .| u16 (Length u .<< 3) .| bit (Inverted u) 4
    .| (if sampleUART u then u16 (dataBits u .<< 6) .| u16 (Parity u .<< 10) .| bit (Resync u) 0x1000 else 0).
Definition ticks (u : UARTTriggerConfig) : Z := if sampleUART u then Period16 u else BitTicks u.
Definition registers (u : UARTTriggerConfig) : list (Z * Z) :=
  [(49, ticks u .& 0xffff); (50, u16 (ticks u .>> 16)); (51, Pattern u .& 0xffff); (52, u16 (Pattern u .>> 16));
   (48, control u)].

(** Arm's UART step. *)
Definition configureUART {E : Env} (revision : Z) (u : UARTTriggerConfig) : M unit :=
  if 10 <=? revision then
    capability ← read 48;
    if (capability =? uartLevels) || (capability =? uartSamples) then
      guard (Enabled u && negb (Bool.eqb (sampleUART u) (capability =? uartSamples)))
        (EMsg "sramcapture: the loaded image's UART receiver takes the other configuration" []);;
      if Enabled u then each (fun r => write r.1 r.2) (registers u)
      else write 48 0
    else guard (Enabled u) (EMsg "sramcapture: fabric lacks hardware UART trigger" [])
  else guard (Enabled u) (EMsg "sramcapture: fabric lacks hardware UART trigger" []).

(** top.v's receiver: the data bits and parity are the sampled receiver's. *)
Record Port := {
  enabled : bool; channel : Z; inverted : bool; length_ : Z; ticks_ : Z; pattern : Z;
  bits_ : Z; parity : Z; resync : bool
}.
Definition port (f : Z -> Z) : Port :=
  {| enabled := flag (f 48) 0; channel := bits (f 48) 1 1; inverted := flag (f 48) 2; length_ := bits (f 48) 3 3;
     ticks_ := wide (f 49) (f 50) 24; pattern := wide (f 51) (f 52) 32;
     bits_ := bits (f 48) 6 4; parity := bits (f 48) 10 2; resync := flag (f 48) 12 |}.
Definition run (u : UARTTriggerConfig) : Port :=
  {| enabled := true; channel := Channel u; inverted := Inverted u; length_ := Length u; ticks_ := ticks u;
     pattern := Pattern u; bits_ := if sampleUART u then dataBits u else 0;
     parity := if sampleUART u then Parity u else 0; resync := sampleUART u && Resync u |}.

Lemma uart_port_registers u f :
  wf u -> valid u = true -> port (written (registers u) f) = run u.
Proof.
  intros (Hc & Ht & Hp & Hl & Hp16 & Hb & Hpar). unfold valid.
  destruct (_ || _) eqn:Hcl; [done|]. intros Hv.
  width 1 (Channel u). width 3 (Length u). clear Hc Hl.
  unfold port, run, flag. cbn -[wide]. unfold control, ticks.
  destruct (sampleUART u).
  - width 24 (Period16 u). width 4 (dataBits u). width 2 (Parity u). clear Hp16 Hpar.
    rewrite !wide_split by (done || lia). f_equal; by bits_tac.
  - width 24 (BitTicks u). clear Ht. rewrite !wide_split by (done || lia). f_equal; by bits_tac.
Qed.

Lemma configureUART_configured {E : Env} revision u s a s' :
  queueOk s -> configureUART revision u s = (Ret a, s') ->
  configured (Enabled u) (registers u) [(48, 0)] s s'.
Proof.
  unfold configureUART. intros Hq H. configured_tac H.
  eapply configured_on; [reflexivity| |eassumption|exact H].
  apply (issues_each _ (fun r => [r])). intros [sel v]. apply issues_write.
Qed.

(** a valid UART trigger, of either receiver, is the one the FPGA runs:
    bit time, data bits, parity, re-timing, pattern and length; a request the
    loaded receiver cannot take is refused, never run as another one. *)
Theorem configureUART_fabric {E : Env} revision u s a s' f :
  wf u -> valid u = true -> queueOk s -> configureUART revision u s = (Ret a, s') ->
  fabricRuns port enabled (Enabled u) (run u) f (issued s) (issued s').
Proof.
  intros Hw Hv Hq H. eapply configured_fabricRuns; [by eapply configureUART_configured| |done].
  intros He. by apply uart_port_registers.
Qed.
End UART.

(** ** The configuration *)

Record Config := {
  Qualifier : Qualifier.QualifierConfig;
  Zones : Zone.ZoneConfig;
  Symbol : Symbol.SymbolTriggerConfig;
  Sequence : Sequence.SequenceTriggerConfig;
  Packet : Packet.PacketTriggerConfig;
  Manchester : Manchester.ManchesterTriggerConfig;
  USBLS : USBLS.USBLSTriggerConfig;
  MIL1553 : MIL1553.MIL1553TriggerConfig;
  SENT : SENT.SENTTriggerConfig;
  DecodedEvents : bool;
  SPI : SPI.SPITriggerConfig;
  I2C : I2C.I2CTriggerConfig;
  UART : UART.UARTTriggerConfig;
  Source : Z;
  DecimationLog2 : Z;
  Pick : bool;
  Pair : Z;
  PreWords : Z;
  PostWords : Z;
  Normal : bool;
  Falling : bool;
  TriggerChannel : Z;
  TriggerLevel : Z;
  TriggerHysteresis : Z;
  SecondLevel : Z;
  SliceLines : bool
}.

(** The enabled decoders, in the fabric's order of priority. *)
Definition decoders (cfg : Config) : list bool :=
  [Packet.Enabled (Packet cfg); Manchester.Enabled (Manchester cfg); USBLS.Enabled (USBLS cfg);
   MIL1553.Enabled (MIL1553 cfg); SENT.Enabled (SENT cfg); SPI.Enabled (SPI cfg); I2C.Enabled (I2C cfg);
   UART.Enabled (UART cfg)].
Definition hasDecoder (cfg : Config) : bool :=
  Packet.Enabled (Packet cfg) || Manchester.Enabled (Manchester cfg) || USBLS.Enabled (USBLS cfg) ||
  MIL1553.Enabled (MIL1553 cfg) || SENT.Enabled (SENT cfg) || SPI.Enabled (SPI cfg) || I2C.Enabled (I2C cfg) ||
  UART.Enabled (UART cfg).

(** [if e := f(); e != nil { return e }] and [if b { return e }], in order. *)
Definition orElse (a b : option err) : option err := match a with Some e => Some e | None => b end.
Definition refuse (b : bool) (m : string) : option err := if b then Some (EMsg m []) else None.
Arguments refuse b m%_string.

Section Check.
Variable cfg : Config.

Local Abbreviation packet := (Packet.Enabled (Packet cfg)).
Local Abbreviation manchester := (Manchester.Enabled (Manchester cfg)).
Local Abbreviation usb := (USBLS.Enabled (USBLS cfg)).
Local Abbreviation mil := (MIL1553.Enabled (MIL1553 cfg)).
Local Abbreviation sent := (SENT.Enabled (SENT cfg)).
Local Abbreviation spi := (SPI.Enabled (SPI cfg)).
Local Abbreviation i2c := (I2C.Enabled (I2C cfg)).
Local Abbreviation uart := (UART.Enabled (UART cfg)).
Local Abbreviation qualifier := (Qualifier.Enabled (Qualifier cfg)).
Local Abbreviation symbol := (Symbol.Enabled (Symbol cfg)).
Local Abbreviation zones := (Zone.anyEnabled (Zones cfg)).
Local Abbreviation sequence := (negb (Sequence.Length (Sequence cfg) =? 0)).
(** [cfg.Source != ADC || !cfg.Normal] *)
Local Abbreviation abnormal := (negb (Source cfg =? ADC) || negb (Normal cfg)).

(** Check's rules for the matched triggers: packet, sequence, qualifier,
    zones and symbol. *)
Definition checkMatched : option err :=
  orElse (Packet.validate (Packet cfg)) (
  orElse (Sequence.validate (Sequence cfg)) (
  orElse (refuse (sequence && negb (hasDecoder cfg))
            "sramcapture: a sequence trigger needs a configured hardware decoder") (
  orElse (Manchester.validate (Manchester cfg)) (
  orElse (Qualifier.validate (Qualifier cfg)) (
  orElse (Zone.validate (Zones cfg)) (
  orElse (Symbol.validate (Symbol cfg)) (
  orElse (refuse (symbol && (qualifier || zones || sequence || packet || manchester || usb || mil || sent || spi ||
                             i2c || uart || abnormal))
            "sramcapture: a symbol trigger requires exclusive ADC normal triggering") (
  orElse (refuse (zones && abnormal) "sramcapture: zones qualify a normal ADC trigger") (
  orElse (refuse (qualifier && (packet || manchester || usb || mil || sent || spi || i2c || uart || abnormal))
            "sramcapture: a qualifier requires exclusive ADC normal triggering")
  (let general := usb || mil || sent || spi || i2c || uart in
   refuse ((packet || manchester) && ((packet && manchester) || general || abnormal))
     "sramcapture: packet and Manchester triggers require exclusive ADC normal triggering")))))))))).

(** Its rules for the serial receivers. *)
Definition checkSerial : option err :=
  orElse (USBLS.validate (USBLS cfg)) (
  orElse (refuse (usb && (uart || i2c || spi || sent || mil || abnormal))
            "sramcapture: USB requires exclusive ADC normal triggering") (
  orElse (MIL1553.validate (MIL1553 cfg)) (
  orElse (refuse (mil && (uart || i2c || spi || sent || abnormal))
            "sramcapture: MIL-STD-1553 requires exclusive ADC normal triggering") (
  orElse (SENT.validate (SENT cfg)) (
  orElse (refuse (sent && (uart || i2c || spi || abnormal))
            "sramcapture: SENT requires exclusive ADC normal triggering") (
  orElse (refuse (DecodedEvents cfg && negb (hasDecoder cfg))
            "sramcapture: decoded streaming requires a configured hardware decoder") (
  orElse (refuse (spi && (uart || i2c || abnormal || negb (SPI.inRange (SPI cfg))))
            "sramcapture: invalid hardware SPI configuration") (
  orElse (refuse (i2c && (uart || abnormal || negb (I2C.inRange (I2C cfg))))
            "sramcapture: invalid hardware I2C configuration")
  (refuse (uart && (abnormal || negb (UART.valid (UART cfg))))
     "sramcapture: invalid hardware UART configuration"))))))))).

(** Its rules for the record. *)
Definition checkRecord : option err :=
  refuse ((negb (DecimationLog2 cfg =? 0) && ((DecimationLog2 cfg <? 4) || (20 <? DecimationLog2 cfg))) ||
          (Counter <? Source cfg) || (4 <? Pair cfg) || (1 <? TriggerChannel cfg) || (PostWords cfg =? 0) ||
          (Words <? PreWords cfg + PostWords cfg))
    "sramcapture: invalid source, channel, or record geometry".

Definition Check : option err := orElse checkMatched (orElse checkSerial checkRecord).
End Check.

(** ** Arming *)

Section arm.
Context {E : Env} (fuel : nat).

(** enableDecodedEvents (decoded_event_stream.go): stop, reset and, to enable,
    start the stream; its epoch. *)
Definition enableDecodedEvents (enabled : bool) : M Z :=
  capability ← read 63;
  guard (negb (capability =? 0x4501)) (EMsg "sramcapture: fabric lacks decoded event transport" []);;
  writeMany ([(57, 0); (60, 2)] ++ (if enabled then [(57, 1)] else []));;
  e ← readMany [61; 62];
  mret (pair32 (at_ e 0) (at_ e 1)).
Definition EnableDecodedEvents : bool -> M Z := enableDecodedEvents.

(** What the image must be for the configuration. *)
Definition armImage (cfg : Config) : M Z :=
  s ← gets (fun st => at_ (armRead st) 0);
  guard ((s .& 4 =? 0) || has s 8) (EMsg "sramcapture: halt the current acquisition before rearming" []);;
  revision ← read 13;
  guard ((6 <=? revision) && negb (Pair cfg =? 0))
    (EMsg "sramcapture: interleaved image uses all five pairs; pair must be zero" []);;
  guard ((revision <? 9) && negb (DecimationLog2 cfg =? 0)) (EMsg "sramcapture: fabric lacks precision decimation" []);;
  (if negb (DecimationLog2 cfg =? 0) then
     raw ← attempt rawOnly;
     match raw with
     | inr e => fail (EJoin e (EMsg "sramcapture: loaded image records raw samples only" []))
     | inl true => fail (EJoin ENil (EMsg "sramcapture: loaded image records raw samples only" []))
     | inl false => mret tt
     end
   else mret tt);;
  mret revision.

(** The decoded stream stops before the receivers change. *)
Definition armStream (revision : Z) (cfg : Config) : M unit :=
  streamCapability ← (if 10 <=? revision then read 63 else mret 0);
  guard (DecodedEvents cfg && negb (streamCapability =? 0x4501))
    (EMsg "sramcapture: fabric lacks decoded event transport" []);;
  if streamCapability =? 0x4501 then write 57 0 else mret tt.

(** Every trigger block, configured or disabled. *)
Definition armTriggers (revision : Z) (cfg : Config) : M unit :=
  Qualifier.configureQualifier revision (Qualifier cfg);;
  Zone.configureZones revision (Zones cfg);;
  Symbol.configureSymbol revision (Symbol cfg);;
  Sequence.configureSequence (Sequence cfg);;
  Packet.configurePacket (Packet cfg);;
  Manchester.configureManchester (Manchester cfg);;
  SENT.configureSENT revision (SENT cfg);;
  USBLS.configureUSBLS revision (USBLS cfg);;
  MIL1553.configureMIL1553 revision (MIL1553 cfg);;
  SPI.configureSPI revision (SPI cfg);;
  I2C.configureI2C revision (I2C cfg);;
  UART.configureUART revision (UART cfg).

Definition decimationReg (cfg : Config) : Z :=
  DecimationLog2 cfg .| bit (Pick cfg && negb (DecimationLog2 cfg =? 0)) 32.
Definition configWord (cfg : Config) : Z :=
  u16 (Pair cfg .<< 1) .| bit (Source cfg =? ADC) 1 .| bit (Normal cfg) 16 .| bit (Falling cfg) 32
    .| bit (TriggerChannel cfg =? 1) 64.
(** The second line's level, where a trigger or the stream slices two lines. *)
Definition twoLines (cfg : Config) : bool :=
  SPI.Enabled (SPI cfg) || I2C.Enabled (I2C cfg) ||
  (Symbol.Enabled (Symbol cfg) && Symbol.TwoLines (Symbol cfg)) || SliceLines cfg.
Definition secondLevel (cfg : Config) : Z :=
  if (SecondLevel cfg =? 0) && negb (SliceLines cfg) then TriggerLevel cfg else SecondLevel cfg.

(** The record's geometry and trigger. *)
Definition armRecord (revision : Z) (cfg : Config) : M unit :=
  (if 9 <=? revision then write 18 (decimationReg cfg) else mret tt);;
  write32 2 (PreWords cfg);;
  write32 4 (PostWords cfg);;
  write 6 (configWord cfg);;
  write 7 (TriggerLevel cfg .| u16 (TriggerHysteresis cfg .<< 8));;
  (if twoLines cfg then write regSecondLevel (secondLevel cfg) else mret tt).

(** The arm command; a failure stops the stream just started. *)
Definition armStart (c : ctx) (cfg : Config) : M unit :=
  (if DecodedEvents cfg then enableDecodedEvents true;; mret tt else mret tt);;
  r ← attempt (command fuel c 1);
  match r with
  | inl _ => mret tt
  | inr e => (if DecodedEvents cfg then ignore (write 57 0) else mret tt);; fail e
  end.

Definition armBody (c : ctx) (cfg : Config) : M unit :=
  revision ← armImage cfg;
  armStream revision cfg;;
  armTriggers revision cfg;;
  armRecord revision cfg;;
  armStart c cfg.

(** The deferred end of Arm: its cache and its queue close. *)
Definition armEnd (failed : option err) : M (option err) :=
  modify (fun s => set_queueWrites false (set_armReady false s));;
  e ← errOf flushWrites;
  mret (match failed with None => e | Some _ => failed end).

Definition Arm (c : ctx) (cfg : Config) : M unit :=
  liftErr (Check cfg);;
  checkCtx c;;
  r ← readMany armSels;
  modify (fun s => set_queueWrites true (set_armReady true (set_armRead r s)));;
  finally (armBody c cfg) armEnd.

(** ** Decoded captures (decoded_capture.go) *)

Record RecordIdentity := { Epoch : Z; Record_ : Z }.

Definition SupportsDecodedCapture : M bool :=
  v ← readMany [63; 73]; mret ((at_ v 0 =? 0x4501) && (at_ v 1 =? 0x5201)).

(** [cfg.DecodedEvents = true] *)
Definition withDecodedEvents (cfg : Config) : Config :=
  {| Qualifier := Qualifier cfg; Zones := Zones cfg; Symbol := Symbol cfg; Sequence := Sequence cfg;
     Packet := Packet cfg; Manchester := Manchester cfg; USBLS := USBLS cfg; MIL1553 := MIL1553 cfg;
     SENT := SENT cfg; DecodedEvents := true; SPI := SPI cfg; I2C := I2C cfg; UART := UART cfg;
     Source := Source cfg; DecimationLog2 := DecimationLog2 cfg; Pick := Pick cfg; Pair := Pair cfg;
     PreWords := PreWords cfg; PostWords := PostWords cfg; Normal := Normal cfg; Falling := Falling cfg;
     TriggerChannel := TriggerChannel cfg; TriggerLevel := TriggerLevel cfg;
     TriggerHysteresis := TriggerHysteresis cfg; SecondLevel := SecondLevel cfg; SliceLines := SliceLines cfg |}.

(** The new record's identity, once the status shows it. *)
Fixpoint awaitRecord (n : nat) (c : ctx) (oldID epoch : Z) : M RecordIdentity :=
  match n with
  | O => outOfFuel
  | S n =>
      checkCtx c;;
      m ← Status;
      guard (negb (HasRecordIdentity m)) (EMsg "sramcapture: capture has no record identity" []);;
      if negb (RecordID m =? oldID) && (EventEpoch m =? epoch) then
        mret {| Epoch := epoch; Record_ := RecordID m |}
      else
        emit (EvSleep 100000);;
        awaitRecord n c oldID epoch
  end.

Definition StartDecodedCapture (c : ctx) (cfg : Config) : M RecordIdentity :=
  v ← readMany [73; 69; 70];
  guard (negb (at_ v 0 =? 0x5201)) (EMsg "sramcapture: fabric lacks retained record identity" []);;
  let oldID := pair32 (at_ v 1) (at_ v 2) in
  Arm c (withDecodedEvents cfg);;
  e ← readMany [61; 62];
  awaitRecord fuel c oldID (pair32 (at_ e 0) (at_ e 1)).
End arm.

(** ** What Check guarantees *)

Lemma orElse_None a b : orElse a b = None <-> a = None /\ b = None.
Proof. destruct a; simpl; split; [done|by intros [? _]|done|by intros [_ ?]]. Qed.
Lemma refuse_None b m : refuse b m = None <-> b = false.
Proof. by destruct b. Qed.

(** The trigger sources that replace the edge. *)
Definition replacing (cfg : Config) : list bool :=
  decoders cfg ++ [Qualifier.Enabled (Qualifier cfg); Symbol.Enabled (Symbol cfg)].
Definition countTrue (l : list bool) : nat := length (List.filter id l).

Definition exclusive (cfg : Config) : Prop :=
  (countTrue (replacing cfg) <= 1)%nat /\
  (existsb id (replacing cfg) || Zone.anyEnabled (Zones cfg) = true -> Source cfg = ADC /\ Normal cfg = true) /\
  (Symbol.Enabled (Symbol cfg) = true ->
     Zone.anyEnabled (Zones cfg) = false /\ Sequence.Length (Sequence cfg) = 0) /\
  (Sequence.Length (Sequence cfg) <> 0 \/ DecodedEvents cfg = true -> hasDecoder cfg = true).

(** Check's exclusion rules, as rules of flags: the decoders, the qualifier,
    the symbol trigger, the zones, a sequence, decoded streaming, and an
    acquisition that is not a normal ADC one. *)
Lemma exclusion (p m u i s sp ic ua q y z sq dc ab sprange icrange uavalid : bool) :
  let any := p || m || u || i || s || sp || ic || ua in
  sq && negb any = false ->
  y && (q || z || sq || p || m || u || i || s || sp || ic || ua || ab) = false ->
  z && ab = false ->
  q && (p || m || u || i || s || sp || ic || ua || ab) = false ->
  (p || m) && ((p && m) || (u || i || s || sp || ic || ua) || ab) = false ->
  u && (ua || ic || sp || s || i || ab) = false ->
  i && (ua || ic || sp || s || ab) = false ->
  s && (ua || ic || sp || ab) = false ->
  dc && negb any = false ->
  sp && (ua || ic || ab || sprange) = false ->
  ic && (ua || ab || icrange) = false ->
  ua && (ab || uavalid) = false ->
  (countTrue [p; m; u; i; s; sp; ic; ua; q; y] <= 1)%nat /\
  (existsb id [p; m; u; i; s; sp; ic; ua; q; y] || z = true -> ab = false) /\
  (y = true -> z = false /\ sq = false) /\ (sq = true \/ dc = true -> any = true).
Proof.
  destruct p, m; simpl; try done; destruct u; simpl; try done; destruct i; simpl; try done;
    destruct s; simpl; try done; destruct sp; simpl; try done; destruct ic; simpl; try done;
    destruct ua; simpl; try done; destruct q; simpl; try done; destruct y; simpl; try done;
    destruct z, sq, dc, ab; simpl; try done; intros; unfold countTrue; simpl;
    split_and!; try lia; try done; intros [? | ?]; done.
Qed.

(** C39: a configuration Check accepts names at most one of the eight decoders,
    the qualifier and the symbol trigger; whatever replaces or qualifies the
    edge runs on a normal ADC acquisition; a symbol trigger excludes zones and
    sequences; a sequence or decoded streaming has a decoder to feed it. *)
Theorem Check_exclusive cfg : Check cfg = None -> exclusive cfg.
Proof.
  unfold Check, checkMatched, checkSerial. rewrite !orElse_None, !refuse_None. cbv zeta.
  intros H. destruct_and! H. unfold hasDecoder in *.
  destruct (exclusion
    (Packet.Enabled (Packet cfg)) (Manchester.Enabled (Manchester cfg)) (USBLS.Enabled (USBLS cfg))
    (MIL1553.Enabled (MIL1553 cfg)) (SENT.Enabled (SENT cfg)) (SPI.Enabled (SPI cfg)) (I2C.Enabled (I2C cfg))
    (UART.Enabled (UART cfg)) (Qualifier.Enabled (Qualifier cfg)) (Symbol.Enabled (Symbol cfg))
    (Zone.anyEnabled (Zones cfg)) (negb (Sequence.Length (Sequence cfg) =? 0)) (DecodedEvents cfg)
    (negb (Source cfg =? ADC) || negb (Normal cfg)) (negb (SPI.inRange (SPI cfg)))
    (negb (I2C.inRange (I2C cfg))) (negb (UART.valid (UART cfg)))) as (Hone & Hnormal & Hsymbol & Hdecoder); [assumption..|].
  split_and!; [exact Hone| | |].
  - intros Hr. apply Hnormal in Hr. rewrite orb_false_iff, !negb_false_iff, Z.eqb_eq in Hr. exact Hr.
  - intros Hy. apply Hsymbol in Hy. rewrite negb_false_iff, Z.eqb_eq in Hy. exact Hy.
  - rewrite <- Z.eqb_neq, <- negb_true_iff. exact Hdecoder.
Qed.
