(* ===== verification/ArmRun.v ===== *)
(** * What an arm leaves behind

    Theorems on Arm (src/app/internal/sramcapture/capture.go): its cache and
    its write queue are closed on every return, and a successful arm ends with
    the record's registers and one acknowledged arm command, in that order. *)
From S2P Require Import Prelude Machine Fabric Bus BusSteps Command TrigPacket TrigSerial TrigQualify TrigSymbol Status Open Arm.

(** ** The cache and the queue close *)

Section closing.
Context {E : Env}.

Lemma armEnd_closes e s : exists o, (armEnd e s).1 = Ret o /\ open (armEnd e s).2.
Proof.
  unfold armEnd, errOf, attempt, modify, mbind, SE_bind.
  set (s0 := set_queueWrites false (set_armReady false s)).
  destruct (flushWrites_clears s0) as [Hp [Ha Hq]]. destruct (flushWrites_after s0) as [He _].
  destruct (flushWrites s0) as [[[]|e'| |] s1]; try done; eexists; (split; [reflexivity|]); done.
Qed.

Lemma Arm_open fuel c cfg s o s' :
  open s -> Arm fuel c cfg s = (o, s') -> ends o ->
  open s' /\ (forall e, Check cfg = Some e -> o = Fail e /\ s' = s).
Proof.
  intros Hs H Ho. unfold Arm in H. destruct (Check cfg) as [e|].
  { injection H as <- <-. split; [done|]. by intros ? [= <-]. }
  split; [|done]. unfold mbind at 1, SE_bind at 1 in H. simpl in H.
  unfold checkCtx in H. unfold mbind at 1, SE_bind at 1 in H. unfold mbind at 1, SE_bind at 1 in H.
  unfold ctxErr, gets in H. destruct (if _ : bool then _ else _) as [e|] in H; [by injection H as <- <-|].
  simpl in H. unfold mbind at 1, SE_bind at 1 in H.
  pose proof (readMany_open armSels s Hs) as Hs1.
  destruct (readMany armSels s) as [[r|e| |] s1]; simpl in *; try by (injection H as <- <-).
  set (s2 := set_queueWrites true (set_armReady true (set_armRead r s1))).
  change (finally (armBody fuel c cfg) armEnd s2 = (o, s')) in H. clearbody s2.
  unfold finally, attempt, mbind, SE_bind in H.
  destruct (armBody fuel c cfg s2) as [[[]|e| |] s3]; simpl in H; try (injection H as <- <-; done).
  - destruct (armEnd_closes None s3) as (o' & Ho' & Hopen).
    destruct (armEnd None s3) as [[x|?| |] s4]; try done. simpl in *. destruct x; by injection H as _ <-.
  - destruct (armEnd_closes (Some e) s3) as (o' & Ho' & Hopen).
    destruct (armEnd (Some e) s3) as [[x|?| |] s4]; try done. simpl in *. destruct x; by injection H as _ <-.
Qed.

(** whatever an arm returns, its register cache is off and its write queue
    is closed and empty, so no write of a failed arm reaches the bus later and
    no later method reads Arm's cached registers; a configuration Check
    refuses leaves the capture and the bus untouched. *)
Theorem Arm_closes fuel c cfg s o s' :
  open s -> Arm fuel c cfg s = (o, s') -> ends o ->
  open s' /\ (forall e, Check cfg = Some e -> o = Fail e /\ s' = s).
Proof. apply Arm_open. Qed.
End closing.

(** ** The writes of a successful arm *)

(** [m] only adds issued writes. *)
Definition extending {E : Env} {A} (m : M A) : Prop :=
  forall s a s', queueOk s -> m s = (Ret a, s') -> queueOk s' /\ exists regs, issued s' = issued s ++ regs.

Create HintDb extending.

Section extending.
Context {E : Env}.

Lemma extending_issues {A} (m : M A) regs : issues m regs -> extending m.
Proof. intros Hm s a s' Hq H. apply Hm in H as [? ?]; eauto. Qed.
Lemma extending_bind {A B} (m : M A) (f : A -> M B) :
  extending m -> (forall a, extending (f a)) -> extending (m ≫= f).
Proof.
  intros Hm Hf s b s'' Hq H. apply bind_Ret_inv in H as (a & s' & H1 & H2).
  apply Hm in H1 as (Hq' & r1 & H1); [|done]. apply Hf in H2 as (Hq'' & r2 & H2); [|done].
  split; [done|]. exists (r1 ++ r2). by rewrite H2, H1, app_assoc.
Qed.
Lemma configured_extends en regs off s s' :
  configured en regs off s s' -> queueOk s' /\ exists regs, issued s' = issued s ++ regs.
Proof.
  intros [Hq' H]. split; [done|].
  destruct en; [by eexists|]. destruct H as [H|H]; [exists []; by rewrite app_nil_r|by eexists].
Qed.
Lemma extending_configured {A} (m : M A) en regs off :
  (forall s a s', queueOk s -> m s = (Ret a, s') -> configured en regs off s s') -> extending m.
Proof. intros Hm s a s' Hq H. by eapply configured_extends, Hm. Qed.

Lemma extending_qualifier rev p : extending (Qualifier.configureQualifier rev p).
Proof. eapply extending_configured. intros s a s'. apply Qualifier.configureQualifier_configured. Qed.
Lemma extending_zones rev p : extending (Zone.configureZones rev p).
Proof. eapply extending_configured. intros s a s'. apply Zone.configureZones_configured. Qed.
Lemma extending_packet p : extending (Packet.configurePacket p).
Proof. eapply extending_configured. intros s a s'. apply configurePacket_configured. Qed.
Lemma extending_manchester p : extending (Manchester.configureManchester p).
Proof. eapply extending_configured. intros s a s'. apply configureManchester_configured. Qed.
Lemma extending_sent rev p : extending (SENT.configureSENT rev p).
Proof. eapply extending_configured. intros s a s'. apply SENT.configureSENT_configured. Qed.
Lemma extending_usb rev p : extending (USBLS.configureUSBLS rev p).
Proof. eapply extending_configured. intros s a s'. apply USBLS.configureUSBLS_configured. Qed.
Lemma extending_mil rev p : extending (MIL1553.configureMIL1553 rev p).
Proof. eapply extending_configured. intros s a s'. apply MIL1553.configureMIL1553_configured. Qed.
Lemma extending_spi rev p : extending (SPI.configureSPI rev p).
Proof.
  intros s a s' Hq H. apply SPI.configureSPI_configured in H as (cap & H & _); [|done].
  by eapply configured_extends.
Qed.
Lemma extending_i2c rev p : extending (I2C.configureI2C rev p).
Proof.
  intros s a s' Hq H. apply I2C.configureI2C_configured in H as (cap & H & _); [|done].
  by eapply configured_extends.
Qed.
Lemma extending_uart rev p : extending (UART.configureUART rev p).
Proof. eapply extending_configured. intros s a s'. apply UART.configureUART_configured. Qed.

Lemma extending_if {A} (b : bool) (m m' : M A) : extending m -> extending m' -> extending (if b then m else m').
Proof. by destruct b. Qed.
End extending.

#[export] Hint Resolve extending_qualifier extending_zones extending_packet extending_manchester extending_sent
  extending_usb extending_mil extending_spi extending_i2c extending_uart : extending.
#[export] Hint Extern 5 (extending _) =>
  first [apply (extending_issues _ []); solve [auto with issues]
        |eapply extending_issues; solve [eauto with issues]] : extending.

Ltac extending_tac :=
  repeat first
    [ solve [auto with extending]
    | match goal with
      | |- extending (mbind _ _) => apply extending_bind; [|intros ?]
      | |- extending (if _ then _ else _) => apply extending_if
      | |- extending (match ?x with _ => _ end) => destruct x
      end ].

Section arming.
Context {E : Env}.

Lemma extending_symbol rev p : extending (Symbol.configureSymbol rev p).
Proof. unfold Symbol.configureSymbol, Symbol.loadTable. extending_tac. Qed.
Lemma extending_sequence p : extending (Sequence.configureSequence p).
Proof. unfold Sequence.configureSequence, Sequence.sequenceCapability. extending_tac. Qed.
Lemma extending_triggers rev cfg : extending (armTriggers rev cfg).
Proof.
  unfold armTriggers. repeat (apply extending_bind; [|intros _]);
    auto using extending_symbol, extending_sequence with extending.
Qed.

(** The record's registers, and those that restart the decoded stream. *)
Definition recordRegs (revision : Z) (cfg : Config) : list (Z * Z) :=
  (if 9 <=? revision then [(18, decimationReg cfg)] else []) ++
  [(2, PreWords cfg .& 0xffff); (3, u16 (PreWords cfg .>> 16));
   (4, PostWords cfg .& 0xffff); (5, u16 (PostWords cfg .>> 16));
   (6, configWord cfg); (7, TriggerLevel cfg .| u16 (TriggerHysteresis cfg .<< 8))] ++
  (if twoLines cfg then [(regSecondLevel, secondLevel cfg)] else []).
Definition streamRegs (cfg : Config) : list (Z * Z) :=
  if DecodedEvents cfg then [(57, 0); (60, 2); (57, 1)] else [].

Lemma issues_if {A} (b : bool) (m m' : M A) r r' :
  issues m r -> issues m' r' -> issues (if b then m else m') (if b then r else r').
Proof. by destruct b. Qed.

Lemma issues_armRecord revision cfg : issues (armRecord revision cfg) (recordRegs revision cfg).
Proof.
  unfold armRecord, recordRegs. cbn [app].
  apply issues_bind; [apply issues_if; auto with issues|intros _].
  apply (issues_bind _ _ [_; _]); [apply issues_write32|intros _].
  apply (issues_bind _ _ [_; _]); [apply issues_write32|intros _].
  do 2 (apply issues_write_then). apply issues_if; auto with issues.
Qed.

Lemma issues_enableDecodedEvents enabled :
  issues (enableDecodedEvents enabled) ([(57, 0); (60, 2)] ++ if enabled then [(57, 1)] else []).
Proof.
  unfold enableDecodedEvents. apply issues_then; [auto with issues|intros cap].
  apply issues_then; [auto with issues|intros _].
  apply issues_first; [auto with issues|intros _]. issues_tac.
Qed.

Lemma issues_armImage cfg : issues (armImage cfg) [].
Proof.
  unfold armImage. issues_tac. apply issues_then; [|intros _; auto with issues].
  destruct (negb _); [|auto with issues].
  intros s b s' Hq H. apply bind_Ret_inv in H as (r & s1 & H1 & H).
  apply attempt_Ret_inv in H1 as [(raw & -> & H1)|(e & -> & H1)]; [|done].
  destruct raw; [done|]. inv_ret H. by apply issues_rawOnly in H1.
Qed.

Lemma extending_armStream revision cfg : extending (armStream revision cfg).
Proof. unfold armStream. extending_tac. Qed.

(** The arm command, after the stream's restart. *)
Lemma armStart_Ret fuel c cfg s a s' :
  queueOk s -> armStart fuel c cfg s = (Ret a, s') ->
  queueOk s' /\ exists s1, issued s1 = issued s ++ streamRegs cfg /\ acknowledged 1 s1 s'.
Proof.
  intros Hq H. unfold armStart in H. apply bind_Ret_inv in H as ([] & s1 & H1 & H).
  assert (issues (if DecodedEvents cfg then enableDecodedEvents true;; mret tt else mret tt) (streamRegs cfg)) as Hi.
  { unfold streamRegs. apply issues_if; [|apply issues_mret].
    apply issues_first; [apply (issues_enableDecodedEvents true)|intros _; apply issues_mret]. }
  apply Hi in H1 as [Hq1 Hi1]; [|done]. apply bind_Ret_inv in H as (r & s2 & H2 & H).
  apply attempt_Ret_inv in H2 as [([] & -> & H2)|(e & -> & H2)].
  - inv_ret H. apply command_Ret in H2 as [Hq2 Ha]; [|done]. split; [done|]. by exists s1.
  - apply bind_Ret_inv in H as ([] & s3 & _ & H). inv_ret H.
Qed.

Lemma armBody_Ret fuel c cfg s a s' :
  queueOk s -> armBody fuel c cfg s = (Ret a, s') ->
  queueOk s' /\ exists revision before s1,
    issued s1 = issued s ++ before ++ recordRegs revision cfg ++ streamRegs cfg /\ acknowledged 1 s1 s'.
Proof.
  intros Hq H. unfold armBody in H. apply bind_Ret_inv in H as (rev & s1 & H1 & H).
  apply issues_armImage in H1 as [Hq1 H1]; [|done].
  apply bind_Ret_inv in H as ([] & s2 & H2 & H). apply extending_armStream in H2 as (Hq2 & b1 & H2); [|done].
  apply bind_Ret_inv in H as ([] & s3 & H3 & H). apply extending_triggers in H3 as (Hq3 & b2 & H3); [|done].
  apply bind_Ret_inv in H as ([] & s4 & H4 & H). apply issues_armRecord in H4 as [Hq4 H4]; [|done].
  apply armStart_Ret in H as (Hq5 & s5 & H5 & Ha); [|done]. split; [done|].
  exists rev, (b1 ++ b2), s5. split; [|done]. by rewrite H5, H4, H3, H2, H1, app_nil_r, <- !app_assoc.
Qed.

(** What sram_record and the trigger read from the record's registers
    (top.v). *)
Record RecordPort := {
  pre_words : Z; post_words : Z; adc : bool; pair : Z; normal : bool; falling : bool;
  trigger_channel : Z; trigger_level : Z; trigger_hysteresis : Z
}.
Definition recordPort (f : Z -> Z) : RecordPort :=
  {| pre_words := wide (f 2) (f 3) 20; post_words := wide (f 4) (f 5) 20; adc := flag (f 6) 0;
     pair := bits (f 6) 1 3; normal := flag (f 6) 4; falling := flag (f 6) 5; trigger_channel := bits (f 6) 6 1;
     trigger_level := bits (f 7) 0 8; trigger_hysteresis := bits (f 7) 8 8 |}.
Definition recordRun (cfg : Config) : RecordPort :=
  {| pre_words := PreWords cfg; post_words := PostWords cfg; adc := Source cfg =? ADC; pair := Pair cfg;
     normal := Normal cfg; falling := Falling cfg; trigger_channel := TriggerChannel cfg;
     trigger_level := TriggerLevel cfg; trigger_hysteresis := TriggerHysteresis cfg |}.
(** top.v's host_geometry_ok, without which it rejects the arm command. *)
Definition geometryOk (p : RecordPort) : bool :=
  negb (post_words p =? 0) && (pre_words p + post_words p <=? 524288) && (pair p <? 5).

Definition wfRecord (cfg : Config) : Prop :=
  fits 32 (PreWords cfg) /\ fits 32 (PostWords cfg) /\ fits 8 (Pair cfg) /\ fits 8 (TriggerChannel cfg) /\
  fits 8 (TriggerLevel cfg) /\ fits 8 (TriggerHysteresis cfg).

Lemma checkRecord_bounds cfg :
  Check cfg = None ->
  Pair cfg <= 4 /\ TriggerChannel cfg <= 1 /\ PostWords cfg <> 0 /\ PreWords cfg + PostWords cfg <= Words.
Proof. unfold Check, checkRecord. rewrite !orElse_None, refuse_None. intros (_ & _ & H). lia. Qed.

Lemma recordPort_registers revision cfg f :
  wfRecord cfg -> Check cfg = None ->
  recordPort (written (recordRegs revision cfg ++ streamRegs cfg ++ [(1, 1)]) f) = recordRun cfg /\
  geometryOk (recordRun cfg) = true.
Proof.
  intros (Hpre & Hpost & Hpair & Hch & Hlev & Hhys) Hc. apply checkRecord_bounds in Hc as (? & ? & ? & ?).
  unfold Words in *. width 20 (PreWords cfg). width 20 (PostWords cfg). width 3 (Pair cfg).
  width 1 (TriggerChannel cfg). split; [|unfold geometryOk; simpl; lia].
  assert (bit (TriggerChannel cfg =? 1) 1 = TriggerChannel cfg) as Hbit.
  { unfold fits in *. destruct (Z.eqb_spec (TriggerChannel cfg) 1); simpl; lia. }
  unfold recordRegs, streamRegs, regSecondLevel. rewrite !written_app.
  unfold recordPort, recordRun, flag.
  destruct (9 <=? revision), (twoLines cfg), (DecodedEvents cfg);
    cbn -[wide]; rewrite !wide_split by (done || lia); unfold configWord; f_equal; bits_tac; done.
Qed.

(** A successful arm is its body between the cache's fill and the queue's flush. *)
Lemma Arm_Ret fuel c cfg s a s' :
  open s -> Arm fuel c cfg s = (Ret a, s') ->
  Check cfg = None /\ open s' /\ exists s3 s4,
    queueOk s3 /\ issued s3 = writesOf (trace s) /\ armBody fuel c cfg s3 = (Ret tt, s4) /\
    writesOf (trace s') = issued s4.
Proof.
  intros Hs H. unfold Arm in H. apply bind_Ret_inv in H as ([] & s1 & H1 & H).
  apply liftErr_Ret_inv in H1 as [Hc ->]. split; [done|]. apply bind_Ret_inv in H as ([] & s1 & H1 & H).
  apply bind_Ret_inv in H1 as (e & s1' & H1 & H1'). injection H1 as _ <-. apply liftErr_Ret_inv in H1' as [_ ->].
  apply bind_Ret_inv in H as (r & s2 & H2 & H). assert (queueOk s) as Hq by (intros _; apply Hs).
  apply issues_readMany in H2 as [_ H2]; [|done]. apply bind_Ret_inv in H as ([] & s3 & H3 & H).
  injection H3 as <-. set (s3 := set_queueWrites _ _) in H.
  assert (issued s3 = writesOf (trace s)) as Hi3.
  { transitivity (issued s2); [done|]. rewrite H2, app_nil_r. by apply open_issued. }
  assert (queueOk s3) as Hq3 by done. clearbody s3.
  unfold finally in H. apply bind_Ret_inv in H as (r' & s4 & H4 & H).
  apply bind_Ret_inv in H as (e1 & s5 & H5 & H). destruct e1 as [e1|]; [done|].
  apply attempt_Ret_inv in H4 as [([] & -> & H4)|(e2 & -> & H4)]; [|done]. apply mret_Ret_inv in H as [_ ->].
  destruct (armEnd_closes None s4) as (o & _ & Hopen). rewrite H5 in Hopen.
  split; [exact Hopen|]. exists s3, s4. split_and!; [done..|].
  unfold armEnd in H5. apply bind_Ret_inv in H5 as ([] & s7 & H7 & H5). injection H7 as <-.
  apply bind_Ret_inv in H5 as (e3 & s8 & H8 & H5). apply mret_Ret_inv in H5 as [<- ->].
  apply errOf_None_inv, flushWrites_Ret in H8 as (H8 & Hp & _). unfold issued in H8 at 1.
  rewrite Hp, app_nil_r in H8. exact H8.
Qed.

End arming.
