(* ===== verification/ArmTriggers.v ===== *)
(** * The trigger blocks after an arm

    Arm (src/app/internal/sramcapture/capture.go) configures fourteen blocks
    one after the other over one register space, then the record, the stream
    and the command. No later step writes a register an earlier enabled block
    reads, so once an arm succeeds the fabric runs every enabled decoder, the
    qualifier and the zones as configured. *)
From S2P Require Import Prelude Machine Fabric Bus BusSteps Command TrigPacket TrigSerial TrigQualify TrigSymbol Status.
From S2P Require Import Open Arm ArmRun.

(** ** Methods that write certain registers only *)

Definition within (sels : list Z) (regs : list (Z * Z)) : Prop := Forall (fun r => r.1 ∈ sels) regs.
Definition writing {E : Env} {A} (sels : list Z) (m : M A) : Prop :=
  forall s a s', queueOk s -> m s = (Ret a, s') ->
    queueOk s' /\ exists regs, issued s' = issued s ++ regs /\ within sels regs.

(** Registers of concrete writes. *)
Lemma within_fst sels regs : forallb (fun x => existsb (Z.eqb x) sels) (map fst regs) = true -> within sels regs.
Proof.
  rewrite forallb_forall. intros H. apply Forall_forall. intros r Hr.
  assert (existsb (Z.eqb r.1) sels = true) as He by by apply H, in_map, list_elem_of_In.
  apply existsb_exists in He as (y & Hy & Hxy). apply Z.eqb_eq in Hxy as ->. by apply list_elem_of_In.
Qed.
Ltac within_tac := apply within_fst; reflexivity.

(** Two lists of registers apart. *)
Definition apart (own others : list Z) : bool := forallb (fun x => negb (existsb (Z.eqb x) others)) own.
Lemma apart_spec own others x : apart own others = true -> x ∈ own -> x ∉ others.
Proof.
  unfold apart. rewrite forallb_forall. intros H Hx Ho. apply list_elem_of_In in Hx. specialize (H x Hx).
  rewrite negb_true_iff in H. assert (existsb (Z.eqb x) others = true) as He; [|congruence].
  apply existsb_exists. exists x. split; [by apply list_elem_of_In|apply Z.eqb_refl].
Qed.

Lemma written_within sels regs f x : within sels regs -> x ∉ sels -> written regs f x = f x.
Proof.
  intros H Hx. revert f. induction H as [|r regs Hr _ IH]; intros f; [done|]. cbn [written fold_left].
  fold (written regs (fun y => if y =? r.1 then r.2 else f y)). rewrite IH.
  destruct (Z.eqb_spec x r.1) as [->|]; [done|done].
Qed.

Section writing.
Context {E : Env}.

Lemma writing_issues {A} sels (m : M A) regs : issues m regs -> within sels regs -> writing sels m.
Proof. intros Hm Hw s a s' Hq H. apply Hm in H as [? ?]; eauto. Qed.
Lemma writing_silent {A} sels (m : M A) : issues m [] -> writing sels m.
Proof. intros Hm. eapply writing_issues; [exact Hm|constructor]. Qed.
Lemma writing_bind {A B} sels (m : M A) (f : A -> M B) :
  writing sels m -> (forall a, writing sels (f a)) -> writing sels (m ≫= f).
Proof.
  intros Hm Hf s b s'' Hq H. apply bind_Ret_inv in H as (a & s' & H1 & H2).
  apply Hm in H1 as (Hq' & r1 & H1 & W1); [|done]. apply Hf in H2 as (Hq'' & r2 & H2 & W2); [|done].
  split; [done|]. exists (r1 ++ r2). split; [by rewrite H2, H1, app_assoc|]. by apply Forall_app.
Qed.
Lemma configured_within sels en regs off s s' :
  configured en regs off s s' -> within sels regs -> within sels off ->
  queueOk s' /\ exists w, issued s' = issued s ++ w /\ within sels w.
Proof.
  intros [Hq H] Hr Ho. split; [done|]. destruct en; [by exists regs; split|].
  destruct H as [H|H]; [exists []; rewrite app_nil_r; split; [done|constructor]|by exists off; split].
Qed.
Lemma writing_configured {A} sels (m : M A) en regs off :
  (forall s a s', queueOk s -> m s = (Ret a, s') -> configured en regs off s s') ->
  within sels regs -> within sels off -> writing sels m.
Proof. intros Hm Hr Ho s a s' Hq H. eapply configured_within; [by eapply Hm|done..]. Qed.
End writing.

(** ** Each block's registers *)

Definition qualifierSels : list Z := [21; 22; 24; 26; 27; 28].
Definition zoneSels : list Z := [83; 84; 85; 86; 87; 88; 89; 90; 91; 92; 69; 70; 71; 72; 73].
Definition symbolSels : list Z := [93; 94; 95; 96; 97; 98; 99; 100; 101; 102; 103; 104; 105; 106; 107; 108].
Definition sequenceSels : list Z := [118; 119; 120; 121; 122; 123; 124].
Definition packetSels : list Z := [109; 110; 111; 112; 113; 114; 115; 116; 117].
Definition manchesterSels : list Z := [102; 103; 104; 105; 106; 107; 108].
Definition sentSels : list Z := [77; 78; 79; 80; 81; 82].
Definition usbSels : list Z := [97; 98; 99; 100; 101].
Definition milSels : list Z := [93; 94; 95; 96].
Definition spiSels : list Z := [64; 65; 66; 67; 68; 58].
Definition i2cSels : list Z := [53; 54; 55; 56; 58].
Definition uartSels : list Z := [48; 49; 50; 51; 52].
(** The record's registers, the decoded stream's and the command. *)
Definition endSels : list Z := [18; 2; 3; 4; 5; 6; 7; 59; 57; 60; 1].

(** A port reads its block's registers only. *)
Definition reads {P} (own : list Z) (port : (Z -> Z) -> P) : Prop :=
  forall g g', (forall x, x ∈ own -> g x = g' x) -> port g = port g'.
Ltac reads_tac port :=
  let g := fresh "g" in let g' := fresh "g'" in let H := fresh "H" in
  intros g g' H; unfold port;
  repeat match goal with |- context [g ?x] => rewrite (H x) by (apply list_elem_of_In; simpl; tauto) end; reflexivity.

Lemma reads_qualifier : reads qualifierSels Qualifier.port.
Proof. reads_tac Qualifier.port. Qed.
Lemma reads_packet : reads packetSels Packet.port.
Proof. reads_tac Packet.port. Qed.
Lemma reads_manchester : reads manchesterSels Manchester.port.
Proof. reads_tac Manchester.port. Qed.
Lemma reads_sent : reads sentSels SENT.port.
Proof. reads_tac SENT.port. Qed.
Lemma reads_usb : reads usbSels USBLS.port.
Proof. reads_tac USBLS.port. Qed.
Lemma reads_mil : reads milSels MIL1553.port.
Proof. reads_tac MIL1553.port. Qed.
Lemma reads_spi : reads spiSels SPI.port.
Proof. reads_tac SPI.port. Qed.
Lemma reads_i2c : reads i2cSels I2C.port.
Proof. reads_tac I2C.port. Qed.
Lemma reads_uart : reads uartSels UART.port.
Proof. reads_tac UART.port. Qed.

Lemma within_concat {A} sels (g : nat -> A -> list (Z * Z)) l :
  (forall i a, l !! i = Some a -> within sels (g i a)) -> within sels (concat (imap g l)).
Proof.
  intros H. apply Forall_concat, Forall_forall. intros w Hw.
  apply list_elem_of_lookup in Hw as [i Hi]. rewrite list_lookup_imap in Hi.
  destruct (l !! i) eqn:Hl; [|done]. injection Hi as <-. by apply H.
Qed.

Section blocks.
Context {E : Env}.

Lemma writing_qualifier rev p : writing qualifierSels (Qualifier.configureQualifier rev p).
Proof. eapply writing_configured; [intros s a s'; apply Qualifier.configureQualifier_configured|within_tac..]. Qed.
Lemma within_zones z : length (Zone.Zones z) = 4%nat -> within zoneSels (Zone.registers z).
Proof.
  intros Hz. unfold Zone.registers. apply Forall_app. split; [within_tac|]. apply Forall_app. split; [|within_tac].
  apply within_concat. intros i w Hi. apply lookup_lt_Some in Hi. rewrite Hz in Hi. unfold Zone.windowRegs.
  destruct (Zone.Enabled w); [|constructor]. destruct i as [|[|[|[|i]]]]; [within_tac..|lia].
Qed.
Lemma writing_zones rev z : length (Zone.Zones z) = 4%nat -> writing zoneSels (Zone.configureZones rev z).
Proof.
  intros Hz. eapply writing_configured; [intros s a s'; apply Zone.configureZones_configured|by apply within_zones|within_tac].
Qed.
Lemma writing_packet p : writing packetSels (Packet.configurePacket p).
Proof. eapply writing_configured; [intros s a s'; apply configurePacket_configured|within_tac..]. Qed.
Lemma writing_manchester p : writing manchesterSels (Manchester.configureManchester p).
Proof. eapply writing_configured; [intros s a s'; apply configureManchester_configured|within_tac..]. Qed.
Lemma writing_sent rev p : writing sentSels (SENT.configureSENT rev p).
Proof. eapply writing_configured; [intros s a s'; apply SENT.configureSENT_configured|within_tac..]. Qed.
Lemma writing_usb rev p : writing usbSels (USBLS.configureUSBLS rev p).
Proof. eapply writing_configured; [intros s a s'; apply USBLS.configureUSBLS_configured|within_tac..]. Qed.
Lemma writing_mil rev p : writing milSels (MIL1553.configureMIL1553 rev p).
Proof. eapply writing_configured; [intros s a s'; apply MIL1553.configureMIL1553_configured|within_tac..]. Qed.
Lemma writing_spi rev p : writing spiSels (SPI.configureSPI rev p).
Proof.
  intros s a s' Hq H. apply SPI.configureSPI_configured in H as (cap & H & _); [|done].
  eapply configured_within; [exact H|unfold SPI.registers; destruct (_ =? _)|]; within_tac.
Qed.
Lemma writing_i2c rev p : writing i2cSels (I2C.configureI2C rev p).
Proof.
  intros s a s' Hq H. apply I2C.configureI2C_configured in H as (cap & H & _); [|done].
  eapply configured_within; [exact H|unfold I2C.registers; destruct (_ =? _)|]; within_tac.
Qed.
(** A disabled receiver leaves the sample delay to the other. *)
Lemma writing_i2c_off rev p : I2C.Enabled p = false -> writing [53] (I2C.configureI2C rev p).
Proof.
  intros He s a s' Hq H. apply I2C.configureI2C_configured in H as (cap & H & _); [|done]. rewrite He in H.
  eapply (configured_within [53] false []); [exact H|constructor|within_tac].
Qed.
Lemma writing_uart rev p : writing uartSels (UART.configureUART rev p).
Proof. eapply writing_configured; [intros s a s'; apply UART.configureUART_configured|within_tac..]. Qed.

Lemma writing_record rev cfg : writing endSels (armRecord rev cfg).
Proof.
  eapply writing_issues; [apply issues_armRecord|]. unfold recordRegs, regSecondLevel.
  destruct (9 <=? rev), (twoLines cfg); within_tac.
Qed.
Lemma writing_start fuel c cfg : writing endSels (armStart fuel c cfg).
Proof.
  intros s a s' Hq H. apply armStart_Ret in H as (Hq' & s1 & H1 & H2 & _); [|done]. split; [done|].
  exists (streamRegs cfg ++ [(1, 1)]). rewrite H2, H1, app_assoc. split; [done|].
  unfold streamRegs. destruct (DecodedEvents cfg); within_tac.
Qed.
End blocks.

Lemma writing_mono {E : Env} {A} sels sels' (m : M A) :
  forallb (fun x => existsb (Z.eqb x) sels') sels = true -> writing sels m -> writing sels' m.
Proof.
  intros Hs Hm s a s' Hq H. apply Hm in H as (Hq' & regs & Hi & Hw); [|done]. split; [done|]. exists regs. split; [done|].
  rewrite forallb_forall in Hs. eapply Forall_impl; [exact Hw|]. intros r Hr. apply list_elem_of_In in Hr.
  specialize (Hs _ Hr). apply existsb_exists in Hs as (y & Hy & Hxy). apply Z.eqb_eq in Hxy as ->. by apply list_elem_of_In.
Qed.

Section memories.
Context {E : Env}.

Lemma within_table t : within symbolSels (Symbol.tableRegs t).
Proof.
  unfold Symbol.tableRegs. apply Forall_app. split; [within_tac|]. apply Forall_app. split; [|within_tac].
  apply (proj2 (Forall_fmap _ _ _)), Forall_true. intros v. apply list_elem_of_In. simpl. tauto.
Qed.
Lemma writing_symbol rev p : writing symbolSels (Symbol.configureSymbol rev p).
Proof.
  unfold Symbol.configureSymbol, Symbol.loadTable.
  apply writing_bind; [apply writing_silent; issues_tac|intros cap].
  destruct (negb _); [apply writing_silent; issues_tac|].
  destruct (negb _); [eapply writing_issues; [apply issues_write|within_tac]|].
  apply writing_bind; [eapply writing_issues; [apply issues_write|within_tac]|intros _].
  apply writing_bind; [apply writing_silent; issues_tac|intros loaded].
  apply writing_bind; [apply writing_silent; issues_tac|intros stale].
  apply writing_bind; [|intros _; eapply writing_issues; [apply issues_writeMany|within_tac]].
  destruct stale; [|apply writing_silent; issues_tac].
  apply writing_bind; [apply writing_silent; issues_tac|intros _].
  apply writing_bind; [eapply writing_issues; [apply issues_writeMany|apply within_table]|intros _].
  apply writing_silent. issues_tac.
Qed.

Lemma writing_sequence p : writing sequenceSels (Sequence.configureSequence p).
Proof.
  unfold Sequence.configureSequence.
  apply writing_bind; [apply writing_silent, Sequence.issues_sequenceCapability|intros present].
  destruct (negb _); [apply writing_silent; issues_tac|].
  apply writing_bind; [eapply writing_issues; [apply issues_write|within_tac]|intros _].
  destruct (_ =? _); [apply writing_silent; issues_tac|]. destruct (_ <? _); [by intros ?|].
  apply writing_bind; [eapply writing_issues; [apply issues_writeMany|]|intros _; eapply writing_issues; [apply issues_write|within_tac]].
  apply within_concat. intros i e _. within_tac.
Qed.
End memories.

(** ** What is written last stays *)

Definition since (sels : list Z) (s s' : capture) : Prop := exists w, issued s' = issued s ++ w /\ within sels w.

Lemma since_app sels sels' s1 s2 s3 : since sels s1 s2 -> since sels' s2 s3 -> since (sels ++ sels') s1 s3.
Proof.
  intros (w & H & Hw) (w' & H' & Hw'). exists (w ++ w'). rewrite H', H, app_assoc. split; [done|].
  apply Forall_app. split; [eapply Forall_impl; [exact Hw|]|eapply Forall_impl; [exact Hw'|]];
    intros r Hr; apply elem_of_app; auto.
Qed.

(** The registers of a block configured before the tail. *)
Lemma kept_registers own tail regs s s1 s2 f x :
  issued s1 = issued s ++ regs -> since tail s1 s2 -> apart own tail = true -> x ∈ own ->
  written (issued s2) f x = written regs (written (issued s) f) x.
Proof.
  intros H1 (w & H2 & Hw) Ha Hx. rewrite H2, H1, !written_app. eapply written_within; [exact Hw|by eapply apart_spec].
Qed.
Lemma kept {P} (port : (Z -> Z) -> P) own tail en regs off s s1 s2 f want :
  reads own port -> configured en regs off s s1 -> since tail s1 s2 -> apart own tail = true ->
  (en = true -> forall f, port (written regs f) = want) -> en = true -> port (written (issued s2) f) = want.
Proof.
  intros Hr [_ Hc] Hs Ha Hp He. rewrite He in Hc. rewrite <- (Hp He (written (issued s) f)). apply Hr. intros x Hx.
  by eapply kept_registers.
Qed.

(** One step of a method and what the rest of it writes. *)
Lemma step_tail {E : Env} {A B} tail (m : M A) (k : A -> M B) s b s2 :
  queueOk s -> (forall s a s', queueOk s -> m s = (Ret a, s') -> queueOk s') -> (forall a, writing tail (k a)) ->
  (m ≫= k) s = (Ret b, s2) ->
  exists a s1, m s = (Ret a, s1) /\ k a s1 = (Ret b, s2) /\ queueOk s1 /\ since tail s1 s2.
Proof.
  intros Hq Hm Hk H. apply bind_Ret_inv in H as (a & s1 & H1 & H2). exists a, s1. assert (queueOk s1) as Hq1 by by eapply Hm.
  split_and!; [done..|]. apply Hk in H2 as (_ & w & Hi & Hw); [|done]. exists w. by split.
Qed.
Lemma writing_queueOk {E : Env} {A} sels (m : M A) : writing sels m ->
  forall s a s', queueOk s -> m s = (Ret a, s') -> queueOk s'.
Proof. intros Hm s a s' Hq H. by apply Hm in H as [? _]. Qed.

(** ** Check's verdict, block by block *)

Lemma Check_blocks cfg :
  Check cfg = None ->
  Packet.validate (Packet cfg) = None /\ Manchester.validate (Manchester cfg) = None /\
  Qualifier.validate (Qualifier cfg) = None /\ Zone.validate (Zones cfg) = None /\ USBLS.validate (USBLS cfg) = None /\
  MIL1553.validate (MIL1553 cfg) = None /\ SENT.validate (SENT cfg) = None /\
  (SPI.Enabled (SPI cfg) = true -> SPI.inRange (SPI cfg) = true /\ I2C.Enabled (I2C cfg) = false) /\
  (I2C.Enabled (I2C cfg) = true -> I2C.inRange (I2C cfg) = true) /\
  (UART.Enabled (UART cfg) = true -> UART.valid (UART cfg) = true).
Proof.
  unfold Check, checkMatched, checkSerial. rewrite !orElse_None, !refuse_None. intros H. destruct_and! H.
  split_and!; try done; intros He; rewrite He in *; cbn [andb] in *;
    repeat match goal with H : _ || _ = false |- _ => apply orb_false_iff in H as [? ?] end;
    repeat match goal with H : negb _ = false |- _ => apply negb_false_iff in H end; auto.
Qed.

(** The fields' Go types. *)
Definition wfTriggers (cfg : Config) : Prop :=
  Qualifier.wf (Qualifier cfg) /\ Zone.wf (Zones cfg) /\ Packet.wf (Packet cfg) /\ Manchester.wf (Manchester cfg) /\
  SENT.wf (SENT cfg) /\ USBLS.wf (USBLS cfg) /\ MIL1553.wf (MIL1553 cfg) /\ SPI.wf (SPI cfg) /\ I2C.wf (I2C cfg) /\
  UART.wf (UART cfg).

(** The registers [g] run every enabled block as configured. *)
Definition triggersRun (cfg : Config) (g : Z -> Z) : Prop :=
  (Qualifier.Enabled (Qualifier cfg) = true -> Qualifier.port g = Qualifier.run (Qualifier cfg)) /\
  (Zone.anyEnabled (Zones cfg) = true ->
     (forall i w, Zone.Zones (Zones cfg) !! i = Some w -> Zone.zoneRuns g i w) /\
     bits (g 84) 0 11 = Zone.Wait (Zones cfg) /\ bits (g 85) 0 12 = Zone.Bucket (Zones cfg) - 1) /\
  (Packet.Enabled (Packet cfg) = true -> Packet.port g = Packet.run (Packet cfg)) /\
  (Manchester.Enabled (Manchester cfg) = true -> Manchester.port g = Manchester.run (Manchester cfg)) /\
  (SENT.Enabled (SENT cfg) = true -> SENT.port g = SENT.run (SENT cfg)) /\
  (USBLS.Enabled (USBLS cfg) = true -> USBLS.port g = USBLS.run (USBLS cfg)) /\
  (MIL1553.Enabled (MIL1553 cfg) = true -> MIL1553.port g = MIL1553.run (MIL1553 cfg)) /\
  (SPI.Enabled (SPI cfg) = true ->
     exists capability, (capability = SPI.spiLevels \/ capability = SPI.spiSamples) /\
       SPI.port g = SPI.run capability g (SPI cfg)) /\
  (I2C.Enabled (I2C cfg) = true ->
     exists capability, (capability = I2C.i2cLevels \/ capability = I2C.i2cSamples) /\
       (I2C.Samples (I2C cfg) = true -> capability = I2C.i2cSamples) /\ I2C.port g = I2C.run capability g (I2C cfg)) /\
  (UART.Enabled (UART cfg) = true -> UART.port g = UART.run (UART cfg)).

Section arm.
Context {E : Env}.

Lemma kept_zones z s s1 s2 tail f :
  Zone.wf z -> Zone.validate z = None -> configured (Zone.anyEnabled z) (Zone.registers z) [(83, 0)] s s1 ->
  since tail s1 s2 -> apart zoneSels tail = true -> Zone.anyEnabled z = true ->
  (forall i w, Zone.Zones z !! i = Some w -> Zone.zoneRuns (written (issued s2) f) i w) /\
  bits (written (issued s2) f 84) 0 11 = Zone.Wait z /\ bits (written (issued s2) f 85) 0 12 = Zone.Bucket z - 1.
Proof.
  intros Hw Hv [_ Hc] Hs Ha He. rewrite He in Hc.
  assert (forall x, x ∈ zoneSels ->
    written (issued s2) f x = written (Zone.registers z) (written (issued s) f) x) as Hx.
  { intros x. by eapply kept_registers. }
  set (h := written (issued s) f) in *.
  rewrite !Hx by (apply list_elem_of_In; simpl; tauto). split; [|by apply Zone.registers_timing].
  intros i w Hi. pose proof (Zone.registers_zones z h i w Hw He Hv Hi) as Hr.
  apply lookup_lt_Some in Hi. rewrite (proj1 Hw) in Hi. unfold Zone.zoneRuns in *.
  destruct i as [|[|[|[|i]]]]; [..|lia]; rewrite !Hx by (apply list_elem_of_In; simpl; tauto); exact Hr.
Qed.

(** SPI and I2C share the sample delay: the one enabled is the last to write it. *)
Lemma kept_spi rev p s a s1 s2 tail f :
  SPI.wf p -> queueOk s -> SPI.configureSPI rev p s = (Ret a, s1) -> since tail s1 s2 -> apart spiSels tail = true ->
  SPI.Enabled p = true -> SPI.inRange p = true ->
  exists capability, (capability = SPI.spiLevels \/ capability = SPI.spiSamples) /\
    SPI.port (written (issued s2) f) = SPI.run capability (written (issued s2) f) p.
Proof.
  intros Hw Hq H Hs Ha He Hr. apply SPI.configureSPI_configured in H as (cap & [_ Hc] & Hcap); [|done]. rewrite He in Hc.
  exists cap. split; [by apply Hcap|]. set (h := written (issued s) f).
  assert (forall x, x ∈ spiSels -> written (issued s2) f x = written (SPI.registers cap p) h x) as Hx.
  { intros x. by eapply kept_registers. }
  rewrite (reads_spi _ _ Hx), SPI.spi_port_registers by done. unfold SPI.run. f_equal.
  rewrite Hx by (apply list_elem_of_In; simpl; tauto). unfold SPI.registers. by destruct (cap =? SPI.spiSamples).
Qed.
Lemma kept_i2c rev p s a s1 s2 tail f :
  I2C.wf p -> queueOk s -> I2C.configureI2C rev p s = (Ret a, s1) -> since tail s1 s2 -> apart i2cSels tail = true ->
  I2C.Enabled p = true -> I2C.inRange p = true ->
  exists capability, (capability = I2C.i2cLevels \/ capability = I2C.i2cSamples) /\
    (I2C.Samples p = true -> capability = I2C.i2cSamples) /\
    I2C.port (written (issued s2) f) = I2C.run capability (written (issued s2) f) p.
Proof.
  intros Hw Hq H Hs Ha He Hr. apply I2C.configureI2C_configured in H as (cap & [_ Hc] & Hcap); [|done]. rewrite He in Hc.
  exists cap. destruct (Hcap He) as [Hc1 Hc2]. split; [done|]. split; [done|]. set (h := written (issued s) f).
  assert (forall x, x ∈ i2cSels -> written (issued s2) f x = written (I2C.registers cap p) h x) as Hx.
  { intros x. by eapply kept_registers. }
  rewrite (reads_i2c _ _ Hx), I2C.i2c_port_registers by done. unfold I2C.run. f_equal.
  rewrite Hx by (apply list_elem_of_In; simpl; tauto). unfold I2C.registers. by destruct (cap =? I2C.i2cSamples).
Qed.

(** *** The blocks in Arm's order *)

(** What the blocks after each write. *)
Definition afterI2C : list Z := uartSels.
Definition afterSPI : list Z := i2cSels ++ afterI2C.
Definition afterMIL : list Z := spiSels ++ afterSPI.
Definition afterUSB : list Z := milSels ++ afterMIL.
Definition afterSENT : list Z := usbSels ++ afterUSB.
Definition afterManchester : list Z := sentSels ++ afterSENT.
Definition afterPacket : list Z := manchesterSels ++ afterManchester.
Definition afterSequence : list Z := packetSels ++ afterPacket.
Definition afterSymbol : list Z := sequenceSels ++ afterSequence.
Definition afterZones : list Z := symbolSels ++ afterSymbol.
Definition afterQualifier : list Z := zoneSels ++ afterZones.

Create HintDb writing.
#[local] Hint Resolve writing_qualifier writing_zones writing_symbol writing_sequence writing_packet writing_manchester
  writing_sent writing_usb writing_mil writing_spi writing_i2c writing_uart : writing.
Local Ltac rest_writes :=
  intros _; repeat (apply writing_bind; [|intros _]); (eapply writing_mono; [|eauto with writing]; reflexivity).
(** One block of [H]: its run [R], and what the rest writes, [W]. *)
Local Ltac block tail H R W :=
  let s1 := fresh "s" in let Hq := fresh "Hq" in
  eapply (step_tail tail) in H;
  [destruct H as (? & s1 & R & H & Hq & W); cbv beta in H|eassumption|eapply writing_queueOk; eauto with writing|rest_writes].

Local Ltac block_kept port reads R configured registers :=
  let He := fresh in intros He;
  eapply (kept port); [apply reads|eapply configured; [|exact R]; done|by eapply since_app|reflexivity
    |intros ? ?; by apply registers|exact He].

Lemma armTriggers_kept rev cfg s a s1 s2 f :
  queueOk s -> wfTriggers cfg -> Check cfg = None -> armTriggers rev cfg s = (Ret a, s1) -> since endSels s1 s2 ->
  triggersRun cfg (written (issued s2) f).
Proof.
  intros Hq (WQ & WZ & WP & WM & WS & WU & WL & WSP & WI & WUA) Hc H Hs.
  destruct (Check_blocks cfg Hc) as (CP & CM & CQ & CZ & CU & CL & CS & CSP & CI & CUA).
  assert (length (Zone.Zones (Zones cfg)) = 4%nat) as Hz by apply WZ.
  unfold armTriggers in H.
  block afterQualifier H RQ TQ. block afterZones H RZ TZ. block afterSymbol H RY TY. block afterSequence H RE TE.
  block afterPacket H RP TP. block afterManchester H RM TM. block afterSENT H RS TS. block afterUSB H RU TU.
  block afterMIL H RL TL. block afterSPI H RSP TSP.
  assert (I2C.Enabled (I2C cfg) = false -> since (53 :: uartSels) s11 s1) as TSP'.
  { intros Hi. apply (writing_bind (53 :: uartSels)) in H as (_ & w & ? & ?); [by exists w|..|done].
    - eapply writing_mono; [|by apply writing_i2c_off]. reflexivity.
    - intros _. eapply writing_mono; [|apply writing_uart]. reflexivity. }
  block afterI2C H RI TI. split_and!.
  - block_kept Qualifier.port reads_qualifier RQ Qualifier.configureQualifier_configured Qualifier.qualifier_port_registers.
  - intros He. eapply kept_zones; [done|done|eapply Zone.configureZones_configured; [|exact RZ]; done
      |by eapply since_app|reflexivity|done].
  - block_kept Packet.port reads_packet RP configurePacket_configured Packet.packet_port_registers.
  - block_kept Manchester.port reads_manchester RM configureManchester_configured Manchester.manchester_port_registers.
  - block_kept SENT.port reads_sent RS SENT.configureSENT_configured SENT.sent_port_registers.
  - block_kept USBLS.port reads_usb RU USBLS.configureUSBLS_configured USBLS.usbls_port_registers.
  - block_kept MIL1553.port reads_mil RL MIL1553.configureMIL1553_configured MIL1553.mil1553_port_registers.
  - intros He. destruct (CSP He) as [Hr Hi].
    eapply kept_spi; [done| |exact RSP|eapply since_app; [by apply TSP'|exact Hs]|reflexivity|done|done]. done.
  - intros He. eapply kept_i2c; [done| |exact RI|by eapply since_app|reflexivity|done|by apply CI]. done.
  - intros He. eapply (kept UART.port); [apply reads_uart|eapply UART.configureUART_configured; [|exact H]; done|exact Hs
      |reflexivity|intros _ g; by apply UART.uart_port_registers, CUA|done].
Qed.

End arm.
