(* ===== verification/RecallSpans.v ===== *)
(** * The spans of a recall

    recallSpans (src/app/internal/sramcapture/capture.go) cuts a window of
    words into bursts: bulk spans first, then the holes a burst's discarded
    prefix leaves between them. The spans partition the window, so copying
    each burst where it belongs rebuilds it, whatever the buffer held. *)
From S2P Require Import Prelude Circular.

Record recallSpan := Span { spanOffset : Z; spanCount : Z }.

(** The loop, from the word [at_], with the spans found so far. *)
Fixpoint spansLoop (n : nat) (at_ count payload gap : Z) (bulk holes : list recallSpan) : option (list recallSpan) :=
  match n with
  | O => None
  | S n =>
      if at_ <? count then
        let k := Z.min (u32 (count - at_)) payload in
        let bulk := bulk ++ [Span at_ k] in
        let at_ := u32 (at_ + k) in
        let h := Z.min (u32 (count - at_)) gap in
        if negb (h =? 0) then spansLoop n (u32 (at_ + h)) count payload gap bulk (holes ++ [Span at_ h])
        else spansLoop n at_ count payload gap bulk holes
      else Some (bulk ++ holes)
  end.
(** [count] turns are enough: each takes at least a word. *)
Definition recallSpans (count payload gap : Z) : option (list recallSpan) :=
  spansLoop (S (Z.to_nat count)) 0 count payload gap [] [].

(** The words of a span. *)
Definition spanWords (sp : recallSpan) : list Z := seqZ (spanOffset sp) (spanCount sp).

(** ** The spans partition the window *)

Definition spanSane (payload gap : Z) (sp : recallSpan) : Prop :=
  0 <= spanOffset sp /\ 0 < spanCount sp <= Z.max payload gap.

Lemma spanWords_snoc l at_ k :
  concat (map spanWords (l ++ [Span at_ k])) = concat (map spanWords l) ++ seqZ at_ k.
Proof. rewrite map_app, concat_app. simpl. by rewrite app_nil_r. Qed.

Lemma seqZ_extend at_ k : 0 <= at_ -> 0 <= k -> seqZ 0 (at_ + k) = seqZ 0 at_ ++ seqZ at_ k.
Proof. intros. rewrite seqZ_app by lia. done. Qed.

(** What the loop has cut so far. *)
Definition cut (at_ payload gap : Z) (bulk holes : list recallSpan) : Prop :=
  concat (map spanWords bulk) ++ concat (map spanWords holes) ≡ₚ seqZ 0 at_ /\
  Forall (spanSane payload gap) bulk /\ Forall (spanSane payload gap) holes.

Lemma cut_bulk at_ k payload gap bulk holes :
  0 <= at_ -> 0 < k <= payload -> cut at_ payload gap bulk holes ->
  cut (at_ + k) payload gap (bulk ++ [Span at_ k]) holes.
Proof.
  intros Ha Hk (Hp & Hb & Hh). split_and!; [|apply Forall_app; split; [done|repeat constructor; simpl; lia]|done].
  rewrite spanWords_snoc, seqZ_extend, <- Hp by lia. by rewrite <- !app_assoc, (Permutation_app_comm (seqZ at_ k)).
Qed.
Lemma cut_hole at_ k payload gap bulk holes :
  0 <= at_ -> 0 < k <= gap -> cut at_ payload gap bulk holes ->
  cut (at_ + k) payload gap bulk (holes ++ [Span at_ k]).
Proof.
  intros Ha Hk (Hp & Hb & Hh). split_and!; [|done|apply Forall_app; split; [done|repeat constructor; simpl; lia]].
  by rewrite spanWords_snoc, seqZ_extend, <- Hp, app_assoc by lia.
Qed.

Lemma spansLoop_cut n at_ count payload gap bulk holes :
  0 < payload -> 0 <= gap -> 0 <= at_ <= count -> fits 32 count -> count - at_ < Z.of_nat n ->
  cut at_ payload gap bulk holes ->
  exists spans, spansLoop n at_ count payload gap bulk holes = Some spans /\
    concat (map spanWords spans) ≡ₚ seqZ 0 count /\ Forall (spanSane payload gap) spans.
Proof.
  intros Hp Hg Ha Hf. revert at_ bulk holes Ha. induction n as [|n IH]; intros at_ bulk holes Ha Hn Hc; [lia|].
  cbn [spansLoop]. destruct (Z.ltb_spec at_ count) as [Hlt|Hge].
  - cbv zeta. unfold fits in Hf. rewrite (u32_fits (count - at_)) by (unfold fits; lia).
    set (k := Z.min (count - at_) payload). assert (0 < k <= payload /\ at_ + k <= count) as [Hk Hk'] by lia.
    rewrite (u32_fits (at_ + k)) by (unfold fits; lia). rewrite (u32_fits (count - (at_ + k))) by (unfold fits; lia).
    set (h := Z.min (count - (at_ + k)) gap). assert (0 <= h <= gap /\ at_ + k + h <= count) as [Hh Hh'] by lia.
    apply (cut_bulk at_ k) in Hc; [|lia..]. destruct (Z.eqb_spec h 0) as [H0|H0]; simpl.
    + apply IH; [lia..|done].
    + rewrite (u32_fits (at_ + k + h)) by (unfold fits; lia). apply IH; [lia..|]. apply cut_hole; [lia..|done].
  - exists (bulk ++ holes). replace count with at_ by lia. destruct Hc as (Hp' & Hb & Hh).
    split; [done|]. rewrite map_app, concat_app. split; [done|]. by apply Forall_app.
Qed.

(** Spans exist, are non-empty, and cover each word of the window once. *)
Lemma recallSpans_cut count payload gap :
  0 < payload -> 0 <= gap -> fits 32 count ->
  exists spans, recallSpans count payload gap = Some spans /\
    concat (map spanWords spans) ≡ₚ seqZ 0 count /\ Forall (spanSane payload gap) spans.
Proof.
  intros Hp Hg Hf. apply spansLoop_cut; [done|done|unfold fits in Hf; lia|done|unfold fits in Hf; lia|].
  split_and!; [done|constructor..].
Qed.

(** C35: a window of any length is cut into finitely many non-empty spans, none
    longer than a burst carries, that cover each of its words exactly once:
    no word is read twice and none is left out. *)
Theorem recallSpans_partition count payload gap :
  0 < payload -> 0 <= gap -> fits 32 count ->
  exists spans, recallSpans count payload gap = Some spans /\
    concat (map spanWords spans) ≡ₚ seqZ 0 count /\
    Forall (fun sp => 0 < spanCount sp <= Z.max payload gap) spans.
Proof.
  intros Hp Hg Hf. destruct (recallSpans_cut count payload gap) as (spans & H & Hperm & Hs); [done..|].
  exists spans. split_and!; [done..|]. eapply Forall_impl; [exact Hs|]. intros sp [_ ?]. done.
Qed.

Lemma recallSpans_partition_witness :
  0 < 8 - 2 /\ 0 <= 4 /\ fits 32 25 /\
  exists spans, recallSpans 25 (8 - 2) 4 = Some spans /\
    concat (map spanWords spans) ≡ₚ seqZ 0 25 /\ Forall (fun sp => 0 < spanCount sp <= Z.max (8 - 2) 4) spans.
Proof.
  split_and!; [lia|lia|unfold fits; lia|].
  apply (recallSpans_partition 25 (8 - 2) 4); [lia|lia|unfold fits; lia].
Defined.

(** ** Copying each span's bytes rebuilds the window *)

(** The bytes of a span in the window's bytes. *)
Definition spanBytes {A} (window : list A) (sp : recallSpan) : list A :=
  slice (Z.to_nat (4 * spanOffset sp)) (Z.to_nat (4 * spanCount sp)) window.
Definition assemble {A} (window : list A) (spans : list recallSpan) (scratch : list A) : list A :=
  fold_left (fun l sp => copyAt (Z.to_nat (4 * spanOffset sp)) (spanBytes window sp) l) spans scratch.

Definition spanWithin (count : Z) (sp : recallSpan) : Prop :=
  0 <= spanOffset sp /\ 0 < spanCount sp /\ spanOffset sp + spanCount sp <= count.

(** The byte [i] is one of the span's. *)
Definition inSpan (i : nat) (sp : recallSpan) : Prop :=
  4 * spanOffset sp <= Z.of_nat i < 4 * (spanOffset sp + spanCount sp).
#[global] Instance inSpan_dec i sp : Decision (inSpan i sp).
Proof. unfold inSpan. apply _. Defined.

Lemma length_spanBytes {A} (window : list A) count sp :
  Z.of_nat (length window) = 4 * count -> spanWithin count sp ->
  length (spanBytes window sp) = Z.to_nat (4 * spanCount sp).
Proof. intros Hw (? & ? & ?). unfold spanBytes. apply length_slice. lia. Qed.

Lemma lookup_assemble {A} (window : list A) count spans scratch i :
  Z.of_nat (length window) = 4 * count -> (length window <= length scratch)%nat ->
  Forall (spanWithin count) spans ->
  length (assemble window spans scratch) = length scratch /\
  ((exists sp, sp ∈ spans /\ inSpan i sp) \/ scratch !! i = window !! i ->
   assemble window spans scratch !! i = window !! i).
Proof.
  intros Hw Hl Hs. revert scratch Hl. induction Hs as [|sp spans Hsp Hs IH]; intros scratch Hl.
  { split; [done|]. intros [(sp & Hsp & _)|H]; [by apply elem_of_nil in Hsp|done]. }
  pose proof (length_spanBytes window count sp Hw Hsp) as Hlb. destruct Hsp as (H0 & H1 & H2).
  assert (Z.to_nat (4 * spanOffset sp) + length (spanBytes window sp) <= length scratch)%nat as Hfit by lia.
  destruct (IH (copyAt (Z.to_nat (4 * spanOffset sp)) (spanBytes window sp) scratch)) as [IHl IHi].
  { by rewrite length_copyAt. }
  rewrite length_copyAt in IHl by done. split; [exact IHl|]. intros Hi. apply IHi. rewrite lookup_copyAt by done. case_decide as Hd.
  - right. unfold spanBytes, slice. rewrite lookup_take_lt, lookup_drop by lia. f_equal. lia.
  - destruct Hi as [(sp' & Hsp' & Hi)|Hi]; [|by right]. apply elem_of_cons in Hsp' as [->|Hsp'].
    + exfalso. apply Hd. unfold inSpan in Hi. lia.
    + left. by exists sp'.
Qed.

(** A partition covers every byte. *)
Lemma partition_covers count spans i :
  concat (map spanWords spans) ≡ₚ seqZ 0 count -> Z.of_nat i < 4 * count -> exists sp, sp ∈ spans /\ inSpan i sp.
Proof.
  intros Hp Hi. assert (Z.of_nat i / 4 ∈ concat (map spanWords spans)) as Hin.
  { rewrite Hp. apply elem_of_seqZ. split; [apply Z.div_pos; lia|]. apply Z.div_lt_upper_bound; lia. }
  apply list_elem_of_In, in_concat in Hin as (l & Hl & Hin). apply in_map_iff in Hl as (sp & <- & Hsp).
  apply list_elem_of_In in Hin. unfold spanWords in Hin. apply elem_of_seqZ in Hin.
  exists sp. split; [by apply list_elem_of_In|]. unfold inSpan.
  pose proof (Z.div_mod (Z.of_nat i) 4). pose proof (Z.mod_pos_bound (Z.of_nat i) 4). lia.
Qed.

Lemma partition_within count payload gap spans :
  concat (map spanWords spans) ≡ₚ seqZ 0 count -> Forall (spanSane payload gap) spans -> Forall (spanWithin count) spans.
Proof.
  intros Hp Hs. apply Forall_forall. intros sp Hsp. rewrite Forall_forall in Hs.
  destruct (Hs sp Hsp) as [H0 [H1 _]]. unfold spanWithin. split_and!; [done|done|].
  assert (spanOffset sp + spanCount sp - 1 ∈ seqZ 0 count) as Hin.
  { rewrite <- Hp. apply list_elem_of_In, in_concat. exists (spanWords sp).
    split; [apply in_map, list_elem_of_In; done|]. apply list_elem_of_In. unfold spanWords. apply elem_of_seqZ. lia. }
  apply elem_of_seqZ in Hin. lia.
Qed.

(** The window, whatever the buffer held before. *)
Lemma assemble_window {A} (window : list A) count payload gap spans scratch :
  concat (map spanWords spans) ≡ₚ seqZ 0 count -> Forall (spanSane payload gap) spans ->
  Z.of_nat (length window) = 4 * count -> (length window <= length scratch)%nat ->
  take (length window) (assemble window spans scratch) = window.
Proof.
  intros Hp Hs Hw Hl. pose proof (partition_within _ _ _ _ Hp Hs) as Hin.
  apply list_eq. intros i. destruct (lookup_assemble window count spans scratch i) as [Hlen Hi]; [done..|].
  destruct (decide (i < length window)%nat).
  - rewrite lookup_take_lt by done. apply Hi. left. apply (partition_covers count); [done|lia].
  - rewrite lookup_take_ge by lia. by rewrite lookup_ge_None_2 by lia.
Qed.

(** ** Without gaps the spans come in order *)

(** Spans that follow each other from [a] to [count]. *)
Fixpoint contiguous (a count : Z) (spans : list recallSpan) : Prop :=
  match spans with
  | [] => a = count
  | sp :: spans => spanOffset sp = a /\ 0 < spanCount sp /\ contiguous (a + spanCount sp) count spans
  end.

Lemma spansLoop_contiguous n at_ count payload bulk spans :
  0 < payload -> 0 <= at_ <= count -> fits 32 count ->
  spansLoop n at_ count payload 0 bulk [] = Some spans ->
  exists rest, spans = bulk ++ rest /\ contiguous at_ count rest.
Proof.
  intros Hp Ha Hf. revert at_ bulk Ha. induction n as [|n IH]; intros at_ bulk Ha H; [done|].
  cbn [spansLoop] in H. destruct (Z.ltb_spec at_ count) as [Hlt|Hge].
  - cbv zeta in H. unfold fits in Hf. rewrite (u32_fits (count - at_)) in H by (unfold fits; lia).
    set (k := Z.min (count - at_) payload) in *. assert (0 < k /\ at_ + k <= count) as [Hk Hk'] by lia.
    rewrite (u32_fits (at_ + k)) in H by (unfold fits; lia).
    rewrite (u32_fits (count - (at_ + k))) in H by (unfold fits; lia).
    replace (Z.min (count - (at_ + k)) 0) with 0 in H by lia. simpl in H.
    apply IH in H as (rest & -> & Hc); [|lia]. exists (Span at_ k :: rest).
    split; [by rewrite <- app_assoc|done].
  - injection H as <-. exists []. rewrite !app_nil_r. split; [done|]. simpl. lia.
Qed.

Lemma contiguous_bytes {A} (window : list A) a count spans :
  0 <= a -> Z.of_nat (length window) = 4 * count -> contiguous a count spans ->
  concat (map (spanBytes window) spans) = drop (Z.to_nat (4 * a)) window.
Proof.
  intros Ha Hw. revert a Ha. induction spans as [|sp spans IH]; intros a Ha Hc; simpl in *.
  - subst a. symmetry. apply drop_ge. lia.
  - destruct Hc as (Ho & Hk & Hc). rewrite (IH (a + spanCount sp)) by (done || lia).
    unfold spanBytes, slice. rewrite Ho.
    rewrite <- (take_drop (Z.to_nat (4 * spanCount sp)) (drop (Z.to_nat (4 * a)) window)) at 2.
    f_equal. rewrite drop_drop. f_equal. lia.
Qed.

Lemma recallSpans_ordered {A} (window : list A) count payload spans :
  0 < payload -> fits 32 count -> Z.of_nat (length window) = 4 * count ->
  recallSpans count payload 0 = Some spans -> concat (map (spanBytes window) spans) = window.
Proof.
  intros Hp Hf Hw H. apply spansLoop_contiguous in H as (rest & -> & Hc); [|done|unfold fits in Hf; lia|done].
  rewrite (contiguous_bytes window 0 count) by done. done.
Qed.
