(* ===== verification/Recall.v ===== *)
(** * Recalling a frozen record

    The recall half of src/app/internal/sramcapture/capture.go (recallFrozen,
    its burst protocol, recallChecked, recallIsolated, RecallReadsOf,
    RecallRecord, DecodedCapture.Recall), the envelope recall (envelope.go) and
    the startup counter check (verify.go).

    A count returned beside an error is not modelled: an error drops it. *)
From S2P Require Import Prelude Machine Fabric Bus Command Status Arm Circular RecallSpans.

(** A record read and its size: 4 bytes a word, 8 a Q8.8 bucket. *)
Record RecordRead := { Offset : Z; Bucket : Z; Count : Z; Dst : sink }.
Definition readSize (m : Metadata) (r : RecordRead) : Z :=
  if negb (Bucket r =? 0) && (FractionBits m =? 8) then Count r * 8 else Count r * 4.
Definition RecordReadsMax : nat := 4.

(** ** The startup check's sink (verify.go) *)

(** The pairs of words while both are right, then word by word. *)
Fixpoint counterPairs (n : nat) (b : list Z) (i : nat) (next : Z) : nat * Z :=
  match n with
  | O => (i, next)
  | S n =>
      if (i + 8 <=? length b)%nat && (leVal (slice i 8 b) =? next .| (u32 (next + 1) .<< 32)) then
        counterPairs n b (i + 8)%nat (u32 (next + 2))
      else (i, next)
  end.
Fixpoint counterWords (n : nat) (b : list Z) (i : nat) (next : Z) : (Z * option err) * Z :=
  match n with
  | O => ((Z.of_nat (length b), None), next)
  | S n =>
      if (i <? length b)%nat then
        let got := leVal (slice i 4 b) in
        if negb (got =? next) then
          ((Z.of_nat i, Some (EMsg "sramcapture: startup counter word %d is %d" [next; got])), next)
        else counterWords n b (i + 4)%nat (u32 (next + 1))
      else ((Z.of_nat (length b), None), next)
  end.
(** counterVerifier.Write: what it returns and its next word. *)
Definition counterWrite (next : Z) (b : list Z) : (Z * option err) * Z :=
  if negb (Z.of_nat (length b) mod 4 =? 0) then
    ((0, Some (EMsg "sramcapture: unaligned startup counter" [])), next)
  else
    let '(i, next) := counterPairs (length b) b 0 next in
    counterWords (length b) b i next.

Section recall.
Context {E : Env}.

(** A sink's name in the history; the verifier's writes are noted there too. *)
Definition sinkId (k : sink) : Z := match k with SExt id => id | SCounter => -1 end.

(** io.Writer.Write on a sink. *)
Definition sinkWrite (k : sink) (data : list Z) : M (Z * option err) :=
  match k with
  | SExt id =>
      h ← gets trace;
      let r := env_SinkWrite h id data in
      emit (EvSink id data r);;
      mret r
  | SCounter =>
      next ← gets counterNext;
      let '(r, next) := counterWrite next data in
      modify (set_counterNext next);;
      emit (EvSink (sinkId SCounter) data r);;
      mret r
  end.
(** [nn, e := dst.Write(data)], with io.ErrShortWrite. *)
Definition writeAll (k : sink) (data : list Z) : M Z :=
  r ← sinkWrite k data;
  match r.2 with
  | Some e => fail e
  | None => if negb (r.1 =? Z.of_nat (length data)) then fail EShortWrite else mret r.1
  end.

(** binary.LittleEndian of halfwords and of 32-bit words. *)
Definition halfBytes (l : list Z) : list Z := concat (map (leBytes 2) l).
Definition wordBytes (l : list Z) : list Z := concat (map (leBytes 4) l).

(** ** One burst *)

Section burst.
Context (fuel : nat) (c : ctx) (m : Metadata).
(** The window's first word, the discarded words before it, the fabric's buffer
    in words, the mode, and the sink's room if it gave one. *)
Context (offset prefix physical : Z) (forward : bool) (room : option Z).

Definition target (sp : recallSpan) : Z :=
  u32 (Origin m + Start m + offset + spanOffset sp - prefix) .& addressMask.

(** Moves the read pointer to the target; the burst's opcode. *)
Definition seek (sp : recallSpan) : M Z :=
  pf ← readMany [8; 9; 1];
  let position := pair32 (at_ pf 0) (at_ pf 1) in
  let flags := at_ pf 2 in
  if (prefix =? 0) && has flags 1024 && (target sp =? (u32 (position - 1) .& addressMask)) then mret 7
  else
    let skip := u32 (target sp - position) .& addressMask in
    (if negb (skip =? 0) then
       write32 8 skip;;
       commandIn fuel c 3;;
       wait fuel c 4
     else mret tt);;
    mret 2.

(** The words of a burst through the DMA or the halfword register. *)
Definition popBurst (sp : recallSpan) : M (list Z) :=
  let n := spanCount sp in
  match env_PopBytes with
  | Some pop =>
      data ← popBytesWith pop 25 (4 * n);
      match room with
      | Some id => emit (EvRoomPut id (4 * spanOffset sp) data)
      | None => mret tt
      end;;
      mret data
  | None =>
      halves ← match env_PopWords with
               | Some pop => popWordsWith pop 25 (2 * n)
               | None => readN (Z.to_nat (2 * n)) 25
               end;
      mret (halfBytes halves)
  end.

(** From revision 8: the fabric's burst buffer, its pointer checked after. *)
Definition burstData (sp : recallSpan) : M (list Z) :=
  let n := spanCount sp in
  (if forward || (10 <=? Revision m) then write 16 (u16 prefix);; read 17;; mret tt else mret tt);;
  write 17 (u16 (prefix * 2));;
  flushWrites;;
  data ← popBurst sp;
  index ← read 27;
  guard (negb (index =? u32 (u32 (n + prefix) * 2) mod (physical * 2)))
    (EMsg "sramcapture: burst pointer %d after %d words" [index; n]);;
  mret data.

(** Before it: word by word. *)
Fixpoint wordData (k : nat) (i : Z) : M (list Z) :=
  match k with
  | O => mret []
  | S k =>
      write 16 (u16 (i + prefix));;
      v ← read32 17;
      rest ← wordData k (i + 1);
      mret (leBytes 4 v ++ rest)
  end.

Definition burst (sp : recallSpan) : M (list Z) :=
  let n := spanCount sp in
  op ← seek sp;
  write32 8 (u32 (n + prefix));;
  commandIn fuel c op;;
  wait fuel c 4;;
  got ← read 12;
  guard (negb (got =? u32 (n + prefix))) (EMsg "sramcapture: short read buffer: got %d want %d" [got; u32 (n + prefix)]);;
  if 8 <=? Revision m then burstData sp else wordData (Z.to_nat n) 0.

(** [dst] takes the bytes of a span: the room has them already, a forward
    recall stages them in recallScratch, a plain one writes them on. *)
Definition deliver (dst : sink) (sp : recallSpan) (data : list Z) : M Z :=
  match room with
  | Some _ => mret 0
  | None =>
      if forward then
        modify (fun s => set_recallScratch (copyAt (Z.to_nat (4 * spanOffset sp)) data (recallScratch s)) s);;
        mret 0
      else writeAll dst data
  end.

Fixpoint recallLoop (dst : sink) (i total : Z) (spans : list recallSpan) (written : Z) : M Z :=
  match spans with
  | [] => mret written
  | sp :: spans =>
      checkCtx c;;
      (if 0 <? i then emit (EvYield i total) else mret tt);;
      data ← burst sp;
      k ← deliver dst sp data;
      recallLoop dst (i + 1) total spans (written + k)
  end.
End burst.

(** ** A window of a frozen record *)

Section window.
Context (fuel : nat).

(** The words discarded before a burst, from revision 7. *)
Definition prefixOf (m : Metadata) : Z := if 7 <=? Revision m then 16 else 0.

(** The fabric's read buffer: (words a burst takes, words it holds). *)
Definition readBuffer (m : Metadata) : M (Z * Z) :=
  if 8 <=? Revision m then
    size ← read 26;
    guard (negb (size =? 4096) && (negb (Revision m =? 11) || negb (size =? 8192)))
      (EMsg "sramcapture: unknown read buffer %d" [size]);;
    mret (Z.min size 4096, size)
  else mret (512, 512).

(** The sink's room for the whole window, where bursts can go straight in. *)
Definition roomFor (m : Metadata) (count : Z) (dst : sink) : M (option Z) :=
  match dst, env_PopBytes with
  | SExt id, Some _ =>
      if env_SinkIsRoom id && (8 <=? Revision m) then
        h ← gets trace;
        let granted := env_Room h id (count * 4) in
        emit (EvRoom id (count * 4) granted);;
        mret (if granted then Some id else None)
      else mret None
  | _, _ => mret None
  end.

(** recallScratch's array, replaced when its capacity is too small. *)
Definition prepareScratch (count : Z) : M unit :=
  modify (fun s =>
    let n := Z.to_nat (count * 4) in
    set_recallScratch (if (length (recallScratch s) <? n)%nat then replicate n 0 else recallScratch s) s).

(** The transfer once the window is checked. *)
Definition recallTransfer (c : ctx) (m : Metadata) (offset count : Z) (dst : sink) (forward : bool) : M Z :=
  sizes ← readBuffer m;
  let '(bufferWords, physical) := sizes in
  guard (forward && negb (Revision m =? 10)) (EMsg "sramcapture: forward recall requires revision 10" []);;
  c ← withTimeout c (10 * second);
  room ← roomFor m count dst;
  (if forward && bool_decide (room = None) then prepareScratch count else mret tt);;
  let prefix := prefixOf m in
  match recallSpans count (u32 (bufferWords - prefix)) (if forward then prefix + 2 else 0) with
  | None => outOfFuel
  | Some spans =>
      written ← recallLoop fuel c m offset prefix physical forward room dst 0 (Z.of_nat (length spans)) spans 0;
      match room with
      | Some id => emit (EvFill id (count * 4));; mret (count * 4)
      | None =>
          if forward && negb (count =? 0) then
            data ← gets recallScratch;
            writeAll dst (take (Z.to_nat (count * 4)) data)
          else mret written
      end
  end.

(** Leaves the reducer an envelope recall may have left on. *)
Definition envelopeOff : M unit :=
  on ← gets envelopeOn;
  if (on : bool) then write 44 0;; modify (set_envelopeOn false) else mret tt.

(** The deferred end of a recall: the queue closes. *)
Definition recallEnd (failed : option err) : M (option err) :=
  modify (set_queueWrites false);;
  e ← errOf flushWrites;
  mret (match failed with None => e | Some _ => failed end).

Definition recallFrozen (c : ctx) (m : Metadata) (offset count : Z) (dst : sink) (forward : bool) : M Z :=
  guard (DataFault m) (EMsg "sramcapture: interleave FIFO fault; record has missing samples" []);;
  guard (negb (Ready m) || negb (Frozen m) || Running m) (EMsg "sramcapture: record is not frozen" []);;
  modify (set_queueWrites true);;
  finally
    (envelopeOff;;
     guard ((Words <? Length m) || (Length m <? offset + count)) (EMsg "sramcapture: recall window exceeds record" []);;
     recallTransfer c m offset count dst forward)
    recallEnd.

(** ** Envelope recalls (envelope.go) *)

Definition EnvelopeOutputWords : Z := 2048.

Definition envelopeCapabilityOf (revision : Z) : M bool :=
  if negb (revision =? 10) then mret false else v ← read 43; mret (v =? 0x454e).
Definition SupportsEnvelope : M bool := revision ← read 13; envelopeCapabilityOf revision.
Definition EnvelopeDiagnostics : M (Z * option err) := gets (fun s => (envelopeRejects s, envelopeLast s)).

Definition perBucket (m : Metadata) : Z := if FractionBits m =? 8 then 2 else 1.
(** The window the reducer takes; [words] and the products wrap at 32 bits. *)
Definition envelopeWords (bucket buckets : Z) : Z := u32 (bucket * buckets).
Definition envelopeInvalid (m : Metadata) (offset bucket buckets : Z) : bool :=
  let words := envelopeWords bucket buckets in
  (bucket <? 2) || negb (bucket mod 2 =? 0) || (0xffffe <? bucket) || (buckets =? 0) ||
  (EnvelopeOutputWords <? u32 (buckets * perBucket m)) || (negb (FractionBits m =? 8) && negb (buckets mod 2 =? 0)) ||
  (Length m <? offset + words) || (Words <? u32 (words + 16)).

Definition envelopeTarget (m : Metadata) (offset : Z) : Z := u32 (Origin m + Start m + offset - 16) .& addressMask.

(** The read pointer to the window; where it was. *)
Definition envelopeSeek (c : ctx) (m : Metadata) (offset : Z) : M unit :=
  pw ← readMany [8; 9];
  let position := pair32 (at_ pw 0) (at_ pw 1) in
  let skip := u32 (envelopeTarget m offset - position) .& addressMask in
  if negb (skip =? 0) then
    writeMany [(8, skip .& 0xffff); (9, u16 (skip .>> 16))];;
    command fuel c 3;;
    ready fuel c
  else mret tt.

(** The reduce command, tried again once; a first rejection is recorded. *)
Definition envelopeReduce (c : ctx) (m : Metadata) (offset bucket buckets : Z) : M unit :=
  r ← attempt (command fuel c 2);
  match r with
  | inl _ => mret tt
  | inr e =>
      s ← attempt (read 1);
      pos ← attempt (read32 8);
      let value (r : Z + err) := match r with inl v => v | inr _ => 0 end in
      let last := EWrap "op2 rejected: status %04x position %d target %d words %d: %v"
                    [value s; value pos; envelopeTarget m offset; envelopeWords bucket buckets] e in
      modify (fun st => set_envelopeLast (Some last) (set_envelopeRejects (envelopeRejects st + 1) st));;
      ready fuel c;;
      r ← attempt (command fuel c 2);
      match r with
      | inl _ => mret tt
      | inr e' => fail (EJoin last e')
      end
  end.

Definition envelopeControl (m : Metadata) (bucket : Z) : Z :=
  0x8000 .| u16 (bucket .>> 16) .| bit (FractionBits m =? 8) 0x4000.

(** The reduction and its transfer, the reducer on. *)
Definition envelopeTransfer (c : ctx) (m : Metadata) (offset bucket buckets : Z) (dst : sink) : M unit :=
  let total := u32 (envelopeWords bucket buckets + 16) in
  writeMany [(43, bucket .& 0xffff); (44, envelopeControl m bucket); (45, 16);
             (8, total .& 0xffff); (9, u16 (total .>> 16))];;
  envelopeReduce c m offset bucket buckets;;
  ready fuel c;;
  let out := u32 (buckets * perBucket m) in
  got ← read 46;
  got ← (if negb (got =? out) then read 46 else mret got);
  guard (negb (got =? out)) (EMsg "sramcapture: envelope produced %d words, want %d" [got; out]);;
  write 44 0;;
  modify (set_envelopeOn false);;
  write 16 0;;
  read 17;;
  write 17 0;;
  halves ← match env_PopWords with
           | Some pop => popWordsWith pop 25 (out * 2)
           | None => readN (Z.to_nat (out * 2)) 25
           end;
  writeAll dst (halfBytes halves);;
  mret tt.

(** The deferred end: normal recalls read no reduced words. *)
Definition envelopeEnd (failed : option err) : M (option err) :=
  on ← gets envelopeOn;
  (if (on : bool) then
     e ← errOf (write 44 0);
     match e with None => modify (set_envelopeOn false) | Some _ => mret tt end
   else mret tt);;
  mret failed.

Definition recallEnvelope (c : ctx) (m : Metadata) (offset bucket buckets : Z) (dst : sink) : M unit :=
  present ← attempt (envelopeCapabilityOf (Revision m));
  match present with
  | inl true => mret tt
  | inl false => fail (EWrap "sramcapture: fabric lacks the envelope recall: %w" [] ENil)
  | inr e => fail (EWrap "sramcapture: fabric lacks the envelope recall: %w" [] e)
  end;;
  guard (DataFault m) (EMsg "sramcapture: interleave FIFO fault; record has missing samples" []);;
  guard (negb (Ready m) || negb (Frozen m) || Running m) (EMsg "sramcapture: record is not frozen" []);;
  guard (envelopeInvalid m offset bucket buckets) (EMsg "sramcapture: invalid envelope window" []);;
  envelopeSeek c m offset;;
  modify (set_envelopeOn true);;
  finally (envelopeTransfer c m offset bucket buckets dst) envelopeEnd.

(** ** Reads of a record *)

Definition recallRead (c : ctx) (m : Metadata) (r : RecordRead) : M unit :=
  if negb (Bucket r =? 0) then recallEnvelope c m (Offset r) (Bucket r) (Count r) (Dst r)
  else recallFrozen c m (Offset r) (Count r) (Dst r) (Revision m =? 10);; mret tt.

(** A read past the record is not the worker's. *)
Definition readOutside (m : Metadata) (r : RecordRead) : bool :=
  (Length m <? u64 (Offset r + u64 (Count r * Z.max (Bucket r) 1))) || (Words <? Length m).

(** Each read's share of the worker's bytes to its sink. *)
Fixpoint writeShares (m : Metadata) (reads : list RecordRead) (data : list Z) : M unit :=
  match reads with
  | [] => mret tt
  | r :: reads =>
      let k := Z.to_nat (readSize m r) in
      writeAll (Dst r) (take k data);;
      writeShares m reads (drop k data)
  end.

(** Whether a bus worker made the reads; its error is the call's. *)
Definition recallIsolated (m : Metadata) (reads : list RecordRead) : M bool :=
  match env_RecallIsolated with
  | None => mret false
  | Some isolated =>
      if negb (HasRecordIdentity m) || (length reads =? 0)%nat || (RecordReadsMax <? length reads)%nat ||
         existsb (readOutside m) reads
      then mret false
      else
        let size := fold_right (fun r n => readSize m r + n) 0 reads in
        let windows := concat (map (fun r => [Offset r; Bucket r; Count r]) reads) in
        h ← gets trace;
        let r := isolated h (EventEpoch m) (RecordID m) windows size in
        emit (EvRecallIsolated (EventEpoch m) (RecordID m) windows r);;
        if negb r.1 then mret false
        else
          data ← lift r.2;
          writeShares m reads (fitTo size u8 data);;
          mret true
  end.

Definition RecallReadsOf (c : ctx) (m : Metadata) (reads : list RecordRead) : M unit :=
  checkCtx c;;
  owned ← recallIsolated m reads;
  if (owned : bool) then mret tt
  else
    m ← sameFrozen m;
    each (recallRead c m) reads.

Definition identityChanged (m : Metadata) (id : RecordIdentity) : bool :=
  negb (HasRecordIdentity m) || negb (RecordID m =? Record_ id) || negb (EventEpoch m =? Epoch id).

Definition RecallRecord (c : ctx) (id : RecordIdentity) (reads : list RecordRead) : M unit :=
  checkCtx c;;
  m ← status;
  guard (identityChanged m id) (EMsg "sramcapture: retained record identity changed" []);;
  each (recallRead c m) reads.

Definition recallChecked (c : ctx) (offset count : Z) (dst : sink) (forward : bool) (expected : option RecordIdentity) :
    M Z :=
  checkCtx c;;
  m ← status;
  guard (match expected with Some id => identityChanged m id | None => false end)
    (EMsg "sramcapture: retained record identity changed" []);;
  owned ← (if Bool.eqb forward (Revision m =? 10) && negb (count =? 0) && (offset + count <=? Length m)
           then recallIsolated m [{| Offset := offset; Bucket := 0; Count := count; Dst := dst |}]
           else mret false);
  if (owned : bool) then mret (count * 4)
  else recallFrozen c m offset count dst forward.

Definition Recall (c : ctx) (offset count : Z) (dst : sink) : M Z := recallChecked c offset count dst false None.
Definition RecallForward (c : ctx) (offset count : Z) (dst : sink) : M Z := recallChecked c offset count dst true None.
(** DecodedCapture.Recall *)
Definition RecallDecoded (id : RecordIdentity) (c : ctx) (offset count : Z) (dst : sink) : M Z :=
  recallChecked c offset count dst false (Some id).
End window.
End recall.
