(* ===== verification/RecallSteps.v ===== *)
(** * Invariants of a recall

    As BusSteps, for the methods of Recall.v, which also write to sinks and
    set recallScratch, the verifier's next word and the reducer's state; and
    what every recall leaves behind: nothing cached and nothing queued. *)
From S2P Require Import Prelude Machine Fabric Bus BusSteps Command Status Open Arm ArmRun RecallSpans Recall.

Class RecallStep (R : capture -> capture -> Prop) := {
  recall_busStep :: BusStep R;
  recall_emit e s : R s (set_trace (trace s ++ [e]) s);
  recall_scratch l s : R s (set_recallScratch l s);
  recall_counter n s : R s (set_counterNext n s);
  recall_envelope b s : R s (set_envelopeOn b s);
  recall_rejects e n s : R s (set_envelopeLast e (set_envelopeRejects n s))
}.

Section steps.
Context {E : Env} (R : capture -> capture -> Prop) {HR : RecallStep R} (fuel : nat).

Lemma steps_anyEmit e : steps R (emit e).
Proof using HR. intros s. apply recall_emit. Qed.
Lemma steps_writeAll k data : steps R (writeAll k data).
Proof using HR.
  unfold writeAll, sinkWrite. steps_tac; try apply steps_anyEmit. intros s. apply recall_counter.
Qed.

Lemma steps_wordData n i prefix : steps R (wordData prefix n i).
Proof using HR. revert i. induction n as [|n IH]; intros i; cbn [wordData]; bus_steps; apply _. Qed.

Lemma steps_recallLoop c m offset prefix p forward room dst i total spans written :
  steps R (recallLoop fuel c m offset prefix p forward room dst i total spans written).
Proof using HR.
  pose proof steps_anyEmit. pose proof steps_writeAll. pose proof steps_wordData.
  assert (forall f, steps R (modify (fun s => set_recallScratch (f s) s))) by (intros f s; apply recall_scratch).
  revert i written. induction spans as [|sp spans IH]; intros i written; cbn [recallLoop]; [steps_tac|].
  unfold burst, burstData, popBurst, seek, deliver. bus_steps; apply _.
Qed.

Lemma steps_envelopeOff : steps R envelopeOff.
Proof using HR. unfold envelopeOff. bus_steps; try apply _. intros s. apply recall_envelope. Qed.

Lemma steps_recallTransfer c m offset count dst forward :
  steps R (recallTransfer fuel c m offset count dst forward).
Proof using HR.
  pose proof steps_anyEmit. pose proof steps_writeAll. pose proof steps_recallLoop.
  unfold recallTransfer, roomFor, readBuffer, prepareScratch. bus_steps; try apply _. intros s. apply recall_scratch.
Qed.

Lemma steps_envelopeReduce c m offset bucket buckets : steps R (envelopeReduce fuel c m offset bucket buckets).
Proof using HR.
  unfold envelopeReduce. apply steps_bind; [apply _|bus_steps; apply _|]. intros [u|e]; [bus_steps; apply _|].
  apply steps_bind; [apply _|bus_steps; apply _|]. intros s. apply steps_bind; [apply _|bus_steps; apply _|]. intros pos.
  apply steps_bind; [apply _|intros st; apply recall_rejects|]. intros []. bus_steps; apply _.
Qed.
Lemma steps_recallEnvelope c m offset bucket buckets dst : steps R (recallEnvelope fuel c m offset bucket buckets dst).
Proof using HR.
  pose proof steps_writeAll. pose proof steps_envelopeReduce.
  assert (forall b, steps R (modify (set_envelopeOn b))) by (intros b s; apply recall_envelope).
  unfold recallEnvelope, envelopeCapabilityOf, envelopeSeek, envelopeTransfer, envelopeEnd.
  bus_steps; apply _.
Qed.
End steps.

(** ** A recall closes its queue *)

#[export] Instance keepsOpen_recallStep : RecallStep keepsOpen.
Proof. split; [apply _|..]; intros; intros Ho; exact Ho. Qed.
(** Arm's cache as it was. *)
Definition sameCache (s s' : capture) : Prop := armReady s' = armReady s.
#[export] Instance sameCache_recallStep : RecallStep sameCache.
Proof.
  split; [split; [split; [by intros s|]|done..]|done..]. unfold sameCache. by intros s1 s2 s3 -> ->.
Qed.

Section closing.
Context {E : Env} (fuel : nat).

(** Whatever came before, the end of a recall leaves nothing queued. *)
Lemma recallEnd_open e s : armReady s = false -> exists o, (recallEnd e s).1 = Ret o /\ open (recallEnd e s).2.
Proof.
  intros Ha. unfold recallEnd, errOf, attempt, modify, mbind, SE_bind. set (s0 := set_queueWrites false s).
  destruct (flushWrites_clears s0) as [Hp [Hr Hq]]. destruct (flushWrites_after s0) as [He _].
  destruct (flushWrites s0) as [[[]|e'| |] s1]; try done; eexists; (split; [reflexivity|]);
    (split; [split; [etransitivity; [exact Hr|exact Ha]|exact Hp]|exact Hq]).
Qed.

Lemma recallFrozen_open c m offset count dst forward s o s' :
  open s -> recallFrozen fuel c m offset count dst forward s = (o, s') -> ends o -> open s'.
Proof.
  intros Hs H Ho. unfold recallFrozen in H.
  unfold mbind at 1, SE_bind at 1 in H. destruct (guard _ _ s) as [[[]|e| |] s1] eqn:H1 in H;
    unfold guard in H1; destruct (DataFault m) in H1; injection H1 as ?; subst; try (by injection H as <- <-); try done.
  unfold mbind at 1, SE_bind at 1 in H. destruct (guard _ _ s1) as [[[]|e| |] s2] eqn:H1 in H;
    unfold guard in H1; destruct (_ || _) in H1; injection H1 as ?; subst; try (by injection H as <- <-); try done.
  unfold mbind at 1, SE_bind at 1 in H. simpl in H. set (s3 := set_queueWrites true s2) in H.
  assert (armReady s3 = false) as Ha by apply Hs.
  unfold finally in H. unfold mbind at 1, SE_bind at 1, attempt at 1 in H.
  match type of H with context [match ?body s3 with _ => _ end] =>
    assert (steps sameCache body) as Hb
      by (pose proof (steps_envelopeOff sameCache); pose proof (steps_recallTransfer sameCache fuel); steps_tac);
    specialize (Hb s3); destruct (body s3) as [[n|e| |] s4] end;
    try (injection H as <- <-; done); apply (fun h => eq_trans h Ha) in Hb.
  - destruct (recallEnd_open None s4 Hb) as (x & Hx & Hopen). unfold mbind, SE_bind in H.
    destruct (recallEnd None s4) as [[y|?| |] s5]; try done. simpl in *. destruct y; by injection H as _ <-.
  - destruct (recallEnd_open (Some e) s4 Hb) as (x & Hx & Hopen). unfold mbind, SE_bind in H.
    destruct (recallEnd (Some e) s4) as [[y|?| |] s5]; try done. simpl in *. destruct y; by injection H as _ <-.
Qed.

(** whatever a recall returns, its write queue is closed and empty and no
    register is cached: a failed recall leaves no write to reach the bus later. *)
Theorem recallFrozen_closes c m offset count dst forward s o s' :
  open s -> recallFrozen fuel c m offset count dst forward s = (o, s') -> ends o -> open s'.
Proof. apply recallFrozen_open. Qed.
End closing.
