(* ===== verification/Sinks.v ===== *)
(** * Sinks

    What a sink has of the bytes the capture code gives it: those accepted by
    io.Writer.Write, and those put into room it handed out (RecallRoom,
    src/app/internal/sramcapture/capture.go; StreamReserver, stream.go), which
    are the sink's from Fill or Commit on. *)
From S2P Require Import Prelude Circular Machine Fabric Bus Command BusSteps RecallSpans Recall.

(** Bytes accepted, the room handed out to a recall, the room reserved. *)
Record sinkState := Sink { got : list Z; roomBytes : list Z; reserved : list Z }.

(** Room starts with whatever it held. *)
Definition sinkStep (id : Z) (k : sinkState) (e : event) : sinkState :=
  match e with
  | EvSink i data (n, _) =>
      if i =? id then Sink (got k ++ take (Z.to_nat n) data) (roomBytes k) (reserved k) else k
  | EvRoom i n true => if i =? id then Sink (got k) (fitTo n (fun b => b) (roomBytes k)) (reserved k) else k
  | EvRoomPut i off data =>
      if i =? id then Sink (got k) (copyAt (Z.to_nat off) data (roomBytes k)) (reserved k) else k
  | EvFill i n => if i =? id then Sink (got k ++ take (Z.to_nat n) (roomBytes k)) (roomBytes k) (reserved k) else k
  | EvReserve i _ (inl _) => if i =? id then Sink (got k) (roomBytes k) [] else k
  | EvReservedPut i data => if i =? id then Sink (got k) (roomBytes k) (reserved k ++ data) else k
  | EvCommit i n => if i =? id then Sink (got k ++ take (Z.to_nat n) (reserved k)) (roomBytes k) [] else k
  | _ => k
  end.
Definition sinkRun (id : Z) (k : sinkState) (l : history) : sinkState := fold_left (sinkStep id) l k.

Lemma sinkRun_app id k l l' : sinkRun id k (l ++ l') = sinkRun id (sinkRun id k l) l'.
Proof. apply fold_left_app. Qed.
Lemma sinkStep_bus id k e : busEvent e = true -> sinkStep id k e = k.
Proof. by destruct e. Qed.

(** The bus alone was used. *)
Definition quiet (h h' : history) : Prop := exists l, h' = h ++ l /\ Forall (fun e => busEvent e = true) l.
#[export] Instance quiet_preorder : PreOrder quiet.
Proof.
  split; [intros h; exists []; by rewrite app_nil_r|].
  intros h1 h2 h3 (l & -> & Hl) (l' & -> & Hl'). exists (l ++ l'). rewrite app_assoc. split; [done|]. by apply Forall_app.
Qed.

Section sinks.
Context {E : Env} (id : Z) (k0 : sinkState).

Definition sinkOf (s : capture) : sinkState := sinkRun id k0 (trace s).

Lemma sinkOf_emit e s u s' : emit e s = (Ret u, s') -> sinkOf s' = sinkStep id (sinkOf s) e.
Proof. intros [= _ <-]. unfold sinkOf. cbn [trace set_trace]. by rewrite sinkRun_app. Qed.

(** No sink event, and the scratch buffer as it was. *)
Definition sinkSame (s s' : capture) : Prop :=
  sinkOf s' = sinkOf s /\ recallScratch s' = recallScratch s /\ quiet (trace s) (trace s').
#[global] Instance sinkSame_busStep : BusStep sinkSame.
Proof.
  split; [split; [done|]|..].
  - intros s1 s2 s3 (H1 & H2 & H3) (H4 & H5 & H6). split_and!; [congruence..|by etransitivity].
  - intros e s He. split; [|split; [done|]].
    + unfold sinkOf. cbn [trace set_trace]. rewrite sinkRun_app. by apply sinkStep_bus.
    + exists [e]. split; [done|]. by constructor.
  - intros l s _. done.
  - intros n s. done.
Qed.

Lemma sinkSame_Ret {A} (m : M A) s a s' : steps sinkSame m -> m s = (Ret a, s') -> sinkSame s s'.
Proof. intros Hm H. specialize (Hm s). by rewrite H in Hm. Qed.

(** A write that returns was taken whole. *)
Lemma writeAll_sink k data s n s' :
  sinkId k = id -> writeAll k data s = (Ret n, s') ->
  n = Z.of_nat (length data) /\ sinkOf s' = Sink (got (sinkOf s) ++ data) (roomBytes (sinkOf s)) (reserved (sinkOf s)) /\
  trace s' = trace s ++ [EvSink id data (n, None)].
Proof.
  intros Hid H. unfold writeAll in H. apply bind_Ret_inv in H as ([k1 e1] & s1 & H1 & H). simpl in H.
  destruct e1; [discriminate H|]. destruct (Z.eqb_spec k1 (Z.of_nat (length data))) as [Hn|]; [|discriminate H].
  simpl in H. apply mret_Ret_inv in H as [-> ->]. split; [done|].
  assert (trace s1 = trace s ++ [EvSink id data (k1, None)]) as Ht.
  { unfold sinkWrite in H1. destruct k; simpl in Hid; subst id.
    - inv_ret H1. simpl. repeat f_equal; done.
    - apply bind_Ret_inv in H1 as (nx & s2 & H2 & H1). injection H2 as <- <-.
      destruct (counterWrite _ _) as [r nx]. inv_ret H1. simpl. by repeat f_equal. }
  split; [|done]. unfold sinkOf. rewrite Ht, sinkRun_app. simpl. rewrite Z.eqb_refl, Hn, Nat2Z.id.
  by rewrite firstn_all.
Qed.

End sinks.
