(* ===== verification/RecallDevice.v ===== *)
(** * A recall reads the SRAM's own words

    The fabric's read side (src/fpga/common/transport.v and top.v): the read
    pointer counts every clocked word, a fresh read takes one more to flush,
    and its first words are not yet the SRAM's. Against this device a burst of
    src/app/internal/sramcapture/capture.go returns exactly its span's words,
    so a recall that succeeds delivers the window, whatever the pointer, the
    warm-up words and the reused buffers held. *)
From S2P Require Import Prelude Machine Fabric Bus Command BusSteps Status Arm RecallSpans Recall.

(** ** The device *)

Record reader := Reader {
  countReg : Z (* registers 8 and 9 as written *);
  pos : Z (* the SRAM's address counter, which 8 and 9 read *);
  buf : list Z (* the words of the last read command *);
  half : Z (* the burst buffer's halfword pointer *)
}.

Section reader.
(** The record memory, and what a fresh read's first words hold. *)
Context (sram : Z -> Z) (warm : Z -> Z).

Definition warmUp : Z := 16.
Definition freshWord (p i : Z) : Z := if i <? warmUp then warm i else sram ((p + i) mod Words).

(** top.v's register writes and transport.v's commands. *)
Definition readerStep (d : reader) (r : Z * Z) : reader :=
  if r.1 =? 8 then Reader (bits r.2 0 16 .| (bits (countReg d) 16 4 .<< 16)) (pos d) (buf d) (half d)
  else if r.1 =? 9 then Reader (bits (countReg d) 0 16 .| (bits r.2 0 4 .<< 16)) (pos d) (buf d) (half d)
  else if r.1 =? 17 then Reader (countReg d) (pos d) (buf d) (bits r.2 0 14)
  else if r.1 =? 1 then
    let n := countReg d in
    if bits r.2 0 4 =? 3 then Reader n ((pos d + n) mod Words) (buf d) (half d)
    else if bits r.2 0 4 =? 2 then
      Reader n ((pos d + n + 1) mod Words) (map (freshWord (pos d)) (seqZ 0 n)) (half d)
    else if bits r.2 0 4 =? 7 then
      Reader n ((pos d + n) mod Words) (map (fun i => sram ((pos d - 1 + i) mod Words)) (seqZ 0 n)) (half d)
    else d
  else d.
Definition readerRun (d : reader) (w : list (Z * Z)) : reader := fold_left readerStep w d.

Lemma readerRun_app d w w' : readerRun d (w ++ w') = readerRun (readerRun d w) w'.
Proof. apply fold_left_app. Qed.

Definition posOk (d : reader) : Prop := 0 <= pos d < Words.

Lemma posOk_run d w : posOk d -> posOk (readerRun d w).
Proof.
  revert d. induction w as [|r w IH]; intros d Hd; [done|]. apply IH. unfold readerStep.
  repeat case_match; try exact Hd; apply Z.mod_pos_bound; unfold Words; lia.
Qed.

(** Both halves of the count, whatever it was. *)
Lemma countReg_write d n :
  fits 20 n ->
  readerRun d [(8, n .& 0xffff); (8 + 1, u16 (n .>> 16))] = Reader n (pos d) (buf d) (half d).
Proof.
  intros Hn. change (8 + 1) with 9. unfold readerRun. cbn -[bits u16 Z.land Z.shiftr Z.shiftl Z.lor]. f_equal.
  change (n .& 65535) with (bits n 0 16). assert (fits 16 (bits n 0 16)) by (apply fits_bits; lia).
  rewrite bits_lor, bits_below, Z.lor_0_r by lia. rewrite !(bits_self (bits n 0 16)) by (done || lia).
  rewrite bits_u16 by lia. by rewrite <- (bits_split n 16 20) at 3 by (done || lia).
Qed.
End reader.

(** ** Words and their bytes *)

Lemma wordBytes_drop a l : drop (4 * a) (wordBytes l) = wordBytes (drop a l).
Proof.
  revert l. induction a as [|a IH]; intros l; [done|]. destruct l as [|x l]; [done|].
  replace (4 * S a)%nat with (4 + 4 * a)%nat by lia.
  change (wordBytes (x :: l)) with (leBytes 4 x ++ wordBytes l).
  rewrite <- drop_drop. rewrite drop_app_length' by by rewrite length_leBytes. apply IH.
Qed.
Lemma wordBytes_take b l : take (4 * b) (wordBytes l) = wordBytes (take b l).
Proof.
  revert l. induction b as [|b IH]; intros l; [done|]. destruct l as [|x l]; [done|].
  replace (4 * S b)%nat with (4 + 4 * b)%nat by lia.
  change (wordBytes (x :: l)) with (leBytes 4 x ++ wordBytes l). cbn [take].
  change (wordBytes (x :: take b l)) with (leBytes 4 x ++ wordBytes (take b l)).
  rewrite take_app, length_leBytes, take_ge by (rewrite length_leBytes; lia).
  replace (4 + 4 * b - 4)%nat with (4 * b)%nat by lia. by rewrite IH.
Qed.
Lemma wordBytes_slice a b l : slice (4 * a) (4 * b) (wordBytes l) = wordBytes (slice a b l).
Proof. unfold slice. by rewrite wordBytes_drop, wordBytes_take. Qed.
Lemma wordBytes_app l l' : wordBytes (l ++ l') = wordBytes l ++ wordBytes l'.
Proof. unfold wordBytes. by rewrite map_app, concat_app. Qed.
Lemma length_wordBytes l : length (wordBytes l) = (4 * length l)%nat.
Proof.
  induction l as [|x l IH]; [done|].
  change (wordBytes (x :: l)) with (leBytes 4 x ++ wordBytes l).
  rewrite length_app, length_leBytes, IH. simpl. lia.
Qed.
Lemma isBytes_wordBytes l : isBytes (wordBytes l).
Proof.
  induction l as [|x l IH]; [constructor|]. apply Forall_app. split; [apply isBytes_leBytes|exact IH].
Qed.

(** Bytes a device returns in full are kept as they are. *)
Lemma map_id_on_bytes l : isBytes l -> map u8 l = l.
Proof.
  induction 1 as [|x l Hx Hl IH]; [done|]. cbn [map]. by rewrite IH, u8_fits.
Qed.

Lemma slice_map_seqZ {A} (g : Z -> A) a b n :
  0 <= a -> 0 <= b -> a + b <= n ->
  slice (Z.to_nat a) (Z.to_nat b) (map g (seqZ 0 n)) = map (fun i => g (a + i)) (seqZ 0 b).
Proof.
  intros Ha Hb Hn. apply list_eq. intros i. unfold slice.
  destruct (decide (i < Z.to_nat b)%nat) as [Hi|Hi].
  - rewrite lookup_take_lt, lookup_drop by done. rewrite !list_lookup_fmap.
    rewrite !lookup_seqZ_lt by lia. simpl. do 2 f_equal. lia.
  - rewrite lookup_take_ge by lia. symmetry. apply lookup_ge_None_2. rewrite length_map, length_seqZ. lia.
Qed.

(** ** The history since the recall began *)

Section since.
Context {E : Env} (h0 : history).

(** The events since [h0] and the queue carry the writes [w]. *)
Definition since (w : list (Z * Z)) (s : capture) : Prop :=
  queueOk s /\ armReady s = false /\ exists l, trace s = h0 ++ l /\ writesOf l ++ pending s = w.

(** The history grows, and Arm's cache stays as it is. *)
Definition flows (s s' : capture) : Prop := grows s s' /\ armReady s' = armReady s.
#[global] Instance flows_busStep : BusStep flows.
Proof.
  split.
  - split; [by intros s|]. intros s1 s2 s3 [H1 H2] [H3 H4]. split; [by etransitivity|congruence].
  - intros e s _. split; [by exists [e]|done].
  - intros l s _. split; [exists []; by rewrite app_nil_r|done].
  - intros n s. split; [exists []; by rewrite app_nil_r|done].
Qed.

Lemma since_issues {A} (m : M A) regs w s a s' :
  issues m regs -> steps flows m -> since w s -> m s = (Ret a, s') -> since (w ++ regs) s'.
Proof.
  intros Hm Hg (Hq & Ha & l & Ht & Hw) H. apply Hm in H as Hi; [|done]. destruct Hi as [Hq' Hi].
  specialize (Hg s). rewrite H in Hg. destruct Hg as [[l' Hl'] Ha']. simpl in Hl', Ha'.
  split; [done|]. split; [congruence|]. exists (l ++ l'). split; [by rewrite Hl', Ht, app_assoc|].
  unfold issued in Hi. rewrite Hl', Ht, !writesOf_app, <- !app_assoc in Hi. apply app_inv_head in Hi.
  rewrite writesOf_app, <- app_assoc. rewrite <- Hw, <- app_assoc. exact Hi.
Qed.
Lemma since_silent {A} (m : M A) w s a s' :
  issues m [] -> steps flows m -> since w s -> m s = (Ret a, s') -> since w s'.
Proof. intros Hm Hg Hs H. rewrite <- (app_nil_r w). by eapply since_issues. Qed.

(** A flush leaves the writes on the bus. *)
Lemma since_flush w s a s' :
  since w s -> flushWrites s = (Ret a, s') -> since w s' /\ exists l, trace s' = h0 ++ l /\ writesOf l = w.
Proof.
  intros Hs H. assert (since w s') as Hs'.
  { eapply since_silent; [apply issues_flushWrites|apply steps_flushWrites; apply _|done|exact H]. }
  split; [done|]. destruct Hs' as (_ & _ & l & Ht & Hw). exists l. split; [done|].
  apply flushWrites_Ret in H as (_ & Hp & _). by rewrite Hp, app_nil_r in Hw.
Qed.

(** A read is answered after the writes [w]. *)
Lemma since_read w sel s v s' :
  since w s -> read sel s = (Ret v, s') ->
  since w s' /\ exists l x, env_Read (h0 ++ l) sel = inl x /\ v = u16 x /\ writesOf l = w.
Proof.
  intros Hs H. assert (since w s') as Hs'.
  { eapply since_silent; [apply issues_read|apply steps_read; apply _|done|exact H]. }
  split; [done|]. rewrite read_uncached in H by apply Hs.
  apply bind_Ret_inv in H as ([] & s1 & H1 & H). apply (since_flush w) in H1 as (_ & l & Ht & Hw); [|done].
  unfold busRead, addBeats in H. inv_ret H. exists l. eexists. rewrite <- Ht. split; [exact Q|done].
Qed.
End since.


(** ** One burst on the device *)

Section device.
Context {E : Env} (sram warm : Z -> Z) (h0 : history) (d0 : reader).
Hypothesis posOk0 : posOk d0.

(** The device after the writes of the events [l]. *)
Local Abbreviation dev w := (readerRun sram warm d0 w).

(** What the bus returns is the device's pointer and its buffer's bytes. *)
Record servesSRAM : Prop := {
  serves_lo l x : env_Read (h0 ++ l) 8 = inl x -> u16 x = bits (pos (dev (writesOf l))) 0 16;
  serves_hi l x : env_Read (h0 ++ l) 9 = inl x -> u16 x = bits (pos (dev (writesOf l))) 16 3;
  serves_many many l vs :
    env_ReadMany = Some many -> many (h0 ++ l) [8; 9; 1] = inl vs ->
    u16 (at_ vs 0) = bits (pos (dev (writesOf l))) 0 16 /\ u16 (at_ vs 1) = bits (pos (dev (writesOf l))) 16 3;
  serves_pop pop l n bytes :
    env_PopBytes = Some pop -> pop (h0 ++ l) 25 n = inl bytes ->
    bytes = slice (Z.to_nat (2 * half (dev (writesOf l)))) (Z.to_nat n) (wordBytes (buf (dev (writesOf l))))
}.
Hypothesis device : servesSRAM.

Lemma pos_pair w : pair32 (bits (pos (dev w)) 0 16) (bits (pos (dev w)) 16 3) = pos (dev w).
Proof using posOk0.
  pose proof (posOk_run sram warm d0 w posOk0) as Hp. unfold posOk, Words in Hp.
  apply (bits_split (pos (dev w)) 16 19); [exact Hp|lia].
Qed.

(** A recall's position read is the device's pointer. *)
Lemma position_read w s pf s' :
  since h0 w s -> readMany [8; 9; 1] s = (Ret pf, s') ->
  since h0 w s' /\ pair32 (at_ pf 0) (at_ pf 1) = pos (dev w).
Proof using device posOk0.
  intros Hs H. assert (since h0 w s') as Hs'.
  { eapply since_silent; [apply issues_readMany|apply steps_readMany; apply _|done|exact H]. }
  split; [done|]. unfold readMany in H. apply bind_Ret_inv in H as ([] & s1 & H1 & H).
  apply (since_flush h0 w) in H1 as (Hs1 & l & Ht & Hw); [|done]. rewrite <- (pos_pair w).
  destruct env_ReadMany as [many|] eqn:Hm.
  - unfold addBeats in H. inv_ret H. rewrite Ht in Q.
    destruct (serves_many device many l a Hm Q) as [H0 H1]. rewrite <- H0, <- H1.
    destruct a as [|x [|y a]]; [done| |done]. simpl in H1. done.
  - cbn [readEach] in H. apply bind_Ret_inv in H as (lo & s2 & H2 & H).
    apply (since_read h0 w) in H2 as (Hs2 & l2 & x & Hx & -> & Hw2); [|exact Hs1].
    apply bind_Ret_inv in H as (rest & s3 & H3 & H). apply bind_Ret_inv in H3 as (hi & s4 & H4 & H3).
    apply (since_read h0 w) in H4 as (Hs4 & l4 & y & Hy & -> & Hw4); [|exact Hs2].
    apply (serves_lo device) in Hx. apply (serves_hi device) in Hy. rewrite Hw2 in Hx. rewrite Hw4 in Hy.
    rewrite <- Hx, <- Hy. clear Hw Hw2 Hw4. inv_ret H3. by inv_ret H.
Qed.

(** *** The seek *)

Lemma mask_mod x : x .& addressMask = x mod Words.
Proof using. unfold addressMask, Words. change (2 ^ 19 - 1) with (Z.ones 19). by rewrite Z.land_ones by lia. Qed.
Lemma u32_mod x : u32 x mod Words = x mod Words.
Proof using.
  unfold u32, Words. change (2 ^ 32) with (2 ^ 19 * 2 ^ 13).
  rewrite Z.rem_mul_r by lia. rewrite (Z.mul_comm (2 ^ 19)), Z.mod_add by lia. apply Z.mod_mod. lia.
Qed.

Section burst.
Context (fuel : nat) (c : ctx) (m : Metadata) (offset physical : Z) (forward : bool) (room : option Z).
Hypothesis revision8 : 8 <= Revision m.

Lemma fits_skip t p : fits 20 (u32 (t - p) .& addressMask).
Proof using.
  rewrite mask_mod. unfold fits, Words. pose proof (Z.mod_pos_bound (u32 (t - p)) (2 ^ 19)). lia.
Qed.

(** After the seek the device stands at the target. *)
Lemma seek_device w sp s op s' :
  since h0 w s -> seek fuel c m offset warmUp sp s = (Ret op, s') ->
  op = 2 /\ exists w', since h0 w' s' /\ pos (dev w') = target m offset warmUp sp.
Proof using device posOk0.
  intros Hs H. unfold seek in H. apply bind_Ret_inv in H as (pf & s1 & H1 & H).
  apply (position_read w) in H1 as [Hs1 Hp]; [|done]. cbv zeta in H. rewrite Hp in H.
  change (warmUp =? 0) with false in H. cbn [andb] in H.
  set (t := target m offset warmUp sp) in *. set (skip := u32 (t - pos (dev w)) .& addressMask) in *.
  assert (0 <= t < Words) as Ht.
  { unfold t, target. rewrite mask_mod. apply Z.mod_pos_bound. unfold Words. lia. }
  pose proof (posOk_run sram warm d0 w posOk0) as Hpos. unfold posOk in Hpos.
  assert (skip = (t - pos (dev w)) mod Words) as Hskip by (unfold skip; by rewrite mask_mod, u32_mod).
  apply bind_Ret_inv in H as ([] & s2 & H2 & H). inv_ret H. split; [done|].
  destruct (Z.eqb_spec skip 0) as [H0|H0]; simpl in H2.
  - inv_ret H2. exists w. split; [done|]. rewrite H0 in Hskip. unfold Words in *.
    symmetry in Hskip. apply Z.mod_divide in Hskip as [k Hk]; [|lia]. nia.
  - assert (issues (write32 8 skip;; commandIn fuel c 3;; wait fuel c 4)
              [(8, skip .& 0xffff); (8 + 1, u16 (skip .>> 16)); (1, 3)]) as Hi.
    { apply (issues_bind _ _ [_; _] [_]); [apply issues_write32|intros _].
      apply (issues_bind _ _ [_] []); [apply issues_commandIn|intros _; apply issues_wait]. }
    eapply since_issues in H2; [|exact Hi|bus_steps; apply _|exact Hs1].
    eexists; split; [exact H2|].
    change [(8, skip .& 0xffff); (8 + 1, u16 (skip .>> 16)); (1, 3)]
      with ([(8, skip .& 0xffff); (8 + 1, u16 (skip .>> 16))] ++ [(1, 3)]).
    rewrite !readerRun_app, countReg_write by apply fits_skip. simpl.
    rewrite Hskip, Zplus_mod_idemp_r. replace (pos (dev w) + (t - pos (dev w))) with t by lia.
    by apply Z.mod_small.
Qed.

(** *** The transfer *)

Variable pop : history -> Z -> Z -> list Z + err.
Hypothesis dma : env_PopBytes = Some pop.

(** The span's words in the SRAM. *)
Definition spanData (sp : recallSpan) : list Z :=
  wordBytes (map (fun i => sram ((target m offset warmUp sp + warmUp + i) mod Words)) (seqZ 0 (spanCount sp))).

(** The bytes past the warm-up words of a fresh read. *)
Lemma fresh_bytes t n :
  0 < n ->
  slice 64 (Z.to_nat (4 * n)) (wordBytes (map (freshWord sram warm t) (seqZ 0 (n + warmUp)))) =
  wordBytes (map (fun i => sram ((t + warmUp + i) mod Words)) (seqZ 0 n)).
Proof using.
  intros Hn. replace (Z.to_nat (4 * n)) with (4 * Z.to_nat n)%nat by lia. change 64%nat with (4 * Z.to_nat warmUp)%nat.
  rewrite wordBytes_slice, slice_map_seqZ by (unfold warmUp; lia). f_equal. apply map_ext_in. intros i Hi.
  apply list_elem_of_In, elem_of_seqZ in Hi. unfold freshWord.
  destruct (Z.ltb_spec (warmUp + i) warmUp); [lia|]. do 2 f_equal. lia.
Qed.

Lemma since_emit w e s u s' : accepted e = [] -> since h0 w s -> emit e s = (Ret u, s') -> since h0 w s'.
Proof using.
  intros He (Hq & Ha & l & Ht & Hw) [= _ <-]. split; [exact Hq|]. split; [exact Ha|]. exists (l ++ [e]).
  split; [simpl; by rewrite Ht, app_assoc|]. simpl. by rewrite writesOf_app, writesOf_one, He, app_nil_r.
Qed.

(** The burst pop, with the device's halfword pointer past the warm-up. *)
Lemma popBurst_device w sp s data s' :
  since h0 w s -> (exists l, trace s = h0 ++ l /\ writesOf l = w) -> 0 < spanCount sp ->
  half (dev w) = 2 * warmUp ->
  buf (dev w) = map (freshWord sram warm (target m offset warmUp sp)) (seqZ 0 (spanCount sp + warmUp)) ->
  popBurst room sp s = (Ret data, s') -> data = spanData sp /\ since h0 w s'.
Proof using device dma.
  intros Hs (l & Ht & Hw) Hn Hh Hb H. unfold popBurst in H. rewrite dma in H. cbv zeta in H.
  apply bind_Ret_inv in H as (bytes & s1 & H1 & H). unfold popBytesWith in H1.
  apply bind_Ret_inv in H1 as (h & s2 & H2 & H1). injection H2 as <- <-. cbv zeta in H1.
  apply bind_Ret_inv in H1 as ([] & s3 & H3 & H1). apply (since_emit w) in H3 as Hs3; [|done|done].
  apply bind_Ret_inv in H1 as (raw & s4 & H4 & H1). apply lift_Ret_inv in H4 as [Hraw ->].
  apply mret_Ret_inv in H1 as [-> ->]. rewrite Ht in Hraw at 1.
  apply (serves_pop device pop l _ _ dma) in Hraw. rewrite Hw, Hh, Hb in Hraw.
  change (Z.to_nat (2 * (2 * warmUp))) with 64%nat in Hraw. rewrite fresh_bytes in Hraw by done.
  apply bind_Ret_inv in H as ([] & s5 & H5 & H). apply mret_Ret_inv in H as [-> ->].
  assert (since h0 w s5) as Hs5.
  { destruct room; [by eapply since_emit; [..|exact H5]|by apply mret_Ret_inv in H5 as [_ ->]]. }
  split; [|done]. subst raw. unfold spanData.
  set (words := map _ _). assert (Z.of_nat (length (wordBytes words)) = 4 * spanCount sp) as Hlen.
  { rewrite length_wordBytes. unfold words. rewrite length_map, length_seqZ. lia. }
  rewrite <- Hlen, fitTo_exact. apply map_id_on_bytes, isBytes_wordBytes.
Qed.

Lemma burst_device w sp s data s' :
  since h0 w s -> 0 < spanCount sp -> spanCount sp + warmUp <= 4096 ->
  burst fuel c m offset warmUp physical forward room sp s = (Ret data, s') ->
  data = spanData sp /\ exists w', since h0 w' s'.
Proof using device dma posOk0 revision8.
  intros Hs Hn Hn' H. unfold burst in H. cbv zeta in H.
  assert (fits 20 (spanCount sp + warmUp)) as Hfit by (unfold fits, warmUp in *; lia).
  assert (u32 (spanCount sp + warmUp) = spanCount sp + warmUp) as H32.
  { apply u32_fits. by apply (fits_le 20). }
  rewrite H32 in H. apply bind_Ret_inv in H as (op & s1 & H1 & H).
  apply (seek_device w) in H1 as (-> & w1 & Hs1 & Hpos); [|done].
  apply bind_Ret_inv in H as ([] & s2 & H2 & H).
  eapply since_issues in H2; [|apply issues_write32|bus_steps; apply _|exact Hs1].
  apply bind_Ret_inv in H as ([] & s3 & H3 & H).
  eapply since_issues in H3; [|apply issues_commandIn|bus_steps; apply _|exact H2].
  apply bind_Ret_inv in H as ([] & s4 & H4 & H).
  eapply since_silent in H4; [|apply issues_wait|bus_steps; apply _|exact H3].
  apply bind_Ret_inv in H as (got & s5 & H5 & H).
  eapply since_silent in H5; [|apply issues_read|bus_steps; apply _|exact H4].
  apply bind_Ret_inv in H as ([] & s6 & H6 & H). apply guard_Ret_inv in H6 as [_ ->].
  destruct (8 <=? Revision m) eqn:H8; [|lia]. unfold burstData in H. cbv zeta in H.
  set (w3 := (w1 ++ _) ++ _) in H3, H4, H5.
  apply bind_Ret_inv in H as ([] & s7 & H7 & H).
  set (prime := if forward || (10 <=? Revision m) then [(16, u16 warmUp)] else []).
  eapply (since_issues h0 _ prime) in H7; [| |bus_steps; apply _|exact H5].
  2: { unfold prime. destruct (forward || _); [|apply issues_mret].
       apply (issues_bind _ _ [_] []); [apply issues_write|intros _; issues_tac]. }
  apply bind_Ret_inv in H as ([] & s8 & H9 & H).
  eapply since_issues in H9; [|apply issues_write|bus_steps; apply _|exact H7].
  apply bind_Ret_inv in H as ([] & s9 & H10 & H). apply (since_flush h0 ((w3 ++ prime) ++ [(17, u16 (warmUp * 2))])) in H10 as [Hs9 Hl]; [|done].
  apply bind_Ret_inv in H as (bytes & s10 & H11 & H).
  apply (popBurst_device ((w3 ++ prime) ++ [(17, u16 (warmUp * 2))])) in H11 as [-> Hs10]; [|done|done|done| |].
  - apply bind_Ret_inv in H as (index & s11 & H12 & H).
    eapply since_silent in H12; [|apply issues_read|bus_steps; apply _|exact Hs10].
    apply bind_Ret_inv in H as ([] & s12 & H13 & H). apply guard_Ret_inv in H13 as [_ ->].
    apply mret_Ret_inv in H as [-> ->]. split; [done|]. by eexists.
  - rewrite readerRun_app. by unfold prime; destruct (forward || _).
  - rewrite !readerRun_app. transitivity (buf (dev w3)); [by unfold prime; destruct (forward || _)|].
    unfold w3. rewrite !readerRun_app, countReg_write by done. simpl. by rewrite Hpos.
Qed.
End burst.
End device.
