(* ===== verification/RecallWindow.v ===== *)
(** * A recall delivers the window

    Whatever the mode (words written on as the bursts come, staged in
    recallScratch, or read into the sink's room), a recall that succeeds
    (recallFrozen, src/app/internal/sramcapture/capture.go) adds exactly the
    window's bytes, in order, to what the sink had. *)
From S2P Require Import Prelude Circular Machine Fabric Bus Command BusSteps Status Arm RecallSpans Recall Sinks RecallDevice.

Section sinks.
Context {E : Env} (id : Z) (k0 : sinkState).
Local Abbreviation sinkOf := (sinkOf id k0).
Local Abbreviation sinkSame_Ret := (sinkSame_Ret id k0).

(** Only the burst's pop puts words into the room. *)
Lemma popBurst_sink room sp s data s' :
  popBurst room sp s = (Ret data, s') ->
  recallScratch s' = recallScratch s /\
  (sinkOf s' = match room, env_PopBytes with
               | Some i, Some _ => sinkStep id (sinkOf s) (EvRoomPut i (4 * spanOffset sp) data)
               | _, _ => sinkOf s
               end).
Proof.
  intros H. unfold popBurst in H. destruct env_PopBytes as [pop|].
  - apply bind_Ret_inv in H as (d & s1 & H1 & H).
    apply sinkSame_Ret in H1 as (Hs & Hr & _); [|bus_steps; apply _].
    apply bind_Ret_inv in H as ([] & s2 & H2 & H). apply mret_Ret_inv in H as [-> ->].
    destruct room as [i|].
    + apply (sinkOf_emit id k0) in H2 as Ho. injection H2 as <-. rewrite Ho, Hs. by split.
    + by apply mret_Ret_inv in H2 as [_ ->].
  - apply sinkSame_Ret in H as (Hs & Hr & _); [|bus_steps; apply _]. by destruct room.
Qed.

Lemma burst_sink fuel c m offset prefix physical forward room sp s data s' :
  8 <= Revision m -> burst fuel c m offset prefix physical forward room sp s = (Ret data, s') ->
  recallScratch s' = recallScratch s /\
  (sinkOf s' = match room, env_PopBytes with
               | Some i, Some _ => sinkStep id (sinkOf s) (EvRoomPut i (4 * spanOffset sp) data)
               | _, _ => sinkOf s
               end).
Proof.
  intros Hrev H. unfold burst in H. cbv zeta in H. replace (8 <=? Revision m) with true in H by lia.

  apply bind_Ret_inv in H as (op & s1 & H1 & H). apply sinkSame_Ret in H1 as (A1 & B1 & _); [|unfold seek; bus_steps; apply _].
  do 5 (let x := fresh "x" in let t := fresh "t" in let Hx := fresh "H" in let HA := fresh "A" in let HB := fresh "B" in
    apply bind_Ret_inv in H as (x & t & Hx & H); apply sinkSame_Ret in Hx as (HA & HB & _); [|bus_steps; apply _]).
  unfold burstData in H. cbv zeta in H.
  do 3 (let x := fresh "x" in let t := fresh "t" in let Hx := fresh "H" in let HA := fresh "A" in let HB := fresh "B" in
    apply bind_Ret_inv in H as (x & t & Hx & H); apply sinkSame_Ret in Hx as (HA & HB & _); [|bus_steps; apply _]).
  apply bind_Ret_inv in H as (d & s2 & H2 & H). apply popBurst_sink in H2 as [BP AP].
  apply bind_Ret_inv in H as (y9 & s3 & H3 & H). apply sinkSame_Ret in H3 as (AQ & BQ & _); [|bus_steps; apply _].
  apply bind_Ret_inv in H as (y10 & s4 & H4 & H). apply guard_Ret_inv in H4 as [_ ->].
  apply mret_Ret_inv in H as [-> ->]. split; [congruence|]. rewrite AQ, AP. by replace (sinkOf t6) with (sinkOf s) by congruence.
Qed.
End sinks.

(** ** The window *)

Section window.
Context {E : Env} (sram warm : Z -> Z) (h0 : history) (d0 : reader).
Hypothesis posOk0 : posOk d0.
Hypothesis device : servesSRAM sram warm h0 d0.
Context (fuel : nat) (m : Metadata) (offset count : Z).
Hypothesis revision8 : 8 <= Revision m.
Context (pop : history -> Z -> Z -> list Z + err).
Hypothesis dma : env_PopBytes = Some pop.
Context (id : Z) (k0 : sinkState).
Local Abbreviation sinkOf := (sinkOf id k0).

(** The record's words from [offset] on, in SRAM order, as bytes. *)
Definition windowBytes : list Z :=
  wordBytes (map (fun i => sram ((Origin m + Start m + offset + i) mod Words)) (seqZ 0 count)).

Lemma length_windowBytes : 0 <= count -> Z.of_nat (length windowBytes) = 4 * count.
Proof using. intros. unfold windowBytes. rewrite length_wordBytes, length_map, length_seqZ. lia. Qed.

Lemma spanData_window sp :
  spanWithin count sp -> spanData sram m offset sp = spanBytes windowBytes sp.
Proof using.
  intros (H0 & H1 & H2). unfold spanData, spanBytes, windowBytes.
  replace (Z.to_nat (4 * spanOffset sp)) with (4 * Z.to_nat (spanOffset sp))%nat by lia.
  replace (Z.to_nat (4 * spanCount sp)) with (4 * Z.to_nat (spanCount sp))%nat by lia.
  rewrite wordBytes_slice, slice_map_seqZ by lia. f_equal. apply map_ext. intros i. f_equal.
  unfold target. rewrite mask_mod, u32_mod, <- Z.add_assoc, Zplus_mod_idemp_l. unfold warmUp. f_equal. lia.
Qed.

(** Where a span's bytes go: sink, recallScratch, and the bytes counted. *)
Definition place (forward : bool) (room : option Z) (st : sinkState * list Z * Z) (sp : recallSpan) : sinkState * list Z * Z :=
  let '(k, scratch, n) := st in
  let data := spanBytes windowBytes sp in
  let o := Z.to_nat (4 * spanOffset sp) in
  match room with
  | Some _ => (Sink (got k) (copyAt o data (roomBytes k)) (reserved k), scratch, n)
  | None =>
      if forward then (k, copyAt o data scratch, n)
      else (Sink (got k ++ data) (roomBytes k) (reserved k), scratch, n + Z.of_nat (length data))
  end.

Lemma since_deliver w room forward dst sp data s n s' :
  since h0 w s -> deliver forward room dst sp data s = (Ret n, s') -> since h0 w s'.
Proof using.
  intros Hs H. unfold deliver in H. destruct room; [by apply mret_Ret_inv in H as [_ ->]|].
  destruct forward; [inv_ret H; exact Hs|].
  unfold writeAll in H. apply bind_Ret_inv in H as ([k e] & s1 & H1 & H).
  assert (since h0 w s1) as Hs1.
  { destruct dst; unfold sinkWrite in H1.
    - apply bind_Ret_inv in H1 as (h & s2 & H2 & H1). injection H2 as <- <-. cbv zeta in H1.
      apply bind_Ret_inv in H1 as ([] & s3 & H3 & H1). apply mret_Ret_inv in H1 as [_ ->].
      by eapply (since_emit h0 w); [..|exact H3].
    - apply bind_Ret_inv in H1 as (nx & s2 & H2 & H1). injection H2 as <- <-.
      destruct (counterWrite _ _) as [r nx]. apply bind_Ret_inv in H1 as ([] & s2 & H2 & H1).
      apply bind_Ret_inv in H1 as ([] & s3 & H3 & H1). apply mret_Ret_inv in H1 as [_ ->].
      eapply (since_emit h0 w); [..|exact H3]; [done|]. by injection H2 as <-. }
  simpl in H. destruct e; [discriminate H|]. destruct (negb _); [discriminate H|]. by apply mret_Ret_inv in H as [_ ->].
Qed.

Lemma deliver_place room forward dst sp s s1 n n0 s' :
  sinkId dst = id ->
  recallScratch s1 = recallScratch s ->
  sinkOf s1 = match room with
              | Some i => sinkStep id (sinkOf s) (EvRoomPut i (4 * spanOffset sp) (spanBytes windowBytes sp))
              | None => sinkOf s
              end ->
  (room = None \/ room = Some id) ->
  deliver forward room dst sp (spanBytes windowBytes sp) s1 = (Ret n, s') ->
  (sinkOf s', recallScratch s', n0 + n) = place forward room (sinkOf s, recallScratch s, n0) sp.
Proof using.
  intros Hdst Hr Ho Hroom H. unfold deliver in H. unfold place. destruct room as [i|].
  - apply mret_Ret_inv in H as [-> ->]. destruct Hroom as [|[= ->]]; [done|].
    rewrite Ho, Hr. simpl. by rewrite Z.eqb_refl, Z.add_0_r.
  - destruct forward.
    + inv_ret H. simpl. rewrite Hr, Z.add_0_r. unfold sinkOf in *. simpl. by rewrite Ho.
    + assert (recallScratch s' = recallScratch s1) as Hr'.
      { clear -H. unfold writeAll in H. apply bind_Ret_inv in H as ([k e] & s2 & H1 & H).
        assert (recallScratch s2 = recallScratch s1).
        { destruct dst; unfold sinkWrite in H1; [by inv_ret H1|].
          apply bind_Ret_inv in H1 as (nx & s3 & H2 & H1). injection H2 as <- <-.
          destruct (counterWrite _ _) as [r nx]. by inv_ret H1. }
        simpl in H. destruct e; [discriminate H|]. destruct (negb _); [discriminate H|].
        by apply mret_Ret_inv in H as [_ ->]. }
      apply (writeAll_sink id k0) in H as (-> & Hk & _); [|done]. rewrite Hr', Hr.
      unfold Sinks.sinkOf in *. by rewrite Hk, Ho.
Qed.

Lemma recallLoop_device c physical forward room dst i total spans written s n s' :
  sinkId dst = id -> (room = None \/ room = Some id) ->
  Forall (spanWithin count) spans -> Forall (fun sp => spanCount sp <= 4080) spans ->
  (exists w, since h0 w s) ->
  recallLoop fuel c m offset warmUp physical forward room dst i total spans written s = (Ret n, s') ->
  (exists w, since h0 w s') /\
  (sinkOf s', recallScratch s', n) = fold_left (place forward room) spans (sinkOf s, recallScratch s, written).
Proof using posOk0 device revision8 dma.
  intros Hdst Hroom Hin Hmax. revert i written s. induction spans as [|sp spans IH]; intros i written s [w Hs] H.
  { apply mret_Ret_inv in H as [-> ->]. split; [by exists w|done]. }
  cbn [recallLoop] in H. apply Forall_cons in Hin as [Hsp Hin]. apply Forall_cons in Hmax as [Hm Hmax].
  apply bind_Ret_inv in H as (u1 & s1 & H1 & H).
  apply (sinkSame_Ret id k0) in H1 as Hk1; [|bus_steps; apply _].
  eapply since_silent in H1; [|apply issues_checkCtx|bus_steps; apply _|exact Hs].
  apply bind_Ret_inv in H as (u2 & s2 & H2 & H).
  apply (sinkSame_Ret id k0) in H2 as Hk2; [|bus_steps; apply _].
  assert (since h0 w s2) as Hs2.
  { destruct (0 <? i); [by eapply since_emit; [..|exact H2]|by apply mret_Ret_inv in H2 as [_ ->]]. }
  apply bind_Ret_inv in H as (data & s3 & H3 & H).
  apply (burst_sink id k0) in H3 as Hk3; [|done]. rewrite dma in Hk3.
  eapply (burst_device sram warm h0 d0) in H3 as [-> [w3 Hs3]];
    [|done|done|done|done|exact Hs2|apply Hsp|unfold warmUp; lia].
  rewrite spanData_window in * by done.
  apply bind_Ret_inv in H as (k & s4 & H4 & H).
  assert (since h0 w3 s4) as Hs4 by by eapply since_deliver.
  apply (deliver_place room forward dst sp s s3 k written s4) in H4; [|done| | |done].
  - apply IH in H as [Hs' H']; [|done|done|by exists w3]. split; [done|]. cbn [fold_left]. by rewrite <- H4.
  - destruct Hk1 as (_ & ? & _), Hk2 as (_ & ? & _), Hk3. congruence.
  - destruct Hk1 as [E1 _], Hk2 as [E2 _], Hk3 as [_ E3]. rewrite E3, E2, E1. by destruct room.
Qed.

(** *** The three modes *)

Lemma place_plain spans k scratch n :
  fold_left (place false None) spans (k, scratch, n) =
  (Sink (got k ++ concat (map (spanBytes windowBytes) spans)) (roomBytes k) (reserved k), scratch,
   n + Z.of_nat (length (concat (map (spanBytes windowBytes) spans)))).
Proof using.
  revert k n. induction spans as [|sp spans IH]; intros k n; simpl.
  - rewrite app_nil_r, Z.add_0_r. by destruct k.
  - rewrite IH. simpl. by rewrite length_app, Nat2Z.inj_add, Z.add_assoc, <- app_assoc.
Qed.
Lemma place_forward spans k scratch n :
  fold_left (place true None) spans (k, scratch, n) = (k, assemble windowBytes spans scratch, n).
Proof using. revert scratch. induction spans as [|sp spans IH]; intros scratch; simpl; [done|]. apply IH. Qed.
Lemma place_room forward i spans k scratch n :
  fold_left (place forward (Some i)) spans (k, scratch, n) =
  (Sink (got k) (assemble windowBytes spans (roomBytes k)) (reserved k), scratch, n).
Proof using.
  revert k. induction spans as [|sp spans IH]; intros k; simpl; [by destruct k|]. by rewrite IH.
Qed.

(** *** The transfer *)

Lemma readBuffer_size w s sizes s' :
  since h0 w s -> readBuffer m s = (Ret sizes, s') ->
  sizes.1 = 4096 /\ since h0 w s' /\ sinkSame id k0 s s'.
Proof using revision8.
  intros Hs H. apply (sinkSame_Ret id k0) in H as Hk; [|unfold readBuffer; bus_steps; apply _].
  unfold readBuffer in H. replace (8 <=? Revision m) with true in H by lia.
  apply bind_Ret_inv in H as (size & s1 & H1 & H).
  eapply since_silent in H1; [|apply issues_read|bus_steps; apply _|exact Hs].
  apply bind_Ret_inv in H as (u & s2 & H2 & H). apply guard_Ret_inv in H2 as [Hg ->].
  apply mret_Ret_inv in H as [-> ->]. split; [|done]. simpl.
  destruct (Z.eqb_spec size 4096); [lia|]. destruct (Z.eqb_spec size 8192); [lia|].
  simpl in Hg. by rewrite orb_true_r in Hg.
Qed.

(** The room, or recallScratch, holds the whole window. *)
Lemma roomFor_room dst s room s' w :
  sinkId dst = id -> since h0 w s -> roomFor m count dst s = (Ret room, s') ->
  since h0 w s' /\ recallScratch s' = recallScratch s /\ got (sinkOf s') = got (sinkOf s) /\
  (room = None \/ (room = Some id /\ length (roomBytes (sinkOf s')) = Z.to_nat (count * 4))).
Proof using dma.
  intros Hdst Hs H. unfold roomFor in H. rewrite dma in H. destruct dst as [i|]; [|apply mret_Ret_inv in H as [-> ->]; auto].
  destruct (_ && _); [|apply mret_Ret_inv in H as [-> ->]; auto]. simpl in Hdst. subst i.
  apply bind_Ret_inv in H as (h & s1 & H1 & H). injection H1 as <- <-. cbv zeta in H.
  apply bind_Ret_inv in H as (u & s1 & H1 & H). apply mret_Ret_inv in H as [-> ->].
  apply (sinkOf_emit id k0) in H1 as Ho. eapply (since_emit h0 w) in H1 as Hs1; [|done|done].
  split; [done|]. split; [by injection H1 as _ <-|]. unfold Sinks.sinkOf in *. rewrite Ho.
  destruct (env_Room _ _ _); simpl; [|auto]. rewrite Z.eqb_refl. simpl. split; [done|]. right. split; [done|].
  unfold fitTo. rewrite length_app, length_take, length_map, length_replicate. lia.
Qed.

(** Every read of the window through the burst protocol. *)
Lemma recallTransfer_window c dst forward w s n s' :
  fits 30 count -> sinkId dst = id -> since h0 w s ->
  recallTransfer fuel c m offset count dst forward s = (Ret n, s') ->
  n = 4 * count /\ got (sinkOf s') = got (sinkOf s) ++ windowBytes.
Proof using posOk0 device revision8 dma.
  intros Hf Hdst Hs H. unfold fits in Hf. pose proof (length_windowBytes ltac:(lia)) as Hlen. unfold recallTransfer in H.
  apply bind_Ret_inv in H as ([bw ph] & s1 & H1 & H).
  eapply readBuffer_size in H1 as (Hbw & Hs1 & Hk1 & _); [|exact Hs]. simpl in Hbw. subst bw.
  apply bind_Ret_inv in H as (u & s2 & H2 & H). apply guard_Ret_inv in H2 as [_ ->].
  apply bind_Ret_inv in H as (c' & s3 & H3 & H). apply (sinkSame_Ret id k0) in H3 as Hk3; [|bus_steps; apply _].
  eapply since_silent in H3; [|apply issues_withTimeout|bus_steps; apply _|exact Hs1]. destruct Hk3 as [Hk3 _].
  apply bind_Ret_inv in H as (room & s4 & H4 & H).
  apply (roomFor_room dst s3 room s4 w Hdst H3) in H4 as (Hs4 & _ & Hgot & Hroom).
  apply bind_Ret_inv in H as (u5 & s5 & H5 & H). cbv zeta in H.
  assert (since h0 w s5 /\ sinkOf s5 = sinkOf s4 /\
    (forward = true -> room = None -> (length windowBytes <= length (recallScratch s5))%nat)) as (Hs5 & Hk5 & Hscr).
  { destruct forward; simpl in H5; [|by apply mret_Ret_inv in H5 as [_ ->]]. case_bool_decide as Hn.
    - injection H5 as _ <-. split; [exact Hs4|]. split; [done|]. intros _ _. simpl.
      destruct (Nat.ltb_spec (length (recallScratch s4)) (Z.to_nat (count * 4))); rewrite ?length_replicate; lia.
    - by apply mret_Ret_inv in H5 as [_ ->]. }
  assert (prefixOf m = warmUp) as Hpre by (unfold prefixOf; by replace (7 <=? Revision m) with true by lia).
  rewrite Hpre in H. change (u32 (4096 - warmUp)) with 4080 in H.
  set (gap := if forward then warmUp + 2 else 0) in H. assert (0 <= gap <= 18) by (destruct forward; unfold gap, warmUp; lia).
  destruct (recallSpans_cut count 4080 gap) as (spans & Hspans & Hperm & Hsane); [lia|lia|unfold fits; lia|].
  rewrite Hspans in H. apply bind_Ret_inv in H as (written & s6 & H6 & H).
  apply recallLoop_device in H6 as [_ Hk6]; [|done|destruct Hroom as [|[? _]]; auto|by eapply partition_within| |by exists w].
  2: { eapply Forall_impl; [exact Hsane|]. intros sp [_ ?]. lia. }
  pose proof (fun scratch => assemble_window windowBytes count 4080 gap spans scratch Hperm Hsane Hlen) as Hall.
  assert (got (sinkOf s5) = got (sinkOf s)) as Hg5.
  { rewrite Hk5, Hgot. unfold Sinks.sinkOf in *. by rewrite Hk3, Hk1. }
  destruct Hroom as [->|[-> Hrl]].
  - destruct forward; simpl in H.
    + rewrite place_forward in Hk6. injection Hk6 as Hk6 Hr6 ->. destruct (Z.eqb_spec count 0) as [Hc0|Hc0]; simpl in H.
      * apply mret_Ret_inv in H as [-> ->]. split; [lia|]. rewrite Hk6, Hg5.
        destruct windowBytes; [by rewrite app_nil_r|simpl in Hlen; lia].
      * apply bind_Ret_inv in H as (d & s7 & H7 & H). injection H7 as <- <-.
        replace (Z.to_nat (count * 4)) with (length windowBytes) in H by lia.
        rewrite Hr6, Hall in H by auto. apply (writeAll_sink id k0) in H as (-> & Hk & _); [|done].
        split; [lia|]. rewrite Hk. simpl. unfold Sinks.sinkOf in *. by rewrite Hk6, Hg5.
    + apply mret_Ret_inv in H as [-> ->]. rewrite place_plain in Hk6. injection Hk6 as Hk6 _ ->.
      rewrite (recallSpans_ordered windowBytes count 4080 spans) in * by (done || unfold fits; lia).
      split; [lia|]. rewrite Hk6, <- Hg5. done.
  - rewrite place_room in Hk6. injection Hk6 as Hk6 _ ->.
    apply bind_Ret_inv in H as (u7 & s7 & H7 & H). apply mret_Ret_inv in H as [-> ->]. split; [lia|].
    apply (sinkOf_emit id k0) in H7. unfold Sinks.sinkOf in *. rewrite H7, Hk6. simpl. rewrite Z.eqb_refl. simpl.
    rewrite Hg5. f_equal. replace (Z.to_nat (count * 4)) with (length windowBytes) by lia. apply Hall.
    rewrite Hk5, Hrl. lia.
Qed.
End window.

(** ** The recall *)

Section frozen.
Context {E : Env} (sram warm : Z -> Z) (d0 : reader) (fuel : nat) (m : Metadata) (offset count : Z).
Context (pop : history -> Z -> Z -> list Z + err) (id : Z) (k0 : sinkState).

(** A recall starts with nothing queued and Arm's cache closed. *)
Lemma recallFrozen_got c dst forward s n s' :
  pending s = [] -> armReady s = false ->
  posOk d0 -> servesSRAM sram warm (trace s) d0 -> env_PopBytes = Some pop ->
  8 <= Revision m -> 0 <= offset -> 0 <= count -> sinkId dst = id ->
  recallFrozen fuel c m offset count dst forward s = (Ret n, s') ->
  n = 4 * count /\ offset + count <= Length m <= Words /\
  got (sinkOf id k0 s') = got (sinkOf id k0 s) ++ windowBytes sram m offset count.
Proof.
  intros Hp Ha Hpos Hdev Hdma Hrev Ho Hc Hdst H. unfold recallFrozen in H.
  apply bind_Ret_inv in H as (u1 & s1 & H1 & H). apply guard_Ret_inv in H1 as [_ ->].
  apply bind_Ret_inv in H as (u2 & s2 & H2 & H). apply guard_Ret_inv in H2 as [_ ->].
  apply bind_Ret_inv in H as (u3 & s3 & H3 & H).
  assert (since (trace s) [] s3 /\ sinkOf id k0 s3 = sinkOf id k0 s) as [Hs3 Hk3].
  { injection H3 as _ <-. split; [|done]. split; [by intros ?|]. split; [done|].
    exists []. by rewrite app_nil_r. }
  apply finally_Ret_inv in H as (s6 & H & Hend).
  apply bind_Ret_inv in H as (u4 & s4 & H4 & H).
  assert ((exists w, since (trace s) w s4) /\ sinkOf id k0 s4 = sinkOf id k0 s3) as [[w Hs4] Hk4].
  { unfold envelopeOff in H4. apply bind_Ret_inv in H4 as (on & t1 & E1 & H4). injection E1 as _ <-.
    destruct on; [|apply mret_Ret_inv in H4 as [_ ->]; eauto].
    apply bind_Ret_inv in H4 as (v1 & t1 & E1 & H4). apply (sinkSame_Ret id k0) in E1 as Hk; [|bus_steps; apply _].
    eapply since_issues in E1; [|apply issues_write|bus_steps; apply _|exact Hs3].
    injection H4 as _ <-. split; [by eexists|]. apply Hk. }
  apply bind_Ret_inv in H as (u5 & s5 & H5 & H). apply guard_Ret_inv in H5 as [Hg ->].
  assert (offset + count <= Length m <= Words) as Hlen by blia.
  eapply recallTransfer_window in H as [-> Hgot]; [|done|done|done|done|unfold fits, Words in *; lia|done|exact Hs4].
  split; [done|]. split; [done|].
  assert (sinkOf id k0 s' = sinkOf id k0 s6) as Hk.
  { unfold recallEnd in Hend. apply bind_Ret_inv in Hend as (v1 & t1 & E1 & Hend).
    apply (sinkSame_Ret id k0) in Hend as [Hk _]; [|bus_steps; apply _]. rewrite Hk. by injection E1 as _ <-. }
  unfold sinkOf in *. rewrite Hk, Hgot, Hk4, Hk3. done.
Qed.

(** Only a window within the record, and within the memory, is read. *)
Lemma recallFrozen_length c dst forward s n s' :
  recallFrozen fuel c m offset count dst forward s = (Ret n, s') -> offset + count <= Length m <= Words.
Proof using.
  intros H. unfold recallFrozen in H.
  apply bind_Ret_inv in H as (u1 & s1 & _ & H). apply bind_Ret_inv in H as (u2 & s2 & _ & H).
  apply bind_Ret_inv in H as (u3 & s3 & _ & H). apply finally_Ret_inv in H as (s6 & H & _).
  apply bind_Ret_inv in H as (u4 & s4 & _ & H). apply bind_Ret_inv in H as (u5 & s5 & H5 & _).
  apply guard_Ret_inv in H5 as [Hg _]. blia.
Qed.

End frozen.
