(* ===== verification/Verify.v ===== *)
(** * The startup counter check

    VerifyCounter (src/app/internal/sramcapture/verify.go): a whole record of
    the counter source, recalled into a sink that checks every word. A check
    that passes means the SRAM itself holds the counter. *)
From S2P Require Import Prelude Machine Fabric Bus BusSteps Command TrigPacket TrigSerial TrigQualify TrigSymbol.
From S2P Require Import Status Open Arm ArmRun RecallSpans Recall RecallSteps Sinks RecallDevice RecallWindow.

(** ** The checking sink *)

(** Word by word, without the two-word fast path. *)
Definition counterReference (next : Z) (b : list Z) : (Z * option err) * Z :=
  if negb (Z.of_nat (length b) mod 4 =? 0) then
    ((0, Some (EMsg "sramcapture: unaligned startup counter" [])), next)
  else counterWords (length b) b 0 next.

(** A 64-bit compare is two 32-bit ones. *)
Lemma leVal_pair b i a c :
  isBytes b -> (i + 8 <= length b)%nat -> fits 32 a -> fits 32 c ->
  (leVal (slice i 8 b) =? a .| (c .<< 32)) =
  (leVal (slice i 4 b) =? a) && (leVal (slice (i + 4) 4 b) =? c).
Proof.
  intros Hb Hi Ha Hc. change 8%nat with (4 + 4)%nat. rewrite slice_app, leVal_app, length_slice by lia.
  rewrite lor_shl_add by (done || lia). change (2 ^ (8 * Z.of_nat 4)) with (2 ^ 32).
  pose proof (leVal_bound (slice i 4 b) (isBytes_slice i 4 b Hb)) as Hlo.
  rewrite length_slice in Hlo by lia. change (8 * Z.of_nat 4) with 32 in Hlo. unfold fits in *.
  apply eq_bool_prop_intro. rewrite andb_True, !Is_true_true, !Z.eqb_eq. nia.
Qed.

(** The word loop needs a turn a word. *)
Lemma counterWords_fuel n k b i next :
  (length b <= i + 4 * n)%nat -> (n <= k)%nat -> counterWords k b i next = counterWords n b i next.
Proof.
  revert k i next. induction n as [|n IH]; intros k i next Hi Hk.
  - destruct k; [done|]. cbn [counterWords]. by destruct (Nat.ltb_spec i (length b)); [lia|].
  - destruct k as [|k]; [lia|]. cbn [counterWords]. destruct (Nat.ltb_spec i (length b)); [|done].
    destruct (negb _); [done|]. apply IH; lia.
Qed.

(** The fast path only skips words the word loop accepts. *)
Lemma counterPairs_words n b i next i' next' :
  isBytes b -> fits 32 next -> (length b mod 4 = 0)%nat ->
  counterPairs n b i next = (i', next') ->
  (i <= length b -> i' <= length b)%nat /\
  counterWords (length b) b i' next' = counterWords (length b) b i next.
Proof.
  intros Hb Hn Hl. revert i next Hn. induction n as [|n IH]; intros i next Hn H; cbn [counterPairs] in H.
  { by injection H as <- <-. }
  destruct (Nat.leb_spec (i + 8) (length b)) as [Hi|Hi]; [|by injection H as <- <-]. simpl in H.
  rewrite leVal_pair in H by (done || apply fits_u32).
  destruct (Z.eqb_spec (leVal (slice i 4 b)) next) as [H1|]; [|by injection H as <- <-].
  destruct (Z.eqb_spec (leVal (slice (i + 4) 4 b)) (u32 (next + 1))) as [H2|]; [|by injection H as <- <-].
  simpl in H. apply IH in H as [Hle H]; [|apply fits_u32]. split; [lia|]. rewrite H.
  assert (exists k, length b = S (S k)) as [k Hk].
  { destruct (length b) as [|[|k]] eqn:E; [lia|lia|by exists k]. }
  transitivity (counterWords k b (i + 8) (u32 (next + 2))); [apply counterWords_fuel; lia|].
  rewrite Hk. cbn [counterWords]. rewrite Hk in Hi. destruct (Nat.ltb_spec i (length b)); [|lia].
  rewrite H1, Z.eqb_refl. simpl. destruct (Nat.ltb_spec (i + 4) (length b)); [|lia].
  rewrite H2, Z.eqb_refl. simpl. f_equal; [lia|]. unfold u32. rewrite Zplus_mod_idemp_l. f_equal. lia.
Qed.

Lemma counterWrite_words next b :
  isBytes b -> fits 32 next -> counterWrite next b = counterReference next b.
Proof.
  intros Hb Hn. unfold counterWrite, counterReference. destruct (Z.eqb_spec (Z.of_nat (length b) mod 4) 0) as [Hl|]; [|done].
  simpl. destruct (counterPairs (length b) b 0 next) as [i next'] eqn:H.
  assert (length b mod 4 = 0)%nat by (change 4 with (Z.of_nat 4) in Hl; rewrite <- Nat2Z.inj_mod in Hl; lia).
  by apply counterPairs_words in H as [_ ->].
Qed.

(** The words a counter produces from [next] on. *)
Definition counterWordsFrom (next : Z) (j : nat) : list Z := map u32 (seqZ next (Z.of_nat j)).

Lemma counterWordsFrom_app next j k :
  counterWordsFrom next (j + k) = counterWordsFrom next j ++ counterWordsFrom (next + Z.of_nat j) k.
Proof. unfold counterWordsFrom. rewrite Nat2Z.inj_add, seqZ_app by lia. by rewrite map_app. Qed.
Lemma counterWordsFrom_S next j : counterWordsFrom next (S j) = u32 next :: counterWordsFrom (next + 1) j.
Proof.
  change (S j) with (1 + j)%nat. rewrite counterWordsFrom_app. done.
Qed.
Lemma counterWordsFrom_u32 next j : counterWordsFrom (u32 next) j = counterWordsFrom next j.
Proof.
  unfold counterWordsFrom. apply list_eq. intros i. rewrite !list_lookup_fmap.
  destruct (decide (i < j)%nat).
  - rewrite !lookup_seqZ_lt by lia. simpl. f_equal. unfold u32. by rewrite Zplus_mod_idemp_l.
  - rewrite !lookup_seqZ_ge by lia. done.
Qed.

(** A stretch of a write from [i] to [i'] that the sink counts from [next] to
    [next']: whole words, and consecutive ones. *)
Definition stretch (b : list Z) (i : nat) (next : Z) (i' : nat) (next' : Z) : Prop :=
  (i' <= length b)%nat /\
  exists j, i' = (i + 4 * j)%nat /\ next' = u32 (next + Z.of_nat j) /\
    (isBytes (slice i (4 * j) b) -> slice i (4 * j) b = wordBytes (counterWordsFrom next j)).

Lemma stretch_nil b i next : (i <= length b)%nat -> fits 32 next -> stretch b i next i next.
Proof. intros Hi Hn. split; [done|]. exists 0%nat. rewrite Z.add_0_r, u32_fits by done. by split_and!; [lia|..]. Qed.
Lemma stretch_trans b i1 n1 i2 n2 i3 n3 :
  stretch b i1 n1 i2 n2 -> stretch b i2 n2 i3 n3 -> stretch b i1 n1 i3 n3.
Proof.
  intros [_ (j & -> & -> & H1)] [H3 (k & -> & -> & H2)]. split; [done|]. exists (j + k)%nat. split_and!.
  - lia.
  - unfold u32. rewrite Zplus_mod_idemp_l. f_equal. lia.
  - replace (4 * (j + k))%nat with (4 * j + 4 * k)%nat by lia. rewrite slice_app. intros [B1 B2]%Forall_app.
    rewrite H1, H2 by done. by rewrite counterWordsFrom_u32, counterWordsFrom_app, wordBytes_app.
Qed.
(** One word that matches. *)
Lemma stretch_word b i next :
  (i + 4 <= length b)%nat -> (isBytes (slice i 4 b) -> leVal (slice i 4 b) = next) -> fits 32 next ->
  stretch b i next (i + 4) (u32 (next + 1)).
Proof.
  intros Hi Hv Hn. split; [done|]. exists 1%nat. split_and!; [lia|done|]. change (4 * 1)%nat with 4%nat. intros Hb.
  change (wordBytes (counterWordsFrom next 1)) with (leBytes 4 (u32 (0 + next)) ++ []).
  rewrite app_nil_r, Z.add_0_l, u32_fits, <- (Hv Hb) by done.
  rewrite <- (length_slice i 4 b Hi) at 2. symmetry. by apply leBytes_leVal.
Qed.

Lemma leVal_pair_inv b i a c :
  (i + 8 <= length b)%nat -> fits 32 a -> fits 32 c -> leVal (slice i 8 b) = a .| (c .<< 32) ->
  isBytes (slice i 8 b) -> leVal (slice i 4 b) = a /\ leVal (slice (i + 4) 4 b) = c.
Proof.
  intros Hi Ha Hc H Hb. change 8%nat with (4 + 4)%nat in H, Hb. rewrite slice_app in H, Hb.
  apply Forall_app in Hb as [Hlo Hhi]. rewrite leVal_app, length_slice, lor_shl_add in H by (done || lia).
  change (2 ^ (8 * Z.of_nat 4)) with (2 ^ 32) in H. apply leVal_bound in Hlo.
  rewrite length_slice in Hlo by lia. change (8 * Z.of_nat 4) with 32 in Hlo. unfold fits in *. nia.
Qed.

Lemma counterPairs_stretch n b i next i' next' :
  fits 32 next -> (i <= length b)%nat -> counterPairs n b i next = (i', next') ->
  stretch b i next i' next' /\ fits 32 next'.
Proof.
  revert i next. induction n as [|n IH]; intros i next Hn Hi H; cbn [counterPairs] in H.
  { injection H as <- <-. split; [by apply stretch_nil|done]. }
  destruct (Nat.leb_spec (i + 8) (length b)) as [H8|H8]; simpl in H.
  2: { injection H as <- <-. split; [by apply stretch_nil|done]. }
  destruct (Z.eqb_spec (leVal (slice i 8 b)) (next .| (u32 (next + 1) .<< 32))) as [Hv|].
  2: { injection H as <- <-. split; [by apply stretch_nil|done]. }
  apply IH in H as [H Hf]; [|apply fits_u32|done]. split; [|done].
  pose proof (leVal_pair_inv b i next (u32 (next + 1)) H8 Hn (fits_u32 _) Hv) as Hp.
  eapply stretch_trans; [|exact H]. split; [done|]. exists 2%nat. split_and!; [lia|done|]. change (4 * 2)%nat with 8%nat.
  intros Hb. destruct (Hp Hb) as [H1 H2]. change 8%nat with (4 + 4)%nat in Hb. rewrite slice_app in Hb.
  apply Forall_app in Hb as [B1 B2]. change 8%nat with (4 + 4)%nat. rewrite slice_app.
  destruct (stretch_word b i next) as [_ (j1 & E1 & _ & S1)]; [lia|done|done|].
  destruct (stretch_word b (i + 4) (u32 (next + 1))) as [_ (j2 & E2 & _ & S2)]; [lia|done|apply fits_u32|].
  assert (j1 = 1%nat) as -> by lia. assert (j2 = 1%nat) as -> by lia. change (4 * 1)%nat with 4%nat in S1, S2.
  rewrite S1, S2 by done. change 2%nat with (1 + 1)%nat. rewrite counterWordsFrom_app, wordBytes_app.
  by rewrite counterWordsFrom_u32.
Qed.

(** The word loop, all of the write without an error. *)
Lemma counterWords_stretch n b i next k e next' :
  fits 32 next -> (i <= length b)%nat -> ((length b - i) mod 4 = 0)%nat -> (length b <= i + 4 * n)%nat ->
  counterWords n b i next = ((k, e), next') ->
  exists i', k = Z.of_nat i' /\ stretch b i next i' next' /\ fits 32 next' /\ (e = None -> i' = length b).
Proof.
  revert i next. induction n as [|n IH]; intros i next Hn Hi Hm Hf H.
  - injection H as <- <- <-. exists (length b). replace (length b) with i by lia.
    split_and!; [done|by apply stretch_nil; [lia|]|done|done].
  - cbn [counterWords] in H. destruct (Nat.ltb_spec i (length b)) as [Hlt|Hge].
    2: { injection H as <- <- <-. exists (length b). replace (length b) with i by lia.
         split_and!; [done|by apply stretch_nil; [lia|]|done|done]. }
    assert (4 <= length b - i)%nat as H4 by (pose proof (Nat.div_mod_eq (length b - i) 4); lia).
    destruct (Z.eqb_spec (leVal (slice i 4 b)) next) as [Hv|]; simpl in H.
    + apply IH in H as (i' & -> & Hs & Hf' & He); [|apply fits_u32|lia| |lia].
      2: { replace (length b - i)%nat with (length b - (i + 4) + 1 * 4)%nat in Hm by lia.
           by rewrite Nat.Div0.mod_add in Hm. }
      exists i'. split_and!; [done| |done|done]. eapply stretch_trans; [|exact Hs]. apply stretch_word; [lia|done|done].
    + injection H as <- <- <-. exists i. split_and!; [done|by apply stretch_nil|done|done].
Qed.

Lemma counterWrite_stretch next b k e next' :
  fits 32 next -> counterWrite next b = ((k, e), next') ->
  exists i, k = Z.of_nat i /\ stretch b 0 next i next' /\ fits 32 next' /\ (e = None -> i = length b).
Proof.
  intros Hn H. unfold counterWrite in H.
  destruct (Z.eqb_spec (Z.of_nat (length b) mod 4) 0) as [Hl|]; simpl in H.
  2: { injection H as <- <- <-. exists 0%nat. split_and!; [done|apply stretch_nil; [lia|done]|done|done]. }
  assert (length b mod 4 = 0)%nat as Hl' by (change 4 with (Z.of_nat 4) in Hl; rewrite <- Nat2Z.inj_mod in Hl; lia).
  destruct (counterPairs (length b) b 0 next) as [i n1] eqn:Hp.
  apply counterPairs_stretch in Hp as [Hs Hn1]; [|done|lia].
  apply counterWords_stretch in H as (i' & -> & Hs' & Hf & He); [|done|apply Hs| |].
  - exists i'. split_and!; [done|by eapply stretch_trans|done|done].
  - destruct Hs as [Hle (j & -> & _ & _)]. rewrite Nat.add_0_l in *.
    replace (length b) with (length b - 4 * j + j * 4)%nat in Hl' by lia. by rewrite Nat.Div0.mod_add in Hl'.
  - destruct Hs as [_ (j & -> & _ & _)]. lia.
Qed.

Lemma counterWords_complete n pre next j :
  fits 32 next -> (j <= n)%nat -> (length pre mod 4 = 0)%nat ->
  counterWords n (pre ++ wordBytes (counterWordsFrom next j)) (length pre) next =
  ((Z.of_nat (length (pre ++ wordBytes (counterWordsFrom next j))), None), u32 (next + Z.of_nat j)).
Proof.
  revert pre next j. induction n as [|n IH]; intros pre next j Hn Hj Hp.
  - replace j with 0%nat by lia. simpl. by rewrite Z.add_0_r, u32_fits.
  - destruct j as [|j]; cbn [counterWords].
    + rewrite app_nil_r, Nat.ltb_irrefl, Z.add_0_r. by rewrite u32_fits.
    + rewrite counterWordsFrom_S. change (wordBytes (?x :: ?l)) with (leBytes 4 x ++ wordBytes l).
      rewrite app_assoc. set (rest := wordBytes _).
      destruct (Nat.ltb_spec (length pre) (length ((pre ++ leBytes 4 (u32 next)) ++ rest))) as [_|H].
      2: { rewrite !length_app, length_leBytes in H. lia. }
      replace (slice (length pre) 4 ((pre ++ leBytes 4 (u32 next)) ++ rest)) with (leBytes 4 (u32 next)).
      2: { unfold slice. by rewrite <- app_assoc, drop_app_length, take_app_length' by by rewrite length_leBytes. }
      rewrite leVal_leBytes, u32_fits, Z.eqb_refl by (done || apply fits_u32). simpl.
      replace (length pre + 4)%nat with (length (pre ++ leBytes 4 next)) by by rewrite length_app, length_leBytes.
      unfold rest. rewrite <- (counterWordsFrom_u32 (next + 1)). rewrite IH; [|apply fits_u32|lia|].
      * f_equal. unfold u32. rewrite Zplus_mod_idemp_l. f_equal. lia.
      * rewrite length_app, length_leBytes. replace (length pre + 4)%nat with (length pre + 1 * 4)%nat by lia.
        by rewrite Nat.Div0.mod_add.
Qed.

Lemma length_counterWordsFrom next j : length (counterWordsFrom next j) = j.
Proof. unfold counterWordsFrom. rewrite length_map, length_seqZ. lia. Qed.

(** the startup sink's fast path, two words at a time, never changes its
    answer: it accepts, counts and rejects exactly as the word-by-word check. *)
Theorem counterWrite_reference next b :
  isBytes b -> fits 32 next -> counterWrite next b = counterReference next b.
Proof. apply counterWrite_words. Qed.

(** the startup sink takes a write exactly when its bytes are the next
    consecutive counter words (wrapping at 32 bits), and then expects the word
    after them. *)
Theorem counterWrite_exact next b next' :
  isBytes b -> fits 32 next ->
  counterWrite next b = ((Z.of_nat (length b), None), next') <->
  exists j, b = wordBytes (counterWordsFrom next j) /\ next' = u32 (next + Z.of_nat j).
Proof.
  intros Hb Hn. split.
  - intros H. apply counterWrite_stretch in H as (i & Hi & [_ (j & -> & -> & Hs)] & _ & _); [|done].
    exists j. split; [|done]. assert (length b = 4 * j)%nat as Hl by lia. rewrite <- Hl in Hs.
    unfold slice in Hs. rewrite drop_0, firstn_all in Hs. by apply Hs.
  - intros (j & -> & ->). rewrite counterWrite_words by done. unfold counterReference.
    rewrite length_wordBytes, length_counterWordsFrom.
    replace (Z.of_nat (4 * j) mod 4) with 0 by (symmetry; apply Z.mod_divide; [done|exists (Z.of_nat j); lia]).
    simpl negb. cbn iota. pose proof (counterWords_complete (4 * j) [] next j Hn) as H. simpl app in H.
    rewrite length_wordBytes, length_counterWordsFrom in H. apply H; [lia|done].
Qed.

(** ** VerifyCounter *)

Definition zeroWindow : Zone.ZoneWindow :=
  {| Zone.Enabled := false; Zone.Channel := 0; Zone.Lo := 0; Zone.Hi := 0; Zone.Start := 0; Zone.End_ := 0;
     Zone.Avoid := false |}.
(** [Config{}] *)
Definition zeroConfig : Config :=
  {| Qualifier := {| Qualifier.Enabled := false; Qualifier.Kind := 0; Qualifier.Channel := 0;
       Qualifier.Negative := false; Qualifier.Cond := 0; Qualifier.MinTicks := 0; Qualifier.MaxTicks := 0;
       Qualifier.Prescale := 0; Qualifier.LevelA := 0; Qualifier.LevelB := 0; Qualifier.Line := 0 |};
     Zones := {| Zone.Zones := replicate 4 zeroWindow; Zone.Wait := 0; Zone.Bucket := 0 |};
     Symbol := {| Symbol.Enabled := false; Symbol.Channel := 0; Symbol.InvA := false; Symbol.InvB := false;
       Symbol.AndAB := false; Symbol.ClockFall := false; Symbol.TwoLines := false; Symbol.Mode := 0;
       Symbol.LeadLen := 0; Symbol.Prescale := 0; Symbol.UnitQ8 := 0; Symbol.FrameUnits := 0; Symbol.Period := 0;
       Symbol.Phase0 := 0; Symbol.K := 0; Symbol.Pattern := 0; Symbol.Mask := 0;
       Symbol.Table := replicate (Z.to_nat 2048) 0 |};
     Sequence := {| Sequence.Length := 0; Sequence.Qualify := false; Sequence.EndBadValue := false;
       Sequence.Elements := replicate (Z.to_nat Sequence.SequenceMax)
         {| Sequence.Kind := 0; Sequence.Value := 0; Sequence.Mask := 0 |} |};
     Packet := {| Packet.Enabled := false; Packet.Protocol := 0; Packet.Channel := 0; Packet.Inverted := false;
       Packet.Ticks := 0; Packet.Aux := 0; Packet.Pattern := 0; Packet.Length := 0 |};
     Manchester := {| Manchester.Enabled := false; Manchester.Channel := 0; Manchester.Inverted := false;
       Manchester.IEEE := false; Manchester.MSB := false; Manchester.Bits := 0; Manchester.BitTicks := 0;
       Manchester.Pattern := 0; Manchester.Length := 0 |};
     USBLS := {| USBLS.Enabled := false; USBLS.Channel := 0; USBLS.Inverted := false; USBLS.BitTicksQ8 := 0;
       USBLS.Pattern := 0; USBLS.Length := 0 |};
     MIL1553 := {| MIL1553.Enabled := false; MIL1553.Channel := 0; MIL1553.Inverted := false;
       MIL1553.BitTicks := 0; MIL1553.Pattern := 0; MIL1553.MatchAny := false |};
     SENT := {| SENT.Enabled := false; SENT.Channel := 0; SENT.Inverted := false; SENT.PausePulse := false;
       SENT.TickTicks := 0; SENT.Nibbles := 0; SENT.Pattern := 0; SENT.Length := 0 |};
     DecodedEvents := false;
     SPI := {| SPI.Enabled := false; SPI.ClockChannel := 0; SPI.Inverted := false; SPI.CPOL := false;
       SPI.CPHA := false; SPI.MSB := false; SPI.GapTicks := 0; SPI.Pattern := 0; SPI.Length := 0; SPI.Delay := 0 |};
     I2C := {| I2C.Enabled := false; I2C.ClockChannel := 0; I2C.Inverted := false; I2C.Address := 0;
       I2C.Direction := 0; I2C.Pattern := 0; I2C.Length := 0; I2C.Samples := false; I2C.Delay := 0 |};
     UART := {| UART.Enabled := false; UART.Channel := 0; UART.Inverted := false; UART.BitTicks := 0;
       UART.Pattern := 0; UART.Length := 0; UART.Period16 := 0; UART.Bits := 0; UART.Parity := 0;
       UART.Resync := false |};
     Source := 0; DecimationLog2 := 0; Pick := false; Pair := 0; PreWords := 0; PostWords := 0; Normal := false;
     Falling := false; TriggerChannel := 0; TriggerLevel := 0; TriggerHysteresis := 0; SecondLevel := 0;
     SliceLines := false |}.
(** [c] with a source and a geometry. *)
Definition recordOf (source pre post : Z) (cfg : Config) : Config :=
  {| Qualifier := Qualifier cfg; Zones := Zones cfg; Symbol := Symbol cfg; Sequence := Sequence cfg;
     Packet := Packet cfg; Manchester := Manchester cfg; USBLS := USBLS cfg; MIL1553 := MIL1553 cfg;
     SENT := SENT cfg; DecodedEvents := DecodedEvents cfg; SPI := SPI cfg; I2C := I2C cfg; UART := UART cfg;
     Source := source; DecimationLog2 := DecimationLog2 cfg; Pick := Pick cfg; Pair := Pair cfg;
     PreWords := pre; PostWords := post; Normal := Normal cfg; Falling := Falling cfg;
     TriggerChannel := TriggerChannel cfg; TriggerLevel := TriggerLevel cfg;
     TriggerHysteresis := TriggerHysteresis cfg; SecondLevel := SecondLevel cfg; SliceLines := SliceLines cfg |}.
Definition counterConfig : Config := recordOf Counter (Words - 17) 17 zeroConfig.

Section verify.
Context {E : Env} (fuel : nat).

(** A leftover acquisition is halted first; a status error is not an error here. *)
Definition haltLeftover (c : ctx) : M unit :=
  r ← attempt Status;
  match r with
  | inl m =>
      if Running m || negb (Ready m) then
        r ← attempt (Halt fuel c);
        match r with
        | inl _ => mret tt
        | inr e => fail (EWrap "sramcapture: halting a leftover acquisition: %w" [] e)
        end
      else mret tt
  | inr _ => mret tt
  end.

Definition VerifyCounter (c : ctx) : M unit :=
  haltLeftover c;;
  Arm fuel c counterConfig;;
  WaitFrozen fuel c;;
  modify (set_counterNext 0);;
  m ← Status;
  n ← (if Revision m =? 10 then RecallForward fuel c 0 Words SCounter else Recall fuel c 0 Words SCounter);
  next ← gets counterNext;
  guard (negb (n =? Bytes) || negb (next =? Words))
    (EMsg "sramcapture: short startup counter: %d bytes, %d words" [n; next]).
End verify.

(** ** What the check's sink has seen *)

Section counted.
Context {E : Env} (k0 : sinkState).
Local Abbreviation sinkOf := (sinkOf (-1) k0).

(** The bytes accepted since [s], consecutive words from its counterNext on. *)
Definition counted (s s' : capture) : Prop :=
  fits 32 (counterNext s) ->
  fits 32 (counterNext s') /\
  exists data, got (sinkOf s') = got (sinkOf s) ++ data /\
    (isBytes data -> exists j, data = wordBytes (counterWordsFrom (counterNext s) j) /\
       counterNext s' = u32 (counterNext s + Z.of_nat j)).

Lemma counted_same s s' :
  counterNext s' = counterNext s -> got (sinkOf s') = got (sinkOf s) -> counted s s'.
Proof.
  intros Hn Hg Hf. rewrite Hn. split; [done|]. exists []. rewrite app_nil_r. split; [done|]. intros _.
  exists 0%nat. by rewrite Z.add_0_r, u32_fits.
Qed.
#[global] Instance counted_busStep : BusStep counted.
Proof.
  split; [split; [by intros s; apply counted_same|]|..].
  - intros s1 s2 s3 H1 H2 Hf. destruct (H1 Hf) as (Hf2 & d1 & E1 & C1). destruct (H2 Hf2) as (Hf3 & d2 & E2 & C2).
    split; [done|]. exists (d1 ++ d2). rewrite E2, E1, app_assoc. split; [done|]. intros [B1 B2]%Forall_app.
    destruct (C1 B1) as (j1 & -> & N1). destruct (C2 B2) as (j2 & -> & N2). exists (j1 + j2)%nat. split.
    + by rewrite N1, counterWordsFrom_u32, counterWordsFrom_app, wordBytes_app.
    + rewrite N2, N1. unfold u32. rewrite Zplus_mod_idemp_l. f_equal. lia.
  - intros e s He. apply counted_same; [done|]. unfold Sinks.sinkOf. cbn [trace set_trace].
    rewrite sinkRun_app. f_equal. by apply sinkStep_bus.
  - intros l s _. by apply counted_same.
  - intros n s. by apply counted_same.
Qed.

Lemma counted_write data : steps counted (writeAll SCounter data).
Proof.
  unfold writeAll. apply steps_bind; [apply _| |intros [n [e|]]; simpl; steps_tac].
  intros s Hf. unfold sinkWrite, mbind, SE_bind, gets, modify, emit.
  destruct (counterWrite (counterNext s) data) as [[k e] next'] eqn:Hw. simpl.
  apply counterWrite_stretch in Hw as (i & -> & [Hle (j & -> & -> & Hs)] & Hf' & _); [|done].
  split; [done|]. rewrite Nat.add_0_l in *. exists (take (4 * j) data). split.
  - unfold Sinks.sinkOf. simpl. rewrite sinkRun_app. simpl. by rewrite Nat2Z.id.
  - intros Hb. exists j. split; [|done]. unfold slice in Hs. rewrite drop_0 in Hs. by apply Hs.
Qed.

Lemma counted_deliver forward sp data : steps counted (deliver forward None SCounter sp data).
Proof.
  unfold deliver. destruct forward; [|apply counted_write]. steps_tac. intros s. by apply counted_same.
Qed.

Lemma counted_loop fuel c m offset prefix physical forward i total spans written :
  steps counted (recallLoop fuel c m offset prefix physical forward None SCounter i total spans written).
Proof.
  revert i written. induction spans as [|sp spans IH]; intros i written; cbn [recallLoop]; [steps_tac|].
  assert (forall p, steps counted (burst fuel c m offset prefix p forward None sp)) as Hb.
  { intros p. unfold burst, burstData, popBurst, seek. bus_steps; try apply _.
    generalize 0. induction (Z.to_nat (spanCount sp)) as [|n IHn]; intros k; cbn [wordData]; bus_steps; apply _. }
  pose proof counted_deliver. bus_steps; apply _.
Qed.

Lemma counted_recall fuel c m offset count forward : steps counted (recallFrozen fuel c m offset count SCounter forward).
Proof.
  assert (forall f, (forall s, counterNext (f s) = counterNext s /\ trace (f s) = trace s) -> steps counted (modify f)) as Hm.
  { intros f Hf s. destruct (Hf s) as [H1 H2]. apply counted_same; [done|]. unfold Sinks.sinkOf. simpl. by rewrite H2. }
  pose proof counted_loop as Hl. pose proof counted_write as Hw.
  unfold recallFrozen, recallTransfer, roomFor, recallEnd, envelopeOff, prepareScratch, readBuffer.
  cbn match. bus_steps; try (apply Hm; intros ?; by split); apply _.
Qed.
End counted.

(** ** What a passed check means *)

#[global] Instance grows_busStep : BusStep grows.
Proof.
  split; [apply _|..].
  - intros e s _. by exists [e].
  - intros l s _. exists []. by rewrite app_nil_r.
  - intros n s. exists []. by rewrite app_nil_r.
Qed.

#[export] Instance grows_recallStep : RecallStep grows.
Proof. split; [apply _|intros e s; by exists [e]|..]; intros; exists []; by rewrite app_nil_r. Qed.

Section grows.
Context {E : Env}.
Lemma grows_recall fuel c m offset count dst forward : steps grows (recallFrozen fuel c m offset count dst forward).
Proof.
  pose proof (steps_envelopeOff grows). pose proof (steps_recallTransfer grows fuel).
  assert (forall b, steps grows (modify (set_queueWrites b))) by (intros b s; by exists []; rewrite app_nil_r).
  unfold recallFrozen, recallEnd. bus_steps; apply _.
Qed.
Lemma status_counter s m s' : status s = (Ret m, s') -> counterNext s' = counterNext s.
Proof.
  intros H. assert (steps (fun a b => counterNext b = counterNext a) status) as Hc; [|specialize (Hc s); by rewrite H in Hc].
  assert (BusStep (fun a b => counterNext b = counterNext a)).
  { split; [split; [done|by intros ??? -> ->]|done..]. }
  unfold status, statusIdentity, statusRate, statusFormat, sampleTimeline. bus_steps; apply _.
Qed.

(** A recall without a bus worker is recallFrozen on the record just read. *)
Lemma recallChecked_Ret fuel c offset count dst forward s n s' :
  env_RecallIsolated = None -> open s -> recallChecked fuel c offset count dst forward None s = (Ret n, s') ->
  exists m s0 s1, status s0 = (Ret m, s1) /\ open s1 /\ trace s0 = trace s /\ counterNext s1 = counterNext s /\
    recallFrozen fuel c m offset count dst forward s1 = (Ret n, s').
Proof.
  intros Hi Hs H. unfold recallChecked in H. apply bind_Ret_inv in H as (u1 & s0 & H1 & H).
  assert (s0 = s) as ->.
  { unfold checkCtx in H1. apply bind_Ret_inv in H1 as (e & t & E1 & H1). injection E1 as _ <-.
    by apply liftErr_Ret_inv in H1 as [_ ->]. }
  apply bind_Ret_inv in H as (m & s1 & H2 & H). apply bind_Ret_inv in H as (u3 & s2 & H3 & H).
  apply guard_Ret_inv in H3 as [_ ->]. apply bind_Ret_inv in H as (owned & s2 & H4 & H).
  assert (owned = false /\ s2 = s1) as [-> ->].
  { destruct (_ && _) in H4; [unfold recallIsolated in H4; rewrite Hi in H4|]; by apply mret_Ret_inv in H4. }
  exists m, s, s1. split; [done|]. pose proof (status_open s Hs) as Ho. rewrite H2 in Ho. split; [exact Ho|].
  split; [done|]. split; [|done]. by apply status_counter in H2.
Qed.
End grows.

Section memory.
Context {E : Env} (fuel : nat).

Lemma wordBytes_inj l l' :
  Forall (fits 32) l -> Forall (fits 32) l' -> wordBytes l = wordBytes l' -> l = l'.
Proof.
  intros H. revert l'. induction H as [|x l Hx Hl IH]; intros l' H' He; destruct H' as [|y l' Hy Hl']; try done.
  change (leBytes 4 x ++ wordBytes l = leBytes 4 y ++ wordBytes l') in He.
  apply app_inj_1 in He as [He Ht]; [|by rewrite !length_leBytes].
  f_equal; [|by apply IH]. by rewrite <- (leVal_leBytes 4 x), <- (leVal_leBytes 4 y), He.
Qed.

(** Words that read as the counter's are the counter's. *)
Lemma counter_window sram m count j :
  0 <= count < 2 ^ 32 -> (forall x, fits 32 (sram x)) ->
  windowBytes sram m 0 count = wordBytes (counterWordsFrom 0 j) ->
  forall i, 0 <= i < count -> sram ((Origin m + Start m + i) mod Words) = i.
Proof.
  intros Hc Hfit Hw i Hi. unfold windowBytes in Hw. rewrite Z.add_0_r in Hw.
  apply wordBytes_inj in Hw; [|apply Forall_forall; intros x Hx; apply list_elem_of_fmap in Hx as (? & -> & _)..].
  2: { apply Hfit. }
  2: { apply fits_u32. }
  assert (j = Z.to_nat count) as ->.
  { apply (f_equal length) in Hw. rewrite length_counterWordsFrom, length_map, length_seqZ in Hw. lia. }
  assert (map (fun i => sram ((Origin m + Start m + i) mod Words)) (seqZ 0 count) !! Z.to_nat i = Some i) as Hlk.
  { rewrite Hw. unfold counterWordsFrom. rewrite list_lookup_fmap, lookup_seqZ_lt by lia. simpl. f_equal.
    rewrite u32_fits; [lia|]. unfold fits in *. lia. }
  rewrite list_lookup_fmap, lookup_seqZ_lt in Hlk by lia. apply (inj Some) in Hlk.
  rewrite Z2Nat.id in Hlk by lia. exact Hlk.
Qed.

Section recall.
Context (sram warm : Z -> Z) (d0 : reader) (pop : history -> Z -> Z -> list Z + err).

Lemma counterRecall_words c m count fw s n s' :
  open s -> env_PopBytes = Some pop -> counterNext s = 0 -> 8 <= Revision m -> posOk d0 ->
  servesSRAM sram warm (trace s) d0 -> (forall x, fits 32 (sram x)) -> 0 <= count ->
  recallFrozen fuel c m 0 count SCounter fw s = (Ret n, s') ->
  n = 4 * count /\ forall i, 0 <= i < count -> sram ((Origin m + Start m + i) mod Words) = i.
Proof using.
  intros Ho Hdma Hn Hrev Hpos Hdev Hfit Hc Hr.
  assert (0 + count <= Length m <= Words) as Hlen by by eapply recallFrozen_length.
  pose proof (recallFrozen_got sram warm d0 fuel m 0 count pop (-1) (Sink [] [] []) c SCounter fw s n s') as Hgot.
  destruct Hgot as (-> & _ & Hgot); [apply Ho|apply Ho|done..|]. split; [done|]. intros i Hi.
  pose proof (counted_recall (Sink [] [] []) fuel c m 0 count fw s) as Hk. rewrite Hr in Hk. simpl in Hk.
  destruct Hk as (_ & data & Hd & Hj); [rewrite Hn; unfold fits; lia|].
  rewrite Hgot in Hd. apply app_inv_head in Hd. subst data.
  destruct Hj as (j & Hw & _); [apply isBytes_wordBytes|]. rewrite Hn in Hw.
  eapply counter_window; [|exact Hfit|exact Hw|exact Hi]. unfold Words in *. lia.
Qed.

(** C31: a recall the startup sink takes to its end has shown the memory: word
    i of the record is i, every one of the [count] words recalled, and the
    transfer was whole. A short transfer, a stuck bit or a swapped burst
    cannot pass. *)
Theorem counterRecall_memory c m count fw s n s' :
  open s -> env_PopBytes = Some pop -> counterNext s = 0 -> 8 <= Revision m -> posOk d0 ->
  servesSRAM sram warm (trace s) d0 -> (forall x, fits 32 (sram x)) -> 0 <= count ->
  recallFrozen fuel c m 0 count SCounter fw s = (Ret n, s') ->
  n = 4 * count /\ forall i, 0 <= i < count -> sram ((Origin m + Start m + i) mod Words) = i.
Proof using. apply counterRecall_words. Qed.
End recall.

(** A startup check that passes means the SRAM holds the counter: at some
    point of the run the fabric reported a whole record, and whatever memory
    the device reads from there on, word i of the record is i, all 2^19 of
    them. *)
Theorem VerifyCounter_memory c s s' pop :
  open s -> env_PopBytes = Some pop -> env_RecallIsolated = None ->
  VerifyCounter fuel c s = (Ret tt, s') ->
  exists m s0 s1 l,
    status s0 = (Ret m, s1) /\ trace s' = trace s1 ++ l /\ Length m = Words /\
    forall sram warm d0,
      8 <= Revision m -> posOk d0 -> servesSRAM sram warm (trace s1) d0 -> (forall x, fits 32 (sram x)) ->
      forall i, 0 <= i < Words -> sram ((Origin m + Start m + i) mod Words) = i.
Proof.
  intros Hs Hdma Hiso H. unfold VerifyCounter in H. apply bind_Ret_inv in H as (u1 & t1 & H1 & H).
  assert (open t1) as Ho1.
  { assert (steps keepsOpen (haltLeftover fuel c)) as Hk; [|specialize (Hk s Hs); by rewrite H1 in Hk].
    assert (steps keepsOpen Status) as Hst by (intros ? Hx; exact (status_open _ Hx)).
    unfold haltLeftover. bus_steps; apply _. }
  apply bind_Ret_inv in H as (u2 & t2 & H2 & H). apply Arm_open in H2 as [Ho2 _]; [|done|done].
  apply bind_Ret_inv in H as (u3 & t3 & H3 & H). pose proof (WaitFrozen_open fuel c t2 Ho2) as Ho3. rewrite H3 in Ho3.
  apply bind_Ret_inv in H as (u4 & t4 & H4 & H). assert (open t4) as Ho4 by (by injection H4 as _ <-).
  assert (counterNext t4 = 0) as Hn4 by (by injection H4 as _ <-).
  apply bind_Ret_inv in H as (m0 & t5 & H5 & H). pose proof (status_open t4 Ho4) as Ho5. unfold Status in H5. rewrite H5 in Ho5.
  apply bind_Ret_inv in H as (n & t6 & H6 & H). apply bind_Ret_inv in H as (next & t7 & H7 & H). injection H7 as <- <-.
  apply guard_Ret_inv in H as [Hg ->]. simpl in Ho5.
  assert (exists fw, recallChecked fuel c 0 Words SCounter fw None t5 = (Ret n, t6)) as [fw H6'].
  { destruct (_ =? _) in H6; eauto. }
  apply recallChecked_Ret in H6' as (m & s0 & s1 & Hst & Ho & _ & Hn & Hr); [|done..].
  rewrite (status_counter _ _ _ H5), Hn4 in Hn.
  pose proof (grows_recall fuel c m 0 Words SCounter fw s1) as [l Hl]. rewrite Hr in Hl. simpl in Hl.
  exists m, s0, s1, l. split; [done|]. split; [done|].
  assert (0 + Words <= Length m <= Words) as Hlen by by eapply recallFrozen_length.
  split; [lia|]. intros sram warm d0 Hrev Hpos Hdev Hfit i Hi.
  destruct (counterRecall_words sram warm d0 pop c m Words fw s1 n t6) as [_ Hall]; try done. by apply Hall.
Qed.
End memory.
