(* ===== verification/Stream.v ===== *)
(** * Streams

    Continuous acquisition: the drum's status, its pace, the drain of a bank,
    and the starts and the stop of a stream
    (src/app/internal/sramcapture/stream.go), the history ring
    (stream_ring.go) and the stream's edge marks (stream_marks.go).

    A block or a read returned beside an error is not modelled. *)
From S2P Require Import Prelude Machine Fabric Bus Command TrigPacket TrigSerial TrigQualify TrigSymbol.
From S2P Require Import Status Arm RecallSpans Recall.

Record StreamStatus := {
  Ready_ : Z; Tokens : Z; LastSingle : Z; Fault : bool; Finished : bool; Enabled_ : bool; BankOverrun : bool;
  InputOverrun : bool; ReadOverrun : bool; FIFOFull : bool; Backlog : bool
}.
Definition decodeStreamStatus (v : Z) : StreamStatus :=
  {| Ready_ := v .& 3; Tokens := (v .>> 2) .& 3; LastSingle := (v .>> 4) .& 3; Fault := has v 64;
     Finished := has v 128; Enabled_ := has v 256; BankOverrun := has v 512; InputOverrun := has v 1024;
     ReadOverrun := has v 2048; FIFOFull := has v 4096; Backlog := has v 8192 |}.

Record StreamBlock := { FirstWord : Z; Words_ : Z; Bank : Z }.
Record StreamPace := { PaceWords : Z; RampClocks : Z }.
Definition streamPaceCapability : Z := 0x5241.

Definition ErrNoStreamBlock : err := EMsg "sramcapture: no stream block ready" [].
Definition ErrStreamDisabled : err := EMsg "sramcapture: streaming is disabled" [].

Section stream.
Context {E : Env} (fuel : nat).

(** StreamStatus: the revision and the status in one batch. *)
Definition readStreamStatus : M StreamStatus :=
  v ← readMany [13; 32];
  guard (negb (at_ v 0 =? 11)) (EMsg "sramcapture: stream requires experimental revision 11" []);;
  mret (decodeStreamStatus (at_ v 1)).

Definition StreamBacklog : M bool := gets streamBacklog.

(** The buffers' words are not modelled: a drain overwrites all it uses. *)
Definition prepareStreamBuffers : M unit :=
  words ← read 26;
  guard (negb (words =? 4096) && negb (words =? 5120) && negb (words =? 8192))
    (EMsg "sramcapture: unknown stream buffer %d" [words]);;
  modify (fun s => set_streamCap (if streamCap s <? words then words else streamCap s) (set_streamWords words s)).

(** ** The drain of a bank *)

(** The ordinal of a bank's first word: four halfwords. *)
Definition bankFirst (bank : Z) : M Z :=
  let part k := read (u16 (35 + bank * 4 + k)) in
  p0 ← part 0;
  p1 ← part 1;
  p2 ← part 2;
  p3 ← part 3;
  mret (p0 .| (p1 .<< 16) .| (p2 .<< 32) .| (p3 .<< 48)).

(** The ready bank that starts at the expected word. *)
Fixpoint findBank (ready expected : Z) (banks : list Z) : M (option Z) :=
  match banks with
  | [] => mret None
  | bank :: banks =>
      if ready .& (1 .<< bank) =? 0 then findBank ready expected banks
      else
        first ← bankFirst bank;
        if first =? expected then mret (Some bank) else findBank ready expected banks
  end.

(** Whether the bank is no longer the one the drain started on. *)
Definition bankChanged (before : StreamStatus) (bank : Z) (st : StreamStatus) : bool :=
  let mask := 1 .<< bank in
  Fault st || negb (Enabled_ st) || (Ready_ st .& mask =? 0) ||
  negb (Z.lxor (Tokens st) (Tokens before) .& mask =? 0).

(** The bank's words: into the sink's reserved room, or to be written on. *)
Definition drainPop (reserved : option Z) (words : Z) : M (list Z) :=
  match env_PopBytes with
  | Some pop =>
      match reserved with
      | Some id =>
          h ← gets trace;
          let r := env_Reserve h id (4 * words) in
          emit (EvReserve id (4 * words) r);;
          ab ← lift r;
          a ← popBytesWith pop 25 ab.1;
          emit (EvReservedPut id a);;
          (if 0 <? ab.2 then
             b ← popBytesWith pop 25 ab.2;
             emit (EvReservedPut id b)
           else mret tt);;
          mret []
      | None => popBytesWith pop 25 (4 * words)
      end
  | None =>
      halves ← match env_PopWords with
               | Some pop => popWordsWith pop 25 (2 * words)
               | None => readN (Z.to_nat (2 * words)) 25
               end;
      mret (halfBytes halves)
  end.

(** A sink that reserves, where the bus pops bytes. *)
Definition reserverOf (dst : sink) : option Z :=
  match dst, env_PopBytes with
  | SExt id, Some _ => if env_SinkIsReserver id then Some id else None
  | _, _ => None
  end.

(** The bank's size, its words, and the pointer they start at. *)
Definition drainBlock (s : StreamStatus) (bank expected : Z) : M (StreamBlock * Z) :=
  prepared ← gets streamWords;
  (if prepared =? 0 then prepareStreamBuffers else mret tt);;
  count ← read (u16 (33 + bank));
  total ← gets streamWords;
  guard ((count =? 0) || (total / 4 <? count)) (EMsg "sramcapture: invalid stream packet count %d" [count]);;
  let words := u32 (count * 2 - ((LastSingle s .>> bank) .& 1)) in
  let base := u16 (bank * (total / 2)) in
  write 16 base;;
  read 17;;
  write 17 (u16 (base * 2));;
  size ← gets streamCap;
  (if size * 2 <? words * 4 then panic else mret tt);;
  mret ({| FirstWord := expected; Words_ := words; Bank := bank |}, base).

(** The pointer and the bank after the pop. *)
Definition drainCheck (s : StreamStatus) (block : StreamBlock) (base : Z) : M unit :=
  index ← read 27;
  total ← gets streamWords;
  guard (negb (index =? u32 (base * 2 + Words_ block * 2) mod (total * 2)))
    (EMsg "sramcapture: stream burst pointer %d" [index]);;
  raw ← read 32;
  if bankChanged s (Bank block) (decodeStreamStatus raw) then
    raw ← read 32;
    guard (bankChanged s (Bank block) (decodeStreamStatus raw))
      (EMsg "sramcapture: stream changed or faulted during DMA (bank %d of %d words; before %+v, after %+v)"
         [Bank block; Words_ block])
  else mret tt.

Definition releaseWord (s : StreamStatus) (bank : Z) : Z := bank .| (((Tokens s .>> bank) .& 1) .<< 1).

Definition DrainStream (c : ctx) (expected : Z) (dst : sink) : M StreamBlock :=
  checkCtx c;;
  rev ← read 13;
  guard (negb (rev =? 11)) (EMsg "sramcapture: stream requires experimental revision 11" []);;
  raw ← read 32;
  let s := decodeStreamStatus raw in
  modify (set_streamBacklog (Backlog s));;
  guard (Fault s) (EMsg "sramcapture: stream overrun or packetizer fault" []);;
  guard (negb (Enabled_ s)) ErrStreamDisabled;;
  guard (Ready_ s =? 0) ErrNoStreamBlock;;
  found ← findBank (Ready_ s) expected [0; 1];
  match found with
  | None => fail (EMsg "sramcapture: missing stream word %d" [expected])
  | Some bank =>
      bb ← drainBlock s bank expected;
      let block := bb.1 in
      data ← drainPop (reserverOf dst) (Words_ block);
      drainCheck s block bb.2;;
      checkCtx c;;
      match reserverOf dst with
      | Some id => emit (EvCommit id (4 * Words_ block))
      | None => writeAll dst data;; mret tt
      end;;
      write 20 (releaseWord s bank);;
      mret block
  end.

(** ** Starting and stopping *)

Definition setStreamPace (p : StreamPace) : M unit :=
  guard ((PaceWords p =? 1) || (1 .<< 19 <? PaceWords p))
    (EMsg "sramcapture: stream pace %d raw words, need 2..%d" [PaceWords p; 1 .<< 19]);;
  guard (RampClocks p =? 1) (EMsg "sramcapture: ramp pace %d clocks, need 2 or more" [RampClocks p]);;
  writeMany [(29, PaceWords p .& 0xffff); (30, u16 (PaceWords p .>> 16)); (46, RampClocks p)];;
  if (PaceWords p =? 0) && (RampClocks p =? 0) then mret tt
  else
    v ← readMany [65; 66; 67; 68];
    guard (negb (at_ v 0 =? streamPaceCapability)) (EMsg "sramcapture: this FPGA image streams at powers of two only" []);;
    let back := at_ v 1 .| ((at_ v 2 .& 15) .<< 16) in
    guard (negb (back =? PaceWords p) || negb (at_ v 3 =? RampClocks p))
      (EMsg "sramcapture: stream pace read back %d words, %d clocks" [back; at_ v 3]).

(** The image and its buffers, before the mode. *)
Definition streamImage : M unit :=
  rev ← read 13;
  guard (negb (rev =? 11)) (EMsg "sramcapture: stream requires revision 11" []).
Definition badDecimation (log : Z) : bool := (log <? 8) || (20 <? log).

(** Arm, and the mode off again if it fails. *)
Definition armStreaming (c : ctx) (cfg : Config) (off : M unit) : M unit :=
  r ← attempt (Arm fuel c cfg);
  match r with
  | inl _ => mret tt
  | inr e => ignore (write 19 0);; off;; fail e
  end.

Definition streamMode (continuous peak : bool) : Z := 1 .| bit continuous 2 .| bit peak 4.

(** ringStream is cleared even where the mode's write fails. *)
Definition StartStream (c : ctx) (cfg : Config) (continuous peak : bool) (pace : StreamPace) : M unit :=
  guard (badDecimation (DecimationLog2 cfg)) (EMsg "sramcapture: stream decimation %d, need 8..20" [DecimationLog2 cfg]);;
  streamImage;;
  prepareStreamBuffers;;
  setStreamPace pace;;
  e ← errOf (write 19 (streamMode continuous peak));
  modify (set_ringStream false);;
  liftErr e;;
  armStreaming c cfg (mret tt).

Definition StopStream (c : ctx) : M unit :=
  ring ← gets ringStream;
  e ← errOf (Halt fuel c);
  e ← (if (ring : bool) && bool_decide (e = None) then errOf (Halt fuel c) else mret e);
  modify (set_ringStream false);;
  w ← errOf (write 19 0);
  liftErr (match e with None => w | Some _ => e end).

(** ** The history ring (stream_ring.go) *)

Definition streamRingCapability : Z := 0x5247.
Definition regStreamLog : Z := 21.

(** A method whose error only means no. *)
Definition orFalse (m : M bool) : M bool := r ← attempt m; mret (match r with inl b => b | inr _ => false end).

Definition StreamRingSupported : M bool :=
  orFalse (rev ← read 13;
           if negb (rev =? 11) then mret false else v ← read 61; mret (v =? streamRingCapability)).

(** ringStream follows whether the mode was set. *)
Definition StartStreamRing (c : ctx) (cfg : Config) (streamLog : Z) (pace : StreamPace) : M unit :=
  guard (badDecimation (DecimationLog2 cfg)) (EMsg "sramcapture: ring decimation %d, need 8..20" [DecimationLog2 cfg]);;
  guard (badDecimation streamLog) (EMsg "sramcapture: stream decimation %d, need 8..20" [streamLog]);;
  e ← errOf (streamImage;;
             v ← read 61;
             guard (negb (v =? streamRingCapability)) (EMsg "sramcapture: this image has no history ring" []);;
             prepareStreamBuffers;;
             setStreamPace pace;;
             write regStreamLog streamLog;;
             write 19 (1 .| 2 .| 4 .| 32));
  modify (set_ringStream (bool_decide (e = None)));;
  liftErr e;;
  armStreaming c cfg (modify (set_ringStream false)).

Definition FreezeRing (c : ctx) : M (Metadata * Z) :=
  ring ← gets ringStream;
  guard (negb ring) (EMsg "sramcapture: no history ring runs" []);;
  Halt fuel c;;
  m ← status;
  guard (negb (Frozen m) || negb (Ready m) || (Length m =? 0)) (EMsg "sramcapture: the history ring did not freeze" []);;
  last ← read32 62;
  mret (m, last).

(** ** Edge marks (stream_marks.go) *)

Definition streamMarkCapability : Z := 0x4D01.
Record StreamMarkMode := { Rise : bool; Fall : bool }.
Definition markBits (m : StreamMarkMode) : Z := bit (Rise m) 8 .| bit (Fall m) 16.
Record StreamMarkRead := { RiseCount : Z; FallCount : Z; RiseWord : Z; FallWord : Z }.

Definition StreamMarksSupported : M bool :=
  orFalse (rev ← read 13;
           if negb (rev =? 11) then mret false else v ← read 54; mret (v =? streamMarkCapability)).

Definition StartStreamMarked (c : ctx) (cfg : Config) (m : StreamMarkMode) : M unit :=
  guard (badDecimation (DecimationLog2 cfg)) (EMsg "sramcapture: stream decimation %d, need 8..20" [DecimationLog2 cfg]);;
  streamImage;;
  prepareStreamBuffers;;
  setStreamPace {| PaceWords := 0; RampClocks := 0 |};;
  e ← errOf (write 19 (1 .| 2 .| markBits m));
  modify (set_ringStream false);;
  liftErr e;;
  armStreaming c cfg (mret tt).

Definition markWord (ch : Z) : Z := 1 .| 16 .| bit (ch .& 1 =? 1) 64.
Definition SetStreamMarks (ch level hyst : Z) (m : StreamMarkMode) : M unit :=
  write 6 (markWord ch);;
  write 7 (level .| u16 (hyst .<< 8));;
  write 19 (1 .| 2 .| markBits m).

(** A count and its word, read until the count is the same on both sides. *)
Fixpoint stableMark (tries : nat) (count lo hi : Z) : M (Z * Z) :=
  match tries with
  | O => fail (EMsg "sramcapture: stream marks kept changing" [])
  | S tries =>
      v ← readMany [count; lo; hi; count];
      if at_ v 0 =? at_ v 3 then mret (at_ v 3, pair32 (at_ v 1) (at_ v 2)) else stableMark tries count lo hi
  end.
Definition StreamMarks : M StreamMarkRead :=
  rise ← stableMark 3 55 56 57;
  fall ← stableMark 3 58 59 60;
  mret {| RiseCount := rise.1; FallCount := fall.1; RiseWord := rise.2; FallWord := fall.2 |}.
End stream.
