(* ===== verification/DecodedStream.v ===== *)
(** * The decoded event stream

    Reading the decoders' events from the fabric's FIFO, one at a time or in a
    batch, from the bus or through its isolated worker
    (src/app/internal/sramcapture/decoded_event_stream.go; EnableDecodedEvents
    is in Arm.v). What a read returns is exactly what it consumed.

    The caller's [dst] is its length; entries a failed batch has already
    written there are not modelled. *)
From S2P Require Import Prelude Machine Fabric Bus BusSteps DecodedEvent.


Definition DecodedBatchMax : Z := 2048.

(** [fmt.Errorf("... %w", err)] around a call's error. *)
Definition wrapped {A} (w : err -> err) (m : M A) : M A :=
  r ← attempt m;
  match r with inl a => mret a | inr e => fail (w e) end.

Section events.
Context {E : Env}.

(** The guards of one read: an active stream of the caller's epoch, no fault. *)
Definition streamReady (epoch : Z) (changed : Z -> err) : M Z :=
  active ← read 57;
  guard (negb (active =? 1)) (EMsg "sramcapture: decoded stream is disabled" []);;
  current ← read32 61;
  guard (negb (current =? epoch)) (changed current);;
  status ← read 58;
  guard (has status 6) (EMsg "sramcapture: decoded transport error status %04x" [status]);;
  mret status.

(** A partial read left over is rewound. *)
Definition rewind (status : Z) : M unit := if has status 0xf0 then write 60 1 else mret tt.

(** [n] halfwords of the FIFO, little-endian, the [i]-th first. *)
Fixpoint popHalves (w : Z -> err -> err) (n : nat) (i : Z) : M (list Z) :=
  match n with
  | O => mret []
  | S n =>
      v ← wrapped (w i) (read 59);
      rest ← popHalves w n (i + 1);
      mret (leBytes 2 v ++ rest)
  end.
(** [n] bytes of the FIFO: one DMA, never retried, or halfword by halfword. *)
Definition popEvents (dma : err -> err) (half : Z -> err -> err) (n : Z) : M (list Z) :=
  match env_PopBytes with
  | Some pop =>
      data ← wrapped dma (popBytesWith pop 59 n);
      addBeats (n / 2);;
      mret data
  | None => popHalves half (Z.to_nat (n / 2)) 0
  end.

Definition ReadDecodedEvent (epoch : Z) : M (option DecodedEvent) :=
  status ← streamReady epoch (fun current => EMsg "sramcapture: decoded epoch changed: %d != %d" [current; epoch]);
  if status .& 1 =? 0 then mret None
  else
    rewind status;;
    data ← popEvents (EWrap "sramcapture: event DMA (consumption uncertain): %w" [])
             (fun i => EWrap "sramcapture: event halfword %d (consumption uncertain): %w" [i]) DecodedEventBytes;
    e ← lift (ParseDecodedEvent data);
    guard (negb (Epoch e =? epoch)) (EMsg "sramcapture: stale decoded event epoch %d" [Epoch e]);;
    mret (Some e).

(** The records of a batch, each checked against the epoch. *)
Fixpoint parseBatch (bad : Z -> list Z -> err -> err) (stale : Z -> err) (epoch : Z) (n : nat) (i : Z) (data : list Z) :
    M (list DecodedEvent) :=
  match n with
  | O => mret []
  | S n =>
      e ← wrapped (bad i (take 12 data)) (lift (ParseDecodedEvent (take 32 data)));
      guard (negb (Epoch e =? epoch)) (stale (Epoch e));;
      rest ← parseBatch bad stale epoch n (i + 1) (drop 32 data);
      mret (e :: rest)
  end.

(** The isolated worker's batch: Some when the worker owns the stream. *)
Definition isolatedBatch (epoch limit : Z) : M (option (list DecodedEvent)) :=
  match env_EventsIsolated with
  | None => mret None
  | Some isolated =>
      h ← gets trace;
      let r := isolated h epoch (limit * DecodedEventBytes) in
      emit (EvEventsIsolated epoch r);;
      if negb r.1 then mret None
      else
        nd ← lift r.2;
        let n := nd.1 in
        guard ((n <? 0) || (limit * DecodedEventBytes <? n) || negb (Z.rem n DecodedEventBytes =? 0))
          (EMsg "sramcapture: invalid isolated event batch" []);;
        addBeats (n / 2 + 1);;
        events ← parseBatch (fun _ _ e => e) (fun _ => EMsg "sramcapture: isolated epoch mismatch" []) epoch
                   (Z.to_nat (n / DecodedEventBytes)) 0 (fitTo (limit * DecodedEventBytes) u8 nd.2);
        mret (Some events)
  end.

(** The FIFO's batch: its count frozen, at most [limit] of them, one DMA. *)
Definition fifoBatch (epoch limit : Z) : M (list DecodedEvent) :=
  status ← streamReady epoch (fun _ => EMsg "sramcapture: decoded epoch changed" []);
  rewind status;;
  write 76 1;;
  count ← read 75;
  guard (512 <? count) (EMsg "sramcapture: invalid event FIFO count %d" [count]);;
  let n := Z.min count limit in
  if n =? 0 then mret []
  else
    data ← popEvents (EWrap "sramcapture: event batch DMA (consumption uncertain): %w" [])
             (fun _ => EWrap "sramcapture: event batch read (consumption uncertain): %w" []) (n * DecodedEventBytes);
    parseBatch (fun i header => EWrap "sramcapture: batch event %d/%d header %x: %w" (i :: n :: header))
      (fun ep => EMsg "sramcapture: stale decoded batch epoch %d" [ep]) epoch (Z.to_nat n) 0 data.

Definition ReadDecodedEventsInto (epoch limit : Z) : M (list DecodedEvent) :=
  guard ((limit <? 1) || (DecodedBatchMax <? limit)) (EMsg "sramcapture: invalid event batch limit" []);;
  owned ← isolatedBatch epoch limit;
  match owned with
  | Some events => mret events
  | None =>
      capability ← read 74;
      if negb (capability =? 0x4503) then
        e ← ReadDecodedEvent epoch;
        mret (match e with None => [] | Some e => [e] end)
      else fifoBatch epoch limit
  end.

(** ** Transcript lines *)

Definition SetDecodedLineMode (proto : Z) : M bool :=
  match env_LineMode with
  | None => mret false
  | Some set =>
      h ← gets trace;
      let r := set h proto in
      emit (EvLineMode proto r);;
      lift r
  end.

(** [limit] is len(dst); the lines themselves stay in the caller's buffer. *)
Definition ReadDecodedLines (epoch from : Z) (flush : bool) (limit : Z) : M (Z * bool) :=
  match env_Lines with
  | None => mret (0, false)
  | Some lines =>
      h ← gets trace;
      let r := lines h epoch from flush limit in
      emit (EvLines epoch from flush r);;
      (match r with (n, true, None) => addBeats (u64 (Z.quot n 2 + 1)) | _ => mret tt end);;
      match r with (n, owned, None) => mret (n, owned) | (_, _, Some e) => fail e end
  end.
End events.

(** ** A batch is what it consumed *)

(** The record of an event. *)
Definition encode (e : DecodedEvent) : list Z := match MarshalTo e 32 with inl b => b | inr _ => [] end.
(** What an event of the history took out of the fabric's event stream. *)
Definition taken (e : event) : list Z :=
  match e with
  | EvRead 59 (inl v) => leBytes 2 (u16 v)
  | EvPopBytes 59 n (inl b) => fitTo n u8 b
  | EvEventsIsolated _ (true, inl (n, b)) => fitTo n u8 b
  | _ => []
  end.
Definition consumed (h : history) : list Z := concat (map taken h).

Lemma consumed_app h h' : consumed (h ++ h') = consumed h ++ consumed h'.
Proof. unfold consumed. by rewrite map_app, concat_app. Qed.

(** A run that takes the bytes [b] from the stream. *)
Definition takes (b : list Z) (s s' : capture) : Prop := consumed (trace s') = consumed (trace s) ++ b.

Lemma takes_trans b b' s1 s2 s3 : takes b s1 s2 -> takes b' s2 s3 -> takes (b ++ b') s1 s3.
Proof. unfold takes. intros H1 H2. by rewrite H2, H1, app_assoc. Qed.
Lemma takes_nil s : takes [] s s.
Proof. unfold takes. by rewrite app_nil_r. Qed.

(** A run that takes nothing. *)
Definition keeps (s s' : capture) : Prop := takes [] s s'.
#[export] Instance keeps_preorder : PreOrder keeps.
Proof. split; [exact takes_nil|]. intros s1 s2 s3. apply (takes_trans [] []). Qed.

Lemma take_fitTo n k conv l : 0 <= n <= k -> take (Z.to_nat n) (fitTo k conv l) = fitTo n conv l.
Proof.
  intros Hn. apply list_eq. intros i. destruct (decide (i < Z.to_nat n)%nat) as [Hi|Hi].
  - rewrite lookup_take_lt by done. unfold fitTo. destruct (decide (i < length l)%nat) as [Hl|Hl].
    + rewrite !lookup_app_l by (rewrite length_take, length_map; lia). by rewrite !lookup_take_lt by lia.
    + rewrite !lookup_app_r by (rewrite length_take, length_map; lia). rewrite !length_take, !length_map.
      rewrite !lookup_replicate_2 by lia. done.
  - rewrite !lookup_ge_None_2; [done| |rewrite length_take; lia].
    rewrite length_fitTo by lia. lia.
Qed.

Section batch.
Context {E : Env}.

Lemma emit_takes e s u s' : emit e s = (Ret u, s') -> takes (taken e) s s'.
Proof.
  intros [= _ <-]. unfold takes. cbn [trace set_trace]. rewrite consumed_app. f_equal.
  unfold consumed. simpl. apply app_nil_r.
Qed.
Lemma keeps_emit e : taken e = [] -> steps keeps (emit e).
Proof. intros He s. unfold keeps. rewrite <- He. by apply (emit_takes e s tt). Qed.
Lemma keeps_busWrite sel v : steps keeps (busWrite sel v).
Proof. unfold busWrite. steps_tac. by apply keeps_emit. Qed.
Lemma keeps_modify f : (forall s, trace (f s) = trace s) -> steps keeps (modify f).
Proof. intros Hf s. unfold keeps, takes. simpl. by rewrite Hf, app_nil_r. Qed.
Lemma keeps_sendMany regs : steps keeps (sendMany regs).
Proof. unfold sendMany. steps_tac; [by apply keeps_emit|apply keeps_busWrite]. Qed.
Lemma keeps_flushWrites : steps keeps flushWrites.
Proof. unfold flushWrites. steps_tac; [apply keeps_sendMany|by apply keeps_modify]. Qed.
Lemma keeps_write sel v : steps keeps (write sel v).
Proof. unfold write. steps_tac; [by apply keeps_modify|apply keeps_busWrite]. Qed.
Lemma keeps_read sel : sel <> 59 -> steps keeps (read sel).
Proof.
  intros Hs. unfold read. steps_tac; [apply keeps_flushWrites| |by apply keeps_modify].
  unfold busRead. steps_tac. apply keeps_emit. simpl. destruct sel as [|p|p]; try done.
  by repeat (destruct p as [p|p|]; try done).
Qed.

Lemma keeps_Ret {A} (m : M A) s a s' : steps keeps m -> m s = (Ret a, s') -> takes [] s s'.
Proof. intros Hm H. specialize (Hm s). by rewrite H in Hm. Qed.

Lemma keeps_streamReady epoch changed : steps keeps (streamReady epoch changed).
Proof. unfold streamReady, read32. steps_tac; by apply keeps_read. Qed.
Lemma keeps_rewind status : steps keeps (rewind status).
Proof. unfold rewind. steps_tac. apply keeps_write. Qed.

Lemma wrapped_Ret {A} w (m : M A) s a s' : wrapped w m s = (Ret a, s') -> m s = (Ret a, s').
Proof.
  unfold wrapped. intros H. apply bind_Ret_inv in H as (r & s1 & H1 & H).
  apply attempt_Ret_inv in H1 as [(x & -> & H1)|(x & -> & H1)]; [|discriminate H].
  by apply mret_Ret_inv in H as [-> ->].
Qed.

(** A FIFO read takes the halfword it returns. *)
Lemma read_takes s v s' : read 59 s = (Ret v, s') -> takes (leBytes 2 v) s s'.
Proof.
  intros H.
  unfold read in H. apply bind_Ret_inv in H as (cached & s1 & H1 & H). injection H1 as <- <-.
  change (indexOf 59 (drop 1 armSels)) with (@None nat) in H. destruct (armReady s); simpl in H.
  all: apply bind_Ret_inv in H as (u & s2 & H2 & H); apply (keeps_Ret _ _ _ _ keeps_flushWrites) in H2;
    apply bind_Ret_inv in H as (x & s3 & H3 & H); apply bind_Ret_inv in H as (u' & s4 & H4 & H);
    apply mret_Ret_inv in H as [-> ->]; apply (takes_trans [] _ _ _ _ H2).
  all: injection H4 as _ <-; unfold busRead in H3; apply bind_Ret_inv in H3 as (h & s4 & H4 & H3);
    injection H4 as <- <-; cbv zeta in H3; apply bind_Ret_inv in H3 as (u2 & s4 & H4 & H3); apply emit_takes in H4;
    apply bind_Ret_inv in H3 as (y & s5 & H5 & H3); apply lift_Ret_inv in H5 as [Hr ->];
    apply mret_Ret_inv in H3 as [-> ->]; rewrite Hr in H4; exact H4.
Qed.

Lemma popHalves_takes w n i s data s' :
  popHalves w n i s = (Ret data, s') -> takes data s s' /\ isBytes data /\ length data = (2 * n)%nat.
Proof.
  revert i s data s'. induction n as [|n IH]; intros i s data s' H; cbn [popHalves] in H.
  { apply mret_Ret_inv in H as [-> ->]. split; [apply takes_nil|]. by split; [constructor|]. }
  apply bind_Ret_inv in H as (v & s1 & H1 & H). apply wrapped_Ret, read_takes in H1.
  apply bind_Ret_inv in H as (rest & s2 & H2 & H). apply IH in H2 as (H2 & Hb & Hl).
  apply mret_Ret_inv in H as [-> ->]. split; [by eapply takes_trans|].
  split; [apply Forall_app; split; [apply isBytes_leBytes|done]|]. rewrite length_app, length_leBytes, Hl. lia.
Qed.

Lemma popEvents_takes dma half n s data s' :
  0 <= n -> n mod 2 = 0 -> popEvents dma half n s = (Ret data, s') ->
  takes data s s' /\ isBytes data /\ Z.of_nat (length data) = n.
Proof.
  intros Hn Hm H. unfold popEvents in H. destruct env_PopBytes as [pop|].
  - apply bind_Ret_inv in H as (d & s1 & H1 & H). apply wrapped_Ret in H1.
    apply bind_Ret_inv in H as (u & s2 & H2 & H). injection H2 as _ <-. apply mret_Ret_inv in H as [-> ->].
    unfold popBytesWith in H1. apply bind_Ret_inv in H1 as (h & s3 & H3 & H1). injection H3 as <- <-. cbv zeta in H1.
    apply bind_Ret_inv in H1 as (u' & s4 & H4 & H1). apply emit_takes in H4.
    apply bind_Ret_inv in H1 as (raw & s5 & H5 & H1). apply lift_Ret_inv in H5 as [Hr ->].
    apply mret_Ret_inv in H1 as [-> ->]. rewrite Hr in H4. split; [exact H4|split].
    + apply Forall_fitTo; [intros x; apply fits_u8|unfold fits; lia].
    + rewrite length_fitTo by done. lia.
  - apply popHalves_takes in H as (Ht & Hb & Hl). split; [done|]. split; [done|].
    rewrite Hl. pose proof (Z.div_mod n 2). lia.
Qed.

(** The batch's events are the records, one after the other. *)
Definition eventsOf (epoch : Z) (evs : list DecodedEvent) : Prop :=
  Forall (fun e => Epoch e = epoch /\ wfEvent e /\ validate e = None) evs.

Lemma parsed_record epoch b e :
  isBytes b -> ParseDecodedEvent b = inl e -> Epoch e = epoch -> eventsOf epoch [e] /\ encode e = b.
Proof.
  intros Hb Hp He. apply parsed_encodes in Hp as (Hw & Hv & Hm); [|done].
  split; [by constructor; [|constructor]|]. unfold encode. by rewrite Hm.
Qed.

Lemma parseBatch_records bad stale epoch n i data s evs s' :
  isBytes data -> parseBatch bad stale epoch n i data s = (Ret evs, s') ->
  s' = s /\ length evs = n /\ eventsOf epoch evs /\ concat (map encode evs) = take (32 * n) data.
Proof.
  revert i data s evs s'. induction n as [|n IH]; intros i data s evs s' Hb H; cbn [parseBatch] in H.
  { apply mret_Ret_inv in H as [-> ->]. by split_and!; [..|constructor|]. }
  apply bind_Ret_inv in H as (e & s1 & H1 & H). apply wrapped_Ret, lift_Ret_inv in H1 as [H1 ->].
  apply bind_Ret_inv in H as (u & s2 & H2 & H). apply guard_Ret_inv in H2 as [Hg ->].
  apply bind_Ret_inv in H as (rest & s3 & H3 & H). apply mret_Ret_inv in H as [-> ->].
  apply IH in H3 as (-> & Hl & Hev & Hc); [|by apply Forall_drop].
  apply (parsed_record epoch) in H1 as [He Henc]; [|by apply Forall_take|blia].
  split; [done|]. split; [simpl; lia|]. split; [by apply (Forall_app_2 _ [e] rest)|].
  cbn [map concat]. rewrite Henc, Hc. replace (32 * S n)%nat with (32 + 32 * n)%nat by lia.
  by rewrite take_take_drop.
Qed.

Lemma read75_nonneg s v s' : read 75 s = (Ret v, s') -> 0 <= v.
Proof.
  intros H. unfold read in H. apply bind_Ret_inv in H as (cached & s1 & H1 & H). injection H1 as <- <-.
  change (indexOf 75 (drop 1 armSels)) with (@None nat) in H. destruct (armReady s); simpl in H.
  all: unfold busRead, addBeats in H; inv_ret H; apply fits_u16.
Qed.

(** A whole batch parsed from bytes of its own length. *)
Lemma parseBatch_all bad stale epoch n i data s evs s' :
  isBytes data -> length data = (32 * n)%nat -> parseBatch bad stale epoch n i data s = (Ret evs, s') ->
  s' = s /\ length evs = n /\ eventsOf epoch evs /\ concat (map encode evs) = data.
Proof.
  intros Hb Hl H. apply parseBatch_records in H as (-> & Hn & He & Hc); [|done].
  by rewrite take_ge in Hc by lia.
Qed.

(** What a read that returns [evs] promises: events of the epoch, at most
    [limit] of them, and their records are the bytes taken from the stream. *)
Definition batchOf (epoch limit : Z) (s : capture) (evs : list DecodedEvent) (s' : capture) : Prop :=
  Z.of_nat (length evs) <= limit /\ eventsOf epoch evs /\ takes (concat (map encode evs)) s s'.

Lemma batchOf_after epoch limit s s1 evs s' :
  takes [] s s1 -> batchOf epoch limit s1 evs s' -> batchOf epoch limit s evs s'.
Proof. intros Ht (Hl & He & H). split_and!; [done|done|]. exact (takes_trans [] _ _ _ _ Ht H). Qed.

Lemma ReadDecodedEvent_takes epoch s e s' :
  ReadDecodedEvent epoch s = (Ret e, s') -> batchOf epoch 1 s (match e with None => [] | Some e => [e] end) s'.
Proof.
  intros H. unfold ReadDecodedEvent in H. apply bind_Ret_inv in H as (status & s1 & H1 & H).
  apply (keeps_Ret _ _ _ _ (keeps_streamReady _ _)) in H1. apply (batchOf_after _ _ _ _ _ _ H1).
  destruct (_ =? _) in H.
  { apply mret_Ret_inv in H as [-> ->]. split_and!; [done|constructor|apply takes_nil]. }
  apply bind_Ret_inv in H as (u & s2 & H2 & H). apply (keeps_Ret _ _ _ _ (keeps_rewind _)) in H2.
  apply (batchOf_after _ _ _ _ _ _ H2).
  apply bind_Ret_inv in H as (data & s3 & H3 & H). apply popEvents_takes in H3 as (Ht & Hb & Hl); [|done..].
  apply bind_Ret_inv in H as (ev & s4 & H4 & H). apply lift_Ret_inv in H4 as [H4 ->].
  apply bind_Ret_inv in H as (u' & s5 & H5 & H). apply guard_Ret_inv in H5 as [Hg ->].
  apply mret_Ret_inv in H as [-> ->]. apply (parsed_record epoch) in H4 as [He Henc]; [|done|blia].
  split_and!; [done|done|]. cbn [map concat]. by rewrite app_nil_r, Henc.
Qed.

Lemma isolatedBatch_takes epoch limit s evs s' :
  isolatedBatch epoch limit s = (Ret evs, s') ->
  match evs with Some evs => batchOf epoch limit s evs s' | None => takes [] s s' end.
Proof.
  intros H. unfold isolatedBatch in H. destruct env_EventsIsolated as [isolated|].
  2: { apply mret_Ret_inv in H as [-> ->]. apply takes_nil. }
  apply bind_Ret_inv in H as (h & s1 & H1 & H). injection H1 as <- <-. cbv zeta in H.
  apply bind_Ret_inv in H as (u & s1 & H1 & H). apply emit_takes in H1.
  destruct (isolated _ _ _) as [owned r]. cbn [fst snd] in *. destruct owned; simpl in H.
  2: { apply mret_Ret_inv in H as [-> ->]. exact H1. }
  apply bind_Ret_inv in H as ([n d] & s2 & H2 & H). apply lift_Ret_inv in H2 as [-> ->]. cbn [fst snd] in H.
  apply bind_Ret_inv in H as (u2 & s3 & H3 & H). apply guard_Ret_inv in H3 as [Hg ->].
  apply bind_Ret_inv in H as (u3 & s4 & H4 & H). injection H4 as _ <-.
  apply bind_Ret_inv in H as (l & s5 & H5 & H). apply mret_Ret_inv in H as [-> ->].
  rewrite !orb_false_iff, negb_false_iff, Z.ltb_ge, Z.ltb_ge, Z.eqb_eq in Hg. destruct Hg as [[Hn0 Hnl] Hn32].
  unfold DecodedEventBytes in *. rewrite Z.rem_mod_nonneg in Hn32 by lia. pose proof (Z.div_mod n 32) as Hdiv.
  apply parseBatch_records in H5 as (-> & Hlen & He & Hc); [|apply Forall_fitTo; [intros x; apply fits_u8|unfold fits; lia]].
  split_and!; [lia|done|]. rewrite Hc. replace (32 * Z.to_nat (n / 32))%nat with (Z.to_nat n) by lia.
  rewrite take_fitTo by lia. exact H1.
Qed.

Lemma fifoBatch_takes epoch limit s evs s' :
  1 <= limit -> fifoBatch epoch limit s = (Ret evs, s') -> batchOf epoch limit s evs s'.
Proof.
  intros Hlim H. unfold fifoBatch in H. apply bind_Ret_inv in H as (status & s1 & H1 & H).
  apply (keeps_Ret _ _ _ _ (keeps_streamReady _ _)) in H1. apply (batchOf_after _ _ _ _ _ _ H1).
  apply bind_Ret_inv in H as (u & s2 & H2 & H). apply (keeps_Ret _ _ _ _ (keeps_rewind _)) in H2.
  apply (batchOf_after _ _ _ _ _ _ H2).
  apply bind_Ret_inv in H as (u3 & s3 & H3 & H). apply (keeps_Ret _ _ _ _ (keeps_write _ _)) in H3.
  apply (batchOf_after _ _ _ _ _ _ H3).
  apply bind_Ret_inv in H as (count & s4 & H4 & H). apply read75_nonneg in H4 as Hc0.
  apply (keeps_Ret _ _ _ _ (keeps_read 75 ltac:(done))) in H4. apply (batchOf_after _ _ _ _ _ _ H4).
  apply bind_Ret_inv in H as (u5 & s5 & H5 & H). apply guard_Ret_inv in H5 as [Hg ->]. cbv zeta in H.
  destruct (Z.eqb_spec (Z.min count limit) 0) as [H0|H0].
  { apply mret_Ret_inv in H as [-> ->]. split_and!; [simpl; lia|constructor|apply takes_nil]. }
  apply bind_Ret_inv in H as (data & s6 & H6 & H). unfold DecodedEventBytes in H6.
  apply popEvents_takes in H6 as (Ht & Hb & Hl); [|lia|].
  2: { replace (Z.min count limit * 32) with (Z.min count limit * 16 * 2) by lia. by apply Z.mod_mul. }
  apply parseBatch_all in H as (-> & Hlen & He & Hc); [|done|lia].
  split_and!; [lia|done|]. by rewrite Hc.
Qed.

(** C30: a batch read returns exactly what it took: whatever transport carried
    it (the isolated worker, one DMA, or halfword reads, the single-event path
    included), the events returned are valid, of the caller's epoch, at most as
    many as there is room for, and their records, concatenated in order, are
    the bytes consumed from the stream: none lost, invented or reordered. *)
Theorem ReadDecodedEventsInto_exact epoch limit s evs s' :
  ReadDecodedEventsInto epoch limit s = (Ret evs, s') -> 1 <= limit <= DecodedBatchMax /\ batchOf epoch limit s evs s'.
Proof.
  intros H. unfold ReadDecodedEventsInto in H. apply bind_Ret_inv in H as (u & s1 & H1 & H).
  apply guard_Ret_inv in H1 as [Hg ->]. assert (1 <= limit <= DecodedBatchMax) as Hlim by blia. split; [done|].
  apply bind_Ret_inv in H as (owned & s2 & H2 & H). apply isolatedBatch_takes in H2.
  destruct owned as [l|]; [by apply mret_Ret_inv in H as [-> ->]|]. apply (batchOf_after _ _ _ _ _ _ H2).
  apply bind_Ret_inv in H as (capability & s3 & H3 & H).
  apply (keeps_Ret _ _ _ _ (keeps_read 74 ltac:(done))) in H3. apply (batchOf_after _ _ _ _ _ _ H3).
  destruct (negb _); [|by apply fifoBatch_takes in H; [|lia]].
  apply bind_Ret_inv in H as (e & s4 & H4 & H). apply mret_Ret_inv in H as [-> ->].
  apply ReadDecodedEvent_takes in H4 as (Hl & He & Ht). split_and!; [lia|done|done].
Qed.
End batch.
