(* ===== verification/Panel.v ===== *)
(** * The front panel's scan

    src/app/internal/sramcapture/panel.go: the settings of the panel's serial
    scan (src/fpga/common/panel_scan.v, its registers in top.v) and the read of
    its last frame, from the bus or through its worker. *)
From S2P Require Import Prelude Machine Fabric Bus.

Record PanelConfig := {
  Enable : bool; LoadHigh : bool; Late : bool; IdleHigh : bool; F1Mode : Z; Half : Z; Gap : Z
}.
Definition wf (p : PanelConfig) : Prop := fits 8 (F1Mode p) /\ fits 16 (Half p) /\ fits 16 (Gap p).

Record PanelFrame := { Words : list Z; Knobs : list Z; Frames : Z; Changes : Z; Pins : Z }.

Definition PanelDefault : PanelConfig :=
  {| Enable := true; LoadHigh := true; Late := false; IdleHigh := false; F1Mode := 2; Half := 83; Gap := 200 |}.

Section panel.
Context {E : Env}.

Definition SupportsPanel : M bool := v ← read 31; mret (v =? 0x5041).

Definition control (p : PanelConfig) : Z :=
  ((F1Mode p .& 3) .<< 10) .| bit (Enable p) (1 .<< 15) .| bit (LoadHigh p) (1 .<< 14) .| bit (Late p) (1 .<< 13)
    .| bit (IdleHigh p) (1 .<< 12).
Definition halfPeriod (p : PanelConfig) : Z := if Half p =? 0 then 1 else Half p.
(** The config word goes last. *)
Definition registers (p : PanelConfig) : list (Z * Z) := [(32, halfPeriod p); (33, Gap p); (31, control p)].
Definition ConfigurePanel (p : PanelConfig) : M unit := writeMany (registers p).

(** PanelWords: each word behind its index. *)
Fixpoint panelWords (n : nat) (i : Z) : M (list Z) :=
  match n with
  | O => mret []
  | S n => write 34 i;; v ← read 44; rest ← panelWords n (i + 1); mret (v :: rest)
  end.
Definition PanelWords : M (list Z) := panelWords 11 0.

Definition frameOf (w : list Z) : PanelFrame :=
  {| Words := slice 0 4 w; Knobs := slice 4 4 w; Frames := at_ w 8; Changes := at_ w 9; Pins := at_ w 10 |}.

(** The worker's words when it owns the bus, its error the call's. *)
Definition ReadPanel : M PanelFrame :=
  w ← match env_PanelIsolated with
      | Some isolated =>
          h ← gets trace;
          let r := isolated h in
          emit (EvPanelIsolated r);;
          if negb r.1 then PanelWords else l ← lift r.2; mret (fitTo 11 u16 l)
      | None => PanelWords
      end;
  mret (frameOf w).
End panel.

(** ** The scan the fabric runs *)

(** top.v's registers 31 to 33 as panel_scan.v reads them. *)
Record Port := { on : bool; loadLevel : bool; lateSample : bool; idleLevel : bool; f1 : Z; half : Z; gap : Z }.
Definition port (f : Z -> Z) : Port :=
  {| on := flag (f 31) 15; loadLevel := flag (f 31) 14; lateSample := flag (f 31) 13; idleLevel := flag (f 31) 12;
     f1 := bits (f 31) 10 2; half := f 32; gap := f 33 |}.
Definition run (p : PanelConfig) : Port :=
  {| on := Enable p; loadLevel := LoadHigh p; lateSample := Late p; idleLevel := IdleHigh p;
     f1 := F1Mode p mod 4; half := Z.max 1 (Half p); gap := Gap p |}.

Section panel_properties.
Context {E : Env}.

Lemma control_fields p :
  let c := control p in
  flag c 15 = Enable p /\ flag c 14 = LoadHigh p /\ flag c 13 = Late p /\ flag c 12 = IdleHigh p /\
  bits c 10 2 = F1Mode p mod 4.
Proof.
  assert (fits 2 (F1Mode p .& 3)) as Hm by (change 3 with (Z.ones 2); apply (fits_bits (F1Mode p) 0 2); lia).
  assert (F1Mode p mod 4 = F1Mode p .& 3) as -> by (change 3 with (Z.ones 2); by rewrite Z.land_ones by lia).
  unfold flag, control. split_and!; by bits_tac.
Qed.

Lemma port_registers p f : 0 <= Half p -> port (written (registers p) f) = run p.
Proof.
  intros Hh. destruct (control_fields p) as (H1 & H2 & H3 & H4 & H5). unfold port, run, registers, written.
  cbn -[flag bits control halfPeriod]. rewrite H1, H2, H3, H4, H5. f_equal. unfold halfPeriod.
  destruct (Z.eqb_spec (Half p) 0); lia.
Qed.

(** The panel scan the fabric runs is the one asked for (a zero half
    period is one clock), and while the settings are being written the scan in
    progress keeps its own configuration word: the word is the last write. *)
Theorem ConfigurePanel_fabric p s u s' f :
  wf p -> queueOk s -> ConfigurePanel p s = (Ret u, s') ->
  exists regs, issued s' = issued s ++ regs /\ port (written regs f) = run p /\
    forall k, (k < length regs)%nat -> written (take k regs) f 31 = f 31.
Proof.
  intros Hw Hq H. apply issues_writeMany in H as [_ H]; [|done]. exists (registers p). split; [done|].
  split; [apply port_registers; apply Hw|]. intros k Hk. by destruct k as [|[|[|k]]]; [..|simpl in Hk; lia].
Qed.

(** The panel's words behind their index (top.v, registers 34 and 44). *)
Definition indexAfter (w : list (Z * Z)) : Z := bits (written w (fun _ => 0) 34) 0 4.
Definition servesPanel (word : Z -> Z) : Prop :=
  forall h x, env_Read h 44 = inl x -> x = word (indexAfter (writesOf h)).

Lemma written_last w sel v f : written (w ++ [(sel, v)]) f sel = v.
Proof. rewrite written_app. simpl. by rewrite Z.eqb_refl. Qed.

Lemma panelWords_served word n i s w s' :
  servesPanel word -> queueOk s -> 0 <= i -> i + Z.of_nat n <= 16 ->
  panelWords n i s = (Ret w, s') -> w = map (fun k => u16 (word k)) (seqZ i (Z.of_nat n)) /\ queueOk s'.
Proof.
  intros Hd. revert i s w s'. induction n as [|n IH]; intros i s w s' Hq Hi Hn H; cbn [panelWords] in H.
  { by apply mret_Ret_inv in H as [-> ->]. }
  apply bind_Ret_inv in H as (u & s1 & H1 & H). apply issues_write in H1 as [Hq1 H1]; [|done].
  apply bind_Ret_inv in H as (v & s2 & H2 & H). apply read_queueOk in H2 as Hq2; [|done].
  apply read_answer in H2 as (h & x & Hx & -> & Hh); [|done|done].
  apply bind_Ret_inv in H as (rest & s3 & H3 & H). apply mret_Ret_inv in H as [-> ->].
  apply IH in H3 as [-> Hq3]; [|done|lia|lia]. split; [|done].
  rewrite Nat2Z.inj_succ, (seqZ_cons i), Z.pred_succ, Z.add_1_r by lia. cbn [map]. f_equal.
  apply Hd in Hx. rewrite Hx, Hh, H1. unfold indexAfter. rewrite written_last.
  rewrite bits_self; [done|unfold fits; lia|lia].
Qed.

(** On the bus's own path a panel read is one frame as the fabric shows
    it: the key words, knob counts, counters and pins are the panel's words 0
    to 10, each read behind its own index. *)
Theorem ReadPanel_frame word s f s' :
  env_PanelIsolated = None -> servesPanel word -> queueOk s -> ReadPanel s = (Ret f, s') ->
  f = {| Words := map (fun k => u16 (word k)) [0; 1; 2; 3]; Knobs := map (fun k => u16 (word k)) [4; 5; 6; 7];
         Frames := u16 (word 8); Changes := u16 (word 9); Pins := u16 (word 10) |}.
Proof.
  intros Hi Hd Hq H. unfold ReadPanel in H. rewrite Hi in H. apply bind_Ret_inv in H as (w & s1 & H1 & H).
  apply mret_Ret_inv in H as [-> ->]. by apply (panelWords_served word) in H1 as [-> _].
Qed.
End panel_properties.
