(* ===== verification/StreamRun.v ===== *)
(** * A drain delivers the stream

    DrainStream (src/app/internal/sramcapture/stream.go) against the drum's
    banks (src/fpga/common/top.v, stream_banks): a bank the host holds stays as
    it is until its release, so a drain that succeeds gives its sink exactly
    the stream's next words, and releases the bank once; one that fails leaves
    the bank held. *)
From S2P Require Import Prelude Machine Fabric Bus BusSteps Command Status Open Recall RecallSteps Sinks RecallDevice Stream.

(** ** The drum *)

(** A bank: a token that flips with every refill, the ordinal of its first
    word and how many words it holds. *)
Record bank := MkBank { token : Z; first : Z; nwords : Z }.

Definition releases (r : Z * Z) : bool := r.1 =? 20.
Definition noRelease (l : history) : Prop := Forall (fun r => r.1 <> 20) (writesOf l).

(** The burst buffer's halfword pointer: register 17 sets it, a pop moves it. *)
Definition pointerStep (p : Z) (e : event) : Z :=
  match e with
  | EvWrite sel v None => if sel =? 17 then v else p
  | EvPopBytes sel n (inl _) => if sel =? 25 then p + n / 2 else p
  | _ => p
  end.
Definition pointer (h : history) : Z := fold_left pointerStep h 0.
Lemma pointer_snoc h e : pointer (h ++ [e]) = pointerStep (pointer h) e.
Proof. unfold pointer. by rewrite fold_left_app. Qed.

(** The byte [j] of a memory of words. *)
Definition byteOf (mem : Z -> Z) (j : Z) : Z := bits (mem (j / 4)) (8 * (j mod 4)) 8.

Lemma sameSettings_words s s' : sameSettings s s' -> streamWords s' = streamWords s.
Proof. unfold sameSettings. intros H. by destruct_and! H. Qed.

Section drum.
Context {E : Env}.
(** The stream's words by ordinal, the banks, and the buffer's words. *)
Variable stream : Z -> Z.
Variable bankAt : history -> Z -> bank.
Variable buffer : history -> Z -> Z.
(** The buffer's words, half of them a bank's. *)
Variable total : Z.

(** What the registers show of a bank that stays held. *)
Record servesDrum : Prop := {
  (** ready under one token and unfaulted on both sides, and not released:
      the same bank in between *)
  drum_holds h l x y b : 0 <= b <= 1 ->
    env_Read h 32 = inl x -> env_Read (h ++ l) 32 = inl y -> noRelease l ->
    has (Ready_ (decodeStreamStatus (u16 x))) (1 .<< b) = true ->
    bankChanged (decodeStreamStatus (u16 x)) b (decodeStreamStatus (u16 y)) = false ->
    forall l1 l2, l = l1 ++ l2 -> bankAt (h ++ l1) b = bankAt h b;
  drum_bank h b : fits 64 (first (bankAt h b)) /\ 0 < nwords (bankAt h b);
  drum_single h x b : 0 <= b <= 1 -> env_Read h 32 = inl x ->
    (LastSingle (decodeStreamStatus (u16 x)) .>> b) .& 1 = nwords (bankAt h b) mod 2;
  drum_count h x b : 0 <= b <= 1 -> env_Read h (33 + b) = inl x -> u16 x = (nwords (bankAt h b) + 1) / 2;
  drum_first h x b k : 0 <= b <= 1 -> 0 <= k < 4 -> env_Read h (35 + b * 4 + k) = inl x ->
    u16 x = bits (first (bankAt h b)) (16 * k) 16;
  drum_words h b i : 0 <= b <= 1 -> 0 <= i < nwords (bankAt h b) ->
    buffer h (b * (total / 2) + i) = stream (first (bankAt h b) + i);
  drum_pop pop h n l : env_PopBytes = Some pop -> pop h 25 n = inl l ->
    l = map (fun j => byteOf (buffer h) (2 * pointer h + j)) (seqZ 0 n);
  drum_size h x : env_Read h 26 = inl x -> u16 x = total
}.
Hypothesis drum : servesDrum.

(** The bytes of the stream's words [a, a + n). *)
Definition streamBytes (a n : Z) : list Z := wordBytes (map stream (seqZ a n)).

Lemma seqZ_shift a b n : seqZ (a + b) n = map (Z.add a) (seqZ b n).
Proof. symmetry. apply (fmap_add_seqZ a b n). Qed.
Lemma leBytes_bits n v : leBytes n v = map (fun j => bits v (8 * j) 8) (seqZ 0 (Z.of_nat n)).
Proof.
  revert v. induction n as [|n IH]; intros v; [done|]. 
  change (leBytes (S n) v) with (v mod 256 :: leBytes n (v / 256)). rewrite IH, Nat2Z.inj_succ, (seqZ_cons 0 (Z.succ _)), Z.pred_succ by lia.
  cbn [map]. f_equal.
  - rewrite bits_mod by lia. change (2 ^ (8 * 0)) with 1. by rewrite Z.div_1_r.
  - change (Z.succ 0) with (0 + 1). replace (0 + 1) with (1 + 0) by lia. rewrite seqZ_shift, map_map. apply map_ext_in. intros j Hj.
    apply list_elem_of_In, elem_of_seqZ in Hj. rewrite !bits_mod by lia. f_equal.
    rewrite Z.div_div by lia. f_equal. change 256 with (2 ^ 8). rewrite <- Z.pow_add_r by lia. f_equal. lia.
Qed.

Lemma byteOf_word mem i j : 0 <= j < 4 -> byteOf mem (4 * i + j) = bits (mem i) (8 * j) 8.
Proof.
  intros Hj. unfold byteOf. replace ((4 * i + j) / 4) with i by (apply (Z.div_unique _ _ _ j); lia).
  replace ((4 * i + j) mod 4) with j by (apply (Z.mod_unique _ _ i); lia). done.
Qed.
Lemma wordBytes_byteOf mem n a :
  0 <= a -> wordBytes (map mem (seqZ a (Z.of_nat n))) = map (byteOf mem) (seqZ (4 * a) (4 * Z.of_nat n)).
Proof.
  revert a. induction n as [|n IH]; intros a Ha; [done|].
  rewrite Nat2Z.inj_succ, (seqZ_cons a), Z.pred_succ by lia. cbn [map].
  change (wordBytes (?x :: ?l)) with (leBytes 4 x ++ wordBytes l). rewrite IH by lia.
  replace (4 * Z.succ (Z.of_nat n)) with (4 + 4 * Z.of_nat n) by lia. rewrite seqZ_app, map_app by lia. f_equal.
  - rewrite leBytes_bits. change (Z.of_nat 4) with 4. rewrite <- (Z.add_0_r (4 * a)), seqZ_shift, map_map. apply map_ext_in. intros j Hj. apply list_elem_of_In, elem_of_seqZ in Hj. by rewrite byteOf_word by lia.
  - do 2 f_equal. lia.
Qed.

(** ** Histories without a release *)

Definition calm (h h' : history) : Prop := exists l, h' = h ++ l /\ noRelease l.
Instance calm_preorder : PreOrder calm.
Proof.
  split; [intros h; exists []; rewrite app_nil_r; split; [done|constructor]|].
  intros h1 h2 h3 (l & -> & Hl) (l' & -> & Hl'). exists (l ++ l'). rewrite app_assoc. split; [done|].
  unfold noRelease. rewrite writesOf_app. by apply Forall_app.
Qed.
Lemma calm_trans h1 h2 h3 : calm h1 h2 -> calm h2 h3 -> calm h1 h3.
Proof. apply calm_preorder. Qed.
Lemma calm_snoc h e : Forall (fun r => r.1 <> 20) (accepted e) -> calm h (h ++ [e]).
Proof. intros He. exists [e]. split; [done|]. unfold noRelease. by rewrite writesOf_one. Qed.

(** Along a chain of steps. *)
Ltac calm_tac := repeat first [assumption | reflexivity | eapply calm_trans; [eassumption|]].

(** Bank [b] is [k] throughout. *)
Definition steady (b : Z) (k : bank) (h h' : history) : Prop :=
  forall h1, calm h h1 -> calm h1 h' -> bankAt h1 b = k.
Lemma steady_mid b k h h1 h2 h' : steady b k h h' -> calm h h1 -> calm h2 h' -> steady b k h1 h2.
Proof. intros Hs H1 H2 h3 H3 H4. apply Hs; by etransitivity. Qed.
Lemma steady_at b k h h' : steady b k h h' -> calm h h' -> bankAt h b = k /\ bankAt h' b = k.
Proof. intros Hs Hc. split; by apply Hs. Qed.

Lemma read_calm sel s v s' :
  open s -> read sel s = (Ret v, s') ->
  open s' /\ calm (trace s) (trace s') /\ pointer (trace s') = pointer (trace s) /\ sameSettings s s' /\
  exists x, env_Read (trace s) sel = inl x /\ v = u16 x.
Proof.
  intros Ho H. assert (sameSettings s s') as Hset by by apply read_Ret in H as [_ ?].
  apply read_open in H as (Ho' & x & Hx & -> & Ht); [|done]. split; [done|]. rewrite Ht.
  split; [apply calm_snoc; constructor|]. split; [by rewrite pointer_snoc|]. eauto.
Qed.
Lemma write_calm sel v s u s' :
  open s -> sel <> 20 -> write sel v s = (Ret u, s') ->
  open s' /\ calm (trace s) (trace s') /\ pointer (trace s') = (if sel =? 17 then v else pointer (trace s)) /\
  streamWords s' = streamWords s /\ streamCap s' = streamCap s.
Proof.
  intros Ho Hs H. assert (streamWords s' = streamWords s /\ streamCap s' = streamCap s) as [H1 H2].
  { destruct Ho as [_ Hq]. unfold write in H. apply bind_Ret_inv in H as (q & s1 & Hg & H). injection Hg as <- <-.
    rewrite Hq in H. by apply busWrite_Ret in H as (_ & _ & Hset); destruct_and! Hset. }
  apply write_open in H as [Ho' Ht]; [|done]. split; [done|]. rewrite Ht. split; [apply calm_snoc; by repeat constructor|].
  by rewrite pointer_snoc.
Qed.

(** ** The bank that starts at the expected word *)

Lemma fits_or_parts v :
  fits 64 v -> bits v 0 16 .| (bits v 16 16 .<< 16) .| (bits v 32 16 .<< 32) .| (bits v 48 16 .<< 48) = v.
Proof.
  intros Hv. rewrite <- (quad_split v Hv) at 5. unfold quad. change 0xffff with (Z.ones 16).
  assert (forall o, 0 <= o -> (v .>> o) .& Z.ones 16 = bits v o 16) as Hb by done.
  rewrite !Hb by lia. change (v .& Z.ones 16) with (bits v 0 16).
  assert (u16 (v .>> 48) = bits v 48 16) as ->.
  { rewrite bits_mod by lia. unfold u16. by rewrite Z.shiftr_div_pow2 by lia. }
  by rewrite !(bits_self (bits v _ 16) 16) by (try lia; apply fits_bits; lia).
Qed.

Lemma bankFirst_calm b s v s' :
  0 <= b <= 1 -> open s -> bankFirst b s = (Ret v, s') ->
  open s' /\ calm (trace s) (trace s') /\ pointer (trace s') = pointer (trace s) /\ sameSettings s s' /\
  forall k, steady b k (trace s) (trace s') -> v = first k.
Proof using drum.
  intros Hb Ho H. unfold bankFirst in H. cbv zeta in H.
  assert (forall k, 0 <= k < 4 -> u16 (35 + b * 4 + k) = 35 + b * 4 + k) as Hu.
  { intros k Hk. apply u16_fits. unfold fits. lia. }
  rewrite !Hu in H by lia. clear Hu.
  apply bind_Ret_inv in H as (p0 & s1 & H0 & H). apply read_calm in H0 as (Ho1 & C1 & P1 & S1 & x0 & X0 & ->); [|done].
  apply bind_Ret_inv in H as (p1 & s2 & H1 & H). apply read_calm in H1 as (Ho2 & C2 & P2 & S2 & x1 & X1 & ->); [|done].
  apply bind_Ret_inv in H as (p2 & s3 & H2 & H). apply read_calm in H2 as (Ho3 & C3 & P3 & S3 & x2 & X2 & ->); [|done].
  apply bind_Ret_inv in H as (p3 & s4 & H3 & H). apply read_calm in H3 as (Ho4 & C4 & P4 & S4 & x3 & X3 & ->); [|done].
  apply mret_Ret_inv in H as [-> ->]. split; [done|]. split; [calm_tac|]. split; [congruence|].
  split; [by etransitivity; [|etransitivity; [|etransitivity]]|].
  intros k Hk. apply (drum_first drum _ _ b) in X0, X1, X2, X3; try lia. rewrite X0, X1, X2, X3.
  rewrite (Hk (trace s)), (Hk (trace s1)), (Hk (trace s2)), (Hk (trace s3)) by calm_tac.
  apply fits_or_parts. rewrite <- (Hk (trace s)) by calm_tac. apply (drum_bank drum).
Qed.

Lemma findBank_calm ready expected banks s b s' :
  Forall (fun b => 0 <= b <= 1) banks -> open s -> findBank ready expected banks s = (Ret (Some b), s') ->
  0 <= b <= 1 /\ has ready (1 .<< b) = true /\ open s' /\ calm (trace s) (trace s') /\ sameSettings s s' /\
  forall k, steady b k (trace s) (trace s') -> first k = expected.
Proof using drum.
  revert s. induction banks as [|b0 banks IH]; intros s F Ho H; cbn [findBank] in H; [by inv_ret H|].
  apply Forall_cons in F as [Hb F]. destruct (Z.eqb_spec (ready .& (1 .<< b0)) 0) as [Hr|Hr]; [by apply IH in H|].
  apply bind_Ret_inv in H as (v & s1 & H1 & H). apply bankFirst_calm in H1 as (Ho1 & C1 & _ & S1 & V1); [|done..].
  destruct (Z.eqb_spec v expected) as [->|Hv].
  - inv_ret H. match goal with He : Some _ = Some _ |- _ => injection He as -> end.
    split_and!; [lia|lia|unfold has; by rewrite (proj2 (Z.eqb_neq _ _) Hr)|done..|].
    intros k Hk. by rewrite (V1 k).
  - apply IH in H as (Hb' & Hr' & Ho' & C' & S' & V'); [|done..]. split; [done|]. split; [done|]. split; [done|]. split; [calm_tac|]. split; [by etransitivity|].
    intros k Hk. apply V'. apply (steady_mid b k (trace s) (trace s1) (trace s') (trace s') Hk); [done|reflexivity].
Qed.

(** ** Its size and the pointer *)

Hypothesis total_size : total = 4096 \/ total = 5120 \/ total = 8192.
(** The buffers are prepared for this image, or not yet. *)
Definition sized (s : capture) : Prop := streamWords s = 0 \/ streamWords s = total.

Lemma prepared_calm s u s' :
  open s -> sized s ->
  (prepared ← gets streamWords; if prepared =? 0 then prepareStreamBuffers else mret tt) s = (Ret u, s') ->
  open s' /\ calm (trace s) (trace s') /\ streamWords s' = total.
Proof using drum total_size.
  intros Ho Hz H. apply bind_Ret_inv in H as (w & s1 & H1 & H). injection H1 as <- <-.
  destruct (Z.eqb_spec (streamWords s) 0) as [H0|H0].
  - unfold prepareStreamBuffers in H. apply bind_Ret_inv in H as (words & s1 & H1 & H).
    apply read_calm in H1 as (Ho1 & C1 & _ & _ & x & Hx & ->); [|done].
    apply bind_Ret_inv in H as (u1 & s2 & H2 & H). apply guard_Ret_inv in H2 as [_ ->]. injection H as _ <-.
    split; [exact Ho1|]. split; [exact C1|]. by apply (drum_size drum) in Hx.
  - apply mret_Ret_inv in H as [_ ->]. split; [done|]. split; [reflexivity|]. by destruct Hz.
Qed.

Lemma drainBlock_calm st b expected s blk base s' :
  0 <= b <= 1 -> open s -> sized s -> drainBlock st b expected s = (Ret (blk, base), s') ->
  open s' /\ calm (trace s) (trace s') /\ base = b * (total / 2) /\ pointer (trace s') = 2 * base /\
  FirstWord blk = expected /\ Bank blk = b /\ 0 <= Words_ blk /\
  forall k, steady b k (trace s) (trace s') -> (LastSingle st .>> b) .& 1 = nwords k mod 2 -> Words_ blk = nwords k.
Proof using drum total_size.
  intros Hb Ho Hz H. unfold drainBlock in H.
  apply bind_Ret_inv in H as (w & s0 & H0 & H). injection H0 as <- <-.
  apply bind_Ret_inv in H as (u & s1 & H1 & H). apply (prepared_calm s) in H1 as (Ho1 & C1 & W1); [|done..].
  assert (u16 (33 + b) = 33 + b) as Hu by (apply u16_fits; unfold fits; lia). rewrite Hu in H.
  apply bind_Ret_inv in H as (count & s2 & H2 & H). apply read_calm in H2 as (Ho2 & C2 & _ & S2 & x & Hx & ->); [|done].
  apply bind_Ret_inv in H as (t & s3 & H3 & H). injection H3 as <- <-.
  assert (streamWords s2 = total) as W2 by (destruct_and! S2; congruence).
  apply bind_Ret_inv in H as (u3 & s3 & H3 & H). apply guard_Ret_inv in H3 as [Hg ->]. cbv zeta in H. rewrite W2 in *.
  assert (0 <= total / 2 <= 4096) as Hhalf by (split; [apply Z.div_pos|apply Z.div_le_upper_bound]; lia).
  assert (total / 4 <= 2048) as Hquarter by (apply Z.div_le_upper_bound; lia).
  assert (0 <= b * (total / 2) <= 4096) as Hbase by nia.
  assert (u16 (b * (total / 2)) = b * (total / 2)) as Hb16 by (apply u16_fits; unfold fits; lia).
  assert (u16 (b * (total / 2) * 2) = 2 * (b * (total / 2))) as Hb17.
  { rewrite u16_fits; [lia|]. unfold fits. lia. }
  rewrite Hb16, Hb17 in H.
  apply bind_Ret_inv in H as (u4 & s4 & H4 & H). apply write_calm in H4 as (Ho4 & C4 & _ & W4 & _); [|done..].
  apply bind_Ret_inv in H as (v5 & s5 & H5 & H). apply read_calm in H5 as (Ho5 & C5 & _ & S5 & _); [|done].
  apply bind_Ret_inv in H as (u6 & s6 & H6 & H). apply write_calm in H6 as (Ho6 & C6 & P6 & W6 & _); [|done..].
  apply bind_Ret_inv in H as (z & s7 & H7 & H). injection H7 as <- <-.
  apply bind_Ret_inv in H as (u8 & s8 & H8 & H). destruct (_ <? _) in H8; [done|]. apply mret_Ret_inv in H8 as [-> ->].
  apply mret_Ret_inv in H as [He ->]. injection He as -> ->. split; [done|]. split; [calm_tac|]. split; [done|].
  split; [exact P6|]. split; [done|]. split; [done|].
  split; [apply Z.mod_pos_bound; lia|]. intros k Hk Hs. cbn [Words_].
  apply (drum_count drum) in Hx; [|done]. rewrite (Hk (trace s1)) in Hx by calm_tac. rewrite Hs, Hx in *.
  assert (0 < nwords k) as Hn by (rewrite <- (Hk (trace s)) by calm_tac; apply (drum_bank drum)).
  pose proof (Z.div_mod (nwords k) 2). pose proof (Z.mod_pos_bound (nwords k) 2).
  assert ((nwords k + 1) / 2 * 2 - nwords k mod 2 = nwords k) as Hw.
  { pose proof (Z.div_mod (nwords k + 1) 2). pose proof (Z.mod_pos_bound (nwords k + 1) 2). lia. }
  rewrite Hw. apply u32_fits. unfold fits. blia.
Qed.

(** ** The pop *)

(** Words from the pointer on are the bank's. *)
Lemma popped h b k off n :
  0 <= b <= 1 -> bankAt h b = k -> pointer h = 2 * (b * (total / 2)) + off -> 0 <= off -> 0 <= n ->
  2 * off + n <= 4 * nwords k ->
  map (fun j => byteOf (buffer h) (2 * pointer h + j)) (seqZ 0 n) =
  map (byteOf (fun i => stream (first k + i))) (seqZ (2 * off) n).
Proof using drum.
  intros Hb Hk Hp H0 Hn Hle. replace (2 * off) with (2 * off + 0) by lia. rewrite seqZ_shift, map_map.
  apply map_ext_in. intros j Hj. apply list_elem_of_In, elem_of_seqZ in Hj. rewrite Hp.
  set (i := (2 * off + j) / 4). set (r := (2 * off + j) mod 4).
  pose proof (Z.div_mod (2 * off + j) 4) as Hd. pose proof (Z.mod_pos_bound (2 * off + j) 4) as Hm. fold i in Hd. fold r in Hd, Hm.
  replace (2 * (2 * (b * (total / 2)) + off) + j) with (4 * (b * (total / 2) + i) + r) by lia.
  replace (2 * off + (0 + j)) with (4 * i + r) by lia. replace (2 * off + j) with (4 * i + r) by lia.
  rewrite !byteOf_word by lia. f_equal. rewrite <- Hk. apply (drum_words drum); [done|rewrite Hk; lia].
Qed.
Lemma fitTo_bytes mem a n : 0 <= n -> fitTo n u8 (map (byteOf mem) (seqZ a n)) = map (byteOf mem) (seqZ a n).
Proof.
  intros Hn. assert (Z.of_nat (length (map (byteOf mem) (seqZ a n))) = n) as Hl by (rewrite length_map, length_seqZ; lia).
  rewrite <- Hl at 1. rewrite fitTo_exact. apply map_id_on_bytes. apply Forall_fmap, Forall_true. intros j.
  unfold compose, byteOf. pose proof (Z.mod_pos_bound j 4). apply fits_bits; lia.
Qed.

Section drain.
Variable pop : history -> Z -> Z -> list Z + err.
Hypothesis dma : env_PopBytes = Some pop.

Lemma popBytesWith_calm n s data s' :
  open s -> popBytesWith pop 25 n s = (Ret data, s') ->
  open s' /\ trace s' = trace s ++ [EvPopBytes 25 n (inl (map (fun j => byteOf (buffer (trace s)) (2 * pointer (trace s) + j)) (seqZ 0 n)))] /\
  data = fitTo n u8 (map (fun j => byteOf (buffer (trace s)) (2 * pointer (trace s) + j)) (seqZ 0 n)) /\
  sameSettings s s'.
Proof using drum dma.
  intros Ho H. unfold popBytesWith in H. inv_ret H. rewrite Q. apply (drum_pop drum pop) in Q; [|done]. subst.
  split; [exact Ho|]. done.
Qed.

Context (id : Z) (k0 : sinkState).
Local Abbreviation sinkOf := (Sinks.sinkOf id k0).
(** A reserver asked for words, before it was given any, hands out the whole
    room, split at a word of the port. *)
Variable h0 : history.
Hypothesis reserves : forall h n a b, quiet h0 h -> 0 <= n ->
  env_Reserve h id (4 * n) = inl (a, b) -> 0 <= a /\ 0 <= b /\ a + b = 4 * n /\ a mod 2 = 0.

Lemma sinkOf_bus s s' e : trace s' = trace s ++ [e] -> busEvent e = true -> sinkOf s' = sinkOf s.
Proof. intros Ht He. unfold Sinks.sinkOf. rewrite Ht, sinkRun_app. by apply sinkStep_bus. Qed.
Lemma emit_calm e s u s' :
  accepted e = [] -> pointerStep (pointer (trace s)) e = pointer (trace s) -> open s -> emit e s = (Ret u, s') ->
  open s' /\ calm (trace s) (trace s') /\ pointer (trace s') = pointer (trace s).
Proof.
  intros He Hp Ho [= _ <-]. split; [exact Ho|]. cbn [trace set_trace]. split; [apply calm_snoc; by rewrite He|].
  by rewrite pointer_snoc.
Qed.

(** The bytes of the words [off / 4] on. *)
Lemma pop_calm b off n s data s' :
  0 <= b <= 1 -> open s -> 0 <= off -> 0 <= n -> pointer (trace s) = 2 * (b * (total / 2)) + off ->
  popBytesWith pop 25 n s = (Ret data, s') ->
  open s' /\ calm (trace s) (trace s') /\ pointer (trace s') = pointer (trace s) + n / 2 /\ sinkOf s' = sinkOf s /\
  forall k, steady b k (trace s) (trace s') -> 2 * off + n <= 4 * nwords k ->
    data = map (byteOf (fun i => stream (first k + i))) (seqZ (2 * off) n).
Proof using drum dma.
  intros Hb Ho H0 Hn Hp H. apply popBytesWith_calm in H as (Ho' & Ht & -> & _); [|done].
  assert (calm (trace s) (trace s')) as Hc by (rewrite Ht; apply calm_snoc; constructor).
  split; [done|]. split; [done|]. split; [by rewrite Ht, pointer_snoc|]. split; [by eapply sinkOf_bus|].
  intros k Hk Hle. rewrite (popped _ b k off) by (try done; by apply Hk). by apply fitTo_bytes.
Qed.

Definition delivered (room : option Z) (data bytes : list Z) (s s' : capture) : Prop :=
  match room with
  | None => data = bytes /\ sinkOf s' = sinkOf s
  | Some _ => sinkOf s' = Sink (got (sinkOf s)) (roomBytes (sinkOf s)) bytes
  end.

(** What the pop leaves: the bytes, or the sink's reserved room filled. *)
Lemma drainPop_calm b n s room data s' :
  0 <= b <= 1 -> 0 <= n -> open s -> pointer (trace s) = 2 * (b * (total / 2)) ->
  room = None \/ room = Some id -> quiet h0 (trace s) -> drainPop room n s = (Ret data, s') ->
  open s' /\ calm (trace s) (trace s') /\
  exists bytes, delivered room data bytes s s' /\
    forall k, steady b k (trace s) (trace s') -> n = nwords k -> bytes = streamBytes (first k) n.
Proof using drum dma reserves.
  intros Hb Hn Ho Hp Hroom Hev H. unfold drainPop in H. rewrite dma in H.
  assert (forall k l, n = nwords k -> l = map (byteOf (fun i => stream (first k + i))) (seqZ 0 (4 * n)) ->
    l = streamBytes (first k) n) as Hstream.
  { intros k l _ ->. unfold streamBytes.
    assert (seqZ (first k) n = map (Z.add (first k)) (seqZ 0 n)) as -> by (rewrite <- seqZ_shift; f_equal; lia).
    rewrite map_map.
    rewrite <- (Z2Nat.id n) by lia. symmetry.
    by apply (wordBytes_byteOf (fun i => stream (first k + i)) (Z.to_nat n) 0). }
  destruct Hroom as [-> | ->].
  - apply (pop_calm b 0) in H as (Ho' & C & _ & Hk & Hd); [|done..|lia|lia|lia]. split; [done|]. split; [done|].
    exists data. split; [done|]. intros k Hs Hw. apply (Hstream k); [done|]. apply (Hd k Hs). lia.
  - apply bind_Ret_inv in H as (h & s1 & H1 & H). injection H1 as <- <-. cbv zeta in H.
    apply bind_Ret_inv in H as (u & s1 & H1 & H). apply emit_calm in H1 as E1; [|done..]. destruct E1 as (Ho1 & C1 & P1).
    apply (sinkOf_emit id k0) in H1 as K1. clear H1.
    apply bind_Ret_inv in H as ([a b'] & s2 & H2 & H). apply lift_Ret_inv in H2 as [Hr ->].
    rewrite Hr in K1. apply reserves in Hr as (Ha & Hb' & Hab & Hm); [|done..]. cbn [fst snd] in H.
    assert (sinkOf s1 = Sink (got (sinkOf s)) (roomBytes (sinkOf s)) []) as K1' by (rewrite K1; cbn; by rewrite Z.eqb_refl).
    clear K1. apply bind_Ret_inv in H as (da & s2 & H2 & H).
    apply (pop_calm b 0) in H2 as (Ho2 & C2 & P2 & K2 & D2); [|done..|lia|lia|lia].
    apply bind_Ret_inv in H as (u3 & s3 & H3 & H). apply emit_calm in H3 as E3; [|done..]. destruct E3 as (Ho3 & C3 & P3).
    apply (sinkOf_emit id k0) in H3 as K3. clear H3.
    assert (sinkOf s3 = Sink (got (sinkOf s)) (roomBytes (sinkOf s)) da) as K3'.
    { rewrite K3. cbn. rewrite Z.eqb_refl. by rewrite K2, K1'. }
    clear K3 K2 K1'. apply bind_Ret_inv in H as (u4 & s4 & H4 & H). apply mret_Ret_inv in H as [-> ->].
    destruct (Z.ltb_spec 0 b') as [Hpos|Hzero].
    + apply bind_Ret_inv in H4 as (db & s5 & H5 & H4). pose proof (Z.div_mod a 2).
      apply (pop_calm b (a / 2)) in H5 as (Ho5 & C5 & _ & K5 & D5); [|done..|apply Z.div_pos; lia|lia|lia].
      apply emit_calm in H4 as E6; [|done..]. destruct E6 as (Ho6 & C6 & _). apply (sinkOf_emit id k0) in H4 as K6.
      split; [done|]. split; [calm_tac|]. exists (da ++ db). split.
      { cbn. rewrite K6. cbn. rewrite Z.eqb_refl. by rewrite K5, K3'. }
      intros k Hs Hw. apply (Hstream k); [done|]. replace (4 * n) with (a + b') by lia. rewrite seqZ_app, map_app by lia.
      f_equal; [apply (D2 k)|rewrite (D5 k)]; try lia; try (eapply steady_mid; [exact Hs|calm_tac|calm_tac]).
      f_equal. f_equal. lia.
    + apply mret_Ret_inv in H4 as [_ ->]. split; [done|]. split; [calm_tac|]. exists da. split; [done|].
      intros k Hs Hw. apply (Hstream k); [done|]. replace (4 * n) with a by lia. apply (D2 k); [|lia].
      eapply steady_mid; [exact Hs|calm_tac|calm_tac].
Qed.

(** ** The drain *)

Lemma drainCheck_calm st blk base s u s' :
  open s -> drainCheck st blk base s = (Ret u, s') ->
  open s' /\ calm (trace s) (trace s') /\ sinkOf s' = sinkOf s /\
  exists h y, env_Read h 32 = inl y /\ calm (trace s) h /\ calm h (trace s') /\
    bankChanged st (Bank blk) (decodeStreamStatus (u16 y)) = false.
Proof.
  intros Ho H. assert (sinkOf s' = sinkOf s) as Hsink.
  { apply (sinkSame_Ret id k0) in H as [? _]; [done|]. unfold drainCheck. bus_steps; apply _. }
  unfold drainCheck in H. apply bind_Ret_inv in H as (i & s1 & H1 & H).
  apply read_calm in H1 as (Ho1 & C1 & _); [|done]. apply bind_Ret_inv in H as (t & s2 & H2 & H). injection H2 as _ <-.
  apply bind_Ret_inv in H as (g & s2 & H2 & H). apply guard_Ret_inv in H2 as [_ ->].
  apply bind_Ret_inv in H as (raw & s2 & H2 & H). apply read_calm in H2 as (Ho2 & C2 & _ & _ & x & Hx & ->); [|done].
  destruct (bankChanged st (Bank blk) (decodeStreamStatus (u16 x))) eqn:Hc.
  - apply bind_Ret_inv in H as (raw & s3 & H3 & H). apply read_calm in H3 as (Ho3 & C3 & _ & _ & y & Hy & ->); [|done].
    apply guard_Ret_inv in H as [Hg ->]. split; [done|]. split; [calm_tac|]. split; [done|].
    exists (trace s2), y. split; [done|]. split; [calm_tac|]. by split; [calm_tac|].
  - apply mret_Ret_inv in H as [_ ->]. split; [done|]. split; [calm_tac|]. split; [done|].
    exists (trace s1), x. split; [done|]. split; [calm_tac|]. by split; [calm_tac|].
Qed.

(** The sink has the bytes once they are written or committed. *)
Lemma commit_calm dst n data bytes s0 s u s' :
  sinkId dst = id -> open s -> 0 <= n -> Z.of_nat (length bytes) = 4 * n ->
  delivered (reserverOf dst) data bytes s0 s ->
  (match reserverOf dst with
   | Some id => emit (EvCommit id (4 * n))
   | None => writeAll dst data;; mret tt
   end) s = (Ret u, s') ->
  open s' /\ calm (trace s) (trace s') /\ got (sinkOf s') = got (sinkOf s0) ++ bytes.
Proof using dma.
  intros Hid Ho Hn Hl Hd H. unfold reserverOf in *. rewrite dma in *.
  assert (delivered None data bytes s0 s -> (writeAll dst data;; mret tt) s = (Ret u, s') ->
    open s' /\ calm (trace s) (trace s') /\ got (sinkOf s') = got (sinkOf s0) ++ bytes) as Hplain.
  { intros [-> Hk] Hw. apply bind_Ret_inv in Hw as (k & s1 & H1 & Hw). apply mret_Ret_inv in Hw as [_ ->].
    pose proof (steps_writeAll keepsOpen dst bytes s) as Hs. rewrite H1 in Hs. split; [by apply Hs|].
    apply (writeAll_sink id k0) in H1 as (_ & Hk1 & Ht); [|done]. split; [rewrite Ht; apply calm_snoc; constructor|].
    unfold Sinks.sinkOf in *. by rewrite Hk1, Hk. }
  destruct dst as [i|]; [|by apply Hplain]. destruct (env_SinkIsReserver i); [|by apply Hplain].
  simpl in Hid. subst i. apply emit_calm in H as E1; [|done..]. destruct E1 as (Ho1 & C1 & _).
  apply (sinkOf_emit id k0) in H. split; [done|]. split; [done|]. unfold delivered in Hd. rewrite H, Hd. cbn.
  rewrite Z.eqb_refl. cbn. f_equal. apply take_ge. lia.
Qed.

Lemma length_streamBytes a n : 0 <= n -> Z.of_nat (length (streamBytes a n)) = 4 * n.
Proof. intros Hn. unfold streamBytes. rewrite length_wordBytes, length_map, length_seqZ. lia. Qed.

(** The bank that reads ready and unchanged is the same all along. *)
Lemma held_steady h hy x y b :
  0 <= b <= 1 -> env_Read h 32 = inl x -> env_Read hy 32 = inl y -> calm h hy ->
  has (Ready_ (decodeStreamStatus (u16 x))) (1 .<< b) = true ->
  bankChanged (decodeStreamStatus (u16 x)) b (decodeStreamStatus (u16 y)) = false ->
  steady b (bankAt h b) h hy.
Proof using drum.
  intros Hb Hx Hy (l & -> & Hl) Hr Hc h1 (l1 & -> & _) (l2 & Ht & _). rewrite <- app_assoc in Ht.
  apply app_inv_head in Ht. by apply (drum_holds drum h l x y b Hb Hx Hy Hl Hr Hc l1 l2).
Qed.

Lemma DrainStream_got c expected dst s blk s' :
  sinkId dst = id -> open s -> sized s -> quiet h0 (trace s) ->
  DrainStream c expected dst s = (Ret blk, s') ->
  FirstWord blk = expected /\ 0 < Words_ blk /\
  got (sinkOf s') = got (sinkOf s) ++ streamBytes expected (Words_ blk) /\
  open s' /\ exists h tok, calm (trace s) h /\ trace s' = h ++ [EvWrite 20 (Bank blk .| (tok .<< 1)) None].
Proof using drum dma reserves total_size.
  intros Hid Ho Hz Hev H. unfold DrainStream in H.
  apply bind_Ret_inv in H as (u0 & s0 & H0 & H).
  assert (s0 = s) as -> by (unfold checkCtx, ctxErr in H0; inv_ret H0; done). clear H0.
  apply bind_Ret_inv in H as (rev & s1 & H1 & H). apply read_calm in H1 as R1; [|done].
  apply (sinkSame_Ret id k0) in H1 as (K1 & _ & V1); [|apply steps_read, _].
  destruct R1 as (Ho1 & C1 & _ & S1 & _). apply bind_Ret_inv in H as (u1 & s2 & H2 & H). apply guard_Ret_inv in H2 as [_ ->].
  apply bind_Ret_inv in H as (raw & s2 & H2 & H). apply read_calm in H2 as R2; [|done].
  apply (sinkSame_Ret id k0) in H2 as (K2 & _ & V2); [|apply steps_read, _].
  destruct R2 as (Ho2 & C2 & _ & S2 & x & Hx & ->). cbv zeta in H. set (st := decodeStreamStatus (u16 x)) in *.
  apply bind_Ret_inv in H as (u3 & s3 & H3 & H).
  assert (s3 = set_streamBacklog (Backlog st) s2) as E3 by by injection H3. clear H3.
  assert (open s3 /\ trace s3 = trace s2 /\ sinkOf s3 = sinkOf s) as (Ho3 & T3 & K3).
  { rewrite E3. split; [exact Ho2|]. split; [done|]. change (sinkOf (set_streamBacklog ?b ?s)) with (sinkOf s). congruence. }
  assert (sized s3) as Hz3.
  { rewrite E3. unfold sized in *. change (streamWords (set_streamBacklog ?b ?s)) with (streamWords s).
    by rewrite (sameSettings_words _ _ S2), (sameSettings_words _ _ S1). }
  assert (quiet h0 (trace s3)) as V3 by (rewrite T3; etransitivity; [etransitivity; [exact Hev|exact V1]|exact V2]).
  assert (calm (trace s1) (trace s3)) as C3 by by rewrite T3. clear C2 T3 E3.
  repeat (apply bind_Ret_inv in H as (? & ? & Hg & H); apply guard_Ret_inv in Hg as [_ ->]).
  apply bind_Ret_inv in H as ([b|] & s4 & H4 & H); [|discriminate H].
  apply (sinkSame_Ret id k0) in H4 as K4.
  2: { generalize [0; 1]. intros l. induction l as [|y l IH]; cbn [findBank]; unfold bankFirst; bus_steps; apply _. }
  apply findBank_calm in H4 as (Hb & Hr & Ho4 & C4 & S4 & F4); [|repeat constructor; lia|done].
  destruct K4 as (K4 & _ & V4). assert (sized s4) as Hz4.
  { unfold sized in *. by rewrite (sameSettings_words _ _ S4). }
  apply bind_Ret_inv in H as ([blk' base] & s5 & H5 & H).
  apply (sinkSame_Ret id k0) in H5 as K5.
  2: { unfold drainBlock, prepareStreamBuffers. bus_steps; try apply _. by intros s6. }
  apply drainBlock_calm in H5 as (Ho5 & C5 & -> & P5 & Hf & Hbk & Hw0 & F5); [|done..]. destruct K5 as (K5 & _ & V5).
  cbv zeta in H. cbn [fst snd] in H.
  apply bind_Ret_inv in H as (data & s6 & H6 & H).
  assert (reserverOf dst = None \/ reserverOf dst = Some id) as Hroom.
  { unfold reserverOf. destruct dst; [|auto]. rewrite dma. destruct (env_SinkIsReserver _); [|auto]. right. by simpl in Hid; subst. }
  apply (drainPop_calm b) in H6 as (Ho6 & C6 & bytes & D6 & V6); [|done..|etransitivity; [etransitivity; [exact V3|exact V4]|exact V5]].
  apply bind_Ret_inv in H as (u7 & s7 & H7 & H).
  apply drainCheck_calm in H7 as (Ho7 & C7 & K7 & h & y & Hy & C7a & C7b & Hc); [|done].
  apply bind_Ret_inv in H as (u8 & s8 & H8 & H).
  assert (s8 = s7) as -> by (unfold checkCtx, ctxErr in H8; inv_ret H8; done). clear H8.
  rewrite Hbk in Hc.
  assert (calm (trace s1) h) as C by calm_tac.
  pose proof (held_steady _ _ _ _ _ Hb Hx Hy C Hr Hc) as Hsteady. clear C. set (k := bankAt (trace s1) b) in *.
  assert (first k = expected) as Hfk by (apply F4; eapply steady_mid; [exact Hsteady|calm_tac|calm_tac]).
  assert (Words_ blk' = nwords k) as Hwk.
  { apply F5; [eapply steady_mid; [exact Hsteady|calm_tac|calm_tac]|]. exact (drum_single drum _ x b Hb Hx). }
  assert (bytes = streamBytes expected (Words_ blk')) as Hbytes.
  { rewrite <- Hfk. apply V6; [eapply steady_mid; [exact Hsteady|calm_tac|calm_tac]|done]. }
  apply bind_Ret_inv in H as (u9 & s9 & H9 & H). subst bytes.
  apply (commit_calm dst (Words_ blk') data (streamBytes expected (Words_ blk')) s5) in H9 as (Ho9 & C9 & G9);
    [|done|done|done|by apply length_streamBytes|].
  2: { unfold delivered in *. destruct (reserverOf dst); [by rewrite K7|]. by rewrite K7. }
  apply bind_Ret_inv in H as (u10 & s10 & H10 & H). apply write_open in H10 as [Ho10 T10]; [|done].
  apply mret_Ret_inv in H as [-> ->]. split; [done|]. split; [rewrite Hwk; apply (drum_bank drum)|].
  split; [|split; [done|]].
  - change (sinkOf s10) with (sinkOf s10). unfold Sinks.sinkOf at 1. rewrite T10, sinkRun_app. cbn.
    change (sinkRun id k0 (trace s9)) with (sinkOf s9). by rewrite G9, K5, K4, K3.
  - exists (trace s9), ((Tokens st .>> b) .& 1). split; [calm_tac|]. rewrite T10, Hbk. done.
Qed.

(** The buffers' size stays the register's, whatever the drain's outcome. *)
Definition keepsSized (s s' : capture) : Prop := open s /\ sized s -> open s' /\ sized s'.
#[local] Instance keepsSized_busStep : BusStep keepsSized.
Proof using.
  split; [split; [by intros s H|]|..].
  - intros s1 s2 s3 H1 H2 H. by apply H2, H1.
  - intros e s _ H. exact H.
  - intros l s Hl [Ho Hz]. split; [|exact Hz]. by apply (bus_pending (R := keepsOpen) l s Hl).
  - intros n s H. exact H.
Qed.
Lemma keepsSized_same (f : capture -> capture) :
  (forall s, open (f s) = open s) -> (forall s, streamWords (f s) = streamWords s) -> steps keepsSized (modify f).
Proof using. intros H1 H2 s [Ho Hz]. cbn. unfold sized. by rewrite H1, H2. Qed.
Lemma keepsSized_prepare : steps keepsSized prepareStreamBuffers.
Proof using drum.
  intros s [Ho Hz]. destruct (prepareStreamBuffers s) as [o s'] eqn:H. cbn [snd].
  unfold prepareStreamBuffers, mbind, SE_bind in H. pose proof (steps_read keepsSized 26 s (conj Ho Hz)) as Hs.
  destruct (read 26 s) as [[w|e| |] s1] eqn:Hr; try (injection H as <- <-; exact Hs).
  apply (read_open 26) in Hr as (Ho1 & x & Hx & -> & _); [|done]. apply (drum_size drum) in Hx. rewrite Hx in H.
  unfold guard in H. destruct (_ && _); injection H as <- <-; [exact Hs|]. split; [exact Ho1|]. by right.
Qed.
Lemma DrainStream_sized c expected dst : steps keepsSized (DrainStream c expected dst).
Proof using drum dma.
  pose proof keepsSized_prepare as Hprep.
  assert (forall e, steps keepsSized (emit e)) as Hemit by (intros e; by apply keepsSized_same).
  assert (forall ready banks, steps keepsSized (findBank ready expected banks)) as Hfind.
  { intros ready banks. induction banks as [|b banks IH]; cbn [findBank]; unfold bankFirst; bus_steps; apply _. }
  assert (forall n f, steps keepsSized (popBytesWith f 25 n) /\ steps keepsSized (popWordsWith f 25 n)) as Hpop
    by (intros n f; unfold popBytesWith, popWordsWith; split; bus_steps; apply _).
  unfold DrainStream, drainBlock, drainPop, drainCheck, writeAll, sinkWrite.
  bus_steps; try apply Hpop; try apply Hemit; try (by apply keepsSized_same); try apply _.
Qed.

End drain.
End drum.

(** ** A drain that fails *)

Definition released (h : history) : list (Z * Z) := List.filter releases (writesOf h).
Lemma released_snoc h e : released (h ++ [e]) = released h ++ List.filter releases (accepted e).
Proof. unfold released. by rewrite writesOf_app, writesOf_one, List.filter_app. Qed.

(** The state stays open and no release is accepted. *)
Definition keepsBank (s s' : capture) : Prop := open s -> open s' /\ released (trace s') = released (trace s).
#[export] Instance keepsBank_preorder : PreOrder keepsBank.
Proof.
  split; [by intros s H|]. intros s1 s2 s3 H1 H2 H. destruct (H1 H) as [O1 R1]. destruct (H2 O1) as [O2 R2].
  split; [done|congruence].
Qed.

Section keeping.
Context {E : Env}.

Lemma keepsBank_emit e : List.filter releases (accepted e) = [] -> steps keepsBank (emit e).
Proof. intros He s Ho. split; [exact Ho|]. cbn [emit modify snd trace set_trace]. by rewrite released_snoc, He, app_nil_r. Qed.
Lemma keepsBank_modify f : (forall s, open s -> open (f s)) -> (forall s, trace (f s) = trace s) -> steps keepsBank (modify f).
Proof. intros H1 H2 s Ho. split; [by apply H1|]. cbn. by rewrite H2. Qed.
Lemma keepsBank_busRead sel : steps keepsBank (busRead sel).
Proof. unfold busRead. steps_tac. by apply keepsBank_emit. Qed.
Lemma keepsBank_read sel : steps keepsBank (read sel).
Proof.
  intros s Ho. pose proof Ho as [[Ha Hp] Hq]. revert Ho. rewrite read_uncached by done.
  rewrite (bind_Ret flushWrites _ s tt s) by (by apply flushWrites_settled).
  apply steps_bind; [apply _|apply keepsBank_busRead|intros v]. apply steps_bind; [apply _| |intros u; apply steps_ret, _].
  by apply keepsBank_modify.
Qed.
Lemma keepsBank_write sel v : sel <> 20 -> steps keepsBank (write sel v).
Proof.
  intros Hs s Ho. pose proof Ho as [_ Hq]. revert Ho. unfold write. rewrite (bind_Ret _ _ s (queueWrites s) s) by done.
  rewrite Hq. unfold busWrite. apply steps_bind; [apply _|apply steps_gets, _|intros h].
  cbv zeta. apply steps_bind; [apply _| |intros u; apply steps_liftErr, _]. apply keepsBank_emit. cbn.
  destruct (env_RawWrite _ _ _); [done|]. cbn. unfold releases. by rewrite (proj2 (Z.eqb_neq _ _)) by done.
Qed.
Lemma keepsBank_readN n sel : steps keepsBank (readN n sel).
Proof. induction n as [|n IH]; cbn [readN]; steps_tac. apply keepsBank_read. Qed.
Lemma keepsBank_pop sel n f : steps keepsBank (popBytesWith f sel n) /\ steps keepsBank (popWordsWith f sel n).
Proof. unfold popBytesWith, popWordsWith. split; steps_tac; by apply keepsBank_emit. Qed.
Lemma keepsBank_writeAll dst data : steps keepsBank (writeAll dst data).
Proof.
  unfold writeAll, sinkWrite. steps_tac; try by apply keepsBank_emit. by apply keepsBank_modify.
Qed.

(** The drain up to its release. *)
Definition untilRelease {A} (m : M A) : Prop := forall s e s', open s -> m s = (Fail e, s') -> released (trace s') = released (trace s).
Lemma until_steps {A} (m : M A) : steps keepsBank m -> untilRelease m.
Proof. intros Hm s e s' Ho H. specialize (Hm s Ho). rewrite H in Hm. apply Hm. Qed.
Lemma until_bind {A B} (m : M A) (f : A -> M B) :
  steps keepsBank m -> (forall a, untilRelease (f a)) -> untilRelease (m ≫= f).
Proof.
  intros Hm Hf s e s' Ho H. specialize (Hm s Ho). unfold mbind, SE_bind in H.
  destruct (m s) as [[a|x| |] s1]; try discriminate H; destruct Hm as [Ho1 R1]; cbn [snd] in *.
  - rewrite <- R1. by eapply Hf.
  - injection H as _ <-. done.
Qed.
Lemma until_release v {A} (a : A) : untilRelease (write 20 v;; mret a).
Proof.
  intros s e s' Ho H. pose proof Ho as [_ Hq]. unfold mbind, SE_bind in H. unfold write in H.
  rewrite (bind_Ret _ _ s (queueWrites s) s) in H by done. rewrite Hq in H.
  unfold busWrite, gets, emit, modify, mbind, SE_bind in H. cbn in H.
  destruct (env_RawWrite (trace s) 20 v) as [x|] eqn:Hw; cbn in H; [|discriminate H]. injection H as _ <-.
  cbn [trace set_trace]. by rewrite released_snoc, app_nil_r.
Qed.

Lemma keepsBank_drainBlock st b expected : steps keepsBank (drainBlock st b expected).
Proof.
  pose proof keepsBank_read. pose proof (fun v => keepsBank_write 16 v ltac:(done)). pose proof (fun v => keepsBank_write 17 v ltac:(done)).
  unfold drainBlock, prepareStreamBuffers. steps_tac. by apply keepsBank_modify.
Qed.
Lemma keepsBank_drainPop reserved n : steps keepsBank (drainPop reserved n).
Proof.
  pose proof keepsBank_readN. pose proof (fun n f => proj1 (keepsBank_pop 25 n f)). pose proof (fun n f => proj2 (keepsBank_pop 25 n f)).
  unfold drainPop. steps_tac; by apply keepsBank_emit.
Qed.
Lemma keepsBank_find ready expected banks : steps keepsBank (findBank ready expected banks).
Proof. pose proof keepsBank_read. induction banks as [|b banks IH]; cbn [findBank]; unfold bankFirst; steps_tac. Qed.

(** a drain that fails, wherever it fails (an overrun, a missing word, a
    short buffer, a DMA error, a bank that changed, a sink that refuses, or
    the release write itself), has released no bank: the fabric still holds
    the words for the host. *)
Theorem DrainStream_fails_held c expected dst s e s' :
  open s -> DrainStream c expected dst s = (Fail e, s') -> released (trace s') = released (trace s).
Proof.
  assert (untilRelease (DrainStream c expected dst)) as H; [|by eauto].
  pose proof keepsBank_read. pose proof keepsBank_drainBlock. pose proof keepsBank_drainPop. pose proof keepsBank_find.
  pose proof keepsBank_writeAll.
  unfold DrainStream, drainCheck, checkCtx, ctxErr.
  repeat (apply until_bind; [steps_tac; try (by apply keepsBank_emit); by apply keepsBank_modify|intros ?]).
  match goal with |- untilRelease (match ?x with _ => _ end) => destruct x end; [|by apply until_steps, steps_fail, _].
  repeat (apply until_bind; [steps_tac; try (by apply keepsBank_emit); by apply keepsBank_modify|intros ?]).
  apply until_release.
Qed.
End keeping.
