(* ===== verification/WorkerRing.v ===== *)
(** * The acquisition worker's stream ring

    src/app/internal/bus/worker_server_linux.go and stream_ring_linux.go: the
    byte ring the worker drains stream banks into (streamRingWriter: Write,
    Reserve, Commit) and the app reads in place or through replies. As a queue
    of bytes, and as the sink a drain fills. *)
From S2P Require Import Prelude Circular Machine Fabric Bus BusSteps Command Status Open Recall RecallSteps Sinks Stream.

(** The stream fields of acquisitionWorker. *)
Record streamRing := StreamRing {
  sOn : bool;
  sExpected : Z (* next ordinal to drain *);
  sHead : Z; sCount : Z (* bytes *);
  sFirst : Z (* ordinal of the word at sHead *);
  sFault : option err;
  sring : list Z (* empty: not made yet *);
  sShared : bool (* sring is the ring shared with the app *)
}.
Definition set_content (ring : list Z) (n : Z) (r : streamRing) : streamRing :=
  StreamRing (sOn r) (sExpected r) (sHead r) n (sFirst r) (sFault r) ring (sShared r).
Definition set_taken (h n f : Z) (r : streamRing) : streamRing :=
  StreamRing (sOn r) (sExpected r) h n f (sFault r) (sring r) (sShared r).
Definition set_sExpected (x : Z) (r : streamRing) : streamRing :=
  StreamRing (sOn r) x (sHead r) (sCount r) (sFirst r) (sFault r) (sring r) (sShared r).
Definition set_sFault (x : err) (r : streamRing) : streamRing :=
  StreamRing (sOn r) (sExpected r) (sHead r) (sCount r) (sFirst r) (Some x) (sring r) (sShared r).

Definition workerStreamBytes : Z := 8 .<< 20.
Definition errRingOverflow : err := EMsg "isolated stream ring overflow; words lost" [].
Definition ringLen (r : streamRing) : Z := Z.of_nat (length (sring r)).

(** ** streamRingWriter *)

(** Write's loop: a piece up to the ring's end, then the rest; [n] bounds the pieces. *)
Fixpoint writeLoop (n : nat) (b : list Z) (r : streamRing) : option streamRing :=
  match b with
  | [] => Some r
  | _ =>
      match n with
      | O => None
      | S n =>
          let at_ := (sHead r + sCount r) mod ringLen r in
          let k := Z.min (Z.min (ringLen r) (at_ + Z.of_nat (length b)) - at_) (Z.of_nat (length b)) in
          let piece := take (Z.to_nat k) b in
          writeLoop n (drop (Z.to_nat k) b) (set_content (copyAt (Z.to_nat at_) piece (sring r)) (sCount r + k) r)
      end
  end.
(** None: the pieces ran out. *)
Definition ringWrite (b : list Z) (r : streamRing) : option (streamRing + err) :=
  if ringLen r <? sCount r + Z.of_nat (length b) then Some (inr errRingOverflow)
  else inl <$> writeLoop (length b) b r.

(** The lengths of the two pieces of room for [n] bytes. *)
Definition Reserve (n : Z) (r : streamRing) : Z * Z + err :=
  if ringLen r <? sCount r + n then inr errRingOverflow
  else
    let at_ := (sHead r + sCount r) mod ringLen r in
    let a := Z.min (ringLen r) (at_ + n) - at_ in
    inl (a, n - a).
Definition Commit (n : Z) (r : streamRing) : streamRing := set_content (sring r) (sCount r + n) r.

(** ** The ring as a drain's sink

    While DrainStream runs, its sink events change the ring: the words of a
    reservation land where it was made, a write is Write's, a commit Commit's. *)
Definition ringSink : Z := 0.
Record filling := Filling { ringNow : streamRing; cursor : Z (* where the reservation's next bytes go *) }.
Definition ringStep (f : filling) (e : event) : filling :=
  let r := ringNow f in
  match e with
  | EvReserve id _ (inl _) =>
      if id =? ringSink then Filling r ((sHead r + sCount r) mod ringLen r) else f
  | EvReservedPut id data =>
      if id =? ringSink then
        Filling (set_content (copyAt (Z.to_nat (cursor f)) data (sring r)) (sCount r) r)
          ((cursor f + Z.of_nat (length data)) mod ringLen r)
      else f
  | EvCommit id n => if id =? ringSink then Filling (Commit n r) (cursor f) else f
  | EvSink id data (_, None) =>
      if id =? ringSink then
        match ringWrite data r with Some (inl r) => Filling r (cursor f) | _ => f end
      else f
  | _ => f
  end.
Definition fillingAfter (r : streamRing) (l : history) : filling := fold_left ringStep l (Filling r 0).
Definition ringAfter (r : streamRing) (l : history) : streamRing := ringNow (fillingAfter r l).

(** The environment of a drain that starts with the ring [r] after [h0]
    events: the worker's bus, and the ring as the sink [ringSink]. *)
Definition drainEnv (E : Env) (r : streamRing) (h0 : nat) : Env := {|
  env_Read := @env_Read E; env_RawWrite := @env_RawWrite E; env_RawWriteMany := @env_RawWriteMany E;
  env_ReadMany := @env_ReadMany E; env_PopBytes := @env_PopBytes E; env_PopWords := @env_PopWords E;
  env_RecallIsolated := @env_RecallIsolated E; env_PanelIsolated := @env_PanelIsolated E;
  env_EventsIsolated := @env_EventsIsolated E; env_StackIsolated := @env_StackIsolated E;
  env_LineMode := @env_LineMode E; env_Lines := @env_Lines E;
  env_SinkWrite := fun h id data =>
    if id =? ringSink then
      match ringWrite data (ringAfter r (drop h0 h)) with
      | Some (inl _) => (Z.of_nat (length data), None)
      | Some (inr e) => (0, Some e)
      | None => (0, None)
      end
    else @env_SinkWrite E h id data;
  env_SinkIsRoom := fun id => if id =? ringSink then false else @env_SinkIsRoom E id;
  env_Room := @env_Room E;
  env_SinkIsReserver := fun id => if id =? ringSink then true else @env_SinkIsReserver E id;
  env_Reserve := fun h id n =>
    if id =? ringSink then Reserve n (ringAfter r (drop h0 h)) else @env_Reserve E h id n;
  env_Now := @env_Now E; env_Done := @env_Done E
|}.

(** ** What the app reads *)

(** A reply's words, copied out piece by piece: [amount] bytes. *)
Fixpoint takeLoop (n : nat) (amount : Z) (r : streamRing) : option (list Z * streamRing) :=
  if amount <=? 0 then Some ([], r)
  else
    match n with
    | O => None
    | S n =>
        let k := Z.min amount (Z.min (ringLen r) (sHead r + amount) - sHead r) in
        let piece := slice (Z.to_nat (sHead r)) (Z.to_nat k) (sring r) in
        match takeLoop n (amount - k) (set_taken ((sHead r + k) mod ringLen r) (sCount r) (sFirst r) r) with
        | Some (rest, r) => Some (piece ++ rest, r)
        | None => None
        end
    end.

(** workerStreamWords: the first ordinal and the words of a reply of [count] bytes. *)
Definition takeWords (count : Z) (r : streamRing) : option (Z * list Z * streamRing) :=
  let amount := Z.ldiff (Z.min (count - 8) (sCount r)) 3 in
  match takeLoop (Z.to_nat amount) amount r with
  | Some (bytes, r') =>
      Some (sFirst r, bytes, set_taken (sHead r') (sCount r' - amount) (u64 (sFirst r' + amount / 4)) r')
  | None => None
  end.

Definition ErrNoSharedRing : err := EMsg "bus: no shared stream ring" [].

(** streamPeek: the ready words' ordinal, offset and bytes, or the error; the
    released bytes are given back first. *)
Definition streamPeek (release : Z) (r : streamRing) : (Z * Z * Z + err) * streamRing :=
  if negb (sOn r) || negb (sShared r) then (inr ErrNoSharedRing, r)
  else if (sCount r <? int32 release) || negb (release mod 4 =? 0) then
    (inr (EMsg "invalid stream release %d of %d" [release; sCount r]), r)
  else
    let r := set_taken (Z.rem (sHead r + int32 release) (ringLen r)) (sCount r - int32 release)
               (u64 (sFirst r + release / 4)) r in
    match sFault r with
    | Some e => (inr e, r)
    | None => (inl (sFirst r, u32 (sHead r), u32 (sCount r)), r)
    end.

(** The app's two pieces of a peek (PeekIsolatedStream), from the shared ring. *)
Definition peekPieces (ring : list Z) (at_ count : Z) : (list Z * list Z) + err :=
  let len := Z.of_nat (length ring) in
  if (len <=? at_) || (len <? count) then inr (EMsg "bus: worker peek out of the ring (%d+%d)" [at_; count])
  else
    let a := slice (Z.to_nat at_) (Z.to_nat (Z.min len (at_ + count) - at_)) ring in
    inl (a, take (Z.to_nat (count - Z.of_nat (length a))) ring).

(** ** The ring as a queue of bytes *)

Definition ringBytes (r : streamRing) : list Z := circ (sring r) (Z.to_nat (sHead r)) (Z.to_nat (sCount r)).
Definition wfStream (r : streamRing) : Prop := 0 <= sHead r < ringLen r /\ 0 <= sCount r <= ringLen r.
(** What reading and filling leave alone. *)
Definition kept (r : streamRing) := (sOn r, sExpected r, sFault r, ringLen r, sShared r).

Lemma length_ringBytes r : wfStream r -> Z.of_nat (length (ringBytes r)) = sCount r.
Proof. unfold wfStream, ringLen, ringBytes. intros H. rewrite length_circ; lia. Qed.

(** Where the next byte goes, as a cell of the ring. *)
Lemma ring_at r : wfStream r ->
  Z.to_nat ((sHead r + sCount r) mod ringLen r) = ((Z.to_nat (sHead r) + Z.to_nat (sCount r)) `mod` length (sring r))%nat.
Proof.
  unfold wfStream, ringLen. intros H. rewrite <- (Nat2Z.id (_ `mod` _)), Nat2Z.inj_mod. do 2 f_equal. lia.
Qed.

(** A piece that does not pass the ring's end, put behind the content. *)
Lemma ring_put r d :
  wfStream r -> sCount r + Z.of_nat (length d) <= ringLen r ->
  (sHead r + sCount r) mod ringLen r + Z.of_nat (length d) <= ringLen r ->
  let r' := set_content (copyAt (Z.to_nat ((sHead r + sCount r) mod ringLen r)) d (sring r))
              (sCount r + Z.of_nat (length d)) r in
  wfStream r' /\ ringBytes r' = ringBytes r ++ d /\ kept r' = kept r.
Proof.
  intros Hw Hn Ha. cbv zeta. pose proof (ring_at r Hw) as Hat. unfold wfStream, ringLen, ringBytes, kept in *.
  pose proof (Z.mod_pos_bound (sHead r + sCount r) (Z.of_nat (length (sring r)))) as Hm.
  cbn [sHead sCount sring set_content]. assert (length (copyAt (Z.to_nat ((sHead r + sCount r) mod Z.of_nat (length (sring r)))) d (sring r)) = length (sring r)) as Hl
    by (apply length_copyAt; lia).
  unfold ringLen. cbn [sHead sCount sring set_content]. rewrite Hl. split; [lia|]. split; [|done].
  rewrite Hat. replace (Z.to_nat (sCount r + Z.of_nat (length d))) with (Z.to_nat (sCount r) + length d)%nat by lia.
  apply circ_put; [lia|lia|]. rewrite <- Hat. lia.
Qed.

Lemma writeLoop_spec n b r :
  wfStream r -> sCount r + Z.of_nat (length b) <= ringLen r -> (length b <= n)%nat ->
  exists r', writeLoop n b r = Some r' /\ wfStream r' /\ ringBytes r' = ringBytes r ++ b /\
    sCount r' = sCount r + Z.of_nat (length b) /\ sHead r' = sHead r /\ sFirst r' = sFirst r /\ kept r' = kept r.
Proof.
  revert b r. induction n as [|n IH]; intros b r Hw Hc Hn.
  { destruct b; [|simpl in Hn; lia]. exists r. cbn. rewrite app_nil_r. split_and!; (done || lia || apply Hw). }
  destruct b as [|x b0] eqn:Hb.
  { exists r. cbn. rewrite app_nil_r. split_and!; (done || lia || apply Hw). }
  rewrite <- Hb in *. assert (0 < length b)%nat as Hpos by (rewrite Hb; simpl; lia).
  replace (writeLoop (S n) b r) with
    (let at_ := (sHead r + sCount r) mod ringLen r in
     let k := Z.min (Z.min (ringLen r) (at_ + Z.of_nat (length b)) - at_) (Z.of_nat (length b)) in
     let piece := take (Z.to_nat k) b in
     writeLoop n (drop (Z.to_nat k) b) (set_content (copyAt (Z.to_nat at_) piece (sring r)) (sCount r + k) r))
    by (rewrite Hb; reflexivity).
  clear Hb x b0. cbv zeta. set (at_ := (sHead r + sCount r) mod ringLen r). set (k := Z.min _ (Z.of_nat (length b))).
  pose proof (Z.mod_pos_bound (sHead r + sCount r) (ringLen r)) as Hm. fold at_ in Hm. pose proof Hw as [Hh Hcn].
  assert (0 < k <= Z.of_nat (length b) /\ at_ + k <= ringLen r) as Hk by (subst k; lia).
  assert (Z.of_nat (length (take (Z.to_nat k) b)) = k) as Hlt by (rewrite length_take; lia).
  destruct (ring_put r (take (Z.to_nat k) b) Hw) as (W1 & B1 & K1); [lia|fold at_; lia|]. fold at_ in W1, B1, K1. rewrite Hlt in *.
  destruct (IH (drop (Z.to_nat k) b) _ W1) as (r' & R & W & B & C & Hd & F & K).
  - cbn [sCount set_content]. rewrite length_drop. assert (ringLen (set_content (copyAt (Z.to_nat at_) (take (Z.to_nat k) b) (sring r)) (sCount r + k) r) = ringLen r) by by injection K1. lia.
  - rewrite length_drop. lia.
  - exists r'. split; [done|]. split; [done|]. split.
    { rewrite B, B1, <- app_assoc. by rewrite take_drop. }
    rewrite C, Hd, F, K, K1. cbn [sCount sHead sFirst set_content]. rewrite length_drop. split_and!; (done || lia).
Qed.

(** Write appends, or refuses what does not fit. *)
Lemma ringWrite_spec b r :
  wfStream r ->
  (ringLen r < sCount r + Z.of_nat (length b) /\ ringWrite b r = Some (inr errRingOverflow)) \/
  (exists r', ringWrite b r = Some (inl r') /\ wfStream r' /\ ringBytes r' = ringBytes r ++ b /\
    sCount r' = sCount r + Z.of_nat (length b) /\ sHead r' = sHead r /\ sFirst r' = sFirst r /\ kept r' = kept r).
Proof.
  intros Hw. unfold ringWrite. destruct (Z.ltb_spec (ringLen r) (sCount r + Z.of_nat (length b))); [by left|right].
  destruct (writeLoop_spec (length b) b r) as (r' & -> & D); [done|lia|lia|]. by exists r'.
Qed.

(** Taking a run of bytes off the front. *)
Lemma ring_take r k :
  wfStream r -> 0 <= k <= sCount r ->
  let r' := set_taken ((sHead r + k) mod ringLen r) (sCount r - k) (sFirst r) r in
  wfStream r' /\ ringBytes r' = drop (Z.to_nat k) (ringBytes r).
Proof.
  unfold wfStream, ringLen, ringBytes. intros [Hh Hc] Hk. cbn [sHead sCount sring set_taken].
  pose proof (Z.mod_pos_bound (sHead r + k) (Z.of_nat (length (sring r)))) as Hm. split; [cbn; lia|].
  assert (Z.to_nat ((sHead r + k) mod Z.of_nat (length (sring r))) = ((Z.to_nat (sHead r) + Z.to_nat k) `mod` length (sring r))%nat) as ->.
  { rewrite <- (Nat2Z.id (_ `mod` _)), Nat2Z.inj_mod. do 2 f_equal. lia. }
  replace (Z.to_nat (sCount r - k)) with (Z.to_nat (sCount r) - Z.to_nat k)%nat by lia. apply circ_drop; lia.
Qed.

(** The copy's head moves while its count waits for the end: the bytes, and
    where the head ends up. *)
Lemma takeLoop_spec n amount r :
  wfStream r -> 0 <= amount <= sCount r -> amount <= Z.of_nat n ->
  takeLoop n amount r = Some (take (Z.to_nat amount) (ringBytes r),
                              set_taken ((sHead r + amount) mod ringLen r) (sCount r) (sFirst r) r).
Proof.
  revert amount r. induction n as [|n IH]; intros amount r Hw Ha Hn; pose proof Hw as [Hh Hc]; cbn [takeLoop].
  - rewrite (proj2 (Z.leb_le amount 0)) by lia. replace amount with 0 by lia.
    rewrite Z.add_0_r, Z.mod_small by lia. by destruct r.
  - destruct (Z.leb_spec amount 0).
    { replace amount with 0 by lia. rewrite Z.add_0_r, Z.mod_small by lia. by destruct r. }
    set (k := Z.min amount _).
    assert (0 < k <= amount /\ sHead r + k <= ringLen r) as Hk by (subst k; lia).
    set (r1 := set_taken ((sHead r + k) mod ringLen r) (sCount r) (sFirst r) r).
    pose proof (ring_take r k Hw ltac:(lia)) as [W1 B1]. cbv zeta in W1, B1.
    (* the bytes in front, as a ring whose count the copy has not lowered yet *)
    pose proof (Z.mod_pos_bound (sHead r + k) (ringLen r)) as Hm.
    assert (takeLoop n (amount - k) r1 = Some (take (Z.to_nat (amount - k)) (drop (Z.to_nat k) (ringBytes r)),
              set_taken ((sHead r1 + (amount - k)) mod ringLen r1) (sCount r1) (sFirst r1) r1)) as ->.
    { rewrite IH; [|split; [exact (proj1 W1)|exact Hc]|cbn; lia|lia]. f_equal. f_equal.
      rewrite <- B1. unfold ringBytes. cbn [sHead sCount sring set_taken r1]. unfold circ. rewrite !take_take. f_equal. lia. }
    f_equal. f_equal.
    + unfold ringBytes. unfold wfStream, ringLen in *. rewrite <- circ_slice with (n := Z.to_nat (sCount r)) by lia.
      replace (Z.to_nat amount) with (Z.to_nat k + Z.to_nat (amount - k))%nat by lia.
      by rewrite take_take_drop.
    + unfold r1. cbn [sHead sCount sFirst sring set_taken ringLen]. unfold set_taken. cbn. f_equal.
      change (ringLen {| sOn := _ |}) with (ringLen r). rewrite Z.add_mod_idemp_l by lia. f_equal. lia.
Qed.

(** Whole words. *)
Lemma ldiff_words m : Z.ldiff m 3 = m - m mod 4.
Proof.
  change 3 with (Z.ones 2). rewrite Z.ldiff_ones_r by lia. rewrite Z.shiftr_div_pow2, Z.shiftl_mul_pow2 by lia.
  change (2 ^ 2) with 4. pose proof (Z.div_mod m 4). lia.
Qed.
Lemma ldiff_words_bounds m : 0 <= m -> 0 <= Z.ldiff m 3 <= m.
Proof. intros Hm. rewrite ldiff_words. pose proof (Z.mod_le m 4). pose proof (Z.mod_pos_bound m 4). lia. Qed.

(** The copy's count, whatever the ring. *)
Lemma takeLoop_count n amount r b r' : takeLoop n amount r = Some (b, r') -> sCount r' = sCount r.
Proof.
  revert amount r b. induction n as [|n IH]; intros amount r b H; cbn [takeLoop] in H; destruct (amount <=? 0); try by injection H as _ <-.
  { done. }
  destruct (takeLoop n _ _) as [[rest r1]|] eqn:Hr; [|done]. injection H as _ <-. by apply IH in Hr.
Qed.
Lemma takeWords_count count r first b r' :
  8 <= count -> 0 <= sCount r -> takeWords count r = Some (first, b, r') ->
  0 <= sCount r' /\ 0 <= sCount r - sCount r' <= count - 8.
Proof.
  intros Hc Hs H. unfold takeWords in H. destruct (takeLoop _ _ r) as [[bytes r1]|] eqn:Hr; [|done].
  injection H as _ _ <-. apply takeLoop_count in Hr. cbn [sCount set_taken]. rewrite Hr.
  pose proof (ldiff_words_bounds (Z.min (count - 8) (sCount r))). lia.
Qed.

(** A reply takes whole words off the front, and counts them. *)
Lemma takeWords_spec count r :
  wfStream r -> 8 <= count ->
  let amount := Z.ldiff (Z.min (count - 8) (sCount r)) 3 in
  exists r', takeWords count r = Some (sFirst r, take (Z.to_nat amount) (ringBytes r), r') /\
    0 <= amount <= sCount r /\ wfStream r' /\ ringBytes r' = drop (Z.to_nat amount) (ringBytes r) /\
    sFirst r' = u64 (sFirst r + amount / 4) /\ sCount r' = sCount r - amount /\
    sHead r' = (sHead r + amount) mod ringLen r /\ kept r' = kept r.
Proof.
  intros Hw Hc. cbv zeta. set (m := Z.min (count - 8) (sCount r)). set (amount := Z.ldiff m 3).
  pose proof Hw as [Hh Hcn]. assert (0 <= amount <= sCount r) as Hb by (pose proof (ldiff_words_bounds m); lia).
  unfold takeWords. fold m amount. rewrite takeLoop_spec by (done || lia).
  destruct (ring_take r amount Hw Hb) as [W B]. cbv zeta in W, B. eexists. split; [reflexivity|].
  split; [done|]. split; [exact W|]. split; [exact B|]. done.
Qed.
