(* ===== verification/WorkerDrain.v ===== *)
(** * A drain into the worker's ring

    What one DrainStream does to the ring it drains into
    (src/app/internal/bus/worker_server_linux.go): the bytes its sink gets are
    appended, in one piece or wrapped. *)
From S2P Require Import Prelude Circular Machine Fabric Bus BusSteps Command Status Open Recall RecallSteps Sinks.
From S2P Require Import RecallDevice Stream StreamRun WorkerRing.

(** A reservation and a write change neither the head nor the settings. *)
Definition settings (r : streamRing) := (sOn r, sExpected r, sFault r, sShared r, sHead r, sFirst r).
Lemma writeLoop_settings n b r r' : writeLoop n b r = Some r' -> settings r' = settings r.
Proof.
  revert b r. induction n as [|n IH]; intros [|x b] r H; try (injection H as <-; done); [done|].
  cbn [writeLoop] in H. apply IH in H. exact H.
Qed.
Lemma ringStep_settings f e : settings (ringNow (ringStep f e)) = settings (ringNow f).
Proof.
  destruct e; cbn; try done; repeat case_match; try done; subst; try done.
  unfold ringWrite in *. destruct (_ <? _); [done|].
  match goal with H : _ <$> _ = _ |- _ => apply fmap_Some in H as (r' & Hr & [= ->]) end.
  by apply writeLoop_settings in Hr.
Qed.
Lemma ringAfter_settings r l : settings (ringAfter r l) = settings r.
Proof.
  unfold ringAfter, fillingAfter. change (settings r) with (settings (ringNow (Filling r 0))).
  generalize (Filling r 0). induction l as [|e l IH]; intros f; [done|]. cbn. by rewrite IH, ringStep_settings.
Qed.

Section drain.
Context (E : Env) (r0 : streamRing) (k : nat).
#[local] Instance ringEnv : Env := drainEnv E r0 k.
Hypothesis wf0 : wfStream r0.
Variable pop : history -> Z -> Z -> list Z + err.
Hypothesis dma : @env_PopBytes E = Some pop.

(** The ring, from the events since the drain began. *)
Definition ringOf (s : capture) : filling := fillingAfter r0 (drop k (trace s)).

Lemma ringOf_emit e s u s' :
  (k <= length (trace s))%nat -> emit e s = (Ret u, s') ->
  (k <= length (trace s'))%nat /\ ringOf s' = ringStep (ringOf s) e.
Proof.
  intros Hk [= _ <-]. unfold ringOf. cbn [trace set_trace]. rewrite length_app. split; [lia|].
  rewrite (skipn_app k). replace (k - length (trace s))%nat with 0%nat by lia.
  unfold fillingAfter. by rewrite fold_left_app.
Qed.

(** Methods that leave the sink alone. *)
Definition ringSame (s s' : capture) : Prop :=
  (k <= length (trace s))%nat -> (k <= length (trace s'))%nat /\ ringOf s' = ringOf s.
#[local] Instance ringSame_busStep : BusStep ringSame.
Proof.
  split; [split; [by intros s H|]|..].
  - intros s1 s2 s3 H1 H2 H. destruct (H1 H) as [K1 R1]. destruct (H2 K1) as [K2 R2]. split; [done|congruence].
  - intros e s He Hk. destruct (ringOf_emit e s tt (set_trace (trace s ++ [e]) s) Hk eq_refl) as [K1 R1]. split; [done|].
    rewrite R1. destruct e; done.
  - intros l s _ Hk. done.
  - intros n s Hk. done.
Qed.

Lemma ringSame_Ret {A} (m : M A) s a s' :
  steps ringSame m -> m s = (Ret a, s') -> (k <= length (trace s))%nat -> (k <= length (trace s'))%nat /\ ringOf s' = ringOf s.
Proof. intros Hm H. specialize (Hm s). by rewrite H in Hm. Qed.

Variable k0 : sinkState.
Definition gotOf (s : capture) : list Z := got (sinkOf ringSink k0 s).

Lemma reserver_ring : reserverOf (SExt ringSink) = Some ringSink.
Proof using dma. unfold reserverOf. change (@env_PopBytes ringEnv) with (@env_PopBytes E). by rewrite dma. Qed.

(** The bytes of a pop. *)
Lemma popBytes_ring n s l s' :
  0 <= n -> popBytesWith pop 25 n s = (Ret l, s') -> (k <= length (trace s))%nat ->
  (k <= length (trace s'))%nat /\ ringOf s' = ringOf s /\ sinkOf ringSink k0 s' = sinkOf ringSink k0 s /\ Z.of_nat (length l) = n.
Proof using.
  intros Hn H Hk. assert (Z.of_nat (length l) = n) as Hl.
  { unfold popBytesWith in H. inv_ret H. rewrite length_fitTo; lia. }
  apply (sinkSame_Ret ringSink k0) in H as K; [|unfold popBytesWith; bus_steps; apply _]. destruct K as [K _].
  apply ringSame_Ret in H as [R1 R2]; [done|unfold popBytesWith; bus_steps; apply _|done].
Qed.

(** The reservation's bytes land behind the ring's content. *)
Lemma drainPop_ring words s data s' :
  0 <= words -> (k <= length (trace s))%nat -> ringNow (ringOf s) = r0 -> drainPop (Some ringSink) words s = (Ret data, s') ->
  (k <= length (trace s'))%nat /\
  exists bytes, reserved (sinkOf ringSink k0 s') = bytes /\ gotOf s' = gotOf s /\ Z.of_nat (length bytes) = 4 * words /\
    sCount (ringNow (ringOf s')) = sCount r0 /\
    let r' := Commit (4 * words) (ringNow (ringOf s')) in
    wfStream r' /\ ringBytes r' = ringBytes r0 ++ bytes /\ kept r' = kept r0.
Proof using wf0 dma.
  intros Hw Hk Hr H. unfold drainPop in H. change (@env_PopBytes ringEnv) with (@env_PopBytes E) in H. rewrite dma in H.
  apply bind_Ret_inv in H as (h & s1 & H1 & H). injection H1 as <- <-. cbv zeta in H.
  apply bind_Ret_inv in H as (u1 & s1 & H1 & H).
  apply (ringOf_emit _ _ _ _ Hk) in H1 as K1. apply (sinkOf_emit ringSink k0) in H1 as G1. clear H1.
  destruct K1 as [K1 R1].
  apply bind_Ret_inv in H as ([la lb] & s2 & H2 & H). apply lift_Ret_inv in H2 as [Hres ->]. cbn [fst snd] in H.
  change (@env_Reserve ringEnv (trace s) ringSink (4 * words)) with (Reserve (4 * words) (ringNow (ringOf s))) in Hres, R1, G1.
  rewrite Hr in *. rewrite Hres in R1, G1. cbn [ringStep sinkStep Z.eqb ringSink] in R1, G1. rewrite Hr in R1.
  unfold Reserve in Hres. destruct (Z.ltb_spec (ringLen r0) (sCount r0 + 4 * words)) as [|Hfit]; [discriminate Hres|].
  injection Hres as Hla Hlb. set (at_ := (sHead r0 + sCount r0) mod ringLen r0) in *.
  pose proof wf0 as [Hh Hc]. pose proof (Z.mod_pos_bound (sHead r0 + sCount r0) (ringLen r0)) as Hat. fold at_ in Hat.
  apply bind_Ret_inv in H as (a & s3 & H3 & H). apply popBytes_ring in H3 as (K3 & R3 & G3 & L3); [|lia|done].
  apply bind_Ret_inv in H as (u4 & s4 & H4 & H).
  apply (ringOf_emit _ _ _ _ K3) in H4 as K4. apply (sinkOf_emit ringSink k0) in H4 as G4. clear H4. destruct K4 as [K4 R4].
  rewrite R3, R1 in R4. rewrite G3, G1 in G4. cbn [ringStep sinkStep Z.eqb ringSink cursor ringNow reserved got] in R4, G4.
  destruct (ring_put r0 a wf0) as (W1 & B1 & P1); [lia|fold at_; lia|]. fold at_ in W1, B1, P1. cbv zeta in *.
  assert ((at_ + Z.of_nat (length a)) mod ringLen r0 = (sHead r0 + (sCount r0 + Z.of_nat (length a))) mod ringLen r0) as Hcur.
  { subst at_. rewrite Z.add_mod_idemp_l by lia. f_equal. lia. }
  destruct (Z.ltb_spec 0 lb) as [Hb|Hb].
  - apply bind_Ret_inv in H as (u5 & s5 & H5 & H).
    apply bind_Ret_inv in H5 as (b & s6 & H6 & H5). apply popBytes_ring in H6 as (K6 & R6 & G6 & L6); [|lia|done].
    apply (ringOf_emit _ _ _ _ K6) in H5 as K5. apply (sinkOf_emit ringSink k0) in H5 as G5. clear H5. destruct K5 as [K5 R5].
    apply mret_Ret_inv in H as [_ ->]. split; [done|].
    rewrite R6, R4 in R5. rewrite G6, G4 in G5. cbn [ringStep sinkStep Z.eqb ringSink cursor ringNow reserved got] in R5, G5.
    exists (a ++ b). unfold gotOf. rewrite G5, R5. cbn [reserved got ringNow sCount set_content app].
    split; [done|]. split; [done|]. split; [rewrite length_app; lia|]. split; [done|].
    set (r1 := set_content (copyAt (Z.to_nat at_) a (sring r0)) (sCount r0 + Z.of_nat (length a)) r0) in *.
    assert (ringLen r1 = ringLen r0) as Hl1 by by injection P1.
    assert (la = ringLen r0 - at_) as Hwrap by lia.
    assert ((sHead r1 + sCount r1) mod ringLen r1 = 0) as Hz.
    { rewrite Hl1. cbn [sHead sCount set_content r1]. rewrite <- Hcur, L3, Hwrap.
      replace (at_ + (ringLen r0 - at_)) with (ringLen r0) by lia. apply Z.mod_same. lia. }
    destruct (ring_put r1 b W1) as (W2 & B2 & P2); [rewrite Hl1; cbn [sCount set_content r1]; lia|rewrite Hz, Hl1; lia|].
    cbv zeta in *. rewrite Hz in W2, B2, P2.
    assert ((at_ + Z.of_nat (length a)) mod ringLen r0 = 0) as Hz0.
    { rewrite Hcur, <- Hz, Hl1. done. }
    rewrite Hz0.
    assert (Commit (4 * words) (set_content (copyAt (Z.to_nat 0) b (sring (set_content (copyAt (Z.to_nat at_) a (sring r0)) (sCount r0) r0)))
              (sCount r0) (set_content (copyAt (Z.to_nat at_) a (sring r0)) (sCount r0) r0)) =
            set_content (copyAt (Z.to_nat 0) b (sring r1)) (sCount r1 + Z.of_nat (length b)) r1) as ->.
    { unfold Commit, r1. cbn [sring sCount set_content]. unfold set_content. cbn. f_equal. lia. }
    split; [done|]. split; [by rewrite B2, B1, app_assoc|by rewrite P2, P1].
  - apply bind_Ret_inv in H as (u5 & s5 & H5 & H). apply mret_Ret_inv in H5 as [_ ->]. apply mret_Ret_inv in H as [_ ->].
    split; [done|]. exists a. unfold gotOf. rewrite G4, R4. cbn [reserved got ringNow sCount set_content app].
    split; [done|]. split; [done|]. split; [lia|]. split; [done|].
    assert (Commit (4 * words) (set_content (copyAt (Z.to_nat at_) a (sring r0)) (sCount r0) r0) =
            set_content (copyAt (Z.to_nat at_) a (sring r0)) (sCount r0 + Z.of_nat (length a)) r0) as ->.
    { unfold Commit. cbn [sring sCount set_content]. unfold set_content. cbn. f_equal. lia. }
    done.
Qed.

(** The part of a drain that reads and writes registers only. *)
Lemma drainCheck_same st blk base : steps ringSame (drainCheck st blk base).
Proof using. unfold drainCheck. bus_steps; apply _. Qed.

Lemma drainBlock_words st b expected s blk base s' :
  @drainBlock ringEnv st b expected s = (Ret (blk, base), s') -> 0 <= Words_ blk.
Proof using.
  unfold drainBlock. intros H. cbv zeta in H.
  repeat (apply bind_Ret_inv in H as (? & ? & _ & H)). apply mret_Ret_inv in H as [He _]. injection He as -> _.
  apply (Z.mod_pos_bound _ (2 ^ 32)). lia.
Qed.

(** A drain that returns appends to the ring what it gives its sink. *)
Lemma DrainStream_ring c expected s blk s' :
  (k = length (trace s))%nat -> @DrainStream ringEnv c expected (SExt ringSink) s = (Ret blk, s') ->
  exists bytes, gotOf s' = gotOf s ++ bytes /\
    let r' := ringAfter r0 (drop k (trace s')) in
    wfStream r' /\ ringBytes r' = ringBytes r0 ++ bytes /\ sCount r' = sCount r0 + Z.of_nat (length bytes) /\ kept r' = kept r0.
Proof using wf0 dma.
  intros Hk0 H. assert (k <= length (trace s))%nat as Hk by lia.
  assert (ringNow (ringOf s) = r0) as Hr by (unfold ringOf; by rewrite Hk0, drop_all).
  assert (forall A (m : M A) s1 a s2, steps ringSame m -> steps (sinkSame ringSink k0) m -> m s1 = (Ret a, s2) ->
    (k <= length (trace s1))%nat -> ringNow (ringOf s1) = r0 -> gotOf s1 = gotOf s ->
    (k <= length (trace s2))%nat /\ ringNow (ringOf s2) = r0 /\ gotOf s2 = gotOf s) as Hstep.
  { intros A m s1 a s2 M1 M2 Hm K1 R1 G1. apply (ringSame_Ret _ _ _ _ M1) in Hm as K2; [|done]. destruct K2 as [K2 R2].
    apply (sinkSame_Ret ringSink k0) in Hm as [G2 _]; [|done]. unfold gotOf in *. by rewrite R2, G2. }
  unfold DrainStream in H.
  assert (forall A (m : M A) (f : A -> M StreamBlock) s1, steps ringSame m -> steps (sinkSame ringSink k0) m -> (m ≫= f) s1 = (Ret blk, s') ->
    (k <= length (trace s1))%nat /\ ringNow (ringOf s1) = r0 /\ gotOf s1 = gotOf s ->
    exists a s2, m s1 = (Ret a, s2) /\ f a s2 = (Ret blk, s') /\
      (k <= length (trace s2))%nat /\ ringNow (ringOf s2) = r0 /\ gotOf s2 = gotOf s) as Hnext.
  { intros A m f s1 M1 M2 Hb (K1 & R1 & G1). apply bind_Ret_inv in Hb as (a & s2 & Hm & Hb).
    exists a, s2. split; [done|]. split; [done|]. by eapply (Hstep A m s1 a s2). }
  assert ((k <= length (trace s))%nat /\ ringNow (ringOf s) = r0 /\ gotOf s = gotOf s) as Hs by done.
  assert (forall ready banks, steps ringSame (findBank ready expected banks) /\ steps (sinkSame ringSink k0) (findBank ready expected banks)) as Hfind.
  { intros ready banks. induction banks as [|y l [IH1 IH2]]; cbn [findBank]; unfold bankFirst; split; bus_steps; apply _. }
  do 8 (apply Hnext in H;
    [destruct H as (? & ? & _ & H & Hs')|try (by intros ? ?); bus_steps; apply _|try (by intros ?); bus_steps; apply _|exact Hs];
    clear Hs; rename Hs' into Hs).
  apply Hnext in H; [destruct H as ([b|] & s1 & _ & H & Hs1)|apply Hfind|apply Hfind|exact Hs]; [|discriminate H].
  apply Hnext in H; [destruct H as ([bb base] & s2 & Hblk & H & (K2 & R2 & G2))| | |exact Hs1].
  2,3: unfold drainBlock, prepareStreamBuffers; bus_steps; try apply _; by intros ?.
  apply drainBlock_words in Hblk. cbn [fst snd] in H. rewrite reserver_ring in H.
  apply bind_Ret_inv in H as (data & s3 & H3 & H).
  apply drainPop_ring in H3 as (K3 & bytes & B3 & G3 & L3 & C3 & W3 & Q3 & P3); [|done..].
  apply bind_Ret_inv in H as (u4 & s4 & H4 & H).
  apply (sinkSame_Ret ringSink k0) in H4 as S4; [|unfold drainCheck; bus_steps; apply _]. destruct S4 as [S4 _].
  apply ringSame_Ret in H4 as [K4 R4]; [|apply drainCheck_same|done].
  apply bind_Ret_inv in H as (u5 & s5 & H5 & H). assert (s5 = s4) as -> by (unfold checkCtx, ctxErr in H5; inv_ret H5; done).
  apply bind_Ret_inv in H as (u6 & s6 & H6 & H).
  apply (ringOf_emit _ _ _ _ K4) in H6 as K6. apply (sinkOf_emit ringSink k0) in H6 as G6. clear H6. destruct K6 as [K6 R6].
  apply bind_Ret_inv in H as (u7 & s7 & H7 & H). apply mret_Ret_inv in H as [-> ->].
  apply (sinkSame_Ret ringSink k0) in H7 as S7; [|bus_steps; apply _]. destruct S7 as [S7 _].
  apply ringSame_Ret in H7 as [K7 R7]; [|bus_steps; apply _|done].
  cbn [ringStep sinkStep Z.eqb ringSink] in R6, G6. unfold gotOf in *.
  exists bytes. rewrite S7, G6, S4, B3. cbn [got]. rewrite take_ge by lia. split; [by rewrite G3, G2|].
  change (ringAfter r0 (drop k (trace s7))) with (ringNow (ringOf s7)). rewrite R7, R6, R4. cbn [ringNow].
  split; [done|]. split; [done|]. split; [|done]. cbn [Commit sCount set_content]. rewrite C3. lia.
Qed.
End drain.

(** ** A drain appends the stream's next words

    The drum's laws are of the bus, so they hold of the drain's environment;
    a ring of whole words splits its room between words. *)
Section fifo.
Context {E : Env} (stream : Z -> Z) (bankAt : history -> Z -> bank) (buffer : history -> Z -> Z) (total : Z).
Hypothesis drum : servesDrum stream bankAt buffer total.
Variable pop : history -> Z -> Z -> list Z + err.
Hypothesis dma : env_PopBytes = Some pop.
Hypothesis total_size : total = 4096 \/ total = 5120 \/ total = 8192.

Definition aligned (r : streamRing) : Prop := sHead r mod 4 = 0 /\ sCount r mod 4 = 0 /\ ringLen r mod 4 = 0.

Lemma drum_drainEnv r k : @servesDrum (drainEnv E r k) stream bankAt buffer total.
Proof using drum. destruct drum. by constructor. Qed.

(** Bus events leave the ring. *)
Lemma ringAfter_quiet r l : Forall (fun e => busEvent e = true) l -> ringAfter r l = r.
Proof using.
  unfold ringAfter, fillingAfter. change r with (ringNow (Filling r 0)) at 2. generalize (Filling r 0).
  intros f Hl. revert f. induction Hl as [|e l He _ IH]; intros f; [done|]. cbn. rewrite IH. by destruct e.
Qed.

Lemma reserve_aligned r h0 h n a b :
  wfStream r -> aligned r -> quiet h0 h -> 0 <= n ->
  @env_Reserve (drainEnv E r (length h0)) h ringSink (4 * n) = inl (a, b) ->
  0 <= a /\ 0 <= b /\ a + b = 4 * n /\ a mod 2 = 0.
Proof using.
  intros [Hh Hc] (A1 & A2 & A3) (l & -> & Hl) Hn H. cbn in H. rewrite drop_app_length, ringAfter_quiet in H by done.
  unfold Reserve in H. destruct (Z.ltb_spec (ringLen r) (sCount r + 4 * n)) as [|Hfit]; [discriminate H|].
  injection H as <- <-. pose proof (Z.mod_pos_bound (sHead r + sCount r) (ringLen r)) as Hat.
  pose proof (Z.div_mod (sHead r + sCount r) (ringLen r)) as Hdm.
  set (at_ := (sHead r + sCount r) mod ringLen r) in *. set (q := (sHead r + sCount r) / ringLen r) in *.
  split; [lia|]. split; [lia|]. split; [lia|].
  apply Z.mod_divide in A1 as [x Hx]; [|lia]. apply Z.mod_divide in A2 as [y Hy]; [|lia]. apply Z.mod_divide in A3 as [z Hz]; [|lia].
  apply Z.mod_divide; [lia|]. assert (at_ = 4 * (x + y - q * z)) as Hat4 by nia.
  destruct (Z.min_spec (ringLen r) (at_ + 4 * n)) as [[_ ->]|[_ ->]]; [exists (2 * (z - (x + y - q * z)))|exists (2 * n)]; lia.
Qed.

Lemma drain_stream c expected r s blk s' :
  wfStream r -> aligned r -> open s -> sized total s ->
  @DrainStream (drainEnv E r (length (trace s))) c expected (SExt ringSink) s = (Ret blk, s') ->
  FirstWord blk = expected /\ 0 < Words_ blk /\
  let r' := ringAfter r (drop (length (trace s)) (trace s')) in
  wfStream r' /\ aligned r' /\ ringBytes r' = ringBytes r ++ streamBytes stream expected (Words_ blk) /\
  sCount r' = sCount r + 4 * Words_ blk /\ kept r' = kept r.
Proof using drum dma total_size.
  generalize (Sink [] [] []). intros k0 Hw Ha Ho Hz H.
  apply (DrainStream_ring E r (length (trace s)) Hw pop dma k0) in H as D; [|done].
  apply (@DrainStream_got (drainEnv E r (length (trace s))) stream bankAt buffer total (drum_drainEnv r _) total_size pop dma
           ringSink k0 (trace s)) in H as (HF & HW & HG & _); [|intros h n a b; by apply reserve_aligned|done..].
  split; [done|]. split; [done|]. destruct D as (bytes & HG' & W' & B' & C' & K'). unfold gotOf in HG'.
  rewrite HG in HG'. apply app_inv_head in HG' as <-. rewrite length_streamBytes in C' by lia. cbv zeta.
  split; [done|]. split; [|done]. destruct Ha as (A1 & A2 & A3).
  pose proof (ringAfter_settings r (drop (length (trace s)) (trace s'))) as Hset. injection Hset as _ _ _ _ Hhd _.
  injection K' as _ _ _ Hlen _. unfold aligned. rewrite Hhd, C', Hlen. split; [done|]. split; [|done].
  rewrite (Z.mul_comm 4), Z.mod_add by lia. done.
Qed.
End fifo.
