(* ===== verification/Stack.v ===== *)
(** * The stacking port

    src/app/internal/sramcapture/stack.go: the sessions that scan a frozen
    record into the FPGA's stacking tile and read its moments back. The port's
    operations are polled to a deadline; a scan holds the SRAM grant only while
    it runs; a moment that reads back inconsistent is read again once. *)
From S2P Require Import Prelude Machine Fabric Bus BusSteps Command Recall Moments Status.

Definition StackCapabilityID : Z := 0x5342.
Definition selStackGrant : Z := 109.
Definition selStackMailIndex : Z := 110.
Definition selStackMail : Z := 111.
Definition selStackOp : Z := 112.
Definition selStackLevel : Z := 113.
Definition selStackFlags : Z := 114.
Definition selStackPre : Z := 115.
Definition selStackSep : Z := 117.
Definition selStackBins : Z := 119.
Definition selStackFirstBin : Z := 120.
Definition selStackFactor : Z := 122.
Definition selStackInitial : Z := 123.
Definition selStackFirst : Z := 125.
Definition selStackTile : Z := 127.
Definition selStackFactorCap : Z := 121.
Definition selStackTemplateIndex : Z := 96.
Definition selStackTemplateByte : Z := 97.
Definition selStackQualify : Z := 98.
Definition selStackQualifyCount : Z := 99.
Definition selStackQualifyStride : Z := 100.
Definition selStackQualifyPre : Z := 101.
Definition selStackQualifyThresh : Z := 103.
Definition selStackRejected : Z := 122.
Definition selStackTemplateCap : Z := 124.
Definition stackOpScan : Z := 1.
Definition stackOpTileRead : Z := 3.
Definition stackOpReset : Z := 5.
Definition stackOutstanding : Z := 1.
Definition stackError : Z := 4.

Record StackConfig := {
  Channel : Z; Falling : bool; Level : Z; Hysteresis : Z; PreSamples : Z; MinSeparation : Z; Bins : Z; Factor : Z;
  ChannelMask : Z; Template : list Z; TemplateStride : Z; TemplatePre : Z; TemplateThreshold : Z
}.
(** The fields' Go types (the ints are bounded by [validate] only). *)
Definition wf (c : StackConfig) : Prop :=
  fits 8 (Channel c) /\ fits 8 (Level c) /\ fits 8 (Hysteresis c) /\ fits 32 (PreSamples c) /\
  fits 32 (MinSeparation c) /\ fits 8 (ChannelMask c).

Definition validate (cfg : StackConfig) (tile : Z) (pow2 : bool) : option err :=
  if tile =? 0 then Some (EMsg "sramcapture: loaded image has no stacking port" [])
  else if 1 <? Channel cfg then Some (EMsg "sramcapture: stack channel %d" [Channel cfg])
  else if (Bins cfg <? 1) || (1 .<< 20 <? Bins cfg) then Some (EMsg "sramcapture: stack bins %d" [Bins cfg])
  else if (Factor cfg <? 1) || (0xffff <? Factor cfg) then Some (EMsg "sramcapture: stack factor %d" [Factor cfg])
  else if pow2 && (negb (Factor cfg .& (Factor cfg - 1) =? 0) || (1 .<< 24 <? Factor cfg)) then
    Some (EMsg "sramcapture: stack factor %d must be a power of two on this image" [Factor cfg])
  else if (ChannelMask cfg =? 0) || (3 <? ChannelMask cfg) then
    Some (EMsg "sramcapture: stack channel mask %d" [ChannelMask cfg])
  else if (0 <? length (Template cfg))%nat &&
          ((TemplateStride cfg <? 1) || (255 <? TemplateStride cfg) || (TemplatePre cfg <? 0) ||
           (TemplateThreshold cfg <? 0)) then
    Some (EMsg "sramcapture: template stride %d, pre %d, threshold %d"
            [TemplateStride cfg; TemplatePre cfg; TemplateThreshold cfg])
  else match find (fun v => (v <? 0) || (255 <? v)) (Template cfg) with
       | Some v => Some (EMsg "sramcapture: template value %d is not a code" [v])
       | None => None
       end.

(** One register, or a 32-bit value over two. *)
Record stackReg := Reg { sel : Z; val : Z; two : bool }.

Section stack.
Context {E : Env} (fuel : nat).

Definition writeReg (w : stackReg) : M unit :=
  if two w then write32 (sel w) (val w) else write (sel w) (val w .& 0xffff).

Definition stackTileBins : M Z :=
  id ← read selStackLevel;
  if negb (id =? StackCapabilityID) then mret 0 else read selStackFlags.

(** ** Operations *)

Fixpoint stackLoop (n : nat) (c : ctx) (op i : Z) (spinUntil : option Z) : M unit :=
  match n with
  | O => outOfFuel
  | S n =>
      s ← read selStackOp;
      if s .& stackOutstanding =? 0 then
        guard (has s stackError) (EMsg "sramcapture: stack operation %d failed (status %04x)" [op; s])
      else
        e ← ctxErr c;
        match e with
        | Some e => fail (EWrap "sramcapture: stack operation %d: %w" [op] e)
        | None =>
            if negb (i mod waitClockEvery =? waitClockEvery - 1) then stackLoop n c op (i + 1) spinUntil
            else
              t ← now;
              let u := default (t + waitSpin) spinUntil in
              if t <? u then stackLoop n c op (i + 1) (Some u)
              else emit (EvSleep 200000);; stackLoop n c op (i + 1) (Some u)
        end
  end.
Definition stackOpIn (c : ctx) (op : Z) : M unit :=
  write selStackOp op;;
  stackLoop fuel c op 0 None.
Definition stackOp (c : ctx) (op timeout : Z) : M unit :=
  c ← withTimeout c timeout;
  stackOpIn c op.

Fixpoint grantLoop (n : nat) (c : ctx) (on : bool) : M unit :=
  match n with
  | O => outOfFuel
  | S n =>
      s ← read selStackGrant;
      if Bool.eqb (has s 2) on then mret tt
      else
        e ← ctxErr c;
        match e with
        | Some e => fail (EWrap "sramcapture: stack SRAM grant %v: %w" [bit on 1] e)
        | None => grantLoop n c on
        end
  end.
Definition stackGrant (c : ctx) (on : bool) : M unit :=
  write selStackGrant (bit on 1);;
  c ← withTimeout c (100 * millisecond);
  grantLoop fuel c on.

(** ** Sessions *)

(** The static configuration of a session. *)
Definition beginRegs (cfg : StackConfig) : list stackReg :=
  [Reg selStackLevel (Level cfg .| (Hysteresis cfg .<< 8)) false;
   Reg selStackFlags (Channel cfg .| (ChannelMask cfg .<< 2) .| bit (Falling cfg) 2) false;
   Reg selStackPre (PreSamples cfg) true;
   Reg selStackSep (MinSeparation cfg) true;
   Reg selStackFactor (u32 (Factor cfg)) false;
   Reg selStackFirst 0 true].

Definition qualifierRegs (cfg : StackConfig) : list stackReg :=
  [Reg selStackQualifyCount (Z.of_nat (length (Template cfg))) false;
   Reg selStackQualifyStride (u32 (TemplateStride cfg)) false;
   Reg selStackQualifyPre (u32 (TemplatePre cfg)) true;
   Reg selStackQualifyThresh (u32 (TemplateThreshold cfg)) true;
   Reg selStackQualify 1 false].

Definition stackQualifier (cfg : StackConfig) : M unit :=
  match Template cfg with
  | [] => write selStackQualify 0
  | _ =>
      capacity ← read selStackTemplateCap;
      guard (capacity <? Z.of_nat (length (Template cfg)))
        (EMsg "sramcapture: template of %d points exceeds the image's %d" [Z.of_nat (length (Template cfg)); capacity]);;
      write selStackTemplateIndex 0;;
      each (fun v => write selStackTemplateByte (v .& 0xffff)) (Template cfg);;
      each writeReg (qualifierRegs cfg)
  end.

Definition StackBegin (cfg : StackConfig) : M Z :=
  tile ← stackTileBins;
  caps ← read selStackFactorCap;
  liftErr (validate cfg tile (has caps 1));;
  each writeReg (beginRegs cfg);;
  stackQualifier cfg;;
  mret tile.

Definition StackResetTile (c : ctx) : M unit := stackOp c stackOpReset second.

(** The scan of one record: the deferred end returns the grant. *)
Definition scanRegs (first n initial : Z) : list stackReg :=
  [Reg selStackBins (u32 n) false; Reg selStackFirstBin (u32 first) true; Reg selStackInitial initial true].
Definition scanEnd (failed : option err) : M (option err) :=
  e ← errOf (stackGrant background false);
  mret (match failed with None => e | Some _ => failed end).
Definition scanBody (c : ctx) : M (Z * Z * Z) :=
  stackOp c stackOpScan (5 * second);;
  hits ← read32 selStackPre;
  crossings ← read32 selStackSep;
  rejected ← read32 selStackRejected;
  mret (hits, crossings, rejected).
Definition StackScan (c : ctx) (first n initial : Z) : M (Z * Z * Z) :=
  m ← status;
  guard (negb (Ready m) || negb (Frozen m) || Running m || negb (SamplesPerWord m =? 2) || (Length m =? 0))
    (EMsg "sramcapture: stacking needs a frozen raw record" []);;
  each writeReg (scanRegs first n initial);;
  stackGrant c true;;
  finally (scanBody c) scanEnd.

(** ** Downloads *)

Definition mailWords : Z := Z.of_nat FPGAStackWords.

(** One moment through the mailbox, decoded. *)
Definition stackDownload (c : ctx) (bin ch : Z) : M FPGAStackMoments :=
  write selStackTile (((bin .<< 1) .| ch) .& 0xffff);;
  stackOp c stackOpTileRead second;;
  write selStackMailIndex 0;;
  words ← match env_PopWords with
          | Some pop => w ← popWordsWith pop selStackMail mailWords; addBeats mailWords;; mret w
          | None => readN FPGAStackWords selStackMail
          end;
  lift (DecodeFPGAMoments words).

(** The bus worker's half: [n] moments unchecked, within one deadline. *)
Fixpoint tileBytes (n : nat) (c : ctx) (i : Z) : M (list Z) :=
  match n with
  | O => mret []
  | S n =>
      write selStackTile (u16 i);;
      stackOpIn c stackOpTileRead;;
      write selStackMailIndex 0;;
      at_ ← match env_PopBytes with
            | Some pop => popBytesWith pop selStackMail (mailWords * 2)
            | None => w ← readN FPGAStackWords selStackMail; mret (halfBytes w)
            end;
      rest ← tileBytes n c (i + 1);
      mret (at_ ++ rest)
  end.
(** [size] is len(dst). *)
Definition StackDownloadWords (c : ctx) (n size : Z) : M (list Z) :=
  guard (negb (size =? n * mailWords * 2)) (EMsg "sramcapture: stack download buffer" []);;
  c ← withTimeout c second;
  data ← tileBytes (Z.to_nat n) c 0;
  addBeats (u64 (n * mailWords));;
  mret data.

Definition consistent (m : FPGAStackMoments) : bool := CountOdd m <=? Count m.

(** A moment read on this bus; one whose odd subset exceeds its total is a fault. *)
Definition checkedMoment (c : ctx) (i : Z) : M FPGAStackMoments :=
  m ← stackDownload c (i / 2) (i mod 2);
  guard (negb (consistent m))
    (EMsg "sramcapture: stack bin %d channel %d read back inconsistent (odd %d > %d)"
       [i / 2; i mod 2; CountOdd m; Count m]);;
  mret m.
(** It is read twice at most. *)
Definition retriedMoment (c : ctx) (i : Z) : M FPGAStackMoments :=
  r ← attempt (checkedMoment c i);
  match r with inl m => mret m | inr _ => checkedMoment c i end.

(** [binary.LittleEndian.Uint16] of the worker's bytes. *)
Definition rawWords (raw : list Z) (i : Z) : list Z :=
  map (fun k => leVal (slice (Z.to_nat ((i * mailWords + Z.of_nat k) * 2)) 2 raw)) (seq 0 FPGAStackWords).

Fixpoint downloadLoop (n : nat) (c : ctx) (raw : option (list Z)) (i : Z) : M (list FPGAStackMoments) :=
  match n with
  | O => mret []
  | S n =>
      let kept := match raw with
                  | Some raw =>
                      match DecodeFPGAMoments (rawWords raw i) with
                      | inl m => if consistent m then Some m else None
                      | inr _ => None
                      end
                  | None => None
                  end in
      m ← match kept with Some m => mret m | None => retriedMoment c i end;
      rest ← downloadLoop n c raw (i + 1);
      mret (m :: rest)
  end.

(** The worker's bytes, when it owns the bus. *)
Definition isolatedMoments (n : Z) : M (option (list Z)) :=
  match env_StackIsolated with
  | Some isolated =>
      if n =? 0 then mret None
      else
        h ← gets trace;
        let r := isolated h n in
        emit (EvStackIsolated n r);;
        if negb r.1 then mret None
        else l ← lift r.2; mret (Some (fitTo (n * mailWords * 2) u8 l))
  | None => mret None
  end.

(** [n] is len(dst). *)
Definition StackDownload (c : ctx) (n : Z) : M (list FPGAStackMoments) :=
  guard (negb (n mod 2 =? 0)) (EMsg "sramcapture: stack download needs whole bins" []);;
  raw ← isolatedMoments n;
  downloadLoop (Z.to_nat n) c raw 0.
End stack.
