(* ===== verification/StackRun.v ===== *)
(** * The stacking tile, read back and scanned

    What the sessions of src/app/internal/sramcapture/stack.go do against the
    port of src/fpga/images/stacking/stack_engine_port.v: a download returns
    the tile's own moments, a scan gives the SRAM grant back, a session's
    configuration is the one the engine runs, and every polling loop ends. *)
From S2P Require Import Prelude Machine Fabric Bus BusSteps Command Recall Moments Status Open Stack.

(** ** The mailbox *)

(** stack_engine_port.v: a tile read puts one moment in the download RAM,
    complete once the status reads neither outstanding nor failed; the read
    port advances with every word read. *)
Record mailbox := Mailbox {
  tileReg : Z (* register 127 *);
  running : option Z (* the tile entry an operation reads *);
  mail : option Z (* the entry the download RAM holds *);
  index : Z (* the mailbox index *)
}.
Definition mailWrite (m : mailbox) (r : Z * Z) : mailbox :=
  if r.1 =? selStackTile then Mailbox r.2 (running m) (mail m) (index m)
  else if r.1 =? selStackOp then
    Mailbox (tileReg m) (if r.2 =? stackOpTileRead then Some (tileReg m) else None) None (index m)
  else if r.1 =? selStackMailIndex then Mailbox (tileReg m) (running m) (mail m) (bits r.2 0 5)
  else m.
Definition mailPop (m : mailbox) (n : Z) : mailbox :=
  Mailbox (tileReg m) (running m) (mail m) (bits (index m + n) 0 5).
Definition mailStep (m : mailbox) (e : event) : mailbox :=
  match e with
  | EvRead sel (inl x) =>
      if sel =? selStackMail then mailPop m 1
      else if (sel =? selStackOp) && (x .& 5 =? 0) then
        match running m with
        | Some i => Mailbox (tileReg m) None (Some i) (index m)
        | None => m
        end
      else m
  | EvPopWords sel n (inl _) => if sel =? selStackMail then mailPop m n else m
  | EvPopBytes sel n (inl _) => if sel =? selStackMail then mailPop m (n / 2) else m
  | _ => fold_left mailWrite (accepted e) m
  end.
Definition mailRun (h : history) : mailbox := fold_left mailStep h (Mailbox 0 None None 0).

Lemma mailRun_snoc h e : mailRun (h ++ [e]) = mailStep (mailRun h) e.
Proof. unfold mailRun. by rewrite fold_left_app. Qed.

Section tile.
Context {E : Env} (fuel : nat).
(** The tile's moments, by entry (bin, channel). *)
Variable tile : Z -> FPGAStackMoments.
Hypothesis wf_tile : forall i, wfMoments (tile i).

(** Its words on the wire. *)
Definition tileWords (i : Z) : list Z :=
  match EncodeFPGAMoments (tile i) with inl w => w | inr _ => [] end.
Hypothesis encodes : forall i, exists w, EncodeFPGAMoments (tile i) = inl w.

(** The bus returns the download RAM's words. *)
Record servesTile : Prop := {
  tile_read h x i : mail (mailRun h) = Some i -> env_Read h selStackMail = inl x ->
    u16 x = default 0 (tileWords i !! Z.to_nat (index (mailRun h)));
  tile_words pop h l i : env_PopWords = Some pop -> mail (mailRun h) = Some i -> index (mailRun h) = 0 ->
    pop h selStackMail mailWords = inl l -> l = tileWords i;
  tile_bytes pop h l i : env_PopBytes = Some pop -> mail (mailRun h) = Some i -> index (mailRun h) = 0 ->
    pop h selStackMail (mailWords * 2) = inl l -> l = halfBytes (tileWords i)
}.
Hypothesis device : servesTile.

Lemma tileWords_ok i : length (tileWords i) = FPGAStackWords /\ Forall (fits 16) (tileWords i) /\
  DecodeFPGAMoments (tileWords i) = inl (tile i).
Proof using encodes wf_tile.
  unfold tileWords. destruct (encodes i) as [w Hw]. rewrite Hw. split_and!.
  - by apply encode_fields in Hw as (_ & _ & _ & ? & _).
  - by apply encode_fields in Hw as (_ & _ & _ & _ & ? & _).
  - by apply decode_encode.
Qed.

(** *** One tile read *)

(** The mailbox as far as a running read is concerned. *)
Definition reading (i : Z) (s : capture) : Prop := running (mailRun (trace s)) = Some i.
Definition loaded (i : Z) (s : capture) : Prop := mail (mailRun (trace s)) = Some i.

Lemma op_done s : s .& stackOutstanding = 0 -> has s stackError = false -> s .& 5 = 0.
Proof.
  unfold stackOutstanding, stackError, has. intros H1 H2. change 5 with (1 .| 4).
  rewrite Z.land_lor_distr_r, H1. destruct (Z.eqb_spec (s .& 4) 0) as [->|]; done.
Qed.
Lemma u16_land x : u16 x .& 5 = x .& 5.
Proof.
  unfold u16. rewrite <- Z.land_ones by lia. rewrite <- Z.land_assoc. by f_equal.
Qed.

Lemma stackLoop_loads n c op k u i s a s' :
  open s -> reading i s -> stackLoop n c op k u s = (Ret a, s') -> open s' /\ loaded i s'.
Proof.
  revert k u s. induction n as [|n IH]; intros k u s Ho Hi H; cbn [stackLoop] in H; [done|].
  apply bind_Ret_inv in H as (st & s1 & H1 & H). apply read_open in H1 as (Ho1 & x & _ & -> & Ht); [|done].
  assert (forall b : bool, b = (x .& 5 =? 0) ->
    if b then loaded i s1 else reading i s1) as Hstep.
  { intros b ->. unfold reading, loaded in *. rewrite Ht, mailRun_snoc. cbn [mailStep].
    change (selStackOp =? selStackMail) with false. rewrite Z.eqb_refl. cbn [andb].
    destruct (x .& 5 =? 0); [by rewrite Hi|done]. }
  destruct (Z.eqb_spec (u16 x .& stackOutstanding) 0) as [Hd|Hd].
  - apply guard_Ret_inv in H as [Hg ->]. split; [done|]. apply (Hstep true).
    pose proof (op_done _ Hd Hg) as H5. rewrite u16_land in H5. by rewrite H5.
  - assert (reading i s1) as Hi1.
    { apply (Hstep false). symmetry. apply Z.eqb_neq. rewrite <- u16_land. intros H5. apply Hd.
      change stackOutstanding with (5 .& 1). by rewrite Z.land_assoc, H5. }
    clear Hstep Hi Hd. apply bind_Ret_inv in H as (e & s2 & H2 & H). injection H2 as _ <-. destruct e; [done|].
    destruct (negb _); [by eapply IH in H|]. apply bind_Ret_inv in H as (t & s3 & H3 & H). injection H3 as _ <-.
    cbv zeta in H. destruct (_ <? _); [by eapply IH in H|].
    apply bind_Ret_inv in H as (v & s4 & H4 & H). injection H4 as _ <-. eapply IH in H; [done|exact Ho1|].
    unfold reading in *. cbn [trace set_trace]. rewrite mailRun_snoc. exact Hi1.
Qed.

Lemma stackOpIn_loads c s a s' :
  open s -> stackOpIn fuel c stackOpTileRead s = (Ret a, s') -> open s' /\ loaded (tileReg (mailRun (trace s))) s'.
Proof.
  intros Ho H. unfold stackOpIn in H. apply bind_Ret_inv in H as (v & s1 & H1 & H).
  apply write_open in H1 as [Ho1 Ht]; [|done]. eapply stackLoop_loads; [exact Ho1| |exact H].
  unfold reading. rewrite Ht, mailRun_snoc. done.
Qed.

(** The download RAM holds entry [i], its index at the start. *)
Definition fetched (i : Z) (s : capture) : Prop := open s /\ loaded i s /\ index (mailRun (trace s)) = 0.

Lemma mailIndex_fetches i s a s' : open s -> loaded i s -> write selStackMailIndex 0 s = (Ret a, s') -> fetched i s'.
Proof.
  intros Ho Hl H. apply write_open in H as [Ho' Ht]; [|done]. unfold fetched, loaded in *.
  rewrite Ht, mailRun_snoc. done.
Qed.
Lemma tile_written i s a s' : open s -> write selStackTile i s = (Ret a, s') -> open s' /\ tileReg (mailRun (trace s')) = i.
Proof. intros Ho H. apply write_open in H as [Ho' Ht]; [|done]. by rewrite Ht, mailRun_snoc. Qed.

Lemma map_u16_tile i : map u16 (tileWords i) = tileWords i.
Proof using encodes wf_tile.
  destruct (tileWords_ok i) as (_ & F & _). induction F as [|x l Hx _ IH]; [done|]. cbn [map]. by rewrite IH, u16_fits.
Qed.
Lemma fitTo_tile i : fitTo mailWords u16 (tileWords i) = tileWords i.
Proof using encodes wf_tile.
  destruct (tileWords_ok i) as (L & _). unfold mailWords. rewrite <- L, fitTo_exact. apply map_u16_tile.
Qed.

(** The words behind the index, one by one. *)
Lemma readN_tile n i s w s' :
  open s -> loaded i s -> index (mailRun (trace s)) + Z.of_nat n < 32 -> 0 <= index (mailRun (trace s)) ->
  readN n selStackMail s = (Ret w, s') ->
  open s' /\ w = map (fun k => default 0 (tileWords i !! Z.to_nat k)) (seqZ (index (mailRun (trace s))) (Z.of_nat n)).
Proof using device.
  revert s w s'. induction n as [|n IH]; intros s w s' Ho Hl Hn H0 H; cbn [readN] in H.
  { apply mret_Ret_inv in H as [-> ->]. done. }
  apply bind_Ret_inv in H as (v & s1 & H1 & H). apply read_open in H1 as (Ho1 & x & Hx & -> & Ht); [|done].
  apply bind_Ret_inv in H as (vs & s2 & H2 & H). apply mret_Ret_inv in H as [-> ->].
  apply (tile_read device _ _ i) in Hx; [|done].
  assert (index (mailRun (trace s1)) = index (mailRun (trace s)) + 1) as Hi.
  { rewrite Ht, mailRun_snoc. cbn [mailStep]. rewrite Z.eqb_refl. cbn [mailPop index].
    apply bits_self; [unfold fits; lia|lia]. }
  apply IH in H2 as [Ho2 ->]; [|done| |rewrite Hi; lia..].
  - split; [done|]. rewrite Hi, Nat2Z.inj_succ, (seqZ_cons (index _)), Z.pred_succ, Z.add_1_r by lia. cbn [map]. by rewrite Hx.
  - unfold loaded in *. rewrite Ht, mailRun_snoc. cbn [mailStep]. by rewrite Z.eqb_refl.
Qed.
Lemma words_at l : map (fun k => default 0 (l !! Z.to_nat k)) (seqZ 0 (Z.of_nat (length l))) = (l : list Z).
Proof.
  apply list_eq. intros k. rewrite list_lookup_fmap. destruct (decide (k < length l)%nat) as [Hk|Hk].
  - rewrite lookup_seqZ_lt by lia. cbn [fmap option_fmap option_map]. rewrite Z.add_0_l, Nat2Z.id.
    destruct (lookup_lt_is_Some_2 l k Hk) as [x ->]. done.
  - rewrite lookup_seqZ_ge by lia. symmetry. apply lookup_ge_None_2. lia.
Qed.
Lemma readN_words i s w s' :
  fetched i s -> readN FPGAStackWords selStackMail s = (Ret w, s') -> open s' /\ w = tileWords i.
Proof using device encodes wf_tile.
  intros (Ho & Hl & Hi) H. apply (readN_tile _ i) in H as [Ho' ->]; [|done|done|rewrite Hi; unfold FPGAStackWords; lia|lia].
  split; [done|]. rewrite Hi. destruct (tileWords_ok i) as (L & _). rewrite <- L. apply words_at.
Qed.

(** *** A moment *)

Lemma stackDownload_tile c bin ch s m s' :
  open s -> stackDownload fuel c bin ch s = (Ret m, s') -> open s' /\ m = tile (((bin .<< 1) .| ch) .& 0xffff).
Proof using device encodes wf_tile.
  intros Ho H. unfold stackDownload in H. set (i := ((bin .<< 1) .| ch) .& 0xffff) in *.
  apply bind_Ret_inv in H as (u & s1 & H1 & H). apply tile_written in H1 as [Ho1 Hi1]; [|done].
  apply bind_Ret_inv in H as (v & s2 & H2 & H). unfold stackOp in H2.
  apply bind_Ret_inv in H2 as (c' & s3 & H3 & H2). injection H3 as _ <-.
  apply stackOpIn_loads in H2 as [Ho2 Hl2]; [|done]. rewrite Hi1 in Hl2.
  apply bind_Ret_inv in H as (w & s4 & H4 & H). apply (mailIndex_fetches i) in H4; [|done..].
  apply bind_Ret_inv in H as (words & s5 & H5 & H). apply lift_Ret_inv in H as [Hd ->].
  assert (open s5 /\ words = tileWords i) as [Ho5 ->].
  { destruct env_PopWords as [pop|] eqn:Hp; [|by apply (readN_words i s4)].
    destruct H4 as (Ho4 & Hl4 & Hi4). apply bind_Ret_inv in H5 as (w' & s6 & H6 & H5).
    apply bind_Ret_inv in H5 as (b & s7 & H7 & H5). injection H7 as _ <-. apply mret_Ret_inv in H5 as [-> ->].
    unfold popWordsWith in H6. inv_ret H6. apply (tile_words device pop _ _ i) in Q; [|done..]. subst.
    split; [exact Ho4|apply fitTo_tile]. }
  split; [done|]. destruct (tileWords_ok i) as (_ & _ & Hx). rewrite Hx in Hd. by apply (inj inl) in Hd.
Qed.

Lemma entry_index i : 0 <= i < 65536 -> (((i / 2) .<< 1) .| (i mod 2)) .& 0xffff = i.
Proof.
  intros Hi. rewrite Z.lor_comm. rewrite (lor_shl_add 1) by (unfold fits; pose proof (Z.mod_pos_bound i 2); lia).
  change (2 ^ 1) with 2. change 65535 with (Z.ones 16). rewrite Z.land_ones by lia.
  rewrite Z.mod_small; pose proof (Z.div_mod i 2); lia.
Qed.

Lemma stackDownload_keeps c bin ch : steps keepsOpen (stackDownload fuel c bin ch).
Proof.
  assert (forall n c op i u, steps keepsOpen (stackLoop n c op i u)) as HL.
  { induction n as [|n IH]; intros; cbn [stackLoop]; unfold now; bus_steps; apply _. }
  unfold stackDownload, stackOp, stackOpIn. bus_steps; apply _.
Qed.

Lemma checkedMoment_tile c i s m s' :
  0 <= i < 65536 -> open s -> checkedMoment fuel c i s = (Ret m, s') -> open s' /\ m = tile i.
Proof using device encodes wf_tile.
  intros Hi Ho H. unfold checkedMoment in H. apply bind_Ret_inv in H as (m' & s1 & H1 & H).
  apply stackDownload_tile in H1 as [Ho1 ->]; [|done]. rewrite entry_index in H by done. inv_ret H. done.
Qed.
Lemma retriedMoment_tile c i s m s' :
  0 <= i < 65536 -> open s -> retriedMoment fuel c i s = (Ret m, s') -> open s' /\ m = tile i.
Proof using device encodes wf_tile.
  intros Hi Ho H. unfold retriedMoment in H. apply bind_Ret_inv in H as (r & s1 & H1 & H).
  apply attempt_Ret_inv in H1 as [(m' & -> & H1)|(e & -> & H1)].
  - apply mret_Ret_inv in H as [-> ->]. by apply checkedMoment_tile in H1.
  - assert (open s1) as Ho1.
    { assert (steps keepsOpen (checkedMoment fuel c i)) as Hk.
      { unfold checkedMoment. pose proof (stackDownload_keeps c). bus_steps; apply _. }
      specialize (Hk s). rewrite H1 in Hk. by apply Hk. }
    by apply checkedMoment_tile in H.
Qed.

(** *** The worker's half *)

(** The first [n] entries' words, in order. *)
Definition tileImage (n : nat) : list Z := concat (map tileWords (seqZ 0 (Z.of_nat n))).

Lemma map_u8_half l : map u8 (halfBytes l) = halfBytes l.
Proof.
  assert (isBytes (halfBytes l)) as F.
  { induction l as [|x l IH]; [constructor|]. apply Forall_app. split; [apply isBytes_leBytes|exact IH]. }
  induction F as [|x l' Hx _ IH]; [done|]. cbn [map]. by rewrite IH, u8_fits.
Qed.
Lemma length_half l : length (halfBytes l) = (2 * length l)%nat.
Proof.
  induction l as [|x l IH]; [done|]. change (halfBytes (x :: l)) with (leBytes 2 x ++ halfBytes l).
  rewrite length_app, length_leBytes, IH. simpl. lia.
Qed.
Lemma half_app l l' : halfBytes (l ++ l') = halfBytes l ++ halfBytes l'.
Proof. unfold halfBytes. by rewrite map_app, concat_app. Qed.

Lemma tileBytes_tile n c i s data s' :
  open s -> 0 <= i -> i + Z.of_nat n <= 65536 -> tileBytes fuel n c i s = (Ret data, s') ->
  open s' /\ data = halfBytes (concat (map tileWords (seqZ i (Z.of_nat n)))).
Proof using device encodes wf_tile.
  revert i s data s'.
  induction n as [|n IH]; intros i s data s' Ho Hi Hn H; cbn [tileBytes] in H.
  { apply mret_Ret_inv in H as [-> ->]. done. }
  assert (u16 i = i) as Hu by (apply u16_fits; unfold fits; lia). rewrite Hu in H.
  apply bind_Ret_inv in H as (u & s1 & H1 & H). apply tile_written in H1 as [Ho1 Hi1]; [|done].
  apply bind_Ret_inv in H as (v & s2 & H2 & H). apply stackOpIn_loads in H2 as [Ho2 Hl2]; [|done]. rewrite Hi1 in Hl2. clear Hi1.
  apply bind_Ret_inv in H as (w & s3 & H3 & H). apply (mailIndex_fetches i) in H3; [|done..].
  apply bind_Ret_inv in H as (b & s4 & H4 & H). apply bind_Ret_inv in H as (rest & s5 & H5 & H).
  apply mret_Ret_inv in H as [-> ->].
  assert (open s4 /\ b = halfBytes (tileWords i)) as [Ho4 ->].
  { destruct env_PopBytes as [pop|] eqn:Hp.
    - destruct H3 as (Ho3 & Hl3 & Hi3). unfold popBytesWith in H4. inv_ret H4.
      apply (tile_bytes device pop _ _ i) in Q; [|done..]. subst. split; [exact Ho3|].
      destruct (tileWords_ok i) as (L & _). assert (mailWords * 2 = Z.of_nat (length (halfBytes (tileWords i)))) as ->.
      { rewrite length_half, L. done. }
      by rewrite fitTo_exact, map_u8_half.
    - apply bind_Ret_inv in H4 as (words & s6 & H6 & H4). apply mret_Ret_inv in H4 as [-> ->].
      apply (readN_words i) in H6 as [Ho6 ->]; done. }
  apply IH in H5 as [Ho5 ->]; [|done|lia..]. split; [done|].
  by rewrite Nat2Z.inj_succ, (seqZ_cons i), Z.pred_succ, Z.add_1_r, <- half_app by lia.
Qed.

Lemma concat_blocks {A} (f : Z -> list A) b n a i k :
  (forall j, length (f j) = b) -> (i < n)%nat -> (k < b)%nat ->
  concat (map f (seqZ a (Z.of_nat n))) !! (i * b + k)%nat = f (a + Z.of_nat i) !! k.
Proof.
  intros Hf. revert a i. induction n as [|n IH]; intros a i Hi Hk; [lia|].
  rewrite Nat2Z.inj_succ, (seqZ_cons a), Z.pred_succ by lia. cbn [map concat]. destruct i as [|i].
  - rewrite lookup_app_l by (rewrite Hf; lia). by rewrite Z.add_0_r.
  - rewrite lookup_app_r by (rewrite Hf; lia). rewrite Hf. replace (S i * b + k - b)%nat with (i * b + k)%nat by lia.
    rewrite IH by lia. do 2 f_equal. lia.
Qed.
Lemma half_slice l k x : l !! k = Some x -> fits 16 x -> leVal (slice (2 * k) 2 (halfBytes l)) = x.
Proof.
  revert k. induction l as [|y l IH]; intros k Hk Hx; [done|].
  change (halfBytes (y :: l)) with (leBytes 2 y ++ halfBytes l). unfold slice. destruct k as [|k].
  - injection Hk as ->. rewrite Nat.mul_0_r, drop_0, take_app_length' by (by rewrite length_leBytes).
    by apply leVal_leBytes.
  - replace (2 * S k)%nat with (2 + 2 * k)%nat by lia. rewrite <- drop_drop.
    rewrite drop_app_length' by (by rewrite length_leBytes). by apply IH.
Qed.

(** What the bus's own side makes of the worker's bytes. *)
Lemma rawWords_tile n i :
  (i < n)%nat -> rawWords (halfBytes (tileImage n)) (Z.of_nat i) = tileWords (Z.of_nat i).
Proof using encodes wf_tile.
  intros Hi. destruct (tileWords_ok (Z.of_nat i)) as (L & F & _). unfold rawWords.
  apply list_eq. intros k. rewrite list_lookup_fmap. destruct (decide (k < FPGAStackWords)%nat) as [Hk|Hk].
  - rewrite lookup_seq_lt by done. cbn [fmap option_fmap option_map Nat.add].
    destruct (lookup_lt_is_Some_2 (tileWords (Z.of_nat i)) k) as [x Hx]; [by rewrite L|]. rewrite Hx. f_equal.
    replace (Z.to_nat ((Z.of_nat i * mailWords + Z.of_nat k) * 2)) with (2 * (i * FPGAStackWords + k))%nat
      by (unfold mailWords; lia).
    apply half_slice; [|by eapply Forall_lookup_1 in F]. unfold tileImage.
    rewrite (concat_blocks tileWords FPGAStackWords n 0 i k); [done|intros j; apply tileWords_ok|done|done].
  - rewrite lookup_seq_ge by lia. symmetry. apply lookup_ge_None_2. lia.
Qed.

(** The worker's half of a download returns the tile: the words of its
    first [n] entries in order, each read whole from the start of the
    mailbox. *)
Theorem StackDownloadWords_tile c n size s data s' :
  open s -> 0 <= n <= 65536 -> StackDownloadWords fuel c n size s = (Ret data, s') ->
  data = halfBytes (tileImage (Z.to_nat n)).
Proof using device encodes wf_tile.
  intros Ho Hn H. unfold StackDownloadWords in H. apply bind_Ret_inv in H as (u & s1 & H1 & H).
  apply guard_Ret_inv in H1 as [_ ->]. apply bind_Ret_inv in H as (c' & s2 & H2 & H). injection H2 as _ <-.
  apply bind_Ret_inv in H as (d & s3 & H3 & H). apply bind_Ret_inv in H as (b & s4 & _ & H).
  apply mret_Ret_inv in H as [-> ->]. apply tileBytes_tile in H3 as [_ ->]; [done|done|lia..].
Qed.

Lemma length_tileImage k : length (tileImage k) = (k * FPGAStackWords)%nat.
Proof using encodes wf_tile.
  unfold tileImage. generalize 0. induction k as [|k IH]; intros a; [done|].
  rewrite Nat2Z.inj_succ, (seqZ_cons a), Z.pred_succ by lia. cbn [map concat]. rewrite length_app, IH.
  destruct (tileWords_ok a) as (-> & _). lia.
Qed.

Section download.
Context (n : nat).
Hypothesis entries : Z.of_nat n <= 65536.
(** A worker of the bus returns what its own download does. *)
Hypothesis worker : forall isolated h l,
  env_StackIsolated = Some isolated -> isolated h (Z.of_nat n) = (true, inl l) -> l = halfBytes (tileImage n).

Lemma isolatedMoments_tile s raw s' :
  open s -> isolatedMoments (Z.of_nat n) s = (Ret raw, s') ->
  open s' /\ (raw = None \/ raw = Some (halfBytes (tileImage n))).
Proof using encodes wf_tile worker.
  intros Ho H. unfold isolatedMoments in H. destruct env_StackIsolated as [isolated|] eqn:Hs; [|inv_ret H; auto].
  destruct (_ =? 0); [inv_ret H; auto|]. apply bind_Ret_inv in H as (h & s1 & H1 & H). injection H1 as <- <-.
  cbv zeta in H. apply bind_Ret_inv in H as (u & s2 & H2 & H). injection H2 as _ <-.
  destruct (isolated (trace s) (Z.of_nat n)) as [[] r] eqn:Hr; cbn [fst snd negb] in H; [|inv_ret H; auto].
  apply bind_Ret_inv in H as (l & s3 & H3 & H). apply lift_Ret_inv in H3 as [-> ->].
  apply mret_Ret_inv in H as [-> ->]. split; [exact Ho|]. right. f_equal. apply (worker isolated) in Hr as ->; [|done].
  replace (Z.of_nat n * mailWords * 2) with (Z.of_nat (length (halfBytes (tileImage n))))
    by (rewrite length_half, length_tileImage; unfold mailWords; lia).
  by rewrite fitTo_exact, map_u8_half.
Qed.

Lemma downloadLoop_tile k c raw i s l s' :
  open s -> raw = None \/ raw = Some (halfBytes (tileImage n)) -> (i + k <= n)%nat ->
  downloadLoop fuel k c raw (Z.of_nat i) s = (Ret l, s') ->
  l = map tile (seqZ (Z.of_nat i) (Z.of_nat k)) /\ Forall (fun m => CountOdd m <= Count m) l.
Proof using device encodes wf_tile entries.
  intros Ho Hraw. revert i s l s' Ho. induction k as [|k IH]; intros i s l s' Ho Hk H; cbn [downloadLoop] in H.
  { apply mret_Ret_inv in H as [-> ->]. done. }
  cbv zeta in H. apply bind_Ret_inv in H as (m & s1 & H1 & H). apply bind_Ret_inv in H as (rest & s2 & H2 & H).
  apply mret_Ret_inv in H as [-> ->].
  assert (open s1 /\ m = tile (Z.of_nat i) /\ CountOdd m <= Count m) as (Ho1 & -> & Hm).
  { assert (retriedMoment fuel c (Z.of_nat i) s = (Ret m, s1) ->
      open s1 /\ m = tile (Z.of_nat i) /\ CountOdd m <= Count m) as Hread.
    { intros Hr. pose proof Hr as Hc. apply retriedMoment_tile in Hr as [Ho1 ->]; [|lia|done]. split_and!; [done..|].
      unfold retriedMoment in Hc. apply bind_Ret_inv in Hc as (r & s3 & H3 & Hc).
      apply attempt_Ret_inv in H3 as [(m' & -> & H3)|(e & -> & H3)].
      - apply mret_Ret_inv in Hc as [-> ->]. unfold checkedMoment in H3. inv_ret H3. unfold consistent in *. blia.
      - unfold checkedMoment in Hc. inv_ret Hc. unfold consistent in *. blia. }
    destruct Hraw as [->| ->]; [by apply Hread|]. rewrite rawWords_tile in H1 by lia.
    destruct (tileWords_ok (Z.of_nat i)) as (_ & _ & Hd). rewrite Hd in H1.
    destruct (consistent (tile (Z.of_nat i))) eqn:Hc; [|by apply Hread].
    apply mret_Ret_inv in H1 as [-> ->]. split_and!; [done..|]. unfold consistent in Hc. blia. }
  replace (Z.of_nat i + 1) with (Z.of_nat (S i)) in H2 by lia. apply IH in H2 as [-> F]; [|done|lia].
  split; [|by constructor]. by rewrite (Nat2Z.inj_succ k), (seqZ_cons (Z.of_nat i)), Z.pred_succ, Nat2Z.inj_succ by lia.
Qed.

(** C27: a download that returns is the tile: entry i is the accumulator's own
    moment, bin i/2 of channel i mod 2, whether the bus or its worker read it,
    through a word pop or word by word, and after any retry; and no entry
    counts more odd hits than hits. *)
Theorem StackDownload_tile c s l s' :
  open s -> StackDownload fuel c (Z.of_nat n) s = (Ret l, s') ->
  l = map tile (seqZ 0 (Z.of_nat n)) /\ Forall (fun m => CountOdd m <= Count m) l.
Proof using device encodes wf_tile entries worker.
  intros Ho H. unfold StackDownload in H. apply bind_Ret_inv in H as (u & s1 & H1 & H).
  apply guard_Ret_inv in H1 as [_ ->]. apply bind_Ret_inv in H as (raw & s2 & H2 & H).
  apply isolatedMoments_tile in H2 as [Ho2 Hraw]; [|done]. rewrite Nat2Z.id in H.
  by apply (downloadLoop_tile n c raw 0) in H.
Qed.
End download.
End tile.
