(* ===== verification/StackScan.v ===== *)
(** * A stacking session

    The configuration and the scan of src/app/internal/sramcapture/stack.go
    against stack_engine_port.v: what StackBegin leaves the engine to run, and
    that a scan holds the SRAM grant only while it runs. *)
From S2P Require Import Prelude Machine Fabric Bus BusSteps Command Ends Moments Status Open Stack.

(** ** The configuration the engine runs *)

(** stack_engine_port.v's configuration registers. *)
Record Port := {
  level : Z; hysteresis : Z; channel : Z; falling : bool; mask : Z; pre : Z; separation : Z; factor : Z; first_index : Z;
  qualify_enable : bool
}.
Definition port (f : Z -> Z) : Port :=
  {| level := bits (f 113) 0 8; hysteresis := bits (f 113) 8 8; channel := bits (f 114) 0 1; falling := flag (f 114) 1;
     mask := bits (f 114) 2 2; pre := wide (f 115) (f 116) 32; separation := wide (f 117) (f 118) 32;
     factor := bits (f 122) 0 16; first_index := wide (f 125) (f 126) 32; qualify_enable := flag (f 98) 0 |}.
(** And the qualifier's, read while it is enabled. *)
Record Qualifier := { count : Z; stride : Z; qualify_pre : Z; threshold : Z }.
Definition qualifierPort (f : Z -> Z) : Qualifier :=
  {| count := bits (f 99) 0 11; stride := bits (f 100) 0 8; qualify_pre := wide (f 101) (f 102) 32;
     threshold := wide (f 103) (f 104) 32 |}.

(** The template RAM behind its index (registers 96 and 97). *)
Record templateRAM := { at_index : Z; ram : Z -> Z }.
Definition templateStep (t : templateRAM) (r : Z * Z) : templateRAM :=
  if r.1 =? 96 then {| at_index := bits r.2 0 10; ram := ram t |}
  else if r.1 =? 97 then
    {| at_index := bits (at_index t + 1) 0 10;
       ram := fun i => if i =? at_index t then bits r.2 0 8 else ram t i |}
  else t.
Definition templateRun (t : templateRAM) (regs : list (Z * Z)) : templateRAM := fold_left templateStep regs t.

Lemma templateRun_app t l l' : templateRun t (l ++ l') = templateRun (templateRun t l) l'.
Proof. apply fold_left_app. Qed.

Lemma templateRun_cons t r l : templateRun t (r :: l) = templateRun (templateStep t r) l.
Proof. done. Qed.

(** Bytes written behind each other. *)
Lemma templateRun_bytes l t :
  Forall (fits 8) l -> 0 <= at_index t -> at_index t + Z.of_nat (length l) <= 1024 ->
  (forall k x, l !! k = Some x ->
     ram (templateRun t (map (fun v => (97, v .& 0xffff)) l)) (at_index t + Z.of_nat k) = x) /\
  (forall i, i < at_index t -> ram (templateRun t (map (fun v => (97, v .& 0xffff)) l)) i = ram t i).
Proof.
  revert t. induction l as [|v l IH]; intros t F Hi Hn; [by split|]. apply Forall_cons in F as [Fv F].
  cbn [length] in Hn. cbn [map]. rewrite templateRun_cons.
  set (t1 := templateStep t (97, v .& 0xffff)).
  assert (bits (v .& 0xffff) 0 8 = v) as Hv.
  { change (v .& 0xffff) with (bits v 0 16). rewrite (bits_self v 16) by (try lia; by apply (fits_le 8)).
    apply bits_self; [done|lia]. }
  assert (forall i, ram t1 i = if i =? at_index t then v else ram t i) as Hr by (intros i; unfold t1; simpl; by rewrite Hv).
  destruct l as [|v' l].
  { split.
    - intros k x Hk. destruct k as [|k]; [|by destruct k]. injection Hk as ->. rewrite Z.add_0_r. change (templateRun t1 (map _ [])) with t1. rewrite Hr.
      by rewrite Z.eqb_refl.
    - intros i Hlt. change (templateRun t1 (map _ [])) with t1. rewrite Hr. destruct (Z.eqb_spec i (at_index t)); [lia|done]. }
  assert (at_index t1 = at_index t + 1) as H1.
  { unfold t1. simpl. apply bits_self; [|lia]. unfold fits. cbn [length] in Hn. lia. }
  destruct (IH t1) as [I1 I2]; [done|rewrite H1; cbn [length] in *; lia..|]. split.
  - intros k x Hk. destruct k as [|k].
    + injection Hk as ->. rewrite Z.add_0_r, I2 by lia. by rewrite Hr, Z.eqb_refl.
    + specialize (I1 k x Hk). rewrite H1 in I1. by replace (at_index t + Z.of_nat (S k)) with (at_index t + 1 + Z.of_nat k) by lia.
  - intros i Hlt. rewrite I2 by lia. rewrite Hr. destruct (Z.eqb_spec i (at_index t)); [lia|done].
Qed.

Definition regWrites (w : stackReg) : list (Z * Z) :=
  if two w then [(sel w, val w .& 0xffff); (sel w + 1, u16 (val w .>> 16))] else [(sel w, val w .& 0xffff)].
Definition templateWrites (cfg : StackConfig) : list (Z * Z) :=
  match Template cfg with
  | [] => [(selStackQualify, 0)]
  | l => (selStackTemplateIndex, 0) :: map (fun v => (selStackTemplateByte, v .& 0xffff)) l ++
         concat (map regWrites (qualifierRegs cfg))
  end.

(** What a valid configuration asks for. *)
Definition run (cfg : StackConfig) : Port :=
  {| level := Level cfg; hysteresis := Hysteresis cfg; channel := Channel cfg; falling := Falling cfg;
     mask := ChannelMask cfg; pre := PreSamples cfg; separation := MinSeparation cfg; factor := Factor cfg;
     first_index := 0; qualify_enable := (0 <? length (Template cfg))%nat |}.
Definition runQualifier (cfg : StackConfig) : Qualifier :=
  {| count := Z.of_nat (length (Template cfg)); stride := TemplateStride cfg; qualify_pre := TemplatePre cfg;
     threshold := TemplateThreshold cfg |}.

Section session.
Context {E : Env} (fuel : nat).

Lemma issues_writeReg w : issues (writeReg w) (regWrites w).
Proof. unfold writeReg, regWrites. destruct (two w); [apply issues_write32|apply issues_write]. Qed.
Lemma issues_writeRegs l : issues (each writeReg l) (concat (map regWrites l)).
Proof. apply issues_each. intros w. apply issues_writeReg. Qed.

Lemma concat_single {A B} (f : A -> B) l : concat (map (fun v => [f v]) l) = map f l.
Proof. induction l as [|a l IH]; [done|]. cbn [map concat app]. by rewrite IH. Qed.

(** The qualifier's template fits the image it was checked against. *)
Lemma stackQualifier_Ret cfg s u s' :
  queueOk s -> stackQualifier cfg s = (Ret u, s') ->
  queueOk s' /\ issued s' = issued s ++ templateWrites cfg /\
  (Template cfg <> [] -> exists h x, env_Read h selStackTemplateCap = inl x /\ Z.of_nat (length (Template cfg)) <= u16 x).
Proof.
  intros Hq H. unfold stackQualifier in H. unfold templateWrites. destruct (Template cfg) as [|v l] eqn:Ht.
  { apply issues_write in H as [? ?]; [|done]. split_and!; [done..|by intros []]. }
  rewrite <- Ht in *. clear Ht. apply bind_Ret_inv in H as (x & s1 & H1 & H).
  pose proof H1 as Hx. apply read_answer in Hx as (h & y & Hy & -> & _); [|done|done].
  apply issues_read in H1 as [Hq1 Hi1]; [|done]. rewrite app_nil_r in Hi1.
  apply bind_Ret_inv in H as (u1 & s2 & H2 & H). apply guard_Ret_inv in H2 as [Hg ->]. rewrite <- Hi1.
  assert (issues (write selStackTemplateIndex 0;; each (fun v => write selStackTemplateByte (v .& 0xffff)) (Template cfg);;
    each writeReg (qualifierRegs cfg)) ((selStackTemplateIndex, 0) ::
      map (fun v => (selStackTemplateByte, v .& 0xffff)) (Template cfg) ++ concat (map regWrites (qualifierRegs cfg)))) as Hi.
  { apply issues_write_then. apply issues_bind; [|intros _; apply issues_writeRegs].
    rewrite <- concat_single. apply issues_each. intros a. apply issues_write. }
  apply Hi in H as [? ?]; [|done]. split_and!; [done..|]. intros _. exists h, y. split; [done|]. blia.
Qed.
End session.

(** ** StackBegin *)

Lemma written_other l f x : Forall (fun r => r.1 <> x) l -> written l f x = f x.
Proof.
  revert f. induction l as [|r l IH]; intros f F; [done|]. apply Forall_cons in F as [Hr F].
  unfold written. cbn [fold_left]. fold (written l). change (fold_left _ l ?g) with (written l g). rewrite IH by done.
  by rewrite (proj2 (Z.eqb_neq _ _)) by done.
Qed.

Lemma others_cons (r : Z * Z) l x : r.1 <> x -> Forall (fun r => r.1 <> x) l -> Forall (fun r => r.1 <> x) (r :: l).
Proof. by constructor. Qed.
Lemma bytes_others l x : x <> 97 -> Forall (fun r => r.1 <> x) (map (fun v => (selStackTemplateByte, v .& 0xffff)) l).
Proof. intros Hx. apply Forall_fmap, Forall_true. intros a. change (97 <> x). lia. Qed.

Lemma templateWrites_others cfg x : x < 96 \/ 104 < x -> Forall (fun r => r.1 <> x) (templateWrites cfg).
Proof.
  intros Hx. unfold templateWrites. destruct (Template cfg) as [|v l]; [apply others_cons; [intros Heq; vm_compute in Heq; lia|apply List.Forall_nil]|].
  apply others_cons; [intros Heq; vm_compute in Heq; lia|]. apply Forall_app. split; [apply bytes_others; lia|].
  repeat (apply others_cons; [intros Heq; vm_compute in Heq; lia|]). apply List.Forall_nil.
Qed.
Lemma templateWrites_qualify cfg f :
  flag (written (templateWrites cfg) f 98) 0 = (0 <? length (Template cfg))%nat.
Proof.
  unfold templateWrites. destruct (Template cfg) as [|v l]; [done|]. rewrite app_comm_cons, written_app. done.
Qed.

Lemma validate_ok cfg tile pow2 :
  wf cfg -> validate cfg tile pow2 = None ->
  fits 1 (Channel cfg) /\ fits 16 (Factor cfg) /\ fits 2 (ChannelMask cfg) /\
  (Template cfg <> [] -> fits 8 (TemplateStride cfg) /\ 0 <= TemplatePre cfg /\ 0 <= TemplateThreshold cfg) /\
  Forall (fits 8) (Template cfg).
Proof.
  unfold wf, validate, fits. intros Hwf H. destruct (tile =? 0); [done|]. destruct (1 <? Channel cfg) eqn:H1; [done|].
  destruct ((Bins cfg <? 1) || _); [done|]. destruct ((Factor cfg <? 1) || _) eqn:H2; [done|].
  destruct (pow2 && _); [done|]. destruct ((ChannelMask cfg =? 0) || _) eqn:H3; [done|].
  destruct ((0 <? length (Template cfg))%nat && _) eqn:H4; [done|].
  destruct (find _ (Template cfg)) eqn:H5; [done|]. clear H. split; [blia|]. split; [blia|]. split; [blia|]. split.
  - intros Ht. destruct (Nat.ltb_spec 0 (length (Template cfg))); [|destruct (Template cfg); simpl in *; [done|lia]].
    simpl in H4. blia.
  - apply Forall_forall. intros v Hv. apply list_elem_of_In in Hv. pose proof (find_none _ _ H5 v Hv) as Hn. simpl in Hn. blia.
Qed.

(** The ints of a template, bounded by the target's int. *)
Definition wfTemplate (cfg : StackConfig) : Prop := TemplatePre cfg < 2 ^ 31 /\ TemplateThreshold cfg < 2 ^ 31.

Definition beginWrites (cfg : StackConfig) : list (Z * Z) := concat (map regWrites (beginRegs cfg)) ++ templateWrites cfg.

Lemma land_u16 v : v .& 0xffff = u16 v.
Proof. change 65535 with (Z.ones 16). by rewrite Z.land_ones by lia. Qed.

Lemma beginRegs_writes cfg :
  concat (map regWrites (beginRegs cfg)) =
  [(113, (Level cfg .| (Hysteresis cfg .<< 8)) .& 0xffff);
   (114, (Channel cfg .| (ChannelMask cfg .<< 2) .| bit (Falling cfg) 2) .& 0xffff);
   (115, PreSamples cfg .& 0xffff); (116, u16 (PreSamples cfg .>> 16));
   (117, MinSeparation cfg .& 0xffff); (118, u16 (MinSeparation cfg .>> 16));
   (122, u32 (Factor cfg) .& 0xffff); (125, 0 .& 0xffff); (126, u16 (0 .>> 16))].
Proof. reflexivity. Qed.
Lemma qualifierRegs_writes cfg :
  concat (map regWrites (qualifierRegs cfg)) =
  [(99, Z.of_nat (length (Template cfg)) .& 0xffff); (100, u32 (TemplateStride cfg) .& 0xffff);
   (101, u32 (TemplatePre cfg) .& 0xffff); (102, u16 (u32 (TemplatePre cfg) .>> 16));
   (103, u32 (TemplateThreshold cfg) .& 0xffff); (104, u16 (u32 (TemplateThreshold cfg) .>> 16)); (98, 1 .& 0xffff)].
Proof. reflexivity. Qed.

Lemma port_begin cfg f :
  wf cfg -> fits 1 (Channel cfg) -> fits 16 (Factor cfg) -> fits 2 (ChannelMask cfg) ->
  port (written (beginWrites cfg) f) = run cfg.
Proof.
  intros (_ & Hl & Hh & Hp & Hs & _) Hc Hf Hm. unfold beginWrites. rewrite written_app.
  set (g := written _ f). unfold port, run. rewrite templateWrites_qualify.
  rewrite !(written_other (templateWrites cfg)) by (apply templateWrites_others; lia). unfold g. rewrite beginRegs_writes. unfold written.
  cbn -[flag bits wide u16 u32]. unfold flag. rewrite !wide_split by (done || lia).
  rewrite !land_u16, u32_fits by (by apply (fits_le 16)). f_equal; bits_tac; done.
Qed.

Lemma port_qualifier cfg f :
  Template cfg <> [] -> Z.of_nat (length (Template cfg)) <= 1024 -> fits 8 (TemplateStride cfg) ->
  0 <= TemplatePre cfg -> 0 <= TemplateThreshold cfg -> wfTemplate cfg ->
  qualifierPort (written (beginWrites cfg) f) = runQualifier cfg.
Proof.
  intros Ht Hn Hs Hp Hh [Hp' Hh']. unfold beginWrites, templateWrites. destruct (Template cfg) as [|v l] eqn:El; [done|].
  rewrite <- El in *. clear El Ht. rewrite written_app, app_comm_cons, written_app.
  rewrite qualifierRegs_writes. generalize (written ((selStackTemplateIndex, 0) :: map (fun v => (selStackTemplateByte, v .& 0xffff)) (Template cfg))
    (written (concat (map regWrites (beginRegs cfg))) f)).
  intros g. unfold qualifierPort, runQualifier, written.
  cbn -[flag bits wide u16 u32 length].
  assert (fits 32 (TemplatePre cfg)) as F1 by (unfold fits; lia).
  assert (fits 32 (TemplateThreshold cfg)) as F2 by (unfold fits; lia).
  assert (fits 11 (Z.of_nat (length (Template cfg)))) as F3 by (unfold fits; lia).
  rewrite (u32_fits (TemplatePre cfg)), (u32_fits (TemplateThreshold cfg)) by done. rewrite !wide_split by (done || lia).
  rewrite !land_u16, u32_fits by (by apply (fits_le 8)). f_equal; by bits_tac.
Qed.

Lemma templateRun_others t l : Forall (fun r => r.1 <> 96 /\ r.1 <> 97) l -> templateRun t l = t.
Proof.
  revert t. induction l as [|r l IH]; intros t F; [done|]. apply Forall_cons in F as [[H1 H2] F].
  rewrite templateRun_cons, IH by done. unfold templateStep. by rewrite !(proj2 (Z.eqb_neq _ _)) by done.
Qed.
Lemma templateRun_begin cfg t : templateRun t (concat (map regWrites (beginRegs cfg))) = t.
Proof. rewrite beginRegs_writes. apply templateRun_others. repeat constructor; done. Qed.
Lemma templateRun_qualifier cfg t : templateRun t (concat (map regWrites (qualifierRegs cfg))) = t.
Proof. rewrite qualifierRegs_writes. apply templateRun_others. repeat constructor; done. Qed.
Lemma ram_begin cfg t k x :
  Forall (fits 8) (Template cfg) -> Z.of_nat (length (Template cfg)) <= 1024 -> Template cfg !! k = Some x ->
  ram (templateRun t (beginWrites cfg)) (Z.of_nat k) = x.
Proof.
  intros F Hn Hk. unfold beginWrites, templateWrites. destruct (Template cfg) as [|v l] eqn:El; [done|].
  rewrite <- El in *. clear El. rewrite templateRun_app, templateRun_begin.
  rewrite templateRun_cons, templateRun_app.
  set (t1 := templateStep t (selStackTemplateIndex, 0)). assert (at_index t1 = 0) as H1 by done.
  rewrite templateRun_qualifier.
  destruct (templateRun_bytes (Template cfg) t1) as [Hr _]; [done|by rewrite H1|by rewrite H1|].
  specialize (Hr k x Hk). by rewrite H1 in Hr.
Qed.

Section begin.
Context {E : Env}.

(** a session the image accepts is the session asked for: the engine runs
    with the configuration's level, edge, windows, factor and channel mask,
    and with qualification exactly when a template is given; then the
    template RAM holds the template, whatever it held, and the qualifier its
    length, stride, offset and threshold, none of them truncated. *)
Theorem StackBegin_fabric cfg s tile s' t f :
  (forall h x, env_Read h selStackTemplateCap = inl x -> u16 x <= 1024) ->
  wf cfg -> wfTemplate cfg -> queueOk s -> StackBegin cfg s = (Ret tile, s') ->
  exists regs, issued s' = issued s ++ regs /\ port (written regs f) = run cfg /\
    (Template cfg <> [] -> qualifierPort (written regs f) = runQualifier cfg) /\
    forall k x, Template cfg !! k = Some x -> ram (templateRun t regs) (Z.of_nat k) = x.
Proof.
  intros Hcap Hw Hwt Hq H. unfold StackBegin in H. apply bind_Ret_inv in H as (tl & s1 & H1 & H).
  assert (issues stackTileBins []) as Hi1 by (unfold stackTileBins; issues_tac).
  apply Hi1 in H1 as [Hq1 H1]; [|done]. apply bind_Ret_inv in H as (caps & s2 & H2 & H).
  apply issues_read in H2 as [Hq2 H2]; [|done]. apply bind_Ret_inv in H as (u & s3 & H3 & H).
  apply liftErr_Ret_inv in H3 as [Hv ->]. apply validate_ok in Hv as (Hc & Hf & Hm & Ht & F); [|done].
  apply bind_Ret_inv in H as (u1 & s4 & H4 & H). apply issues_writeRegs in H4 as [Hq4 H4]; [|done].
  apply bind_Ret_inv in H as (u2 & s5 & H5 & H). apply mret_Ret_inv in H as [-> ->].
  apply stackQualifier_Ret in H5 as (_ & H5 & Hlen); [|done].
  exists (beginWrites cfg). split; [unfold beginWrites; by rewrite H5, H4, H2, H1, !app_nil_r, <- app_assoc|].
  split; [by apply port_begin|].
  assert (Z.of_nat (length (Template cfg)) <= 1024) as Hn.
  { destruct (Template cfg) as [|v l] eqn:El; [simpl; lia|]. destruct Hlen as (h & x & Hx & Hl); [done|].
    apply Hcap in Hx. lia. }
  split; [|intros k x Hk; by apply ram_begin].
  intros Hne. destruct (Ht Hne) as (? & ? & ?). by apply port_qualifier.
Qed.
End begin.

(** ** The scan *)

(** The writes put on the bus, accepted or not. *)
Definition attempt_of (e : event) : list (Z * Z) :=
  match e with
  | EvWrite sel v _ => [(sel, v)]
  | EvWriteMany regs _ => regs
  | _ => []
  end.
Definition attemptsOf (h : history) : list (Z * Z) := concat (map attempt_of h).
Lemma attemptsOf_snoc h e : attemptsOf (h ++ [e]) = attemptsOf h ++ attempt_of e.
Proof. unfold attemptsOf. rewrite map_app, concat_app. simpl. by rewrite app_nil_r. Qed.

Section scan.
Context {E : Env} (fuel : nat).

(** [m] puts exactly [l] on the bus, returning or failing. *)
Definition puts {A} (l : list (Z * Z)) (m : M A) : Prop := forall s, open s -> ends (m s).1 ->
  open (m s).2 /\ attemptsOf (trace (m s).2) = attemptsOf (trace s) ++ l.

Lemma puts_then {A B} l (m : M A) (f : A -> M B) : puts [] m -> (forall a, puts l (f a)) ->
  forall s a s1, open s -> m s = (Ret a, s1) -> ends ((m ≫= f) s).1 ->
  open ((m ≫= f) s).2 /\ attemptsOf (trace ((m ≫= f) s).2) = attemptsOf (trace s) ++ l.
Proof.
  intros Hm Hf s a s1 Ho H1 He. rewrite (bind_Ret m f s a s1 H1) in *.
  destruct (Hm s Ho) as [Ho1 Ht1]; [by rewrite H1|]. rewrite H1, app_nil_r in *. cbn [snd] in *.
  rewrite <- Ht1. by apply Hf.
Qed.
Lemma puts_bind_silent {A B} l (m : M A) (f : A -> M B) : puts l m -> (forall a, puts [] (f a)) -> puts l (m ≫= f).
Proof.
  intros Hm Hf s Ho He. specialize (Hm s Ho). unfold mbind, SE_bind in *.
  destruct (m s) as [[a|e| |] s1]; try (by apply Hm). destruct Hm as [Ho1 Ht1]; [done|]. cbn [fst snd] in *.
  destruct (Hf a s1 Ho1 He) as [Ho2 Ht2]. by rewrite Ht2, Ht1, app_nil_r.
Qed.
(** A first step that cannot fail. *)
Lemma puts_after {A B} l (m : M A) (f : A -> M B) :
  (forall s, exists a, m s = (Ret a, s)) -> (forall a, puts l (f a)) -> puts l (m ≫= f).
Proof.
  intros Hm Hf s Ho He. destruct (Hm s) as [a Ha]. rewrite (bind_Ret m f s a s Ha) in *. by apply Hf.
Qed.

Lemma puts_pure {A} (m : M A) : (forall s, (m s).2 = s) -> puts [] m.
Proof. intros H s Ho _. by rewrite H, app_nil_r. Qed.
Lemma puts_guard b e : puts [] (guard b e).
Proof. apply puts_pure. by destruct b. Qed.
Lemma puts_emit e : attempt_of e = [] -> puts [] (emit e).
Proof. intros He s Ho _. split; [exact Ho|]. cbn [snd emit modify trace set_trace]. by rewrite attemptsOf_snoc, He. Qed.

Lemma read_silent sel s : open s -> open (read sel s).2 /\ attemptsOf (trace (read sel s).2) = attemptsOf (trace s).
Proof.
  intros Ho. split; [by apply (steps_read keepsOpen)|]. destruct Ho as [[Ha Hp] _]. rewrite read_uncached by done.
  erewrite bind_Ret by (by apply flushWrites_settled). unfold busRead, gets, emit, modify, addBeats, mbind, SE_bind.
  unfold lift. destruct (env_Read _ _); cbn -[attemptsOf]; by rewrite attemptsOf_snoc, app_nil_r.
Qed.
Lemma puts_read sel : puts [] (read sel).
Proof. intros s Ho _. rewrite app_nil_r. by apply read_silent. Qed.
Lemma puts_read32 sel : puts [] (read32 sel).
Proof.
  apply puts_bind_silent; [apply puts_read|intros lo]. apply puts_bind_silent; [apply puts_read|intros hi].
  by apply puts_pure.
Qed.
Lemma write_puts sel v s :
  open s -> ends (write sel v s).1 /\ open (write sel v s).2 /\
  attemptsOf (trace (write sel v s).2) = attemptsOf (trace s) ++ [(sel, v)].
Proof.
  intros Ho. split; [apply write_ends|]. split; [by apply (steps_write keepsOpen)|]. destruct Ho as [_ Hq].
  unfold write. erewrite bind_Ret by reflexivity. rewrite Hq. unfold busWrite, gets, emit, modify, mbind, SE_bind.
  unfold liftErr. destruct (env_RawWrite _ _ _); cbn -[attemptsOf]; by rewrite attemptsOf_snoc.
Qed.
Lemma puts_write sel v : puts [(sel, v)] (write sel v).
Proof. intros s Ho _. by apply write_puts. Qed.

Lemma puts_stackLoop n c op i u : puts [] (stackLoop n c op i u).
Proof.
  revert i u. induction n as [|n IH]; intros i u; cbn [stackLoop]; [by apply puts_pure|].
  apply puts_bind_silent; [apply puts_read|intros v]. destruct (_ =? 0); [apply puts_guard|].
  apply puts_bind_silent; [by apply puts_pure|intros [e|]]; [by apply puts_pure|]. destruct (negb _); [apply IH|].
  apply puts_bind_silent; [by apply puts_pure|intros t]. cbv zeta. destruct (_ <? _); [apply IH|].
  apply puts_bind_silent; [by apply puts_emit|intros w]. apply IH.
Qed.
Lemma puts_stackOp c op timeout : puts [(selStackOp, op)] (stackOp fuel c op timeout).
Proof.
  apply puts_after; [by eexists|intros c']. apply puts_bind_silent; [apply puts_write|intros u]. apply puts_stackLoop.
Qed.
Lemma puts_grantLoop n c on : puts [] (grantLoop n c on).
Proof.
  induction n as [|n IH]; cbn [grantLoop]; [by apply puts_pure|]. apply puts_bind_silent; [apply puts_read|intros v].
  destruct (Bool.eqb _ _); [by apply puts_pure|]. apply puts_bind_silent; [by apply puts_pure|intros [e|]]; [by apply puts_pure|apply IH].
Qed.
Lemma puts_stackGrant c on : puts [(selStackGrant, bit on 1)] (stackGrant fuel c on).
Proof.
  apply puts_bind_silent; [apply puts_write|intros u]. apply puts_bind_silent; [by apply puts_pure|intros c'].
  apply puts_grantLoop.
Qed.
Lemma puts_scanBody c : puts [(selStackOp, stackOpScan)] (scanBody fuel c).
Proof.
  apply puts_bind_silent; [apply puts_stackOp|intros u]. repeat (apply puts_bind_silent; [apply puts_read32|intros ?]).
  by apply puts_pure.
Qed.

Lemma finally_run {A} (m : M A) d s :
  finally m d s =
  match m s with
  | (Ret a, s1) =>
      match d None s1 with
      | (Ret None, s2) => (Ret a, s2) | (Ret (Some e), s2) => (Fail e, s2)
      | (Fail e, s2) => (Fail e, s2) | (Panic, s2) => (Panic, s2) | (OutOfFuel, s2) => (OutOfFuel, s2)
      end
  | (Fail e, s1) =>
      match d (Some e) s1 with
      | (Ret None, s2) => (Fail e, s2) | (Ret (Some e'), s2) => (Fail e', s2)
      | (Fail e', s2) => (Fail e', s2) | (Panic, s2) => (Panic, s2) | (OutOfFuel, s2) => (OutOfFuel, s2)
      end
  | (Panic, s1) => (Panic, s1)
  | (OutOfFuel, s1) => (OutOfFuel, s1)
  end.
Proof.
  unfold finally, attempt, mbind, SE_bind. destruct (m s) as [[a|e| |] s1]; [| |done..].
  - by destruct (d None s1) as [[[]|x| |] s2].
  - by destruct (d (Some e) s1) as [[[]|x| |] s2].
Qed.

(** The deferred return runs on every end of the scan. *)
Lemma puts_finally {A} l l' (m : M A) d :
  puts l m -> (forall e, puts l' (d e)) -> puts (l ++ l') (finally m d).
Proof.
  intros Hm Hd s Ho He. rewrite finally_run in *. specialize (Hm s Ho).
  destruct (m s) as [[a|e| |] s1]; try done; destruct Hm as [Ho1 Ht1]; try done; cbn [fst snd] in *.
  - destruct (Hd None s1 Ho1) as [Ho2 Ht2]; destruct (d None s1) as [[[]|x| |] s2]; try done; cbn [fst snd] in *;
      by rewrite Ht2, Ht1, app_assoc.
  - destruct (Hd (Some e) s1 Ho1) as [Ho2 Ht2]; destruct (d (Some e) s1) as [[[]|x| |] s2]; try done; cbn [fst snd] in *;
      by rewrite Ht2, Ht1, app_assoc.
Qed.

Lemma puts_errOf l (m : M unit) : puts l m -> puts l (errOf m).
Proof.
  intros Hm. apply puts_bind_silent; [|intros r; by apply puts_pure].
  intros s Ho He. specialize (Hm s Ho). unfold attempt in *. destruct (m s) as [[] s1]; try done; by apply Hm.
Qed.
Lemma puts_scanEnd failed : puts [(selStackGrant, 0)] (scanEnd fuel failed).
Proof. apply puts_bind_silent; [apply puts_errOf, (puts_stackGrant background false)|intros e]. by apply puts_pure. Qed.

(** A sequence of writes stops at the first that fails. *)
Definition triesAll {A} (l : list (Z * Z)) (m : M A) : Prop := forall s, open s ->
  open (m s).2 /\ exists k, (k <= length l)%nat /\ attemptsOf (trace (m s).2) = attemptsOf (trace s) ++ take k l /\
    (forall a, (m s).1 = Ret a -> k = length l).
Lemma tries_bind {A B} l l' (m : M A) (f : A -> M B) :
  triesAll l m -> (forall a, triesAll l' (f a)) -> triesAll (l ++ l') (m ≫= f).
Proof.
  intros Hm Hf s Ho. destruct (Hm s Ho) as (Ho1 & k & Hk & Ht & Hr). unfold mbind, SE_bind.
  destruct (m s) as [[a|e| |] s1]; cbn [fst snd] in *;
    try (split; [done|]; exists k; rewrite length_app, take_app_le by lia; split_and!; [lia|done|done]).
  rewrite (Hr a eq_refl), take_ge in Ht by lia. destruct (Hf a s1 Ho1) as (Ho2 & k2 & Hk2 & Ht2 & Hr2). split; [done|].
  exists (length l + k2)%nat. rewrite length_app. split; [lia|]. split; [|intros b Hb; by rewrite (Hr2 b Hb)].
  rewrite Ht2, Ht, <- app_assoc, take_app_ge by lia. do 3 f_equal. lia.
Qed.
Lemma tries_write sel v : triesAll [(sel, v)] (write sel v).
Proof. intros s Ho. destruct (write_puts sel v s Ho) as (He & Ho1 & Ht). split; [done|]. by exists 1%nat. Qed.
Lemma tries_ret {A} (a : A) : triesAll [] (mret a).
Proof. intros s Ho. split; [done|]. exists 0%nat. by rewrite app_nil_r. Qed.
Lemma tries_regs l : triesAll (concat (map regWrites l)) (each writeReg l).
Proof.
  induction l as [|w l IH]; [apply tries_ret|]. apply tries_bind; [|intros _; exact IH].
  unfold writeReg, regWrites. destruct (two w); [|apply tries_write].
  apply (tries_bind [_] [_]); [|intros _]; apply tries_write.
Qed.

(** The writes of a scan: the record's part of the grid, the grant, the scan,
    the grant's return. *)
Definition gridWrites (first n initial : Z) : list (Z * Z) := concat (map regWrites (scanRegs first n initial)).
Definition scanWrites (first n initial : Z) : list (Z * Z) :=
  gridWrites first n initial ++ [(selStackGrant, 1); (selStackOp, stackOpScan); (selStackGrant, 0)].

(** A grant that is seen is the last thing read. *)
Lemma stackGrant_seen c on s a s' :
  open s -> stackGrant fuel c on s = (Ret a, s') ->
  open s' /\ exists h x, trace s' = h ++ [EvRead selStackGrant (inl x)] /\ has (u16 x) 2 = on.
Proof.
  intros Ho H. unfold stackGrant in H. apply bind_Ret_inv in H as (u & s1 & H1 & H).
  apply write_open in H1 as [Ho1 _]; [|done]. apply bind_Ret_inv in H as (c' & s2 & H2 & H). injection H2 as _ <-.
  revert s1 Ho1 H. generalize fuel as n. induction n as [|n IH]; intros s1 Ho1 H; cbn [grantLoop] in H; [done|].
  apply bind_Ret_inv in H as (v & s2 & H2 & H). apply read_open in H2 as (Ho2 & x & _ & -> & Ht); [|done].
  destruct (Bool.eqb (has (u16 x) 2) on) eqn:Hb.
  - apply mret_Ret_inv in H as [_ ->]. split; [done|]. exists (trace s1), x. split; [done|]. by apply eqb_prop.
  - apply bind_Ret_inv in H as (e & s3 & H3 & H). injection H3 as _ <-. destruct e; [done|]. by apply IH in H.
Qed.

Lemma puts_readMany sels : puts [] (readMany sels).
Proof.
  intros s Ho He. rewrite app_nil_r. split; [by apply readMany_open|]. unfold readMany in *.
  rewrite (bind_Ret flushWrites _ s tt s) in * by (apply flushWrites_settled, Ho).
  destruct env_ReadMany as [many|].
  - unfold gets, emit, modify, addBeats, lift, mbind, SE_bind in *. destruct (many _ _); cbn -[attemptsOf];
      by rewrite attemptsOf_snoc, app_nil_r.
  - clear He. revert s Ho. induction sels as [|sel sels IH]; intros s Ho; cbn [readEach]; [done|].
    destruct (read_silent sel s Ho) as [Ho1 H1]. unfold mbind, SE_bind.
    destruct (read sel s) as [[v|e| |] s1]; cbn [snd] in *; try done. specialize (IH s1 Ho1).
    destruct (readEach sels s1) as [[vs|e| |] s2]; cbn -[attemptsOf] in *; by rewrite IH, H1.
Qed.
Ltac silent_tac :=
  repeat first
    [ apply puts_readMany | apply puts_read | apply puts_read32 | apply puts_guard
    | match goal with
      | |- puts [] (mbind _ _) => apply puts_bind_silent; [|intros ?]
      | |- puts [] (if ?b then _ else _) => destruct b
      | |- puts [] (match ?x with _ => _ end) => destruct x
      | |- puts [] (mret _) => by apply puts_pure
      | |- puts [] (fail _) => by apply puts_pure
      | |- puts [] (let _ := _ in _) => cbv zeta
      end ].
Lemma puts_status : puts [] status.
Proof. unfold status, statusIdentity, statusRate, statusFormat, sampleTimeline. silent_tac. Qed.
Lemma status_ends s : ends (status s).1.
Proof.
  assert (total anyState status) as H; [|by apply H].
  unfold status, statusIdentity, statusRate, statusFormat, sampleTimeline. ends_tac.
Qed.

Lemma scan_finally c s o s' :
  open s -> finally (scanBody fuel c) (scanEnd fuel) s = (o, s') -> ends o ->
  open s' /\ attemptsOf (trace s') = attemptsOf (trace s) ++ [(selStackOp, stackOpScan); (selStackGrant, 0)] /\
  (forall r, o = Ret r -> exists h x, trace s' = h ++ [EvRead selStackGrant (inl x)] /\ has (u16 x) 2 = false).
Proof.
  intros Ho H He. pose proof (puts_finally _ _ _ _ (puts_scanBody c) puts_scanEnd s Ho) as Hp. rewrite H in Hp.
  destruct (Hp He) as [Ho' Ht]. split_and!; [done|done|]. intros r ->.
  apply finally_Ret_inv in H as (s1 & H1 & H). unfold scanEnd in H. apply bind_Ret_inv in H as (e & s2 & H2 & H).
  injection H as -> <-. apply errOf_None_inv in H2. apply stackGrant_seen in H2 as [_ Hg]; [done|].
  pose proof (puts_scanBody c s Ho) as Hb. rewrite H1 in Hb. by apply Hb.
Qed.

(** C32: a scan's writes are the grid, the grant, the scan and the grant's
    return, in that order. A run that gets past the grant always asks for its
    return, failed or not; one that stops earlier stops within the grid or at
    a grant it did not get; and a scan that succeeds has seen the grant gone. *)
Theorem StackScan_grant c first n initial s o s' :
  open s -> StackScan fuel c first n initial s = (o, s') -> ends o ->
  let grid := length (gridWrites first n initial) in
  open s' /\ exists k, attemptsOf (trace s') = attemptsOf (trace s) ++ take k (scanWrites first n initial) /\
    (k <= grid + 1 \/ k = grid + 3)%nat /\
    (forall r, o = Ret r -> k = (grid + 3)%nat /\
       exists h x, trace s' = h ++ [EvRead selStackGrant (inl x)] /\ has (u16 x) 2 = false).
Proof.
  intros Ho H He grid.
  assert (forall s1, open s1 -> attemptsOf (trace s1) = attemptsOf (trace s) ->
    (forall r, o <> Ret r) -> s' = s1 -> open s' /\ exists k,
    attemptsOf (trace s') = attemptsOf (trace s) ++ take k (scanWrites first n initial) /\
    (k <= grid + 1 \/ k = grid + 3)%nat /\
    (forall r, o = Ret r -> k = (grid + 3)%nat /\
       exists h x, trace s' = h ++ [EvRead selStackGrant (inl x)] /\ has (u16 x) 2 = false)) as Hstop.
  { intros s1 Ho1 Ht Hr ->. split; [done|]. exists 0%nat. rewrite Ht, app_nil_r. split_and!; [done|lia|].
    intros r Hr'. by destruct (Hr r). }
  unfold StackScan in H. unfold mbind at 1, SE_bind at 1 in H.
  destruct (puts_status s Ho (status_ends s)) as [Ho1 Ht1]. rewrite app_nil_r in Ht1.
  destruct (status s) as [[m|e| |] s1]; cbn [snd] in *; try (injection H as <- <-; by apply (Hstop s1); auto).
  unfold mbind at 1, SE_bind at 1 in H.
  destruct (negb (Ready m) || negb (Frozen m) || Running m || negb (SamplesPerWord m =? 2) || (Length m =? 0)); cbn [guard fail mret SE_ret] in H; [injection H as <- <-; by apply (Hstop s1); auto|].
  clear Hstop. unfold mbind at 1, SE_bind at 1 in H.
  destruct (tries_regs (scanRegs first n initial) s1 Ho1) as (Ho2 & k & Hk & Ht2 & Hr2). fold (gridWrites first n initial) in *.
  fold grid in Hk. rewrite Ht1 in Ht2.
  destruct (each writeReg (scanRegs first n initial) s1) as [[u|e| |] s2]; cbn [fst snd] in *;
    try (injection H as <- <-; done).
  2: { injection H as <- <-. split; [done|]. exists k. split; [|split; [lia|done]].
       unfold scanWrites. by rewrite take_app_le. }
  rewrite (Hr2 _ eq_refl), take_ge in Ht2 by done. clear k Hk Hr2. unfold mbind at 1, SE_bind at 1 in H.
  pose proof (puts_stackGrant c true s2 Ho2) as Hg.
  destruct (stackGrant fuel c true s2) as [[u'|e| |] s3]; cbn [fst snd] in *; try (injection H as <- <-; done).
  - destruct Hg as [Ho3 Ht3]; [done|]. apply (scan_finally c) in H as (Ho' & Ht' & Hlast); [|done..]. split; [done|].
    exists (grid + 3)%nat. split_and!; [|lia|].
    + rewrite take_ge by (unfold scanWrites; rewrite length_app; cbn; lia).
      by rewrite Ht', Ht3, Ht2, <- !app_assoc.
    + intros r Hr. split; [done|]. by apply (Hlast r).
  - destruct Hg as [Ho3 Ht3]; [done|]. injection H as <- <-. split; [done|]. exists (grid + 1)%nat. split_and!; [|lia|done].
    unfold scanWrites. rewrite take_app_ge by lia. fold grid. replace (grid + 1 - grid)%nat with 1%nat by lia.
    by rewrite Ht3, Ht2, <- app_assoc.
Qed.
End scan.
