(* ===== verification/Worker.v ===== *)
(** * The acquisition worker

    The state and the background work of src/app/internal/bus/
    worker_server_linux.go: acquisitionWorker, pump (the decoded events),
    stream, streamPump (the stream banks), streamPumpOn, pinStreamRing and
    the pace of the looks. The worker's bus is the [Env] of its Capture, and
    [Hardware] what it uses beside it. *)
From Stdlib Require Import SpecFloat.
From S2P Require Import Prelude Circular Machine Fabric Bus BusSteps Command DecodedEvent Lines LinesRun LinesWire.
From S2P Require Import Status Open Arm Recall Sinks Stream DecodedStream Panel Stack WorkerRing.

(** ** float64 *)

Definition float64 : Type := spec_float.
Definition ofInt (z : Z) : float64 := binary_normalize 53 1024 z 0 false.
Definition fsub : float64 -> float64 -> float64 := SFsub 53 1024.
Definition fadd : float64 -> float64 -> float64 := SFadd 53 1024.
Definition fmul : float64 -> float64 -> float64 := SFmul 53 1024.
Definition fdiv : float64 -> float64 -> float64 := SFdiv 53 1024.
(** The constant 0.9. *)
Definition nineTenths : float64 := S754_finite false 8106479329266893 (-53).
Definition positive (x : float64) : bool := SFltb (ofInt 0) x.
(** The integer part; None when it is no int64: Go leaves that conversion to
    the implementation. *)
Definition trunc (x : float64) : option Z :=
  match x with
  | S754_zero _ => Some 0
  | S754_finite s m e =>
      let n := (if 0 <=? e then Z.pos m * 2 ^ e else Z.pos m / 2 ^ (- e)) in
      let v := if s then - n else n in
      if (- 2 ^ 63 <=? v) && (v <? 2 ^ 63) then Some v else None
  | _ => None
  end.
(** time.Duration.Seconds *)
Definition Seconds (d : Z) : float64 := fadd (ofInt (Z.quot d second)) (fdiv (ofInt (Z.rem d second)) (ofInt second)).

(** ** State *)

Definition workerHeader : Z := 24.
Definition workerPayload : Z := 65536.
Definition workerQueueEvents : Z := 131072.
Definition workerLineCapacity : Z := 65536.
Definition lineIdleFlush : Z := 30 * millisecond.
Definition streamPumpEvery : Z := 2 * millisecond.
Definition streamPumpFastest : Z := 400000.
Definition streamSpinFor : Z := 500 * millisecond.

(** The decoded events: the queue the app takes them from. *)
Record eventQueue := EventQueue {
  active : bool; epoch : Z; fault : option err;
  queueLost : Z (* events the full queue dropped *);
  head : Z; count : Z; ring : list Z (* workerQueueEvents records *)
}.
Definition set_fault (e : option err) (q : eventQueue) : eventQueue :=
  EventQueue (active q) (epoch q) e (queueLost q) (head q) (count q) (ring q).
Definition set_lost (n : Z) (q : eventQueue) : eventQueue :=
  EventQueue (active q) (epoch q) (fault q) n (head q) (count q) (ring q).
Definition set_queue (h n : Z) (b : list Z) (q : eventQueue) : eventQueue :=
  EventQueue (active q) (epoch q) (fault q) (queueLost q) h n b.
Definition set_started (on : bool) (ep : Z) (q : eventQueue) : eventQueue :=
  EventQueue on ep (fault q) (queueLost q) (head q) (count q) (ring q).

(** The transcript the events go into instead; [lines] points at linesStore
    when it is set. *)
Record lineMode := LineMode {
  lines : bool; linesAt : option Z (* None: the zero time *); linesStore : option Transcript
}.

(** The pace of the looks at the stream banks. *)
Record pumpPace := PumpPace {
  sLastPump : option Z; sMaxGap : Z; sMaxDrain : Z; sRate : float64; sEvery : Z; sBank : Z;
  sBacklog : bool; sSpin : option Z
}.
Definition noPace : pumpPace := PumpPace None 0 0 (ofInt 0) 0 0 false None.
Definition set_look (t : Z) (gap : Z) (p : pumpPace) : pumpPace :=
  PumpPace (Some t) gap (sMaxDrain p) (sRate p) (sEvery p) (sBank p) (sBacklog p) (sSpin p).
Definition set_drained (d b : Z) (p : pumpPace) : pumpPace :=
  PumpPace (sLastPump p) (sMaxGap p) d (sRate p) (sEvery p) b (sBacklog p) (sSpin p).
Definition set_rate (r : float64) (e : Z) (p : pumpPace) : pumpPace :=
  PumpPace (sLastPump p) (sMaxGap p) (sMaxDrain p) r e (sBank p) (sBacklog p) (sSpin p).
Definition set_backlog (b : bool) (s : option Z) (p : pumpPace) : pumpPace :=
  PumpPace (sLastPump p) (sMaxGap p) (sMaxDrain p) (sRate p) (sEvery p) (sBank p) b s.

Record worker := Worker {
  capt : capture; queue : eventQueue; lineMode_ : lineMode; stream_ : streamRing; pace : pumpPace;
  deadline : bool (* not nil *); response : list Z
}.
Definition set_capt (x : capture) (w : worker) : worker :=
  Worker x (queue w) (lineMode_ w) (stream_ w) (pace w) (deadline w) (response w).
Definition set_events (x : eventQueue) (w : worker) : worker :=
  Worker (capt w) x (lineMode_ w) (stream_ w) (pace w) (deadline w) (response w).
Definition set_lineMode (x : lineMode) (w : worker) : worker :=
  Worker (capt w) (queue w) x (stream_ w) (pace w) (deadline w) (response w).
Definition set_stream (x : streamRing) (w : worker) : worker :=
  Worker (capt w) (queue w) (lineMode_ w) x (pace w) (deadline w) (response w).
Definition set_pace (x : pumpPace) (w : worker) : worker :=
  Worker (capt w) (queue w) (lineMode_ w) (stream_ w) x (deadline w) (response w).
Definition set_deadline (x : bool) (w : worker) : worker :=
  Worker (capt w) (queue w) (lineMode_ w) (stream_ w) (pace w) x (response w).
Definition set_response (x : list Z) (w : worker) : worker :=
  Worker (capt w) (queue w) (lineMode_ w) (stream_ w) (pace w) (deadline w) x.

Abbreviation W := (SE worker).

(** A method of the worker's Capture. *)
Definition onCapture {A} (m : M A) : W A := fun w => let '(o, s) := m (capt w) in (o, set_capt s w).
(** A method of its transcript. *)
Definition onLines {A} (m : SE Transcript A) : W A := fun w =>
  match linesStore (lineMode_ w) with
  | None => (Panic, w)
  | Some t =>
      let '(o, t') := m t in
      (o, set_lineMode (LineMode (lines (lineMode_ w)) (linesAt (lineMode_ w)) (Some t')) w)
  end.
Definition onQueue (f : eventQueue -> eventQueue) : W unit := modify (fun w => set_events (f (queue w)) w).
Definition onPace (f : pumpPace -> pumpPace) : W unit := modify (fun w => set_pace (f (pace w)) w).
Definition onRing (f : streamRing -> streamRing) : W unit := modify (fun w => set_stream (f (stream_ w)) w).

(** errors.Is *)
#[export] Instance err_eq_dec : EqDecision err.
Proof. solve_decision. Defined.
Fixpoint errIs (e target : err) : bool :=
  bool_decide (e = target) ||
  match e with
  | EWrap _ _ e => errIs e target
  | EJoin e1 e2 => errIs e1 target || errIs e2 target
  | _ => false
  end.

(** ** What the worker uses beside its Capture's bus *)

Class Hardware {E : Env} := {
  hw_Dev : bool (* the bus is a *Dev *);
  hw_FastDrain : bool;
  hw_Pop : history -> Z -> Z -> list Z + err (* PopBytesChecked *);
  hw_Pop_bus : env_PopBytes = Some hw_Pop;
  (** plane 3 *)
  hw_Read3 : history -> Z -> Z + err;
  hw_Write3 : history -> Z -> Z -> option err;
  (** StartDecodedDeadline (false: nil, not needed) and its Close *)
  hw_StartDeadline : history -> bool + err;
  hw_CloseDeadline : history -> option err;
  (** the app handed a ring over, and PinSharedRing mapped it *)
  hw_Pin : history -> bool;
  (** err.Error(), and the conversions Go leaves open *)
  hw_ErrorText : err -> list Z;
  hw_Convert : float64 -> Z
}.

Section worker.
Context {E : Env} {H : Hardware} (fuel : nat).

Definition clock : W Z := onCapture now.

(** ** The bus *)

Definition validPlane (plane : Z) : bool := (plane =? 1) || (plane =? 3).

Definition read3 (sel : Z) : M Z :=
  h ← gets trace;
  let r := hw_Read3 h sel in
  emit (EvRead3 sel r);;
  v ← lift r;
  mret (u16 v).
Definition write3 (sel v : Z) : M unit :=
  h ← gets trace;
  let r := hw_Write3 h sel v in
  emit (EvWrite3 sel v r);;
  liftErr r.

Definition wRead (plane sel : Z) : W Z := onCapture (if plane =? 1 then busRead sel else read3 sel).
Definition wRawWrite (sel v : Z) : W unit := onCapture (busWrite sel v).
Definition wPop (sel n : Z) : W (list Z) := onCapture (popBytesWith hw_Pop sel n).

Definition StartDecodedDeadline : M bool :=
  h ← gets trace;
  let r := hw_StartDeadline h in
  emit (EvDeadline r);;
  lift r.
(** DecodedDeadline.Close *)
Definition CloseDeadline : M unit :=
  h ← gets trace;
  let r := hw_CloseDeadline h in
  emit (EvRelax r);;
  liftErr r.

(** [w.deadline, err = d.StartDecodedDeadline()]: nil beside an error. *)
Definition startDeadline : W unit :=
  r ← attempt (onCapture StartDecodedDeadline);
  modify (set_deadline (match r with inl on => on | inr _ => false end));;
  match r with inl _ => mret tt | inr e => fail e end.
(** [if err := w.deadline.Close(); err != nil { return err }; w.deadline = nil] *)
Definition closeDeadline : W unit :=
  onCapture CloseDeadline;;
  modify (set_deadline false).

(** ** The decoded events *)

Definition errWorkerQueueOverflow : err := EMsg "isolated decoded queue overflow; transcript incomplete" [].

(** The batch, [size] events of it, into the queue. *)
Fixpoint queueEvents (size : Z) (events : list DecodedEvent) : W unit :=
  match events with
  | [] => mret tt
  | e :: events =>
      q ← gets queue;
      if count q =? workerQueueEvents then
        onQueue (fun q => set_lost (u64 (queueLost q + size)) (set_fault (Some errWorkerQueueOverflow) q))
      else
        let index := (head q + count q) mod workerQueueEvents in
        match MarshalTo e 32 with
        | inr x => onQueue (set_fault (Some x))
        | inl b =>
            onQueue (fun q => set_queue (head q) (count q + 1) (copyAt (Z.to_nat (index * 32)) b (ring q)) q);;
            queueEvents size events
        end
  end.

(** The batch into the transcript; a quiet bus ends the half-full line. *)
Definition addLines (events : list DecodedEvent) : W unit :=
  t ← clock;
  match events with
  | _ :: _ =>
      onLines (Lines.Add events);;
      modify (fun w => set_lineMode (LineMode (lines (lineMode_ w)) (Some t) (linesStore (lineMode_ w))) w)
  | [] =>
      m ← gets lineMode_;
      match linesStore m with
      | None => panic
      | Some tr =>
          if Lines.Pending tr && (match linesAt m with None => true | Some t0 => lineIdleFlush <=? t - t0 end)
          then onLines Lines.Flush else mret tt
      end
  end.

Definition pump : W unit :=
  q ← gets queue;
  if negb (active q) then mret tt
  else
    match fault q with
    | Some _ => ignore (onCapture SupportsDecodedCapture)
    | None =>
        r ← attempt (onCapture (ReadDecodedEventsInto (epoch q) 512));
        match r with
        | inr e => onQueue (set_fault (Some e))
        | inl events =>
            on ← gets (fun w => lines (lineMode_ w));
            if (on : bool) then addLines events
            else queueEvents (Z.of_nat (length events)) events
        end
    end.

(** Register 57 was written: the events start over, or stop. *)
Definition stream (enabled : bool) : W unit :=
  modify (fun w => set_lineMode (LineMode false (linesAt (lineMode_ w)) (linesStore (lineMode_ w))) w);;
  onQueue (fun q => EventQueue false (epoch q) None (queueLost q) 0 0 (ring q));;
  d ← gets (fun w => deadline w && negb (sOn (stream_ w)));
  (if (d : bool) then closeDeadline else mret tt);;
  if negb enabled then mret tt
  else
    lo ← wRead 1 61;
    hi ← wRead 1 62;
    onQueue (fun q => set_started (active q) (lo .| (hi .<< 16)) q);;
    (if hw_Dev then startDeadline else mret tt);;
    onQueue (fun q => set_started true (epoch q) q).

(** ** The stream banks *)

Definition pumpWait (p : pumpPace) : Z := if sEvery p =? 0 then streamPumpEvery else sEvery p.

Definition pumpEvery (rate : float64) (bankWords : Z) : Z :=
  if negb (positive rate) || (bankWords <=? 0) then streamPumpEvery
  else
    let d := fmul (fdiv (fmul nineTenths (ofInt bankWords)) rate) (ofInt second) in
    Z.min (Z.max (match trunc d with Some n => n | None => hw_Convert d end) streamPumpFastest) streamPumpEvery.

(** spinning: the pump looks without pause while the drum holds a backlog. *)
Definition spinning : W bool :=
  p ← gets pace;
  if negb (sBacklog p) then
    onPace (set_backlog (sBacklog p) None);;
    mret false
  else
    (match sSpin p with
     | None => t ← clock; onPace (fun p => set_backlog (sBacklog p) (Some t) p)
     | Some _ => mret tt
     end);;
    t ← clock;
    p ← gets pace;
    mret (match sSpin p with Some t0 => t - t0 <? streamSpinFor | None => false end).

(** spinPause: the wait between looks while spinning. *)
Definition spinPause (r : streamRing) (busy : Z) : Z :=
  if negb (sShared r) || (sCount r <=? Z.quot (ringLen r) 2) then 0
  else Z.max streamPumpFastest (Z.quot busy 2).

(** One bank into the ring. *)
Definition drainBank : W StreamBlock := fun w =>
  let r := stream_ w in
  let k := length (trace (capt w)) in
  let '(o, s') := @DrainStream (drainEnv E r k) background (sExpected r) (SExt ringSink) (capt w) in
  (o, set_stream (ringAfter r (drop k (trace s'))) (set_capt s' w)).

(** The status in the fault's text: its flags in their order. *)
Definition statusArgs (st : StreamStatus) : list Z :=
  [Ready_ st; Tokens st; LastSingle st; Z.b2z (Fault st); Z.b2z (Finished st); Z.b2z (Enabled_ st);
   Z.b2z (BankOverrun st); Z.b2z (InputOverrun st); Z.b2z (ReadOverrun st); Z.b2z (FIFOFull st); Z.b2z (Backlog st)].

(** Every published bank, eight at most: the banks drained. *)
Fixpoint pumpBanks (n : nat) (banks : Z) : W Z :=
  match n with
  | O => mret banks
  | S n =>
      t0 ← clock;
      r ← attempt drainBank;
      match r with
      | inl block =>
          t1 ← clock;
          onRing (set_sExpected (u64 (FirstWord block + Words_ block)));;
          onPace (fun p => set_drained (Z.max (sMaxDrain p) (t1 - t0)) (Z.max (sBank p) (int32 (Words_ block))) p);;
          pumpBanks n (banks + 1)
      | inr e =>
          x ← gets (fun w => sExpected (stream_ w));
          if errIs e ErrNoStreamBlock || errIs e ErrStreamDisabled && (x =? 0) then mret banks
          else
            st ← attempt (onCapture readStreamStatus);
            p ← gets pace;
            onRing (set_sFault (EWrap "%w (after %d words; status %+v; longest pump gap %v, drain %v)"
              (x :: statusArgs (match st with inl st => st | inr _ => decodeStreamStatus 0 end) ++ [sMaxGap p; sMaxDrain p]) e));;
            mret banks
      end
  end.

(** The input rate as the looks show it, and the next look's time. *)
Definition measure (since : option Z) (from banks : Z) : W unit :=
  r ← gets stream_;
  onPace (fun p =>
    match since with
    | Some d =>
        if (0 <? d) && (d <? second) then
          let r := fdiv (ofInt (u64 (sExpected r - from))) (Seconds d) in
          let rate := fadd (sRate p) (fdiv (fsub r (sRate p)) (ofInt 8)) in
          set_rate rate (pumpEvery rate (sBank p)) p
        else p
    | None => p
    end);;
  if 2 <=? banks then onPace (fun p => set_rate (sRate p) streamPumpFastest p) else mret tt.

(** streamPump drains every published stream bank, in ordinal order. *)
Definition streamPump : W unit :=
  r ← gets stream_;
  if negb (sOn r) || (match sFault r with Some _ => true | None => false end) then mret tt
  else
    now ← clock;
    p ← gets pace;
    let since := (fun t => now - t) <$> sLastPump p in
    if (match since with Some d => d <? pumpWait p | None => false end) then mret tt
    else
      onPace (set_look now (match since with Some d => Z.max (sMaxGap p) d | None => sMaxGap p end));;
      (if hw_Dev then spinning else mret false);;
      banks ← pumpBanks 8 0;
      b ← onCapture StreamBacklog;
      onPace (fun p => set_backlog b (sSpin p) p);;
      measure since (sExpected r) banks.

(** pinStreamRing: the ring the app shares, or a private one. *)
Definition pinStreamRing : W unit :=
  h ← gets (fun w => trace (capt w));
  let shared := hw_Dev && hw_Pin h in
  onCapture (emit (EvPin shared));;
  onRing (fun r => StreamRing (sOn r) (sExpected r) (sHead r) (sCount r) (sFirst r) (sFault r)
                     (if shared || (length (sring r) =? 0)%nat
                      then replicate (Z.to_nat workerStreamBytes) 0 else sring r) (sShared r || shared)).

(** streamPumpOn starts or stops the stream pump and its FIFO service. *)
Definition streamPumpOn (on : bool) : W unit :=
  onRing (fun r => StreamRing on 0 0 0 0 None (sring r) (sShared r));;
  onPace (fun _ => noPace);;
  r ← gets stream_;
  (if on && (length (sring r) =? 0)%nat then pinStreamRing else mret tt);;
  d ← gets deadline;
  (if on && negb d && hw_Dev then
     startDeadline;;
     onCapture (emit EvRaise)
   else mret tt);;
  d ← gets (fun w => negb on && negb (active (queue w)) && deadline w);
  if (d : bool) then closeDeadline else mret tt.
End worker.
