(* ===== verification/WorkerHandle.v ===== *)
(** * The acquisition worker's requests

    src/app/internal/bus/worker_server_linux.go: handle, one request of the
    socket protocol at a time, and the buffers it replies from. The reply is
    built in the worker's response buffer, as the code builds it. *)
From S2P Require Import Prelude Circular Machine Fabric Bus BusSteps Command DecodedEvent Lines LinesRun LinesWire.
From S2P Require Import Status Open Arm Recall Sinks Stream DecodedStream Panel Stack WorkerRing Worker.

(** ** The protocol (worker_linux.go) *)

Definition workerMagic : Z := 0x57435141.
Definition workerHello : Z := 0.
Definition workerRead : Z := 1.
Definition workerWrite : Z := 2.
Definition workerPop : Z := 3.
Definition workerEvents : Z := 4.
Definition workerLineMode : Z := 5.
Definition workerLines : Z := 6.
Definition workerStreamPump : Z := 7.
Definition workerStreamWords : Z := 8.
Definition workerRecall : Z := 9.
Definition workerPanel : Z := 10.
Definition workerReadMany : Z := 11.
Definition workerWriteMany : Z := 12.
Definition workerStreamPeek : Z := 13.
Definition workerRecallShared : Z := 14.
Definition workerStackDownload : Z := 15.
Definition workerRecallParams : Z := 4 + 12 * Z.of_nat RecordReadsMax.

(** The [n]-byte little-endian field at [o]. *)
Definition field (o n : nat) (b : list Z) : Z := leVal (slice o n b).

(** A request's header, parsed. *)
Record header := Header {
  op : Z; plane : Z; sel_ : Z; value : Z; count_ : Z (* int: 32 bits *); epoch_ : Z
}.
Definition headerOf (request : list Z) : header :=
  Header (field 8 2 request) (field 10 1 request) (field 12 2 request) (field 14 2 request)
    (int32 (field 16 4 request)) (field 20 4 request).
Definition paramsOf (request : list Z) : list Z := drop (Z.to_nat workerHeader) request.

(** ** sliceWriter: a recall's destination *)

Record sliceWriter := SliceWriter { sb : list Z; sn : Z }.
Definition sliceSink : Z := 1.
Definition sliceRoom (w : sliceWriter) : Z := Z.of_nat (length (sb w)) - sn w.
Definition sliceStep (w : sliceWriter) (e : event) : sliceWriter :=
  match e with
  | EvSink id data (k, _) =>
      if id =? sliceSink then SliceWriter (copyAt (Z.to_nat (sn w)) (take (Z.to_nat k) data) (sb w)) (sn w + k) else w
  | EvRoomPut id off data =>
      if id =? sliceSink then SliceWriter (copyAt (Z.to_nat (sn w + off)) data (sb w)) (sn w) else w
  | EvFill id n => if id =? sliceSink then SliceWriter (sb w) (sn w + n) else w
  | _ => w
  end.
Definition sliceAfter (w : sliceWriter) (l : history) : sliceWriter := fold_left sliceStep l w.
(** Write, Room and Fill, and the worker's bus. *)
Definition sliceEnv (E : Env) (w : sliceWriter) (h0 : nat) : Env := {|
  env_Read := @env_Read E; env_RawWrite := @env_RawWrite E; env_RawWriteMany := @env_RawWriteMany E;
  env_ReadMany := @env_ReadMany E; env_PopBytes := @env_PopBytes E; env_PopWords := @env_PopWords E;
  env_RecallIsolated := @env_RecallIsolated E; env_PanelIsolated := @env_PanelIsolated E;
  env_EventsIsolated := @env_EventsIsolated E; env_StackIsolated := @env_StackIsolated E;
  env_LineMode := @env_LineMode E; env_Lines := @env_Lines E;
  env_SinkWrite := fun h id data =>
    if id =? sliceSink then
      let k := Z.min (Z.of_nat (length data)) (sliceRoom (sliceAfter w (drop h0 h))) in
      (k, if k =? Z.of_nat (length data) then None else Some EShortWrite)
    else @env_SinkWrite E h id data;
  env_SinkIsRoom := fun id => if id =? sliceSink then true else @env_SinkIsRoom E id;
  env_Room := fun h id n =>
    if id =? sliceSink then n <=? sliceRoom (sliceAfter w (drop h0 h)) else @env_Room E h id n;
  env_SinkIsReserver := fun id => if id =? sliceSink then false else @env_SinkIsReserver E id;
  env_Reserve := @env_Reserve E; env_Now := @env_Now E; env_Done := @env_Done E
|}.

Section handle.
Context {E : Env} {H : Hardware} (fuel : nat).

(** ** The reply *)

(** [copy(w.response[o:], b)] *)
Definition putResponse (o : nat) (b : list Z) : W unit := modify (fun w => set_response (copyAt o b (response w)) w).
(** [copy(data[o:], b)], data being what follows the header. *)
Definition putData (o : nat) (b : list Z) : W unit := putResponse (24 + o) b.
(** [data[:count]]: its length. *)
Definition dataTo (count : Z) : W Z := if count <? 0 then panic else mret count.

(** ** Registers *)

Definition handleRead (h : header) : W Z :=
  guard (negb (count_ h =? 2) || negb (validPlane (plane h)) || (127 <? sel_ h)) (EMsg "invalid register read" []);;
  q ← gets queue;
  guard (active q && (plane h =? 1) && (sel_ h =? 59)) (EMsg "decoded event port belongs to worker" []);;
  v ← wRead (plane h) (sel_ h);
  putData 0 (leBytes 2 v);;
  mret 2.

(** The registers named by [params], the [i]-th byte of them first. *)
Fixpoint readParams (n i : nat) (plane : Z) (params : list Z) : W unit :=
  match n with
  | O => mret tt
  | S n =>
      let s := field i 2 params in
      q ← gets queue;
      guard ((127 <? s) || active q && (plane =? 1) && (s =? 59)) (EMsg "invalid register read %d" [s]);;
      v ← wRead plane s;
      putData i (leBytes 2 v);;
      readParams n (i + 2) plane params
  end.
Definition handleReadMany (h : header) (params : list Z) : W Z :=
  let len := Z.of_nat (length params) in
  guard ((len <? 2) || negb (len mod 2 =? 0) || negb (count_ h =? len) || negb (validPlane (plane h)))
    (EMsg "invalid register reads" []);;
  readParams (Z.to_nat (len / 2)) 0 (plane h) params;;
  mret len.

Fixpoint writeParams (n i : nat) (params : list Z) : W unit :=
  match n with
  | O => mret tt
  | S n =>
      let s := field i 2 params in
      let v := field (i + 2) 2 params in
      q ← gets queue;
      guard ((127 <? s) || active q && ((s =? 60) || (s =? 76))) (EMsg "invalid register write %d" [s]);;
      wRawWrite s v;;
      (if s =? 57 then stream (negb (v .& 1 =? 0)) else mret tt);;
      writeParams n (i + 4) params
  end.
Definition handleWriteMany (h : header) (params : list Z) : W Z :=
  let len := Z.of_nat (length params) in
  guard (negb (count_ h =? 0) || (len <? 4) || negb (len mod 4 =? 0) || negb (plane h =? 1))
    (EMsg "invalid register writes" []);;
  writeParams (Z.to_nat (len / 4)) 0 params;;
  mret 0.

(** The configuration port of plane 3 is never written. *)
Definition Writable3 (sel : Z) : bool := negb (sel =? 7).

Definition handleWrite (h : header) : W Z :=
  guard (negb (count_ h =? 0) || negb (validPlane (plane h)) || (127 <? sel_ h) ||
         (plane h =? 3) && negb (Writable3 (sel_ h))) (EMsg "invalid register write" []);;
  q ← gets queue;
  guard (active q && (plane h =? 1) && ((sel_ h =? 60) || (sel_ h =? 76)))
    (EMsg "decoded FIFO control belongs to worker" []);;
  (if plane h =? 1 then wRawWrite (sel_ h) (value h) else onCapture (write3 (sel_ h) (value h)));;
  (if (plane h =? 1) && (sel_ h =? 57) then stream (negb (value h .& 1 =? 0)) else mret tt);;
  mret 0.

Definition handlePop (h : header) : W Z :=
  q ← gets queue;
  guard ((count_ h =? 0) || negb (count_ h mod 2 =? 0) || (127 <? sel_ h) || active q && (sel_ h =? 59))
    (EMsg "invalid or worker-owned pop" []);;
  n ← dataTo (count_ h);
  data ← wPop (sel_ h) n;
  putData 0 data;;
  mret n.

(** ** Decoded events and lines *)

Definition handleEvents (h : header) : W Z :=
  q ← gets queue;
  guard ((count_ h =? 0) || negb (count_ h mod 32 =? 0) || negb (active q) || negb (epoch_ h =? epoch q))
    (EMsg "inactive or stale decoded epoch" []);;
  liftErr (fault q);;
  n ← dataTo (count_ h);
  let amount := Z.min (n / 32) (count q) in
  let first := Z.min amount (workerQueueEvents - head q) in
  putData 0 (slice (Z.to_nat (head q * 32)) (Z.to_nat (first * 32)) (ring q));;
  putData (Z.to_nat (first * 32)) (take (Z.to_nat ((amount - first) * 32)) (ring q));;
  onQueue (set_queue ((head q + amount) mod workerQueueEvents) (count q - amount) (ring q));;
  mret (amount * 32).

(** The queued events into the transcript, oldest first. *)
Fixpoint foldQueue (n : nat) : W unit :=
  match n with
  | O => mret tt
  | S n =>
      q ← gets queue;
      match ParseDecodedEvent (slice (Z.to_nat (head q * 32)) 32 (ring q)) with
      | inl e => onLines (Lines.Add [e])
      | inr _ => mret tt
      end;;
      onQueue (set_queue ((head q + 1) mod workerQueueEvents) (count q - 1) (ring q));;
      foldQueue n
  end.

Definition lossEvent (n : Z) : DecodedEvent :=
  MkDecodedEvent 0 0 0 0 0 n 0 EventLoss 0 false false.

Definition handleLineMode (h : header) : W Z :=
  q ← gets queue;
  guard (negb (active q) || negb (count_ h =? 0)) (EMsg "line mode needs an active decoded stream" []);;
  if value h =? 0 then
    modify (fun w => set_lineMode (LineMode false (linesAt (lineMode_ w)) (linesStore (lineMode_ w))) w);;
    mret 0
  else
    modify (fun w =>
      let t := match linesStore (lineMode_ w) with Some t => t | None => Lines.New (value h) workerLineCapacity end in
      set_lineMode (LineMode true (linesAt (lineMode_ w)) (Some (Lines.Reset (value h) t))) w);;
    (match fault q with
     | Some e =>
         if errIs e errWorkerQueueOverflow then
           onQueue (set_fault None);;
           onLines (Lines.Add [lossEvent (u32 (Z.min (queueLost q) (2 ^ 31)))])
         else mret tt
     | None => mret tt
     end);;
    onQueue (set_lost 0);;
    foldQueue (Z.to_nat (count q));;
    mret 0.

Definition handleLines (h : header) : W Z :=
  q ← gets queue;
  on ← gets (fun w => lines (lineMode_ w));
  guard (negb (active q) || negb on || negb (epoch_ h =? epoch q)) (EMsg "no decoded line stream" []);;
  liftErr (fault q);;
  (if negb (plane h .& 1 =? 0) then onLines Lines.Flush else mret tt);;
  n ← dataTo (count_ h);
  b ← onLines (EncodeLines (int32 ((sel_ h .<< 16) .| value h)) n);
  (* a batch past its slice would panic *)
  if n <? Z.of_nat (length b) then panic
  else
    putData 0 b;;
    mret (Z.of_nat (length b)).

(** ** Records *)

Fixpoint readsOf (n : nat) (at_ : list Z) : list RecordRead :=
  match n with
  | O => []
  | S n =>
      {| Offset := field 0 4 at_; Bucket := field 4 4 at_; Count := field 8 4 at_; Dst := SExt sliceSink |} ::
      readsOf n (drop 12 at_)
  end.

(** RecallRecord of [params]' reads into [b]: the outcome, the buffer and its
    fill. *)
Definition recallInto (timeout : Z) (ep : Z) (params b : list Z) : W (option err * sliceWriter) :=
  c ← onCapture (withTimeout background timeout);
  (fun w =>
    let out := SliceWriter b 0 in
    let k := length (trace (capt w)) in
    let reads := readsOf (Z.to_nat ((Z.of_nat (length params) - 4) / 12)) (drop 4 params) in
    let '(o, s') := @RecallRecord (sliceEnv E out k) fuel c {| Arm.Epoch := ep; Arm.Record_ := field 0 4 params |} reads (capt w) in
    let w' := set_capt s' w in
    let out' := sliceAfter out (drop k (trace s')) in
    match o with
    | Ret _ => (Ret (None, out'), w')
    | Fail e => (Ret (Some e, out'), w')
    | Panic => (Panic, w')
    | OutOfFuel => (OutOfFuel, w')
    end) : W (option err * sliceWriter).
Definition badRecall (params : list Z) : bool :=
  let len := Z.of_nat (length params) in (len <? 16) || negb ((len - 4) mod 12 =? 0).

Definition handleRecall (h : header) (params : list Z) : W Z :=
  guard ((count_ h =? 0) || badRecall params) (EMsg "invalid recall request" []);;
  n ← dataTo (count_ h);
  b ← gets (fun w => slice 24 (Z.to_nat n) (response w));
  r ← recallInto second (epoch_ h) params b;
  putData 0 (sb r.2);;
  liftErr r.1;;
  guard (negb (sn r.2 =? n)) (EMsg "recall produced %d of %d bytes" [sn r.2; n]);;
  mret (sn r.2).

Definition handleRecallShared (h : header) (params : list Z) : W Z :=
  let size := int32 ((sel_ h .<< 16) .| value h) in
  guard (negb (count_ h =? 4) || badRecall params || (size =? 0)) (EMsg "invalid shared recall request" []);;
  r ← gets stream_;
  if sOn r || negb (sShared r) || (ringLen r <? size) then
    putData 0 (leBytes 4 0);;
    mret 4
  else
    n ← dataTo size;
    x ← recallInto (2 * second) (epoch_ h) params (take (Z.to_nat n) (sring r));
    onRing (fun r => set_content (sb x.2 ++ drop (Z.to_nat n) (sring r)) (sCount r) r);;
    liftErr x.1;;
    guard (negb (sn x.2 =? n)) (EMsg "shared recall produced %d of %d bytes" [sn x.2; n]);;
    putData 0 (leBytes 4 (u32 (sn x.2)));;
    mret 4.

Definition handleStackDownload (h : header) : W Z :=
  c ← onCapture (withTimeout background (2 * second));
  n ← dataTo (count_ h);
  data ← onCapture (StackDownloadWords fuel c (value h) n);
  putData 0 data;;
  mret n.

Definition handlePanel (h : header) : W Z :=
  guard (negb (count_ h =? 22)) (EMsg "invalid panel request" []);;
  words ← onCapture PanelWords;
  putData 0 (halfBytes words);;
  mret 22.

(** ** The stream *)

Definition handleStreamPump (h : header) : W Z :=
  guard (negb (count_ h =? 0)) (EMsg "invalid stream pump request" []);;
  streamPumpOn (negb (value h .& 1 =? 0));;
  mret 0.

Definition handleStreamWords (h : header) : W Z :=
  r ← gets stream_;
  guard ((count_ h <? 8) || negb (sOn r)) (EMsg "no stream pump" []);;
  liftErr (sFault r);;
  match takeWords (count_ h) r with
  | None => panic
  | Some (first, bytes, r') =>
      putData 0 (leBytes 8 first ++ bytes);;
      onRing (fun _ => r');;
      mret (8 + (sCount r - sCount r'))
  end.

Definition handleStreamPeek (h : header) : W Z :=
  r ← gets stream_;
  let '(o, r') := streamPeek (epoch_ h) r in
  onRing (fun _ => r');;
  x ← lift o;
  putData 0 (leBytes 8 x.1.1 ++ leBytes 4 x.1.2 ++ leBytes 4 x.2);;
  mret 16.

(** ** The dispatch *)

Definition handleHello (h : header) : W Z :=
  guard (negb (count_ h =? 1)) (EMsg "invalid ready request" []);;
  putData 0 [Z.b2z hw_FastDrain];;
  mret 1.

Definition dispatch (h : header) (params : list Z) : W Z :=
  if op h =? workerHello then handleHello h
  else if op h =? workerRead then handleRead h
  else if op h =? workerReadMany then handleReadMany h params
  else if op h =? workerWriteMany then handleWriteMany h params
  else if op h =? workerWrite then handleWrite h
  else if op h =? workerPop then handlePop h
  else if op h =? workerEvents then handleEvents h
  else if op h =? workerLineMode then handleLineMode h
  else if op h =? workerLines then handleLines h
  else if op h =? workerRecall then handleRecall h params
  else if op h =? workerRecallShared then handleRecallShared h params
  else if op h =? workerStackDownload then handleStackDownload h
  else if op h =? workerPanel then handlePanel h
  else if op h =? workerStreamPump then handleStreamPump h
  else if op h =? workerStreamWords then handleStreamWords h
  else if op h =? workerStreamPeek then handleStreamPeek h
  else fail (EMsg "unknown worker operation" []).

(** The reply's length; a request shorter than a header would panic. *)
Definition handle (request : list Z) : W Z :=
  if Z.of_nat (length request) <? workerHeader then panic
  else
    let h := headerOf request in
    putResponse 0 (take (Z.to_nat workerHeader) request);;
    putResponse 10 [0];;
    r ← attempt (if workerPayload <? count_ h then fail (EMsg "oversized worker request" [])
                 else dispatch h (paramsOf request));
    n ← match r with
        | inl n => mret n
        | inr e =>
            let t := take (Z.to_nat workerPayload) (hw_ErrorText e) in
            putResponse 10 [1];;
            putData 0 t;;
            mret (Z.of_nat (length t))
        end;
    putResponse 16 (leBytes 4 (u32 n));;
    mret (workerHeader + n).
End handle.
