(* ===== verification/WorkerServe.v ===== *)
(** * The acquisition worker's service loop

    src/app/internal/bus/worker_server_linux.go: serve and RunAcquisitionWorker.
    The packet socket is an oracle over its own history; a turn of the loop
    pumps, sends the reply that waits, or else takes one request, answers it
    at once, or polls. *)
From S2P Require Import Prelude Circular Machine Fabric Bus BusSteps Command Lines.
From S2P Require Import Status Open Arm Recall Sinks Stream WorkerRing Worker WorkerHandle.

(** ** The socket *)

Inductive errno := EAGAIN | EINTR | ENOBUFS | EOther (n : Z).
Definition errnoErr (e : errno) : err :=
  match e with EAGAIN => EBus 11 | EINTR => EBus 4 | ENOBUFS => EBus 105 | EOther n => EBus n end.

(** A system call: its argument and its result. An empty packet read is the
    end; a poll's result is its revents. *)
Inductive sockEvent :=
| SRead (r : list Z + errno)
| SWrite (packet : list Z) (r : Z + errno)
| SPoll (events wait : Z) (r : Z + errno).

Class Socket := {
  sock_Read : list sockEvent -> list Z + errno;
  sock_Write : list sockEvent -> list Z -> Z + errno;
  sock_Poll : list sockEvent -> Z -> Z -> Z + errno
}.

Record server := Server { work : worker; sock : list sockEvent; waiting : Z (* the pending reply's length, 0: none *) }.
Definition set_work (x : worker) (s : server) : server := Server x (sock s) (waiting s).
Definition set_sock (x : list sockEvent) (s : server) : server := Server (work s) x (waiting s).
Definition set_waiting (x : Z) (s : server) : server := Server (work s) (sock s) x.

Section serve.
Context {E : Env} {H : Hardware} {K : Socket} (fuel : nat).

Definition onWorker {A} (m : W A) : SE server A := fun s => let '(o, w) := m (work s) in (o, set_work w s).
Definition emitSock (e : sockEvent) : SE server unit := modify (fun s => set_sock (sock s ++ [e]) s).

(** A turn's end: the loop goes on (None) or serve returns. *)
Abbreviation exit := (option (option err)).

(** The pending reply's write; it stays pending when the socket is full. *)
Definition sendReply : SE server exit :=
  s ← gets id;
  let packet := take (Z.to_nat (waiting s)) (response (work s)) in
  let r := sock_Write (sock s) packet in
  emitSock (SWrite packet r);;
  match r with
  | inl n =>
      if negb (int32 n =? waiting s) then mret (Some (Some (EMsg "short worker response" [])))
      else modify (set_waiting 0);; mret None
  | inr EAGAIN | inr EINTR | inr ENOBUFS => mret None
  | inr e => mret (Some (Some (errnoErr e)))
  end.

Definition requestBuffer : Z := workerHeader + workerRecallParams + 1.

(** A request's framing. *)
Definition framed (request : list Z) : bool :=
  let n := Z.of_nat (length request) in
  let o := field 8 2 request in
  let withParams := (workerHeader <? n) && (n <=? workerHeader + workerRecallParams) &&
    ((o =? workerRecall) || (o =? workerRecallShared) || (o =? workerReadMany) || (o =? workerWriteMany)) in
  negb (negb (n =? workerHeader) && negb withParams || negb (field 0 4 request =? workerMagic) ||
        negb (field 11 1 request =? 1)).

Definition workerPollWait (busy : Z) : Z := Z.max 500000 busy.

(** How long the worker waits for a request. *)
Definition pollTime (busy : Z) : W Z :=
  w ← gets id;
  if sOn (stream_ w) && negb (active (queue w)) then
    spin ← spinning;
    p ← gets pace;
    r ← gets stream_;
    mret (if (spin : bool) then spinPause r busy
          else if sEvery p =? streamPumpFastest then streamPumpFastest else pumpWait p)
  else mret (workerPollWait busy).

(** The poll; a socket closed by the app ends the service. *)
Definition poll (busy : Z) : SE server exit :=
  events ← gets (fun s => if waiting s =? 0 then 1 else 4);
  wait ← onWorker (pollTime busy);
  h ← gets sock;
  let r := sock_Poll h events wait in
  emitSock (SPoll events wait r);;
  onWorker (onCapture (emit (EvSleep wait)));;
  match r with
  | inr EINTR => mret None
  | inr e => mret (Some (Some (errnoErr e)))
  | inl revents => if negb (revents .& (8 .| 16 .| 32) =? 0) then mret (Some None) else mret None
  end.

(** One request, answered before the next pump. *)
Definition receive (busy : Z) : SE server exit :=
  h ← gets sock;
  let r := sock_Read h in
  emitSock (SRead r);;
  match r with
  | inl packet =>
      let request := take (Z.to_nat requestBuffer) packet in
      if (length request =? 0)%nat then mret (Some None)
      else if negb (framed request) then mret (Some (Some (EMsg "invalid worker request framing" [])))
      else
        n ← onWorker (handle fuel request);
        modify (set_waiting n);;
        sendReply
  | inr EAGAIN | inr EINTR => poll busy
  | inr e => mret (Some (Some (errnoErr e)))
  end.

(** A turn of the loop. *)
Definition turn : SE server exit :=
  t0 ← onWorker clock;
  onWorker pump;;
  onWorker streamPump;;
  t1 ← onWorker clock;
  w ← gets waiting;
  x ← (if negb (w =? 0) then sendReply else mret None);
  match x with
  | Some r => mret (Some r)
  | None =>
      w ← gets waiting;
      if w =? 0 then receive (t1 - t0) else poll (t1 - t0)
  end.

(** The deferred end: the events stop, the thread's policy comes back. *)
Definition cleanup : W unit :=
  on ← gets (fun w => active (queue w));
  (if (on : bool) then
     c ← onCapture (withTimeout background second);
     ignore (onCapture (Halt fuel c));;
     ignore (onCapture (EnableDecodedEvents false))
   else mret tt);;
  d ← gets deadline;
  if (d : bool) then ignore (onCapture CloseDeadline) else mret tt.

(** serve, [n] turns of it at most. *)
Fixpoint serve (n : nat) : SE server (option err) :=
  match n with
  | O => outOfFuel
  | S n =>
      x ← turn;
      match x with
      | Some r => onWorker cleanup;; mret r
      | None => serve n
      end
  end.

(** RunAcquisitionWorker's worker: a queue and a transcript allocated, the
    stream ring pinned. *)
Definition newWorker (s : capture) : worker :=
  Worker s (EventQueue false 0 None 0 0 0 (replicate (Z.to_nat (workerQueueEvents * 32)) 0))
    (LineMode false None (Some (Lines.New 0 workerLineCapacity))) (StreamRing false 0 0 0 0 None [] false) noPace false
    (replicate (Z.to_nat (workerHeader + workerPayload)) 0).
Definition RunAcquisitionWorker (n : nat) : SE server (option err) :=
  r ← attempt (onWorker (onCapture Status.New));
  match r with
  | inr e => mret (Some e)
  | inl _ => onWorker pinStreamRing;; serve n
  end.
End serve.
