(* ===== verification/WorkerInv.v ===== *)
(** * The acquisition worker's buffers

    What every step of the worker keeps (src/app/internal/bus/
    worker_server_linux.go): the event queue's bounds and the response buffer;
    and what handle leaves there, a reply of the request it answers. *)
From S2P Require Import Prelude Circular Machine Fabric Bus BusSteps Command DecodedEvent Lines LinesRun LinesWire.
From S2P Require Import Status Open Arm Recall RecallSteps Sinks Stream DecodedStream Panel Stack StreamRun WorkerRing WorkerDrain.
From S2P Require Import Worker WorkerHandle WorkerServe.

Definition queueOk (q : eventQueue) : Prop :=
  0 <= head q < workerQueueEvents /\ 0 <= count q <= workerQueueEvents /\
  length (ring q) = Z.to_nat (workerQueueEvents * 32).
Definition bufferOk (b : list Z) : Prop := length b = Z.to_nat (workerHeader + workerPayload).
Definition workerOk (w : worker) : Prop := queueOk (queue w) /\ bufferOk (response w) /\ 0 <= sCount (stream_ w).

(** The invariant kept, and the response's header with it. *)
Definition keepsOk (w w' : worker) : Prop :=
  workerOk w -> workerOk w' /\ take 24 (response w') = take 24 (response w).
#[export] Instance keepsOk_preorder : PreOrder keepsOk.
Proof.
  split; [by intros w H|]. intros w1 w2 w3 H1 H2 H. destruct (H1 H) as [K1 E1]. destruct (H2 K1) as [K2 E2].
  split; [done|congruence].
Qed.

(** ** A drain's events only fill the ring *)

Definition filling_ (e : event) : Prop :=
  match e with EvCommit _ n => 0 <= n | EvSink id _ _ => id <> ringSink | _ => True end.
Definition grows (s s' : capture) : Prop := exists l, trace s' = trace s ++ l /\ Forall filling_ l.
#[export] Instance grows_busStep : BusStep grows.
Proof.
  split; [split|..].
  - intros s. exists []. by rewrite app_nil_r.
  - intros s1 s2 s3 (l & Hl & F) (l' & Hl' & F'). exists (l ++ l'). rewrite Hl', Hl, app_assoc. split; [done|]. by apply Forall_app.
  - intros e s He. exists [e]. split; [done|]. constructor; [|done]. by destruct e.
  - intros l s _. exists []. by rewrite app_nil_r.
  - intros n s. exists []. by rewrite app_nil_r.
Qed.
Lemma grows_emit e : filling_ e -> steps grows (emit e).
Proof. intros He s. exists [e]. split; [done|]. by constructor. Qed.

Lemma grows_modify f : (forall s, trace (f s) = trace s) -> steps grows (modify f).
Proof. intros Hf s. exists []. cbn. by rewrite Hf, app_nil_r. Qed.

Lemma ringAfter_grows r l : 0 <= sCount r -> Forall filling_ l -> 0 <= sCount (ringAfter r l).
Proof.
  unfold ringAfter, fillingAfter. change r with (ringNow (Filling r 0)) at 1. generalize (Filling r 0). intros f Hf Hl.
  revert f Hf. induction Hl as [|e l He _ IH]; intros f Hf; [done|]. cbn. apply IH.
  destruct e; cbn; repeat case_match; try done; subst.
  - by apply Z.eqb_eq in H1.
  - simpl in *. lia.
Qed.

(** A result's fact for what follows it. *)
Lemma steps_bind_post {S A B} (R : S -> S -> Prop) `{!PreOrder R} (m : SE S A) (f : A -> SE S B) (P : A -> Prop) :
  steps R m -> (forall s a s', m s = (Ret a, s') -> P a) -> (forall a, P a -> steps R (f a)) -> steps R (m ≫= f).
Proof.
  intros Hm HP Hf s. unfold mbind, SE_bind. specialize (Hm s). destruct (m s) as [[a|e| |] s'] eqn:Hs; try exact Hm.
  etransitivity; [exact Hm|]. apply Hf. by eapply HP.
Qed.

Lemma DrainStream_grows E r k pop (dma : @env_PopBytes E = Some pop) c expected :
  steps grows (@DrainStream (drainEnv E r k) c expected (SExt ringSink)).
Proof.
  assert (forall ready banks, steps grows (@findBank (drainEnv E r k) ready expected banks)) as Hfind.
  { intros ready banks. induction banks as [|y l IH]; cbn [findBank]; unfold bankFirst; bus_steps; apply _. }
  assert (forall n, steps grows (popBytesWith pop 25 n)) as Hpop by (intros n; unfold popBytesWith; bus_steps; apply _).
  assert (@reserverOf (drainEnv E r k) (SExt ringSink) = Some ringSink) as Hr by by apply (reserver_ring E r k pop).
  unfold DrainStream. repeat (apply steps_bind; [apply _|solve [bus_steps; apply _ || apply Hfind || by apply grows_modify]|intros ?]).
  match goal with |- steps _ (match ?x with _ => _ end) => destruct x end; [|apply steps_fail, _]. eapply (steps_bind_post grows) with (P := fun bb => 0 <= Words_ bb.1).
  - unfold drainBlock, prepareStreamBuffers. bus_steps; try apply _. by apply grows_modify.
  - intros s1 [blk base] s2 H1. by apply drainBlock_words in H1.
  - intros [blk base] Hw. cbn [fst snd] in *. rewrite Hr. apply steps_bind; [apply _| |intros data].
    { unfold drainPop. change (@env_PopBytes (drainEnv E r k)) with (@env_PopBytes E). rewrite dma. steps_tac; by apply grows_emit. }
    apply steps_bind; [apply _|unfold drainCheck; bus_steps; apply _|intros _].
    apply steps_bind; [apply _|bus_steps; apply _|intros _]. apply steps_bind; [apply _|apply grows_emit; simpl; lia|intros _].
    bus_steps; apply _.
Qed.

Section keeps.
Context {E : Env} {H : Hardware} (fuel : nat).

Lemma keeps_onCapture {A} (m : M A) : steps keepsOk (onCapture m).
Proof using. intros w Hw. unfold onCapture. by destruct (m (capt w)). Qed.
Lemma keeps_onLines {A} (m : SE Transcript A) : steps keepsOk (onLines m).
Proof using. intros w Hw. unfold onLines. destruct linesStore as [t|]; [|by split]. by destruct (m t). Qed.
Lemma keeps_onPace f : steps keepsOk (onPace f).
Proof using. by intros w Hw. Qed.
Lemma keeps_onRing f : (forall r, 0 <= sCount r -> 0 <= sCount (f r)) -> steps keepsOk (onRing f).
Proof using. intros Hf w (Hq & Hb & Hs). split; [|done]. split_and!; try done. by apply Hf. Qed.
Lemma keeps_set_lineMode f : steps keepsOk (modify (fun w => set_lineMode (f w) w)).
Proof using. by intros w Hw. Qed.
Lemma keeps_set_deadline f : steps keepsOk (modify (fun w => set_deadline (f w) w)).
Proof using. by intros w Hw. Qed.
Lemma keeps_drainBank : steps keepsOk drainBank.
Proof using H.
  intros w (Hq & Hb & Hs). unfold drainBank. pose proof (DrainStream_grows E (stream_ w) (length (trace (capt w))) hw_Pop hw_Pop_bus
    background (sExpected (stream_ w)) (capt w)) as Hg.
  destruct (@DrainStream _ _ _ _ _) as [o s'] eqn:Hd. destruct Hg as (l & Hl & Hf). cbn [snd] in *. split; [|done]. split_and!; [done|done|].
  cbn [stream_ set_stream]. rewrite Hl, drop_app_length. by apply ringAfter_grows.
Qed.
Lemma keeps_onQueue f : (forall q, queueOk q -> queueOk (f q)) -> steps keepsOk (onQueue f).
Proof using. intros Hf w (Hq & Hb). split; [|done]. split; [by apply Hf|exact Hb]. Qed.
Lemma keeps_putData o b : steps keepsOk (putData o b).
Proof using.
  intros w (Hq & Hb & Hs). unfold putData, putResponse. cbn [modify snd]. split; [split_and!; [exact Hq| |exact Hs]|].
  - unfold bufferOk. cbn [response set_response]. by rewrite length_copyAt.
  - cbn [response set_response]. apply take_copyAt. unfold bufferOk, workerHeader, workerPayload in Hb. lia.
Qed.

(** The queue's events, as many as fit. *)
Lemma keeps_queueEvents size events : steps keepsOk (queueEvents size events).
Proof using.
  induction events as [|e events IH]; [by apply steps_ret, _|]. cbn [queueEvents]. intros w. rewrite (bind_Ret _ _ w (queue w) w) by done.
  destruct (Z.eqb_spec (count (queue w)) workerQueueEvents) as [Hc|Hc]; [by apply keeps_onQueue|].
  destruct (MarshalTo e 32) as [b|x]; [|by apply keeps_onQueue].
  intros [Hq Hb]. eapply (IH (set_events _ w)). split; [|exact Hb]. destruct Hq as (H1 & H2 & H3).
  unfold queueOk. cbn [set_queue set_events queue head count ring]. rewrite length_copyAt. split_and!; (done || lia).
Qed.

#[local] Hint Resolve keeps_onCapture keeps_onLines keeps_onPace keeps_set_lineMode keeps_set_deadline
  keeps_drainBank keeps_putData keeps_queueEvents : steps.

Lemma keeps_setFault e : steps keepsOk (onQueue (set_fault e)).
Proof using. by apply keeps_onQueue. Qed.
Lemma keeps_started on ep : steps keepsOk (onQueue (fun q => set_started on (ep q) q)).
Proof using. by apply keeps_onQueue. Qed.
#[local] Hint Resolve keeps_setFault keeps_started : steps.

Lemma keeps_expected x : steps keepsOk (onRing (set_sExpected x)).
Proof using. by apply keeps_onRing. Qed.
Lemma keeps_ringFault e : steps keepsOk (onRing (set_sFault e)).
Proof using. by apply keeps_onRing. Qed.
#[local] Hint Resolve keeps_expected keeps_ringFault : steps.

Lemma keeps_pump : steps keepsOk pump.
Proof using. unfold pump, addLines, clock. steps_tac. Qed.

Lemma keeps_stream on : steps keepsOk (stream on).
Proof using.
  unfold stream, startDeadline, closeDeadline, wRead. apply steps_bind; [apply _|auto with steps|intros _].
  apply steps_bind; [apply _| |intros _].
  - apply keeps_onQueue. intros q (_ & _ & Hr). unfold queueOk. cbn. split_and!; (done || lia).
  - steps_tac; by apply keeps_onQueue.
Qed.

Lemma keeps_pumpBanks n banks : steps keepsOk (pumpBanks n banks).
Proof using H. revert banks. induction n as [|n IH]; intros banks; cbn [pumpBanks]; unfold clock; steps_tac. Qed.
#[local] Hint Resolve keeps_pumpBanks : steps.

Lemma keeps_spinning : steps keepsOk spinning.
Proof using H. unfold spinning, clock. steps_tac. Qed.
#[local] Hint Resolve keeps_spinning : steps.
Lemma keeps_streamPump : steps keepsOk streamPump.
Proof using H. unfold streamPump, measure, clock. steps_tac. Qed.
Lemma keeps_streamPumpOn on : steps keepsOk (streamPumpOn on).
Proof using H. unfold streamPumpOn, pinStreamRing, startDeadline, closeDeadline. steps_tac; by apply keeps_onRing. Qed.
#[local] Hint Resolve keeps_stream keeps_streamPumpOn : steps.

(** ** The requests *)

(** What leaves the queue's events as they are. *)
Definition sameQueue (w w' : worker) : Prop :=
  head (queue w') = head (queue w) /\ count (queue w') = count (queue w) /\ ring (queue w') = ring (queue w).
#[local] Instance sameQueue_preorder : PreOrder sameQueue.
Proof. split; [done|]. unfold sameQueue. intros w1 w2 w3 (? & ? & ?) (? & ? & ?). split_and!; congruence. Qed.
Lemma sameQueue_onLines {A} (m : SE Transcript A) : steps sameQueue (onLines m).
Proof using H. intros w. unfold onLines. destruct linesStore as [t|]; [|done]. by destruct (m t). Qed.

Lemma steps_bind_at {A B} (R : worker -> worker -> Prop) `{!PreOrder R} (m : W A) (f : A -> W B) w :
  R w (m w).2 -> (forall a w', m w = (Ret a, w') -> R w' (f a w').2) -> R w ((m ≫= f) w).2.
Proof using H.
  intros Hm Hf. unfold mbind, SE_bind. destruct (m w) as [[a|e| |] w'] eqn:Hw; try exact Hm.
  etransitivity; [exact Hm|by apply Hf].
Qed.

Lemma keeps_foldQueue n w : Z.of_nat n <= count (queue w) -> keepsOk w (foldQueue n w).2.
Proof using H.
  revert w. induction n as [|n IH]; intros w Hn; [by split|]. cbn [foldQueue].
  rewrite (bind_Ret _ _ w (queue w) w) by done. apply steps_bind_at; [apply _|destruct ParseDecodedEvent; [apply keeps_onLines|by split]|].
  intros u w1 H1. assert (sameQueue w w1) as (Hh & Hc & Hr).
  { destruct ParseDecodedEvent as [e|x]; [|by injection H1 as _ <-]. pose proof (sameQueue_onLines (Lines.Add [e]) w) as Hs.
    by rewrite H1 in Hs. }
  apply steps_bind_at; [apply _| |].
  - intros [(H2 & H3 & H4) Hb]. split; [|done]. split; [|exact Hb]. rewrite Hh, Hc, Hr in *. unfold queueOk. cbn.
    split_and!; try (done || lia); apply Z.mod_pos_bound; done.
  - intros [] w2 [= <-]. apply IH. cbn. lia.
Qed.

Lemma keeps_readParams n i plane params : steps keepsOk (readParams n i plane params).
Proof using H. revert i. induction n as [|n IH]; intros i; cbn [readParams]; unfold wRead; steps_tac. Qed.
Lemma keeps_writeParams n i params : steps keepsOk (writeParams n i params).
Proof using H. revert i. induction n as [|n IH]; intros i; cbn [writeParams]; unfold wRawWrite; steps_tac. Qed.
Lemma keeps_recallInto timeout ep params b : steps keepsOk (recallInto fuel timeout ep params b).
Proof using H.
  unfold recallInto. apply steps_bind; [apply _|apply keeps_onCapture|]. intros c w Hw.
  by destruct (@RecallRecord _ _ _ _ _ _) as [[] s].
Qed.
Lemma dataTo_Ret n w m w' : dataTo n w = (Ret m, w') -> m = n /\ 0 <= n /\ w' = w.
Proof using H. unfold dataTo. destruct (Z.ltb_spec n 0); [done|]. by intros [= <- <-]. Qed.

(** A method that reads the queue first. *)
Lemma keeps_gets_queue {A} (f : eventQueue -> W A) :
  (forall w, keepsOk w (f (queue w) w).2) -> steps keepsOk (gets queue ≫= f).
Proof using H. intros Hf w. by rewrite (bind_Ret _ _ w (queue w) w) by done. Qed.
Lemma keeps_then {A B} (m : W A) (f : A -> W B) w :
  steps keepsOk m -> (forall a w', m w = (Ret a, w') -> keepsOk w' (f a w').2) -> keepsOk w ((m ≫= f) w).2.
Proof using H. intros Hm Hf. by apply steps_bind_at; [apply _|apply Hm|]. Qed.
Lemma keeps_dataTo n : steps keepsOk (dataTo n).
Proof using H. unfold dataTo. steps_tac. Qed.

Lemma keeps_handleEvents h : steps keepsOk (handleEvents h).
Proof using H.
  unfold handleEvents. apply keeps_gets_queue. intros w.
  apply keeps_then; [apply steps_guard, _|]. intros [] w0 [_ ->]%guard_Ret_inv.
  apply keeps_then; [apply steps_liftErr, _|]. intros [] w0 [_ ->]%liftErr_Ret_inv.
  apply keeps_then; [apply keeps_dataTo|]. intros n w0 (-> & Hn & ->)%dataTo_Ret.
  apply keeps_then; [apply keeps_putData|]. intros [] w1 [= <-].
  apply keeps_then; [apply keeps_putData|]. intros [] w1 [= <-].
  apply steps_bind_at; [apply _| |intros [] w1 _; by apply steps_ret, _].
  intros [(H1 & H2 & H3) Hb]. split; [|done]. split; [|exact Hb]. unfold queueOk.
  cbn [queue set_response set_queue set_events onQueue modify snd head count ring] in *.
  assert (0 <= count_ h / 32) by (apply Z.div_pos; lia). split_and!; try (done || lia); apply Z.mod_pos_bound; done.
Qed.

Lemma keeps_handleLineMode h : steps keepsOk (handleLineMode h).
Proof using H.
  unfold handleLineMode. apply keeps_gets_queue. intros w.
  apply keeps_then; [apply steps_guard, _|]. intros [] w0 [_ ->]%guard_Ret_inv.
  destruct (value h =? 0); [apply (steps_bind keepsOk); [auto with steps|intros _; by apply steps_ret, _]|].
  apply keeps_then; [auto with steps|]. intros [] w1 [= <-]. set (w1 := set_lineMode _ w).
  assert (count (queue w1) = count (queue w)) as Hq by done. clearbody w1.
  apply keeps_then; [steps_tac|]. intros u w2 H2. assert (sameQueue w1 w2) as (_ & Hc & _).
  { match type of H2 with ?m _ = _ => assert (steps sameQueue m) as Hs; [|specialize (Hs w1); by rewrite H2 in Hs] end.
    repeat case_match; try by apply steps_ret, _. apply steps_bind; [apply _|by intros w3|intros _; apply sameQueue_onLines]. }
  apply keeps_then; [by apply keeps_onQueue|]. intros [] w3 [= <-].
  apply steps_bind_at; [apply _| |intros [] w4 _; by apply steps_ret, _].
  intros Hok. apply keeps_foldQueue; [|done]. destruct Hok as [(_ & Hb & _) _].
  cbn [queue count set_events set_lost] in *. lia.
Qed.

Lemma keeps_gets_ring {A} (f : streamRing -> W A) :
  (forall w, keepsOk w (f (stream_ w) w).2) -> steps keepsOk (gets stream_ ≫= f).
Proof using. intros Hf w. by rewrite (bind_Ret _ _ w (stream_ w) w) by done. Qed.
Lemma keeps_setRing r w : (0 <= sCount (stream_ w) -> 0 <= sCount r) -> keepsOk w (set_stream r w).
Proof using. intros Hr (Hq & Hb & Hs). split; [|done]. split_and!; [done..|by apply Hr]. Qed.

Lemma keeps_handleStreamWords h : steps keepsOk (handleStreamWords h).
Proof using H.
  unfold handleStreamWords. apply keeps_gets_ring. intros w.
  apply keeps_then; [apply steps_guard, _|]. intros [] w0 [Hg ->]%guard_Ret_inv.
  apply keeps_then; [apply steps_liftErr, _|]. intros [] w0 [_ ->]%liftErr_Ret_inv.
  destruct (takeWords _ _) as [[[first b] r']|] eqn:Ht; [|by apply steps_panic, _].
  apply keeps_then; [apply keeps_putData|]. intros [] w1 [= <-].
  apply steps_bind_at; [apply _| |intros [] w1 _; by apply steps_ret, _].
  apply keeps_setRing. cbn. intros Hs. eapply takeWords_count in Ht; [apply Ht| |done]. blia.
Qed.
Lemma keeps_handleStreamPeek h : steps keepsOk (handleStreamPeek h).
Proof using H.
  unfold handleStreamPeek. apply keeps_gets_ring. intros w. destruct (streamPeek _ _) as [o r'] eqn:Hp.
  apply steps_bind_at; [apply _| |].
  - apply keeps_setRing. intros Hs. unfold streamPeek in Hp. destruct (negb _ || negb _); [by injection Hp as _ <-|].
    destruct (_ || _) eqn:Hg; [by injection Hp as _ <-|]. destruct (sFault _); injection Hp as _ <-; cbn; blia.
  - intros u w1 _. match goal with |- keepsOk _ (?m _).2 => assert (steps keepsOk m) as Hm; [|apply Hm] end.
    apply steps_bind; [apply _|apply steps_lift, _|intros x]. apply steps_bind; [apply _|apply keeps_putData|intros _; by apply steps_ret, _].
Qed.

#[local] Hint Resolve keeps_readParams keeps_writeParams keeps_recallInto keeps_dataTo keeps_handleEvents keeps_handleLineMode
  keeps_handleStreamWords keeps_handleStreamPeek : steps.

Lemma keeps_dispatch h params : steps keepsOk (dispatch fuel h params).
Proof using H.
  unfold dispatch, handleHello, handleRead, handleReadMany, handleWriteMany, handleWrite, handlePop, handleLines, handleRecall,
    handleRecallShared, handleStackDownload, handlePanel, handleStreamPump, wRead, wRawWrite, wPop.
  steps_tac. by apply keeps_onRing.
Qed.

(** Along the binds of a request that returns. *)
Ltac results Hd :=
  lazymatch type of Hd with
  | (mbind _ _) _ = (Ret _, _) =>
      let a := fresh "a" in let t := fresh "t" in let R := fresh "R" in
      apply bind_Ret_inv in Hd as (a & t & R & Hd);
      first [apply guard_Ret_inv in R as [R ->] | apply dataTo_Ret in R as (-> & R & ->) | apply liftErr_Ret_inv in R as [R ->]
            | injection R as <- <- | idtac]; results Hd
  | mret _ _ = (Ret _, _) => apply mret_Ret_inv in Hd as [-> ->]
  | _ => idtac
  end.

(** A result fits the response. *)
Lemma dispatch_bound h params w n w' :
  workerOk w -> count_ h <= workerPayload -> dispatch fuel h params w = (Ret n, w') -> 0 <= n <= workerPayload.
Proof using H.
  intros (Hq & _ & Hs) Hc Hd. unfold workerPayload in *. unfold dispatch in Hd.
  repeat match type of Hd with (if ?b then _ else _) _ = _ => destruct b end; try discriminate Hd.
  - unfold handleHello in Hd. results Hd. lia.
  - unfold handleRead in Hd. results Hd. lia.
  - unfold handleReadMany in Hd. results Hd. blia.
  - unfold handleWriteMany in Hd. results Hd. lia.
  - unfold handleWrite in Hd. results Hd. lia.
  - unfold handlePop in Hd. results Hd. lia.
  - unfold handleEvents in Hd. results Hd. destruct Hq as (_ & Hq & _). assert (0 <= count_ h / 32) by (apply Z.div_pos; lia).
    pose proof (Z.div_mod (count_ h) 32). pose proof (Z.mod_pos_bound (count_ h) 32). lia.
  - unfold handleLineMode in Hd. results Hd. destruct (value h =? 0); results Hd; lia.
  - unfold handleLines in Hd. results Hd. match type of Hd with (if ?x <? ?y then _ else _) _ = _ => destruct (Z.ltb_spec x y) end; [discriminate Hd|]. results Hd. lia.
  - unfold handleRecall in Hd. results Hd. blia.
  - unfold handleRecallShared in Hd. results Hd. match type of Hd with (if ?x then _ else _) _ = _ => destruct x end; results Hd; lia.
  - unfold handleStackDownload in Hd. results Hd. lia.
  - unfold handlePanel in Hd. results Hd. lia.
  - unfold handleStreamPump in Hd. results Hd. lia.
  - unfold handleStreamWords in Hd. results Hd. destruct (takeWords _ _) as [[[first b] r']|] eqn:Ht; [|discriminate Hd]. results Hd.
    apply takeWords_count in Ht; [lia|blia|done].
  - unfold handleStreamPeek in Hd. results Hd. destruct (streamPeek _ _) as [o r']. results Hd. lia.
Qed.

(** ** The reply *)

(** The reply of [n] bytes answers [request]: its magic, sequence and
    operation, the error flag, the payload's length. *)
Record answers (request reply : list Z) : Prop := {
  answers_length : workerHeader <= Z.of_nat (length reply) <= workerHeader + workerPayload;
  answers_echo : take 10 reply = take 10 request;
  answers_rest : slice 11 5 reply = slice 11 5 request;
  answers_flag : reply !! 10%nat = Some 0 \/ reply !! 10%nat = Some 1;
  answers_count : field 16 4 reply = Z.of_nat (length reply) - workerHeader
}.

(** The response's header while the request is handled. *)
Definition headed (request : list Z) (flag : Z) (w : worker) : Prop :=
  workerOk w /\ forall i, (i < 24)%nat -> response w !! i = if decide (i = 10%nat) then Some flag else request !! i.

Lemma headed_keeps request flag w w' : keepsOk w w' -> headed request flag w -> headed request flag w'.
Proof using.
  intros Hk [Hok Hh]. destruct (Hk Hok) as [Hok' Ht]. split; [done|]. intros i Hi. rewrite <- Hh by done.
  by rewrite <- (lookup_take_lt (response w') 24), Ht, lookup_take_lt by lia.
Qed.
Lemma workerOk_length w : workerOk w -> Z.of_nat (length (response w)) = 65560.
Proof using. intros (_ & Hb & _). unfold bufferOk, workerHeader, workerPayload in Hb. lia. Qed.
Lemma workerOk_response w b : workerOk w -> length b = length (response w) -> workerOk (set_response b w).
Proof using. intros (Hq & Hb & Hs) Hl. split_and!; [done| |done]. unfold bufferOk in *. cbn. congruence. Qed.

Lemma answers_reply request flag w n :
  (flag = 0 \/ flag = 1) -> headed request flag w -> 0 <= n <= workerPayload -> workerHeader <= Z.of_nat (length request) ->
  let reply := take (Z.to_nat (workerHeader + n)) (copyAt 16 (leBytes 4 (u32 n)) (response w)) in
  Z.of_nat (length reply) = workerHeader + n /\ answers request reply.
Proof using.
  unfold workerHeader, workerPayload. intros Hflag [(_ & Hb & _) Hh] Hn Hlen. cbv zeta.
  unfold bufferOk, workerHeader, workerPayload in Hb. set (b := copyAt 16 _ _).
  assert (Z.of_nat (length b) = 65560) as Hl by (unfold b; rewrite length_copyAt; lia).
  assert (Z.of_nat (length (take (Z.to_nat (24 + n)) b)) = 24 + n) as Hrl by (rewrite length_take; lia).
  assert (forall i, (i < 16)%nat -> take (Z.to_nat (24 + n)) b !! i = if decide (i = 10%nat) then Some flag else request !! i) as Hlook.
  { intros i Hi. rewrite lookup_take_lt by lia. unfold b. rewrite lookup_copyAt by (rewrite length_leBytes; lia).
    rewrite decide_False by lia. apply Hh. lia. }
  split; [done|]. split.
  - unfold workerHeader, workerPayload. lia.
  - apply list_eq. intros i. destruct (decide (i < 10)%nat).
    + rewrite (lookup_take_lt request), (lookup_take_lt _ 10), Hlook, decide_False by lia. done.
    + rewrite !lookup_take_ge by lia. done.
  - apply list_eq. intros i. unfold slice. destruct (decide (i < 5)%nat).
    + rewrite !lookup_take_lt, !lookup_drop, Hlook, decide_False by lia. done.
    + rewrite !lookup_take_ge by lia. done.
  - rewrite Hlook, decide_True by lia. destruct Hflag as [-> | ->]; auto.
  - rewrite Hrl. unfold field, workerHeader. replace (slice 16 4 (take (Z.to_nat (24 + n)) b)) with (leBytes 4 (u32 n)).
    + rewrite leVal_leBytes by apply fits_u32. rewrite u32_fits; [lia|]. unfold fits. lia.
    + unfold slice. rewrite skipn_firstn_comm, take_take, Nat.min_l by lia.
      symmetry. rewrite <- (length_leBytes 4 (u32 n)) at 1. apply slice_copyAt. rewrite length_leBytes. lia.
Qed.

(** handle leaves a reply of its request in the response buffer. *)
Lemma handle_reply request w n w' :
  workerOk w -> workerHeader <= Z.of_nat (length request) -> handle fuel request w = (Ret n, w') ->
  workerOk w' /\ Z.of_nat (length (take (Z.to_nat n) (response w'))) = n /\
  answers request (take (Z.to_nat n) (response w')).
Proof using H.
  intros Hok Hlen Hd. unfold handle in Hd. rewrite (proj2 (Z.ltb_ge _ _)) in Hd by done. cbv zeta in Hd.
  apply bind_Ret_inv in Hd as ([] & w1 & H1 & Hd). injection H1 as <-.
  apply bind_Ret_inv in Hd as ([] & w1 & H1 & Hd). injection H1 as Hw1.
  assert (Z.of_nat (length (response w)) = 65560) as Hl by by apply workerOk_length. unfold workerHeader in Hlen.
  assert (headed request 0 w1) as Hh.
  { subst w1. split.
    { apply workerOk_response; [apply workerOk_response; [exact Hok|apply length_copyAt]|apply length_copyAt]. }
    intros i Hi. cbn [response set_response]. rewrite lookup_copyAt by (rewrite length_copyAt; simpl; lia). simpl.
    destruct (decide (i = 10%nat)) as [->|Hi10]; [by rewrite decide_True by lia|]. rewrite decide_False by lia.
    unfold workerHeader. rewrite lookup_copyAt by (rewrite length_take; lia). rewrite length_take, decide_True by lia. rewrite lookup_take_lt by lia. f_equal. lia. }
  apply bind_Ret_inv in Hd as (r & w2 & H2 & Hd). apply bind_Ret_inv in Hd as (m & w3 & H3 & Hd).
  apply bind_Ret_inv in Hd as ([] & w4 & H4 & Hd). apply mret_Ret_inv in Hd as [-> ->]. injection H4 as Hw4.
  assert (keepsOk w1 w2) as Hk.
  { pose proof (keeps_dispatch (headerOf request) (paramsOf request)) as Hs.
    assert (steps keepsOk (attempt (if workerPayload <? count_ (headerOf request) then fail (EMsg "oversized worker request" [])
      else dispatch fuel (headerOf request) (paramsOf request)))) as Ha by steps_tac.
    specialize (Ha w1). by rewrite H2 in Ha. }
  assert (exists flag, (flag = 0 \/ flag = 1) /\ headed request flag w3 /\ 0 <= m <= workerPayload) as (flag & Hf & Hh3 & Hm).
  { apply attempt_Ret_inv in H2 as [(k & -> & H2)|(e & -> & H2)].
    - apply mret_Ret_inv in H3 as [-> ->]. exists 0. split; [by left|]. split; [by eapply headed_keeps|].
      destruct (Z.ltb_spec workerPayload (count_ (headerOf request))); [discriminate H2|].
      eapply dispatch_bound; [|done|exact H2]. apply Hh.
    - exists 1. split; [by right|]. apply (headed_keeps request 0) in Hk; [|done].
      apply bind_Ret_inv in H3 as ([] & w5 & H5 & H3). injection H5 as <-.
      apply bind_Ret_inv in H3 as ([] & w5 & H5 & H3). apply mret_Ret_inv in H3 as [-> ->].
      pose proof (keeps_putData 0 (take (Z.to_nat workerPayload) (hw_ErrorText e)) (set_response (copyAt 10 [1] (response w2)) w2)) as Hp.
      rewrite H5 in Hp. split; [|rewrite length_take; unfold workerPayload; lia].
      apply (headed_keeps request 1 _ _ Hp). destruct Hk as [Hok2 Hh2]. pose proof (workerOk_length _ Hok2).
      split; [apply workerOk_response; [exact Hok2|apply length_copyAt]|].
      intros i Hi. cbn [response set_response]. rewrite lookup_copyAt by (simpl; lia). simpl.
      destruct (decide (i = 10%nat)) as [->|Hi10]; [by rewrite decide_True by lia|]. rewrite decide_False by lia. rewrite Hh2 by done. by rewrite decide_False. }
  destruct (answers_reply request flag w3 m Hf Hh3 Hm Hlen) as [Hrl Ha]. rewrite <- Hw4. cbn [response set_response].
  split; [apply workerOk_response; [apply Hh3|apply length_copyAt]|]. by split.
Qed.
End keeps.
