(* ===== verification/WorkerProtocol.v ===== *)
(** * The worker answers each request once, in order

    serve (src/app/internal/bus/worker_server_linux.go) against the socket's
    history: whatever the pumps do and however often the socket is full, the
    replies sent, with the one that waits, are the answers of the requests
    taken. *)
From S2P Require Import Prelude Circular Machine Fabric Bus BusSteps Command DecodedEvent Lines LinesRun LinesWire.
From S2P Require Import Status Open Arm Recall Sinks Stream DecodedStream Panel Stack WorkerRing.
From S2P Require Import Worker WorkerHandle WorkerServe WorkerInv.

(** ** Steps that leave the response *)

Definition sameResponse (w w' : worker) : Prop := response w' = response w.
#[export] Instance sameResponse_preorder : PreOrder sameResponse.
Proof. split; [done|]. unfold sameResponse. intros w1 w2 w3. congruence. Qed.

Section same.
Context {E : Env} {H : Hardware} (fuel : nat).

Lemma same_onCapture {A} (m : M A) : steps sameResponse (onCapture m).
Proof using. intros w. unfold onCapture. by destruct (m (capt w)). Qed.
Lemma same_onLines {A} (m : SE Transcript A) : steps sameResponse (onLines m).
Proof using. intros w. unfold onLines. destruct linesStore as [t|]; [|done]. by destruct (m t). Qed.
Lemma same_onPace f : steps sameResponse (onPace f).
Proof using. by intros w. Qed.
Lemma same_onRing f : steps sameResponse (onRing f).
Proof using. by intros w. Qed.
Lemma same_onQueue f : steps sameResponse (onQueue f).
Proof using. by intros w. Qed.
Lemma same_set_lineMode f : steps sameResponse (modify (fun w => set_lineMode (f w) w)).
Proof using. by intros w. Qed.
Lemma same_drainBank : steps sameResponse drainBank.
Proof using. intros w. unfold drainBank. by destruct (@DrainStream _ _ _ _ _). Qed.
#[local] Hint Resolve same_onCapture same_onLines same_onPace same_onRing same_onQueue same_set_lineMode same_drainBank : steps.

Lemma same_queueEvents size events : steps sameResponse (queueEvents size events).
Proof using. induction events as [|e events IH]; cbn [queueEvents]; steps_tac. Qed.
#[local] Hint Resolve same_queueEvents : steps.
Lemma same_pump : steps sameResponse pump.
Proof using. unfold pump, addLines, clock. steps_tac. Qed.
Lemma same_pumpBanks n banks : steps sameResponse (pumpBanks n banks).
Proof using. revert banks. induction n as [|n IH]; intros banks; cbn [pumpBanks]; unfold clock; steps_tac. Qed.
Lemma same_spinning : steps sameResponse spinning.
Proof using. unfold spinning, clock. steps_tac. Qed.
#[local] Hint Resolve same_pumpBanks same_spinning : steps.
Lemma same_streamPump : steps sameResponse streamPump.
Proof using. unfold streamPump, measure, clock. steps_tac. Qed.
Lemma same_pollTime busy : steps sameResponse (pollTime busy).
Proof using. unfold pollTime. steps_tac. Qed.
End same.

(** ** The exchange *)

(** The requests taken, as the buffer holds them, and the replies accepted
    whole. *)
Definition requestOf (e : sockEvent) : list (list Z) :=
  match e with
  | SRead (inl p) => let r := take (Z.to_nat requestBuffer) p in if framed r then [r] else []
  | _ => []
  end.
Definition replyOf (e : sockEvent) : list (list Z) :=
  match e with
  | SWrite p (inl n) => if int32 n =? Z.of_nat (length p) then [p] else []
  | _ => []
  end.
Definition requestsOf (h : list sockEvent) : list (list Z) := concat (map requestOf h).
Definition repliesOf (h : list sockEvent) : list (list Z) := concat (map replyOf h).
Definition pendingReply (s : server) : list (list Z) :=
  if waiting s =? 0 then [] else [take (Z.to_nat (waiting s)) (response (work s))].

Lemma requestsOf_snoc h e : requestsOf (h ++ [e]) = requestsOf h ++ requestOf e.
Proof. unfold requestsOf. rewrite map_app, concat_app. simpl. by rewrite app_nil_r. Qed.
Lemma repliesOf_snoc h e : repliesOf (h ++ [e]) = repliesOf h ++ replyOf e.
Proof. unfold repliesOf. rewrite map_app, concat_app. simpl. by rewrite app_nil_r. Qed.

Lemma framed_length r : framed r = true -> workerHeader <= Z.of_nat (length r).
Proof. unfold framed, workerHeader. intros Hf. blia. Qed.
Lemma framed_nil : framed [] = false.
Proof. reflexivity. Qed.

Section protocol.
Context {E : Env} {H : Hardware} {K : Socket} (fuel : nat).

Record exchangeOk (s : server) : Prop := {
  ex_worker : workerOk (work s);
  ex_pending : waiting s <> 0 -> Z.of_nat (length (take (Z.to_nat (waiting s)) (response (work s)))) = waiting s;
  ex_answers : Forall2 answers (requestsOf (sock s)) (repliesOf (sock s) ++ pendingReply s)
}.

(** The worker's own work changes nothing of it. *)
Lemma exchange_worker {A} (m : W A) s o s' :
  steps keepsOk m -> steps sameResponse m -> onWorker m s = (o, s') -> exchangeOk s ->
  exchangeOk s' /\ sock s' = sock s /\ waiting s' = waiting s.
Proof using.
  intros Hk Hr Hm [Hw Hp Ha]. unfold onWorker in Hm. destruct (m (work s)) as [o1 w] eqn:Hrun. injection Hm as <- <-.
  specialize (Hk (work s)). specialize (Hr (work s)). rewrite Hrun in Hk, Hr. cbn [snd] in *.
  destruct (Hk Hw) as [Hw' _]. unfold sameResponse in Hr. split; [|done].
  split; cbn [work sock waiting set_work]; [done|by rewrite Hr|]. unfold pendingReply in *. cbn [work waiting set_work]. by rewrite Hr.
Qed.

(** An event of the socket that is neither a request nor a reply. *)
Lemma exchange_quiet e s u s' :
  requestOf e = [] -> replyOf e = [] -> emitSock e s = (Ret u, s') -> exchangeOk s -> exchangeOk s' /\ waiting s' = waiting s /\ work s' = work s.
Proof using.
  intros Hq Hr [= _ <-] [Hw Hp Ha]. split; [|done]. split; [done|done|]. cbn [sock set_sock].
  rewrite requestsOf_snoc, repliesOf_snoc, Hq, Hr, !app_nil_r. exact Ha.
Qed.

Lemma exchange_send s x s' : waiting s <> 0 -> sendReply s = (Ret x, s') -> exchangeOk s -> exchangeOk s'.
Proof using.
  intros Hn Hs Hok. pose proof (ex_pending s Hok Hn) as Hl. unfold sendReply in Hs.
  apply bind_Ret_inv in Hs as (s0 & s1 & H1 & Hs). injection H1 as <- <-. cbv zeta in Hs. unfold id in *.
  set (packet := take (Z.to_nat (waiting s)) (response (work s))) in *.
  apply bind_Ret_inv in Hs as (u & s1 & H1 & Hs). destruct (sock_Write (sock s) packet) as [n|e] eqn:Hr.
  - destruct (Z.eqb_spec (int32 n) (waiting s)) as [Hw|Hw]; simpl in Hs.
    + apply bind_Ret_inv in Hs as ([] & s2 & H2 & Hs). apply mret_Ret_inv in Hs as [-> ->]. injection H2 as <-.
      injection H1 as _ <-. destruct Hok as [Hw1 Hp Ha]. split; [done|done|]. cbn [sock set_sock set_waiting].
      rewrite requestsOf_snoc, repliesOf_snoc. cbn [requestOf replyOf]. rewrite Hl, Hw, Z.eqb_refl, app_nil_r.
      unfold pendingReply in *. cbn [waiting set_waiting Z.eqb]. rewrite (proj2 (Z.eqb_neq _ _) Hn) in Ha.
      by rewrite app_nil_r.
    + apply mret_Ret_inv in Hs as [_ ->]. apply exchange_quiet in H1; [by apply H1|done| |done].
      cbn [replyOf]. by rewrite Hl, (proj2 (Z.eqb_neq _ _) Hw).
  - assert (s' = s1) as -> by (destruct e; by injection Hs as _ ->).
    apply exchange_quiet in H1; [by apply H1|done..].
Qed.

Lemma exchange_poll busy s x s' : poll busy s = (Ret x, s') -> exchangeOk s -> exchangeOk s'.
Proof using H.
  intros Hs Hok. unfold poll in Hs. apply bind_Ret_inv in Hs as (ev & s1 & H1 & Hs). injection H1 as <- <-.
  apply bind_Ret_inv in Hs as (wait & s1 & H1 & Hs).
  apply exchange_worker in H1 as (Hok1 & _); [| |apply same_pollTime|done].
  2: { unfold pollTime. steps_tac. apply keeps_spinning. }
  apply bind_Ret_inv in Hs as (h & s2 & H2 & Hs). injection H2 as <- <-. cbv zeta in Hs.
  apply bind_Ret_inv in Hs as (u & s2 & H2 & Hs). apply exchange_quiet in H2 as (Hok2 & _); [|done..].
  apply bind_Ret_inv in Hs as (u3 & s3 & H3 & Hs).
  apply exchange_worker in H3 as (Hok3 & _); [|apply keeps_onCapture|apply same_onCapture|done].
  assert (s' = s3) as ->; [|done]. destruct (sock_Poll _ _ _) as [r|[]]; try by injection Hs as _ ->.
  destruct (negb _); by injection Hs as _ ->.
Qed.

Lemma exchange_receive busy s x s' : waiting s = 0 -> receive fuel busy s = (Ret x, s') -> exchangeOk s -> exchangeOk s'.
Proof using H.
  intros Hn Hs Hok. unfold receive in Hs. apply bind_Ret_inv in Hs as (h & s1 & H1 & Hs). injection H1 as <- <-. cbv zeta in Hs.
  apply bind_Ret_inv in Hs as (u & s1 & H1 & Hs). destruct (sock_Read (sock s)) as [p|e].
  - set (request := take (Z.to_nat requestBuffer) p) in *. destruct (framed request) eqn:Hf; simpl in Hs.
    2: { assert (s' = s1) as -> by (destruct (_ =? 0)%nat; by injection Hs as _ ->).
         apply exchange_quiet in H1; [by apply H1| |done|done]. cbn [requestOf]. fold request. by rewrite Hf. }
    destruct (Nat.eqb_spec (length request) 0) as [H0|_].
    { apply nil_length_inv in H0. rewrite H0, framed_nil in Hf. discriminate Hf. }
    apply bind_Ret_inv in Hs as (n & s2 & H2 & Hs). apply bind_Ret_inv in Hs as ([] & s3 & H3 & Hs). injection H3 as <-.
    injection H1 as _ <-. unfold onWorker in H2. destruct (handle fuel request _) as [o w] eqn:Hh. injection H2 as -> <-.
    destruct Hok as [Hw Hp Ha]. pose proof (framed_length _ Hf) as Hlen.
    apply handle_reply in Hh as (Hw' & Hl & Han); [|exact Hw|done].
    assert (n <> 0) as Hn0. { destruct Han as [Hb _ _ _ _]. unfold workerHeader in Hb. lia. }
    apply exchange_send in Hs; [done|exact Hn0|]. split; cbn [work sock waiting set_work set_sock set_waiting]; [done|done|].
    rewrite requestsOf_snoc, repliesOf_snoc. cbn [requestOf replyOf]. fold request. rewrite Hf, app_nil_r.
    unfold pendingReply in *. rewrite Hn in Ha. cbn [Z.eqb] in Ha. rewrite app_nil_r in Ha.
    cbn [work waiting set_work set_waiting]. rewrite (proj2 (Z.eqb_neq _ _) Hn0). apply Forall2_app; [done|]. by constructor.
  - apply exchange_quiet in H1 as (Hok1 & _); [|done..].
    destruct e; try (by eapply exchange_poll); by injection Hs as _ ->.
Qed.

Lemma exchange_turn s x s' : turn fuel s = (Ret x, s') -> exchangeOk s -> exchangeOk s'.
Proof using H.
  intros Hs Hok. unfold turn in Hs. unfold clock in Hs.
  apply bind_Ret_inv in Hs as (t0 & s1 & H1 & Hs). apply exchange_worker in H1 as (Hok1 & _); [|apply keeps_onCapture|apply same_onCapture|done].
  apply bind_Ret_inv in Hs as (u2 & s2 & H2 & Hs). apply exchange_worker in H2 as (Hok2 & _); [|apply keeps_pump|apply same_pump|done].
  apply bind_Ret_inv in Hs as (u3 & s3 & H3 & Hs). apply exchange_worker in H3 as (Hok3 & _); [|apply keeps_streamPump|apply same_streamPump|done].
  apply bind_Ret_inv in Hs as (t1 & s4 & H4 & Hs). apply exchange_worker in H4 as (Hok4 & _); [|apply keeps_onCapture|apply same_onCapture|done].
  apply bind_Ret_inv in Hs as (w & s5 & H5 & Hs). injection H5 as <- <-.
  apply bind_Ret_inv in Hs as (y & s5 & H5 & Hs).
  assert (exchangeOk s5) as Hok5.
  { destruct (Z.eqb_spec (waiting s4) 0); simpl in H5; [by injection H5 as _ <-|]. by eapply exchange_send. }
  destruct y as [r|]; [by injection Hs as _ <-|].
  apply bind_Ret_inv in Hs as (w & s6 & H6 & Hs). injection H6 as <- <-.
  destruct (Z.eqb_spec (waiting s5) 0); [by eapply exchange_receive|by eapply exchange_poll].
Qed.

(** The service's states: a worker before any request, and what turns of its
    loop make of it. *)
Inductive served : server -> Prop :=
| served_start w : workerOk w -> served (Server w [] 0)
| served_turn s x s' : served s -> turn fuel s = (Ret x, s') -> served s'.

End protocol.
