(* ===== verification/WorkerClient.v ===== *)
(** * The acquisition worker's client

    The app's side of the bus once a worker owns it: workerClient and the
    methods of Dev that go through it (src/app/internal/bus/worker_linux.go,
    stream_ring_linux.go, bus.go). What is at the socket's other end is a
    [Peer]. A text a worker's error carries is its bytes. *)
From S2P Require Import Prelude Circular Machine Fabric Bus Command Lines Status Recall Stack WorkerRing Worker WorkerHandle WorkerServe.

(** The socket's other end, over a state of its own: a packet written (its
    length, or an error), one read, the socket closed, the clock, the socket's
    deadline, and the ring the worker shares. *)
Class Peer (P : Type) := {
  peer_Write : list Z -> P -> (Z + err) * P;
  peer_Read : P -> (list Z + err) * P;
  peer_Close : P -> P;
  peer_Now : P -> Z;
  peer_SetDeadline : Z -> P -> P;
  peer_Shared : P -> option (list Z)
}.

Record client (P : Type) := Client {
  peer : P; sequence : Z; failed : option err; cDeadline : option Z (* None: the zero time *)
}.
Arguments Client {P}.
Arguments peer {P}.
Arguments sequence {P}.
Arguments failed {P}.
Arguments cDeadline {P}.

Section client.
Context {P : Type} {N : Peer P}.
Abbreviation C := (SE (client P)).

Definition set_peer (p : P) (c : client P) : client P := Client p (sequence c) (failed c) (cDeadline c).
Definition onPeer {A} (f : P -> A * P) : C A := fun c => let '(a, p) := f (peer c) in (Ret a, set_peer p c).

(** A failure that ends the client's use of the worker. *)
Definition failFor {A} (e : err) : C A :=
  modify (fun c => Client (peer_Close (peer c)) (sequence c) (Some e) (cDeadline c));;
  fail e.

(** The packet of a call. *)
Definition requestBytes (seq op plane selector value want epoch : Z) (params : list Z) : list Z :=
  leBytes 4 workerMagic ++ leBytes 4 seq ++ leBytes 2 op ++ [plane; 1] ++ leBytes 2 selector ++ leBytes 2 value ++
  leBytes 4 (u32 want) ++ leBytes 4 epoch ++ params.

(** The reply is the answer of this call. *)
Definition validReply (seq op : Z) (r : list Z) : bool :=
  let n := Z.of_nat (length r) in
  negb ((n <? workerHeader) || negb (field 0 4 r =? workerMagic) || negb (field 4 4 r =? seq) || negb (field 8 2 r =? op) ||
        negb (field 11 1 r =? 1) || negb (int32 (field 16 4 r) =? n - workerHeader)).

(** The packet sent and its reply taken; an error is the transport's. *)
Definition exchange (request : list Z) (seq op : Z) : C (list Z + err) :=
  w ← onPeer (peer_Write request);
  match w with
  | inr e => mret (inr e)
  | inl n =>
      if negb (n =? Z.of_nat (length request)) then mret (inr (EMsg "short worker request" []))
      else
        r ← onPeer peer_Read;
        mret (match r with
              | inl r =>
                  let r := take (Z.to_nat (workerHeader + workerPayload)) r in
                  if validReply seq op r then inl r else inr (EMsg "invalid worker response" [])
              | inr e => inr e
              end)
  end.

(** The socket's deadline, moved on once less than two of its three seconds
    are left. *)
Definition keepDeadline : C unit :=
  c ← gets id;
  let now := peer_Now (peer c) in
  if (match cDeadline c with None => true | Some d => - (2 * second) <? now - d end) then
    modify (fun c => Client (peer_SetDeadline (now + 3 * second) (peer c)) (sequence c) (failed c) (Some (now + 3 * second)))
  else mret tt.

(** callSplit: the reply's payload, of which the caller's head is the first
    bytes; [want] bytes at most. *)
Definition callSplit (op plane selector value epoch : Z) (params : list Z) (want : Z) : C (list Z) :=
  f ← gets failed;
  liftErr f;;
  guard (workerPayload <? want) (EMsg "bus: oversized worker response" []);;
  modify (fun c => Client (peer c) (u32 (sequence c + 1)) (failed c) (cDeadline c));;
  guard (workerRecallParams <? Z.of_nat (length params)) (EMsg "bus: oversized worker request" []);;
  seq ← gets sequence;
  keepDeadline;;
  r ← exchange (requestBytes seq op plane selector value want epoch params) seq op;
  match r with
  | inr e => failFor (EWrap "bus: worker transport failed (consumption uncertain): %w" [] e)
  | inl reply =>
      let payload := drop (Z.to_nat workerHeader) reply in
      if negb (field 10 1 reply =? 0) then fail (EMsg "bus worker: %s" payload)
      else if want <? Z.of_nat (length payload) then failFor (EMsg "bus: oversized worker payload" [])
      else mret payload
  end.

(** ** Registers *)

(** Read, through workerIOCTL. *)
Definition devRead (plane sel : Z) : C Z :=
  guard (negb (validPlane plane)) (EMsg "bus: invalid plane %d" [plane]);;
  r ← attempt (callSplit workerRead plane sel 0 0 [] 2);
  match r with
  | inl b =>
      guard (negb (length b =? 2)%nat) (EWrap "bus: read cs%d sel %#04x: %w" [plane; sel] (EMsg "bus: short worker register read" []));;
      mret (leVal b)
  | inr e => fail (EWrap "bus: read cs%d sel %#04x: %w" [plane; sel] e)
  end.
(** RawWrite, through workerIOCTL. *)
Definition devRawWrite (sel value : Z) : C unit :=
  r ← attempt (callSplit workerWrite 1 sel value 0 [] 0);
  match r with
  | inl _ => mret tt
  | inr e => fail (EWrap "bus: write cs%d sel %#04x: %w" [1; sel] e)
  end.

(** The registers of a batch, one call for each [workerRecallParams / 4]. *)
Fixpoint writeBatches (n : nat) (regs : list (Z * Z)) : C unit :=
  match regs with
  | [] => mret tt
  | _ =>
      match n with
      | O => outOfFuel
      | S n =>
          let k := Z.to_nat (workerRecallParams / 4) in
          let params := concat (map (fun r => leBytes 2 r.1 ++ leBytes 2 r.2) (take k regs)) in
          r ← attempt (callSplit workerWriteMany 1 0 0 0 params 0);
          match r with
          | inr e => fail (EWrap "bus: write cs1: %w" [] e)
          | inl _ => writeBatches n (drop k regs)
          end
      end
  end.
Definition devRawWriteMany (regs : list (Z * Z)) : C unit :=
  if (length regs <? 2)%nat then each (fun r => devRawWrite r.1 r.2) regs
  else writeBatches (length regs) regs.

Fixpoint readEach (plane : Z) (sels : list Z) : C (list Z) :=
  match sels with
  | [] => mret []
  | s :: sels => v ← devRead plane s; vs ← readEach plane sels; mret (v :: vs)
  end.
(** [k] halfwords. *)
Fixpoint halves (k : nat) (b : list Z) : list Z :=
  match k with O => [] | S k => leVal (take 2 b) :: halves k (drop 2 b) end.
Definition devReadMany (plane : Z) (sels : list Z) : C (list Z) :=
  let n := 2 * Z.of_nat (length sels) in
  if (length sels <? 2)%nat || (workerRecallParams <? n) || negb (validPlane plane) then readEach plane sels
  else
    r ← attempt (callSplit workerReadMany plane 0 0 0 (concat (map (leBytes 2) sels)) n);
    match r with
    | inr e => fail (EWrap "bus: read cs%d: %w" [plane] e)
    | inl b =>
        guard (negb (Z.of_nat (length b) =? n)) (EMsg "bus: short worker register reads" []);;
        mret (halves (length sels) b)
    end.

(** PopBytesChecked: [n] bytes. *)
Definition devPopBytes (sel n : Z) : C (list Z) :=
  guard ((127 <? sel) || negb (n mod 2 =? 0)) (EMsg "bus: invalid byte pop selector/length" []);;
  if n =? 0 then mret []
  else
    b ← callSplit workerPop 1 sel 0 0 [] n;
    guard (negb (Z.of_nat (length b) =? n)) (EMsg "bus: short worker pop (consumption uncertain)" []);;
    mret b.
Definition devPopWords (sel n : Z) : C (list Z) :=
  b ← devPopBytes sel (2 * n);
  mret (halves (Z.to_nat n) b).

(** ** Records *)

(** recallShared: into the shared ring, and out of it. *)
Definition recallShared (epoch record : Z) (windows : list Z) (size : Z) : C (bool * list Z) :=
  shared ← gets (fun c => peer_Shared (peer c));
  match shared with
  | None => mret (false, [])
  | Some ring =>
      if Z.of_nat (length ring) <? size then mret (false, [])
      else
        b ← callSplit workerRecallShared 0 (u16 (u32 size .>> 16)) (u16 (u32 size .& 0xffff)) epoch
              (leBytes 4 record ++ concat (map (leBytes 4) windows)) 4;
        guard (negb (length b =? 4)%nat) (EMsg "bus: short shared recall reply" []);;
        if leVal b =? 0 then mret (false, [])
        else
          guard (negb (leVal b =? u32 size)) (EMsg "bus: short shared recall" []);;
          ring ← gets (fun c => default [] (peer_Shared (peer c)));
          mret (true, take (Z.to_nat size) ring)
  end.

(** RecallIsolated: whether the worker made the reads, and their [size]
    bytes. *)
Definition RecallIsolated (epoch record : Z) (windows : list Z) (size : Z) : C (bool * list Z) :=
  let k := Z.of_nat (length windows) in
  if (size =? 0) || (k =? 0) || negb (k mod 3 =? 0) || (workerRecallParams <? 4 + 4 * k) then mret (false, [])
  else if workerPayload <? size then recallShared epoch record windows size
  else
    b ← callSplit workerRecall 0 0 0 epoch (leBytes 4 record ++ concat (map (leBytes 4) windows)) size;
    guard (negb (Z.of_nat (length b) =? size)) (EMsg "bus: short worker recall: %d of %d bytes" [Z.of_nat (length b); size]);;
    mret (true, b).

Definition StackDownloadIsolated (n size : Z) : C (bool * list Z) :=
  if (n <=? 0) || (0xffff <? n) || (workerPayload <? size) then mret (false, [])
  else
    b ← callSplit workerStackDownload 0 0 n 0 [] size;
    guard (negb (Z.of_nat (length b) =? size)) (EMsg "bus: short worker stack download" []);;
    mret (true, b).

Definition ReadIsolatedPanel : C (list Z) :=
  b ← callSplit workerPanel 0 0 0 0 [] 22;
  guard (negb (length b =? 22)%nat) (EMsg "bus: short worker panel read" []);;
  mret (halves 11 b).

(** ** Events, lines and the stream *)

Definition ReadIsolatedDecodedBytes (epoch limit : Z) : C (list Z) := callSplit workerEvents 0 0 0 epoch [] limit.
Definition SetIsolatedStreamPump (on : bool) : C unit := callSplit workerStreamPump 0 0 (Z.b2z on) 0 [] 0;; mret tt.
Definition SetIsolatedLineMode (proto : Z) : C unit := callSplit workerLineMode 0 0 (u16 proto) 0 [] 0;; mret tt.
Definition ReadIsolatedLines (epoch from : Z) (flush : bool) (limit : Z) : C (list Z) :=
  callSplit workerLines (Z.b2z flush) (u16 (from .>> 16)) (u16 from) epoch [] limit.

(** ReadIsolatedStream: the first ordinal and the words' bytes, [limit] at most. *)
Definition ReadIsolatedStream (limit : Z) : C (Z * list Z) :=
  b ← callSplit workerStreamWords 0 0 0 0 [] (8 + Z.ldiff (Z.min limit (workerPayload - 8)) 3);
  guard (length b <? 8)%nat (EMsg "bus: short worker stream reply" []);;
  mret (leVal (take 8 b), drop 8 b).

(** strings.HasSuffix of a worker's error text *)
Definition endsIn (suffix : list Z) (e : err) : bool :=
  match e with
  | EMsg _ t => bool_decide (drop (length t - length suffix) t = suffix)
  | _ => false
  end.

(** PeekIsolatedStream: the first ordinal and the two pieces of the ring. *)
Definition PeekIsolatedStream (release : Z) : C (Z * (list Z * list Z)) :=
  shared ← gets (fun c => peer_Shared (peer c));
  match shared with
  | None => fail ErrNoSharedRing
  | Some _ =>
      r ← attempt (callSplit workerStreamPeek 0 0 0 (u32 release) [] 16);
      match r with
      | inr e => fail (if endsIn (text "bus: no shared stream ring") e then ErrNoSharedRing else e)
      | inl b =>
          guard (negb (length b =? 16)%nat) (EMsg "bus: short worker peek reply" []);;
          ring ← gets (fun c => default [] (peer_Shared (peer c)));
          let at_ := int32 (field 8 4 b) in
          let count := int32 (field 12 4 b) in
          (* a slice bound out of range would panic *)
          if (at_ <? 0) || (count <? 0) then panic
          else
            ab ← lift (peekPieces ring at_ count);
            mret (leVal (take 8 b), ab)
      end
  end.
End client.
