(* ===== verification/WorkerLink.v ===== *)
(** * The client and the worker

    A call of the client (src/app/internal/bus/worker_linux.go) to the worker
    (worker_server_linux.go): the packet the client makes is the request the
    worker parses, the worker's reply is the one the client accepts, and a
    batch of register accesses through the worker is the same accesses on its
    bus. *)
From S2P Require Import Prelude Circular Machine Fabric Bus BusSteps Command DecodedEvent Lines LinesRun LinesWire.
From S2P Require Import Status Open Arm Recall Sinks Stream DecodedStream Panel Stack WorkerRing.
From S2P Require Import Worker WorkerHandle WorkerServe WorkerInv WorkerProtocol WorkerClient.

(** ** The packet *)

(** A call's fields, each of its width. *)
Record callFits (seq op plane selector value want epoch : Z) (params : list Z) : Prop := {
  fits_seq : fits 32 seq; fits_op : fits 16 op; fits_plane : fits 8 plane; fits_selector : fits 16 selector;
  fits_value : fits 16 value; fits_want : 0 <= want <= workerPayload; fits_epoch : fits 32 epoch;
  fits_params : Z.of_nat (length params) <= workerRecallParams
}.

Lemma field_byte i b x : b !! i = Some x -> field i 1 b = x.
Proof.
  intros Hb. unfold field, slice. apply drop_S in Hb. rewrite Hb. change (leVal (take 1 (x :: drop (S i) b))) with (x + 256 * 0). lia.
Qed.

Section packet.
Context (seq op plane selector value want epoch : Z) (params : list Z).
Hypothesis ok : callFits seq op plane selector value want epoch params.
Local Abbreviation packet := (requestBytes seq op plane selector value want epoch params).

Lemma length_packet : Z.of_nat (length packet) = workerHeader + Z.of_nat (length params).
Proof using. unfold requestBytes, workerHeader. rewrite !length_app, !length_leBytes. simpl length. lia. Qed.
(** The fields lie at fixed places, so they compute. *)
Ltac packet_field n v := transitivity (leVal (leBytes n v)); [reflexivity|apply leVal_leBytes; auto].

Lemma packet_magic : field 0 4 packet = workerMagic.
Proof using. reflexivity. Qed.
Lemma packet_seq : field 4 4 packet = seq.
Proof using ok. destruct ok. packet_field 4%nat seq. Qed.
Lemma packet_op : field 8 2 packet = op.
Proof using ok. destruct ok. packet_field 2%nat op. Qed.
Lemma packet_header : headerOf packet = Header op plane selector value want epoch.
Proof using ok.
  destruct ok as [? ? ? ? ? Hw ? ?]. unfold workerPayload in Hw. unfold headerOf. f_equal.
  - packet_field 2%nat op.
  - transitivity (plane + 256 * 0); [reflexivity|lia].
  - packet_field 2%nat selector.
  - packet_field 2%nat value.
  - transitivity (int32 (leVal (leBytes 4 (u32 want)))); [reflexivity|]. rewrite leVal_leBytes by apply fits_u32.
    rewrite u32_fits by (unfold fits; lia). apply int32_small. lia.
  - packet_field 4%nat epoch.
Qed.
Lemma packet_params : paramsOf packet = params.
Proof using. reflexivity. Qed.

(** The worker takes it: its framing is right. *)
Lemma packet_framed :
  (params <> [] -> op = workerRecall \/ op = workerRecallShared \/ op = workerReadMany \/ op = workerWriteMany) ->
  take (Z.to_nat requestBuffer) packet = packet /\ framed packet = true.
Proof using ok.
  intros Hp. pose proof length_packet as Hl. pose proof (fits_params _ _ _ _ _ _ _ _ ok) as Hm.
  assert (workerHeader + workerRecallParams < requestBuffer) as Hb by reflexivity. split.
  { apply take_ge. lia. }
  unfold framed. rewrite packet_op, packet_magic, Hl. change (field 11 1 packet) with (1 + 256 * 0).
  rewrite Z.eqb_refl. cbn [negb orb Z.eqb]. destruct params as [|x l] eqn:Hpar.
  - reflexivity.
  - assert (0 < Z.of_nat (length (x :: l))) by (simpl; lia).
    rewrite (proj2 (Z.ltb_lt _ _)), (proj2 (Z.leb_le _ _)) by lia.
    destruct Hp as [-> |[-> |[-> | ->]]]; [done|..]; cbn; by rewrite andb_false_r.
Qed.

(** The client takes the worker's answer. *)
Lemma answers_valid reply : answers packet reply -> validReply seq op reply = true.
Proof using ok.
  intros [Hl He Hr _ Hc]. unfold validReply. unfold workerHeader, workerPayload in *.
  assert (forall o n, (o + n <= 10)%nat -> field o n reply = field o n packet) as Hfield.
  { intros o n Hon. unfold field. by rewrite <- (slice_take o n 10 reply), He, slice_take by done. }
  assert (field 11 1 reply = field 11 1 packet) as Hv.
  { unfold field. f_equal. assert (forall l : list Z, slice 11 1 l = take 1 (slice 11 5 l)) as H1 by (intros l; unfold slice; by rewrite take_take).
    by rewrite !H1, Hr. }
  rewrite !Hfield, Hv, Hc, packet_magic, packet_seq, packet_op by lia. change (field 11 1 packet) with (1 + 256 * 0).
  rewrite int32_small by lia. rewrite !Z.eqb_refl. by rewrite (proj2 (Z.ltb_ge _ _)) by lia.
Qed.
End packet.

(** ** The worker at the socket's other end

    A worker that handles each packet as it comes (receive of WorkerServe),
    without the pumps between two requests. *)

Record link := Link { served_ : worker; inbox : option (list Z) (* the reply sent *); hungUp : bool }.

Section link.
Context {E : Env} {H : Hardware} (fuel : nat).

Definition linkWrite (packet : list Z) (l : link) : (Z + err) * link :=
  let request := take (Z.to_nat requestBuffer) packet in
  if hungUp l then (inr (EBus 32), l)
  else if framed request then
    match handle fuel request (served_ l) with
    | (Ret n, w) => (inl (Z.of_nat (length packet)), Link w (Some (take (Z.to_nat n) (response w))) false)
    | (_, w) => (inl (Z.of_nat (length packet)), Link w None true)
    end
  else (inl (Z.of_nat (length packet)), Link (served_ l) None true).
Definition linkRead (l : link) : (list Z + err) * link :=
  match inbox l with
  | Some r => (inl r, Link (served_ l) None (hungUp l))
  | None => (inr (EBus 110), l)
  end.
#[export] Instance linkPeer : Peer link := {|
  peer_Write := linkWrite;
  peer_Read := linkRead;
  peer_Close := fun l => Link (served_ l) None true;
  peer_Now := fun l => env_Now (trace (capt (served_ l)));
  peer_SetDeadline := fun _ l => l;
  peer_Shared := fun l => if sShared (stream_ (served_ l)) then Some (sring (stream_ (served_ l))) else None
|}.

Definition linked (w : worker) (c : client link) : Prop :=
  peer c = Link w None false /\ failed c = None /\ workerOk w.

(** handle, by its dispatch's outcome. *)
Definition received (request : list Z) (w : worker) : worker :=
  set_response (copyAt 10 [0] (copyAt 0 (take (Z.to_nat workerHeader) request) (response w))) w.
Definition replied (n : Z) (w : worker) : worker := set_response (copyAt 16 (leBytes 4 (u32 n)) (response w)) w.
Definition refused (t : list Z) (w : worker) : worker :=
  set_response (copyAt (24 + 0) t (copyAt 10 [1] (response w))) w.

Lemma handle_run request w :
  workerHeader <= Z.of_nat (length request) -> count_ (headerOf request) <= workerPayload ->
  handle fuel request w =
  match dispatch fuel (headerOf request) (paramsOf request) (received request w) with
  | (Ret n, w2) => (Ret (workerHeader + n), replied n w2)
  | (Fail e, w2) =>
      let t := take (Z.to_nat workerPayload) (hw_ErrorText e) in
      let n := Z.of_nat (length t) in
      (Ret (workerHeader + n), replied n (refused t w2))
  | (Panic, w2) => (Panic, w2)
  | (OutOfFuel, w2) => (OutOfFuel, w2)
  end.
Proof using.
  intros Hl Hc. unfold handle. rewrite (proj2 (Z.ltb_ge _ _)) by done. cbv zeta. rewrite (proj2 (Z.ltb_ge workerPayload _)) by done.
  unfold mbind, SE_bind, attempt, putResponse at 1 2, modify. fold (received request w).
  change (set_response _ (set_response _ w)) with (received request w).
  destruct (dispatch _ _ _ _) as [[n|e| |] w2]; reflexivity.
Qed.

Lemma replied_payload n w :
  workerOk w -> 0 <= n <= workerPayload ->
  drop (Z.to_nat workerHeader) (take (Z.to_nat (workerHeader + n)) (response (replied n w))) =
  take (Z.to_nat n) (drop 24 (response w)).
Proof using.
  intros Hw Hn. pose proof (workerOk_length _ Hw) as Hl. unfold replied, workerHeader, workerPayload in *. cbn [response set_response].
  change (Z.to_nat 24) with 24%nat. rewrite skipn_firstn_comm. f_equal; [lia|].
  apply list_eq. intros i. rewrite !lookup_drop, lookup_copyAt by (rewrite length_leBytes; lia). by rewrite length_leBytes, decide_False by lia.
Qed.

Lemma length_text (t : list Z) : Z.of_nat (length (take (Z.to_nat workerPayload) t)) <= workerPayload.
Proof using.
  assert (0 <= workerPayload) as H0 by done. rewrite length_take. revert H0. generalize workerPayload. lia.
Qed.
(** A refusal's reply: its flag and its text. *)
Lemma refused_reply t w :
  workerOk w -> Z.of_nat (length t) <= workerPayload ->
  let w' := replied (Z.of_nat (length t)) (refused t w) in
  workerOk w' /\ (take (Z.to_nat (workerHeader + Z.of_nat (length t))) (response w')) !! 10%nat = Some 1 /\
  drop (Z.to_nat workerHeader) (take (Z.to_nat (workerHeader + Z.of_nat (length t))) (response w')) = t.
Proof using.
  intros Hw Ht. pose proof (workerOk_length _ Hw) as Hl. unfold workerPayload in Ht. cbv zeta.
  assert (workerOk (refused t w)) as Hokr by (apply workerOk_response; [done|by rewrite !length_copyAt]).
  pose proof (workerOk_length _ Hokr) as Hlr. split; [apply workerOk_response; [done|by rewrite length_copyAt]|]. split.
  - rewrite lookup_take_lt by (unfold workerHeader; lia). unfold replied. cbn [response set_response].
    rewrite lookup_copyAt by (rewrite length_leBytes; lia). rewrite length_leBytes, decide_False by lia.
    unfold refused. cbn [response set_response]. rewrite lookup_copyAt by (rewrite length_copyAt; lia).
    rewrite decide_False by lia. rewrite lookup_copyAt by (simpl; lia). by rewrite decide_True by (simpl; lia).
  - rewrite replied_payload by (done || unfold workerPayload; lia). rewrite Nat2Z.id.
    apply (slice_copyAt 24). rewrite length_copyAt. lia.
Qed.

(** ** A call *)

Section call.
Context (op plane selector value want epoch : Z) (params : list Z) (c : client link) (w : worker).
Let seq := u32 (sequence c + 1).
Hypothesis fits : callFits seq op plane selector value want epoch params.
Hypothesis sends : params <> [] -> op = workerRecall \/ op = workerRecallShared \/ op = workerReadMany \/ op = workerWriteMany.
Hypothesis Hlink : linked w c.
Local Abbreviation packet := (requestBytes seq op plane selector value want epoch params).
Local Abbreviation h := (Header op plane selector value want epoch).

(** The client once its call has left. *)
Definition calling : client link :=
  (keepDeadline (Client (peer c) seq (failed c) (cDeadline c))).2.

Lemma calling_link : peer calling = Link w None false /\ failed calling = None /\ sequence calling = seq /\
  keepDeadline (Client (peer c) seq (failed c) (cDeadline c)) = (Ret tt, calling).
Proof using Hlink.
  destruct Hlink as (Hp & Hf & _). unfold calling, keepDeadline.
  rewrite (bind_Ret _ _ _ (Client (peer c) seq (failed c) (cDeadline c)) (Client (peer c) seq (failed c) (cDeadline c))) by done.
  cbn [peer sequence failed cDeadline]. rewrite Hf. destruct (match cDeadline c with None => true | Some d => _ end); by rewrite ?Hp.
Qed.

(** What the client makes of the worker's handling. *)
Lemma callSplit_sent :
  callSplit op plane selector value epoch params want c =
  match handle fuel packet w with
  | (Ret n, w') =>
      let reply := take (Z.to_nat n) (response w') in
      let payload := drop (Z.to_nat workerHeader) reply in
      let c' := Client (Link w' None false) seq None (cDeadline calling) in
      if negb (field 10 1 reply =? 0) then (Fail (EMsg "bus worker: %s" payload), c')
      else if want <? Z.of_nat (length payload) then
        (Fail (EMsg "bus: oversized worker payload" []),
         Client (Link w' None true) seq (Some (EMsg "bus: oversized worker payload" [])) (cDeadline calling))
      else (Ret payload, c')
  | (_, w') =>
      let e := EWrap "bus: worker transport failed (consumption uncertain): %w" [] (EBus 110) in
      (Fail e, Client (Link w' None true) seq (Some e) (cDeadline calling))
  end.
Proof using fits sends Hlink.
  pose proof calling_link as (Hp & Hf & Hs & Hrun). destruct Hlink as (Hp0 & Hf0 & Hw).
  destruct (packet_framed _ _ _ _ _ _ _ _ fits sends) as [Ht Hfr]. pose proof fits as [_ _ _ _ _ Hwant _ Hpar].
  unfold callSplit. rewrite (bind_Ret _ _ c (failed c) c) by done. rewrite Hf0. rewrite (bind_Ret (liftErr None) _ c tt c) by done.
  rewrite (proj2 (Z.ltb_ge workerPayload want)), (proj2 (Z.ltb_ge workerRecallParams _)) by lia.
  rewrite (bind_Ret (guard false _) _ c tt c) by done.
  set (c1 := Client (peer c) seq (failed c) (cDeadline c)).
  rewrite (bind_Ret (modify _) _ c tt c1) by done. rewrite (bind_Ret (guard false _) _ c1 tt c1) by done.
  rewrite (bind_Ret (gets sequence) _ c1 seq c1) by done. rewrite (bind_Ret keepDeadline _ c1 tt calling) by exact Hrun.
  unfold exchange, onPeer. unfold mbind, SE_bind. rewrite Hp. cbn [peer_Write linkPeer]. unfold linkWrite. rewrite Ht, Hfr. cbn [hungUp served_].
  pose proof (length_packet seq op plane selector value want epoch params) as Hlen.
  destruct (handle fuel packet w) as [[n|e| |] w'] eqn:Hh.
  2-4: rewrite Z.eqb_refl; unfold failFor, set_peer, mbind, SE_bind, modify, fail; cbn; by rewrite Hs.
  apply handle_reply in Hh as (Hw' & Hl & Ha); [|done|lia].
  rewrite Z.eqb_refl. cbn [negb peer set_peer peer_Read linkPeer linkRead inbox served_ hungUp].
  pose proof (answers_length _ _ Ha) as Hb. rewrite take_ge by lia. rewrite (answers_valid _ _ _ _ _ _ _ _ fits _ Ha).
  unfold set_peer. cbn [peer sequence failed cDeadline]. rewrite Hs, Hf.
  unfold mret, SE_ret. cbv beta iota zeta. set (reply := take (Z.to_nat n) (response w')). clearbody reply.
  destruct (negb (field 10 1 reply =? 0)); [done|]. by destruct (want <? _).
Qed.

(** The call as the worker's dispatch. *)
Lemma callSplit_link o w2 :
  dispatch fuel h params (received packet w) = (o, w2) ->
  match o with
  | Ret n => n <= want -> exists c', callSplit op plane selector value epoch params want c =
      (Ret (take (Z.to_nat n) (drop 24 (response w2))), c') /\ linked (replied n w2) c' /\ sequence c' = seq
  | Fail e => exists c' b, callSplit op plane selector value epoch params want c =
      (Fail (EMsg "bus worker: %s" (take (Z.to_nat workerPayload) (hw_ErrorText e))), c') /\
      linked (set_response b w2) c' /\ sequence c' = seq
  | _ => True
  end.
Proof using fits sends Hlink.
  intros Hd. pose proof Hlink as (_ & _ & Hw). pose proof fits as [_ _ _ _ _ Hwant _ _].
  pose proof (length_packet seq op plane selector value want epoch params) as Hlen.
  rewrite callSplit_sent. rewrite handle_run; [|lia|rewrite packet_header by done; cbn; lia].
  rewrite packet_header, packet_params, Hd by done.
  assert (workerOk (received packet w)) as Hok.
  { apply workerOk_response; [done|]. by rewrite !length_copyAt. }
  pose proof (keeps_dispatch fuel h params (received packet w) Hok) as [Hok2 Ht]. rewrite Hd in Hok2, Ht. cbn [snd] in *.
  assert (response (received packet w) !! 10%nat = Some 0) as H10.
  { pose proof (workerOk_length _ Hw) as Hl. unfold received. cbn [response set_response].
    rewrite lookup_copyAt by (rewrite length_copyAt; simpl; lia). by rewrite decide_True by (simpl; lia). }
  assert (response w2 !! 10%nat = Some 0) as H2 by (rewrite <- (lookup_take_lt _ 24), Ht, lookup_take_lt by lia; exact H10).
  pose proof (workerOk_length _ Hok2) as Hl2. destruct o as [n|e| |]; [..|done|done].
  - intros Hn. assert (0 <= n <= workerPayload) as Hb by (eapply (dispatch_bound fuel h); [exact Hok| |exact Hd]; cbn; lia).
    cbv zeta. rewrite replied_payload by done. rewrite (field_byte 10 _ 0).
    2: { rewrite lookup_take_lt by (unfold workerHeader; lia). unfold replied. cbn [response set_response].
         rewrite lookup_copyAt by (rewrite length_leBytes; lia). by rewrite length_leBytes, decide_False by lia. }
    cbn [Z.eqb negb]. rewrite (proj2 (Z.ltb_ge _ _)) by (rewrite length_take; lia).
    eexists. split; [reflexivity|]. split; [|done]. split; [done|]. split; [done|].
    apply workerOk_response; [done|apply length_copyAt].
  - cbv zeta. pose proof (length_text (hw_ErrorText e)) as Hb. revert Hb. generalize (take (Z.to_nat workerPayload) (hw_ErrorText e)).
    intros t Hb. destruct (refused_reply t w2 Hok2 Hb) as (Hok3 & Hflag & Hpay). rewrite Hpay, (field_byte 10 _ 1) by done.
    cbn [Z.eqb negb]. eexists _, (response (replied (Z.of_nat (length t)) (refused t w2))). by split.
Qed.
End call.
End link.

(** ** Register accesses through the worker

    RawWriteMany, ReadMany, RawWrite and Read of a Dev whose bus a worker owns
    are the accesses one after the other on the worker's bus: the same
    transactions in the same order, the same values, and an error exactly when
    one of them fails. *)

(** A register write the client may batch: register 57 would start the
    worker's events. *)
Definition regOk (r : Z * Z) : Prop := 0 <= r.1 <= 127 /\ r.1 <> 57 /\ fits 16 r.2.
Definition regBytes (regs : list (Z * Z)) : list Z := concat (map (fun r => leBytes 2 r.1 ++ leBytes 2 r.2) regs).
Lemma length_regBytes regs : length (regBytes regs) = (4 * length regs)%nat.
Proof. induction regs as [|r regs IH]; [done|]. unfold regBytes in *. cbn [map concat length]. rewrite !length_app, !length_leBytes, IH. lia. Qed.

Lemma field_at {o n v} a b : length a = o -> fits (8 * Z.of_nat n) v -> field o n (a ++ leBytes n v ++ b) = v.
Proof.
  intros <- Hv. unfold field, slice. rewrite drop_app_length, take_app_length' by (by rewrite length_leBytes). by apply leVal_leBytes.
Qed.
Lemma fits16_sel x : 0 <= x <= 127 -> fits (8 * Z.of_nat 2) x.
Proof. unfold fits. simpl. lia. Qed.

Section remote.
Context {E : Env} {H : Hardware} (fuel : nat).
#[local] Hint Extern 0 (Peer link) => exact (linkPeer fuel) : typeclass_instances.

(** The batch on the bus itself. *)
Definition localWrites (regs : list (Z * Z)) : M unit := each (fun r => busWrite r.1 r.2) regs.
Fixpoint localReads (sels : list Z) : M (list Z) :=
  match sels with
  | [] => mret []
  | s :: sels => v ← busRead s; vs ← localReads sels; mret (v :: vs)
  end.

Lemma writeParams_each regs pre w :
  active (queue w) = false -> Forall regOk regs ->
  writeParams (length regs) (length pre) (pre ++ regBytes regs) w =
  let '(o, s) := localWrites regs (capt w) in (o, set_capt s w).
Proof using.
  intros Ha Hr. revert pre w Ha. induction Hr as [|[s v] regs (Hs & H57 & Hv) _ IH]; intros pre w Ha; [by destruct w|].
  cbn [fst snd] in *. cbn [length writeParams].
  assert (pre ++ regBytes ((s, v) :: regs) = pre ++ leBytes 2 s ++ leBytes 2 v ++ regBytes regs) as Hb
    by (unfold regBytes; cbn [map concat fst snd]; by rewrite <- app_assoc).
  rewrite Hb. assert (field (length pre) 2 (pre ++ leBytes 2 s ++ leBytes 2 v ++ regBytes regs) = s) as -> by (apply field_at; [done|by apply fits16_sel]).
  assert (field (length pre + 2) 2 (pre ++ leBytes 2 s ++ leBytes 2 v ++ regBytes regs) = v) as ->.
  { rewrite app_assoc. apply field_at; [by rewrite length_app, length_leBytes|done]. }
  rewrite (bind_Ret _ _ w (queue w) w) by done. rewrite Ha. cbn [andb]. rewrite orb_false_r, (proj2 (Z.ltb_ge 127 s)) by lia.
  rewrite (bind_Ret (guard false _) _ w tt w) by done. rewrite (proj2 (Z.eqb_neq s 57)) by done.
  unfold localWrites. cbn [each fst snd]. unfold mbind at 1 3, SE_bind at 1 3, wRawWrite, onCapture.
  destruct (busWrite s v (capt w)) as [[[]|e| |] s1]; try done.
  rewrite (bind_Ret (mret tt) _ _ tt (set_capt s1 w)) by done.
  replace (length pre + 4)%nat with (length (pre ++ leBytes 2 s ++ leBytes 2 v)) by (rewrite !length_app, !length_leBytes; lia).
  replace (pre ++ leBytes 2 s ++ leBytes 2 v ++ regBytes regs) with ((pre ++ leBytes 2 s ++ leBytes 2 v) ++ regBytes regs)
    by (by rewrite <- !app_assoc).
  rewrite IH by done. unfold localWrites. cbn [capt set_capt]. by destruct (each (fun r => busWrite r.1 r.2) regs s1) as [o s2].
Qed.

Lemma localWrites_ends regs s : match (localWrites regs s).1 with Ret _ | Fail _ => True | _ => False end.
Proof using.
  revert s. induction regs as [|r regs IH]; intros s; [done|]. unfold localWrites in *. cbn [each]. unfold mbind, SE_bind.
  destruct (busWrite r.1 r.2 s) as [[[]|e| |] s1] eqn:Hb; try done.
  - apply IH.
  - revert Hb. unfold busWrite, mbind, SE_bind, gets, emit, modify, liftErr. by destruct (env_RawWrite _ _ _).
  - revert Hb. unfold busWrite, mbind, SE_bind, gets, emit, modify, liftErr. by destruct (env_RawWrite _ _ _).
Qed.

(** The client stays linked, its worker's events off, and [s] is its Capture. *)
Definition linkedAt (s : capture) (c : client link) : Prop :=
  exists w, linked w c /\ active (queue w) = false /\ capt w = s.
(** As the local outcome: an error for an error. *)
Definition outcomeLike {A} (o r : outcome A) : Prop :=
  match o with Ret a => r = Ret a | Fail _ => exists e, r = Fail e | Panic | OutOfFuel => False end.

Lemma writeBatch_link regs s c :
  linkedAt s c -> Forall regOk regs -> (0 < length regs <= 13)%nat ->
  let '(o, s') := localWrites regs s in
  exists r c', callSplit workerWriteMany 1 0 0 0 (regBytes regs) 0 c = (r, c') /\ linkedAt s' c' /\
    match o with Ret _ => r = Ret [] | Fail _ => exists e, r = Fail e | _ => False end.
Proof using.
  intros (w & Hl & Ha & <-) Hr Hn. pose proof (localWrites_ends regs (capt w)) as Hends. destruct (localWrites regs (capt w)) as [o s'] eqn:Hloc.
  assert (callFits (u32 (sequence c + 1)) workerWriteMany 1 0 0 0 0 (regBytes regs)) as Hfits.
  { split; try apply fits_u32; try done. rewrite length_regBytes. change workerRecallParams with 52. lia. }
  set (packet := requestBytes (u32 (sequence c + 1)) workerWriteMany 1 0 0 0 0 (regBytes regs)).
  assert (dispatch fuel (Header workerWriteMany 1 0 0 0 0) (regBytes regs) (received packet w) =
    (match o with Ret _ => Ret 0 | Fail e => Fail e | Panic => Panic | OutOfFuel => OutOfFuel end, set_capt s' (received packet w))) as Hd.
  { change (dispatch fuel (Header workerWriteMany 1 0 0 0 0) (regBytes regs)) with
      (handleWriteMany (Header workerWriteMany 1 0 0 0 0) (regBytes regs)).
    unfold handleWriteMany. cbn [count_ plane]. rewrite length_regBytes.
    replace (Z.of_nat (4 * length regs) mod 4) with 0 by (rewrite Nat2Z.inj_mul, Z.mul_comm, Z.mod_mul; lia).
    rewrite (proj2 (Z.ltb_ge _ _)) by lia. cbn [Z.eqb Pos.eqb negb orb]. rewrite (bind_Ret (guard false _) _ _ tt (received packet w)) by done.
    replace (Z.to_nat (Z.of_nat (4 * length regs) / 4)) with (length regs)
      by (rewrite Nat2Z.inj_mul, Z.mul_comm, Z.div_mul; lia).
    pose proof (writeParams_each regs [] (received packet w) Ha Hr) as Hw. cbn [app length] in Hw. unfold mbind, SE_bind. rewrite Hw.
    change (capt (received packet w)) with (capt w). rewrite Hloc. by destruct o. }
  apply (callSplit_link fuel _ _ _ _ _ _ _ c w Hfits) in Hd; [|by auto|done].
  destruct o as [[]|e| |]; [..|done|done].
  - destruct Hd as (c' & Hc & Hl' & _); [lia|]. eexists _, c'. split; [exact Hc|]. split; [|done]. eexists. by split; [exact Hl'|].
  - destruct Hd as (c' & b & Hc & Hl' & _). eexists _, c'. split; [exact Hc|]. split; [|eauto]. eexists. by split; [exact Hl'|].
Qed.

Lemma localWrites_app a b s :
  localWrites (a ++ b) s =
  match localWrites a s with (Ret _, s1) => localWrites b s1 | x => x end.
Proof using.
  revert s. induction a as [|r a IH]; intros s; [done|]. unfold localWrites in *. cbn [app each]. unfold mbind, SE_bind.
  destruct (busWrite r.1 r.2 s) as [[[]|e| |] s1]; [apply IH|done..].
Qed.

Lemma writeBatches_link n regs s c :
  linkedAt s c -> Forall regOk regs -> (length regs <= n)%nat ->
  let '(o, s') := localWrites regs s in
  exists r c', writeBatches n regs c = (r, c') /\ linkedAt s' c' /\ outcomeLike o r.
Proof using.
  revert regs s c. induction n as [|n IH]; intros regs s c Hl Hr Hn; destruct regs as [|r0 regs0] eqn:Hregs;
    try (by exists (Ret tt), c); [simpl in Hn; lia|].
  rewrite <- Hregs in *. assert (0 < length regs)%nat as Hpos by (rewrite Hregs; simpl; lia).
  assert (writeBatches (S n) regs c = (r ← attempt (callSplit workerWriteMany 1 0 0 0 (regBytes (take 13 regs)) 0);
    match r with inr e => fail (EWrap "bus: write cs1: %w" [] e) | inl _ => writeBatches n (drop 13 regs) end) c) as ->
    by (by rewrite Hregs).
  rewrite <- (take_drop 13 regs) in Hr at 1. apply Forall_app in Hr as [Hr1 Hr2].
  pose proof (writeBatch_link (take 13 regs) s c Hl Hr1) as Hb. rewrite length_take in Hb. specialize (Hb ltac:(lia)).
  pose proof (localWrites_app (take 13 regs) (drop 13 regs) s) as Happ. rewrite take_drop in Happ. rewrite Happ. destruct (localWrites (take 13 regs) s) as [o s1].
  destruct Hb as (r & c1 & Hc & Hl1 & Ho). unfold attempt, mbind, SE_bind. rewrite Hc.
  destruct o as [[]|e| |]; [subst r|destruct Ho as [e' ->]|done|done].
  - apply IH; [done..|]. rewrite length_drop. lia.
  - eexists _, c1. split; [reflexivity|]. split; [done|]. by eexists.
Qed.

(** One write: workerWrite's request. *)
Lemma devRawWrite_link r s c :
  linkedAt s c -> regOk r ->
  let '(o, s') := busWrite r.1 r.2 s in
  exists x c', devRawWrite r.1 r.2 c = (x, c') /\ linkedAt s' c' /\ outcomeLike o x.
Proof using.
  intros (w & Hl & Ha & <-) (Hs & H57 & Hv). pose proof (localWrites_ends [r] (capt w)) as Hends. unfold localWrites in Hends. cbn [each] in Hends.
  unfold mbind, SE_bind in Hends. destruct (busWrite r.1 r.2 (capt w)) as [o s'] eqn:Hloc.
  assert (callFits (u32 (sequence c + 1)) workerWrite 1 r.1 r.2 0 0 []) as Hfits.
  { split; try apply fits_u32; try done. apply (fits16_sel r.1 Hs). }
  set (packet := requestBytes (u32 (sequence c + 1)) workerWrite 1 r.1 r.2 0 0 []).
  assert (dispatch fuel (Header workerWrite 1 r.1 r.2 0 0) [] (received packet w) =
    (match o with Ret _ => Ret 0 | Fail e => Fail e | Panic => Panic | OutOfFuel => OutOfFuel end, set_capt s' (received packet w))) as Hd.
  { change (dispatch fuel (Header workerWrite 1 r.1 r.2 0 0) []) with (handleWrite (Header workerWrite 1 r.1 r.2 0 0)).
    unfold handleWrite. cbn [count_ plane sel_ value]. rewrite (proj2 (Z.ltb_ge 127 _)) by lia. cbn [Z.eqb Pos.eqb negb orb andb validPlane].
    rewrite (bind_Ret (guard false _) _ _ tt (received packet w)) by done.
    rewrite (bind_Ret (gets queue) _ _ (queue w) (received packet w)) by done. rewrite Ha. cbn [andb].
    rewrite (bind_Ret (guard false _) _ _ tt (received packet w)) by done.
    unfold mbind, SE_bind, wRawWrite, onCapture. change (capt (received packet w)) with (capt w). rewrite Hloc.
    destruct o as [[]|e| |]; try done. by rewrite (proj2 (Z.eqb_neq r.1 57)). }
  apply (callSplit_link fuel _ _ _ _ _ _ _ c w Hfits) in Hd; [|done|done].
  unfold devRawWrite, attempt, mbind, SE_bind. destruct o as [[]|e| |]; [..|done|done].
  - destruct Hd as (c' & Hc & Hl' & _); [lia|]. rewrite Hc. eexists _, c'. split; [reflexivity|]. split; [|done]. eexists. by split; [exact Hl'|].
  - destruct Hd as (c' & b & Hc & Hl' & _). rewrite Hc. eexists _, c'. split; [reflexivity|]. split; [|by eexists]. eexists. by split; [exact Hl'|].
Qed.

End remote.
