(* ===== verification/WorkerStream.v ===== *)
(** * The worker's stream is unbroken

    streamPump, workerStreamWords and streamPeek (src/app/internal/bus/
    worker_server_linux.go, stream_ring_linux.go) against the drum: what the
    app takes out of the ring, in replies or in place, is the stream from its
    first word on, and what the ring holds is what comes next, until a fault
    says that words were lost. *)
From S2P Require Import Prelude Circular Machine Fabric Bus BusSteps Command DecodedEvent Lines LinesRun LinesWire.
From S2P Require Import Status Open Arm Recall RecallSteps Sinks RecallDevice Stream StreamRun DecodedStream Panel Stack.
From S2P Require Import WorkerRing WorkerDrain Worker WorkerHandle WorkerServe WorkerInv.

(** The errors the pump takes for "nothing to drain". *)
Definition sentinel (e : err) : bool := errIs e ErrNoStreamBlock || errIs e ErrStreamDisabled.
(** The bus's own errors are none of them. *)
Record plainErrors {E : Env} : Prop := {
  read_plain h s e : env_Read h s = inr e -> sentinel e = false;
  write_plain h s v e : env_RawWrite h s v = Some e -> sentinel e = false;
  many_plain many h regs e : env_RawWriteMany = Some many -> many h regs = Some e -> sentinel e = false;
  pop_plain pop h s n e : env_PopBytes = Some pop -> pop h s n = inr e -> sentinel e = false
}.

(** ** Where "nothing to drain" comes from *)

Section sentinels.
Context (E : Env) (r : streamRing) (k : nat).
#[local] Instance sentinelEnv : Env := drainEnv E r k.
Hypothesis plain : @plainErrors E.
Context (pop : history -> Z -> Z -> list Z + err).
Hypothesis dma : @env_PopBytes E = Some pop.

Definition plainly {A} (m : M A) : Prop := forall s e s', m s = (Fail e, s') -> sentinel e = false.
Definition quietly {A} (m : M A) : Prop := forall s e s', m s = (Fail e, s') -> sentinel e = true -> quiet (trace s) (trace s').

Lemma plainly_bind {A B} (m : M A) (f : A -> M B) : plainly m -> (forall a, plainly (f a)) -> plainly (m ≫= f).
Proof using.
  intros Hm Hf s e s'. unfold mbind, SE_bind. destruct (m s) as [[a|x| |] s1] eqn:H1; intros H2; try discriminate H2.
  - by eapply Hf.
  - injection H2 as <- _. by eapply Hm.
Qed.
Lemma plainly_attempt {A} (m : M A) : plainly (attempt m).
Proof using. intros s e s'. unfold attempt. by destruct (m s) as [[] ?]. Qed.
Lemma plainly_gets {A} (f : capture -> A) : plainly (gets f).
Proof using. by intros s e s'. Qed.
Lemma plainly_modify f : plainly (modify f).
Proof using. by intros s e s'. Qed.
Lemma plainly_ret {A} (a : A) : plainly (mret a).
Proof using. by intros s e s'. Qed.
Lemma plainly_guard b e : sentinel e = false -> plainly (guard b e).
Proof using. intros He s x s' Hg. unfold guard in Hg. destruct b; [|discriminate Hg]. by injection Hg as <- _. Qed.
Lemma plainly_fail {A} e : sentinel e = false -> plainly (fail (A := A) e).
Proof using. intros He s x s' Hg. by injection Hg as <- _. Qed.
Lemma plainly_emit e : plainly (emit e).
Proof using. by intros s x s'. Qed.
Lemma plainly_lift {A} (x : A + err) : (forall e, x = inr e -> sentinel e = false) -> plainly (lift x).
Proof using. intros Hx s e s'. destruct x as [a|y]; intros Hl; [discriminate Hl|]. injection Hl as <- _. by apply Hx. Qed.
Lemma plainly_liftErr x : (forall e, x = Some e -> sentinel e = false) -> plainly (liftErr x).
Proof using. intros Hx s e s'. destruct x as [y|]; intros Hl; [|discriminate Hl]. injection Hl as <- _. by apply Hx. Qed.
Lemma plainly_get {A B} (g : capture -> A) (f : A -> M B) : (forall a, plainly (f a)) -> plainly (gets g ≫= f).
Proof using. intros Hf. apply plainly_bind; [apply plainly_gets|done]. Qed.

Lemma plainly_busRead sel : plainly (busRead sel).
Proof using plain.
  unfold busRead. apply plainly_get. intros h. apply plainly_bind; [apply plainly_emit|intros _].
  apply plainly_bind; [|intros v; apply plainly_ret]. apply plainly_lift. apply (read_plain plain).
Qed.
Lemma plainly_busWrite sel v : plainly (busWrite sel v).
Proof using plain.
  unfold busWrite. apply plainly_get. intros h. apply plainly_bind; [apply plainly_emit|intros _].
  apply plainly_liftErr. apply (write_plain plain).
Qed.
Lemma plainly_each {A} (f : A -> M unit) l : (forall a, plainly (f a)) -> plainly (each f l).
Proof using. intros Hf. induction l as [|a l IH]; [apply plainly_ret|]. by apply plainly_bind. Qed.
Lemma plainly_sendMany regs : plainly (sendMany regs).
Proof using plain.
  unfold sendMany. destruct env_RawWriteMany as [many|] eqn:Hm; [|apply plainly_each; intros; apply plainly_busWrite].
  apply plainly_get. intros h. apply plainly_bind; [apply plainly_emit|intros _]. apply plainly_liftErr. intros e. by apply (many_plain plain).
Qed.
Lemma sentinel_msg m args :
  m <> "sramcapture: no stream block ready"%string -> m <> "sramcapture: streaming is disabled"%string -> sentinel (EMsg m args) = false.
Proof using.
  intros H1 H2. unfold sentinel, ErrNoStreamBlock, ErrStreamDisabled. cbn. rewrite !orb_false_r.
  rewrite !bool_decide_eq_false_2 by congruence. done.
Qed.

Ltac plain_tac := repeat first
  [ apply plainly_ret | apply plainly_gets | apply plainly_modify | apply plainly_emit | apply plainly_attempt
  | apply plainly_busRead | apply plainly_busWrite | apply plainly_sendMany
  | solve [apply plainly_guard, sentinel_msg; discriminate] | solve [apply plainly_fail, sentinel_msg; discriminate]
  | assumption | solve [auto]
  | apply plainly_bind; [|intros ?]
  | match goal with |- plainly (match ?x with _ => _ end) => destruct x end ].

Lemma plainly_flushWrites : plainly flushWrites.
Proof using plain.
  unfold flushWrites. apply plainly_get. intros [|r0 p]; [plain_tac|].
  intros s e s' Hf. pose proof (plainly_sendMany (r0 :: p) s) as Hp. revert Hf.
  unfold mbind, SE_bind, errOf, attempt, mbind, SE_bind. destruct (sendMany _ s) as [[[]|x| |] s1]; cbn; intros Hf; try discriminate Hf.
  injection Hf as <- _. by eapply Hp.
Qed.
Lemma plainly_read sel : plainly (read sel).
Proof using plain. pose proof plainly_flushWrites. unfold read, addBeats. plain_tac. Qed.
Lemma plainly_write sel v : plainly (write sel v).
Proof using plain. unfold write. plain_tac. Qed.
Lemma plainly_pop sel n : plainly (popBytesWith pop sel n).
Proof using plain dma. unfold popBytesWith. plain_tac. apply plainly_lift. intros e. by apply (pop_plain plain). Qed.
Lemma plainly_checkCtx c : plainly (checkCtx c).
Proof using.
  intros s e s'. unfold checkCtx, ctxErr, gets, mbind, SE_bind. cbn.
  destruct (match ctxId c with Some i => _ | None => _ end); [by intros [= <- _]|].
  destruct (ctxDeadline c) as [d|]; [|done]. destruct (d <=? _); [by intros [= <- _]|done].
Qed.

(** Up to the readiness only the bus is used; what follows fails with other
    errors. *)
Definition quietStep (s s' : capture) : Prop := quiet (trace s) (trace s').
#[local] Instance quietStep_busStep : BusStep quietStep.
Proof using.
  split; [split; [intros s; apply quiet_preorder|intros s1 s2 s3; apply quiet_preorder]|..].
  - intros e s He. exists [e]. split; [done|]. by constructor.
  - intros l s _. apply quiet_preorder.
  - intros n s. apply quiet_preorder.
Qed.
Lemma quietly_bind {A B} (m : M A) (f : A -> M B) :
  steps quietStep m -> (forall a, quietly (f a)) -> quietly (m ≫= f).
Proof using.
  intros Hm Hf s e s'. specialize (Hm s). unfold mbind, SE_bind. destruct (m s) as [[a|x| |] s1]; intros He Hs; try discriminate He.
  - eapply quiet_preorder; [exact Hm|]. by eapply Hf.
  - by injection He as _ <-.
Qed.
Lemma quietly_plain {A} (m : M A) : plainly m -> quietly m.
Proof using. intros Hm s e s' He Hs. by rewrite (Hm _ _ _ He) in Hs. Qed.

Lemma DrainStream_quietly c expected : quietly (DrainStream c expected (SExt ringSink)).
Proof using plain dma.
  pose proof plainly_read as Hread. pose proof plainly_write as Hwrite. pose proof plainly_checkCtx as Hctx. pose proof plainly_pop as Hpop.
  assert (@reserverOf sentinelEnv (SExt ringSink) = Some ringSink) as Hres by by apply (reserver_ring E r k pop).
  unfold DrainStream.
  do 8 (apply quietly_bind; [solve [bus_steps; try apply _; intros s; apply quiet_preorder]|intros ?]).
  apply quietly_plain. apply plainly_bind.
  { generalize [0; 1]. intros l. induction l as [|b l IH]; cbn [findBank]; unfold bankFirst; plain_tac. }
  intros [b|]; [|plain_tac]. rewrite Hres.
  unfold drainBlock, prepareStreamBuffers, drainCheck, drainPop.
  change (@env_PopBytes sentinelEnv) with (@env_PopBytes E). rewrite dma.
  plain_tac; [by intros s0 e s1|].
  apply plainly_lift. intros e. cbn. unfold Reserve. destruct (_ <? _); [|discriminate]. by intros [= <-].
Qed.
End sentinels.

Section stream.
Context {E : Env} {H : Hardware}.
Context (stream : Z -> Z) (bankAt : history -> Z -> bank) (buffer : history -> Z -> Z) (total : Z).
Hypothesis drum : servesDrum stream bankAt buffer total.
Hypothesis total_size : total = 4096 \/ total = 5120 \/ total = 8192.
(** Ordinals have 64 bits. *)
Hypothesis wraps : forall x, stream (u64 x) = stream x.
Local Abbreviation streamBytes := (streamBytes stream).

(** ** Runs of the stream's words *)

Lemma streamBytes_app a n m : 0 <= n -> 0 <= m -> streamBytes a (n + m) = streamBytes a n ++ streamBytes (a + n) m.
Proof using. intros. unfold StreamRun.streamBytes. rewrite seqZ_app by lia. by rewrite map_app, wordBytes_app. Qed.
Lemma streamBytes_u64 a n : streamBytes (u64 a) n = streamBytes a n.
Proof using wraps.
  unfold StreamRun.streamBytes. f_equal.
  assert (seqZ (u64 a) n = map (Z.add (u64 a)) (seqZ 0 n)) as -> by (rewrite <- seqZ_shift; f_equal; lia).
  assert (seqZ a n = map (Z.add a) (seqZ 0 n)) as -> by (rewrite <- seqZ_shift; f_equal; lia).
  rewrite !map_map. apply map_ext. intros i. rewrite <- (wraps (u64 a + i)), <- (wraps (a + i)). f_equal.
  unfold u64. by rewrite Zplus_mod_idemp_l.
Qed.
Lemma streamBytes_cut a n k :
  0 <= k <= n ->
  take (Z.to_nat (4 * k)) (streamBytes a n) = streamBytes a k /\
  drop (Z.to_nat (4 * k)) (streamBytes a n) = streamBytes (a + k) (n - k).
Proof using.
  intros Hk. replace n with (k + (n - k)) at 1 2 by lia. rewrite streamBytes_app by lia.
  pose proof (length_streamBytes stream a k ltac:(lia)) as Hl. split.
  - apply take_app_length'. lia.
  - rewrite drop_app_length' by lia. done.
Qed.

(** ** What holds between two looks *)

(** The ring holds the stream from sFirst on, and the next word is what comes
    behind it. *)
Record goodRing (r : streamRing) : Prop := {
  good_wf : wfStream r;
  good_aligned : aligned r;
  good_len : ringLen r < 2 ^ 32;
  good_bytes : ringBytes r = streamBytes (sFirst r) (sCount r / 4);
  good_first : fits 64 (sFirst r);
  good_next : sExpected r = u64 (sFirst r + sCount r / 4)
}.
Definition busOk (w : worker) : Prop := open (capt w) /\ sized total (capt w).
Definition streamOk (w : worker) : Prop := busOk w /\ (sFault (stream_ w) = None -> goodRing (stream_ w)).

(** What a drain changes of the ring's bookkeeping: nothing. *)
Lemma drained_settings r l :
  sFirst (ringAfter r l) = sFirst r /\ sFault (ringAfter r l) = sFault r /\ sExpected (ringAfter r l) = sExpected r /\ sHead (ringAfter r l) = sHead r /\
  sOn (ringAfter r l) = sOn r.
Proof using. pose proof (ringAfter_settings r l) as Hs. injection Hs as H0 H1 H2 _ H3 H4. done. Qed.

Hypothesis plain : plainErrors.

Lemma drainBank_spec w :
  busOk w -> goodRing (stream_ w) ->
  let '(o, w') := drainBank w in
  busOk w' /\ sFirst (stream_ w') = sFirst (stream_ w) /\ sFault (stream_ w') = sFault (stream_ w) /\ sOn (stream_ w') = sOn (stream_ w) /\
  match o with
  | Ret block => goodRing (set_sExpected (u64 (FirstWord block + Words_ block)) (stream_ w'))
  | Fail e => sentinel e = true -> stream_ w' = stream_ w
  | _ => True
  end.
Proof using H drum total_size wraps plain.
  intros [Ho Hz] Hg. unfold drainBank. set (r := stream_ w) in *. set (k := length (trace (capt w))).
  pose proof (DrainStream_sized (E := drainEnv E r k) stream bankAt buffer total (drum_drainEnv stream bankAt buffer total drum r k)
    (@hw_Pop E H) (@hw_Pop_bus E H) background (sExpected r) (SExt ringSink) (capt w) (conj Ho Hz)) as Hb.
  pose proof (DrainStream_quietly E r k plain hw_Pop hw_Pop_bus background (sExpected r) (capt w)) as Hq.
  destruct (@DrainStream (drainEnv E r k) background (sExpected r) (SExt ringSink) (capt w)) as [o s'] eqn:Hd.
  cbn [snd stream_ set_stream set_capt capt]. destruct (drained_settings r (drop k (trace s'))) as (H1 & H2 & H3 & H4 & H5).
  split; [exact Hb|]. split; [done|]. split; [done|]. split; [done|]. destruct o as [block|e| |]; [| |done|done].
  - destruct Hg as [Gw Ga Gl Gb Gf Gn].
    apply (drain_stream stream bankAt buffer total drum hw_Pop hw_Pop_bus total_size) in Hd as (HF & HW & W' & A' & B' & C' & K'); try done.
    fold k in W', A', B', C', K'. set (r' := ringAfter r (drop k (trace s'))) in *.
    destruct Gw as [Gh Gc]. assert (0 <= sCount r / 4) by (apply Z.div_pos; lia).
    assert (sCount r' / 4 = sCount r / 4 + Words_ block) as Hc by (rewrite C', Z.mul_comm, Z.div_add; lia).
    injection K' as _ _ _ Hlen _.
    split; [exact W'|exact A'|eapply eq_ind_r with (P := fun n => n < 2 ^ 32); [exact Gl|exact Hlen]| |by cbn; rewrite H1|].
    + cbn [sFirst sCount set_sExpected]. change (ringBytes (set_sExpected _ r')) with (ringBytes r').
      rewrite B', Gb, Hc, H1, Gn, streamBytes_app, streamBytes_u64 by lia. done.
    + cbn [sExpected set_sExpected sFirst sCount]. rewrite HF, Gn, H1, Hc, Z.add_assoc. unfold u64. by rewrite Zplus_mod_idemp_l.
  - intros He. specialize (Hq e s' Hd He). destruct Hq as (l & Hl & Fl). unfold k. rewrite Hl, drop_app_length.
    by apply ringAfter_quiet.
Qed.

(** What touches neither the ring nor the Capture. *)
Definition aside (w w' : worker) : Prop := stream_ w' = stream_ w /\ capt w' = capt w.
#[local] Instance aside_preorder : PreOrder aside.
Proof using. split; [done|]. unfold aside. intros w1 w2 w3 [] []. split; congruence. Qed.
Lemma aside_clock : steps aside clock.
Proof using. by intros w. Qed.
Lemma aside_onPace f : steps aside (onPace f).
Proof using. by intros w. Qed.
Lemma aside_backlog : steps aside (onCapture StreamBacklog).
Proof using. by intros w. Qed.
Lemma aside_spinning : steps aside spinning.
Proof using. pose proof aside_clock. pose proof aside_onPace. unfold spinning. steps_tac. Qed.
Lemma aside_measure since from banks : steps aside (measure since from banks).
Proof using. pose proof aside_onPace. unfold measure. steps_tac. Qed.
Lemma aside_Ret {A} (m : W A) w a w' : steps aside m -> m w = (Ret a, w') -> stream_ w' = stream_ w /\ capt w' = capt w.
Proof using. intros Hm Hr. specialize (Hm w). by rewrite Hr in Hm. Qed.

(** The pump keeps the ring good until its fault, which stays, and takes
    nothing out. *)
Definition pumped (w w' : worker) : Prop :=
  streamOk w' /\ sFirst (stream_ w') = sFirst (stream_ w) /\ (sFault (stream_ w') = None -> sFault (stream_ w) = None) /\
  sOn (stream_ w') = sOn (stream_ w).

Lemma pumped_aside {A} (m : W A) w a w' : steps aside m -> m w = (Ret a, w') -> streamOk w -> pumped w w'.
Proof using.
  intros Hm Hr [[Ho Hz] Hg]. apply aside_Ret in Hr as [Hs Hc]; [|done]. unfold pumped, streamOk, busOk. by rewrite Hs, Hc.
Qed.
Lemma pumped_trans w1 w2 w3 : pumped w1 w2 -> pumped w2 w3 -> pumped w1 w3.
Proof using. intros (_ & H1 & F1 & O1) (H2 & H3 & F2 & O2). split; [done|]. split; [congruence|]. split; [auto|congruence]. Qed.

Lemma readStreamStatus_busOk w r w' : onCapture readStreamStatus w = (r, w') -> busOk w -> busOk w' /\ stream_ w' = stream_ w.
Proof using drum.
  intros Hr Hb. unfold onCapture in Hr. destruct (readStreamStatus (capt w)) as [o s] eqn:Hs. injection Hr as <- <-.
  assert (steps (keepsSized total) readStreamStatus) as Hk.
  { pose proof (keepsSized_busStep total) as Hbs. unfold readStreamStatus. bus_steps; apply _. }
  specialize (Hk (capt w)). rewrite Hs in Hk. split; [|done]. by apply Hk.
Qed.

Lemma pumpBanks_spec n banks w b w' :
  streamOk w -> sFault (stream_ w) = None -> pumpBanks n banks w = (Ret b, w') -> pumped w w'.
Proof using H drum total_size wraps plain.
  revert banks w. induction n as [|n IH]; intros banks w Hok Hf Hp; cbn [pumpBanks] in Hp; [by apply mret_Ret_inv in Hp as [_ ->]|].
  apply bind_Ret_inv in Hp as (t0 & w0 & H0 & Hp). injection H0 as <- <-.
  change (set_capt (capt w) w) with (Worker (capt w) (queue w) (lineMode_ w) (stream_ w) (pace w) (deadline w) (response w)) in Hp.
  assert (Worker (capt w) (queue w) (lineMode_ w) (stream_ w) (pace w) (deadline w) (response w) = w) as Hw by by destruct w.
  rewrite Hw in Hp. apply bind_Ret_inv in Hp as (r & w1 & H1 & Hp). destruct Hok as [Hb Hg].
  pose proof (drainBank_spec w Hb (Hg Hf)) as Hd. unfold attempt in H1. destruct (drainBank w) as [o w2].
  destruct Hd as (Hb2 & Hfirst & Hfault & Hon & Hd). destruct o as [block|e| |]; try discriminate H1; injection H1 as <- <-.
  - apply bind_Ret_inv in Hp as (t1 & w3 & H3 & Hp). apply (aside_Ret clock) in H3 as [S3 C3]; [|apply aside_clock].
    apply bind_Ret_inv in Hp as ([] & w4 & H4 & Hp). injection H4 as <-.
    apply bind_Ret_inv in Hp as ([] & w5 & H5 & Hp). injection H5 as <-.
    apply IH in Hp; cbn [stream_ set_stream set_pace set_sExpected sFault].
    + eapply pumped_trans; [|exact Hp]. split; [|cbn; by rewrite S3]. split; [by unfold busOk; cbn; rewrite C3|]. intros _. cbn. by rewrite S3.
    + split; [by unfold busOk; cbn; rewrite C3|]. intros _. cbn. by rewrite S3.
    + rewrite S3. congruence.
  - apply bind_Ret_inv in Hp as (x & w3 & H3 & Hp). injection H3 as <- <-.
    destruct (errIs e ErrNoStreamBlock || _) eqn:Hs.
    + apply mret_Ret_inv in Hp as [_ ->]. assert (stream_ w2 = stream_ w) as Hsame.
      { apply Hd. unfold sentinel. destruct (errIs e ErrNoStreamBlock); [done|]. simpl in *. by apply andb_true_iff in Hs as [-> _]. }
      split; [|done]. split; [done|]. by rewrite Hsame.
    + apply bind_Ret_inv in Hp as (st & w3 & H3 & Hp).
      assert (busOk w3 /\ stream_ w3 = stream_ w2) as [Hb3 S3].
      { unfold attempt in H3. destruct (onCapture readStreamStatus w2) as [o w4] eqn:H4. apply readStreamStatus_busOk in H4 as [? ?]; [|done].
        by destruct o; try discriminate H3; injection H3 as _ <-. }
      apply bind_Ret_inv in Hp as (p & w4 & H4 & Hp). injection H4 as <- <-.
      apply bind_Ret_inv in Hp as ([] & w4 & H4 & Hp). injection H4 as <-. apply mret_Ret_inv in Hp as [_ ->].
      split; [|cbn; by rewrite S3]. split; [exact Hb3|]. cbn. discriminate.
Qed.

Lemma streamPump_spec w u w' : streamOk w -> streamPump w = (Ret u, w') -> pumped w w'.
Proof using H drum total_size wraps plain.
  intros Hok Hp. unfold streamPump in Hp. apply bind_Ret_inv in Hp as (r & w0 & H0 & Hp). injection H0 as <- <-.
  destruct (sOn _); cbn [negb orb] in Hp; [|by injection Hp as _ <-].
  destruct (sFault (stream_ w)) eqn:Hf; [by injection Hp as _ <-|].
  apply bind_Ret_inv in Hp as (now & w1 & H1 & Hp). apply (aside_Ret clock) in H1 as A1; [|apply aside_clock].
  apply (pumped_aside clock) in H1 as P1; [|apply aside_clock|done]. destruct A1 as [S1 C1].
  apply bind_Ret_inv in Hp as (p & w2 & H2 & Hp). injection H2 as <- <-. cbv zeta in Hp.
  match type of Hp with (if ?x then _ else _) _ = _ => destruct x end; [by injection Hp as _ <-|].
  apply bind_Ret_inv in Hp as (u2 & w2 & H2 & Hp). apply (aside_Ret (onPace _)) in H2 as [S2 C2]; [|apply aside_onPace].
  apply bind_Ret_inv in Hp as (spin & w3 & H3 & Hp). apply (aside_Ret _) in H3 as [S3 C3].
  2: { destruct hw_Dev; [apply aside_spinning|apply steps_ret, _]. }
  apply bind_Ret_inv in Hp as (b & w4 & H4 & Hp).
  assert (streamOk w3) as Hok3.
  { destruct Hok as [[Ho Hz] Hg]. unfold streamOk, busOk. by rewrite S3, S2, S1, C3, C2, C1. }
  apply pumpBanks_spec in H4 as P4; [|done|congruence].
  apply bind_Ret_inv in Hp as (bl & w5 & H5 & Hp). apply (pumped_aside (onCapture StreamBacklog)) in H5 as P5; [|apply aside_backlog|apply P4].
  apply bind_Ret_inv in Hp as (u6 & w6 & H6 & Hp). apply (pumped_aside (onPace _)) in H6 as P6; [|apply aside_onPace|apply P5].
  apply (pumped_aside (measure _ _ _)) in Hp as P7; [|apply aside_measure|apply P6].
  split; [apply P7|]. destruct P4 as (_ & P4 & _ & O4), P5 as (_ & P5 & _ & O5), P6 as (_ & P6 & _ & O6), P7 as (_ & P7 & _ & O7).
  split; [congruence|]. split; [done|congruence].
Qed.
End stream.
