(* ===== verification/WorkerFifo.v ===== *)
(** * The stream the app takes is the drum's

    The worker's service of the stream, from streamPumpOn on: looks at the
    drum (streamPump), replies of words (workerStreamWords) and looks of the
    app at the shared ring (workerStreamPeek), in any order. What leaves the
    ring is the stream from its first word, and every reply and every look
    shows the stream from the ordinal it names. *)
From S2P Require Import Prelude Circular Machine Fabric Bus BusSteps Command DecodedEvent Lines LinesRun LinesWire.
From S2P Require Import Status Open Arm Recall RecallSteps Sinks RecallDevice Stream StreamRun DecodedStream Panel Stack.
From S2P Require Import WorkerRing WorkerDrain Worker WorkerHandle WorkerServe WorkerInv WorkerProtocol WorkerStream.

(** ** What leaves the ring

    With the pump on, only its own requests touch the ring. *)
Definition apart (w w' : worker) : Prop := sOn (stream_ w) = true -> stream_ w' = stream_ w.
#[export] Instance apart_preorder : PreOrder apart.
Proof. split; [done|]. unfold apart. intros w1 w2 w3 H1 H2 Hon. rewrite H2; [|rewrite H1]; auto. Qed.

Section apart.
Context {E : Env} {H : Hardware} (fuel : nat).

Lemma apart_same {A} (m : W A) : (forall w, stream_ (m w).2 = stream_ w) -> steps apart m.
Proof using. intros Hm w _. apply Hm. Qed.
Lemma apart_onCapture {A} (m : M A) : steps apart (onCapture m).
Proof using. apply apart_same. intros w. unfold onCapture. by destruct (m (capt w)). Qed.
Lemma apart_onLines {A} (m : SE Transcript A) : steps apart (onLines m).
Proof using. apply apart_same. intros w. unfold onLines. destruct linesStore as [t|]; [|done]. by destruct (m t). Qed.
Lemma apart_onQueue f : steps apart (onQueue f).
Proof using. by apply apart_same. Qed.
Lemma apart_set_lineMode f : steps apart (modify (fun w => set_lineMode (f w) w)).
Proof using. by apply apart_same. Qed.
Lemma apart_set_deadline f : steps apart (modify (fun w => set_deadline (f w) w)).
Proof using. by apply apart_same. Qed.
Lemma apart_putResponse o b : steps apart (putResponse o b).
Proof using. by apply apart_same. Qed.
Lemma apart_recallInto timeout ep params b : steps apart (recallInto fuel timeout ep params b).
Proof using.
  unfold recallInto. apply steps_bind; [apply _|apply apart_onCapture|]. intros c w Hw. by destruct (@RecallRecord _ _ _ _ _ _) as [[] s].
Qed.
#[local] Hint Resolve apart_onCapture apart_onLines apart_onQueue apart_set_lineMode apart_set_deadline apart_putResponse
  apart_recallInto : steps.

Lemma apart_queueEvents size events : steps apart (queueEvents size events).
Proof using. induction events as [|e events IH]; cbn [queueEvents]; steps_tac. Qed.
#[local] Hint Resolve apart_queueEvents : steps.
Lemma apart_pump : steps apart pump.
Proof using. unfold pump, addLines, clock. steps_tac. Qed.
Lemma apart_stream on : steps apart (stream on).
Proof using. unfold stream, startDeadline, closeDeadline, wRead. steps_tac. Qed.
Lemma apart_foldQueue n : steps apart (foldQueue n).
Proof using. induction n as [|n IH]; cbn [foldQueue]; steps_tac. Qed.
Lemma apart_readParams n i plane params : steps apart (readParams n i plane params).
Proof using. revert i. induction n as [|n IH]; intros i; cbn [readParams]; unfold putData, wRead; steps_tac. Qed.
#[local] Hint Resolve apart_stream apart_foldQueue apart_readParams : steps.
Lemma apart_writeParams n i params : steps apart (writeParams n i params).
Proof using. revert i. induction n as [|n IH]; intros i; cbn [writeParams]; unfold wRawWrite; steps_tac. Qed.
#[local] Hint Resolve apart_writeParams : steps.

(** A shared recall writes the ring only while the pump is off. *)
Lemma apart_handleRecallShared h params : steps apart (handleRecallShared fuel h params).
Proof using.
  unfold handleRecallShared. apply steps_bind; [apply _|apply steps_guard, _|intros _].
  intros w Hon. rewrite (bind_Ret _ _ w (stream_ w) w) by done. rewrite Hon. done.
Qed.
#[local] Hint Resolve apart_handleRecallShared : steps.

Lemma apart_dispatch h params :
  op h <> workerStreamPump -> op h <> workerStreamWords -> op h <> workerStreamPeek -> steps apart (dispatch fuel h params).
Proof using.
  intros H1%Z.eqb_neq H2%Z.eqb_neq H3%Z.eqb_neq. unfold dispatch. rewrite H1, H2, H3.
  unfold handleHello, handleRead, handleReadMany, handleWriteMany, handleWrite, handlePop, handleEvents, handleLineMode, handleLines,
    handleRecall, handleStackDownload, handlePanel, wRead, wRawWrite, wPop, putData, dataTo.
  steps_tac.
Qed.
Lemma apart_handle request :
  field 8 2 request <> workerStreamPump -> field 8 2 request <> workerStreamWords -> field 8 2 request <> workerStreamPeek ->
  steps apart (handle fuel request).
Proof using.
  intros H1 H2 H3. pose proof (apart_dispatch (headerOf request) (paramsOf request) H1 H2 H3) as Hd.
  unfold handle, putData. steps_tac.
Qed.
End apart.

Section fifo.
Context {E : Env} {H : Hardware} (fuel : nat).
Context (stream : Z -> Z) (bankAt : history -> Z -> bank) (buffer : history -> Z -> Z) (total : Z).
Hypothesis drum : servesDrum stream bankAt buffer total.
Hypothesis total_size : total = 4096 \/ total = 5120 \/ total = 8192.
Hypothesis wraps : forall x, stream (u64 x) = stream x.
Hypothesis plain : plainErrors.
Local Abbreviation streamBytes := (streamBytes stream).
Local Abbreviation goodRing := (goodRing stream).
Local Abbreviation busOk := (busOk total).

(** The words a sight of the stream shows: how many bytes had left the ring,
    the ordinal it names, the bytes. *)
Record sight := Sight { before : Z; ordinal : Z; shown : list Z }.

(** A run of the service: the sights, what left the ring, the worker. The
    other requests may do anything with the bus that leaves the Capture between
    methods. *)
Inductive streamRun : list sight -> list Z -> worker -> Prop :=
| run_start w0 u w :
    busOk w0 -> workerOk w0 -> (sring (stream_ w0) = [] \/ ringLen (stream_ w0) mod 4 = 0 /\ ringLen (stream_ w0) < 2 ^ 32) ->
    streamPumpOn true w0 = (Ret u, w) -> streamRun [] [] w
| run_look seen taken w u w' :
    streamRun seen taken w -> streamPump w = (Ret u, w') -> streamRun seen taken w'
| run_words seen taken w h n w' :
    streamRun seen taken w -> count_ h <= workerPayload -> handleStreamWords h w = (Ret n, w') ->
    let data := slice 24 (Z.to_nat n) (response w') in
    streamRun (seen ++ [Sight (Z.of_nat (length taken)) (leVal (take 8 data)) (drop 8 data)]) (taken ++ drop 8 data) w'
| run_peek seen taken w h n w' a b :
    streamRun seen taken w -> fits 31 (epoch_ h) -> handleStreamPeek h w = (Ret n, w') ->
    let data := slice 24 (Z.to_nat n) (response w') in
    peekPieces (sring (stream_ w')) (field 8 4 data) (field 12 4 data) = inl (a, b) ->
    let taken' := taken ++ take (Z.to_nat (epoch_ h)) (ringBytes (stream_ w)) in
    streamRun (seen ++ [Sight (Z.of_nat (length taken')) (leVal (take 8 data)) (a ++ b)]) taken' w'
| run_refused seen taken w h e w' :
    streamRun seen taken w -> handleStreamPeek h w = (Fail e, w') -> streamRun seen taken w'
| run_events seen taken w u w' :
    streamRun seen taken w -> pump w = (Ret u, w') -> busOk w' -> streamRun seen taken w'
| run_request seen taken w request n w' :
    streamRun seen taken w -> workerHeader <= Z.of_nat (length request) -> field 8 2 request <> workerStreamPump ->
    field 8 2 request <> workerStreamWords -> field 8 2 request <> workerStreamPeek ->
    handle fuel request w = (Ret n, w') -> busOk w' -> streamRun seen taken w'.

(** A sight is the stream's, at the ordinal it names. *)
Definition trueSight (x : sight) : Prop :=
  ordinal x = u64 (before x / 4) /\ shown x = streamBytes (before x / 4) (Z.of_nat (length (shown x)) / 4).

Record runOk (seen : list sight) (taken : list Z) (w : worker) : Prop := {
  run_seen : Forall trueSight seen;
  run_taken : taken = streamBytes 0 (Z.of_nat (length taken) / 4);
  run_whole : Z.of_nat (length taken) mod 4 = 0;
  run_bus : busOk w;
  run_worker : workerOk w;
  run_on : sOn (stream_ w) = true;
  run_ring : sFault (stream_ w) = None -> goodRing (stream_ w) /\ sFirst (stream_ w) = u64 (Z.of_nat (length taken) / 4)
}.

(** ** Taking words *)

Lemma mod4 n : n mod 4 = 0 -> n = 4 * (n / 4).
Proof using. intros Hn. pose proof (Z.div_mod n 4). lia. Qed.

Lemma div4_sub c k : (c - 4 * k) / 4 = c / 4 - k.
Proof using. replace (c - 4 * k) with (c + - k * 4) by lia. rewrite Z.div_add by lia. lia. Qed.

(** [4*k] bytes more left a good ring. *)
Lemma run_more taken r k :
  taken = streamBytes 0 (Z.of_nat (length taken) / 4) -> Z.of_nat (length taken) mod 4 = 0 ->
  goodRing r -> sFirst r = u64 (Z.of_nat (length taken) / 4) -> 0 <= 4 * k <= sCount r ->
  let bytes := take (Z.to_nat (4 * k)) (ringBytes r) in
  Z.of_nat (length bytes) = 4 * k /\
  bytes = streamBytes (Z.of_nat (length taken) / 4) k /\
  taken ++ bytes = streamBytes 0 (Z.of_nat (length (taken ++ bytes)) / 4) /\
  Z.of_nat (length (taken ++ bytes)) mod 4 = 0 /\
  Z.of_nat (length (taken ++ bytes)) / 4 = Z.of_nat (length taken) / 4 + k /\
  drop (Z.to_nat (4 * k)) (ringBytes r) = streamBytes (u64 (Z.of_nat (length taken) / 4 + k)) ((sCount r - 4 * k) / 4).
Proof using wraps.
  intros Ht Hw [Gw (A1 & A2 & A3) Gl Gb Gf Gn] Hf Hk. cbv zeta. apply mod4 in Hw, A2. set (m := Z.of_nat (length taken) / 4) in *.
  rewrite Gb, Hf, streamBytes_u64 by done. destruct (streamBytes_cut stream m (sCount r / 4) k) as [-> ->]; [lia|].
  assert (Z.of_nat (length (streamBytes m k)) = 4 * k) as Hl by (rewrite length_streamBytes; lia).
  rewrite length_app, Nat2Z.inj_add, Hl, Hw, <- Z.mul_add_distr_l, (Z.mul_comm 4 (m + k)), Z.div_mul, Z.mod_mul by lia.
  split_and!; try done.
  - rewrite Ht at 1. fold m. rewrite streamBytes_app by lia. done.
  - rewrite streamBytes_u64 by done. by rewrite div4_sub.
Qed.

Lemma aligned_taken r r' k :
  aligned r -> sHead r' = (sHead r + 4 * k) mod ringLen r -> sCount r' = sCount r - 4 * k -> ringLen r' = ringLen r -> aligned r'.
Proof using.
  intros (A1 & A2 & A3) Hh Hc Hl. unfold aligned. rewrite Hh, Hc, Hl. split_and!; [|by rewrite Zminus_mod, A2, Z.mul_comm, Z.mod_mul|done].
  apply Z.mod_divide in A3; [|done]. rewrite Z.mod_mod_divide by done. by rewrite Zplus_mod, A1, Z.mul_comm, Z.mod_mul.
Qed.

Lemma fits_u64 x : fits 64 (u64 x).
Proof using. unfold fits, u64. apply Z.mod_pos_bound. lia. Qed.

(** The reply's data, as it lies in the response buffer. *)
Lemma reply_data w b : bufferOk (response w) -> Z.of_nat (length b) <= workerPayload ->
  slice 24 (length b) (copyAt (24 + 0) b (response w)) = b.
Proof using.
  unfold bufferOk, workerPayload, workerHeader. intros Hb Hl. apply slice_copyAt. lia.
Qed.

Lemma keepsOk_Ret {A} (m : W A) w a w' : steps keepsOk m -> m w = (Ret a, w') -> workerOk w -> workerOk w'.
Proof using. intros Hm Hr Hok. specialize (Hm w). rewrite Hr in Hm. by apply Hm. Qed.

Lemma run_ok_words seen taken w h n w' :
  runOk seen taken w -> count_ h <= workerPayload -> handleStreamWords h w = (Ret n, w') ->
  let data := slice 24 (Z.to_nat n) (response w') in
  runOk (seen ++ [Sight (Z.of_nat (length taken)) (leVal (take 8 data)) (drop 8 data)]) (taken ++ drop 8 data) w'.
Proof using H wraps.
  intros [Hseen Ht Hm Hb Hok Hon Hr] Hc Hw. pose proof (keepsOk_Ret _ _ _ _ (keeps_handleStreamWords h) Hw Hok) as Hok'. pose proof Hok as (_ & Hbuf & _). unfold handleStreamWords in Hw.
  apply bind_Ret_inv in Hw as (r & w0 & H0 & Hw). injection H0 as <- <-.
  apply bind_Ret_inv in Hw as ([] & w0 & [Hg ->]%guard_Ret_inv & Hw).
  apply bind_Ret_inv in Hw as ([] & w0 & [Hf ->]%liftErr_Ret_inv & Hw).
  destruct (Hr Hf) as [Hgood Hfirst]. destruct (takeWords_spec (count_ h) (stream_ w)) as (r' & Ht' & Ha & W' & B' & F' & C' & D' & K').
  { apply Hgood. } { blia. }
  rewrite Ht' in Hw. clear Ht'. rewrite ldiff_words in *. set (amount := Z.min _ _ - _) in *.
  assert (amount = 4 * (amount / 4)) as Hwords.
  { apply mod4. unfold amount. by rewrite Zminus_mod_idemp_r, Z.sub_diag. }
  set (k := amount / 4) in *. pose proof (length_leBytes 8 (sFirst (stream_ w))) as L8.
  assert (leVal (leBytes 8 (sFirst (stream_ w))) = sFirst (stream_ w)) as V8 by apply leVal_leBytes, Hgood.
  set (o8 := leBytes 8 _) in *. clearbody o8. apply bind_Ret_inv in Hw as ([] & w1 & H1 & Hw). injection H1 as <-.
  apply bind_Ret_inv in Hw as ([] & w1 & H1 & Hw). injection H1 as <-. injection Hw as <- <-.
  destruct (run_more taken (stream_ w) k) as (L & Bk & T & M & D & R); try done; [lia|]. rewrite <- Hwords in *. cbv zeta in *.
  set (bytes := take (Z.to_nat amount) (ringBytes (stream_ w))) in *. rewrite C'.
  assert (Z.to_nat (8 + (sCount (stream_ w) - (sCount (stream_ w) - amount))) = length (o8 ++ bytes)) as ->.
  { rewrite length_app, L8. lia. }
  cbn [response set_stream set_response onRing putData]. rewrite reply_data; [|done|].
  2: { rewrite length_app, L8, Nat2Z.inj_add, L. unfold amount. pose proof (Z.mod_pos_bound (Z.min (count_ h - 8) (sCount (stream_ w))) 4). lia. }
  rewrite take_app_length', drop_app_length' by done.
  rewrite V8. split; cbn [stream_ set_stream set_response capt response].
  - apply Forall_app. split; [done|]. apply Forall_singleton. unfold trueSight. cbn. rewrite L, Hfirst. split; [done|]. exact Bk.
  - exact T.
  - exact M.
  - exact Hb.
  - exact Hok'.
  - rewrite <- Hon. by injection K' as ->.
  - intros _. rewrite F', D, Hfirst. assert (u64 (u64 (Z.of_nat (length taken) / 4) + k) = u64 (Z.of_nat (length taken) / 4 + k)) as Hu
      by (unfold u64; by rewrite Zplus_mod_idemp_l). split; [|exact Hu].
    destruct Hgood as [Gw Ga Gl Gb Gf Gn]. injection K' as K1 K2 K3 K4 K5. split.
    + exact W'.
    + eapply aligned_taken; [exact Ga|by rewrite <- Hwords|by rewrite <- Hwords|done].
    + by rewrite K4.
    + rewrite B', R, F', C', Hfirst, Hu. done.
    + rewrite F'. apply fits_u64.
    + rewrite K2, Gn, F', C'. rewrite Hwords, div4_sub. unfold u64. rewrite Zplus_mod_idemp_l. f_equal. fold k. lia.
Qed.

(** What a peek that answers did. *)
Lemma streamPeek_spec release r x r' :
  goodRing r -> fits 31 release -> streamPeek release r = (inl x, r') ->
  let k := release / 4 in
  sFault r = None /\ release = 4 * k /\ 0 <= 4 * k <= sCount r /\ x = (sFirst r', sHead r', sCount r') /\ wfStream r' /\ aligned r' /\
  ringBytes r' = drop (Z.to_nat (4 * k)) (ringBytes r) /\ sFirst r' = u64 (sFirst r + k) /\ sCount r' = sCount r - 4 * k /\ kept r' = kept r.
Proof using.
  intros [Gw Ga Gl Gb Gf Gn] Hr Hp. unfold fits in Hr. unfold streamPeek in Hp. destruct (negb (sOn r) || negb (sShared r)); [discriminate Hp|].
  rewrite int32_small in Hp by lia. destruct (Z.ltb_spec (sCount r) release); [discriminate Hp|].
  destruct (Z.eqb_spec (release mod 4) 0) as [Hm|]; [|discriminate Hp]. cbn [negb orb] in Hp. apply mod4 in Hm. cbv zeta in *.
  set (k := release / 4) in *. cbn [sFault set_taken] in Hp. destruct (sFault r) eqn:Hf; [discriminate Hp|]. injection Hp as <- <-.
  destruct (ring_take r release Gw) as [W B]; [lia|]. cbv zeta in W, B. rewrite Z.rem_mod_nonneg by (unfold wfStream in Gw; lia).
  cbn [sFirst sHead sCount set_taken]. destruct W as [Wh Wc].
  assert (0 <= (sHead r + release) mod ringLen r < 2 ^ 32 /\ 0 <= sCount r - release < 2 ^ 32) as Hb.
  { cbn [sHead sCount set_taken] in Wh, Wc. change (ringLen (set_taken _ _ _ r)) with (ringLen r) in *.
    destruct Gw. lia. }
  rewrite !u32_fits by (unfold fits; apply Hb). split; [done|]. split; [done|]. split; [lia|]. split; [done|].
  split; [by split|]. split; [by eapply (aligned_taken r _ k); cbn [sHead sCount set_taken]; rewrite <- ?Hm|]. rewrite <- Hm. done.
Qed.

(** The app's two pieces are the ring's content. *)
Lemma peekPieces_ring r a b : wfStream r -> peekPieces (sring r) (sHead r) (sCount r) = inl (a, b) -> a ++ b = ringBytes r.
Proof using.
  unfold wfStream, ringLen, peekPieces, ringBytes. intros [Hh Hc] Hp. destruct (_ || _); [done|]. injection Hp as <- <-.
  rewrite circ_pieces by lia. set (k := Nat.min _ _). assert (Z.to_nat (Z.of_nat (length (sring r)) `min` (sHead r + sCount r) - sHead r) = k) as -> by lia.
  f_equal. f_equal. rewrite length_slice by lia. lia.
Qed.

Lemma run_ok_peek seen taken w h n w' a b :
  runOk seen taken w -> fits 31 (epoch_ h) -> handleStreamPeek h w = (Ret n, w') ->
  let data := slice 24 (Z.to_nat n) (response w') in
  peekPieces (sring (stream_ w')) (field 8 4 data) (field 12 4 data) = inl (a, b) ->
  let taken' := taken ++ take (Z.to_nat (epoch_ h)) (ringBytes (stream_ w)) in
  runOk (seen ++ [Sight (Z.of_nat (length taken')) (leVal (take 8 data)) (a ++ b)]) taken' w'.
Proof using H wraps.
  intros [Hseen Ht Hm Hb Hok Hon Hr] He Hw. pose proof (keepsOk_Ret _ _ _ _ (keeps_handleStreamPeek h) Hw Hok) as Hok'. pose proof Hok as (_ & Hbuf & _). unfold handleStreamPeek in Hw.
  apply bind_Ret_inv in Hw as (r & w0 & H0 & Hw). injection H0 as <- <-.
  destruct (streamPeek (epoch_ h) (stream_ w)) as [o r'] eqn:Hp.
  apply bind_Ret_inv in Hw as ([] & w1 & H1 & Hw). injection H1 as <-.
  apply bind_Ret_inv in Hw as (x & w1 & [Hx ->]%lift_Ret_inv & Hw). subst o.
  assert (sFault (stream_ w) = None) as Hf.
  { unfold streamPeek in Hp. do 2 (destruct (_ || _); [discriminate Hp|]). cbn in Hp. by destruct (sFault _). }
  destruct (Hr Hf) as [Hgood Hfirst]. apply streamPeek_spec in Hp as (_ & Hk & Hkb & -> & W' & A' & B' & F' & C' & K'); [|done..].
  cbv zeta in *. set (k := epoch_ h / 4) in *.
  destruct (run_more taken (stream_ w) k) as (L & Bk & T & M & D & R); try done. cbv zeta in *. rewrite <- Hk in *.
  assert (fits 64 (sFirst r') /\ fits 32 (sHead r') /\ fits 32 (sCount r')) as (V8 & V4 & V4').
  { split; [rewrite F'; apply fits_u64|]. injection K' as _ _ _ Hlen _. destruct W' as [Wh Wc].
    destruct Hgood. unfold fits. lia. }
  cbn [fst snd] in Hw. pose proof (length_leBytes 8 (sFirst r')) as L8. apply (leVal_leBytes 8) in V8.
  pose proof (length_leBytes 4 (sHead r')) as L4. apply (leVal_leBytes 4) in V4.
  pose proof (length_leBytes 4 (sCount r')) as L4'. apply (leVal_leBytes 4) in V4'.
  set (o8 := leBytes 8 _) in *. set (o4 := leBytes 4 (sHead r')) in *. set (p4 := leBytes 4 (sCount r')) in *.
  clearbody o8 o4 p4. apply bind_Ret_inv in Hw as ([] & w1 & H1 & Hw). injection H1 as <-. injection Hw as <- <-.
  assert (Z.to_nat 16 = length (o8 ++ o4 ++ p4)) as -> by (rewrite !length_app, L8, L4, L4'; done).
  cbn [response set_stream set_response stream_ modify]. rewrite reply_data; [|done|].
  2: { rewrite !length_app, L8, L4, L4'. done. }
  unfold field, slice. rewrite (drop_app_length' o8), (take_app_length' o4) by done.
  rewrite (app_assoc o8), (drop_app_length' (o8 ++ o4)), (take_ge p4), <- (app_assoc o8) by (rewrite ?length_app; lia).
  rewrite (take_app_length' o8), V8, V4, V4' by done. intros Hpieces. apply peekPieces_ring in Hpieces; [|done].
  assert (sCount r' / 4 = sCount (stream_ w) / 4 - k) as Hc4 by (rewrite C', Hk; apply div4_sub).
  assert (ringBytes r' = streamBytes (u64 (Z.of_nat (length taken) / 4 + k)) (sCount r' / 4)) as Hring by by rewrite B', R, C'.
  assert (sFirst r' = u64 (Z.of_nat (length taken) / 4 + k)) as Hu by (rewrite F', Hfirst; unfold u64; by rewrite Zplus_mod_idemp_l).
  split; cbn [stream_ set_stream set_response capt response].
  - apply Forall_app. split; [done|]. apply Forall_singleton. unfold trueSight. cbn [before ordinal shown].
    rewrite D, Hpieces. split; [done|]. rewrite (length_ringBytes r') by done. rewrite Hring, streamBytes_u64 by done. done.
  - exact T.
  - exact M.
  - exact Hb.
  - exact Hok'.
  - rewrite <- Hon. by injection K' as ->.
  - intros _. rewrite D. split; [|exact Hu]. destruct Hgood as [Gw Ga Gl Gb Gf Gn]. injection K' as K1 K2 K3 K4 K5. split.
    + exact W'.
    + exact A'.
    + by rewrite K4.
    + by rewrite Hring, Hu.
    + rewrite Hu. apply fits_u64.
    + rewrite K2, Gn, Hu, Hc4, Hfirst. unfold u64. rewrite !Zplus_mod_idemp_l. f_equal. lia.
Qed.

(** What the pump's start does beside the ring. *)
Definition beside (w w' : worker) : Prop :=
  (busOk w -> busOk w') /\ response w' = response w /\ stream_ w' = stream_ w.
#[local] Instance beside_preorder : PreOrder beside.
Proof using.
  split; [by intros w|]. intros w1 w2 w3 (H1 & H2 & H3) (H4 & H5 & H6). split; [auto|]. by rewrite H5, H6.
Qed.
Lemma beside_onCapture {A} (m : M A) : steps (keepsSized total) m -> steps beside (onCapture m).
Proof using.
  intros Hm w. specialize (Hm (capt w)). unfold onCapture. destruct (m (capt w)) as [o s]. split; [exact Hm|done].
Qed.
Lemma beside_onPace f : steps beside (onPace f).
Proof using. by intros w. Qed.
Lemma beside_deadline f : steps beside (modify (fun w => set_deadline (f w) w)).
Proof using. by intros w. Qed.
#[local] Hint Resolve beside_onPace beside_deadline : steps.
Lemma beside_emit e : steps beside (onCapture (emit e)).
Proof using. apply beside_onCapture. by intros s Hs. Qed.
Lemma beside_startDeadline : steps beside startDeadline.
Proof using.
  assert (steps beside (onCapture StartDecodedDeadline)) as Hd.
  { apply beside_onCapture. pose proof (keepsSized_busStep total) as Hbs. unfold StartDecodedDeadline. bus_steps; apply _. }
  unfold startDeadline. steps_tac.
Qed.
Lemma beside_closeDeadline : steps beside closeDeadline.
Proof using.
  assert (steps beside (onCapture CloseDeadline)) as Hd.
  { apply beside_onCapture. pose proof (keepsSized_busStep total) as Hbs. unfold CloseDeadline. bus_steps; apply _. }
  unfold closeDeadline. steps_tac.
Qed.
#[local] Hint Resolve beside_emit beside_startDeadline beside_closeDeadline : steps.

(** The pump's start leaves an empty ring of the whole size. *)
Lemma run_ok_start w0 u w :
  busOk w0 -> workerOk w0 -> (sring (stream_ w0) = [] \/ ringLen (stream_ w0) mod 4 = 0 /\ ringLen (stream_ w0) < 2 ^ 32) ->
  streamPumpOn true w0 = (Ret u, w) -> runOk [] [] w.
Proof using.
  intros Hb Hok Hlen Hs. pose proof (keepsOk_Ret _ _ _ _ (keeps_streamPumpOn true) Hs Hok) as Hok'. unfold streamPumpOn in Hs.
  apply bind_Ret_inv in Hs as ([] & w1 & H1 & Hs). injection H1 as <-.
  apply bind_Ret_inv in Hs as ([] & w1 & H1 & Hs). injection H1 as <-.
  apply bind_Ret_inv in Hs as (r & w1 & H1 & Hs). injection H1 as <- <-. cbn [stream_ set_pace set_stream sring andb] in Hs.
  apply bind_Ret_inv in Hs as ([] & w2 & H2 & Hs).
  match type of Hs with ?m _ = _ => assert (steps beside m) as Hrest by (repeat first [progress steps_tac | case_match]) end.
  specialize (Hrest w2). rewrite Hs in Hrest. cbn [snd] in Hrest. destruct Hrest as (Hb' & Hbuf' & Hst).
  assert (busOk w2 /\ response w2 = response w0 /\ exists ring sh, stream_ w2 = StreamRing true 0 0 0 0 None ring sh /\
            0 < Z.of_nat (length ring) < 2 ^ 32 /\ Z.of_nat (length ring) mod 4 = 0) as (Hb2 & Hbuf2 & ring & sh & Hring & Hl & Hl4).
  { unfold ringLen in Hlen. destruct (Nat.eqb_spec (length (sring (stream_ w0))) 0) as [H0|H0].
    - unfold pinStreamRing in H2. assert (Z.of_nat (Z.to_nat workerStreamBytes) = workerStreamBytes) as Hk by (by apply Z2Nat.id).
      set (k := Z.to_nat workerStreamBytes) in *. clearbody k. apply bind_Ret_inv in H2 as (h & w1 & H1 & H2). injection H1 as <- <-. cbv zeta in H2.
      apply bind_Ret_inv in H2 as ([] & w1 & H1 & H2). injection H1 as <-. injection H2 as <-.
      split; [exact Hb|]. split; [done|]. cbn [sring stream_ set_stream set_capt set_pace]. rewrite H0, Nat.eqb_refl, orb_true_r.
      eexists _, _. split; [reflexivity|]. rewrite length_replicate, Hk. done.
    - injection H2 as <-. split; [exact Hb|]. split; [done|]. destruct Hlen as [Hn|Hn]; [by rewrite Hn in H0|]. eexists _, _. split; [reflexivity|]. lia. }
  split; [done|done|done|by apply Hb'|exact Hok'|by rewrite Hst, Hring|]. intros _. rewrite Hst, Hring. split; [|done].
  split; unfold wfStream, aligned, ringLen; cbn [sHead sCount sring sFirst sExpected].
  - lia.
  - by rewrite Hl4.
  - apply Hl.
  - unfold ringBytes. cbn. by rewrite circ_0.
  - done.
  - done.
Qed.

(** A peek that is refused leaves a ring without a fault as it was. *)
Lemma handleStreamPeek_refused h w e w' :
  handleStreamPeek h w = (Fail e, w') ->
  capt w' = capt w /\ sFault (stream_ w') = sFault (stream_ w) /\
  (sFault (stream_ w) = None -> stream_ w' = stream_ w) /\ sOn (stream_ w') = sOn (stream_ w).
Proof using.
  unfold handleStreamPeek. rewrite (bind_Ret _ _ w (stream_ w) w) by done.
  destruct (streamPeek (epoch_ h) (stream_ w)) as [o r'] eqn:Hp. rewrite (bind_Ret _ _ w tt (set_stream r' w)) by done.
  destruct o as [x|x]; [discriminate|]. intros [= _ <-]. split; [done|]. cbn [stream_ set_stream].
  unfold streamPeek in Hp. destruct (negb (sOn _) || _); [by injection Hp as _ <-|]. destruct (_ || _); [by injection Hp as _ <-|].
  cbv zeta in Hp. cbn [sFault set_taken] in Hp. destruct (sFault (stream_ w)) eqn:Hf; [|discriminate Hp]. by injection Hp as _ <-.
Qed.

Lemma run_ok_look seen taken w u w' : runOk seen taken w -> streamPump w = (Ret u, w') -> runOk seen taken w'.
Proof using drum total_size wraps plain.
  intros [Hs Ht Hm Hb Hok Hon Hg] Hp. pose proof (keepsOk_Ret _ _ _ _ keeps_streamPump Hp Hok) as Hok'.
  assert (streamOk stream total w) as Hso by (split; [done|]; intros Hf; by apply Hg).
  eapply streamPump_spec in Hp as ([Hb' Hg'] & Hfirst & Hfault & Hon'); [|done..].
  split; [done..|congruence|]. intros Hf. split; [by apply Hg'|]. rewrite Hfirst. by apply Hg, Hfault.
Qed.
Lemma run_ok_refused seen taken w h e w' :
  runOk seen taken w -> handleStreamPeek h w = (Fail e, w') -> runOk seen taken w'.
Proof using H.
  intros [Hs Ht Hm Hb Hok Hon Hg] Hw. pose proof (keeps_handleStreamPeek h w) as Hk. rewrite Hw in Hk. destruct (Hk Hok) as [Hok' _].
  apply handleStreamPeek_refused in Hw as (C1 & C3 & C4 & C5).
  split; [done..|unfold WorkerStream.busOk; by rewrite C1|done|congruence|]. intros Hf. rewrite C3 in Hf. rewrite C4 by done. by apply Hg.
Qed.
Lemma run_ok_apart {A} seen taken w (m : W A) a w' :
  runOk seen taken w -> steps apart m -> m w = (Ret a, w') -> busOk w' -> workerOk w' -> runOk seen taken w'.
Proof using.
  intros [Hs Ht Hm Hb Hok Hon Hg] Hap Hr Hb' Hok'. specialize (Hap w). rewrite Hr in Hap. specialize (Hap Hon).
  cbn [snd] in Hap. split; [done..|by rewrite Hap|]. by rewrite Hap.
Qed.

(** C16: the stream is a queue with the drum at its end. Whatever the order of
    looks at the drum, replies and looks of the app, what left the ring is the
    stream from word 0 on, without a gap; every reply and every look shows the
    stream's words from the ordinal it names, which counts the words that had
    left; and while no fault is noted the ring holds the words behind them,
    up to the next one the pump asks the drum for. *)
Theorem stream_fifo seen taken w :
  streamRun seen taken w ->
  Forall trueSight seen /\
  taken = streamBytes 0 (Z.of_nat (length taken) / 4) /\
  (sFault (stream_ w) = None ->
   sFirst (stream_ w) = u64 (Z.of_nat (length taken) / 4) /\
   ringBytes (stream_ w) = streamBytes (sFirst (stream_ w)) (sCount (stream_ w) / 4) /\
   sExpected (stream_ w) = u64 (sFirst (stream_ w) + sCount (stream_ w) / 4)).
Proof using drum total_size wraps plain.
  intros Hr. assert (runOk seen taken w) as [Hs Ht _ _ _ _ Hg].
  { induction Hr as [w0 u w Hb Hok Hlen Hs|seen taken w u w' _ IH Hp|seen taken w h n w' _ IH Hc Hw
                    |seen taken w h n w' a b _ IH He Hw data Hp|seen taken w h e w' _ IH Hw
                    |seen taken w u w' _ IH Hp Hb|seen taken w request n w' _ IH Hl N1 N2 N3 Hh Hb].
    - by eapply run_ok_start.
    - by eapply run_ok_look.
    - by eapply run_ok_words.
    - by eapply run_ok_peek.
    - by eapply run_ok_refused.
    - eapply run_ok_apart; [exact IH|exact apart_pump|exact Hp|exact Hb|]. apply (keepsOk_Ret _ _ _ _ keeps_pump Hp), IH.
    - eapply run_ok_apart; [exact IH|by apply apart_handle|exact Hh|exact Hb|]. eapply handle_reply; [apply IH|exact Hl|exact Hh]. }
  split; [done|]. split; [done|]. intros Hf. destruct (Hg Hf) as [[Gw Ga Gl Gb Gf Gn] Hfirst]. done.
Qed.
End fifo.
