(* ===== verification/Liveness.v ===== *)
(** * Arms, recalls, scans and drains end

    No method of src/app/internal/sramcapture polls for ever or slices out of
    range: on a bus whose accesses take time each returns or fails, whatever
    the fabric answers. *)
From S2P Require Import Prelude Machine Fabric Bus BusSteps Command Ends TrigPacket TrigSerial TrigQualify TrigSymbol.
From S2P Require Import Status Arm RecallSpans Recall RecallSteps Stack StackScan Stream.

(** ** Arm *)

Section arm.
Context {E : Env}.

Ltac arm_ends :=
  intros; unfold Qualifier.configureQualifier, Zone.configureZones, Zone.zoneKinds, Symbol.configureSymbol, Symbol.loadTable,
    Packet.configurePacket, Packet.packetProtocols, Manchester.configureManchester, Manchester.manchesterCapability,
    SENT.configureSENT, USBLS.configureUSBLS, MIL1553.configureMIL1553, SPI.configureSPI, I2C.configureI2C,
    UART.configureUART, capabilityFrom10, armImage, armStream, armRecord, enableDecodedEvents, BoxDecimation, PickDecimation,
    PickOnAsking, rawOnly; ends_tac.

Lemma total_qualifier rev p : total anyState (Qualifier.configureQualifier rev p).
Proof. arm_ends. Qed.
Lemma total_zones rev p : total anyState (Zone.configureZones rev p).
Proof. arm_ends. Qed.
Lemma total_symbol rev p : total anyState (Symbol.configureSymbol rev p).
Proof. arm_ends. Qed.
Lemma total_serial rev cfg :
  total anyState (Packet.configurePacket (Packet cfg);; Manchester.configureManchester (Manchester cfg);;
    SENT.configureSENT rev (SENT cfg);; USBLS.configureUSBLS rev (USBLS cfg);; MIL1553.configureMIL1553 rev (MIL1553 cfg);;
    SPI.configureSPI rev (SPI cfg);; I2C.configureI2C rev (I2C cfg);; UART.configureUART rev (UART cfg)).
Proof. arm_ends. Qed.
Lemma total_sequence p : Sequence.Length p <= Sequence.SequenceMax -> total anyState (Sequence.configureSequence p).
Proof.
  intros Hl. unfold Sequence.configureSequence, Sequence.sequenceCapability.
  rewrite (proj2 (Z.ltb_ge _ _) Hl). ends_tac.
Qed.
Lemma total_armTriggers rev cfg :
  Sequence.Length (Sequence cfg) <= Sequence.SequenceMax -> total anyState (armTriggers rev cfg).
Proof.
  intros Hl. unfold armTriggers. apply total_bind; [apply total_qualifier|intros _].
  apply total_bind; [apply total_zones|intros _]. apply total_bind; [apply total_symbol|intros _].
  apply total_bind; [by apply total_sequence|intros _]. apply total_serial.
Qed.

Lemma Check_sequence cfg : Check cfg = None -> Sequence.Length (Sequence cfg) <= Sequence.SequenceMax.
Proof.
  unfold Check, checkMatched, checkSerial. rewrite !orElse_None. cbv zeta. intros H. destruct_and! H.
  match goal with H : Sequence.validate _ = None |- _ => by apply Sequence.validate_kinds in H as [? _] end.
Qed.

Section clock.
Context (tick : Z).
Hypothesis tick_pos : 0 < tick.
Hypothesis clock : forall h e l, env_Now h + tick <= env_Now (h ++ e :: l).
Context (fuel : nat) (c : ctx).

Lemma total_armBody cfg : lasts tick fuel second -> Check cfg = None -> total anyState (armBody fuel c cfg).
Proof using clock tick_pos.
  intros Hf Hc. apply Check_sequence in Hc. unfold armBody, armStart.
  pose proof (fun op => total_command tick tick_pos clock anyState fuel c op Hf).
  pose proof (fun rev => total_armTriggers rev cfg Hc).
  apply total_bind; [arm_ends|intros rev]. apply total_bind; [arm_ends|intros _].
  apply total_bind; [done|intros _]. apply total_bind; [arm_ends|intros _].
  apply total_bind; [arm_ends|intros _]. apply total_bind; [by apply total_attempt|intros []]; arm_ends.
Qed.

Lemma Arm_total cfg : lasts tick fuel second -> total anyState (Arm fuel c cfg).
Proof using clock tick_pos.
  intros Hf. unfold Arm. destruct (Check cfg) as [e|] eqn:Hc.
  { intros s _. done. }
  apply total_bind; [apply total_liftErr|intros _]. apply total_bind; [apply total_checkCtx|intros _].
  apply total_bind; [apply total_readMany, _|intros r]. apply total_bind; [by apply total_modify|intros _].
  apply total_finally; [by apply total_armBody|intros e]. unfold armEnd.
  apply total_bind; [by apply total_modify|intros _]. ends_tac.
Qed.

(** C36: an arm always ends: whatever the configuration and the fabric's
    answers, it returns or fails, and never slices the sequence's array out
    of range; its one polling loop is the arm command's. *)
Theorem Arm_ends cfg s : lasts tick fuel second -> ends (Arm fuel c cfg s).1.
Proof using clock tick_pos. intros Hf. by apply Arm_total. Qed.
End clock.
End arm.

(** ** Recalls *)

Section recall.
Context {E : Env} (tick : Z).
Hypothesis tick_pos : 0 < tick.
Hypothesis clock : forall h e l, env_Now h + tick <= env_Now (h ++ e :: l).
Context (fuel : nat) (t : Z).

(** Time enough, across the recall's sink events too. *)
Local Abbreviation timed := (within tick t fuel).

Lemma total_sinkWrite k data : total timed (sinkWrite k data).
Proof using clock tick_pos.
  destruct k; cbn [sinkWrite].
  - apply total_bind; [apply total_gets|intros h]. apply total_bind; [by apply total_within_emit|intros _]. apply total_ret.
  - apply total_bind; [apply total_gets|intros next]. destruct (counterWrite next data) as [r nx].
    apply total_bind; [apply total_modify; intros s H; exact H|intros _].
    apply total_bind; [by apply total_within_emit|intros _]. apply total_ret.
Qed.
Lemma total_writeAll k data : total timed (writeAll k data).
Proof using clock tick_pos. apply total_bind; [apply total_sinkWrite|intros r]. ends_tac. Qed.

Section burst.
Context (c : ctx) (m : Metadata) (offset prefix physical : Z) (forward : bool) (room : option Z).
Hypothesis deadline : ctxDeadline c = Some t.

Lemma total_wordData n i : total timed (wordData prefix n i).
Proof using clock tick_pos.
  pose proof (within_stable tick tick_pos clock t fuel).
  revert i. induction n as [|n IH]; intros i; cbn [wordData]; ends_tac.
Qed.
Lemma total_burst sp : total timed (burst fuel c m offset prefix physical forward room sp).
Proof using clock tick_pos deadline.
  pose proof (within_stable tick tick_pos clock t fuel). pose proof total_wordData.
  pose proof (fun op => total_commandIn tick tick_pos clock fuel c op t deadline).
  pose proof (fun k => total_wait tick tick_pos clock fuel c k t deadline).
  pose proof (total_within_emit tick tick_pos clock t fuel).
  unfold burst, seek, burstData, popBurst. ends_tac.
Qed.
Lemma total_recallLoop dst i total_ spans written :
  total timed (recallLoop fuel c m offset prefix physical forward room dst i total_ spans written).
Proof using clock tick_pos deadline.
  pose proof (within_stable tick tick_pos clock t fuel). pose proof total_burst. pose proof total_writeAll.
  pose proof (total_within_emit tick tick_pos clock t fuel).
  revert i written. induction spans as [|sp spans IH]; intros i written; cbn [recallLoop]; [apply total_ret|].
  unfold deliver. ends_tac.
Qed.
End burst.
End recall.

Section recall_ends.
Context {E : Env} (tick : Z).
Hypothesis tick_pos : 0 < tick.
Hypothesis clock : forall h e l, env_Now h + tick <= env_Now (h ++ e :: l).
Context (fuel : nat).

Lemma total_any {A} P (m : M A) : total P m -> total (both P anyState) m.
Proof. intros Hm. apply total_both; [done|]. intros s _. done. Qed.

Lemma total_roomFor m count dst : total anyState (roomFor m count dst).
Proof.
  unfold roomFor. destruct dst as [id|]; [|apply total_ret]. destruct env_PopBytes; [|apply total_ret].
  destruct (_ && _); [|apply total_ret]. apply total_bind; [apply total_gets|intros h].
  apply total_bind; [done|intros _]. apply total_ret.
Qed.
Lemma readBuffer_sizes m s sizes s' : readBuffer m s = (Ret sizes, s') -> sizes.1 = 4096 \/ sizes.1 = 512.
Proof.
  unfold readBuffer. destruct (8 <=? Revision m); intros H; [|apply mret_Ret_inv in H as [-> _]; auto].
  apply bind_Ret_inv in H as (size & s1 & _ & H). apply bind_Ret_inv in H as (u & s2 & H2 & H).
  apply guard_Ret_inv in H2 as [Hg _]. apply mret_Ret_inv in H as [-> _]. left. simpl.
  destruct (Z.eqb_spec size 4096) as [->|]; [done|]. destruct (Z.eqb_spec size 8192) as [->|]; [done|].
  simpl in Hg. by rewrite orb_true_r in Hg.
Qed.

Lemma total_recallTransfer c m offset count dst forward :
  fits 32 count -> lasts tick fuel (10 * second) ->
  total anyState (recallTransfer fuel c m offset count dst forward).
Proof using clock tick_pos.
  intros Hn Hf. unfold recallTransfer.
  eapply total_bind_with; [unfold readBuffer; ends_tac|apply readBuffer_sizes|]. intros [bw ph] Hbw. simpl in Hbw.
  apply total_bind; [apply total_guard|intros _].
  intros s Hs. apply (total_timeout tick tick_pos anyState fuel c (10 * second)); [done|done|done|]. intros c' t Hc.
  assert (total (within tick t fuel) (room ← roomFor m count dst;
    (if forward && bool_decide (room = None) then prepareScratch count else mret tt);;
    let prefix := prefixOf m in
    match recallSpans count (u32 (bw - prefix)) (if forward then prefix + 2 else 0) with
    | None => outOfFuel
    | Some spans =>
        written ← recallLoop fuel c' m offset prefix ph forward room dst 0 (Z.of_nat (length spans)) spans 0;
        match room with
        | Some id => emit (EvFill id (count * 4));; mret (count * 4)
        | None =>
            if forward && negb (count =? 0) then
              data ← gets recallScratch;
              writeAll dst (take (Z.to_nat (count * 4)) data)
            else mret written
        end
    end)) as Ht; [|by apply total_any].
  pose proof (total_within_emit tick tick_pos clock t fuel) as He.
  pose proof (total_writeAll tick tick_pos clock fuel t) as Hw.
  apply total_bind; [|intros room].
  { unfold roomFor. destruct dst; ends_tac. }
  apply total_bind; [unfold prepareScratch; ends_tac|intros _]. cbv zeta.
  assert (prefixOf m = 16 \/ prefixOf m = 0) as Hp by (unfold prefixOf; destruct (7 <=? _); auto).
  destruct (recallSpans_cut count (u32 (bw - prefixOf m)) (if forward then prefixOf m + 2 else 0)) as (spans & -> & _);
    [destruct Hp as [-> | ->], Hbw as [-> | ->]; done|destruct Hp as [-> | ->], forward; lia|done|].
  apply total_bind; [by apply total_recallLoop|intros written]. ends_tac.
Qed.

Lemma total_recallFrozen c m offset count dst forward :
  fits 32 count -> lasts tick fuel (10 * second) ->
  total anyState (recallFrozen fuel c m offset count dst forward).
Proof using clock tick_pos.
  intros Hn Hf. pose proof (fun c m offset => total_recallTransfer c m offset count dst forward Hn Hf).
  unfold recallFrozen, envelopeOff, recallEnd. ends_tac.
Qed.

End recall_ends.

(** ** Stacking sessions *)

Section stack_ends.
Context {E : Env} (tick : Z).
Hypothesis tick_pos : 0 < tick.
Hypothesis clock : forall h e l, env_Now h + tick <= env_Now (h ++ e :: l).
Context (fuel : nat).

(** A read on a loop's turn spends some of its time. *)
Lemma read_within d n sel s :
  uncached s -> within tick d (S n) s ->
  ends (read sel s).1 /\ uncached (read sel s).2 /\
  (env_Now (trace (read sel s).2) < d -> within tick d n (read sel s).2).
Proof using clock tick_pos.
  intros Hs Hw. destruct (read_after sel s Hs) as [He Ha]. split; [done|].
  split; [by apply (steps_read (fun s s' => uncached s -> uncached s'))|]. intros Hd.
  apply (within_after tick tick_pos clock d n s); [done| |done].
  pose proof (now_grows tick tick_pos clock _ _ (after_is_grows _ _ Ha)). lia.
Qed.

Lemma stackLoop_ends n c op d : forall i u s,
  ctxDeadline c = Some d -> within tick d n s -> uncached s -> ends (stackLoop n c op i u s).1.
Proof using clock tick_pos.
  induction n as [|n IH]; intros i u s Hd Hw Hs; [destruct Hw; lia|]. cbn [stackLoop]. unfold mbind, SE_bind.
  destruct (read_within d n selStackOp s Hs Hw) as (He & Hu & Hn).
  destruct (read selStackOp s) as [[v|e| |] s1]; try done. cbn [fst snd] in *.
  destruct (_ =? 0); [by destruct (has v stackError)|].
  destruct (ctxErr_deadline c d s1 Hd) as [(e & ->)|[-> Hlt]]; [done|]. apply Hn in Hlt.
  destruct (negb _); [by apply IH|]. simpl. destruct (_ <? _); [by apply IH|]. simpl.
  apply IH; [done| |done]. apply (within_grows tick tick_pos clock d n s1); [done|by eexists].
Qed.
Lemma grantLoop_ends n c on d : forall s,
  ctxDeadline c = Some d -> within tick d n s -> uncached s -> ends (grantLoop n c on s).1.
Proof using clock tick_pos.
  induction n as [|n IH]; intros s Hd Hw Hs; [destruct Hw; lia|]. cbn [grantLoop]. unfold mbind, SE_bind.
  destruct (read_within d n selStackGrant s Hs Hw) as (He & Hu & Hn).
  destruct (read selStackGrant s) as [[v|e| |] s1]; try done. cbn [fst snd] in *.
  destruct (Bool.eqb _ _); [done|].
  destruct (ctxErr_deadline c d s1 Hd) as [(e & ->)|[-> Hlt]]; [done|]. apply Hn in Hlt. by apply IH.
Qed.

(** The loops are register accesses. *)
Lemma steps_stackLoop R {HR : BusStep R} n c op i u : steps R (stackLoop n c op i u).
Proof. revert i u. induction n as [|n IH]; intros; cbn [stackLoop]; unfold now; bus_steps; apply _. Qed.
Lemma steps_grantLoop R {HR : BusStep R} n c on : steps R (grantLoop n c on).
Proof. induction n as [|n IH]; intros; cbn [grantLoop]; bus_steps; apply _. Qed.

Lemma total_stackOp c op timeout : 0 < timeout -> lasts tick fuel timeout -> total uncached (stackOp fuel c op timeout).
Proof using clock tick_pos.
  intros Ht Hf s Hs. unfold stackOp. apply (total_timeout tick tick_pos uncached fuel c timeout); [done..|].
  intros c' d Hd. unfold stackOpIn. pose proof (within_stable tick tick_pos clock d fuel).
  apply total_bind; [apply total_write, _|intros _]. intros s1 [Hw Hu].
  split; [by apply (stackLoop_ends fuel c' op d)|]. split; [|by apply (steps_stackLoop (fun s s' => uncached s -> uncached s'))].
  by apply (steps_stackLoop (fun s s' => within tick d fuel s -> within tick d fuel s')).
Qed.
Lemma total_stackGrant c on : lasts tick fuel (100 * millisecond) -> total uncached (stackGrant fuel c on).
Proof using clock tick_pos.
  intros Hf. unfold stackGrant. apply total_bind; [apply total_write, _|intros _]. intros s Hs.
  apply (total_timeout tick tick_pos uncached fuel c (100 * millisecond)); [done..|].
  intros c' d Hd s1 [Hw Hu]. pose proof (within_stable tick tick_pos clock d fuel).
  split; [by apply (grantLoop_ends fuel c' on d)|]. split; [|by apply (steps_grantLoop (fun s s' => uncached s -> uncached s'))].
  by apply (steps_grantLoop (fun s s' => within tick d fuel s -> within tick d fuel s')).
Qed.

Lemma total_status : total uncached status.
Proof. unfold status, statusIdentity, statusRate, statusFormat, sampleTimeline. ends_tac. Qed.

(** a stacking scan always ends, its grant and its operation each within
    their own deadlines. *)
Theorem StackScan_ends c first n initial s :
  armReady s = false -> lasts tick fuel (5 * second) -> ends (StackScan fuel c first n initial s).1.
Proof using clock tick_pos.
  intros Hs Hf. assert (total uncached (StackScan fuel c first n initial)) as H; [|by apply H].
  pose proof total_status.
  assert (lasts tick fuel (100 * millisecond)) as Hg by (apply (lasts_le tick fuel (5 * second)); done).
  pose proof (fun c on => total_stackGrant c on Hg).
  pose proof (fun c op => total_stackOp c op (5 * second) ltac:(done) Hf).
  unfold StackScan, scanBody, scanEnd, writeReg. ends_tac.
Qed.

(** A download always ends: at most two reads of each moment, each within
    its second. *)
Theorem StackDownload_ends c n s :
  armReady s = false -> lasts tick fuel second -> ends (StackDownload fuel c n s).1.
Proof using clock tick_pos.
  intros Hs Hf. assert (total uncached (StackDownload fuel c n)) as H; [|by apply H].
  pose proof (fun c op => total_stackOp c op second ltac:(done) Hf).
  assert (forall c i, total uncached (retriedMoment fuel c i)) as Hr.
  { intros. unfold retriedMoment, checkedMoment, stackDownload. ends_tac. }
  unfold StackDownload, isolatedMoments. apply total_bind; [ends_tac|intros _]. apply total_bind; [ends_tac|intros raw].
  generalize (Z.to_nat n) 0. intros k. induction k as [|k IH]; intros i; cbn [downloadLoop]; cbv zeta; [apply total_ret|].
  apply total_bind; [ends_tac|intros m]. apply total_bind; [apply IH|intros rest; apply total_ret].
Qed.
End stack_ends.

(** ** Drains *)

(** The buffers hold what they are prepared for. *)
Definition buffered (s : capture) : Prop := streamWords s <= streamCap s.
#[export] Instance buffered_stable : Stable buffered.
Proof. split. split; [split; [by intros s|]|done..]. intros s1 s2 s3 H1 H2 H. auto. Qed.
Definition drainable : capture -> Prop := both uncached buffered.
#[export] Instance drainable_stable : Stable drainable.
Proof. unfold drainable. apply _. Qed.

Section drain_ends.
Context {E : Env}.

Lemma total_prepare : total drainable prepareStreamBuffers.
Proof.
  unfold prepareStreamBuffers. apply total_bind; [apply total_read, _|intros words].
  apply total_bind; [apply total_guard|intros _]. apply total_modify. intros s [Hu Hb]. split; [exact Hu|].
  unfold buffered in *. cbn. destruct (streamCap s <? words) eqn:Hc; lia.
Qed.
(** The slices of the stream's buffers are within them. *)
Lemma total_drainBlock st b expected : total drainable (drainBlock st b expected).
Proof.
  unfold drainBlock. apply total_bind; [apply total_gets|intros prepared].
  apply total_bind; [destruct (_ =? 0); [apply total_prepare|apply total_ret]|intros _].
  apply total_bind_run; [apply total_read, _|]. intros s count s1 Hs Hr Hp.
  assert (fits 16 count) as Hcount by (apply read_fits in Hr as [? _]; [done|apply Hs]).
  rewrite (bind_Ret (gets streamWords) _ s1 (streamWords s1) s1) by done. set (t := streamWords s1).
  destruct ((count =? 0) || (t / 4 <? count)) eqn:Hg; [done|].
  rewrite (bind_Ret (guard false _) _ s1 tt s1) by done. cbv zeta. clear Hr.
  set (words := u32 (count * 2 - ((LastSingle st .>> b) .& 1))). assert (words * 4 <= 2 * t) as Hw.
  { unfold words. assert (0 <= (LastSingle st .>> b) .& 1 <= 1) as Hbit.
    { rewrite (Z.land_ones _ 1 ltac:(lia) : _ .& 1 = _ mod 2). pose proof (Z.mod_pos_bound (LastSingle st .>> b) 2). lia. }
    unfold fits in Hcount. rewrite u32_fits by (unfold fits; blia).
    assert (4 * (t / 4) <= t) by (apply Z.mul_div_le; lia). blia. }
  assert (both uncached (fun s => streamWords s = t /\ t <= streamCap s) s1) as Hp1 by (by split; [apply Hp|split; [done|apply Hp]]).
  assert (forall s2, both uncached (fun s => streamWords s = t /\ t <= streamCap s) s2 -> drainable s2) as Hd.
  { intros s2 (H1 & H2 & H3). split; [done|]. unfold buffered. lia. }
  assert (Stable (both uncached (fun s => streamWords s = t /\ t <= streamCap s))) as Hst.
  { apply both_stable; [apply _|]. split. split; [split; [by intros s3|]|done..]. intros s3 s4 s5 H1 H2 H. auto. }
  assert (total (both uncached (fun s => streamWords s = t /\ t <= streamCap s))
    (write 16 (u16 (b * (t / 2)));; read 17;; write 17 (u16 (u16 (b * (t / 2)) * 2));;
     size ← gets streamCap; (if size * 2 <? words * 4 then panic else mret tt);;
     mret ({| FirstWord := expected; Words_ := words; Bank := b |}, u16 (b * (t / 2))))) as Ht.
  { apply total_bind; [apply total_write, _|intros _]. apply total_bind; [apply total_read, _|intros _].
    apply total_bind; [apply total_write, _|intros _]. intros s2 (H1 & H2 & H3). unfold mbind, SE_bind. cbn [gets].
    destruct (Z.ltb_spec (streamCap s2 * 2) (words * 4)); [lia|]. cbn. split; [done|]. by split. }
  destruct (Ht s1 Hp1) as [He1 Hp2]. split; [exact He1|]. apply Hd. exact Hp2.
Qed.

Lemma DrainStream_total c expected dst : total drainable (DrainStream c expected dst).
Proof.
  pose proof total_drainBlock.
  assert (forall e, total drainable (emit e)) as Hemit by (intros e s Hs; split; [done|exact Hs]).
  assert (forall k data, total drainable (writeAll k data)) as Hw.
  { intros k data. unfold writeAll, sinkWrite. ends_tac. }
  assert (forall ready banks, total drainable (findBank ready expected banks)) as Hf.
  { intros ready banks. induction banks as [|b banks IH]; cbn [findBank]; unfold bankFirst; ends_tac. }
  unfold DrainStream, drainPop, drainCheck. ends_tac.
Qed.

(** A drain never slices its buffers out of range: once they are prepared
    (an invariant of the capture: the buffers hold what streamWords says),
    whatever packet count, bank and pointer the fabric shows, it returns or
    fails. *)
Theorem DrainStream_ends c expected dst s :
  armReady s = false -> streamWords s <= streamCap s ->
  ends (DrainStream c expected dst s).1 /\ streamWords (DrainStream c expected dst s).2 <= streamCap (DrainStream c expected dst s).2.
Proof. intros Hu Hb. destruct (DrainStream_total c expected dst s) as [He [_ Hp]]; [by split|done]. Qed.
End drain_ends.
