(* ===== verification/Sim.v ===== *)
(** * Concrete environments

    Small deterministic fabrics the witnesses run the code on: a bench whose
    registers hold still but for the command acknowledge, the SRAM's reader,
    the stream drum, the stacking tile and the event FIFO. Each of the last
    four is proved to serve what the theorems of its component ask. *)
From S2P Require Import Prelude Machine Fabric Bus BusSteps Command DecodedEvent Moments Status Open.
From S2P Require Import Recall Sinks RecallDevice Stream StreamRun Stack StackRun.

(** ** A bench *)

(** What a bench answers: its registers by the history, its two DMAs, its
    writes and its clock's step. A sink takes all it is given; sink 2 lends a
    recall room, and sink 3 reserves, its room wrapping after 12 bytes. *)
Definition bench (tick : Z) (reg : history -> Z -> Z) (bytes words : option (history -> Z -> Z -> list Z))
    (ok : history -> Z -> Z -> option err) : Env := {|
  env_Read h sel := inl (reg h sel);
  env_RawWrite := ok;
  env_RawWriteMany := None;
  env_ReadMany := None;
  env_PopBytes := (fun f h sel n => inl (f h sel n)) <$> bytes;
  env_PopWords := (fun f h sel n => inl (f h sel n)) <$> words;
  env_RecallIsolated := None;
  env_PanelIsolated := None;
  env_EventsIsolated := None;
  env_StackIsolated := None;
  env_LineMode := None;
  env_Lines := None;
  env_SinkWrite _ _ data := (Z.of_nat (length data), None);
  env_SinkIsRoom id := id =? 2;
  env_Room _ _ _ := true;
  env_SinkIsReserver id := id =? 3;
  env_Reserve _ _ n := if n =? 20 then inl (12, 8) else inr (EMsg "no room" []);
  env_Now h := tick * Z.of_nat (length h);
  env_Done _ _ := false
|}.
Definition accepts (_ : history) (_ _ : Z) : option err := None.

(** A register map with zero elsewhere. *)
Definition registers (l : list (Z * Z)) (sel : Z) : Z := default 0 (snd <$> find (fun r => r.1 =? sel) l).

(** The status of an idle fabric: ready, frozen, and an acknowledge bit that
    flips with every command. *)
Definition commands (h : history) : nat := length (List.filter (fun r => r.1 =? 1) (writesOf h)).
Definition idle (h : history) : Z := 20 .| bit (Nat.odd (commands h)) 512.
Definition withStatus (reg : history -> Z -> Z) (h : history) (sel : Z) : Z := if sel =? 1 then idle h else reg h sel.

(** A fabric of fixed registers. *)
Definition fixed (tick : Z) (l : list (Z * Z)) : Env :=
  bench tick (withStatus (fun _ => registers l)) None None accepts.

Lemma bench_clock tick reg bytes words ok h e l :
  let E := bench tick reg bytes words ok in 0 < tick -> env_Now h + tick <= env_Now (h ++ e :: l).
Proof. simpl. intros Ht. rewrite length_app. simpl. lia. Qed.

(** A method's outcome is enough to name its run. *)
Lemma ran {A} (m : M A) s a : (m s).1 = Ret a -> m s = (Ret a, (m s).2).
Proof. destruct (m s). simpl. by intros ->. Qed.
Lemma ran_fail {A} (m : M A) s e : (m s).1 = Fail e -> m s = (Fail e, (m s).2).
Proof. destruct (m s). simpl. by intros ->. Qed.
Lemma zero_open : open zeroCapture.
Proof. done. Qed.
Lemma zero_queueOk : queueOk zeroCapture.
Proof. done. Qed.

(** ** The SRAM *)

(** Word [x] of the memory is [x]; a fresh read's first words are noise. *)
Definition counting (x : Z) : Z := x mod 2 ^ 19.
Definition noise (_ : Z) : Z := 0xdead.
Definition reader0 : reader := Reader 0 0 [] 0.
Definition readerOf (h : history) : reader := readerRun counting noise reader0 (writesOf h).
Definition sramReg (h : history) (sel : Z) : Z :=
  if sel =? 8 then bits (pos (readerOf h)) 0 16
  else if sel =? 9 then bits (pos (readerOf h)) 16 3
  else if sel =? 12 then countReg (readerOf h)
  else if sel =? 26 then 4096
  else if sel =? 27 then (2 * countReg (readerOf h)) mod 8192
  else 0.
Definition sramBytes (h : history) (sel n : Z) : list Z :=
  slice (Z.to_nat (2 * half (readerOf h))) (Z.to_nat n) (wordBytes (buf (readerOf h))).
Definition sramBench : Env := bench 1 (withStatus sramReg) (Some sramBytes) None accepts.

Lemma sramBench_serves : @servesSRAM sramBench counting noise [] reader0.
Proof.
  split; simpl.
  - intros l x [= <-]. change (withStatus sramReg l 8) with (bits (pos (readerOf l)) 0 16).
    apply u16_fits, fits_bits; lia.
  - intros l x [= <-]. change (withStatus sramReg l 9) with (bits (pos (readerOf l)) 16 3).
    apply u16_fits, (fits_le 3), fits_bits; lia.
  - done.
  - intros pop l n b [= <-] [= <-]. done.
Qed.

(** A frozen record of eight words at the start of the memory. *)
Definition record8 : Metadata :=
  {| HasSampleTimeline := false; SampleFirst := 0; SampleLast := 0; RecordID := 0; EventEpoch := 0;
     HasRecordIdentity := false; Locked := true; Ready := true; Running := false; Frozen := true; Triggered := true;
     Prefetched := false; Length := 8; Start := 0; TriggerIndex := 4; Position := 0; Origin := 0; Revision := 11;
     MapID := QualifiedMapID; SampleRateHz := QArith_base.inject_Z 500000000; Decimation := 1; SampleBits := 8;
     FractionBits := 0; SamplesPerWord := 2; Interleaved := true; DataFault := false; HostTrigger := false |}.

(** ** The drum *)

(** Bank 0 holds the stream's words 100 to 104, bank 1 the next five; bank 0
    is ready. *)
Definition drumBank (_ : history) (b : Z) : bank := MkBank 0 (if b =? 0 then 100 else 105) 5.
Definition drumBuffer (_ : history) (i : Z) : Z := if i <? 2048 then 100 + i else 105 + (i - 2048).
Definition drumReg (h : history) (sel : Z) : Z :=
  if sel =? 13 then 11
  else if sel =? 26 then 4096
  else if sel =? 27 then pointer h
  else if sel =? 32 then 305
  else if sel =? 33 then 3
  else if sel =? 34 then 3
  else if sel =? 35 then 100
  else if sel =? 39 then 105
  else 0.
Definition drumBytes (h : history) (sel n : Z) : list Z :=
  map (fun j => byteOf (drumBuffer h) (2 * pointer h + j)) (seqZ 0 n).
Definition drumBench : Env := bench 1 (withStatus drumReg) (Some drumBytes) None accepts.

Lemma drumBench_serves : @servesDrum drumBench (fun x => x) drumBank drumBuffer 4096.
Proof.
  split.
  - done.
  - intros h b. unfold drumBank. simpl. unfold fits. destruct (b =? 0); lia.
  - intros h x b Hb [= <-]. assert (b = 0 \/ b = 1) as [->| ->] by lia; reflexivity.
  - intros h x b Hb [= <-]. assert (b = 0 \/ b = 1) as [->| ->] by lia; reflexivity.
  - intros h x b k Hb Hk [= <-].
    assert (b = 0 \/ b = 1) as [->| ->] by lia; assert (k = 0 \/ k = 1 \/ k = 2 \/ k = 3) as [->|[->|[->| ->]]] by lia;
      reflexivity.
  - intros h b i Hb Hi. unfold drumBank, drumBuffer in *. cbn [nwords first] in *. change (4096 / 2) with 2048.
    assert (b = 0 \/ b = 1) as [->| ->] by lia; cbn [Z.eqb] in *;
      repeat case_match; blia.
  - intros pop h n l [= <-] [= <-]. done.
  - by intros h x [= <-].
Qed.

(** ** The tile *)

(** Entry [i] counts [i mod 16 + 2] hits, two of them odd. *)
Definition tileOf (i : Z) : FPGAStackMoments :=
  {| Sum := (i mod 16 + 9, 1); SumSquares := (81, 0); SumOdd := (7, 0); Moments.Count := i mod 16 + 2; CountOdd := 2 |}.
Definition tileReg (h : history) (sel : Z) : Z :=
  if sel =? selStackMail then
    match mail (mailRun h) with
    | Some i => default 0 (tileWords tileOf i !! Z.to_nat (index (mailRun h)))
    | None => 0
    end
  else 0.
Definition tilePop (h : history) (sel n : Z) : list Z :=
  match mail (mailRun h) with Some i => tileWords tileOf i | None => [] end.
Definition tileBench : Env := bench 1 (withStatus tileReg) None (Some tilePop) accepts.

Lemma tileOf_wf i : wfMoments (tileOf i).
Proof. pose proof (Z.mod_pos_bound i 16). unfold wfMoments, wfLimbs, fits. simpl. lia. Qed.
Lemma tileOf_encodes i : exists w, EncodeFPGAMoments (tileOf i) = inl w.
Proof. by eexists. Qed.
Lemma tileBench_serves : @servesTile tileBench tileOf.
Proof.
  split.
  - intros h x i Hm [= <-]. change (withStatus tileReg h selStackMail) with (tileReg h selStackMail).
    unfold tileReg. rewrite Z.eqb_refl, Hm. apply u16_fits.
    destruct (tileWords_ok tileOf tileOf_wf tileOf_encodes i) as (_ & F & _).
    destruct (tileWords tileOf i !! _) eqn:Hl; [|unfold fits; simpl; lia]. by eapply Forall_lookup_1 in F.
  - intros pop h l i [= <-] Hm _ [= <-]. unfold tilePop. by rewrite Hm.
  - done.
Qed.

(** ** The event FIFO *)

Definition eventBench (record : list Z) : Env :=
  bench 1 (withStatus (fun _ => registers [(57, 1); (61, 7); (58, 1); (74, 0x4503); (75, 1)]))
    (Some (fun _ _ _ => record)) None accepts.

(** ** The panel *)

Definition panelWord (i : Z) : Z := 256 + i.
Definition panelBench : Env :=
  bench 1 (withStatus (fun h sel => if sel =? 44 then panelWord (bits (written (writesOf h) (fun _ => 0) 34) 0 4) else 0))
    None None accepts.
