(* ===== verification/Witnesses.v ===== *)
(** * Witnesses

    Each property with hypotheses, applied on the environments of Sim at a
    concrete input where its hypotheses hold. *)
From S2P Require Import Prelude Machine Fabric Bus BusSteps Command Ends Moments TrigPacket TrigSerial TrigQualify TrigSymbol.
From S2P Require Import Status Open Arm ArmRun ArmTriggers RecallSpans Recall RecallSteps Sinks RecallDevice RecallWindow Verify.
From S2P Require Import Stream DecodedEvent DecodedStream Panel StreamRun Stack StackRun StackScan Liveness Sim.

(** The run of a method, by its outcome. *)
Ltac run := first [apply ran; vm_compute; reflexivity | apply ran_fail; vm_compute; reflexivity].

(** ** Commands *)

Section commands.
#[local] Instance plain : Env := fixed 1 [].

Lemma command_acknowledged_witness :
  exists s', command 4 background 3 zeroCapture = (Ret tt, s') /\ acknowledged 3 zeroCapture s'.
Proof.
  eexists. split; [run|]. apply (command_acknowledged 4 background 3 zeroCapture tt); [done|run].
Defined.
End commands.

(** ** The trigger blocks *)

Section packet.
#[local] Instance packetImage : Env := fixed 1 [(13, 10); (109, 0x5001); (110, 1 .<< 6)].
Definition canTrigger : Packet.PacketTriggerConfig :=
  {| Packet.Enabled := true; Packet.Protocol := 6; Packet.Channel := 1; Packet.Inverted := false; Packet.Ticks := 65540;
     Packet.Aux := 70000; Packet.Pattern := 0x123456789abc; Packet.Length := 8 |}.

Lemma configurePacket_fabric_witness :
  exists s', Packet.configurePacket canTrigger zeroCapture = (Ret tt, s') /\
    fabricRuns Packet.port Packet.enabled true (Packet.run canTrigger) (fun _ => 0) [] (issued s').
Proof.
  eexists. split; [run|]. apply (configurePacket_fabric canTrigger zeroCapture tt); [|done..|run].
  unfold Packet.wf, fits. simpl. lia.
Defined.
End packet.

Section manchester.
#[local] Instance manchesterImage : Env := fixed 1 [(13, 10); (102, 0x4d01)].
Definition manchesterTrigger : Manchester.ManchesterTriggerConfig :=
  {| Manchester.Enabled := true; Manchester.Channel := 0; Manchester.Inverted := true; Manchester.IEEE := true;
     Manchester.MSB := false; Manchester.Bits := 8; Manchester.BitTicks := 0x10008; Manchester.Pattern := 0xabcd;
     Manchester.Length := 2 |}.

Lemma configureManchester_fabric_witness :
  exists s', Manchester.configureManchester manchesterTrigger zeroCapture = (Ret tt, s') /\
    fabricRuns Manchester.port Manchester.enabled true (Manchester.run manchesterTrigger) (fun _ => 0) [] (issued s').
Proof.
  eexists. split; [run|]. apply (configureManchester_fabric manchesterTrigger zeroCapture tt); [|done..|run].
  unfold Manchester.wf, fits. simpl. lia.
Defined.
End manchester.

Section serial.
#[local] Instance serialImage : Env := fixed 1 [(77, 0x5e01); (64, 0x5303); (53, 0x4902); (48, 0x5503)].
Definition sentTrigger : SENT.SENTTriggerConfig :=
  {| SENT.Enabled := true; SENT.Channel := 1; SENT.Inverted := false; SENT.PausePulse := true; SENT.TickTicks := 1500;
     SENT.Nibbles := 6; SENT.Pattern := 0x0f0a; SENT.Length := 2 |}.
Definition spiTrigger : SPI.SPITriggerConfig :=
  {| SPI.Enabled := true; SPI.ClockChannel := 1; SPI.Inverted := false; SPI.CPOL := true; SPI.CPHA := false; SPI.MSB := true;
     SPI.GapTicks := 70000; SPI.Pattern := 0xdeadbeef; SPI.Length := 4; SPI.Delay := -5 |}.
Definition i2cTrigger : I2C.I2CTriggerConfig :=
  {| I2C.Enabled := true; I2C.ClockChannel := 0; I2C.Inverted := false; I2C.Address := -1; I2C.Direction := 2;
     I2C.Pattern := 0x55aa; I2C.Length := 2; I2C.Samples := true; I2C.Delay := 3 |}.
Definition uartTrigger : UART.UARTTriggerConfig :=
  {| UART.Enabled := true; UART.Channel := 1; UART.Inverted := true; UART.BitTicks := 0; UART.Pattern := 0x41424344;
     UART.Length := 4; UART.Period16 := 0x12345; UART.Bits := 0; UART.Parity := 2; UART.Resync := true |}.

Lemma configureSENT_fabric_witness :
  exists s', SENT.configureSENT 10 sentTrigger zeroCapture = (Ret tt, s') /\
    fabricRuns SENT.port SENT.enabled true (SENT.run sentTrigger) (fun _ => 0) [] (issued s').
Proof.
  eexists. split; [run|]. apply (configureSENT_fabric 10 sentTrigger zeroCapture tt); [|done..|run].
  unfold SENT.wf, fits. simpl. lia.
Defined.

Lemma configureSPI_fabric_witness :
  exists s', SPI.configureSPI 10 spiTrigger zeroCapture = (Ret tt, s') /\
    exists capability, (true = true -> capability = SPI.spiLevels \/ capability = SPI.spiSamples) /\
      fabricRuns SPI.port SPI.enabled true (SPI.run capability (fun _ => 0) spiTrigger) (fun _ => 0) [] (issued s').
Proof.
  eexists. split; [run|]. apply (configureSPI_fabric 10 spiTrigger zeroCapture tt); [|done..|run].
  unfold SPI.wf, fits. simpl. lia.
Defined.

Lemma configureI2C_fabric_witness :
  exists s', I2C.configureI2C 10 i2cTrigger zeroCapture = (Ret tt, s') /\
    exists capability,
      (true = true -> (capability = I2C.i2cLevels \/ capability = I2C.i2cSamples) /\
                      (true = true -> capability = I2C.i2cSamples)) /\
      fabricRuns I2C.port I2C.enabled true (I2C.run capability (fun _ => 0) i2cTrigger) (fun _ => 0) [] (issued s').
Proof.
  eexists. split; [run|]. apply (configureI2C_fabric 10 i2cTrigger zeroCapture tt); [|done..|run].
  unfold I2C.wf, fits. simpl. lia.
Defined.

Lemma configureUART_fabric_witness :
  exists s', UART.configureUART 10 uartTrigger zeroCapture = (Ret tt, s') /\
    fabricRuns UART.port UART.enabled true (UART.run uartTrigger) (fun _ => 0) [] (issued s').
Proof.
  eexists. split; [run|]. apply (UART.configureUART_fabric 10 uartTrigger zeroCapture tt); [|done..|run].
  unfold UART.wf, fits. simpl. lia.
Defined.
End serial.

Section qualify.
#[local] Instance qualifyImage : Env := fixed 1 [(74, 0x5154); (75, 15)].
Definition pulse : Qualifier.QualifierConfig :=
  {| Qualifier.Enabled := true; Qualifier.Kind := 0; Qualifier.Channel := 1; Qualifier.Negative := true; Qualifier.Cond := 2;
     Qualifier.MinTicks := 0; Qualifier.MaxTicks := 900; Qualifier.Prescale := 4; Qualifier.LevelA := 100;
     Qualifier.LevelB := 140; Qualifier.Line := 625 |}.
Definition noZone : Zone.ZoneWindow :=
  {| Zone.Enabled := false; Zone.Channel := 0; Zone.Lo := 0; Zone.Hi := 0; Zone.Start := 0; Zone.End_ := 0;
     Zone.Avoid := false |}.
Definition zones : Zone.ZoneConfig :=
  {| Zone.Zones :=
       [{| Zone.Enabled := true; Zone.Channel := 1; Zone.Lo := 20; Zone.Hi := 90; Zone.Start := -700; Zone.End_ := -3;
           Zone.Avoid := true |};
        noZone; noZone;
        {| Zone.Enabled := true; Zone.Channel := 0; Zone.Lo := 1; Zone.Hi := 255; Zone.Start := 0; Zone.End_ := 12;
           Zone.Avoid := false |}];
     Zone.Wait := 300; Zone.Bucket := 16 |}.

Lemma configureQualifier_fabric_witness :
  exists s', Qualifier.configureQualifier 10 pulse zeroCapture = (Ret tt, s') /\
    fabricRuns Qualifier.port Qualifier.enabled true (Qualifier.run pulse) (fun _ => 0) [] (issued s').
Proof.
  eexists. split; [run|]. apply (Qualifier.configureQualifier_fabric 10 pulse zeroCapture tt); [|done..|run].
  unfold Qualifier.wf, fits. simpl. lia.
Defined.

Lemma configureZones_fabric_witness :
  exists s', Zone.configureZones 10 zones zeroCapture = (Ret tt, s') /\
    exists regs, issued s' = [] ++ regs /\
      let g := written regs (fun _ => 0) in
      (forall i w, Zone.Zones zones !! i = Some w -> Zone.zoneRuns g i w) /\
      bits (g 84) 0 11 = 300 /\ bits (g 85) 0 12 = 16 - 1.
Proof.
  eexists. split; [run|]. apply (Zone.configureZones_fabric 10 zones zeroCapture tt _ (fun _ => 0)); [|done..|run].
  split_and!; [done|repeat constructor; simpl; unfold fits; lia|unfold fits; simpl; lia..].
Defined.
End qualify.

(** The host's copy of the table is already the fabric's: only the block's
    own registers are written. *)
Section symbol.
Definition fives : list Z := replicate (Z.to_nat 2048) 5.
Definition heldTable : Symbol.Memory := {| Symbol.address := 0; Symbol.entries := fun _ => 5; Symbol.isLoaded := true |}.
#[local] Instance symbolImage : Env :=
  bench 1 (withStatus (fun h sel =>
    if sel =? 98 then bit (Symbol.isLoaded (Symbol.memory heldTable (writesOf h))) 1 else registers [(76, 0x5359)] sel))
    None None accepts.
Definition symbolTrigger : Symbol.SymbolTriggerConfig :=
  {| Symbol.Enabled := true; Symbol.Channel := 1; Symbol.InvA := true; Symbol.InvB := false; Symbol.AndAB := true;
     Symbol.ClockFall := false; Symbol.TwoLines := true; Symbol.Mode := 2; Symbol.LeadLen := 3; Symbol.Prescale := 5;
     Symbol.UnitQ8 := 70000; Symbol.FrameUnits := 40; Symbol.Period := 20; Symbol.Phase0 := 7; Symbol.K := 1000;
     Symbol.Pattern := 0xfedcba9876543210; Symbol.Mask := 0xffff; Symbol.Table := fives |}.
Definition holding : capture := set_symbolTable fives (set_symbolTableOK true zeroCapture).

Lemma symbolImage_flag h x :
  env_Read h Symbol.symbolLoaded = inl x -> flag x 0 = Symbol.isLoaded (Symbol.memory heldTable (writesOf h)).
Proof.
  intros [= <-]. change (withStatus _ h _) with (bit (Symbol.isLoaded (Symbol.memory heldTable (writesOf h))) 1).
  by destruct (Symbol.isLoaded _).
Qed.

End symbol.

Section sequence.
#[local] Instance sequenceImage : Env := fixed 1 [(13, 10); (73, 0x5201); (118, 0x5351)].
Definition element (k : Z) : Sequence.SequenceElement :=
  {| Sequence.Kind := k mod 5; Sequence.Value := 0x10000 + k; Sequence.Mask := 0xffffff |}.
Definition sequenceTrigger : Sequence.SequenceTriggerConfig :=
  {| Sequence.Length := 3; Sequence.Qualify := true; Sequence.EndBadValue := false;
     Sequence.Elements := map element (seqZ 0 32) |}.
Definition emptyMemory : Sequence.Memory :=
  {| Sequence.address := 0; Sequence.value := 0; Sequence.mask := 0; Sequence.elements := fun _ => (0, 0, 0) |}.

Lemma configureSequence_fabric_witness :
  exists s', Sequence.configureSequence sequenceTrigger zeroCapture = (Ret tt, s') /\
    exists regs, issued s' = [] ++ regs /\
      Sequence.port (written regs (fun _ => 0)) =
        {| Sequence.length_ := 3; Sequence.qualify := true; Sequence.end_bad_value := false |} /\
      forall k e, Sequence.used sequenceTrigger !! k = Some e ->
        Sequence.elements (Sequence.memory emptyMemory regs) (Z.of_nat k) = Sequence.stored e.
Proof.
  eexists. split; [run|].
  apply (Sequence.configureSequence_fabric sequenceTrigger zeroCapture _ emptyMemory (fun _ => 0)); [|done..|run].
  split_and!; [unfold fits; simpl; lia|done|].
  apply (proj2 (Forall_fmap _ _ _)), Forall_forall. intros k Hk. apply elem_of_seqZ in Hk.
  unfold Sequence.wfElement, fits. simpl. pose proof (Z.mod_pos_bound k 5). lia.
Defined.
End sequence.

(** ** The panel and the events *)

Section panel.
#[local] Existing Instance panelBench.

Lemma ConfigurePanel_fabric_witness :
  exists s', ConfigurePanel PanelDefault zeroCapture = (Ret tt, s') /\
    exists regs, issued s' = [] ++ regs /\ Panel.port (written regs (fun _ => 0)) = Panel.run PanelDefault /\
      forall k, (k < length regs)%nat -> written (take k regs) (fun _ => 0) 31 = 0.
Proof.
  eexists. split; [run|]. apply (ConfigurePanel_fabric PanelDefault zeroCapture tt _ (fun _ => 0)); [|done|run].
  unfold Panel.wf, fits. simpl. lia.
Defined.

Lemma ReadPanel_frame_witness :
  exists f s', ReadPanel zeroCapture = (Ret f, s') /\
    f = {| Panel.Words := [256; 257; 258; 259]; Panel.Knobs := [260; 261; 262; 263]; Panel.Frames := 264;
           Panel.Changes := 265; Panel.Pins := 266 |}.
Proof.
  do 2 eexists. split; [run|].
  refine (ReadPanel_frame panelWord zeroCapture _ _ _ _ _ _); [done| |done|run]. by intros h x [= <-].
Defined.
End panel.

Section events.
Definition event7 : DecodedEvent :=
  {| DecodedEvent.Epoch := 7; DecodedEvent.Sequence := 3; Sample := 1000; DecodedEvent.Record_ := 0; Value := 0x41;
     DecodedEvent.Count := 10; Protocol := 1; Kind := 2; Channels := 1; Valid := true; RecordValid := false |}.
Definition fifo : Env := eventBench (encode event7).
#[local] Existing Instance fifo.

Lemma ReadDecodedEventsInto_exact_witness :
  exists s', ReadDecodedEventsInto 7 4 zeroCapture = (Ret [event7], s') /\
    1 <= 4 <= DecodedBatchMax /\ batchOf 7 4 zeroCapture [event7] s'.
Proof.
  eexists. split; [run|]. apply (ReadDecodedEventsInto_exact 7 4 zeroCapture [event7]). run.
Defined.
End events.

(** ** The status *)

Section status.
(** A frozen raw record of eight words on a revision 10 image, held still. *)
Definition statusRegs : list (Z * Z) :=
  [(1, 0x74); (2, 8); (13, 10); (14, QualifiedMapID); (73, 0x5201); (15, 500); (19, 2); (28, 0); (29, 8);
   (69, 5); (71, 2); (83, 0x5401); (84, 1); (85, 114); (89, 5); (91, 2)].
#[local] Instance still : Env := bench 1 (fun _ => registers statusRegs) None None accepts.
Lemma still_answers : answers (registers statusRegs).
Proof. by split. Qed.
Definition reported : Metadata := match (status zeroCapture).1 with Ret m => m | _ => record8 end.
Lemma reported_run : status zeroCapture = (Ret reported, (status zeroCapture).2).
Proof. run. Qed.

Lemma status_timeline_witness :
  status zeroCapture = (Ret reported, (status zeroCapture).2) /\ HasSampleTimeline reported = true /\
  Ready reported = true /\ Frozen reported = true /\ HasRecordIdentity reported = true /\ Interleaved reported = true /\
  SamplesPerWord reported = 2 /\ timelineOk reported.
Proof.
  split; [apply reported_run|]. split; [by vm_compute|].
  apply (status_timeline zeroCapture reported (status zeroCapture).2); [done|apply reported_run|by vm_compute].
Defined.

Lemma status_format_witness :
  status zeroCapture = (Ret reported, (status zeroCapture).2) /\ formatOk reported.
Proof.
  split; [apply reported_run|].
  apply (status_format zeroCapture reported (status zeroCapture).2); [done|apply reported_run].
Defined.

Lemma Poll_status_witness : exists p s', Poll zeroCapture = (Ret p, s') /\ flagsOf p = flagsOf reported.
Proof.
  apply (Poll_status (registers statusRegs) still_answers zeroCapture reported (status zeroCapture).2);
    [done|apply reported_run].
Defined.

Lemma sameFrozen_status_witness : exists s', sameFrozen reported zeroCapture = (Ret reported, s').
Proof.
  destruct (sameFrozen_status (registers statusRegs) still_answers reported zeroCapture reported (status zeroCapture).2)
    as (s' & H); [done|by vm_compute|apply reported_run|by vm_compute|].
  exists s'. replace (stillFrozen reported reported) with true in H by (by vm_compute). exact H.
Defined.
End status.

(** ** Arming *)

Definition noQualifier : Qualifier.QualifierConfig :=
  {| Qualifier.Enabled := false; Qualifier.Kind := 0; Qualifier.Channel := 0; Qualifier.Negative := false;
     Qualifier.Cond := 0; Qualifier.MinTicks := 0; Qualifier.MaxTicks := 0; Qualifier.Prescale := 0;
     Qualifier.LevelA := 0; Qualifier.LevelB := 0; Qualifier.Line := 0 |}.
Definition noSymbol : Symbol.SymbolTriggerConfig :=
  {| Symbol.Enabled := false; Symbol.Channel := 0; Symbol.InvA := false; Symbol.InvB := false; Symbol.AndAB := false;
     Symbol.ClockFall := false; Symbol.TwoLines := false; Symbol.Mode := 0; Symbol.LeadLen := 0; Symbol.Prescale := 0;
     Symbol.UnitQ8 := 0; Symbol.FrameUnits := 0; Symbol.Period := 0; Symbol.Phase0 := 0; Symbol.K := 0;
     Symbol.Pattern := 0; Symbol.Mask := 0; Symbol.Table := [] |}.
Definition noPacket : Packet.PacketTriggerConfig :=
  {| Packet.Enabled := false; Packet.Protocol := 0; Packet.Channel := 0; Packet.Inverted := false; Packet.Ticks := 0;
     Packet.Aux := 0; Packet.Pattern := 0; Packet.Length := 0 |}.
Definition noManchester : Manchester.ManchesterTriggerConfig :=
  {| Manchester.Enabled := false; Manchester.Channel := 0; Manchester.Inverted := false; Manchester.IEEE := false;
     Manchester.MSB := false; Manchester.Bits := 0; Manchester.BitTicks := 0; Manchester.Pattern := 0;
     Manchester.Length := 0 |}.
(** A UART capture with its decoded events. *)
Definition uartCapture : Config :=
  {| Arm.Qualifier := noQualifier; Arm.Zones := {| Zone.Zones := [noZone; noZone; noZone; noZone]; Zone.Wait := 0; Zone.Bucket := 0 |};
     Arm.Symbol := noSymbol;
     Arm.Sequence := {| Sequence.Length := 0; Sequence.Qualify := false; Sequence.EndBadValue := false;
                    Sequence.Elements := map element (seqZ 0 32) |};
     Arm.Packet := noPacket; Arm.Manchester := noManchester;
     Arm.USBLS := {| USBLS.Enabled := false; USBLS.Channel := 0; USBLS.Inverted := false; USBLS.BitTicksQ8 := 0;
                 USBLS.Pattern := 0; USBLS.Length := 0 |};
     Arm.MIL1553 := {| MIL1553.Enabled := false; MIL1553.Channel := 0; MIL1553.Inverted := false; MIL1553.BitTicks := 0;
                   MIL1553.Pattern := 0; MIL1553.MatchAny := false |};
     Arm.SENT := {| SENT.Enabled := false; SENT.Channel := 0; SENT.Inverted := false; SENT.PausePulse := false;
                SENT.TickTicks := 0; SENT.Nibbles := 0; SENT.Pattern := 0; SENT.Length := 0 |};
     Arm.DecodedEvents := true;
     Arm.SPI := {| SPI.Enabled := false; SPI.ClockChannel := 0; SPI.Inverted := false; SPI.CPOL := false; SPI.CPHA := false;
               SPI.MSB := false; SPI.GapTicks := 0; SPI.Pattern := 0; SPI.Length := 0; SPI.Delay := 0 |};
     Arm.I2C := {| I2C.Enabled := false; I2C.ClockChannel := 0; I2C.Inverted := false; I2C.Address := 0; I2C.Direction := 0;
               I2C.Pattern := 0; I2C.Length := 0; I2C.Samples := false; I2C.Delay := 0 |};
     Arm.UART := uartTrigger; Arm.Source := ADC; Arm.DecimationLog2 := 0; Arm.Pick := false; Arm.Pair := 0; Arm.PreWords := 100;
     Arm.PostWords := 70000; Arm.Normal := true; Arm.Falling := true; Arm.TriggerChannel := 1; Arm.TriggerLevel := 128;
     Arm.TriggerHysteresis := 4; Arm.SecondLevel := 0; Arm.SliceLines := false |}.

Lemma Check_exclusive_witness : exclusive uartCapture.
Proof. apply (Check_exclusive uartCapture). reflexivity. Defined.

Section arming.
Definition uartImage : Env := fixed 1 [(13, 10); (48, 0x5503); (63, 0x4501); (61, 7)].
#[local] Existing Instance uartImage.


End arming.

(** A bus that refuses the receiver's writes: the arm fails with its queue
    part-written. *)
Section failing.
Definition refusing : Env :=
  bench 1 (withStatus (fun _ => registers [(13, 10); (48, 0x5503); (63, 0x4501); (61, 7)])) None None
    (fun _ sel _ => if sel =? 50 then Some (EBus 5) else None).
#[local] Existing Instance refusing.

Lemma Arm_closes_witness :
  exists s', Arm 4 background uartCapture zeroCapture = (Fail (EBus 5), s') /\ open s' /\
    (forall e, Check uartCapture = Some e -> Fail (A := unit) (EBus 5) = Fail e /\ s' = zeroCapture).
Proof.
  eexists. split; [run|]. apply (Arm_closes 4 background uartCapture zeroCapture (Fail (EBus 5))); [apply zero_open|run|done].
Defined.
End failing.

(** ** Recalls *)

Section recall.
#[local] Existing Instance sramBench.


Lemma counterRecall_memory_witness :
  exists s', recallFrozen 4 background record8 0 3 SCounter false zeroCapture = (Ret 12, s') /\
    12 = 4 * 3 /\ forall i, 0 <= i < 3 -> counting ((0 + 0 + i) mod Status.Words) = i.
Proof.
  eexists. split; [run|].
  refine (counterRecall_memory 4 counting noise reader0 _ background record8 3 false zeroCapture 12 _ zero_open _ _ _ _
            sramBench_serves _ _ _); [reflexivity|done..| | |run]; [|done].
  intros x. unfold fits, counting. pose proof (Z.mod_pos_bound x (2 ^ 19)). lia.
Defined.
End recall.

(** The device's DMA fails: the recall fails after its command. *)
Section broken.
Definition brokenDMA : Env :=
  bench 1 (fun h sel => if sel =? 27 then 1 else withStatus sramReg h sel) (Some sramBytes) None accepts.
#[local] Existing Instance brokenDMA.

Lemma recallFrozen_closes_witness :
  exists e s', recallFrozen 4 background record8 0 3 (SExt 1) false zeroCapture = (Fail e, s') /\ open s'.
Proof.
  do 2 eexists. split; [run|].
  refine (recallFrozen_closes 4 background record8 0 3 (SExt 1) false zeroCapture _ _ zero_open _ _); [run|done].
Defined.
End broken.

(** ** Streams *)

Section stream.
#[local] Existing Instance drumBench.


Lemma DrainStream_fails_held_witness :
  exists e s', DrainStream background 102 (SExt 1) zeroCapture = (Fail e, s') /\ released (trace s') = released [].
Proof.
  do 2 eexists. split; [run|].
  refine (DrainStream_fails_held background 102 (SExt 1) zeroCapture _ _ zero_open _). run.
Defined.

Lemma DrainStream_ends_witness :
  ends (DrainStream background 100 (SExt 1) zeroCapture).1 /\
  streamWords (DrainStream background 100 (SExt 1) zeroCapture).2 <=
    streamCap (DrainStream background 100 (SExt 1) zeroCapture).2.
Proof. apply (DrainStream_ends background 100 (SExt 1) zeroCapture); [done|simpl; lia]. Defined.
End stream.

(** ** Stacking *)

Section stacking.
#[local] Existing Instance tileBench.

Lemma StackDownload_tile_witness :
  exists s', StackDownload 4 background 2 zeroCapture = (Ret [tileOf 0; tileOf 1], s') /\
    [tileOf 0; tileOf 1] = map tileOf (seqZ 0 2) /\
    Forall (fun m => CountOdd m <= Moments.Count m) [tileOf 0; tileOf 1].
Proof.
  eexists. split; [run|].
  refine (StackDownload_tile 4 tileOf tileOf_wf tileOf_encodes tileBench_serves 2 _ _ background zeroCapture _ _ zero_open _);
    [done|done|run].
Defined.
End stacking.

Section scanning.
(** The grant comes and goes at once. *)
Definition scanImage : Env :=
  bench 1 (withStatus (fun h sel =>
    if sel =? 109 then bit (written (writesOf h) (fun _ => 0) 109 =? 1) 2
    else registers [(2, 8); (13, 5); (113, StackCapabilityID); (114, 1024); (124, 64); (115, 3); (117, 9)] sel))
    None None accepts.
#[local] Existing Instance scanImage.

Lemma StackScan_grant_witness :
  exists s', StackScan 4 background 0 100 5 zeroCapture = (Ret (3, 9, 0), s') /\
    let grid := length (gridWrites 0 100 5) in
    open s' /\ exists k, attemptsOf (trace s') = attemptsOf [] ++ take k (scanWrites 0 100 5) /\
      (k <= grid + 1 \/ k = grid + 3)%nat /\
      (forall r, Ret (3, 9, 0) = Ret r -> k = (grid + 3)%nat /\
         exists h x, trace s' = h ++ [EvRead selStackGrant (inl x)] /\ has (u16 x) 2 = false).
Proof.
  eexists. split; [run|].
  refine (StackScan_grant 4 background 0 100 5 zeroCapture (Ret (3, 9, 0)) _ zero_open _ _); [run|done].
Defined.

Definition session : StackConfig :=
  {| Stack.Channel := 1; Stack.Falling := true; Level := 128; Hysteresis := 3; PreSamples := 70000; MinSeparation := 12;
     Bins := 1000; Factor := 8; ChannelMask := 3; Template := [10; 200; 30]; TemplateStride := 4; TemplatePre := 5;
     TemplateThreshold := 90000 |}.

Lemma StackBegin_fabric_witness :
  exists s', StackBegin session zeroCapture = (Ret 1024, s') /\
    exists regs, issued s' = [] ++ regs /\ port (written regs (fun _ => 0)) = run session /\
      (Template session <> [] -> qualifierPort (written regs (fun _ => 0)) = runQualifier session) /\
      forall k x, Template session !! k = Some x ->
        StackScan.ram (templateRun (Build_templateRAM 0 (fun _ => 0)) regs) (Z.of_nat k) = x.
Proof.
  eexists. split; [run|].
  refine (StackBegin_fabric session zeroCapture 1024 _ (Build_templateRAM 0 (fun _ => 0)) (fun _ => 0) _ _ _ zero_queueOk _);
    [by intros h x [= <-]|unfold Stack.wf, fits; simpl; lia| |run].
  unfold wfTemplate, fits. simpl. repeat constructor; simpl; lia.
Defined.
End scanning.

(** ** Endings *)

Section endings.
(** Every access takes a second. *)
Definition slow : Env := fixed second [].
#[local] Existing Instance slow.

Lemma slow_clock h e l : env_Now h + second <= env_Now (h ++ e :: l).
Proof. by apply (bench_clock second). Qed.

Lemma Arm_ends_witness : lasts second 2 second /\ ends (Arm 2 background uartCapture zeroCapture).1.
Proof.
  split; [unfold lasts, second; lia|].
  apply (Arm_ends second); [done|apply slow_clock|unfold lasts, second; lia].
Defined.


Lemma StackScan_ends_witness :
  lasts second 6 (5 * second) /\ ends (StackScan 6 background 0 100 5 zeroCapture).1.
Proof.
  split; [unfold lasts, second; lia|].
  apply (StackScan_ends second); [done|apply slow_clock|done|unfold lasts, second; lia].
Defined.
End endings.

(** ** Pure codecs *)

Lemma moments_decode_encode_witness :
  exists w, EncodeFPGAMoments (tileOf 3) = inl w /\ DecodeFPGAMoments w = inl (tileOf 3).
Proof.
  eexists. split; [vm_compute; reflexivity|].
  apply (moments_decode_encode (tileOf 3)); [apply tileOf_wf|vm_compute; reflexivity].
Defined.

Lemma moments_encode_decode_witness :
  DecodeFPGAMoments (tileWords tileOf 3) = inl (tileOf 3) /\
  wfMoments (tileOf 3) /\ EncodeFPGAMoments (tileOf 3) = inl (tileWords tileOf 3).
Proof.
  split; [vm_compute; reflexivity|].
  apply (moments_encode_decode (tileWords tileOf 3)); [|vm_compute; reflexivity].
  apply (tileWords_ok tileOf tileOf_wf tileOf_encodes 3).
Defined.

(** The low limbs carry. *)
Lemma AddFPGAMoments_exact_witness :
  let a := {| Sum := (2 ^ 64 - 1, 5); SumSquares := (81, 0); SumOdd := (7, 0); Moments.Count := 2 ^ 32 - 1; CountOdd := 2 |} in
  wfMoments (AddFPGAMoments a (tileOf 0)) /\
  limbsVal (Sum (AddFPGAMoments a (tileOf 0))) = (limbsVal (Sum a) + limbsVal (Sum (tileOf 0))) mod 2 ^ 128 /\
  limbsVal (SumSquares (AddFPGAMoments a (tileOf 0))) =
    (limbsVal (SumSquares a) + limbsVal (SumSquares (tileOf 0))) mod 2 ^ 128 /\
  limbsVal (SumOdd (AddFPGAMoments a (tileOf 0))) = (limbsVal (SumOdd a) + limbsVal (SumOdd (tileOf 0))) mod 2 ^ 128 /\
  Moments.Count (AddFPGAMoments a (tileOf 0)) = (Moments.Count a + Moments.Count (tileOf 0)) mod 2 ^ 32 /\
  CountOdd (AddFPGAMoments a (tileOf 0)) = (CountOdd a + CountOdd (tileOf 0)) mod 2 ^ 32.
Proof.
  intros a. apply (AddFPGAMoments_exact a (tileOf 0)); [|apply tileOf_wf].
  unfold wfMoments, wfLimbs, fits. simpl. lia.
Defined.

Lemma counterWrite_reference_witness :
  isBytes (wordBytes [7; 8; 9]) /\ counterWrite 7 (wordBytes [7; 8; 9]) = counterReference 7 (wordBytes [7; 8; 9]).
Proof.
  split; [apply isBytes_wordBytes|].
  apply (counterWrite_reference 7 (wordBytes [7; 8; 9])); [apply isBytes_wordBytes|unfold fits; lia].
Defined.

(** A wrap at 32 bits. *)
Lemma counterWrite_exact_witness :
  counterWrite (2 ^ 32 - 1) (wordBytes [2 ^ 32 - 1; 0; 1]) = ((12, None), 2) <->
  exists j, wordBytes [2 ^ 32 - 1; 0; 1] = wordBytes (counterWordsFrom (2 ^ 32 - 1) j) /\
    2 = u32 (2 ^ 32 - 1 + Z.of_nat j).
Proof.
  apply (counterWrite_exact (2 ^ 32 - 1) (wordBytes [2 ^ 32 - 1; 0; 1]) 2); [apply isBytes_wordBytes|unfold fits; lia].
Defined.
