(* ===== verification/WorkerWitnesses.v ===== *)
(** * Witnesses of the worker's and the transcript's properties

    Each applied at a concrete input: a UART transcript, a drum whose first
    bank holds the stream's first words, a worker with a small ring. *)
From S2P Require Import Prelude Circular Machine Fabric Bus BusSteps Command DecodedEvent Lines LinesRun LinesWire.
From S2P Require Import Status Open Arm Recall RecallSteps Sinks RecallDevice Stream StreamRun DecodedStream Panel Stack.
From S2P Require Import WorkerRing WorkerDrain Worker WorkerHandle WorkerServe WorkerInv WorkerProtocol.
From S2P Require Import WorkerClient WorkerLink WorkerStream WorkerFifo Sim.

(** A method's outcome is enough to name its run, whatever its state. *)
Lemma ranIn {S A} (m : SE S A) s a : (m s).1 = Ret a -> m s = (Ret a, (m s).2).
Proof. destruct (m s). simpl. by intros ->. Qed.

(** ** The worker *)

Section drum.
(** Bank 0 holds the stream's first five words, until its release. *)
Definition earlyBank (_ : history) (b : Z) : bank := MkBank 0 (if b =? 0 then 0 else 5) 5.
Definition earlyBuffer (_ : history) (i : Z) : Z := if i <? 2048 then i else 5 + (i - 2048).
Definition earlyReg (h : history) (sel : Z) : Z :=
  if sel =? 35 then 0 else if sel =? 39 then 5
  else if (sel =? 32) && existsb (fun r => r.1 =? 20) (writesOf h) then 304 else drumReg h sel.
Definition earlyBytes (h : history) (sel n : Z) : list Z :=
  map (fun j => byteOf (earlyBuffer h) (2 * pointer h + j)) (seqZ 0 n).
#[local] Instance earlyBench : Env := bench 1 (withStatus earlyReg) (Some earlyBytes) None accepts.
#[local] Instance earlyHardware : Hardware := {|
  hw_Dev := false; hw_FastDrain := true;
  hw_Pop := fun h sel n => inl (earlyBytes h sel n); hw_Pop_bus := eq_refl;
  hw_Read3 := fun _ _ => inl 0; hw_Write3 := fun _ _ _ => None;
  hw_StartDeadline := fun _ => inl false; hw_CloseDeadline := fun _ => None; hw_Pin := fun _ => false;
  hw_ErrorText := fun _ => text "failed"; hw_Convert := fun _ => 0
|}.
Definition smallWorker (q b : list Z) : worker :=
  Worker zeroCapture (EventQueue false 0 None 0 0 0 q) (LineMode false None None)
    (StreamRing false 0 0 0 0 None (replicate 64 0) true) noPace false b.

(** Buffers of the sizes the code has, without their cells. *)
Lemma buffers : exists q b : list Z, length q = Z.to_nat (workerQueueEvents * 32) /\ length b = Z.to_nat (workerHeader + workerPayload).
Proof. eexists (replicate _ 0), (replicate _ 0). by rewrite !length_replicate. Qed.
Lemma small_ok q b :
  length q = Z.to_nat (workerQueueEvents * 32) -> length b = Z.to_nat (workerHeader + workerPayload) -> workerOk (smallWorker q b).
Proof. intros Hq Hb. split; [|by split]. unfold queueOk, workerQueueEvents in *. cbn. split; [lia|]. split; [lia|exact Hq]. Qed.

Lemma early_serves : @servesDrum earlyBench u64 earlyBank earlyBuffer 4096.
Proof.
  split.
  - done.
  - intros h b. unfold earlyBank. simpl. unfold fits. destruct (b =? 0); lia.
  - intros h x b Hb [= <-]. unfold withStatus, earlyReg. cbn [Z.eqb andb Pos.eqb].
    assert (b = 0 \/ b = 1) as [->| ->] by lia; destruct (existsb _ _); reflexivity.
  - intros h x b Hb [= <-]. unfold withStatus, earlyReg. cbn [Z.eqb andb Pos.eqb].
    assert (b = 0 \/ b = 1) as [->| ->] by lia; destruct (existsb _ _); reflexivity.
  - intros h x b k Hb Hk [= <-].
    assert (b = 0 \/ b = 1) as [->| ->] by lia; assert (k = 0 \/ k = 1 \/ k = 2 \/ k = 3) as [->|[->|[->| ->]]] by lia;
      reflexivity.
  - intros h b i Hb Hi. unfold earlyBank, earlyBuffer in *. cbn [nwords first] in *. change (4096 / 2) with 2048.
    rewrite u64_fits by (unfold fits; destruct (b =? 0); lia).
    assert (b = 0 \/ b = 1) as [->| ->] by lia; cbn [Z.eqb] in *;
      repeat case_match; blia.
  - intros pop h n l [= <-] [= <-]. done.
  - by intros h x [= <-].
Qed.
Lemma early_plain : plainErrors.
Proof. split; [done..|]. intros pop h s n e [= <-] [=]. Qed.

(** A look at the drum and a reply of two words. *)
Lemma stream_fifo_witness :
  exists seen taken w, length seen = 1%nat /\ sFault (stream_ w) = None /\ sCount (stream_ w) = 12 /\
    Forall (trueSight u64) seen /\ taken = streamBytes u64 0 (Z.of_nat (length taken) / 4) /\
    (sFault (stream_ w) = None ->
     sFirst (stream_ w) = u64 (Z.of_nat (length taken) / 4) /\
     ringBytes (stream_ w) = streamBytes u64 (sFirst (stream_ w)) (sCount (stream_ w) / 4) /\
     sExpected (stream_ w) = u64 (sFirst (stream_ w) + sCount (stream_ w) / 4)).
Proof.
  destruct buffers as (q & b & Hq & Hb). set (w0 := smallWorker q b).
  assert ((streamPumpOn true w0).1 = Ret tt) as R1 by (vm_compute; reflexivity). apply ranIn in R1. set (w1 := (streamPumpOn true w0).2) in R1.
  assert ((streamPump w1).1 = Ret tt) as R2 by (vm_compute; reflexivity). apply ranIn in R2. set (w2 := (streamPump w1).2) in R2.
  set (h := Header 8 1 0 0 16 0).
  assert ((handleStreamWords h w2).1 = Ret 16) as R3 by (vm_compute; reflexivity). apply ranIn in R3. set (w3 := (handleStreamWords h w2).2) in R3.
  assert (streamRun 0 4096 [] [] w2) as Hlook.
  { apply (run_look 0 4096 [] [] w1 tt w2); [|exact R2]. apply (run_start 0 4096 w0 tt w1); [|exact (small_ok q b Hq Hb)| |exact R1].
    - split; [exact zero_open|by left].
    - right. split; [reflexivity|reflexivity]. }
  assert (forall x, u64 (u64 x) = u64 x) as Hwraps by (intros x; unfold u64; by rewrite Z.mod_mod).
  assert (sFault (stream_ w3) = None /\ sCount (stream_ w3) = 12) as [F3 C3] by (vm_compute; split; reflexivity).
  assert (count_ h <= workerPayload) as Hh by done.
  pose proof (run_words 0 4096 [] [] w2 h 16 w3 Hlook Hh R3) as Hrun. clearbody w3. cbv zeta in Hrun.
  eexists _, _, w3. split; [|split; [exact F3|split; [exact C3|]]];
    [|exact (stream_fifo 0 u64 earlyBank earlyBuffer 4096 early_serves (or_introl eq_refl) Hwraps early_plain _ _ w3 Hrun)].
  reflexivity.
Defined.


(** A turn that answers a ready request. *)
Definition ready : list Z := requestBytes workerHello workerHello 1 0 0 1 0 [].
#[local] Instance readySocket : Socket := {|
  sock_Read := fun _ => inl ready; sock_Write := fun _ _ => inl 25; sock_Poll := fun _ _ _ => inl 1 |}.
End drum.

(** ** Line transcripts *)

(** Twenty UART bytes and one in error. *)
Definition uartEvent (sample value kind : Z) : DecodedEvent :=
  MkDecodedEvent 1 0 sample 0 value 1 1 kind 1 (kind =? EventData) false.
Definition uartBytes : list DecodedEvent := 
  Eval cbv in map (fun i => uartEvent (10 * i) (65 + i) (if i =? 18 then EventError else EventData)) (seqZ 0 21).
Lemma uartBytes_wf : Forall wfEvent uartBytes /\ Forall (startOk 1) uartBytes.
Proof.
  split; repeat apply Forall_cons_2; try apply Forall_nil_2; vm_compute; repeat split; discriminate || done.
Qed.
Lemma Add_units_witness :
  exists H t, Add uartBytes (Lines.New 1 16) = (Ret tt, t) /\ ok H t /\ goods H t = concat (map (unitOf 1) uartBytes) /\
    u64 (Events t) = u64 (Z.of_nat (length uartBytes)) /\ u64 (Units t) = u64 (countKind EventData uartBytes) /\
    u64 (Lost t) = u64 (lostIn uartBytes) /\ u64 (Errors t + Cut t) = u64 (countKind EventError uartBytes).
Proof. exact (Add_units 1 16 uartBytes (proj1 uartBytes_wf) (proj2 uartBytes_wf) eq_refl). Defined.

(** The transcript of those bytes. *)
Definition uartLines : Transcript := Eval vm_compute in (Add uartBytes (Lines.New 1 16)).2.
Lemma uartLines_run : Add uartBytes (Lines.New 1 16) = (Ret tt, uartLines).
Proof. vm_compute. reflexivity. Qed.
Lemma uartLines_ok : exists H, ok H uartLines /\ Z.of_nat (length H) < 2 ^ 31.
Proof.
  destruct (Add_does uartBytes [] (Lines.New 1 16)) as (H & t & R & O & L & _); [apply ok_New|vm_compute; reflexivity|exact (proj1 uartBytes_wf)|exact (proj2 uartBytes_wf)|].
  pose proof (eq_trans (eq_sym R) uartLines_run) as Heq. apply (f_equal snd) in Heq. cbn [snd] in Heq. subst t. exists H. split; [exact O|]. destruct L as [L _]. cbn in L. lia.
Qed.
Lemma uartLines_totals : wfTotals uartLines.
Proof. vm_compute. repeat split; discriminate. Qed.

Lemma DecodeLines_EncodeLines_witness :
  exists H b k, EncodeLines 0 4096 uartLines = (Ret b, set_hint false uartLines) /\ Z.of_nat (length b) <= 4096 /\
    DecodeLines b = inl (batchAt H uartLines 0 k) /\ firstLine uartLines 0 + Z.of_nat k <= Next uartLines /\
    (firstLine uartLines 0 < Next uartLines -> batchHeader + MaxLineBytes <= 4096 -> (0 < k)%nat).
Proof.
  destruct uartLines_ok as (H & (Hb & Hw & _) & Hl). exists H.
  apply (DecodeLines_EncodeLines true H uartLines 0 4096); [exact Hb|exact Hw|apply uartLines_totals|exact Hl|done].
Defined.

(** The reader fetches them once. *)
Lemma reader_mirrors_witness :
  exists s, Next s.1 = 1 /\ Next s.2 = 1 /\
    (forall i l, Base s.1 <= i < Next s.1 -> Base s.2 <= i < Next s.2 ->
       At s.2 (i - Base s.2) = Some l -> At s.1 (i - Base s.1) = Some l) /\
    Next s.2 <= Next s.1 /\
    exists s', fetches (Z.to_nat (Next s.1 - Next s.2)) 4096 s = (Ret tt, s') /\ Next s'.2 = Next s.1.
Proof.
  exists (fetch 4096 (uartLines, Lines.New 1 8)).2. split; [vm_compute; reflexivity|]. split; [vm_compute; reflexivity|].
  apply (reader_mirrors 4096 21 1 16 8); [done|done|].
  apply (run_fetch 4096 21 (Lines.New 1 16, Lines.New 1 8) (uartLines, Lines.New 1 8) (fetch 4096 (uartLines, Lines.New 1 8)).1).
  - apply (run_add 4096 0 (Lines.New 1 16, Lines.New 1 8) (Lines.New 1 16) (Lines.New 1 8) uartBytes uartLines);
      [apply run_nil|exact (proj1 uartBytes_wf)|exact (proj2 uartBytes_wf)|exact uartLines_run].
  - by destruct (fetch _ _).
Defined.
