(* ===== verification/Files.v ===== *)
(** * Files that survive a power cut

    The operating system under the update agent: the file calls src/ota makes,
    over a disk of names and inodes, with what a power cut may leave of it;
    and the history of everything else the agent asks of the system.

    A write reaches the medium when its file is synced, a name when its
    directory is; until then a cut leaves a file's content arbitrary, and the
    names those of some earlier moment since the last directory sync. Every
    disk a run goes through is kept in [hist] (ghost), so that a theorem can
    speak of a cut at any moment. Directories are not in the model: a path
    that lacks one is an error of the system. *)
From S2P Require Import Prelude Circular Machine.

(** ** Paths (path/filepath)

    A path in the form [Clean] leaves it: rooted or not, and its elements. *)
Abbreviation path := (bool * list string)%type.

(** The elements of a string between slashes, accumulated in [acc]. *)
Fixpoint split (s acc : string) : list string :=
  match s with
  | EmptyString => [acc]
  | String c s => if Ascii.eqb c (Ascii.ascii_of_nat 47) then acc :: split s EmptyString
                  else split s (acc +:+ String c EmptyString)
  end.

(** One more element, over the reversed ones so far. *)
Definition element (rooted : bool) (acc : list string) (e : string) : list string :=
  if decide (e = "" \/ e = ".") then acc
  else if decide (e = "..") then
    match acc with
    | a :: rest => if decide (a = "..") then e :: acc else rest
    | [] => if rooted then [] else [e]
    end
  else e :: acc.

Definition Clean (s : string) : path :=
  let rooted := match s with String c _ => Ascii.eqb c (Ascii.ascii_of_nat 47) | _ => false end in
  (rooted, rev (foldl (element rooted) [] (split s ""))).

Definition IsAbs (p : path) : bool := p.1.
(** [filepath.Join(p, e)], [filepath.Dir] *)
Definition Join (p : path) (e : string) : path := (p.1, rev (foldl (element p.1) (rev p.2) (split e ""))).
Definition Dir (p : path) : path := (p.1, removelast p.2).
(** [path + s] *)
Definition plus (p : path) (s : string) : path :=
  match rev p.2 with
  | [] => (p.1, [(if p.1 then "" else ".") +:+ s])
  | e :: rest => (p.1, rev ((e +:+ s) :: rest))
  end.

(** ** The disk *)

Record file := File {
  data : list Z;
  synced : bool (* the medium holds this content *);
  mtime : Z;
  mode : Z
}.

Record disk := Disk {
  names : gmap path Z (* the name of each inode *);
  inodes : gmap Z file;
  past : list (gmap path Z) (* the names before each change since the last directory sync *)
}.

(** A file as its path shows it now. *)
Definition at_ (d : disk) (p : path) : option file := names d !! p ≫= fun i => inodes d !! i.

(** What the disk may show after a power cut now. *)
Definition cutTo (d : disk) (v : gmap path (list Z)) : Prop :=
  exists ns content, ns ∈ names d :: past d /\
    (forall i f, inodes d !! i = Some f -> synced f = true -> content i = data f) /\ v = content <$> ns.

(** ** The system's history *)

Inductive call :=
| COpen (p : path) | CCreate (p : path) | CRead (i pos : Z) | CWrite (i off n : Z) | CSync (i : Z) | CClose (i : Z)
| CRename (p q : path) | CRemove (p : path) | CStat (p : path) | CChmod (p : path) (m : Z) | CMkdir (p : path)
| COpenDir (p : path) | CSyncDir (p : path).

(** A control request to the supervisor, and what its select takes next. *)
Inductive ctlOp := opStart | opStop | opRestart.
Inductive wake := WStopped | WExit (e : option err) | WCtl (op : ctlOp) | WTick.

(** A process that holds a device node. *)
Record Holder := { PID : Z; Comm : string; Exe : string }.

Inductive osEvent :=
| EvFile (c : call) (r : option err)
| EvToken (r : option (Z * Z)) | EvTokenRead (r : list Z) | EvTokenRemove (* the health token *)
| EvSelect (w : wake)
| EvStart (bin : path) (r : Z + err)
| EvAlive (pid : Z) (r : bool)
| EvKill (pid : Z) (force : bool) (r : option err)
| EvHolders (l : list Holder)
| EvVxi (cmd : string) (r : option err)
| EvReg (sel : Z) (r : Z + err)
| EvSleepFor (ns : Z)
| EvRequest (op : ctlOp) (r : option err) (* ctlRequest, as its caller sees it *)
| EvGo (f : string) (* a goroutine started *)
| EvAcquire (r : option err) | EvDisarm (* the watchdog *)
| EvNotify (kind : string) (slot : string) (* a.event *).

(** What the system answers, a function of the history. *)
Class OsEnv := {
  os_Err : list osEvent -> call -> option err (* a file call's own failure *);
  os_Count : list osEvent -> Z (* the bytes a failing write got through *);
  os_Now : list osEvent -> Z (* time.Now, ns *);
  os_Token : list osEvent -> option (Z * Z) (* the token's time and size *);
  os_TokenData : list osEvent -> list Z;
  os_Stopped : list osEvent -> bool (* the agent's stopped channel is closed *);
  os_Select : list osEvent -> wake;
  os_Start : list osEvent -> path -> Z + err;
  os_Alive : list osEvent -> Z -> bool;
  os_Kill : list osEvent -> Z -> option err;
  os_Holders : list osEvent -> list Holder (* of the GPMC's node *);
  os_Parent : list osEvent -> Z -> Z (* fdinherit.PPid *);
  os_Links : list osEvent -> string -> option path (* filepath.EvalSymlinks *);
  os_Vxi : list osEvent -> string -> option err;
  os_Reg : list osEvent -> Z -> Z + err;
  os_Request : list osEvent -> ctlOp -> option err;
  os_Acquire : list osEvent -> option err;
}.

Record os := Os {
  cur : disk;
  hist : list disk (* the disk after each change (ghost) *);
  oslog : list osEvent;
  nextIno : Z
}.

Definition enter (e : osEvent) (o : os) : os := Os (cur o) (hist o) (oslog o ++ [e]) (nextIno o).
Definition onto (d : disk) (o : os) : os := Os d (hist o ++ [d]) (oslog o) (nextIno o).

Abbreviation F := (SE os).

(** ** The calls *)

Section Calls.
Context {E : OsEnv}.

Definition note (e : osEvent) : F unit := modify (enter e).
Definition Now : F Z := gets (fun o => os_Now (oslog o)).

(** A call's own failure. *)
Definition sys (c : call) : F unit :=
  r ← gets (fun o => os_Err (oslog o) c); note (EvFile c r);; liftErr r.

Definition ENOENT : err := EMsg "file does not exist" [].

(** The inode a name leads to. *)
Definition find (p : path) : F Z :=
  i ← gets (fun o => names (cur o) !! p);
  match i with Some i => mret i | None => fail ENOENT end.
Definition fileOf (o : os) (i : Z) : file := default (File [] false 0 0) (inodes (cur o) !! i).

Definition setFile (i : Z) (f : file) : F unit :=
  modify (fun o => onto (Disk (names (cur o)) (<[i := f]> (inodes (cur o))) (past (cur o))) o).
Definition setNames (ns : gmap path Z) : F unit :=
  modify (fun o => onto (Disk ns (inodes (cur o)) (past (cur o) ++ [names (cur o)])) o).

(** [os.Open] *)
Definition open (p : path) : F Z := sys (COpen p);; find p.

(** [os.OpenFile(p, O_CREATE|O_TRUNC|..., m)] *)
Definition create (p : path) (m : Z) : F Z :=
  sys (CCreate p);;
  t ← Now;
  old ← gets (fun o => names (cur o) !! p);
  match old with
  | Some i => f ← gets (fun o => fileOf o i); setFile i (File [] false t (mode f));; mret i
  | None =>
      i ← gets nextIno;
      modify (fun o => Os (cur o) (hist o) (oslog o) (nextIno o + 1));;
      setFile i (File [] false t m);;
      ns ← gets (fun o => names (cur o)); setNames (<[p := i]> ns);;
      mret i
  end.

(** At most [n] bytes at [pos]; a regular file gives all it has. *)
Definition pread (i pos n : Z) : F (list Z) :=
  sys (CRead i pos);;
  gets (fun o => slice (Z.to_nat pos) (Z.to_nat n) (data (fileOf o i))).

(** [l] with [d] written at [off]: a hole reads as zeroes. *)
Definition overlay (off : nat) (d l : list Z) : list Z :=
  match d with
  | [] => l
  | _ => take off (l ++ replicate (off - length l) 0) ++ d ++ drop (off + length d) l
  end.

(** [f.WriteAt(d, off)], its count beside its error. *)
Definition pwrite (i off : Z) (d : list Z) : F (Z * option err) :=
  if off <? 0 then mret (0, Some (EMsg "negative offset" []))
  else match d with
  | [] => mret (0, None)
  | _ =>
      r ← attempt (sys (CWrite i off (Z.of_nat (length d))));
      k ← match r with
          | inl _ => mret (Z.of_nat (length d))
          | inr _ => gets (fun o => Z.max 0 (Z.min (os_Count (oslog o)) (Z.of_nat (length d))))
          end;
      t ← Now;
      f ← gets (fun o => fileOf o i);
      setFile i (File (overlay (Z.to_nat off) (take (Z.to_nat k) d) (data f)) false t (mode f));;
      mret (k, match r with inl _ => None | inr e => Some e end)
  end.

Definition fsync (i : Z) : F unit :=
  sys (CSync i);; f ← gets (fun o => fileOf o i); setFile i (File (data f) true (mtime f) (mode f)).
Definition close (i : Z) : F unit := sys (CClose i).

Definition rename (p q : path) : F unit :=
  sys (CRename p q);; i ← find p;
  ns ← gets (fun o => names (cur o)); setNames (<[q := i]> (delete p ns)).
Definition remove (p : path) : F unit :=
  sys (CRemove p);; find p;; ns ← gets (fun o => names (cur o)); setNames (delete p ns).

(** [os.Stat]: inode, size and time. *)
Definition stat (p : path) : F (Z * Z * Z) :=
  sys (CStat p);; i ← find p;
  f ← gets (fun o => fileOf o i); mret (i, Z.of_nat (length (data f)), mtime f).
Definition chmod (p : path) (m : Z) : F unit :=
  sys (CChmod p m);; i ← find p;
  f ← gets (fun o => fileOf o i); setFile i (File (data f) (synced f) (mtime f) m).
Definition mkdirAll (p : path) : F unit := sys (CMkdir p).

(** A directory's sync: the names are on the medium. *)
Definition syncDir (p : path) : F unit :=
  sys (CSyncDir p);; modify (fun o => onto (Disk (names (cur o)) (inodes (cur o)) []) o).

(** [os.ReadFile], and what hashing a file reads: the whole of it. *)
Definition ReadFile (p : path) : F (list Z) :=
  i ← open p;
  r ← attempt (n ← gets (fun o => Z.of_nat (length (data (fileOf o i)))); pread i 0 n);
  ignore (close i);; lift r.

(** [os.WriteFile] *)
Definition WriteFile (p : path) (d : list Z) (m : Z) : F unit :=
  i ← create p m;
  r ← pwrite i 0 d;
  c ← errOf (close i);
  liftErr (match r.2 with Some e => Some e | None => c end).
End Calls.
#[global] Arguments overlay : simpl never.
