(* ===== verification/Crash.v ===== *)
(** * Crash conditions

    A Hoare logic for runs that power may cut: [wpc C m Q] says that every disk
    [m] goes through satisfies [C], and its outcome [Q]. The condition used here
    is [sure P]: whatever a cut leaves of the names, the files behind them
    satisfy [P]. [steady] is what the agent's way of replacing a file keeps: the
    temporary files in [T] are nobody else's, and [P] does not look at them. *)
From S2P Require Import Prelude Machine Files.

(** ** The logic *)

Section Wpc.
Context {S : Type} (pi : S -> os).
Implicit Types (C : disk -> Prop) (s : S).

Definition wpc {A} C (m : SE S A) (Q : outcome A -> S -> Prop) s : Prop :=
  (exists l, hist (pi (m s).2) = hist (pi s) ++ l /\ Forall C l) /\ Q (m s).1 (m s).2.

(** The continuation of a bind. *)
Definition thenc {A B} C (f : A -> SE S B) (Q : outcome B -> S -> Prop) : outcome A -> S -> Prop := fun o s =>
  match o with
  | Ret a => wpc C (f a) Q s
  | Fail e => Q (Fail e) s
  | Panic => Q Panic s
  | OutOfFuel => Q OutOfFuel s
  end.

Lemma wpc_bind {A B} C (m : SE S A) (f : A -> SE S B) Q s : wpc C m (thenc C f Q) s -> wpc C (m ≫= f) Q s.
Proof.
  unfold wpc, mbind, SE_bind. intros [(l & Hl & Hc) HQ]. destruct (m s) as [[a| | |] s1]; simpl in *; eauto.
  destruct HQ as [(l2 & Hl2 & Hc2) HQ]. split; [|done]. exists (l ++ l2). rewrite Hl2, Hl, (assoc (++)). split; [done|].
  by apply Forall_app.
Qed.
Lemma wpc_still {A} C (m : SE S A) Q s : hist (pi (m s).2) = hist (pi s) -> Q (m s).1 (m s).2 -> wpc C m Q s.
Proof. intros Hh HQ. split; [exists []; by rewrite Hh, app_nil_r|done]. Qed.
Lemma wpc_ran {A} C (m : SE S A) Q s r s' : m s = (r, s') -> hist (pi s') = hist (pi s) -> Q r s' -> wpc C m Q s.
Proof. intros Hm Hh HQ. apply wpc_still; by rewrite Hm. Qed.
Lemma wpc_ret {A} C (a : A) Q s : Q (Ret a) s -> wpc C (mret a) Q s.
Proof. intros HQ. by apply wpc_still. Qed.
Lemma wpc_fail {A} C e (Q : outcome A -> S -> Prop) s : Q (Fail e) s -> wpc C (fail e) Q s.
Proof. intros HQ. by apply wpc_still. Qed.
Lemma wpc_gets {A} C (f : S -> A) Q s : Q (Ret (f s)) s -> wpc C (gets f) Q s.
Proof. intros HQ. by apply wpc_still. Qed.
Lemma wpc_liftErr C r (Q : outcome unit -> S -> Prop) s :
  (r = None -> Q (Ret tt) s) -> (forall e, r = Some e -> Q (Fail e) s) -> wpc C (liftErr r) Q s.
Proof. intros H1 H2. destruct r; apply wpc_still; simpl; auto. Qed.
Lemma wpc_lift {A} C (r : A + err) (Q : outcome A -> S -> Prop) s :
  (forall a, r = inl a -> Q (Ret a) s) -> (forall e, r = inr e -> Q (Fail e) s) -> wpc C (lift r) Q s.
Proof. intros H1 H2. destruct r; apply wpc_still; simpl; auto. Qed.

Lemma wpc_attempt {A} C (m : SE S A) Q s :
  wpc C m (fun o s' => match o with
        | Ret a => Q (Ret (inl a)) s' | Fail e => Q (Ret (inr e)) s'
        | Panic => Q Panic s' | OutOfFuel => Q OutOfFuel s' end) s ->
  wpc C (attempt m) Q s.
Proof. unfold wpc, attempt. intros [Hh HQ]. by destruct (m s) as [[] ?]. Qed.

Lemma wpc_mono {A} C (m : SE S A) (Q Q' : outcome A -> S -> Prop) s :
  wpc C m Q s -> (forall o s', Q o s' -> Q' o s') -> wpc C m Q' s.
Proof. intros [Hh HQ] H. split; auto. Qed.

Lemma wpc_weaken {A} C C' (m : SE S A) (Q : outcome A -> S -> Prop) s :
  (forall d, C d -> C' d) -> wpc C m Q s -> wpc C' m Q s.
Proof. intros HC [(l & Hl & Hc) HQ]. split; [|done]. exists l. split; [done|]. by eapply Forall_impl. Qed.

(** [err := m], [_ = m] *)
Lemma wpc_errOf C (m : SE S unit) Q s :
  wpc C m (fun o s' => match o with
        | Ret _ => Q (Ret None) s' | Fail e => Q (Ret (Some e)) s'
        | Panic => Q Panic s' | OutOfFuel => Q OutOfFuel s' end) s ->
  wpc C (errOf m) Q s.
Proof.
  intros H. apply wpc_bind, wpc_attempt. eapply wpc_mono; [exact H|].
  intros [] s' HQ; simpl; try done; by apply wpc_ret.
Qed.
Lemma wpc_ignore {A} C (m : SE S A) Q s :
  wpc C m (fun o s' => match o with
        | Ret _ | Fail _ => Q (Ret tt) s'
        | Panic => Q Panic s' | OutOfFuel => Q OutOfFuel s' end) s ->
  wpc C (ignore m) Q s.
Proof.
  intros H. apply wpc_bind, wpc_attempt. eapply wpc_mono; [exact H|].
  intros [] s' HQ; simpl; try done; by apply wpc_ret.
Qed.
End Wpc.
#[global] Arguments wpc {S} pi {A} C m Q s : simpl never.
#[global] Arguments thenc {S} pi {A B} C f Q !o s /.

(** One step into a computation: the bind, the pure leaves. *)
Ltac wpc_step :=
  lazymatch goal with
  | |- wpc _ _ (mbind _ _) _ _ => apply wpc_bind
  | |- wpc _ _ (mret _) _ _ => apply wpc_ret
  | |- wpc _ _ (fail _) _ _ => apply wpc_fail
  | |- wpc _ _ (gets _) _ _ => apply wpc_gets
  | |- wpc _ _ (attempt _) _ _ => apply wpc_attempt
  | |- wpc _ _ (errOf _) _ _ => apply wpc_errOf
  | |- wpc _ _ (ignore _) _ _ => apply wpc_ignore
  | |- thenc _ _ _ _ _ _ => progress simpl
  end.

(** ** What a cut may find *)

(** The file behind a name, its content known once synced. *)
Definition mark (d : disk) (ns : gmap path Z) (p : path) : option (option (list Z)) :=
  (fun i => f ← inodes d !! i; if synced f then Some (data f) else None) <$> ns !! p.

Definition sure (P : (path -> option (option (list Z))) -> Prop) (d : disk) : Prop :=
  forall ns, ns ∈ names d :: past d -> P (mark d ns).

(** [v] shows what the marks know. *)
Definition agrees (mk : path -> option (option (list Z))) (v : gmap path (list Z)) : Prop :=
  forall p, match mk p with
            | None => v !! p = None
            | Some None => is_Some (v !! p)
            | Some (Some l) => v !! p = Some l
            end.

Lemma sure_cut P d v : sure P d -> cutTo d v -> exists mk, P mk /\ agrees mk v.
Proof.
  intros HP (ns & content & Hns & Hc & ->). exists (mark d ns). split; [by apply HP|].
  intros p. unfold mark. rewrite lookup_fmap. destruct (ns !! p) as [i|]; simpl; [|done].
  destruct (inodes d !! i) as [f|] eqn:Hi; simpl; [|by eauto].
  destruct (synced f) eqn:Hs; [|by eauto]. f_equal. by apply Hc.
Qed.

(** ** Replacing a file through a temporary one *)

Section Steady.
Context {E : OsEnv}.
Context (T : path -> Prop) (P : (path -> option (option (list Z))) -> Prop).
(** [P] does not look at the temporary files. *)
Context (blind : forall mk mk', (forall p, ~ T p -> mk p = mk' p) -> P mk -> P mk').

Record steady (o : os) : Prop := {
  st_sure : sure P (cur o);
  st_new : forall ns p i, ns ∈ names (cur o) :: past (cur o) -> ns !! p = Some i -> i < nextIno o;
  st_own : forall t i ns p, T t -> names (cur o) !! t = Some i -> ns ∈ names (cur o) :: past (cur o) ->
    ns !! p = Some i -> p = t;
}.

(** The names and files other than the temporary ones are as they were. *)
Definition aside (o o' : os) : Prop :=
  forall p, ~ T p -> names (cur o') !! p = names (cur o) !! p /\ at_ (cur o') p = at_ (cur o) p.

(** Nothing but the history moved. *)
Definition same (o o' : os) : Prop := cur o' = cur o /\ hist o' = hist o /\ nextIno o' = nextIno o.

#[export] Instance aside_pre : PreOrder aside.
Proof.
  split; [by intros o p Hp|]. intros o1 o2 o3 H1 H2 p Hp. destruct (H1 p Hp), (H2 p Hp). split; congruence.
Qed.
#[export] Instance same_pre : PreOrder same.
Proof. split; [done|]. intros o1 o2 o3 (? & ? & ?) (? & ? & ?). repeat split; congruence. Qed.

Lemma same_steady o o' : same o o' -> steady o -> steady o'.
Proof. intros (Hc & _ & Hn) [H1 H2 H3]. split; rewrite ?Hc, ?Hn; done. Qed.
Lemma same_aside o o' : same o o' -> aside o o'.
Proof. intros (Hc & _) p _. by rewrite Hc. Qed.

(** A call alone. *)
Lemma wpc_sys C c (Q : outcome unit -> os -> Prop) o :
  (forall r o', same o o' -> (r = Ret tt \/ exists e, r = Fail e) -> Q r o') -> wpc id C (sys c) Q o.
Proof.
  intros HQ. apply wpc_still.
  - unfold sys, mbind, SE_bind. simpl. by destruct (os_Err (oslog o) c).
  - unfold sys, mbind, SE_bind. simpl. destruct (os_Err (oslog o) c); simpl; apply HQ; eauto; by repeat split.
Qed.

Lemma wpc_open C p (Q : outcome Z -> os -> Prop) o :
  (forall e o', same o o' -> Q (Fail e) o') ->
  (forall i o', same o o' -> names (cur o) !! p = Some i -> Q (Ret i) o') -> wpc id C (open p) Q o.
Proof.
  intros Hf Hr. apply wpc_bind, wpc_sys. intros r o' Hs [->|[e ->]]; simpl; [|by apply Hf].
  unfold find. repeat wpc_step. simpl. destruct Hs as (Hc & ? & ?). rewrite Hc.
  destruct (names (cur o) !! p) as [i|] eqn:Hp; wpc_step; [apply Hr|apply Hf]; done.
Qed.

Lemma wpc_pread C i pos n (Q : outcome (list Z) -> os -> Prop) o :
  (forall e o', same o o' -> Q (Fail e) o') ->
  (forall o', same o o' -> Q (Ret (slice (Z.to_nat pos) (Z.to_nat n) (data (fileOf o i)))) o') ->
  wpc id C (pread i pos n) Q o.
Proof.
  intros Hf Hr. apply wpc_bind, wpc_sys. intros r o' Hs [->|[e ->]]; simpl; [|by apply Hf].
  wpc_step. simpl. assert (fileOf o' i = fileOf o i) as -> by (unfold fileOf; by destruct Hs as (-> & _)).
  by apply Hr.
Qed.

(** The file of a temporary name changed. *)
Lemma mark_other d i f ns p : ns !! p <> Some i -> mark (Disk (names d) (<[i := f]> (inodes d)) (past d)) ns p = mark d ns p.
Proof.
  intros Hp. unfold mark. destruct (ns !! p) as [j|] eqn:Hj; simpl; [|done].
  f_equal. rewrite lookup_insert_ne; [done|]. congruence.
Qed.

Lemma steady_setFile o t i f :
  steady o -> T t -> names (cur o) !! t = Some i ->
  let d := Disk (names (cur o)) (<[i := f]> (inodes (cur o))) (past (cur o)) in
  steady (onto d o) /\ aside o (onto d o) /\ sure P d.
Proof.
  intros [H1 H2 H3] Ht Hi d. assert (sure P d) as Hs.
  { intros ns Hns. apply (blind (mark (cur o) ns)); [|by apply H1].
    intros p Hp. symmetry. apply mark_other. intros Hn. apply Hp. by rewrite (H3 t i ns p Ht Hi Hns Hn). }
  repeat split; simpl; try done.
  unfold at_. simpl. destruct (names (cur o) !! p) as [j|] eqn:Hj; simpl; [|done].
  rewrite lookup_insert_ne; [done|]. intros <-. apply H. rewrite (H3 t i (names (cur o)) p Ht Hi); [done|apply list_elem_of_here|done].
Qed.

(** A name that leads to no file yet. *)
Lemma steady_fresh o f :
  steady o ->
  let o1 := Os (cur o) (hist o) (oslog o) (nextIno o + 1) in
  let d := Disk (names (cur o)) (<[nextIno o := f]> (inodes (cur o))) (past (cur o)) in
  steady (onto d o1) /\ aside o (onto d o1) /\ sure P d.
Proof.
  intros [H1 H2 H3] o1 d.
  assert (forall ns p, ns ∈ names (cur o) :: past (cur o) -> ns !! p <> Some (nextIno o)) as Hfresh.
  { intros ns p Hns Hp. specialize (H2 ns p _ Hns Hp). lia. }
  assert (sure P d) as Hs.
  { intros ns Hns. apply (blind (mark (cur o) ns)); [|by apply H1]. intros p Hp. symmetry. apply mark_other.
    by apply Hfresh. }
  repeat split; simpl; try done.
  - intros ns p i Hns Hi. specialize (H2 ns p i Hns Hi). lia.
  - unfold at_. simpl. destruct (names (cur o) !! p) as [j|] eqn:Hj; simpl; [|done].
    rewrite lookup_insert_ne; [done|]. intros <-. apply (Hfresh (names (cur o)) p); [apply list_elem_of_here|done].
Qed.

(** A temporary name given or taken away. *)
Lemma steady_setNames o t ns :
  steady o -> T t -> (forall p, p <> t -> ns !! p = names (cur o) !! p) ->
  (forall i, ns !! t = Some i -> i < nextIno o /\ forall ns' p, ns' ∈ names (cur o) :: past (cur o) -> ns' !! p = Some i -> p = t) ->
  let d := Disk ns (inodes (cur o)) (past (cur o) ++ [names (cur o)]) in
  steady (onto d o) /\ aside o (onto d o) /\ sure P d.
Proof.
  intros [H1 H2 H3] Ht Hns Hnew d.
  assert (forall ns', ns' ∈ names d :: past d -> ns' = ns \/ ns' ∈ names (cur o) :: past (cur o)) as Hin.
  { intros ns' Hin. apply elem_of_cons in Hin as [->|Hin]; [by left|right]. simpl in Hin.
    apply elem_of_app in Hin as [Hin|Hin]; [by apply elem_of_cons; right|].
    apply list_elem_of_singleton in Hin as ->. apply list_elem_of_here. }
  assert (names (cur o) ∈ names (cur o) :: past (cur o)) as Hcur by apply list_elem_of_here.
  assert (sure P d) as Hs.
  { intros ns' [->|Hold]%Hin; [|by apply H1].
    apply (blind (mark (cur o) (names (cur o)))); [|by apply H1]. intros p Hp. unfold mark.
    rewrite Hns; [done|]. by intros ->. }
  repeat split; simpl; try done.
  - intros ns' p i [->|Hold]%Hin Hi; [|by eauto]. destruct (decide (p = t)) as [->|Hne]; [by apply Hnew|].
    rewrite Hns in Hi by done. eauto.
  - intros t' i ns' p Ht' Hi Hin' Hp. apply Hin in Hin' as [->|Hold]; destruct (decide (t' = t)) as [->|Hne].
    + destruct (decide (p = t)) as [->|Hpt]; [done|]. rewrite Hns in Hp by done.
      destruct (Hnew _ Hi) as [_ Hu]. by apply (Hu (names (cur o))).
    + rewrite Hns in Hi by done. destruct (decide (p = t)) as [->|Hpt].
      * destruct (Hnew _ Hp) as [_ Hu]. by rewrite (Hu (names (cur o)) t').
      * rewrite Hns in Hp by done. by apply (H3 t' i (names (cur o))).
    + destruct (Hnew _ Hi) as [_ Hu]. by apply (Hu ns').
    + rewrite Hns in Hi by done. by apply (H3 t' i ns').
  - apply Hns. by intros ->.
  - unfold at_. simpl. rewrite Hns; [done|]. by intros ->.
Qed.

(** ** The calls that replace a file *)

Lemma aside_step o o1 o2 : aside o o1 -> same o1 o2 -> aside o o2.
Proof. intros H1 H2. by apply (transitivity H1), same_aside. Qed.
Lemma mark_same d d' ns p : inodes d' = inodes d -> mark d' ns p = mark d ns p.
Proof. unfold mark. by intros ->. Qed.

(** A change of the state that shows one more disk. *)
Lemma wpc_onto C (g : os -> os) (Q : outcome unit -> os -> Prop) o :
  (exists d, hist (g o) = hist o ++ [d] /\ C d) -> Q (Ret tt) (g o) -> wpc id C (modify g) Q o.
Proof. intros (d & Hd & Hc) HQ. split; [|done]. exists [d]. split; [done|]. by apply Forall_singleton. Qed.
Lemma wpc_quiet C (g : os -> os) (Q : outcome unit -> os -> Prop) o :
  hist (g o) = hist o -> Q (Ret tt) (g o) -> wpc id C (modify g) Q o.
Proof. intros Hh HQ. by apply wpc_still. Qed.

Lemma wpc_setFile t i f (Q : outcome unit -> os -> Prop) o :
  steady o -> T t -> names (cur o) !! t = Some i ->
  (forall o', steady o' -> aside o o' -> names (cur o') = names (cur o) -> fileOf o' i = f -> Q (Ret tt) o') ->
  wpc id (sure P) (setFile i f) Q o.
Proof using blind.
  intros Ho Ht Hi HQ. destruct (steady_setFile o t i f Ho Ht Hi) as (Hs & Ha & Hp).
  apply wpc_onto; [by eauto|]. apply HQ; [done|done|done|]. unfold fileOf. simpl. by rewrite lookup_insert_eq.
Qed.

Lemma wpc_create t m (Q : outcome Z -> os -> Prop) o :
  steady o -> T t -> (forall e o', same o o' -> Q (Fail e) o') ->
  (forall i o', steady o' -> aside o o' -> names (cur o') !! t = Some i -> data (fileOf o' i) = [] -> Q (Ret i) o') ->
  wpc id (sure P) (create t m) Q o.
Proof using blind.
  intros Ho Ht Hf Hr. unfold create. apply wpc_bind, wpc_sys. intros r o1 Hs [->|[e ->]]; simpl; [|by apply Hf].
  assert (steady o1) as Ho1 by (by apply (same_steady o)). apply same_aside in Hs.
  unfold Now. repeat wpc_step. destruct (names (cur o1) !! t) as [i|] eqn:Hi.
  - repeat wpc_step. apply (wpc_setFile t); [done|done|done|]. intros o2 H2 Ha Hn Hd. repeat wpc_step.
    apply Hr; [done|by transitivity o1| |by rewrite Hd]. by rewrite Hn.
  - repeat wpc_step. apply wpc_quiet; [done|]. repeat wpc_step. unfold setFile.
    set (f := File [] false _ _). destruct (steady_fresh o1 f Ho1) as (H2 & Ha & Hp).
    apply wpc_onto; [by eauto|]. cbn [thenc]. repeat wpc_step. unfold setNames.
    set (o2 := onto _ _) in H2, Ha |- *.
    destruct (steady_setNames o2 t (<[t := nextIno o1]> (names (cur o2))) H2 Ht) as (H3 & Ha3 & Hp3).
    + intros p Hp'. by rewrite lookup_insert_ne by congruence.
    + intros i Hii. rewrite lookup_insert_eq in Hii. injection Hii as <-. simpl. split; [lia|].
      intros ns p Hns Hp'. pose proof (st_new _ Ho1 ns p _ Hns Hp'). lia.
    + apply wpc_onto; [by eauto|]. cbn [thenc]. repeat wpc_step. apply Hr; [done|..].
      * transitivity o1; [done|]. by transitivity o2.
      * simpl. by rewrite lookup_insert_eq.
      * unfold fileOf. simpl. by rewrite lookup_insert_eq.
Qed.

Lemma wpc_pwrite t i off d (Q : outcome (Z * option err) -> os -> Prop) o :
  steady o -> T t -> names (cur o) !! t = Some i -> 0 <= off ->
  (forall k e o', steady o' -> aside o o' -> names (cur o') = names (cur o) -> 0 <= k <= Z.of_nat (length d) ->
    (e = None -> k = Z.of_nat (length d)) ->
    data (fileOf o' i) = overlay (Z.to_nat off) (take (Z.to_nat k) d) (data (fileOf o i)) -> Q (Ret (k, e)) o') ->
  wpc id (sure P) (pwrite i off d) Q o.
Proof using blind.
  intros Ho Ht Hi Hoff HQ. unfold pwrite. rewrite (proj2 (Z.ltb_ge off 0)) by lia.
  destruct d as [|x d]; [apply wpc_ret, HQ; done || lia|]. set (l := x :: d) in HQ |- *.
  repeat wpc_step. apply wpc_sys. intros r o1 Hs Hr.
  assert (steady o1) as Ho1 by (by apply (same_steady o)).
  assert (forall k e, 0 <= k <= Z.of_nat (length l) -> (e = None -> k = Z.of_nat (length l)) ->
    wpc id (sure P) (t ← Now; f ← gets (fun o => fileOf o i);
      setFile i (File (overlay (Z.to_nat off) (take (Z.to_nat k) l) (data f)) false t (mode f));; mret (k, e)) Q o1) as Hw.
  { intros k e Hk He. unfold Now. repeat wpc_step. destruct Hs as (Hc & Hs). apply (wpc_setFile t); [done|done| |].
    { by rewrite Hc. }
    intros o2 H2 Ha Hn Hd. repeat wpc_step. apply HQ; [done| | |done|done|].
    - transitivity o1; [|done]. by apply same_aside.
    - by rewrite Hn, Hc.
    - rewrite Hd. simpl. unfold fileOf. by rewrite Hc. }
  destruct Hr as [->|[e ->]]; simpl.
  - apply wpc_bind, wpc_ret. apply (Hw (Z.of_nat (length l)) None); [lia|done].
  - apply wpc_bind, wpc_gets. apply (Hw (Z.max 0 (Z.min (os_Count (oslog o1)) (Z.of_nat (length l)))) (Some e)); [lia|done].
Qed.

Lemma wpc_fsync t i (Q : outcome unit -> os -> Prop) o :
  steady o -> T t -> names (cur o) !! t = Some i ->
  (forall e o', same o o' -> Q (Fail e) o') ->
  (forall o', steady o' -> aside o o' -> names (cur o') = names (cur o) -> synced (fileOf o' i) = true ->
    data (fileOf o' i) = data (fileOf o i) -> Q (Ret tt) o') ->
  wpc id (sure P) (fsync i) Q o.
Proof using blind.
  intros Ho Ht Hi Hf Hr. apply wpc_bind, wpc_sys. intros r o1 Hs [->|[e ->]]; simpl; [|by apply Hf].
  repeat wpc_step. assert (steady o1) as Ho1 by (by apply (same_steady o)). destruct Hs as (Hc & Hs).
  apply (wpc_setFile t); [done|done|by rewrite Hc|]. intros o2 H2 Ha Hn Hd. apply Hr; [done|..].
  - transitivity o1; [|done]. by apply same_aside.
  - by rewrite Hn, Hc.
  - by rewrite Hd.
  - rewrite Hd. simpl. unfold fileOf. by rewrite Hc.
Qed.

Lemma wpc_remove t (Q : outcome unit -> os -> Prop) o :
  steady o -> T t ->
  (forall r o', steady o' -> aside o o' -> (r = Ret tt \/ exists e, r = Fail e) -> Q r o') -> wpc id (sure P) (remove t) Q o.
Proof using blind.
  intros Ho Ht HQ. unfold remove. apply wpc_bind, wpc_sys. intros r o1 Hs Hr.
  assert (steady o1) as Ho1 by (by apply (same_steady o)). apply same_aside in Hs.
  destruct Hr as [->|[e ->]]; simpl; [|apply HQ; eauto]. unfold find. repeat wpc_step.
  destruct (names (cur o1) !! t) as [i|] eqn:Hi; repeat wpc_step; [|apply HQ; eauto].
  destruct (steady_setNames o1 t (delete t (names (cur o1))) Ho1 Ht) as (H3 & Ha3 & Hp3).
  - intros p Hp'. by rewrite lookup_delete_ne by congruence.
  - intros j Hj. by rewrite lookup_delete_eq in Hj.
  - apply wpc_onto; [by eauto|]. apply HQ; [done| |by left]. by transitivity o1.
Qed.

(** The temporary file takes the place of [q]. *)
Lemma wpc_rename t q i (Q : outcome unit -> os -> Prop) o :
  steady o -> T t -> ~ T q -> names (cur o) !! t = Some i ->
  (forall mk, mk q = mark (cur o) (<[q := i]> ∅) q -> (forall p, ~ T p -> p <> q -> mk p = mark (cur o) (names (cur o)) p) -> P mk) ->
  (forall e o', same o o' -> Q (Fail e) o') ->
  (forall o', steady o' -> names (cur o') = <[q := i]> (delete t (names (cur o))) -> inodes (cur o') = inodes (cur o) ->
    Q (Ret tt) o') ->
  wpc id (sure P) (rename t q) Q o.
Proof.
  intros Ho Ht Hq Hi HP Hf Hr. unfold rename. apply wpc_bind, wpc_sys. intros r o1 Hs [->|[e ->]]; simpl; [|by apply Hf].
  unfold find. repeat wpc_step. assert (steady o1) as Ho1 by (by apply (same_steady o)).
  destruct Hs as (Hc & _ & Hn). rewrite Hc, Hi. repeat wpc_step. unfold setNames. rewrite Hc.
  set (ns := <[q := i]> (delete t (names (cur o)))). set (d := Disk ns (inodes (cur o)) (past (cur o) ++ [names (cur o)])).
  assert (forall ns', ns' ∈ names d :: past d -> ns' = ns \/ ns' ∈ names (cur o) :: past (cur o)) as Hin.
  { intros ns' Hin. apply elem_of_cons in Hin as [->|Hin]; [by left|right]. simpl in Hin.
    apply elem_of_app in Hin as [Hin|Hin]; [by apply elem_of_cons; right|].
    apply list_elem_of_singleton in Hin as ->. apply list_elem_of_here. }
  assert (names (cur o) ∈ names (cur o) :: past (cur o)) as Hcur by apply list_elem_of_here.
  assert (q <> t) as Hqt by (intros ->; done).
  assert (forall p j, ns !! p = Some j -> p = q /\ j = i \/ p <> q /\ p <> t /\ names (cur o) !! p = Some j) as Hlook.
  { intros p j Hp. unfold ns in Hp. destruct (decide (p = q)) as [->|Hpq].
    - rewrite lookup_insert_eq in Hp. left. split; congruence.
    - right. rewrite lookup_insert_ne in Hp by congruence.
      destruct (decide (p = t)) as [->|Hpt]; [by rewrite lookup_delete_eq in Hp|].
      by rewrite lookup_delete_ne in Hp by congruence. }
  destruct Ho as [H1 H2 H3].
  assert (sure P d) as Hs.
  { intros ns' [->|Hold]%Hin; [|by apply H1]. apply HP.
    - unfold mark, ns. by rewrite !lookup_insert_eq.
    - intros p Hp Hpq. unfold mark, ns. rewrite lookup_insert_ne by congruence.
      rewrite lookup_delete_ne by (by intros ->). done. }
  apply wpc_onto; [eexists; split; [simpl; by rewrite Hc|done]|].
  apply Hr; simpl; rewrite ?Hc; [|done..]. split; simpl; rewrite ?Hc, ?Hn; [done|..].
  - intros ns' p j [->|Hold]%Hin Hj; [|by eauto]. apply Hlook in Hj as [[-> ->]|(_ & _ & Hj)]; eauto.
  - intros t' j ns' p Ht' Hj Hin' Hp. apply Hlook in Hj as [[-> ->]|(_ & Htt & Hj)]; [done|].
    apply Hin in Hin' as [->|Hold]; [|by apply (H3 t' j ns')].
    apply Hlook in Hp as [[-> ->]|(_ & _ & Hp)]; [|by apply (H3 t' j (names (cur o)))].
    exfalso. apply Htt. by apply (H3 t i (names (cur o))).
Qed.
End Steady.
