(* ===== verification/Slots.v ===== *)
(** * The app slots

    src/ota/internal/slots/slots.go: two binaries on the stick, A and B, a
    pointer to the one that runs and a pointer to the last one that ran stably.
    Binaries and pointers are written beside and renamed into place. *)
From S2P Require Import Prelude Circular Machine Sha256 Files.

(** ** [strings.TrimSpace] *)

(** The encodings of Unicode's white space, of one byte, two and three. *)
Definition space1 (a : Z) : bool := ((9 <=? a) && (a <=? 13)) || (a =? 32).
Definition space2 (a b : Z) : bool := (a =? 0xc2) && ((b =? 0x85) || (b =? 0xa0)).
Definition space3 (a b c : Z) : bool :=
  ((a =? 0xe1) && (b =? 0x9a) && (c =? 0x80)) ||
  ((a =? 0xe2) && (b =? 0x80) && (((0x80 <=? c) && (c <=? 0x8a)) || (c =? 0xa8) || (c =? 0xa9) || (c =? 0xaf))) ||
  ((a =? 0xe2) && (b =? 0x81) && (c =? 0x9f)) || ((a =? 0xe3) && (b =? 0x80) && (c =? 0x80)).

Fixpoint trim (s2 : Z -> Z -> bool) (s3 : Z -> Z -> Z -> bool) (l : list Z) : list Z :=
  match l with
  | [] => []
  | a :: l1 =>
      if space1 a then trim s2 s3 l1 else
      match l1 with
      | [] => l
      | b :: l2 =>
          if s2 a b then trim s2 s3 l2 else
          match l2 with
          | [] => l
          | c :: l3 => if s3 a b c then trim s2 s3 l3 else l
          end
      end
  end.
Definition TrimSpace (l : list Z) : list Z :=
  let l := trim space2 space3 l in
  rev (trim (fun a b => space2 b a) (fun a b c => space3 c b a) (rev l)).

(** ** The store *)

(** [0o600], [0o755] *)
Definition perm600 : Z := 0x180.
Definition perm755 : Z := 0x1ed.

Definition SlotA : string := "A".
Definition SlotB : string := "B".
Definition BinName : string := "app".
Definition isSlot (s : string) : bool := String.eqb s SlotA || String.eqb s SlotB.

(** A file's sum and the identity it was computed for. *)
Record fileSum := FileSum { sum_ino : Z; sum_size : Z; sum_mod : Z; sum : list Z }.

(** A [Store] beside the system its files are in. *)
Record Store := { sys_of : os; sums : gmap path fileSum }.
Definition onFiles {A} (m : F A) : SE Store A := fun s =>
  let r := m (sys_of s) in (r.1, Build_Store r.2 (sums s)).

(** Other returns the inactive slot. *)
Definition Other (slot : string) : string := if String.eqb slot SlotA then SlotB else SlotA.

(** What a pointer file's text says. *)
Definition pointerText (b : list Z) (def : string) : string :=
  let v := TrimSpace b in
  if decide (v = text SlotA) then SlotA else if decide (v = text SlotB) then SlotB else def.

Section Slots.
Context {E : OsEnv}.

Definition readPointer (p : path) (def : string) : F string :=
  r ← attempt (ReadFile p);
  match r with
  | inr _ => mret def
  | inl b => mret (pointerText b def)
  end.

Definition writePointer (p : path) (v : string) : F unit :=
  let tmp := plus p ".tmp" in
  WriteFile tmp (text v ++ [10]) perm600;; rename tmp p.

(** io.Copy's buffer. *)
Definition copyChunk : Z := 32768.

(** [io.Copy(io.MultiWriter(out, h), in)] from [pos] on, [h] hashed so far. *)
Fixpoint copyLoop (fuel : nat) (i j pos : Z) (h : list Z) : F (list Z) :=
  match fuel with
  | O => outOfFuel
  | S fuel =>
      b ← pread i pos copyChunk;
      match b with
      | [] => mret h
      | _ =>
          w ← pwrite j pos b;
          liftErr w.2;;
          copyLoop fuel i j (pos + Z.of_nat (length b)) (h ++ b)
      end
  end.

Definition CopyExecutable (src dst : path) : F (list Z) :=
  i ← open src;
  finally (
    let tmp := plus dst ".tmp" in
    j ← create tmp perm755;
    let discard e := ignore (close j);; ignore (remove tmp);; fail e in
    fuel ← gets (fun o => S (length (data (fileOf o i))));
    r ← attempt (copyLoop fuel i j 0 []);
    match r with
    | inr e => discard e
    | inl h =>
        e ← errOf (fsync j);
        match e with
        | Some e => discard e
        | None =>
            e ← errOf (close j);
            match e with
            | Some e => ignore (remove tmp);; fail e
            | None =>
                e ← errOf (rename tmp dst);
                match e with
                | Some e => ignore (remove tmp);; fail e
                | None => mret (hexSum h)
                end
            end
        end
    end) (fun e => ignore (close i);; mret e).

Definition FileSHA256 (p : path) : F (list Z) := b ← ReadFile p; mret (hexSum b).

Section Root.
Context (root : path).

Definition SlotDir (slot : string) : path := Join root slot.
Definition BinPath (slot : string) : path := Join (SlotDir slot) BinName.
Definition StagingDir : path := Join root "staging".

Definition Init : F unit :=
  each mkdirAll [root; SlotDir SlotA; SlotDir SlotB; StagingDir].

Definition Active : F string := readPointer (Join root "active") SlotA.
(** The default is evaluated first, as an argument is. *)
Definition Confirmed : F string := a ← Active; readPointer (Join root "confirmed") a.

Definition SetActive (slot : string) : F unit :=
  guard (negb (isSlot slot)) (EMsg "slots: invalid slot" (text slot));;
  writePointer (Join root "active") slot.
Definition SetConfirmed (slot : string) : F unit :=
  guard (negb (isSlot slot)) (EMsg "slots: invalid slot" (text slot));;
  writePointer (Join root "confirmed") slot.

Definition HasBinary (slot : string) : F bool :=
  r ← attempt (stat (BinPath slot));
  mret (match r with inl (_, size, _) => 0 <? size | inr _ => false end).

Definition Install (slot : string) (src : path) : F (list Z) :=
  guard (negb (isSlot slot)) (EMsg "slots: invalid slot" (text slot));;
  mkdirAll (SlotDir slot);;
  CopyExecutable src (BinPath slot).

(** The sum of a path's file, the one kept while the file's identity is the
    one it was computed for. *)
Definition cachedSHA256 (p : path) : SE Store (list Z) :=
  id ← onFiles (stat p);
  let '(ino, size, mod_) := id in
  c ← gets (fun s => sums s !! p);
  let again :=
    s ← onFiles (FileSHA256 p);
    modify (fun st => Build_Store (sys_of st) (<[p := FileSum ino size mod_ s]> (sums st)));;
    mret s in
  match c with
  | Some c => if (sum_ino c =? ino) && (sum_size c =? size) && (sum_mod c =? mod_) then mret (sum c) else again
  | None => again
  end.

(** A binary's sum, or why it could not be read. *)
Record Status := {
  st_Active : string; st_Confirmed : string;
  st_Binaries : list (string * (list Z + err)); st_Root : path
}.

Definition binaryOf (slot : string) : SE Store (list (string * (list Z + err))) :=
  b ← onFiles (HasBinary slot);
  if b : bool then s ← attempt (cachedSHA256 (BinPath slot)); mret [(slot, s)] else mret [].

Definition status : SE Store Status :=
  a ← onFiles Active;
  c ← onFiles Confirmed;
  ba ← binaryOf SlotA;
  bb ← binaryOf SlotB;
  mret (Build_Status a c (ba ++ bb) root).
End Root.
End Slots.

(** ** Paths of the store *)

Lemma Join_plain p e : split e "" = [e] -> e <> "" -> e <> "." -> e <> ".." -> Join p e = (p.1, p.2 ++ [e]).
Proof.
  intros Hs H1 H2 H3. unfold Join. rewrite Hs. cbn [foldl]. unfold element.
  rewrite decide_False by (by intros [?|?]). rewrite decide_False by done. cbn [rev]. by rewrite rev_involutive.
Qed.
Lemma plus_last b l e s : plus (b, l ++ [e]) s = (b, l ++ [e +:+ s]).
Proof. unfold plus. simpl. rewrite rev_unit. simpl. by rewrite rev_involutive. Qed.
