(* ===== verification/SlotsRun.v ===== *)
(** * What power cuts leave of the slots

    The copy of a binary and the write of a pointer under the crash logic:
    whatever the cut, a slot holds the binary it had or the whole new one. *)
From S2P Require Import Prelude Circular Machine Sha256 Files Crash Slots.

(** ** Copies *)

Lemma overlay_end (d l : list Z) : overlay (length l) d l = l ++ d.
Proof.
  unfold overlay. destruct d as [|x d]; [by rewrite app_nil_r|].
  rewrite Nat.sub_diag. simpl. rewrite app_nil_r, take_ge by lia. f_equal.
  rewrite drop_ge by lia. by rewrite app_nil_r.
Qed.

(** The next piece. *)
Lemma take_slice {A} o n (l : list A) : take (o + length (slice o n l)) l = take o l ++ slice o n l.
Proof.
  rewrite <- take_take_drop. f_equal. unfold slice. rewrite length_take.
  destruct (decide (n <= length (drop o l))%nat); [by rewrite Nat.min_l by lia|].
  rewrite Nat.min_r by lia. by rewrite !take_ge by lia.
Qed.

Section Copy.
Context {E : OsEnv}.
Context (T : path -> Prop) (P : (path -> option (option (list Z))) -> Prop).
Context (blind : forall mk mk', (forall p, ~ T p -> mk p = mk' p) -> P mk -> P mk').
Abbreviation steady := (steady T P).
Abbreviation aside := (aside T).

Lemma aside_fileOf o o' p i :
  aside o o' -> ~ T p -> names (cur o) !! p = Some i -> fileOf o' i = fileOf o i.
Proof.
  intros Ha Hp Hi. destruct (Ha p Hp) as [Hn Hat]. unfold at_ in Hat. rewrite Hn, Hi in Hat. simpl in Hat.
  unfold fileOf. by rewrite Hat.
Qed.

(** The inode of a temporary name is behind no other. *)
Lemma own_ne o t p i k :
  steady o -> T t -> ~ T p -> names (cur o) !! t = Some i -> names (cur o) !! p = Some k -> k <> i.
Proof.
  intros Ho Ht Hp Hi Hk ->. apply Hp.
  by rewrite (st_own _ _ _ Ho t i (names (cur o)) p Ht Hi (list_elem_of_here _ _) Hk).
Qed.

Lemma wpc_copyLoop t src k j o0 (Q : outcome (list Z) -> os -> Prop) fuel : forall pos o,
  T t -> ~ T src -> names (cur o0) !! src = Some k ->
  let D := data (fileOf o0 k) in
  steady o -> aside o0 o -> names (cur o) !! t = Some j ->
  (pos <= length D)%nat -> data (fileOf o j) = take pos D -> (length D - pos < fuel)%nat ->
  (forall e o', steady o' -> aside o0 o' -> names (cur o') = names (cur o) -> Q (Fail e) o') ->
  (forall o', steady o' -> aside o0 o' -> names (cur o') = names (cur o) -> data (fileOf o' j) = D -> Q (Ret D) o') ->
  wpc id (sure P) (copyLoop fuel k j (Z.of_nat pos) (take pos D)) Q o.
Proof using blind.
  induction fuel as [|fuel IH]; intros pos o Ht Hsrc Hk D Ho Ha Hj Hpos Hd Hfuel Hf Hr; [lia|].
  cbn [copyLoop]. apply wpc_bind, wpc_pread.
  { intros e o1 Hs. simpl. apply Hf; [by apply (same_steady _ _ o)| |by destruct Hs as (-> & _)].
    transitivity o; [done|]. by apply same_aside. }
  intros o1 Hs. cbn [thenc]. assert (steady o1) as Ho1 by (by apply (same_steady _ _ o)).
  assert (aside o0 o1) as Ha1 by (transitivity o; [done|]; by apply same_aside).
  destruct Hs as (Hc & _). assert (fileOf o k = fileOf o0 k) as Hfk by (by apply (aside_fileOf o0 o src)).
  rewrite Hfk, Nat2Z.id. fold D. assert (0 < copyChunk) as Hchunk by done. generalize copyChunk Hchunk. intros n Hn.
  remember (slice pos (Z.to_nat n) D) as b eqn:Hb.
  assert (take (pos + length b) D = take pos D ++ b) as Htake.
  { subst b. apply take_slice. }
  assert (pos + length b <= length D)%nat as Hle.
  { subst b. unfold slice. rewrite length_take, length_drop. lia. }
  destruct b as [|x b].
  { apply wpc_ret. assert (take pos D = D) as HD.
    { apply take_ge. assert (length (slice pos (Z.to_nat n) D) = 0%nat) as Hz by (by rewrite <- Hb).
      unfold slice in Hz. rewrite length_take, length_drop in Hz. lia. }
    rewrite HD. apply Hr; [done|done|by rewrite Hc|]. unfold fileOf. rewrite Hc. fold (fileOf o j). by rewrite Hd. }
  apply wpc_bind, (wpc_pwrite T P blind t); [done|done|by rewrite Hc|lia|].
  intros w e o2 Ho2 Ha2 Hn2 Hw He Hd2. cbn [thenc]. assert (aside o0 o2) as Ha02 by (by transitivity o1).
  assert (names (cur o2) = names (cur o)) as Hn2' by (by rewrite Hn2, Hc).
  apply wpc_bind, wpc_liftErr; simpl.
  2: { intros e' _. by apply Hf. }
  intros ->. specialize (He eq_refl). replace (Z.of_nat pos + Z.of_nat (length (x :: b)))
    with (Z.of_nat (pos + length (x :: b))) by lia.
  change (Z.of_nat (S (length b))) with (Z.of_nat (length (x :: b))).
  rewrite <- Nat2Z.inj_add. rewrite <- Htake. apply IH; try done.
  - by rewrite Hn2'.
  - rewrite Hd2, He, !Nat2Z.id, firstn_all. unfold fileOf at 1. rewrite Hc. fold (fileOf o j). rewrite Hd.
    assert (length (take pos D) = pos) as Hlen by (rewrite length_take; lia).
    rewrite <- Hlen at 1. rewrite overlay_end. symmetry. exact Htake.
  - fold D. cbn [length] in Hle |- *. lia.
  - intros. apply Hf; [done|done|]. by rewrite H1.
  - intros. apply Hr; [done|done| |done]. by rewrite H1.
Qed.

(** What a replacement of [q]'s file leaves alone. *)
Definition but (q : path) (o o' : os) : Prop :=
  forall p, ~ T p -> p <> q -> names (cur o') !! p = names (cur o) !! p /\ at_ (cur o') p = at_ (cur o) p.

Lemma at_fileOf o p i : names (cur o) !! p = Some i -> synced (fileOf o i) = true -> at_ (cur o) p = Some (fileOf o i).
Proof. unfold at_, fileOf. intros ->. simpl. by destruct (inodes (cur o) !! i). Qed.

(** The temporary file, whole and synced, renamed into place. *)
Lemma wpc_replace t q j o0 (D : list Z) (Q : outcome unit -> os -> Prop) o :
  T t -> ~ T q -> steady o -> aside o0 o -> names (cur o) !! t = Some j -> synced (fileOf o j) = true -> data (fileOf o j) = D ->
  (forall mk, mk q = Some (Some D) ->
    (forall p, ~ T p -> p <> q -> mk p = mark (cur o0) (names (cur o0)) p) -> P mk) ->
  (forall e o', steady o' -> aside o0 o' -> Q (Fail e) o') ->
  (forall o', steady o' -> but q o0 o' ->
    (exists f, at_ (cur o') q = Some f /\ data f = D /\ synced f = true) -> Q (Ret tt) o') ->
  wpc id (sure P) (rename t q) Q o.
Proof.
  intros Ht Hq Ho Ha Hj Hs Hd HP Hf Hr.
  assert (is_Some (inodes (cur o) !! j)) as [f Hfj].
  { unfold fileOf in Hs. destruct (inodes (cur o) !! j); [eauto|discriminate Hs]. }
  assert (fileOf o j = f) as Hff by (unfold fileOf; by rewrite Hfj). rewrite Hff in Hs, Hd.
  apply (wpc_rename T P t q j); [done|done|done|done|..].
  - intros mk Hmq Hmk. apply HP.
    + rewrite Hmq. unfold mark. rewrite lookup_insert_eq. simpl. rewrite Hfj. simpl. by rewrite Hs, Hd.
    + intros p Hp Hpq. rewrite Hmk by done. destruct (Ha p Hp) as [Hn Hat]. unfold mark. unfold at_ in Hat. rewrite Hn in *.
      destruct (names (cur o0) !! p) as [i|]; simpl in *; [by rewrite Hat|done].
  - intros e o' Hsm. apply Hf; [by apply (same_steady _ _ o)|]. transitivity o; [done|]. by apply same_aside.
  - intros o' Ho' Hn Hi. apply Hr; [done|..].
    + intros p Hp Hpq. destruct (Ha p Hp) as [Hn0 Hat]. rewrite <- Hat, <- Hn0. unfold at_. rewrite Hn, Hi.
      rewrite lookup_insert_ne by congruence. by rewrite lookup_delete_ne by (by intros ->).
    + exists f. unfold at_. by rewrite Hn, lookup_insert_eq, Hi.
Qed.

(** [defer f.Close()] *)
Lemma wpc_closing {A} C (m : F A) i (Q : outcome A -> os -> Prop) o :
  wpc id C m (fun r o' => forall o2, same o' o2 -> Q r o2) o ->
  wpc id C (finally m (fun e => ignore (close i);; mret e)) Q o.
Proof.
  intros H. unfold finally. apply wpc_bind, wpc_attempt. eapply wpc_mono; [exact H|].
  intros r o1 HQ. assert (forall e (f : option err -> F A) (R : outcome A -> os -> Prop),
    (forall o2, same o1 o2 -> wpc id C (f e) R o2) -> wpc id C (e ← (ignore (close i);; mret e); f e) R o1) as Hc.
  { intros e f R Hf. apply wpc_bind, wpc_bind, wpc_ignore, wpc_sys. intros r' o2 Hs [->|[e' ->]];
      cbn [thenc]; apply wpc_ret; cbn [thenc]; by apply Hf. }
  destruct r; cbn [thenc]; [apply (Hc None)|apply (Hc (Some e))|apply HQ; done|apply HQ; done].
  - intros o2 Hs. apply wpc_ret. by apply HQ.
  - intros o2 Hs. apply wpc_fail. by apply HQ.
Qed.

Lemma wpc_CopyExecutable src dst (Q : outcome (list Z) -> os -> Prop) o :
  T (plus dst ".tmp") -> ~ T src -> ~ T dst -> steady o ->
  (forall k mk, names (cur o) !! src = Some k -> mk dst = Some (Some (data (fileOf o k))) ->
    (forall p, ~ T p -> p <> dst -> mk p = mark (cur o) (names (cur o)) p) -> P mk) ->
  (forall e o', steady o' -> aside o o' -> Q (Fail e) o') ->
  (forall k o', names (cur o) !! src = Some k -> steady o' -> but dst o o' ->
    (exists f, at_ (cur o') dst = Some f /\ data f = data (fileOf o k) /\ synced f = true) ->
    Q (Ret (hexSum (data (fileOf o k)))) o') ->
  wpc id (sure P) (CopyExecutable src dst) Q o.
Proof using blind.
  intros Ht Hsrc Hdst Ho HP Hf Hr. unfold CopyExecutable. set (t := plus dst ".tmp") in *.
  apply wpc_bind, wpc_open.
  { intros e o1 Hs. apply Hf; [by apply (same_steady _ _ o)|by apply same_aside]. }
  intros k o1 Hs Hk. cbn [thenc].
  assert (forall o' A e (R : outcome A -> os -> Prop), steady o' -> aside o o' ->
    (forall o', steady o' -> aside o o' -> R (Fail e) o') ->
    wpc id (sure P) (ignore (remove t);; fail (A := A) e) R o') as Hdis.
  { intros o' A e R Ho' Ha' HR. apply wpc_bind, wpc_ignore, (wpc_remove T P blind); [done|done|].
    intros r o2 H2 Ha2 [->|[e' ->]]; apply wpc_fail, HR; done || (by transitivity o'). }
  apply wpc_closing. assert (steady o1) as Ho1 by (by apply (same_steady _ _ o)).
  assert (aside o o1) as Ha1 by (by apply same_aside). destruct Hs as (Hc & _).
  assert (forall e o', steady o' -> aside o o' -> forall o2, same o' o2 -> Q (Fail e) o2) as Hf'.
  { intros e o' H1 H2 o2 Hs. apply Hf; [by apply (same_steady _ _ o')|]. transitivity o'; [done|]. by apply same_aside. }
  apply wpc_bind, (wpc_create T P blind); [done|done|..].
  { intros e o2 Hs. cbn [thenc]. apply Hf'; [by apply (same_steady _ _ o1)|]. transitivity o1; [done|]. by apply same_aside. }
  intros j o2 Ho2 Ha2 Hj Hd. cbn [thenc]. assert (aside o o2) as Ha by (by transitivity o1).
  assert (fileOf o2 k = fileOf o k) as Hfk by (by apply (aside_fileOf o o2 src)).
  apply wpc_bind, wpc_gets. cbn [thenc]. apply wpc_bind, wpc_attempt. rewrite Hfk.
  change [] with (take 0 (data (fileOf o k))).
  apply (wpc_copyLoop t src k j o _ _ 0); [done|done|done|done|done|done|lia|done|lia|..].
  { intros e o3 Ho3 Ha3 Hn3. cbn [thenc]. apply wpc_bind, wpc_ignore, wpc_sys. intros r o4 Hs4 Hr4.
    assert (steady o4) by (by apply (same_steady _ _ o3)).
    assert (aside o o4) by (transitivity o3; [done|]; by apply same_aside).
    destruct Hr4 as [->|[e' ->]]; cbn [thenc]; (apply Hdis; [done|done|]; by intros; eapply Hf'). }
  intros o3 Ho3 Ha3 Hn3 Hd3. cbn [thenc]. apply wpc_bind, wpc_errOf.
  apply (wpc_fsync T P blind t); [done|done|by rewrite Hn3|..].
  { intros e o4 Hs4. cbn [thenc]. apply wpc_bind, wpc_ignore, wpc_sys. intros r o5 Hs5 Hr5.
    assert (same o3 o5) as Hs by (by transitivity o4).
    assert (steady o5) by (by apply (same_steady _ _ o3)).
    assert (aside o o5) by (transitivity o3; [done|]; by apply same_aside).
    destruct Hr5 as [->|[e' ->]]; cbn [thenc]; (apply Hdis; [done|done|]; by intros; eapply Hf'). }
  intros o4 Ho4 Ha4 Hn4 Hs4 Hd4. cbn [thenc]. apply wpc_bind, wpc_errOf, wpc_sys. intros r o5 Hs5 Hr5.
  assert (steady o5) as Ho5 by (by apply (same_steady _ _ o4)).
  assert (aside o o5) as Ha5 by (transitivity o3; [done|]; transitivity o4; [done|]; by apply same_aside).
  destruct Hr5 as [->|[e' ->]]; cbn [thenc]; [|(apply Hdis; [done|done|]; by intros; eapply Hf')].
  destruct Hs5 as (Hc5 & _). assert (fileOf o5 j = fileOf o4 j) as Hfj by (unfold fileOf; by rewrite Hc5).
  apply wpc_bind, wpc_errOf. apply (wpc_replace t dst j o (data (fileOf o k))); [done|done|done|done|..].
  - by rewrite Hc5, Hn4, Hn3.
  - by rewrite Hfj.
  - by rewrite Hfj, Hd4.
  - intros mk. by apply HP.
  - intros e o6 Ho6 Ha6. cbn [thenc]. (apply Hdis; [done|done|]; by intros; eapply Hf').
  - intros o6 Ho6 Hb6 (f & Hat & Hdf & Hsf). cbn [thenc]. apply wpc_ret. intros o7 Hs7. apply Hr; [done|..].
    + by apply (same_steady _ _ o6).
    + intros p Hp Hpd. destruct Hs7 as (-> & _). by apply Hb6.
    + exists f. destruct Hs7 as (-> & _). done.
Qed.

(** ** Pointers *)

Lemma wpc_WriteFile t d m (Q : outcome unit -> os -> Prop) o :
  T t -> steady o -> (forall e o', steady o' -> aside o o' -> Q (Fail e) o') ->
  (forall i o', steady o' -> aside o o' -> names (cur o') !! t = Some i -> data (fileOf o' i) = d -> Q (Ret tt) o') ->
  wpc id (sure P) (WriteFile t d m) Q o.
Proof using blind.
  intros Ht Ho Hf Hr. apply wpc_bind, (wpc_create T P blind); [done|done|..].
  { intros e o1 Hs. apply Hf; [by apply (same_steady _ _ o)|by apply same_aside]. }
  intros i o1 Ho1 Ha1 Hi Hd. cbn [thenc]. apply wpc_bind, (wpc_pwrite T P blind t); [done|done|done|lia|].
  intros k e o2 Ho2 Ha2 Hn2 Hk He Hd2. cbn [thenc]. apply wpc_bind, wpc_errOf, wpc_sys. intros r o3 Hs3 Hr3.
  assert (steady o3) as Ho3 by (by apply (same_steady _ _ o2)).
  assert (aside o o3) as Ha3 by (transitivity o1; [done|]; transitivity o2; [done|]; by apply same_aside).
  assert (forall c, wpc id (sure P) (liftErr (match e with Some e => Some e | None => c end)) Q o3) as Hend.
  { intros c. apply wpc_liftErr; [|intros; by apply Hf]. destruct e as [e|]; [discriminate|]. intros ->.
    destruct Hs3 as (Hc & _). apply (Hr i); [done|done|by rewrite Hc, Hn2|].
    unfold fileOf. rewrite Hc. fold (fileOf o2 i). rewrite Hd2, Hd, (He eq_refl), Nat2Z.id, firstn_all.
    apply (overlay_end d []). }
  destruct Hr3 as [->|[e' ->]]; cbn [thenc]; apply Hend.
Qed.

(** The pointer's new text, not on the medium yet, renamed into place. *)
Lemma wpc_writePointer p v (Q : outcome unit -> os -> Prop) o :
  T (plus p ".tmp") -> ~ T p -> steady o ->
  (forall mk, (mk p = Some None \/ mk p = Some (Some (text v ++ [10]))) ->
    (forall q, ~ T q -> q <> p -> mk q = mark (cur o) (names (cur o)) q) -> P mk) ->
  (forall e o', steady o' -> aside o o' -> Q (Fail e) o') ->
  (forall o', steady o' -> but p o o' -> (data <$> at_ (cur o') p = Some (text v ++ [10])) -> Q (Ret tt) o') ->
  wpc id (sure P) (writePointer p v) Q o.
Proof using blind.
  intros Ht Hp Ho HP Hf Hr. apply wpc_bind, wpc_WriteFile; [done|done|intros; by apply Hf|].
  intros i o1 Ho1 Ha1 Hi Hd. cbn [thenc]. apply (wpc_rename T P _ p i); [done|done|done|done|..].
  - intros mk Hm Hmk. apply HP.
    + rewrite Hm. unfold mark. rewrite lookup_insert_eq. simpl. unfold fileOf in Hd.
      destruct (inodes (cur o1) !! i) as [f|]; simpl in *; [|by left]. rewrite Hd. destruct (synced f); eauto.
    + intros q Hq Hqp. rewrite Hmk by done. destruct (Ha1 q Hq) as [Hn Hat]. unfold mark. unfold at_ in Hat.
      rewrite Hn in *. destruct (names (cur o) !! q); simpl in *; [by rewrite Hat|done].
  - intros e o2 Hs. apply Hf; [by apply (same_steady _ _ o1)|]. transitivity o1; [done|]. by apply same_aside.
  - intros o2 Ho2 Hn Hin. assert (names (cur o2) !! p = Some i) as Hpi by (by rewrite Hn, lookup_insert_eq).
    assert (is_Some (inodes (cur o1) !! i)) as [f Hif].
    { unfold fileOf in Hd. destruct (inodes (cur o1) !! i); [eauto|]. simpl in Hd. by destruct (text v). }
    apply Hr; [done|..].
    + intros q Hq Hqp. destruct (Ha1 q Hq) as [Hn0 Hat]. rewrite <- Hat, <- Hn0. unfold at_. rewrite Hn, Hin.
      rewrite lookup_insert_ne by congruence. by rewrite lookup_delete_ne by (by intros <-).
    + unfold at_. rewrite Hpi, Hin. simpl. rewrite Hif. simpl. f_equal. unfold fileOf in Hd. by rewrite Hif in Hd.
Qed.
End Copy.

(** ** Reading *)

Lemma wpc_ReadFile {E : OsEnv} C p (Q : outcome (list Z) -> os -> Prop) o :
  (forall e o', same o o' -> Q (Fail e) o') ->
  (forall i o', same o o' -> names (cur o) !! p = Some i -> Q (Ret (data (fileOf o i))) o') ->
  wpc id C (ReadFile p) Q o.
Proof.
  intros Hf Hr. apply wpc_bind, wpc_open; [done|]. intros i o1 Hs Hi. cbn [thenc].
  assert (forall r o2, same o o2 -> (r = inl (data (fileOf o i)) \/ exists e, r = inr e) ->
    wpc id C (ignore (close i);; lift r) Q o2) as Hc.
  { intros r o2 H2 Hrr. apply wpc_bind, wpc_ignore, wpc_sys. intros r' o3 H3 Hr3.
    assert (same o o3) by (by transitivity o2).
    destruct Hr3 as [->|[e' ->]]; cbn [thenc]; destruct Hrr as [->|[e ->]];
      apply wpc_lift; intros ? [= <-]; by (apply (Hr i) || apply Hf). }
  apply wpc_bind, wpc_attempt, wpc_bind, wpc_gets. cbn [thenc]. apply wpc_pread.
  - intros e o2 H2. cbn [thenc]. apply Hc; [by transitivity o1|by eauto].
  - intros o2 H2. cbn [thenc]. apply Hc; [by transitivity o1|left]. f_equal.
    assert (fileOf o1 i = fileOf o i) as -> by (unfold fileOf; by destruct Hs as (-> & _)).
    unfold slice. rewrite Nat2Z.id, drop_0. by apply firstn_all.
Qed.

(** ** The guarantees *)

(** The medium holds the disk: every file synced, under one name each. *)
Record settled (o : os) : Prop := {
  se_past : past (cur o) = [];
  se_file : forall p i, names (cur o) !! p = Some i ->
    i < nextIno o /\ exists f, inodes (cur o) !! i = Some f /\ synced f = true;
  se_one : forall p q i, names (cur o) !! p = Some i -> names (cur o) !! q = Some i -> p = q;
}.

Lemma settled_steady T P o : settled o -> P (mark (cur o) (names (cur o))) -> steady T P o.
Proof.
  intros [Hp Hf H1] HP. split; rewrite ?Hp.
  - intros ns Hns. rewrite Hp in Hns. by apply list_elem_of_singleton in Hns as ->.
  - intros ns p i Hns Hi. apply list_elem_of_singleton in Hns as ->. by apply Hf in Hi as [? _].
  - intros t i ns p _ Ht Hns Hi. apply list_elem_of_singleton in Hns as ->. by apply (H1 p t i).
Qed.
Lemma settled_mark o p : settled o -> mark (cur o) (names (cur o)) p = (fun f => Some (data f)) <$> at_ (cur o) p.
Proof.
  intros [_ Hf _]. unfold mark, at_. destruct (names (cur o) !! p) as [i|] eqn:Hi; simpl; [|done].
  apply Hf in Hi as (_ & f & Hi & Hs). rewrite Hi. simpl. by rewrite Hs.
Qed.

(** The disks of a run, from the one it starts on. *)
Definition during (o o' : os) : list disk := cur o :: drop (length (hist o)) (hist o').

Lemma wpc_during {A} C (m : F A) Q o :
  C (cur o) -> wpc id C m Q o -> Forall C (during o (m o).2) /\ Q (m o).1 (m o).2.
Proof.
  intros Hc [(l & Hl & Hd) HQ]. split; [|done]. unfold during. cbn [id] in Hl. rewrite Hl, drop_app_length.
  by constructor.
Qed.

Lemma plus_ne p s : s <> "" -> plus p s <> p.
Proof.
  intros Hs. destruct p as [b l]. induction l as [|e l _] using rev_ind.
  { unfold plus. simpl. by intros [=]. }
  rewrite plus_last. intros [= H]. apply app_inj_tail in H as [_ H].
  assert (forall x : string, (e +:+ x)%string = e -> x = "") as Hinj.
  { clear. induction e as [|c e IH]; simpl; [done|]. intros x [= H]. by apply IH. }
  by apply Hs, Hinj.
Qed.

