(* ===== verification/AgentState.v ===== *)
(** * The agent's persisted state

    src/ota/internal/agent/state.go: whether the instrument is taken over, in a
    file replaced durably before it is acted on. *)
From S2P Require Import Prelude Circular Machine Files Crash Slots SlotsRun.

Record State := { TakenOver : bool; AutoTakeover : bool }.
#[export] Instance State_eq_dec : EqDecision State.
Proof. solve_decision. Defined.
Definition zeroState : State := {| TakenOver := false; AutoTakeover := false |}.

(** The state file: what is in force, and what the file is known to hold. *)
Record stateFile := { sf_path : path; sf_s : State; sf_disk : State }.

(** [json.MarshalIndent(s, "", "  ")] *)
Definition quoted (s : string) : list Z := 34 :: text s ++ [34].
Definition boolText (b : bool) : list Z := text (if b then "true" else "false").
Definition MarshalIndent (s : State) : list Z :=
  text "{" ++ [10] ++ text "  " ++ quoted "taken_over" ++ text ": " ++ boolText (TakenOver s) ++ text "," ++ [10] ++
  text "  " ++ quoted "auto_takeover" ++ text ": " ++ boolText (AutoTakeover s) ++ [10] ++ text "}".

(** What the agent writes. *)
Definition document (s : State) : list Z := MarshalIndent s ++ [10].

(** [json.Unmarshal(b, &s)] into a zero state: a document the agent wrote gives
    its state; what encoding/json makes of any other is [os_Unmarshal]. *)
Class JsonEnv := { os_Unmarshal : list Z -> State }.
Definition allStates : list State :=
  [{| TakenOver := false; AutoTakeover := false |}; {| TakenOver := false; AutoTakeover := true |};
   {| TakenOver := true; AutoTakeover := false |}; {| TakenOver := true; AutoTakeover := true |}].
Definition Unmarshal {J : JsonEnv} (b : list Z) : State :=
  match List.find (fun s => bool_decide (document s = b)) allStates with
  | Some s => s
  | None => os_Unmarshal b
  end.

Lemma Unmarshal_document {J : JsonEnv} s : Unmarshal (document s) = s.
Proof. by destruct s as [[] []]. Qed.

Section StateFile.
Context {E : OsEnv} {J : JsonEnv}.

(** A state file with the system it is in. *)
Abbreviation FS := (SE (os * stateFile)).
Definition onOs {A} (m : F A) : FS A := fun s => let r := m s.1 in (r.1, (r.2, s.2)).

Definition loadState (p : path) : F stateFile :=
  r ← attempt (ReadFile p);
  let s := match r with inl b => Unmarshal b | inr _ => zeroState end in
  mret {| sf_path := p; sf_s := s; sf_disk := s |}.

Definition get : FS State := gets (fun s => sf_s s.2).

(** Durable: beside, synced, renamed, then the directory. *)
Definition write (path_ : path) (s : State) : F unit :=
  let tmp := plus path_ ".tmp" in
  i ← create tmp perm600;
  w ← pwrite i 0 (document s);
  match w.2 with
  | Some e => ignore (close i);; fail e
  | None =>
      e ← errOf (fsync i);
      match e with
      | Some e => ignore (close i);; fail e
      | None =>
          close i;;
          rename tmp path_;;
          (** the directory's handle is not a file's: its close has no effect *)
          d ← attempt (sys (COpenDir (Dir path_)));
          match d with
          | inl _ => ignore (syncDir (Dir path_))
          | inr _ => mret tt
          end
      end
  end.

Definition update (fn : State -> State) : FS unit :=
  sf ← gets snd;
  let next := fn (sf_s sf) in
  let keep := modify (fun s => (s.1, {| sf_path := sf_path sf; sf_s := next; sf_disk := sf_disk sf |})) in
  if decide (next = sf_disk sf) then keep
  else
    onOs (write (sf_path sf) next);;
    modify (fun s => (s.1, {| sf_path := sf_path sf; sf_s := next; sf_disk := next |})).

(** ** The write under power cuts *)

(** The state the next agent loads from what a cut leaves. *)
Definition loaded (v : gmap path (list Z)) (p : path) : State :=
  match v !! p with Some b => Unmarshal b | None => zeroState end.

(** Every cut of the disk loads one of the states [L]. *)
Definition loads (L : State -> Prop) (p : path) (d : disk) : Prop := forall v, cutTo d v -> L (loaded v p).

(** The file's marks are of documents, or the file it was before any. *)
Definition known (L : State -> Prop) (p : path) (mk : path -> option (option (list Z))) : Prop :=
  match mk p with
  | None => L zeroState
  | Some (Some b) => L (Unmarshal b)
  | Some None => False
  end.

Lemma known_loads L p d : sure (known L p) d -> loads L p d.
Proof.
  intros Hs v Hv. apply (sure_cut _ _ _ Hs) in Hv as (mk & HP & Hag). specialize (Hag p). unfold known in HP. unfold loaded.
  destruct (mk p) as [[b|]|]; [by rewrite Hag|done|by rewrite Hag].
Qed.

Lemma sure_mono (P P' : (path -> option (option (list Z))) -> Prop) d : (forall mk, P mk -> P' mk) -> sure P d -> sure P' d.
Proof. intros HP Hs ns Hns. by apply HP, Hs. Qed.

(** Whatever a cut leaves of the disk, the next agent loads [s]. *)
Definition held (s : State) (p : path) (o : os) : Prop :=
  steady (fun q => q = plus p ".tmp") (known (fun s' => s' = s) p) o.

Lemma known_blind L p mk mk' :
  (forall q, ~ q = plus p ".tmp" -> mk q = mk' q) -> known L p mk -> known L p mk'.
Proof. intros H. unfold known. rewrite H; [done|]. intros Hp. by apply (plus_ne p ".tmp"). Qed.

Lemma steady_sure T P P' o : (forall d, sure P d -> sure P' d) -> steady T P o -> steady T P' o.
Proof. intros HP [H1 H2 H3]. split; auto. Qed.

(** The directory synced: only the names now are left. *)
Lemma wpc_syncDir T P p (Q : outcome unit -> os -> Prop) o :
  steady T P o ->
  (forall r o', steady T P o' -> names (cur o') = names (cur o) -> inodes (cur o') = inodes (cur o) ->
    (r = Ret tt \/ exists e, r = Fail e) -> Q r o') ->
  wpc id (sure P) (syncDir p) Q o.
Proof.
  intros Ho HQ. apply wpc_bind, wpc_sys. intros r o1 Hs Hr. assert (steady T P o1) as Ho1 by (by apply (same_steady _ _ o)).
  destruct Hs as (Hc & Hh & Hn). destruct Hr as [->|[e ->]]; cbn [thenc]; [|apply HQ; rewrite ?Hc; eauto].
  destruct Ho1 as [H1 H2 H3]. set (d := Disk (names (cur o1)) (inodes (cur o1)) []).
  assert (forall ns, ns ∈ [names (cur o1)] -> ns ∈ names (cur o1) :: past (cur o1)) as Hin.
  { intros ns ->%list_elem_of_singleton. apply list_elem_of_here. }
  assert (sure P d) as Hd by (intros ns Hns; by apply H1, Hin).
  apply wpc_onto; [by exists d|]. apply HQ; [|simpl; by rewrite Hc..|by left].
  split; simpl; [done|..].
  - intros ns q i Hns. apply H2. by apply Hin.
  - intros t i ns q Ht Hi Hns. apply (H3 t i ns q Ht Hi). by apply Hin.
Qed.

(** The state is held once the directory is synced. *)
Lemma synced_held s p P o :
  steady (fun q => q = plus p ".tmp") P o -> mark (cur o) (names (cur o)) p = Some (Some (document s)) ->
  past (cur o) = [] -> held s p o.
Proof.
  intros [_ H2 H3] Hm Hp. split; [|exact H2|exact H3]. intros ns Hns. rewrite Hp in Hns.
  apply list_elem_of_singleton in Hns as ->. unfold known. rewrite Hm. apply Unmarshal_document.
Qed.

(** The write: its failures leave the state that was held; past the rename the
    new one is shown, and once the directory is synced it is held. *)
Lemma wpc_write p s s0 (Q : outcome unit -> os -> Prop) o :
  let either := known (fun s' => s' = s0 \/ s' = s) p in
  held s0 p o ->
  (forall e o', held s0 p o' -> Q (Fail e) o') ->
  (forall o', steady (fun q => q = plus p ".tmp") either o' ->
    mark (cur o') (names (cur o')) p = Some (Some (document s)) -> Q (Ret tt) o') ->
  wpc id (sure either) (write p s) Q o.
Proof.
  intros either Ho Hf Hr. set (T := fun q => q = plus p ".tmp"). set (P := known (fun s' => s' = s0) p).
  assert (forall d, sure P d -> sure either d) as Hmono.
  { intros d. apply sure_mono. intros mk. unfold P, either, known. destruct (mk p) as [[b|]|]; auto. }
  assert (forall mk mk', (forall q, ~ T q -> mk q = mk' q) -> P mk -> P mk') as blind by (intros mk mk'; apply known_blind).
  assert (T (plus p ".tmp")) as Ht by done. assert (~ T p) as Hp by (intros Hp; by apply (plus_ne p ".tmp")).
  unfold write. apply wpc_bind. apply (wpc_weaken _ (sure P)); [done|].
  apply (wpc_create T P blind); [done|done|..].
  { intros e o1 Hs. apply Hf. by apply (same_steady _ _ o). }
  intros i o1 Ho1 Ha1 Hi Hd1. cbn [thenc]. apply wpc_bind, (wpc_weaken _ (sure P)); [done|].
  apply (wpc_pwrite T P blind (plus p ".tmp")); [done|done|done|lia|].
  intros k e o2 Ho2 Ha2 Hn2 Hk He Hd2. cbn [thenc].
  assert (forall o' e, steady T P o' -> wpc id (sure either) (ignore (close i);; fail e) Q o') as Hdis.
  { intros o' e' Ho'. apply wpc_bind, wpc_ignore, wpc_sys. intros r o3 Hs3 [->|[e3 ->]]; cbn [thenc];
      apply wpc_fail, Hf; by apply (same_steady _ _ o'). }
  destruct e as [e|]; cbn [snd]; [by apply Hdis|]. apply wpc_bind, wpc_errOf, (wpc_weaken _ (sure P)); [done|].
  apply (wpc_fsync T P blind (plus p ".tmp")); [done|done|by rewrite Hn2|..].
  { intros e o3 Hs3. cbn [thenc]. apply Hdis. by apply (same_steady _ _ o2). }
  intros o3 Ho3 Ha3 Hn3 Hs3 Hd3. cbn [thenc]. apply wpc_bind, wpc_sys. intros r o4 Hs4 Hr4.
  assert (steady T P o4) as Ho4 by (by apply (same_steady _ _ o3)). destruct Hs4 as (Hc4 & _).
  destruct Hr4 as [->|[e ->]]; cbn [thenc]; [|by apply Hf].
  assert (fileOf o4 i = fileOf o3 i) as Hfi by (unfold fileOf; by rewrite Hc4).
  assert (data (fileOf o4 i) = document s) as Hdoc.
  { rewrite Hfi, Hd3, Hd2, (He eq_refl), Nat2Z.id, firstn_all, Hd1. apply (overlay_end _ []). }
  assert (names (cur o4) !! plus p ".tmp" = Some i) as Hi4 by (by rewrite Hc4, Hn3, Hn2).
  assert (at_ (cur o4) (plus p ".tmp") = Some (fileOf o4 i)) as Hat4 by (apply at_fileOf; [done|by rewrite Hfi]).
  assert (inodes (cur o4) !! i = Some (fileOf o4 i)) as Hin4 by (unfold at_ in Hat4; by rewrite Hi4 in Hat4).
  assert (steady T either o4) as Ho4' by (by apply (steady_sure _ P)).
  apply wpc_bind, (wpc_rename T either (plus p ".tmp") p i); [done|done|done|done|..].
  - intros mk Hm _. unfold either, known. rewrite Hm. unfold mark. rewrite lookup_insert_eq. simpl. rewrite Hin4. simpl.
    rewrite Hfi, Hs3, <- Hfi, Hdoc, Unmarshal_document. by right.
  - intros e o5 Hs5. apply Hf. by apply (same_steady _ _ o4).
  - intros o5 Ho5 Hn5 Hi5. cbn [thenc].
    assert (mark (cur o5) (names (cur o5)) p = Some (Some (document s))) as Hm5.
    { unfold mark. rewrite Hn5, lookup_insert_eq. simpl. rewrite Hi5, Hin4. simpl. by rewrite Hfi, Hs3, <- Hfi, Hdoc. }
    apply wpc_bind, wpc_attempt, wpc_sys. intros r o6 Hs6 Hr6.
    assert (steady T either o6) as Ho6 by (by apply (same_steady _ _ o5)). destruct Hs6 as (Hc6 & _).
    destruct Hr6 as [->|[e ->]]; cbn [thenc]; [|apply wpc_ret, Hr; [done|by rewrite Hc6]].
    apply wpc_ignore, (wpc_syncDir T); [done|]. intros r o7 Ho7 Hn7 Hi7 Hr7.
    assert (Q (Ret tt) o7) by (apply Hr; [done|]; by rewrite (mark_same _ _ _ _ Hi7), Hn7, Hc6).
    by destruct Hr7 as [->|[e ->]].
Qed.

(** C29: An update is whole or nothing: while it runs a cut leaves the old state or
    the new one; when it fails both the agent and the stick keep the old one;
    when it returns the file is the new one, for good once the directory is
    synced. *)
Theorem update_durable fn o sf :
  held (sf_disk sf) (sf_path sf) o ->
  let next := fn (sf_s sf) in let r := update fn (o, sf) in
  (forall d, d ∈ during o r.2.1 -> loads (fun s => s = sf_disk sf \/ s = next) (sf_path sf) d) /\
  match r.1 with
  | Ret _ => sf_s r.2.2 = next /\ sf_disk r.2.2 = next /\ sf_path r.2.2 = sf_path sf /\
      (next = sf_disk sf \/ data <$> at_ (cur r.2.1) (sf_path sf) = Some (document next)) /\
      (next = sf_disk sf \/ past (cur r.2.1) = [] -> held next (sf_path sf) r.2.1)
  | Fail _ => r.2.2 = sf /\ held (sf_disk sf) (sf_path sf) r.2.1
  | _ => False
  end.
Proof.
  intros Ho next r. set (either := known (fun s => s = sf_disk sf \/ s = next) (sf_path sf)).
  assert (sure either (cur o)) as Hstart.
  { eapply sure_mono, (st_sure _ _ _ Ho). intros mk. unfold either, known. destruct (mk _) as [[b|]|]; auto. }
  revert r. unfold update, mbind, SE_bind, gets, snd. cbv beta iota zeta. fold next.
  destruct (decide (next = sf_disk sf)) as [Heq|Hne].
  { simpl. split.
    - intros d Hd. unfold during in Hd. simpl in Hd. rewrite drop_all in Hd. apply list_elem_of_singleton in Hd as ->.
      by apply known_loads.
    - split; [done|]. split; [done|]. split; [done|]. split; [by left|]. intros _. by rewrite Heq. }
  destruct (wpc_during (sure either) (write (sf_path sf) next) (fun q o' => match q with
    | Ret _ => steady (fun q => q = plus (sf_path sf) ".tmp") either o' /\
        mark (cur o') (names (cur o')) (sf_path sf) = Some (Some (document next))
    | Fail _ => held (sf_disk sf) (sf_path sf) o'
    | _ => False end) o) as [Hd HQ]; [done|by apply (wpc_write _ _ (sf_disk sf))|].
  unfold onOs. cbn [fst snd].
  destruct (write (sf_path sf) next o) as [q o1]. cbn [fst snd] in *. rewrite Forall_forall in Hd.
  destruct q as [[]|e| |]; cbn [fst snd modify]; (split; [intros d Hin; by apply known_loads, Hd|]); try done.
  destruct HQ as [Hs Hm]. do 3 (split; [done|]). split; [right|intros [?|Hp]; [done|by apply (synced_held _ _ either)]].
  unfold mark in Hm. unfold at_. destruct (names (cur o1) !! sf_path sf) as [i|]; simpl in *; [|done].
  destruct (inodes (cur o1) !! i) as [f|]; simpl in *; [|done]. destruct (synced f); congruence.
Qed.
End StateFile.
