(* ===== verification/Agent.v ===== *)
(** * The update agent

    The state of src/ota/internal/agent's [Agent] and its small helpers
    (agent.go, rpc's error values, supervise.go's counters), with the health
    watcher (health.go). The control channel, the app's exit and the timers of
    a select are [os_Select]: one wake for each turn of a select, a wake the
    select does not wait for being its timer's. Log lines and the texts of
    times are not modelled. *)
From stdpp Require Import pretty.
From S2P Require Import Prelude Circular Machine Files Slots AgentState.
Open Scope Z_scope.

(** The configuration (config.go) and what the process is. *)
Class Config := {
  SlotRootName : string;
  HealthDir : path;
  StatePath : path;
  AppGrace : Z;
  HealthTimeout : Z;
  Stable : Z;
  MaxFails : Z;
  FactoryNames : list string;
  Self : Z (* os.Getpid *);
  OurExe : path (* os.Executable, resolved *);
  gpmcFD : Z (* the inherited descriptor, -1 without *);
}.
Definition SlotRoot {C : Config} : path := Clean SlotRootName.

(** ** Health *)

(** The token's stat identity; seen marks that it was read once. *)
Record healthSig := HealthSig { sig_mod : Z; sig_size : Z; sig_seen : bool }.
#[export] Instance healthSig_eq_dec : EqDecision healthSig.
Proof. solve_decision. Defined.

Record healthWatcher := HealthWatcher {
  lastSig : healthSig; lastChange : Z; healthyOnce : bool; started : Z; lastContent : list Z
}.
Record healthStatus := { HealthyOnce : bool; SinceChange : Z; Token : list Z }.

Section Health.
Context {E : OsEnv}.

Definition newHealthWatcher : F healthWatcher :=
  note EvTokenRemove;;
  t ← Now; mret (HealthWatcher (HealthSig 0 0 false) 0 false t []).

Definition readPrefix : F (list Z) :=
  b ← gets (fun o => take 256 (os_TokenData (oslog o))); note (EvTokenRead b);; mret b.

Definition poll (h : healthWatcher) : F healthWatcher :=
  r ← gets (fun o => os_Token (oslog o));
  note (EvToken r);;
  match r with
  | None => mret h
  | Some (m, size) =>
      let sig := HealthSig m size true in
      content ← readPrefix;
      if decide (sig <> lastSig h \/ content <> lastContent h) then
        t ← Now; mret (HealthWatcher sig t true (started h) content)
      else mret h
  end.

Definition healthStatusOf (h : healthWatcher) : F healthStatus :=
  t ← Now;
  let since := t - lastChange h in
  mret {| HealthyOnce := healthyOnce h;
          SinceChange := if healthyOnce h then since - Z.rem since 1000000 else 0;
          Token := lastContent h |}.

Definition verdict (h : healthWatcher) (grace staleness : Z) : F (bool * string) :=
  t ← Now;
  mret (if negb (healthyOnce h) then
          if grace <? t - started h then (false, "no first health report within grace"%string)
          else (true, "waiting first report"%string)
        else if staleness <? t - lastChange h then (false, "health token stale"%string)
        else (true, "ok"%string)).
End Health.

(** ** The agent *)

(** StartedAt and the times in LastExit are texts, left out. *)
Record appState := AppState {
  Running : bool; Adopted : bool; app_PID : Z; Slot : string; Fails : Z; LastExit : string;
  Health : option healthStatus
}.
Definition zeroApp : appState := AppState false false 0 "" 0 "" None.

Record agent := Agent {
  store : Store;
  st : stateFile;
  app : appState;
  paused : bool;
  confirmedRun : string (* the slot this run found confirmed *);
  confirmFailed : string (* the slot whose confirm write last failed *)
}.
Abbreviation A := (SE agent).

Definition set_app (x : appState) (a : agent) : agent :=
  Agent (store a) (st a) x (paused a) (confirmedRun a) (confirmFailed a).
Definition set_paused (x : bool) (a : agent) : agent :=
  Agent (store a) (st a) (app a) x (confirmedRun a) (confirmFailed a).
Definition set_confirmed (run failed : string) (a : agent) : agent :=
  Agent (store a) (st a) (app a) (paused a) run failed.
Definition sysOf (a : agent) : os := sys_of (store a).
Definition withSys (o : os) (a : agent) : agent :=
  Agent (Build_Store o (sums (store a))) (st a) (app a) (paused a) (confirmedRun a) (confirmFailed a).

(** A call of the system, the state file or the store, in the agent. *)
Definition zoom {B} (m : F B) : A B := fun a => let r := m (sysOf a) in (r.1, withSys r.2 a).
Definition onState {B} (m : SE (os * stateFile) B) : A B := fun a =>
  let r := m (sysOf a, st a) in
  (r.1, Agent (Build_Store r.2.1 (sums (store a))) r.2.2 (app a) (paused a) (confirmedRun a) (confirmFailed a)).
Definition onStore {B} (m : SE Store B) : A B := fun a =>
  let r := m (store a) in (r.1, Agent r.2 (st a) (app a) (paused a) (confirmedRun a) (confirmFailed a)).

Section Agent.
Context {E : OsEnv} {C : Config}.

Definition event (kind slot : string) : A unit := zoom (note (EvNotify kind slot)).
Definition setAppState (f : appState -> appState) : A unit := modify (fun a => set_app (f (app a)) a).
Definition setPaused (b : bool) : A unit := modify (set_paused b).

(** clearFails starts the failure count over. *)
Definition clearFails : A unit :=
  setAppState (fun s => AppState (Running s) (Adopted s) (app_PID s) (Slot s) 0 (LastExit s) (Health s)).
Definition bumpFail (why : string) : A unit :=
  setAppState (fun s => AppState false (Adopted s) 0 (Slot s) (int32 (Fails s + 1)) why (Health s)).

(** The next wake of a select. *)
Definition select : A wake := zoom (w ← gets (fun o => os_Select (oslog o)); note (EvSelect w);; mret w).

(** A control request, as a handler sees it: the supervisor's answer. *)
Definition ctlRequest (op : ctlOp) : A unit :=
  r ← zoom (r ← gets (fun o => os_Request (oslog o) op); note (EvRequest op r);; mret r);
  liftErr r.

Definition pidPath (name : string) : path := Join HealthDir name.
Definition appPidFile : string := "ota-app.pid".
End Agent.
