(* ===== verification/Takeover.v ===== *)
(** * Taking the instrument over

    src/ota/internal/agent/takeover.go and the register reads of
    src/ota/internal/gpmc: the factory firmware is stopped at an idle landing
    before it is killed, for a kill in mid-frame freezes the bus. *)
From S2P Require Import Prelude Circular Machine Files Slots AgentState Agent.

(** ** gpmc *)

Definition SelVersion : Z := 0x12.
Definition SelStatus : Z := 0x38.
Definition SelFill : Z := 0x46.
Definition VersionMagic : Z := 0x52.
Definition FillMask : Z := 0x7ff.

(** The 6-byte ioctl structure of an access, and the value a read returns. *)
Definition EncodeAccess (plane sel val : Z) : list Z := [plane; 0] ++ leBytes 2 sel ++ leBytes 2 val.
Definition DecodeValue (b : list Z) : Z := leVal (slice 4 2 b).

(** ** Takeover *)

Record TakeoverOpts := { DryRun : bool; Force : bool }.
(** The result; of the steps' texts, their format. *)
Record TakeoverResult := TkResult { OK : bool; Steps : list string; Candidates : list Holder; Err : string }.
Definition step (s : string) (r : TakeoverResult) : TakeoverResult := TkResult (OK r) (Steps r ++ [s]) (Candidates r) (Err r).
Definition fails (e : string) (r : TakeoverResult) : TakeoverResult := TkResult (OK r) (Steps r) (Candidates r) e.
Definition okay (r : TakeoverResult) : TakeoverResult := TkResult true (Steps r) (Candidates r) (Err r).

Definition shellish : list string := ["sh"; "ash"; "hush"; "bash"; "busybox"; "login"; "getty"; "init"].

(** [strings.Contains] *)
Definition Contains (s n : string) : bool := match String.index 0 n s with Some _ => true | None => false end.

Definition ms (x : Z) : Z := x * 1000000.
Definition sec (x : Z) : Z := x * 1000000000.

Section Takeover.
Context {E : OsEnv} {J : JsonEnv} {C : Config}.

(** [Reader.Read] of plane 1: fails without the inherited descriptor. *)
Definition readReg (sel : Z) : F Z :=
  guard (gpmcFD <? 0) (EMsg "gpmc: no inherited fd" []);;
  r ← gets (fun o => os_Reg (oslog o) sel);
  let r := match r with inl v => inl (u16 v) | inr e => inr (EWrap "gpmc: ioctl read sel=0x%02x" [sel] e) end in
  note (EvReg sel r);; lift r.

Definition VerifyVersion : F (Z * bool) :=
  r ← attempt (readReg SelVersion);
  mret (match r with inl v => (v, v =? VersionMagic) | inr _ => (0, false) end).

(** [FillFrozen]: the counter holds still across [pairs] pairs of reads. *)
Fixpoint fillPairs (pairs : nat) (gap prev : Z) (seen : list Z) : F (bool * list Z) :=
  match pairs with
  | O => mret (true, seen)
  | S pairs =>
      note (EvSleepFor gap);;
      v ← readReg SelFill;
      let v := v .& FillMask in
      if negb (v =? prev) then mret (false, seen ++ [v]) else fillPairs pairs gap v (seen ++ [v])
  end.
Definition FillFrozen (pairs : nat) (gap : Z) : F (bool * list Z) :=
  v ← readReg SelFill;
  let v := v .& FillMask in
  fillPairs pairs gap v [v].

(** ** The factory's processes *)

(** pid's parent chain, bounded against /proc races. *)
Fixpoint descends (n : nat) (o : os) (pid anc : Z) : bool :=
  match n with
  | O => false
  | S n => if pid <=? 1 then false else
           let p := os_Parent (oslog o) pid in if p =? anc then true else descends n o p anc
  end.
Definition descendsFrom (o : os) (pid anc : Z) : bool := descends 64 o pid anc.

Definition matchesFactoryName (h : Holder) : bool :=
  existsb (fun n => negb (String.eqb n "") && (Contains (Comm h) n || Contains (Exe h) n)) FactoryNames.

(** [strings.HasPrefix(rp, slotRoot+"/")] *)
Definition beneath (rp slotRoot : path) : bool :=
  Bool.eqb rp.1 slotRoot.1 && negb (bool_decide (slotRoot.2 = [])) &&
  bool_decide (length slotRoot.2 < length rp.2)%nat && bool_decide (take (length slotRoot.2) rp.2 = slotRoot.2).

Definition isCandidate (o : os) (h : Holder) : bool :=
  let slotRoot := default SlotRoot (os_Links (oslog o) SlotRootName) in
  let base := List.last (Clean (Exe h)).2 "." in
  let ours := negb (String.eqb (Exe h) "") &&
              match os_Links (oslog o) (Exe h) with
              | Some rp => bool_decide (rp = OurExe) || beneath rp slotRoot
              | None => false
              end in
  negb ((PID h =? Self) || (PID h =? 1) || descendsFrom o (PID h) Self) &&
  negb ours &&
  negb (bool_decide (base ∈ shellish) && negb (matchesFactoryName h)).

Definition factoryCandidates : F (list Holder) :=
  l ← gets (fun o => os_Holders (oslog o));
  note (EvHolders l);;
  gets (fun o => List.filter (isCandidate o) l).

(** ** The landing *)

Definition vxiCall (cmd : string) : F unit :=
  r ← gets (fun o => os_Vxi (oslog o) cmd); note (EvVxi cmd r);; liftErr r.

(** STOP over the factory's own SCPI; the link is always destroyed. *)
Definition factoryStop : F unit :=
  vxiCall "dial";;
  finally (
    vxiCall "STOP";;
    ignore (vxiCall "TRMD STOP");;
    ignore (vxiCall "SAST?")) (fun e => ignore (vxiCall "destroy_link");; mret e).

(** stopGate: whether the takeover may go on. *)
Definition stopGate (res : TakeoverResult) (force : bool) : F (bool * TakeoverResult) :=
  match Candidates res with
  | [] => mret (true, step "no factory candidates hold %s" res)
  | _ =>
      e ← errOf factoryStop;
      match e with
      | None => mret (true, step "factory STOP sent" res)
      | Some _ =>
          let res := step "VXI-11 STOP failed: %v" res in
          if negb force then mret (false, fails "could not command factory STOP" res)
          else mret (true, step "force: continuing without STOP" res)
      end
  end.

(** confirmIdle: the version answers and the fill counter is frozen, before the
    deadline; its last error otherwise (nil when it never looked). *)
Fixpoint idleLoop (fuel : nat) (deadline : Z) (last : option err) (res : TakeoverResult) : F (option err * TakeoverResult) :=
  match fuel with
  | O => outOfFuel
  | S fuel =>
      t ← Now;
      if negb (t <? deadline) then mret (last, res)
      else
        v ← VerifyVersion;
        if negb v.2 then
          note (EvSleepFor (ms 300));;
          idleLoop fuel deadline (Some (EMsg "version 0x12 read 0x%04x, want 0x%04x" [v.1; VersionMagic])) res
        else
          r ← attempt (FillFrozen 3 (ms 50));
          match r with
          | inr e => note (EvSleepFor (ms 300));; idleLoop fuel deadline (Some e) res
          | inl (true, seen) =>
              s ← attempt (readReg SelStatus);
              mret (None, step "idle confirmed: version=0x0052 fill frozen at %v" res)
          | inl (false, seen) =>
              note (EvSleepFor (ms 300));;
              idleLoop fuel deadline (Some (EMsg "fill counter still advancing: %v" seen)) res
          end
  end.
Definition confirmIdle (fuel : nat) (res : TakeoverResult) (timeout : Z) : F (option err * TakeoverResult) :=
  t ← Now; idleLoop fuel (t + timeout) None res.

(** ** The kill *)

Definition kill (pid : Z) : F unit :=
  r ← gets (fun o => os_Kill (oslog o) pid); note (EvKill pid true r);; liftErr r.

Fixpoint killAll (l : list Holder) (killed : Z) (res : TakeoverResult) : F (Z * TakeoverResult) :=
  match l with
  | [] => mret (killed, res)
  | h :: l =>
      e ← errOf (kill (PID h));
      match e with
      | None => killAll l (killed + 1) (step "SIGKILL pid=%d comm=%s (round %d)" res)
      | Some _ => killAll l killed res
      end
  end.

(** The rounds left of four; the first takes the reported set. *)
Fixpoint killRounds (rounds : nat) (first : bool) (killed : Z) (res : TakeoverResult) : F (Z * TakeoverResult) :=
  match rounds with
  | O =>
      left_ ← factoryCandidates;
      mret (killed, match left_ with [] => res | _ => step "WARNING: %d factory holder(s) survived/respawned: %v" res end)
  | S rounds =>
      cands ← factoryCandidates;
      let cands := if first then Candidates res else cands in
      match cands with
      | [] => mret (killed, res)
      | _ =>
          k ← killAll cands killed res;
          note (EvSleepFor (ms 400));;
          killRounds rounds false k.1 k.2
      end
  end.
Definition killFactory (res : TakeoverResult) : F (Z * TakeoverResult) := killRounds 4 true 0 res.

(** The watchdog's Acquire, and a goroutine. *)
Definition acquireWatchdog : F unit :=
  r ← gets (fun o => os_Acquire (oslog o)); note (EvAcquire r);; liftErr r.
Definition go (f : string) : F unit := note (EvGo f).

Definition takeoverIdleTimeout : Z := sec 12.

(** Past the gates: persist, kill, watchdog. *)
Definition takeoverCommit (res : TakeoverResult) : A TakeoverResult :=
  e ← errOf (onState (update (fun s => {| TakenOver := true; AutoTakeover := AutoTakeover s |})));
  match e with
  | Some _ => mret (fails "persist state" res)
  | None =>
      let res := step "state persisted: taken_over=true" res in
      k ← zoom (killFactory res);
      let res := step "killed %d factory processes" k.2 in
      e ← zoom (errOf acquireWatchdog);
      res ← match e with
            | Some _ => zoom (go "keepWatchdog");; mret (step "watchdog acquire failed (%v)" res)
            | None => mret (step "watchdog acquired, petting every %s" res)
            end;
      zoom (go "reassertNetwork");;
      event "takeover.done" "";;
      mret (step "takeover complete" (okay res))
  end.

Definition Takeover (fuel : nat) (opts : TakeoverOpts) : A TakeoverResult :=
  let res := TkResult false [] [] "" in
  s ← onState get;
  if TakenOver s then zoom (go "keepWatchdog");; mret (step "already taken over (idempotent)" (okay res))
  else if gpmcFD <? 0 then mret (step "gate: inherited fd MISSING" (fails "no inherited /dev/Gpmc fd in this process" res))
  else
    let res := step "gate: inherited gpmc fd=%d" res in
    cands ← zoom factoryCandidates;
    let res := TkResult (OK res) (Steps res ++ map (fun _ => "candidate pid=%d comm=%s exe=%s"%string) cands) cands (Err res) in
    if DryRun opts then mret (step "dry-run: stopping here" (okay res))
    else
      let res := step "pre-kill IPs: %v" res in
      g ← zoom (stopGate res (Force opts));
      if negb g.1 then mret g.2
      else
        i ← zoom (confirmIdle fuel g.2 takeoverIdleTimeout);
        match i.1 with
        | Some _ => if negb (Force opts) then mret (fails "idle landing not confirmed" i.2)
                    else takeoverCommit (step "force: continuing without idle confirm (%v)" i.2)
        | None => takeoverCommit i.2
        end.

(** The idempotent tail of Takeover, for a holder found once taken over. *)
Definition reclaimBus (fuel : nat) : A unit :=
  cands ← zoom factoryCandidates;
  let res := TkResult false [] cands "" in
  match cands with
  | [] => mret tt
  | _ =>
      res ← (if gpmcFD <? 0 then mret res
             else
               zoom (ignore factoryStop);;
               i ← zoom (confirmIdle fuel res (sec 8)); mret i.2);
      zoom (killFactory res);;
      event "bus.reclaimed" ""
  end.
End Takeover.
