(* ===== verification/Landing.v ===== *)
(** * No kill before the landing

    What a takeover's history says of a kill: the factory app was stopped, the
    engine seen idle after it, and the state persisted, in that order, all
    before. *)
From S2P Require Import Prelude Circular Machine Files Crash Slots SlotsRun AgentState Agent Takeover.

(** ** Histories *)

(** The history grew by events that are none of [K]. *)
Definition grew (K : osEvent -> Prop) (o o' : os) : Prop :=
  exists l, oslog o' = oslog o ++ l /\ Forall (fun e => ~ K e) l.
#[export] Instance grew_pre K : PreOrder (grew K).
Proof.
  split; [intros o; exists []; by rewrite app_nil_r|].
  intros o1 o2 o3 (l1 & H1 & F1) (l2 & H2 & F2). exists (l1 ++ l2). rewrite H2, H1, (assoc (++)). split; [done|].
  by apply Forall_app.
Qed.

Definition isKill (e : osEvent) : Prop := match e with EvKill _ _ _ => True | _ => False end.
Definition none (e : osEvent) : Prop := False.

(** A relation of the system's, of the agent. *)
Definition ofSys (R : os -> os -> Prop) (a a' : agent) : Prop := R (sysOf a) (sysOf a').
#[export] Instance ofSys_pre R : PreOrder R -> PreOrder (ofSys R).
Proof. intros HR. split; [intros a; unfold ofSys; reflexivity|]. intros a1 a2 a3 H1 H2. unfold ofSys in *. by etransitivity. Qed.
Lemma steps_zoom {B} R (m : F B) : steps R m -> steps (ofSys R) (zoom m).
Proof. intros H a. apply H. Qed.
Lemma steps_onState {B} R (m : SE (os * stateFile) B) :
  steps (fun s s' => R s.1 s'.1) m -> steps (ofSys R) (onState m).
Proof. intros H a. apply (H (sysOf a, st a)). Qed.

Section Steps.
Context {E : OsEnv} {J : JsonEnv} {C : Config}.

Lemma grew_note K e : ~ K e -> steps (grew K) (note e).
Proof. intros H. apply steps_modify. intros o. exists [e]. split; [done|]. by apply Forall_singleton. Qed.
Lemma grew_modify K (f : os -> os) : (forall o, oslog (f o) = oslog o) -> steps (grew K) (modify f).
Proof. intros Hf. apply steps_modify. intros o. exists []. by rewrite Hf, app_nil_r. Qed.

Ltac grew_tac := steps_tac; try (by apply grew_note; intros []); try (by apply grew_modify).

Context (K : osEvent -> Prop) (files : forall c r, ~ K (EvFile c r)).

Lemma grew_sys c : steps (grew K) (sys c).
Proof using files. unfold sys. steps_tac. by apply grew_note. Qed.
Hint Resolve grew_sys : steps.
Lemma grew_write p s : steps (grew K) (write p s).
Proof using files.
  unfold write, create, pwrite, close, fsync, rename, find, syncDir, setFile, setNames, Now. steps_tac; by apply grew_modify.
Qed.
Lemma grew_update fn : steps (fun s s' => grew K s.1 s'.1) (update fn).
Proof using files.
  intros [o sf]. unfold update, mbind, SE_bind, gets, snd. cbv beta iota zeta. destruct (decide _).
  - simpl. reflexivity.
  - unfold onOs. cbn [fst snd]. pose proof (grew_write (sf_path sf) (fn (sf_s sf)) o) as Hw.
    destruct (write (sf_path sf) (fn (sf_s sf)) o) as [[] o1]; exact Hw.
Qed.
End Steps.

(** ** The landing *)

Section Landing.
Context {E : OsEnv} {J : JsonEnv} {C : Config}.

(** [n] more pairs of reads of the fill counter, [gap] apart, all of [v]. *)
Inductive froze (gap v : Z) : nat -> list osEvent -> Prop :=
| froze_O : froze gap v O []
| froze_S n x l : x .& FillMask = v -> froze gap v n l ->
    froze gap v (S n) (EvSleepFor gap :: EvReg SelFill (inl x) :: l).

(** The version answered and four reads of the fill counter agreed. *)
Definition idle (l : list osEvent) : Prop :=
  exists x l', l = EvReg SelVersion (inl VersionMagic) :: EvReg SelFill (inl x) :: l' /\ froze (ms 50) (x .& FillMask) 3 l'.
Definition landed (l : list osEvent) : Prop := exists l1 l2 l3, l = l1 ++ l2 ++ l3 /\ idle l2.

Lemma readReg_run sel o r o' :
  readReg sel o = (r, o') ->
  (exists v, r = Ret v /\ oslog o' = oslog o ++ [EvReg sel (inl v)]) \/ (exists e, r = Fail e).
Proof.
  unfold readReg, mbind, SE_bind, gets, note, modify. destruct (gpmcFD <? 0); cbn; [intros [= <- <-]; eauto|].
  destruct (os_Reg (oslog o) sel) as [v|e]; cbn; intros [= <- <-]; [left|right]; eauto.
Qed.
Lemma readReg_Ret sel o v o' : readReg sel o = (Ret v, o') -> oslog o' = oslog o ++ [EvReg sel (inl v)].
Proof. intros H. apply readReg_run in H as [(w & [= <-] & H)|[e H]]; [done|discriminate H]. Qed.

Lemma fillPairs_froze gap n : forall v seen o seen' o',
  fillPairs n gap v seen o = (Ret (true, seen'), o') -> exists l, oslog o' = oslog o ++ l /\ froze gap v n l.
Proof.
  induction n as [|n IH]; intros v seen o seen' o' H; cbn [fillPairs] in H.
  { injection H as _ ->. exists []. rewrite app_nil_r. split; [done|constructor]. }
  apply bind_Ret_inv in H as ([] & o1 & H1 & H). injection H1 as <-.
  apply bind_Ret_inv in H as (x & o2 & H2 & H). apply readReg_Ret in H2.
  destruct (x .& FillMask =? v) eqn:Hx; cbn [negb] in H; [|discriminate H]. apply Z.eqb_eq in Hx. rewrite Hx in H.
  apply IH in H as (l & Hl & Hfr). exists (EvSleepFor gap :: EvReg SelFill (inl x) :: l). split; [|by constructor].
  rewrite Hl, H2. simpl. by rewrite <- !(assoc (++)).
Qed.

Lemma FillFrozen_froze n gap o seen o' :
  FillFrozen n gap o = (Ret (true, seen), o') ->
  exists x l, oslog o' = oslog o ++ EvReg SelFill (inl x) :: l /\ froze gap (x .& FillMask) n l.
Proof.
  intros H. unfold FillFrozen in H. apply bind_Ret_inv in H as (x & o1 & H1 & H). apply readReg_Ret in H1.
  apply fillPairs_froze in H as (l & Hl & Hfr). exists x, l. split; [|done]. by rewrite Hl, H1, <- (assoc (++)).
Qed.

Lemma VerifyVersion_true o v o' :
  VerifyVersion o = (Ret (v, true), o') -> oslog o' = oslog o ++ [EvReg SelVersion (inl VersionMagic)].
Proof.
  unfold VerifyVersion. intros H. apply bind_Ret_inv in H as (r & o1 & H1 & H).
  apply attempt_Ret_inv in H1 as [(x & -> & H1)|(e & -> & H1)]; [|discriminate H].
  injection H as _ Hx <-. apply Z.eqb_eq in Hx. subst x. by apply readReg_Ret.
Qed.

(** The calls between grow the history. *)
Lemma grew_readReg sel : steps (grew none) (readReg sel).
Proof. unfold readReg. steps_tac. apply grew_note. by intros []. Qed.
Lemma grew_fillPairs gap n : forall v seen, steps (grew none) (fillPairs n gap v seen).
Proof.
  induction n as [|n IH]; intros v seen; cbn [fillPairs]; steps_tac; try apply IH; try apply grew_readReg.
  apply grew_note. by intros [].
Qed.

Lemma grew_run {B} K (m : F B) o r o' : steps (grew K) m -> m o = (r, o') -> exists l, oslog o' = oslog o ++ l.
Proof. intros Hm H. specialize (Hm o). rewrite H in Hm. destruct Hm as (l & Hl & _). by exists l. Qed.

Lemma landed_after l l' : landed l -> landed (l' ++ l).
Proof. intros (l1 & l2 & l3 & -> & H). exists (l' ++ l1), l2, l3. by rewrite <- (assoc (++)). Qed.
Lemma landed_before l l' : landed l -> landed (l ++ l').
Proof. intros (l1 & l2 & l3 & -> & H). exists l1, l2, (l3 ++ l'). by rewrite <- !(assoc (++)). Qed.

Lemma grew_VerifyVersion : steps (grew none) VerifyVersion.
Proof. unfold VerifyVersion. steps_tac. apply grew_readReg. Qed.
Lemma grew_FillFrozen n gap : steps (grew none) (FillFrozen n gap).
Proof. unfold FillFrozen. steps_tac; [apply grew_readReg|apply grew_fillPairs]. Qed.

Lemma idleLoop_landed deadline fuel : forall last res o res' o',
  idleLoop fuel deadline last res o = (Ret (None, res'), o') ->
  (last = None /\ deadline <= os_Now (oslog o)) \/ exists l, oslog o' = oslog o ++ l /\ landed l.
Proof.
  induction fuel as [|fuel IH]; intros last res o res' o' H; [discriminate H|]. cbn [idleLoop] in H.
  apply bind_Ret_inv in H as (t & o1 & H1 & H). injection H1 as <- <-.
  destruct (Z.ltb_spec (os_Now (oslog o)) deadline) as [Hlt|Hge]; cbn [negb] in H.
  2: { injection H as -> _ _. left. by split. }
  right. apply bind_Ret_inv in H as ([v ok] & o1 & H1 & H). cbn [fst snd] in H.
  assert (forall e o2 o3, (exists l, oslog o2 = oslog o ++ l) ->
    (note (EvSleepFor (ms 300));; idleLoop fuel deadline (Some e) res) o2 = (Ret (None, res'), o3) ->
    exists l, oslog o3 = oslog o ++ l /\ landed l) as Hagain.
  { intros e o2 o3 [l2 H2] H3. apply bind_Ret_inv in H3 as ([] & o4 & H4 & H3). injection H4 as <-.
    apply IH in H3 as [[H3 _]|(l3 & H3 & Hl)]; [discriminate H3|]. eexists. rewrite H3. cbn [oslog enter]. rewrite H2, <- !(assoc (++)).
    split; [reflexivity|]. by apply landed_after, landed_after. }
  destruct ok; cbn [negb] in H.
  2: { apply Hagain in H; [done|]. eapply grew_run; [apply grew_VerifyVersion|exact H1]. }
  apply VerifyVersion_true in H1. apply bind_Ret_inv in H as (r & o2 & H2 & H).
  apply attempt_Ret_inv in H2 as [([[] seen] & -> & H2)|(e & -> & H2)].
  - apply FillFrozen_froze in H2 as (x & l & H2 & Hfr).
    apply bind_Ret_inv in H as (s & o3 & H3 & H). injection H as _ <-.
    pose proof (steps_attempt _ _ (grew_readReg SelStatus) o2) as Hg. rewrite H3 in Hg. destruct Hg as (l3 & Hl3 & _).
    cbn [snd] in Hl3.
    exists ([EvReg SelVersion (inl VersionMagic)] ++ (EvReg SelFill (inl x) :: l) ++ l3). split.
    + rewrite Hl3, H2, H1. by rewrite <- !(assoc (++)).
    + exists [], (EvReg SelVersion (inl VersionMagic) :: EvReg SelFill (inl x) :: l), l3. split; [done|].
      by exists x, l.
  - apply Hagain in H; [done|]. destruct (grew_run none _ _ _ _ (grew_FillFrozen 3 (ms 50)) H2) as [l Hl].
    eexists. by rewrite Hl, H1, <- (assoc (++)).
  - apply Hagain in H; [done|]. destruct (grew_run none _ _ _ _ (grew_FillFrozen 3 (ms 50)) H2) as [l Hl].
    eexists. by rewrite Hl, H1, <- (assoc (++)).
Qed.

(** An idle landing confirmed is one the history shows. *)
Lemma confirmIdle_landed fuel res timeout o res' o' :
  0 < timeout -> confirmIdle fuel res timeout o = (Ret (None, res'), o') ->
  exists l, oslog o' = oslog o ++ l /\ landed l.
Proof.
  intros Ht H. unfold confirmIdle in H. apply bind_Ret_inv in H as (t & o1 & H1 & H). injection H1 as <- <-.
  apply idleLoop_landed in H as [[_ H]|H]; [lia|done].
Qed.

(** ** What is no kill *)

Lemma file_noKill c r : ~ isKill (EvFile c r).
Proof. by intros []. Qed.

Ltac grew_tac := steps_tac; first [by apply grew_note; intros [] | by apply grew_modify | by apply grew_sys | idtac].

Lemma noKill_candidates : steps (grew isKill) factoryCandidates.
Proof. unfold factoryCandidates. grew_tac. Qed.
Lemma noKill_vxi cmd : steps (grew isKill) (vxiCall cmd).
Proof. unfold vxiCall. grew_tac. Qed.
Lemma noKill_factoryStop : steps (grew isKill) factoryStop.
Proof. unfold factoryStop. steps_tac; apply noKill_vxi. Qed.
Lemma noKill_stopGate res force : steps (grew isKill) (stopGate res force).
Proof. unfold stopGate. steps_tac; apply noKill_factoryStop. Qed.
Lemma noKill_readReg sel : steps (grew isKill) (readReg sel).
Proof. unfold readReg. grew_tac. Qed.
Lemma noKill_fillPairs gap n : forall v seen, steps (grew isKill) (fillPairs n gap v seen).
Proof.
  induction n as [|n IH]; intros v seen; cbn [fillPairs]; steps_tac; try apply IH; try apply noKill_readReg. grew_tac.
Qed.
Lemma noKill_idleLoop deadline fuel : forall last res, steps (grew isKill) (idleLoop fuel deadline last res).
Proof.
  induction fuel as [|fuel IH]; intros last res; cbn [idleLoop]; [apply steps_outOfFuel, _|].
  unfold Now, VerifyVersion, FillFrozen.
  steps_tac; first [apply IH | apply noKill_readReg | apply noKill_fillPairs | grew_tac].
Qed.
Lemma noKill_confirmIdle fuel res timeout : steps (grew isKill) (confirmIdle fuel res timeout).
Proof. unfold confirmIdle, Now. steps_tac. apply noKill_idleLoop. Qed.

(** ** The evidence *)

Lemma factoryStop_sent o o' : factoryStop o = (Ret tt, o') -> exists l, oslog o' = oslog o ++ l /\ EvVxi "STOP" None ∈ l.
Proof.
  assert (forall cmd o1 o2, vxiCall cmd o1 = (Ret tt, o2) -> oslog o2 = oslog o1 ++ [EvVxi cmd None]) as Hcall.
  { intros cmd o1 o2. unfold vxiCall, mbind, SE_bind, gets, note, modify. cbn. by destruct (os_Vxi _ _); intros [= <-]. }
  intros H. apply bind_Ret_inv in H as ([] & o1 & H1 & H). apply Hcall in H1.
  apply finally_Ret_inv in H as (o2 & H2 & H3). apply bind_Ret_inv in H2 as ([] & o4 & H4 & H5). apply Hcall in H4.
  assert (forall m : F unit, steps (grew isKill) m -> forall o1 r o2, m o1 = (r, o2) -> exists l, oslog o2 = oslog o1 ++ l) as Hgrow.
  { intros m Hm o6 r o7 Hr. by apply (grew_run isKill _ _ _ _ Hm Hr). }
  apply (Hgrow _) in H5 as [l5 H5]; [|steps_tac; apply noKill_vxi].
  apply (grew_run isKill) in H3 as [l3 H3]; [|steps_tac; apply noKill_vxi].
  exists ([EvVxi "dial" None] ++ [EvVxi "STOP" None] ++ l5 ++ l3). split.
  - by rewrite H3, H5, H4, H1, <- !(assoc (++)).
  - rewrite !elem_of_app, !list_elem_of_singleton. tauto.
Qed.

Lemma sys_Ret c o x o' : sys c o = (Ret x, o') -> oslog o' = oslog o ++ [EvFile c None].
Proof. unfold sys, mbind, SE_bind, gets, note, modify. cbn. by destruct (os_Err _ _); intros [= _ <-]. Qed.

(** A state written is one whose rename the system made. *)
Lemma write_renamed p s o x o' :
  write p s o = (Ret x, o') -> exists l, oslog o' = oslog o ++ l /\ EvFile (CRename (plus p ".tmp") p) None ∈ l.
Proof.
  assert (forall c, steps (grew isKill) (sys c)) as Hsys by (intros; apply grew_sys, file_noKill).
  assert (forall B (m : F B) o1 r o2, steps (grew isKill) m -> m o1 = (r, o2) -> exists l, oslog o2 = oslog o1 ++ l) as Hg.
  { intros B m o1 r o2 Hm. by apply (grew_run isKill). }
  intros H. unfold write in H. apply bind_Ret_inv in H as (i & o1 & H1 & H). apply bind_Ret_inv in H as (w & o2 & H2 & H).
  apply Hg in H1 as [l1 H1]; [|unfold create, setFile, setNames, Now; steps_tac; by (apply Hsys || apply grew_modify)].
  apply Hg in H2 as [l2 H2]; [|unfold pwrite, setFile, Now; steps_tac; by (apply Hsys || apply grew_modify)].
  destruct (w.2) as [e|]; [apply bind_Ret_inv in H as (? & ? & _ & H); discriminate H|].
  apply bind_Ret_inv in H as (e & o3 & H3 & H).
  apply Hg in H3 as [l3 H3]; [|unfold fsync, setFile; steps_tac; by (apply Hsys || apply grew_modify)].
  destruct e as [e|]; [apply bind_Ret_inv in H as (? & ? & _ & H); discriminate H|].
  apply bind_Ret_inv in H as ([] & o4 & H4 & H). apply sys_Ret in H4.
  apply bind_Ret_inv in H as ([] & o5 & H5 & H). unfold rename in H5. apply bind_Ret_inv in H5 as ([] & o6 & H6 & H5).
  apply sys_Ret in H6.
  apply Hg in H5 as [l5 H5]; [|unfold find, setNames; steps_tac; by apply grew_modify].
  apply Hg in H as [l7 H7]; [|unfold syncDir; steps_tac; by (apply Hsys || apply grew_modify)].
  exists (l1 ++ l2 ++ l3 ++ [EvFile (CClose i) None] ++ [EvFile (CRename (plus p ".tmp") p) None] ++ l5 ++ l7). split.
  - by rewrite H7, H5, H6, H4, H3, H2, H1, <- !(assoc (++)).
  - rewrite !elem_of_app, !list_elem_of_singleton. tauto.
Qed.

(** ** The takeover *)

Section Run.
Context (fuel : nat) (opts : TakeoverOpts) (a0 : agent).

(** The history so far of the takeover, without a kill in it. *)
Definition sofar (l : list osEvent) (a : agent) : Prop :=
  oslog (sysOf a) = oslog (sysOf a0) ++ l /\ Forall (fun e => ~ isKill e) l /\ st a = st a0.

Lemma sofar_zoom {B} (m : F B) l a r a' :
  steps (grew isKill) m -> sofar l a -> zoom m a = (r, a') -> exists l', sofar (l ++ l') a' /\ oslog (sysOf a') = oslog (sysOf a) ++ l'.
Proof.
  intros Hm (H1 & H2 & H3) H. unfold zoom in H. injection H as _ <-. destruct (Hm (sysOf a)) as (l' & Hl & Hf).
  exists l'. split; [|done]. split; [|split; [by apply Forall_app|done]].
  change (oslog (m (sysOf a)).2 = oslog (sysOf a0) ++ l ++ l'). by rewrite Hl, H1, (assoc (++)).
Qed.

(** Stopped, or found without a factory process; then seen idle; then persisted. *)
Definition landedBefore (cands : list Holder) (l : list osEvent) : Prop :=
  exists s1 s2 s3, l = s1 ++ s2 ++ s3 /\ (cands = [] \/ EvVxi "STOP" None ∈ s1) /\ landed s2 /\
    (TakenOver (sf_disk (st a0)) = true \/
     EvFile (CRename (plus (sf_path (st a0)) ".tmp") (sf_path (st a0))) None ∈ s3).

(** What the history says at the end: kills come after the landing, if any. *)
Definition safeEnd (a' : agent) : Prop :=
  exists l lk, oslog (sysOf a') = oslog (sysOf a0) ++ l ++ lk /\ Forall (fun e => ~ isKill e) l /\
    (Forall (fun e => ~ isKill e) lk \/ exists cands, landedBefore cands l /\
       (cands = [] -> exists hs o1, EvHolders hs ∈ l /\ List.filter (isCandidate o1) hs = [])).

Lemma safe_early l a : sofar l a -> safeEnd a.
Proof. intros (H1 & H2 & _). exists l, []. rewrite app_nil_r. split; [done|]. split; [done|]. by left. Qed.

Lemma grew_commit (k : TakeoverResult) :
  steps (ofSys (grew none)) (k' ← zoom (killFactory k);
    let res := step "killed %d factory processes" k'.2 in
    e ← zoom (errOf acquireWatchdog);
    res ← match e with
          | Some _ => zoom (go "keepWatchdog");; mret (step "watchdog acquire failed (%v)" res)
          | None => mret (step "watchdog acquired, petting every %s" res)
          end;
    zoom (go "reassertNetwork");;
    event "takeover.done" "";;
    mret (step "takeover complete" (okay res))).
Proof.
  assert (forall e, steps (grew none) (note e)) as Hn by (intros e; apply grew_note; by intros []).
  assert (forall l killed res, steps (grew none) (killAll l killed res)) as Hk.
  { induction l as [|h l IH]; intros killed res; cbn [killAll]; unfold kill; steps_tac; apply Hn || apply IH. }
  assert (steps (grew none) factoryCandidates) as Hc by (unfold factoryCandidates; steps_tac; apply Hn).
  assert (forall n first killed res, steps (grew none) (killRounds n first killed res)) as Hr.
  { induction n as [|n IH]; intros first killed res; cbn [killRounds]; steps_tac; apply Hn || apply IH || apply Hc || apply Hk. }
  unfold killFactory, acquireWatchdog, go, event. steps_tac; apply steps_zoom; steps_tac; apply Hn || apply Hr.
Qed.

(** The state persisted, with what the history shows of it. *)
Lemma commit_safe l1 l2 (cands : list Holder) a res :
  sofar (l1 ++ l2) a -> (cands = [] \/ EvVxi "STOP" None ∈ l1) -> landed l2 ->
  (cands = [] -> exists hs o1, EvHolders hs ∈ l1 /\ List.filter (isCandidate o1) hs = []) ->
  safeEnd (takeoverCommit res a).2.
Proof.
  intros Hs Hst Hl Hc. unfold takeoverCommit.
  set (fn := fun s => {| TakenOver := true; AutoTakeover := AutoTakeover s |}).
  assert (forall r o', update fn (sysOf a, st a) = (r, o') -> exists l3, oslog o'.1 = oslog (sysOf a) ++ l3 /\
    Forall (fun e => ~ isKill e) l3 /\ (r = Ret tt -> TakenOver (sf_disk (st a0)) = true \/
     EvFile (CRename (plus (sf_path (st a0)) ".tmp") (sf_path (st a0))) None ∈ l3)) as Hup.
  { intros r o' Hu. pose proof (grew_update isKill file_noKill fn (sysOf a, st a)) as Hg. rewrite Hu in Hg.
    destruct Hg as (l3 & Hl3 & Hf3). exists l3. split; [done|]. split; [done|]. intros ->. destruct Hs as (_ & _ & <-).
    unfold update, mbind, SE_bind, gets, snd in Hu. cbv beta iota zeta in Hu. destruct (decide _) as [Heq|Hne].
    - left. by rewrite <- Heq.
    - right. unfold onOs in Hu. cbn [fst snd] in Hu.
      destruct (write (sf_path (st a)) (fn (sf_s (st a))) (sysOf a)) as [[[]|e| |] o1] eqn:Hw; try discriminate Hu.
      injection Hu as <-. apply write_renamed in Hw as (l4 & Hl4 & Hin). change (oslog o1 = oslog (sysOf a) ++ l3) in Hl3. rewrite Hl4 in Hl3.
      apply app_inv_head in Hl3 as <-. done. }
  destruct (update fn (sysOf a, st a)) as [r o'] eqn:Hu. destruct (Hup r o' eq_refl) as (l3 & Hl3 & Hf3 & Hp). clear Hup.
  set (a1 := Agent (Build_Store o'.1 (sums (store a))) o'.2 (app a) (paused a) (confirmedRun a) (confirmFailed a)).
  destruct Hs as (Hs1 & Hs2 & _).
  assert (oslog (sysOf a1) = oslog (sysOf a0) ++ (l1 ++ l2 ++ l3)) as Ha1.
  { change (oslog (sysOf a1)) with (oslog o'.1). by rewrite Hl3, Hs1, <- !(assoc (++)). }
  assert (Forall (fun e => ~ isKill e) (l1 ++ l2 ++ l3)) as Hf by (rewrite (assoc (++)); by apply Forall_app).
  assert (attempt (onState (update fn)) a = match r with
    | Ret x => (Ret (inl x), a1) | Fail e => (Ret (inr e), a1) | Panic => (Panic, a1) | OutOfFuel => (OutOfFuel, a1) end) as Hat.
  { unfold attempt, onState. rewrite Hu. by destruct r. }
  assert (forall lk a2, oslog (sysOf a2) = oslog (sysOf a1) ++ lk -> r = Ret tt -> safeEnd a2) as Hend.
  { intros lk a2 H2 Hr. exists (l1 ++ l2 ++ l3), lk. rewrite H2, Ha1, <- !(assoc (++)). split; [done|]. split; [done|]. right.
    exists cands. split; [exists l1, l2, l3; auto|]. intros Hcn. destruct (Hc Hcn) as (hs & o1 & Hin & Hfl). exists hs, o1.
    split; [|done]. apply elem_of_app. by left. }
  assert (safeEnd a1) as Hearly.
  { exists (l1 ++ l2 ++ l3), []. rewrite app_nil_r. split; [done|]. split; [done|]. by left. }
  unfold errOf. unfold mbind at 1, SE_bind at 1. unfold mbind at 1, SE_bind at 1. rewrite Hat.
  destruct r as [[]|e| |]; try exact Hearly. cbn [mret SE_ret].
  destruct (grew_commit (step "state persisted: taken_over=true" res) a1) as (lk & Hlk & _). by apply (Hend lk).
Qed.

Lemma safe_stage {B D} (m : F B) (f : B -> A D) l a :
  steps (grew isKill) m -> sofar l a ->
  (forall x a1 l', m (sysOf a) = (Ret x, sysOf a1) -> sofar (l ++ l') a1 -> oslog (sysOf a1) = oslog (sysOf a) ++ l' ->
    safeEnd (f x a1).2) ->
  safeEnd ((zoom m ≫= f) a).2.
Proof.
  intros Hm Hs Hf. destruct (zoom m a) as [r a1] eqn:Hz. destruct (sofar_zoom m l a r a1 Hm Hs Hz) as (l' & Hs' & Hl').
  unfold mbind, SE_bind. rewrite Hz. unfold zoom in Hz. destruct (m (sysOf a)) as [r' o'] eqn:Hr. injection Hz as <- <-.
  destruct r' as [x|e| |]; try (by apply (safe_early (l ++ l'))). by apply (Hf x _ l').
Qed.

Lemma candidates_run o cands o' :
  factoryCandidates o = (Ret cands, o') -> exists hs, oslog o' = oslog o ++ [EvHolders hs] /\ cands = List.filter (isCandidate o') hs.
Proof.
  unfold factoryCandidates, mbind, SE_bind, gets, note, modify. intros [= <- <-].
  by exists (os_Holders (oslog o)).
Qed.

Lemma stopGate_run res o res' o' :
  stopGate res false o = (Ret (true, res'), o') -> exists l, oslog o' = oslog o ++ l /\ (Candidates res = [] \/ EvVxi "STOP" None ∈ l).
Proof.
  unfold stopGate. destruct (Candidates res) as [|h hs].
  { intros [= _ <-]. exists []. rewrite app_nil_r. auto. }
  intros H. apply bind_Ret_inv in H as (e & o1 & H1 & H). unfold errOf in H1. apply bind_Ret_inv in H1 as (r & o2 & H1 & H2).
  apply attempt_Ret_inv in H1 as [([] & -> & H1)|(e' & -> & H1)]; injection H2 as <- <-; [|discriminate H].
  injection H as _ <-. apply factoryStop_sent in H1 as (l & Hl & Hin). exists l. auto.
Qed.

(** C5: Unless it is forced, a takeover kills nothing before the factory app was
    told to stop (or none was found), the engine was then seen idle, and the
    state was then persisted. *)
Theorem Takeover_lands : Force opts = false -> safeEnd (Takeover fuel opts a0).2.
Proof.
  intros Hforce. assert (sofar [] a0) as H0 by (split; [by rewrite app_nil_r|split; [constructor|done]]).
  assert (forall B (f : State -> A B), (onState get ≫= f) a0 = f (sf_s (st a0)) a0) as Hget.
  { intros B f. unfold mbind, SE_bind, onState, get, gets. by destruct a0 as [[] ? ? ? ? ?]. }
  unfold Takeover. rewrite Hget. destruct (TakenOver (sf_s (st a0))).
  { unfold go. apply (safe_stage _ _ []); [apply grew_note; by intros []|done|]. intros x a1 l' _ Hs _. by apply (safe_early l'). }
  destruct (gpmcFD <? 0); [by apply (safe_early [])|].
  apply (safe_stage _ _ []); [apply noKill_candidates|done|]. intros cands a1 l1 R1 Hs1 Hl1. cbn [app] in Hs1.
  apply candidates_run in R1 as (hs & Hh & Hcands). cbv zeta.
  destruct (DryRun opts); [by apply (safe_early l1)|].
  eapply (safe_stage _ _ l1); [apply noKill_stopGate|done|]. intros [ok res] a2 l2 R2 Hs2 Hl2. cbn [fst snd].
  destruct ok; cbn [negb]; [|by apply (safe_early (l1 ++ l2))].
  rewrite Hforce in R2. apply stopGate_run in R2 as (l2' & Hl2' & Hstop). rewrite Hl2 in Hl2'. apply app_inv_head in Hl2' as <-.
  apply (safe_stage _ _ (l1 ++ l2)); [apply noKill_confirmIdle|done|]. intros [e res3] a3 l3 R3 Hs3 Hl3. cbn [fst snd].
  destruct e as [e|]; [rewrite Hforce; by apply (safe_early ((l1 ++ l2) ++ l3))|].
  apply confirmIdle_landed in R3 as (l3' & Hl3' & Hland); [|done]. rewrite Hl3 in Hl3'. apply app_inv_head in Hl3' as <-.
  apply (commit_safe (l1 ++ l2) l3 cands); [done| |done|].
  - destruct Hstop as [Hstop|Hstop]; [by left|right; apply elem_of_app; by right].
  - intros Hnil. exists hs, (sysOf a1). rewrite Hh in Hl1. apply app_inv_head in Hl1. split; [|by rewrite <- Hcands].
    rewrite <- Hl1. apply elem_of_app. left. apply list_elem_of_here.
Qed.
End Run.
End Landing.
