(* ===== verification/Supervise.v ===== *)
(** * The app's supervisor

    src/ota/internal/agent/supervise.go: the loop that adopts or launches the
    app from a slot, watches its health, confirms the slot it ran stably from,
    and goes back to the confirmed one after repeated failures; and the
    handlers (handlers.go) that install and activate a slot. [fuel] bounds the
    turns of a select loop. *)
From stdpp Require Import pretty.
From S2P Require Import Prelude Circular Machine Sha256 Files Slots AgentState Agent Takeover.

(** ** Text *)

Definition opText (op : ctlOp) : string :=
  match op with opStart => "start" | opStop => "stop" | opRestart => "restart" end.

(** [strconv.Atoi] on a 32-bit target. *)
Fixpoint digits (l : list Z) (acc : Z) : option Z :=
  match l with
  | [] => Some acc
  | c :: l => if (48 <=? c) && (c <=? 57) then digits l (10 * acc + (c - 48)) else None
  end.
Definition Atoi (l : list Z) : option Z :=
  let signed neg l :=
    match l with
    | [] => None
    | _ => v ← digits l 0;
           let v := if neg : bool then - v else v in
           if (- 2 ^ 31 <=? v) && (v <? 2 ^ 31) then Some v else None
    end in
  match l with
  | 45 :: l => signed true l
  | 43 :: l => signed false l
  | _ => signed false l
  end.

(** ASCII case folding: [strings.EqualFold] and [ToLower] on hexadecimal,
    [ToUpper] on a slot's name. *)
Definition lower (c : Z) : Z := if (65 <=? c) && (c <=? 90) then c + 32 else c.
Definition upper (c : Z) : Z := if (97 <=? c) && (c <=? 122) then c - 32 else c.
Definition EqualFold (a b : list Z) : bool := bool_decide (map lower a = map lower b).

Section Supervise.
Context {E : OsEnv} {C : Config}.

(** ** What to run *)

(** idleWait sleeps but still serves control requests. *)
Definition idleWait : A unit :=
  w ← select;
  match w with
  | WCtl opStart | WCtl opRestart => setPaused false
  | WCtl opStop => setPaused true
  | _ => mret tt
  end.

Definition HasSlot (slot : string) : A bool := zoom (HasBinary SlotRoot slot).
Definition ConfirmedSlot : A string := zoom (Confirmed SlotRoot).

(** The active slot, else the confirmed one. *)
Definition pickSlot : A string :=
  active ← zoom (Active SlotRoot);
  b ← HasSlot active;
  if b : bool then mret active
  else
    conf ← ConfirmedSlot;
    if String.eqb conf active then mret ""%string
    else b ← HasSlot conf; mret (if b : bool then conf else ""%string).

Definition Alive (pid : Z) : F bool :=
  b ← gets (fun o => os_Alive (oslog o) pid); note (EvAlive pid b);; mret b.

(** A live app of a previous agent generation, -1 without. *)
Definition orphanAppPid : F Z :=
  r ← attempt (ReadFile (pidPath appPidFile));
  match r with
  | inr _ => mret (-1)
  | inl b =>
      match Atoi (TrimSpace b) with
      | None => mret (-1)
      | Some pid => if pid <=? 1 then mret (-1) else a ← Alive pid; mret (if a : bool then pid else -1)
      end
  end.

(** ** Ending an app *)

Definition signal (pid : Z) (force : bool) : F unit :=
  r ← gets (fun o => os_Kill (oslog o) pid); note (EvKill pid force r);; liftErr r.

Definition isExit (w : wake) : bool := match w with WExit _ => true | _ => false end.

(** SIGTERM to the group, SIGKILL after a grace. *)
Definition terminate (pid : Z) : A unit :=
  zoom (ignore (signal (- pid) false));;
  w ← select;
  if isExit w then mret tt
  else zoom (ignore (signal (- pid) true));; select;; mret tt.

Fixpoint killWait (fuel : nat) (deadline pid : Z) : F bool :=
  match fuel with
  | O => outOfFuel
  | S fuel =>
      t ← Now;
      if negb (t <? deadline) then mret false
      else a ← Alive pid; if negb a then mret true else note (EvSleepFor (ms 100));; killWait fuel deadline pid
  end.
Definition killPid (fuel : nat) (pid : Z) : F unit :=
  ignore (signal pid false);;
  t ← Now;
  gone ← killWait fuel (t + sec 3) pid;
  if gone : bool then mret tt else ignore (signal pid true).

(** ** Confirming and going back *)

Definition confirmIfStable (slot : string) (hs : healthStatus) (ran : Z) : A unit :=
  run ← gets confirmedRun;
  if negb (HealthyOnce hs) || (ran <? Stable) || String.eqb run slot then mret tt
  else
    c ← ConfirmedSlot;
    if String.eqb c slot then modify (set_confirmed slot "")
    else
      e ← errOf (zoom (SetConfirmed SlotRoot slot));
      match e with
      | Some _ =>
          failed ← gets confirmFailed;
          if String.eqb failed slot then mret tt
          else modify (fun a => set_confirmed (confirmedRun a) slot a);; event "app.confirm_failed" slot
      | None => event "app.confirmed" slot;; modify (set_confirmed slot "")
      end.

Definition rollbackIfNeeded (slot : string) : A unit :=
  fails ← gets (fun a => Fails (app a));
  if fails <? MaxFails then mret tt
  else
    confirmed ← ConfirmedSlot;
    b ← (if String.eqb slot confirmed then mret false else HasSlot confirmed);
    if b : bool then
      ignore (zoom (SetActive SlotRoot confirmed));;
      event "app.rollback" slot;;
      clearFails
    else event "app.crash_loop" slot.

(** ** One run of the app *)

Definition setHealth (hs : healthStatus) : A unit :=
  setAppState (fun s => AppState (Running s) (Adopted s) (app_PID s) (Slot s) (Fails s) (LastExit s) (Some hs)).
Definition endedAs (reason : string) : A unit := setAppState (fun _ => AppState false false 0 "" 0 reason None).

(** An app that cannot be waited on. *)
Fixpoint adoptedLoop (fuel : nat) (pid : Z) (h : healthWatcher) : A unit :=
  match fuel with
  | O => outOfFuel
  | S fuel =>
      w ← select;
      let gone := zoom (ignore (remove (pidPath appPidFile))) in
      match w with
      | WStopped => mret tt
      | WCtl op =>
          zoom (killPid fuel pid);; gone;;
          (match op with opStop => setPaused true | _ => mret tt end)
      | _ =>
          a ← zoom (Alive pid);
          if negb a then gone;; bumpFail "adopted app exited"
          else
            h ← zoom (poll h);
            hs ← zoom (healthStatusOf h);
            setHealth hs;;
            v ← zoom (verdict h AppGrace HealthTimeout);
            if negb v.1 then zoom (killPid fuel pid);; gone;; bumpFail ("adopted: " +:+ v.2)
            else adoptedLoop fuel pid h
      end
  end.
Definition superviseAdopted (fuel : nat) (pid : Z) : A unit :=
  t ← zoom Now;
  h ← zoom (poll (HealthWatcher (HealthSig 0 0 false) 0 false (t - sec 3600) []));
  t ← zoom Now;
  let h := HealthWatcher (lastSig h) t (sig_seen (lastSig h)) (started h) (lastContent h) in
  setAppState (fun _ => AppState true true pid "" 0 "" None);;
  adoptedLoop fuel pid h.

(** Why a run's loop ended. *)
Inductive ended := Stopped | Ended (reason : string) (h : healthWatcher).

Fixpoint watch (fuel : nat) (slot : string) (pid start : Z) (h : healthWatcher) : A ended :=
  match fuel with
  | O => outOfFuel
  | S fuel =>
      w ← select;
      match w with
      | WStopped => mret Stopped
      | WExit _ => mret (Ended "exited" h)
      | WCtl op =>
          terminate pid;;
          (match op with opStop => setPaused true | _ => mret tt end);;
          mret (Ended ("ctl:" +:+ opText op) h)
      | WTick =>
          h ← zoom (poll h);
          hs ← zoom (healthStatusOf h);
          setHealth hs;;
          v ← zoom (verdict h AppGrace HealthTimeout);
          if negb v.1 then terminate pid;; mret (Ended ("unhealthy: " +:+ v.2) h)
          else
            t ← zoom Now;
            confirmIfStable slot hs (t - start);;
            watch fuel slot pid start h
      end
  end.

(** What a run that ended was: an operator's action, a stable run, a failure. *)
Definition classify (slot reason : string) (h : healthWatcher) (start : Z) : A unit :=
  t ← zoom Now;
  let ran := t - start in
  zoom (ignore (remove (pidPath appPidFile)));;
  hs ← zoom (healthStatusOf h);
  if String.prefix "ctl:" reason then endedAs reason
  else if HealthyOnce hs && (Stable <=? ran) then
    confirmIfStable slot hs ran;; endedAs reason;; idleWait
  else bumpFail reason;; rollbackIfNeeded slot;; idleWait.

Definition startApp (bin : path) : F Z :=
  r ← gets (fun o => os_Start (oslog o) bin); note (EvStart bin r);; lift r.

Definition runAppOnce (fuel : nat) (slot : string) : A unit :=
  let bin := BinPath SlotRoot slot in
  h ← zoom newHealthWatcher;
  modify (set_confirmed "" "");;
  start ← zoom Now;
  r ← attempt (zoom (startApp bin));
  match r with
  | inr _ => bumpFail "start: ";; idleWait
  | inl pid =>
      zoom (ignore (WriteFile (pidPath appPidFile) (text (pretty pid) ++ [10]) perm600));;
      setAppState (fun s => AppState true false pid slot (Fails s) "" None);;
      event "app.start" slot;;
      e ← watch fuel slot pid start h;
      match e with
      | Stopped => mret tt
      | Ended reason h => classify slot reason h start
      end
  end.

(** One round of superviseLoop; false once the agent is stopped. *)
Definition superviseRound (fuel : nat) : A bool :=
  stop ← zoom (gets (fun o => os_Stopped (oslog o)));
  if stop : bool then mret false
  else
    s ← onState get;
    p ← gets paused;
    if negb (TakenOver s) || p then idleWait;; mret true
    else
      cands ← zoom factoryCandidates;
      match cands with
      | _ :: _ => reclaimBus fuel;; idleWait;; mret true
      | [] =>
          pid ← zoom orphanAppPid;
          if 0 <? pid then superviseAdopted fuel pid;; mret true
          else
            slot ← pickSlot;
            if String.eqb slot "" then
              setAppState (fun _ => AppState false false 0 "" 0 "no app binary in any slot" None);;
              idleWait;; mret true
            else runAppOnce fuel slot;; mret true
      end.

(** [n] rounds, while the agent runs. *)
Fixpoint superviseLoop (n : nat) (fuel : nat) : A unit :=
  match n with
  | O => mret tt
  | S n => b ← superviseRound fuel; if b : bool then superviseLoop n fuel else mret tt
  end.

(** ** The handlers *)

Record updateArgs := { up_Src : string; up_SHA : string }.

(** hAppUpdate: into the inactive slot, made active, restarted. *)
Definition hAppUpdate (p : updateArgs) : A (string * list Z) :=
  guard (String.eqb (up_Src p) "") (EMsg "app.update: src required" []);;
  let src := Clean (up_Src p) in
  (if String.eqb (up_SHA p) "" then mret tt
   else
     got ← zoom (FileSHA256 src);
     guard (negb (EqualFold got (text (up_SHA p)))) (EMsg "app.update: sha256 mismatch (got %s)" got));;
  active ← zoom (Active SlotRoot);
  let target := Other active in
  sum ← zoom (Install SlotRoot target src);
  zoom (SetActive SlotRoot target);;
  clearFails;;
  event "app.update" target;;
  s ← onState get;
  (if TakenOver s then ignore (ctlRequest opRestart) else mret tt);;
  mret (target, sum).

(** [strings.ToUpper] of ASCII bytes as a string. *)
Definition ofBytes (l : list Z) : string := String.string_of_list_ascii (map (fun c => Ascii.ascii_of_N (Z.to_N c)) l).

Definition hAppActivate (slot : string) : A string :=
  let slot := ofBytes (map upper (TrimSpace (text slot))) in
  b ← HasSlot slot;
  guard (negb b) (EMsg "app.activate: slot %q has no binary" (text slot));;
  zoom (SetActive SlotRoot slot);;
  clearFails;;
  s ← onState get;
  (if TakenOver s then ignore (ctlRequest opRestart) else mret tt);;
  mret slot.

Definition hAppStart : A unit :=
  s ← onState get;
  guard (negb (TakenOver s)) (EMsg "not taken over - the factory app owns the instrument; run takeover first" []);;
  clearFails;; ctlRequest opStart.
Definition hAppStop : A unit := ctlRequest opStop.
Definition hAppRestart : A unit :=
  s ← onState get;
  guard (negb (TakenOver s)) (EMsg "not taken over" []);;
  ctlRequest opRestart.

Definition hTakeover (fuel : nat) (opts : TakeoverOpts) : A TakeoverResult :=
  res ← Takeover fuel opts;
  if negb (OK res) then failMsg "takeover" (text (Err res)) else mret res.

Definition hUntakeover : A unit :=
  ignore (ctlRequest opStop);;
  onState (update (fun s => {| TakenOver := false; AutoTakeover := false |}));;
  clearFails;;
  zoom (note EvDisarm);;
  event "untakeover" "".
End Supervise.
