(* ===== verification/Watchdog.v ===== *)
(** * The hardware watchdog

    src/ota/internal/watchdog/watchdog.go: the agent's hold on the watchdog
    device, with every interleaving of the calls and of the pet loops they
    start. Acquire gives its lock up while it opens the device, so it is the
    steps between its lock's sections; Disarm and pet hold it throughout. *)
From stdpp Require Import relations.
From S2P Require Import Prelude.

(** An Acquire in progress: before its first look, opening, with a descriptor
    it has not recorded, about to pet the one it recorded. *)
Inductive acquire := AcqLook | AcqOpen | AcqGot (fd : Z) | AcqPet.
(** A pet loop: about to read the stop channel, waiting on one, or petting. *)
Inductive petter := LoopTop | LoopWait (stop : Z) | LoopPet.

(** A list of descriptors without one. *)
Definition without (fd : Z) (l : list Z) : list Z := filter (fun x => x <> fd) l.

(** What the driver sees of a descriptor. *)
Inductive wdCall := WdOpen (fd : Z) | WdPet (fd : Z) | WdMagic (fd : Z) | WdClose (fd : Z).

Record Device := Dev {
  wd_fd : option Z (* w.fd, -1 without *);
  wd_stop : Z (* w.stop, a channel *);
  closed : list Z (* the channels closed *);
  channels : Z (* the next channel made *);
  acquires : list acquire;
  loops : list petter;
  held_ : list Z (* the descriptors open in the process *);
  calls : list wdCall (* the driver's history *)
}.

(** New: unarmed. *)
Definition New : Device := Dev None 0 [] 1 [] [] [] [].

Definition set_acquires (l : list acquire) (w : Device) : Device :=
  Dev (wd_fd w) (wd_stop w) (closed w) (channels w) l (loops w) (held_ w) (calls w).
Definition set_loops (l : list petter) (w : Device) : Device :=
  Dev (wd_fd w) (wd_stop w) (closed w) (channels w) (acquires w) l (held_ w) (calls w).
(** The driver's calls: an open, a close, and a pet of the recorded one. *)
Definition opens (fd : Z) (w : Device) : Device :=
  Dev (wd_fd w) (wd_stop w) (closed w) (channels w) (acquires w) (loops w) (fd :: held_ w) (calls w ++ [WdOpen fd]).
Definition closes (fd : Z) (w : Device) : Device :=
  Dev (wd_fd w) (wd_stop w) (closed w) (channels w) (acquires w) (loops w) (without fd (held_ w)) (calls w ++ [WdClose fd]).
Definition pet (w : Device) : Device :=
  Dev (wd_fd w) (wd_stop w) (closed w) (channels w) (acquires w) (loops w) (held_ w)
    (calls w ++ match wd_fd w with Some fd => [WdPet fd] | None => [] end).
(** The descriptor recorded, with a stop channel of its own. *)
Definition arm (fd : Z) (w : Device) : Device :=
  Dev (Some fd) (channels w) (closed w) (channels w + 1) (acquires w) (loops w) (held_ w) (calls w).
(** Disarm: the stop channel closed, the magic byte, the close. *)
Definition Disarm (w : Device) : Device :=
  match wd_fd w with
  | None => w
  | Some fd =>
      Dev None (wd_stop w) (wd_stop w :: closed w) (channels w) (acquires w) (loops w)
        (without fd (held_ w)) (calls w ++ [WdMagic fd; WdClose fd])
  end.

(** One step of any of the goroutines. *)
Inductive step : Device -> Device -> Prop :=
| st_call w : step w (set_acquires (AcqLook :: acquires w) w)
| st_armed w l l' : acquires w = l ++ AcqLook :: l' -> wd_fd w <> None -> step w (set_acquires (l ++ l') w)
| st_unarmed w l l' : acquires w = l ++ AcqLook :: l' -> wd_fd w = None -> step w (set_acquires (l ++ AcqOpen :: l') w)
(** the open, which the system may refuse; at the deadline it gives up *)
| st_open w l l' fd : acquires w = l ++ AcqOpen :: l' -> fd ∉ held_ w ->
    step w (opens fd (set_acquires (l ++ AcqGot fd :: l') w))
| st_refused w : step w w
| st_gaveUp w l l' : acquires w = l ++ AcqOpen :: l' -> step w (set_acquires (l ++ l') w)
(** another Acquire armed it meanwhile: one descriptor is closed again *)
| st_late w l l' fd : acquires w = l ++ AcqGot fd :: l' -> wd_fd w <> None -> step w (closes fd (set_acquires (l ++ l') w))
| st_arm w l l' fd : acquires w = l ++ AcqGot fd :: l' -> wd_fd w = None -> step w (arm fd (set_acquires (l ++ AcqPet :: l') w))
| st_first w l l' : acquires w = l ++ AcqPet :: l' ->
    step w (set_loops (LoopTop :: loops w) (pet (set_acquires (l ++ l') w)))
(** the pet loop *)
| st_read w l l' : loops w = l ++ LoopTop :: l' -> step w (set_loops (l ++ LoopWait (wd_stop w) :: l') w)
| st_tick w l l' c : loops w = l ++ LoopWait c :: l' -> step w (set_loops (l ++ LoopPet :: l') w)
| st_pet w l l' : loops w = l ++ LoopPet :: l' -> step w (pet (set_loops (l ++ LoopTop :: l') w))
| st_stop w l l' c : loops w = l ++ LoopWait c :: l' -> c ∈ closed w -> step w (set_loops (l ++ l') w)
| st_disarm w : step w (Disarm w).

(** ** The invariant *)

(** The descriptors of Acquires that have not recorded theirs. *)
Definition inFlight (a : acquire) : list Z := match a with AcqGot fd => [fd] | _ => [] end.
Definition owned (w : Device) : list Z :=
  (match wd_fd w with Some fd => [fd] | None => [] end) ++ concat (map inFlight (acquires w)).

(** A loop that goes on petting while [stop] is open. *)
Definition alive (stop : Z) (p : petter) : Prop := match p with LoopWait c => c = stop | _ => True end.

(** A driver's history as it may be: the descriptors open, and those petted
    since their magic byte, whose close would leave the countdown running. *)
Fixpoint opened (l : list wdCall) (s p : list Z) : option (list Z * list Z) :=
  match l with
  | [] => Some (s, p)
  | WdOpen fd :: l => if decide (fd ∈ s) then None else opened l (fd :: s) p
  | WdPet fd :: l => if decide (fd ∈ s) then opened l s (fd :: p) else None
  | WdMagic fd :: l => if decide (fd ∈ s) then opened l s (without fd p) else None
  | WdClose fd :: l => if decide (fd ∈ s /\ fd ∉ p) then opened l (without fd s) p else None
  end.

Record inv (w : Device) : Prop := {
  inv_owned : held_ w ≡ₚ owned w;
  inv_nodup : NoDup (held_ w);
  inv_calls : exists p, opened (calls w) [] [] = Some (held_ w, p) /\ forall x, x ∈ p -> wd_fd w = Some x;
  inv_stop : wd_fd w <> None -> wd_stop w ∉ closed w;
  inv_fresh : wd_stop w < channels w /\ Forall (fun c => c < channels w) (closed w);
  inv_petted : wd_fd w <> None -> AcqPet ∈ acquires w \/ exists p, p ∈ loops w /\ alive (wd_stop w) p;
}.

Lemma opened_app l l' s p s' p' : opened l s p = Some (s', p') -> opened (l ++ l') s p = opened l' s' p'.
Proof.
  revert s p. induction l as [|c l IH]; intros s p H; simpl in *; [by injection H as -> ->|].
  destruct c; case_decide; try done; by apply IH.
Qed.
Lemma elem_of_without x fd l : x ∈ without fd l <-> x <> fd /\ x ∈ l.
Proof. unfold without. by rewrite list_elem_of_filter. Qed.

Lemma without_perm fd l l' : NoDup l -> l ≡ₚ fd :: l' -> without fd l ≡ₚ l'.
Proof.
  intros Hn Hp. assert (NoDup (fd :: l')) as Hn' by (by rewrite <- Hp). apply NoDup_cons in Hn' as [Hni _].
  unfold without. rewrite Hp, filter_cons_False by (by intros H). clear - Hni.
  induction l' as [|x l' IH]; [done|]. apply not_elem_of_cons in Hni as [H1 H2].
  rewrite filter_cons_True by done. by rewrite IH.
Qed.

Lemma flight_split l a l' : concat (map inFlight (l ++ a :: l')) ≡ₚ inFlight a ++ concat (map inFlight (l ++ l')).
Proof. rewrite !map_app, !concat_app. simpl. rewrite !(assoc (++)). f_equiv. by rewrite (comm (++)). Qed.

(** The parts a step does not touch. *)
Lemma inv_acquires l w w' :
  inv w -> w' = set_acquires l w -> concat (map inFlight l) ≡ₚ concat (map inFlight (acquires w)) ->
  (AcqPet ∈ acquires w -> AcqPet ∈ l) -> inv w'.
Proof.
  intros [H1 H2 H3 H4 H5 H6] -> Hl Hp. split; simpl; try done.
  - rewrite H1. unfold owned. simpl. by rewrite Hl.
  - intros Hne. destruct (H6 Hne) as [?|?]; auto.
Qed.
Lemma inv_loops l w :
  inv w -> ((exists p, p ∈ loops w /\ alive (wd_stop w) p) -> wd_fd w <> None -> exists p, p ∈ l /\ alive (wd_stop w) p) ->
  inv (set_loops l w).
Proof. intros [H1 H2 H3 H4 H5 H6] Hl. split; simpl; try done. intros Hne. destruct (H6 Hne) as [?|?]; auto. Qed.
Lemma inv_pet w : inv w -> inv (pet w).
Proof.
  intros [H1 H2 (p & H3 & Hp) H4 H5 H6]. split; simpl; try done. rewrite (opened_app _ _ _ _ _ _ H3).
  destruct (wd_fd w) as [fd|] eqn:Hfd; [|by exists p]. simpl. exists (fd :: p).
  rewrite decide_True by (rewrite H1; unfold owned; rewrite Hfd; apply list_elem_of_here). split; [done|].
  intros x Hx. apply elem_of_cons in Hx as [->|Hx]; [done|by apply Hp].
Qed.

Lemma alive_swap l l' p p' stop :
  (alive stop p -> alive stop p') -> (exists q, q ∈ l ++ p :: l' /\ alive stop q) -> exists q, q ∈ l ++ p' :: l' /\ alive stop q.
Proof.
  intros Hp (q & Hq & Ha). apply elem_of_app in Hq as [Hq|Hq]; [exists q; split; [apply elem_of_app; by left|done]|].
  apply elem_of_cons in Hq as [->|Hq].
  - exists p'. split; [apply elem_of_app; right; apply list_elem_of_here|auto].
  - exists q. split; [apply elem_of_app; right; by apply elem_of_cons; right|done].
Qed.

Lemma acq_swap l l' a a' : a <> AcqPet -> AcqPet ∈ l ++ a :: l' -> AcqPet ∈ l ++ a' :: l'.
Proof. rewrite !elem_of_app, !elem_of_cons. intros Hne [H|[H|H]]; [auto|by destruct Hne|auto]. Qed.
Lemma acq_drop l l' a : a <> AcqPet -> AcqPet ∈ l ++ a :: l' -> AcqPet ∈ l ++ l'.
Proof. rewrite !elem_of_app, !elem_of_cons. intros Hne [H|[H|H]]; [auto|by destruct Hne|auto]. Qed.

Lemma inv_step w w' : inv w -> step w w' -> inv w'.
Proof.
  intros Hi Hs. destruct Hs as [w|w l l' Ha Hf|w l l' Ha Hf|w l l' fd Ha Hf|w|w l l' Ha|w l l' fd Ha Hf|w l l' fd Ha Hf|w l l' Ha
    |w l l' Hl|w l l' c Hl|w l l' Hl|w l l' c Hl Hc|w].
  - apply (inv_acquires _ _ _ Hi eq_refl); [done|]. intros H. by apply elem_of_cons; right.
  - apply (inv_acquires _ _ _ Hi eq_refl); rewrite Ha; [by rewrite flight_split|by apply acq_drop].
  - apply (inv_acquires _ _ _ Hi eq_refl); rewrite Ha; [by rewrite !flight_split|by apply acq_swap].
  - destruct Hi as [H1 H2 H3 H4 H5 H6]. split; simpl; try done.
    + rewrite H1. unfold owned. simpl. rewrite Ha, !flight_split. simpl. by rewrite Permutation_middle.
    + by apply NoDup_cons.
    + destruct H3 as (p & H3 & Hp). exists p. rewrite (opened_app _ _ _ _ _ _ H3). simpl. by rewrite decide_False.
    + intros Hne. destruct (H6 Hne) as [H|H]; [left|by right]. rewrite Ha in H. by apply (acq_swap l l' AcqOpen).
  - done.
  - apply (inv_acquires _ _ _ Hi eq_refl); rewrite Ha; [by rewrite flight_split|by apply acq_drop].
  - destruct Hi as [H1 H2 H3 H4 H5 H6].
    assert (held_ w ≡ₚ fd :: owned (set_acquires (l ++ l') w)) as Hp.
    { rewrite H1. unfold owned. simpl. rewrite Ha, flight_split. simpl. by rewrite Permutation_middle. }
    split; simpl; try done.
    + by apply without_perm.
    + by apply NoDup_filter.
    + destruct H3 as (p & H3 & Hpp). exists p. rewrite (opened_app _ _ _ _ _ _ H3). simpl.
      assert (NoDup (fd :: owned (set_acquires (l ++ l') w))) as Hnd by (by rewrite <- Hp).
      apply NoDup_cons in Hnd as [Hni _]. rewrite decide_True; [done|]. split; [rewrite Hp; apply list_elem_of_here|].
      intros Hin. apply Hni. unfold owned. simpl. rewrite (Hpp _ Hin). apply list_elem_of_here.
    + intros Hne. destruct (H6 Hne) as [H|H]; [left|by right]. rewrite Ha in H. by apply (acq_drop l l' (AcqGot fd)).
  - destruct Hi as [H1 H2 (p & H3 & Hp) H4 [H5 H5'] H6]. split; simpl; try done.
    + rewrite H1. unfold owned. simpl. rewrite Ha, Hf, !flight_split. done.
    + exists p. split; [done|]. intros x Hx. apply Hp in Hx. congruence.
    + intros _ Hin. rewrite Forall_forall in H5'. specialize (H5' _ Hin). lia.
    + split; [lia|]. eapply Forall_impl; [exact H5'|]. simpl. lia.
    + intros _. left. apply elem_of_app. right. apply list_elem_of_here.
  - assert (inv (set_loops (LoopTop :: loops w) w)) as Hi1.
    { apply inv_loops; [done|]. intros _ _. exists LoopTop. split; [apply list_elem_of_here|done]. }
    apply inv_pet in Hi1 as [H1 H2 H3 H4 H5 H6]. split; simpl in *; try done.
    + rewrite H1. unfold owned. simpl. by rewrite Ha, flight_split.
    + intros _. right. exists LoopTop. split; [apply list_elem_of_here|done].
  - apply inv_loops; [done|]. rewrite Hl. intros H _. by apply (alive_swap l l' LoopTop).
  - apply inv_loops; [done|]. rewrite Hl. intros H _. by apply (alive_swap l l' (LoopWait c)).
  - apply inv_pet, inv_loops; [done|]. rewrite Hl. intros H _. by apply (alive_swap l l' LoopPet).
  - apply inv_loops; [done|]. rewrite Hl. intros (p & Hp & Hal) Hne. exists p. split; [|done].
    apply elem_of_app in Hp as [Hp|Hp]; [apply elem_of_app; by left|]. apply elem_of_cons in Hp as [->|Hp];
      [|apply elem_of_app; by right]. simpl in Hal. subst c. by destruct (inv_stop _ Hi Hne).
  - unfold Disarm. destruct Hi as [H1 H2 H3 H4 [H5 H5'] H6]. destruct (wd_fd w) as [fd|] eqn:Hfd; [|by split; rewrite ?Hfd].
    assert (held_ w ≡ₚ fd :: concat (map inFlight (acquires w))) as Hp by (rewrite H1; unfold owned; by rewrite Hfd).
    assert (fd ∈ held_ w) as Hin by (rewrite Hp; apply list_elem_of_here).
    split; simpl; try done.
    + exact (without_perm _ _ _ H2 Hp).
    + by apply NoDup_filter.
    + destruct H3 as (p & H3 & Hpp). rewrite (opened_app _ _ _ _ _ _ H3). simpl. exists (without fd p).
      assert (fd ∉ without fd p) as Hnp by (rewrite elem_of_without; by intros [? _]).
      rewrite !decide_True by done. split; [done|]. intros x [Hx1 Hx2]%elem_of_without. apply Hpp in Hx2. congruence.
    + split; [done|]. by constructor.
Qed.

Lemma inv_New : inv New.
Proof. split; simpl; try done; [by constructor|]. exists []. split; [done|]. intros x Hx. by apply elem_of_nil in Hx. Qed.


(** A loop that is between two waits when the watchdog is disarmed, and armed
    again, takes the new stop channel: two loops pet one descriptor. *)
Lemma two_loops : exists w, rtc step New w /\ acquires w = [] /\ loops w = [LoopWait 2; LoopWait 2] /\ 2 ∉ closed w.
Proof.
  eexists. split.
  - eapply rtc_l; [apply st_call|]. eapply rtc_l; [by apply (st_unarmed _ [] [])|].
    eapply rtc_l; [apply (st_open _ [] [] 7); [done|by apply not_elem_of_nil]|].
    eapply rtc_l; [by apply (st_arm _ [] [] 7)|]. eapply rtc_l; [by apply (st_first _ [] [])|].
    eapply rtc_l; [apply st_disarm|]. eapply rtc_l; [apply st_call|].
    eapply rtc_l; [by apply (st_unarmed _ [] [])|].
    eapply rtc_l; [apply (st_open _ [] [] 7); [done|by apply not_elem_of_nil]|].
    eapply rtc_l; [by apply (st_arm _ [] [] 7)|]. eapply rtc_l; [by apply (st_first _ [] [])|].
    eapply rtc_l; [by apply (st_read _ [] [LoopTop])|]. eapply rtc_l; [by apply (st_read _ [LoopWait 2] [])|].
    apply rtc_refl.
  - vm_compute. split; [done|]. split; [done|]. intros H. repeat (apply elem_of_cons in H as [H|H]; [discriminate H|]).
    by apply elem_of_nil in H.
Qed.
