(* ===== verification/Update.v ===== *)
(** * Updating the app

    What an app.update leaves behind: at every moment the app the next boot
    picks is the one that ran or the whole new one. *)
From S2P Require Import Prelude Circular Machine Sha256 Files Crash Slots SlotsRun AgentState Agent Takeover Supervise.

(** ** What a disk shows *)

Definition pointerIn (v : gmap path (list Z)) (p : path) (def : string) : string :=
  match v !! p with Some b => pointerText b def | None => def end.

Section Shown.
Context {C : Config}.

Definition activeIn (v : gmap path (list Z)) : string := pointerIn v (Join SlotRoot "active") SlotA.
Definition confirmedIn (v : gmap path (list Z)) : string := pointerIn v (Join SlotRoot "confirmed") (activeIn v).
Definition hasIn (v : gmap path (list Z)) (slot : string) : bool :=
  match v !! BinPath SlotRoot slot with Some b => negb (bool_decide (b = [])) | None => false end.
(** What pickSlot picks. *)
Definition pickIn (v : gmap path (list Z)) : string :=
  let a := activeIn v in let c := confirmedIn v in
  if hasIn v a then a else if String.eqb c a then "" else if hasIn v c then c else "".
End Shown.

Definition shows (d : disk) (v : gmap path (list Z)) : Prop := forall p, v !! p = data <$> at_ d p.
(** The view of a disk as it is. *)
Definition viewOf (d : disk) : gmap path (list Z) := omap (fun i => data <$> inodes d !! i) (names d).

Lemma viewOf_shows d : shows d (viewOf d).
Proof. intros p. unfold viewOf, at_. rewrite lookup_omap. by destruct (names d !! p). Qed.

(** ** Reads that do not fail *)

(** The system never fails to read the file a name leads to. *)
Definition readable {E : OsEnv} (o : os) (p : path) : Prop :=
  (forall h, os_Err h (COpen p) = None) /\ (forall h i n, names (cur o) !! p = Some i -> os_Err h (CRead i n) = None).

Section Reads.
Context {E : OsEnv}.

Lemma sys_ok c o : os_Err (oslog o) c = None -> sys c o = (Ret tt, enter (EvFile c None) o).
Proof. unfold sys, mbind, SE_bind. simpl. by intros ->. Qed.
Lemma ignore_sys c o : ignore (sys c) o = (Ret tt, enter (EvFile c (os_Err (oslog o) c)) o).
Proof. unfold ignore, attempt, sys, mbind, SE_bind. simpl. by destruct (os_Err _ _). Qed.

Lemma ReadFile_ok p o :
  readable o p -> exists o', same o o' /\
  ReadFile p o = (match names (cur o) !! p with Some i => Ret (data (fileOf o i)) | None => Fail ENOENT end, o').
Proof.
  intros [Ho Hr]. unfold ReadFile. set (o1 := enter (EvFile (COpen p) None) o).
  assert (open p o = (match names (cur o) !! p with Some i => Ret i | None => Fail ENOENT end, o1)) as Hop.
  { unfold open. rewrite (bind_Ret _ _ o tt o1) by (by apply sys_ok). unfold find, mbind, SE_bind. simpl.
    by destruct (names (cur o) !! p). }
  destruct (names (cur o) !! p) as [i|] eqn:Hi.
  2: { exists o1. split; [done|]. unfold mbind, SE_bind. by rewrite Hop. }
  rewrite (bind_Ret _ _ o i o1) by done. set (o2 := enter (EvFile (CRead i 0) None) o1).
  rewrite (bind_Ret _ _ o1 (inl (data (fileOf o i))) o2).
  - rewrite (bind_Ret _ _ o2 tt (enter (EvFile (CClose i) (os_Err (oslog o2) (CClose i))) o2)) by apply ignore_sys.
    eexists. split; [|reflexivity]. done.
  - unfold attempt. rewrite (bind_Ret _ _ o1 (Z.of_nat (length (data (fileOf o i)))) o1) by done.
    unfold pread. rewrite (bind_Ret _ _ o1 tt o2) by (apply sys_ok; by apply Hr).
    cbn [gets]. unfold slice. rewrite Nat2Z.id, drop_0. by rewrite firstn_all.
Qed.

Lemma readPointer_ok p def o v :
  readable o p -> shows (cur o) v -> exists o', same o o' /\ readPointer p def o = (Ret (pointerIn v p def), o').
Proof.
  intros H Hv. apply ReadFile_ok in H as (o' & Hs & Hr). exists o'. split; [done|].
  unfold readPointer, attempt, mbind, SE_bind. rewrite Hr. unfold pointerIn. rewrite Hv. unfold at_, fileOf.
  destruct (names (cur o) !! p) as [i|]; [|done]. simpl. by destruct (inodes (cur o) !! i).
Qed.
End Reads.

(** ** The pick of a boot whose file calls do not fail *)

Section Boot.
Context {E : OsEnv} {C : Config}.
Context (quiet : forall h c, os_Err h c = None).

(** Only the history moved. *)
Definition alike (a a' : agent) : Prop := exists o', same (sysOf a) o' /\ a' = withSys o' a.
Lemma alike_trans a1 a2 a3 : alike a1 a2 -> alike a2 a3 -> alike a1 a3.
Proof. intros (o2 & H2 & ->) (o3 & H3 & ->). exists o3. split; [by transitivity o2|done]. Qed.
Lemma alike_shows a a' v : alike a a' -> shows (cur (sysOf a)) v -> shows (cur (sysOf a')) v.
Proof. intros (o' & (Hc & _) & ->) Hv. change (shows (cur o') v). by rewrite Hc. Qed.

Lemma quiet_readable o p : readable o p.
Proof. split; intros; apply quiet. Qed.

Lemma zoom_ok {B} (m : F B) (x : B) a :
  (exists o', same (sysOf a) o' /\ m (sysOf a) = (Ret x, o')) -> exists a', alike a a' /\ zoom m a = (Ret x, a').
Proof. intros (o' & Hs & Hm). exists (withSys o' a). split; [by exists o'|]. unfold zoom. by rewrite Hm. Qed.

Lemma same_shows o o' v : same o o' -> shows (cur o) v -> shows (cur o') v.
Proof. by intros (-> & _). Qed.

Lemma HasBinary_ok slot o v :
  shows (cur o) v -> exists o', same o o' /\ HasBinary SlotRoot slot o = (Ret (hasIn v slot), o').
Proof.
  intros Hv. exists (enter (EvFile (CStat (BinPath SlotRoot slot)) None) o). split; [done|].
  unfold HasBinary, stat, attempt, hasIn. rewrite Hv. unfold at_, find.
  unfold mbind, SE_bind at 1. unfold mbind, SE_bind at 1. rewrite sys_ok by done. cbn.
  unfold mbind, SE_bind. cbn. destruct (names (cur o) !! BinPath SlotRoot slot) as [i|]; [|done]. cbn. unfold fileOf. cbn.
  destruct (inodes (cur o) !! i) as [f|]; [|done]. simpl. by destruct (data f).
Qed.

Lemma Confirmed_ok o v : shows (cur o) v -> exists o', same o o' /\ Confirmed SlotRoot o = (Ret (confirmedIn v), o').
Proof.
  intros Hv. destruct (readPointer_ok (Join SlotRoot "active") SlotA o v) as (o1 & H1 & R1); [apply quiet_readable|done|].
  destruct (readPointer_ok (Join SlotRoot "confirmed") (activeIn v) o1 v) as (o2 & H2 & R2);
    [apply quiet_readable|by apply (same_shows o)|].
  exists o2. split; [by transitivity o1|]. unfold Confirmed. by rewrite (bind_Ret _ _ o (activeIn v) o1).
Qed.

Lemma pickSlot_ok a v : shows (cur (sysOf a)) v -> exists a', alike a a' /\ pickSlot a = (Ret (pickIn v), a').
Proof.
  intros Hv. unfold pickSlot, pickIn.
  destruct (zoom_ok (Active SlotRoot) (activeIn v) a) as (a1 & H1 & R1).
  { apply readPointer_ok; [apply quiet_readable|done]. }
  assert (shows (cur (sysOf a1)) v) as Hv1 by (by apply (alike_shows a)).
  rewrite (bind_Ret _ _ _ _ _ R1).
  destruct (zoom_ok (HasBinary SlotRoot (activeIn v)) (hasIn v (activeIn v)) a1) as (a2 & H2 & R2); [by apply HasBinary_ok|].
  assert (shows (cur (sysOf a2)) v) as Hv2 by (by apply (alike_shows a1)).
  assert (alike a a2) as H02 by (by apply (alike_trans a a1)).
  unfold HasSlot at 1. rewrite (bind_Ret _ _ _ _ _ R2). destruct (hasIn v (activeIn v)); [by exists a2|].
  destruct (zoom_ok (Confirmed SlotRoot) (confirmedIn v) a2) as (a3 & H3 & R3); [by apply Confirmed_ok|].
  assert (shows (cur (sysOf a3)) v) as Hv3 by (by apply (alike_shows a2)).
  assert (alike a a3) as H03 by (by apply (alike_trans a a2)).
  unfold ConfirmedSlot. rewrite (bind_Ret _ _ _ _ _ R3). destruct (String.eqb (confirmedIn v) (activeIn v)); [by exists a3|].
  destruct (zoom_ok (HasBinary SlotRoot (confirmedIn v)) (hasIn v (confirmedIn v)) a3) as (a4 & H4 & R4); [by apply HasBinary_ok|].
  unfold HasSlot. rewrite (bind_Ret _ _ _ _ _ R4). exists a4. split; [by apply (alike_trans a a3)|].
  by destruct (hasIn v (confirmedIn v)).
Qed.
End Boot.

(** ** The paths of the store are apart *)

(** Facts about constant names. *)
Ltac plainly := first [reflexivity | let H := fresh in intros H; vm_compute in H; discriminate H].

Section Paths.
Context {C : Config}.

Lemma BinPath_eq slot : isSlot slot = true -> BinPath SlotRoot slot = (SlotRoot.1, SlotRoot.2 ++ [slot; "app"]).
Proof.
  intros H. assert (slot = SlotA \/ slot = SlotB) as Hs.
  { apply orb_true_iff in H as [H|H]; apply String.eqb_eq in H; auto. }
  assert (Join SlotRoot slot = (SlotRoot.1, SlotRoot.2 ++ [slot])) as Hj.
  { destruct Hs as [-> | ->]; apply Join_plain; plainly. }
  unfold BinPath, SlotDir. rewrite Hj, Join_plain by plainly. simpl. by rewrite <- (assoc (++)).
Qed.
Lemma BinTmp_eq slot : isSlot slot = true -> plus (BinPath SlotRoot slot) ".tmp" = (SlotRoot.1, SlotRoot.2 ++ [slot; "app.tmp"]).
Proof.
  intros H. rewrite BinPath_eq by done. change [slot; "app"] with ([slot] ++ ["app"]).
  rewrite (assoc (++)), plus_last, <- (assoc (++)). done.
Qed.
Lemma pointer_eq e : split e "" = [e] -> e <> "" -> e <> "." -> e <> ".." -> Join SlotRoot e = (SlotRoot.1, SlotRoot.2 ++ [e]).
Proof. apply Join_plain. Qed.
Lemma isSlot_Other slot : isSlot (Other slot) = true.
Proof. unfold Other. by destruct (String.eqb slot SlotA). Qed.
Lemma pointerText_slot b def : isSlot def = true -> isSlot (pointerText b def) = true.
Proof. intros. unfold pointerText. by repeat case_decide. Qed.
Lemma activeIn_slot v : isSlot (activeIn v) = true.
Proof. unfold activeIn, pointerIn. destruct (v !! _); [by apply pointerText_slot|done]. Qed.
Lemma Other_ne slot : isSlot slot = true -> Other slot <> slot.
Proof. intros [H|H]%orb_true_iff; apply String.eqb_eq in H as ->; done. Qed.
Lemma pointerText_own slot def : isSlot slot = true -> pointerText (text slot ++ [10]) def = slot.
Proof. intros [H|H]%orb_true_iff; apply String.eqb_eq in H as ->; done. Qed.
Lemma slot_cases s s' : isSlot s = true -> isSlot s' = true -> s' = s \/ s' = Other s.
Proof.
  intros [H|H]%orb_true_iff [H'|H']%orb_true_iff; apply String.eqb_eq in H as ->; apply String.eqb_eq in H' as ->; auto.
Qed.
End Paths.

Ltac store_path :=
  rewrite ?BinTmp_eq, ?BinPath_eq by (done || apply isSlot_Other || apply activeIn_slot);
  rewrite ?(pointer_eq "active"), ?(pointer_eq "confirmed") by plainly; rewrite ?plus_last; cbn [String.append].
(** Two paths of the store that differ. *)
Ltac store_apart := store_path; let H := fresh in intros [= H]; apply app_inv_head in H; simplify_eq.

(** ** The agent's runs under the crash logic *)

Lemma wpc_zoom {B} Cn (m : F B) (Q : outcome B -> agent -> Prop) a :
  wpc id Cn m (fun r o => Q r (withSys o a)) (sysOf a) -> wpc sysOf Cn (zoom m) Q a.
Proof. done. Qed.

Lemma wpc_idle {B} Cn (m : A B) (Q : outcome B -> agent -> Prop) a :
  hist (sysOf (m a).2) = hist (sysOf a) -> Q (m a).1 (m a).2 -> wpc sysOf Cn m Q a.
Proof. apply wpc_still. Qed.

Lemma same_at o o' q : same o o' -> at_ (cur o') q = at_ (cur o) q.
Proof. by intros (-> & _). Qed.
Lemma mark_at o q f : at_ (cur o) q = Some f -> synced f = true -> mark (cur o) (names (cur o)) q = Some (Some (data f)).
Proof. unfold mark, at_. destruct (names (cur o) !! q); simpl; [|done]. intros -> Hs. simpl. by rewrite Hs. Qed.

Section Update.
Context {E : OsEnv} {C : Config}.
Context (a : agent) (p : updateArgs).
Abbreviation o0 := (sysOf a).
Abbreviation run := (activeIn (viewOf (cur o0))).
Abbreviation target := (Other run).
Abbreviation src := (Clean (up_Src p)).
Abbreviation act := (Join SlotRoot "active").
Context (Hset : settled o0).
Context (Hact : readable o0 act).
Context (frun : file) (Hrun : at_ (cur o0) (BinPath SlotRoot run) = Some frun).
Context (Hsrc1 : src <> plus (BinPath SlotRoot target) ".tmp") (Hsrc2 : src <> plus act ".tmp").

Definition updT (q : path) : Prop := q = plus (BinPath SlotRoot target) ".tmp" \/ q = plus act ".tmp".
(** The running slot whole, and the pointer as it was until the other is. *)
Definition updP (mk : path -> option (option (list Z))) : Prop :=
  mk (BinPath SlotRoot run) = Some (Some (data frun)) /\
  (mk act = mark (cur o0) (names (cur o0)) act \/
   exists f, at_ (cur o0) src = Some f /\ mk (BinPath SlotRoot target) = Some (Some (data f))).

Lemma upd_apart : ~ updT (BinPath SlotRoot run) /\ ~ updT act /\ ~ updT (BinPath SlotRoot target) /\ ~ updT src /\
  BinPath SlotRoot target <> BinPath SlotRoot run /\ act <> BinPath SlotRoot target /\ act <> BinPath SlotRoot run.
Proof using Hsrc1 Hsrc2.
  unfold updT. repeat split; try (intros [H|H]; [revert H|revert H]); try store_apart; try done.
  by apply (Other_ne run); [apply activeIn_slot|].
Qed.

Lemma updP_blind mk mk' : (forall q, ~ updT q -> mk q = mk' q) -> updP mk -> updP mk'.
Proof using Hsrc1 Hsrc2.
  destruct upd_apart as (H1 & H2 & H3 & _). intros H. unfold updP. by rewrite <- !H by done.
Qed.

(** What the handler's end leaves. *)
Definition updEnd (r : outcome (string * list Z)) (a' : agent) : Prop :=
  at_ (cur (sysOf a')) (BinPath SlotRoot run) = Some frun /\
  match r with
  | Ret (t, sum) => t = target /\ exists f, at_ (cur o0) src = Some f /\ sum = hexSum (data f) /\
      (up_SHA p = "" \/ EqualFold (hexSum (data f)) (text (up_SHA p)) = true) /\
      data <$> at_ (cur (sysOf a')) act = Some (text target ++ [10]) /\
      data <$> at_ (cur (sysOf a')) (BinPath SlotRoot target) = Some (data f)
  | Fail _ => at_ (cur (sysOf a')) act = at_ (cur o0) act
  | _ => False
  end.

Abbreviation updS := (steady updT updP).

Lemma upd_start : updS o0.
Proof using Hset Hrun.
  apply settled_steady; [done|]. split; [|by left]. rewrite settled_mark by done. by rewrite Hrun.
Qed.

Lemma src_at k : names (cur o0) !! src = Some k -> at_ (cur o0) src = Some (fileOf o0 k).
Proof using Hset.
  intros Hk. apply at_fileOf; [done|]. destruct (se_file _ Hset _ _ Hk) as (_ & f & Hf & Hs). unfold fileOf. by rewrite Hf.
Qed.

(** What follows the pointer touches no file. *)
Lemma wpc_tail {B} Cn t (x : B) (Q : outcome B -> agent -> Prop) a1 :
  (forall a2, same (sysOf a1) (sysOf a2) -> Q (Ret x) a2) ->
  wpc sysOf Cn (clearFails;; event "app.update" t;; s ← onState get;
    (if TakenOver s then ignore (ctlRequest opRestart) else mret tt);; mret x) Q a1.
Proof.
  intros HQ. apply wpc_bind, wpc_still; [done|]. cbn [thenc]. apply wpc_bind, wpc_still; [done|]. cbn [thenc].
  apply wpc_bind, wpc_still; [done|]. cbn [thenc]. apply wpc_bind. destruct (TakenOver _).
  - apply wpc_ignore. unfold ctlRequest. apply wpc_bind, wpc_still; [done|]. cbn [thenc].
    apply wpc_liftErr; intros; cbn [thenc]; apply wpc_ret; by apply HQ.
  - apply wpc_ret. cbn [thenc]. apply wpc_ret. by apply HQ.
Qed.

(** Past the checks: the slot read, the copy, the pointer. *)
Lemma wpc_install o1 :
  same o0 o1 ->
  wpc sysOf (sure updP)
    (active ← zoom (Active SlotRoot);
     sum ← zoom (Install SlotRoot (Other active) src);
     zoom (SetActive SlotRoot (Other active));;
     clearFails;;
     event "app.update" (Other active);;
     s ← onState get;
     (if TakenOver s then ignore (ctlRequest opRestart) else mret tt);;
     mret (Other active, sum))
    (fun r a' => at_ (cur (sysOf a')) (BinPath SlotRoot run) = Some frun /\
      match r with
      | Ret (t, sum) => t = target /\ exists f, at_ (cur o0) src = Some f /\ sum = hexSum (data f) /\
          data <$> at_ (cur (sysOf a')) act = Some (text target ++ [10]) /\
          data <$> at_ (cur (sysOf a')) (BinPath SlotRoot target) = Some (data f)
      | Fail _ => at_ (cur (sysOf a')) act = at_ (cur o0) act
      | _ => False
      end) (withSys o1 a).
Proof using All.
  intros H1. destruct upd_apart as (Tr & Ta & Tt & Ts & Ntr & Nat_ & Nar).
  pose proof updP_blind as blind. pose proof upd_start as Hs0.
  destruct (readPointer_ok act SlotA o1 (viewOf (cur o0))) as (o2 & H2 & R2).
  { destruct Hact as [Ho Hr]. split; [done|]. destruct H1 as (-> & _). done. }
  { apply (same_shows o0); [done|]. apply viewOf_shows. }
  assert (same o0 o2) as H02 by (by transitivity o1).
  assert (updS o2) as Hs2 by (by apply (same_steady _ _ o0)).
  apply wpc_bind, wpc_zoom. apply (wpc_ran _ _ _ _ _ _ _ R2); [exact (proj1 (proj2 H2))|].
  cbn [thenc]. fold (activeIn (viewOf (cur o0))).
  apply wpc_bind, wpc_zoom. unfold Install. rewrite isSlot_Other. cbn [negb guard].
  apply wpc_bind, wpc_ret. cbn [thenc]. apply wpc_bind, wpc_sys. intros r o3 H3 Hr.
  assert (same o0 o3) as H03 by (by transitivity o2).
  assert (updS o3) as Hs3 by (by apply (same_steady _ _ o0)).
  destruct Hr as [->|[e ->]]; cbn [thenc]; [|split; [rewrite <- Hrun|]; by apply (same_at o0 o3)].
  apply (wpc_CopyExecutable updT updP blind); [by left|done|done|done|..].
  - intros k mk Hk Hm Hmk. destruct H03 as (Hc & _). rewrite Hc in Hk, Hmk.
    assert (fileOf o3 k = fileOf o0 k) as Hf by (unfold fileOf; by rewrite Hc). rewrite Hf in Hm.
    split; [|right; exists (fileOf o0 k); split; [by apply src_at|done]].
    rewrite Hmk by done. rewrite settled_mark by done. by rewrite Hrun.
  - intros e o4 Hs4 Ha4. cbn [thenc].
    split; [rewrite <- Hrun, <- (same_at o0 o3 _ H03)|rewrite <- (same_at o0 o3 _ H03)]; by apply Ha4.
  - intros k o4 Hk Hs4 Hb4 (f4 & Hat4 & Hd4 & Hy4). cbn [thenc]. pose proof (same_at o0 o3) as Hsm.
    destruct H03 as (Hc & ?). rewrite Hc in Hk.
    assert (fileOf o3 k = fileOf o0 k) as Hf by (unfold fileOf; by rewrite Hc). rewrite Hf in *.
    destruct (Hb4 _ Tr) as [_ Hr4]; [done|]. destruct (Hb4 _ Ta) as [_ Ha4]; [done|].
    rewrite Hsm, Hrun in Hr4 by done. rewrite Hsm in Ha4 by done. clear Hsm.
    assert (synced frun = true) as Hyrun.
    { unfold at_ in Hrun. destruct (names (cur o0) !! _) as [i|] eqn:Hi; [|done]. simpl in Hrun.
      destruct (se_file _ Hset _ _ Hi) as (_ & f & Hif & Hy). congruence. }
    apply wpc_bind, wpc_zoom. unfold SetActive. rewrite isSlot_Other. cbn [negb guard].
    apply wpc_bind, wpc_ret. cbn [thenc].
    apply (wpc_writePointer updT updP blind); [by right|done|done|..].
    + intros mk _ Hmk. split; [rewrite Hmk by done; by apply mark_at|].
      right. exists (fileOf o0 k). split; [by apply src_at|]. rewrite Hmk by done. rewrite <- Hd4. by apply mark_at.
    + intros e o5 Hs5 Ha5. cbn [thenc]. split; [rewrite <- Hr4|rewrite <- Ha4]; by apply Ha5.
    + intros o5 Hs5 Hb5 Hat5. cbn [thenc]. apply wpc_tail. intros a6 H6.
      assert (forall q, at_ (cur (sysOf a6)) q = at_ (cur o5) q) as Hat6 by (intros q; by apply same_at).
      rewrite !Hat6. split; [rewrite <- Hr4; by apply Hb5|].
      split; [done|]. exists (fileOf o0 k). split; [by apply src_at|]. split; [done|]. split; [done|].
      rewrite <- Hd4. change (Some (data f4)) with (data <$> Some f4). rewrite <- Hat4. f_equal. by apply Hb5.
Qed.

Lemma withSys_id : withSys o0 a = a.
Proof. by destruct a as [[] ? ? ? ? ?]. Qed.

Lemma wpc_hAppUpdate : wpc sysOf (sure updP) (hAppUpdate p) updEnd a.
Proof using All.
  unfold hAppUpdate. destruct (String.eqb (up_Src p) ""); cbn [guard].
  { apply wpc_bind, wpc_fail. by split. }
  apply wpc_bind, wpc_ret. cbn [thenc]. apply wpc_bind.
  assert (forall o1, same o0 o1 -> (up_SHA p = "" \/ exists k, names (cur o0) !! src = Some k /\
      EqualFold (hexSum (data (fileOf o0 k))) (text (up_SHA p)) = true) ->
    thenc sysOf (sure updP) (fun _ : unit => active ← zoom (Active SlotRoot);
      sum ← zoom (Install SlotRoot (Other active) src); zoom (SetActive SlotRoot (Other active));;
      clearFails;; event "app.update" (Other active);; s ← onState get;
      (if TakenOver s then ignore (ctlRequest opRestart) else mret tt);; mret (Other active, sum)) updEnd (Ret tt) (withSys o1 a)) as Hrest.
  { intros o1 Hs Hsha. cbn [thenc]. eapply wpc_mono; [by apply wpc_install|]. intros r a' [H1 H2]. split; [done|].
    destruct r as [[t sum]| | |]; try done. destruct H2 as (-> & f & Hf & -> & H2). split; [done|]. exists f.
    split; [done|]. split; [done|]. split; [|done]. destruct Hsha as [|(k & Hk & Hsha)]; [by left|right].
    apply src_at in Hk. congruence. }
  destruct (String.eqb (up_SHA p) "") eqn:Hsha.
  - apply wpc_ret. rewrite <- withSys_id. apply Hrest; [done|]. left. by apply String.eqb_eq.
  - apply wpc_bind, wpc_zoom. apply wpc_bind, wpc_ReadFile.
    + intros e o1 Hs. split; by apply same_at || (rewrite <- Hrun; by apply (same_at o0 o1)).
    + intros k o1 Hs Hk. cbn [thenc]. apply wpc_ret. cbn [thenc].
      destruct (EqualFold _ _) eqn:Heq; cbn [negb guard].
      * apply wpc_ret. apply Hrest; [done|]. right. by exists k.
      * apply wpc_fail. split; [rewrite <- Hrun|]; by apply (same_at o0 o1).
Qed.

(** ** What the next boot runs *)

(** A boot whose file calls do not fail, on a disk that shows [v], runs [s]. *)
Definition boots (v : gmap path (list Z)) (s : string) : Prop :=
  forall (E' : OsEnv) a', (forall h c, os_Err (OsEnv := E') h c = None) -> shows (cur (sysOf a')) v ->
  (pickSlot (E := E') a').1 = Ret s.

Lemma pick_boots v s : pickIn v = s -> boots v s.
Proof. intros <- E' a' Hq Hv. by destruct (pickSlot_ok Hq a' v Hv) as (a2 & _ & ->). Qed.

Lemma picks_active v s b : activeIn v = s -> v !! BinPath SlotRoot s = Some b -> b <> [] -> pickIn v = s.
Proof. intros <- Hb Hne. unfold pickIn, hasIn. rewrite Hb. by rewrite bool_decide_eq_false_2 by done. Qed.

Lemma viewOf_at d q : viewOf d !! q = data <$> at_ d q.
Proof. apply viewOf_shows. Qed.

Lemma upd_cut mk v :
  data frun <> [] -> (forall f, at_ (cur o0) src = Some f -> data f <> []) -> updP mk -> agrees mk v ->
  (pickIn v = run /\ v !! BinPath SlotRoot run = Some (data frun)) \/
  (pickIn v = target /\ exists f, at_ (cur o0) src = Some f /\ v !! BinPath SlotRoot target = Some (data f)).
Proof using Hset.
  intros Hne Hns [Hr Hp] Hag. pose proof (Hag (BinPath SlotRoot run)) as Hvr. rewrite Hr in Hvr.
  assert (activeIn v = run -> pickIn v = run /\ v !! BinPath SlotRoot run = Some (data frun)) as Hrunning.
  { intros Ha. split; [|done]. by apply (picks_active _ _ _ Ha Hvr). }
  destruct Hp as [Hp|(f & Hf & Hp)].
  - left. apply Hrunning. pose proof (Hag act) as Hva. rewrite Hp, settled_mark in Hva by done.
    unfold activeIn at 1, pointerIn. unfold activeIn, pointerIn. rewrite viewOf_at.
    destruct (at_ (cur o0) act); simpl in *; by rewrite Hva.
  - destruct (slot_cases run (activeIn v)) as [Ha|Ha]; [apply activeIn_slot|apply activeIn_slot|left; by apply Hrunning|right].
    pose proof (Hag (BinPath SlotRoot target)) as Hvt. rewrite Hp in Hvt. split; [|by exists f].
    apply (picks_active _ _ (data f)); [done|done|by apply Hns].
Qed.

End Update.
