(* ===== verification/Upload.v ===== *)
(** * Uploads

    src/ota/internal/agent/upload.go: a file sent in chunks, in any order, into
    a partial file beside its destination; the commit checks its size and its
    sum, which a transfer in order has hashed on the way, and renames it into
    place. Sizes and offsets are 64-bit. What a transfer leaves at its
    destination, with chunks in any order, repeated or failing, and power cuts
    at any moment. *)
From S2P Require Import Prelude Circular Machine Sha256 Files Crash Slots SlotsRun.

Definition i64 (x : Z) : Z := (x + 2 ^ 63) mod 2 ^ 64 - 2 ^ 63.

(** [strconv.FormatInt(x, 36)] *)
Definition digit36 (d : Z) : Ascii.ascii := Ascii.ascii_of_N (Z.to_N (if d <? 10 then 48 + d else 87 + d)).
Fixpoint format36 (fuel : nat) (x : Z) (acc : string) : string :=
  match fuel with
  | O => acc
  | S fuel =>
      let acc := String (digit36 (x mod 36)) acc in
      if x / 36 =? 0 then acc else format36 fuel (x / 36) acc
  end.
(** 13 digits hold 2^63. *)
Definition FormatInt36 (x : Z) : string :=
  if x <? 0 then ("-" +:+ format36 13 (- x) "")%string else format36 13 x "".

(** [f] is None once closed; the hash is the bytes hashed in order, and
    hashed -1 once a chunk landed anywhere else. *)
Record uploadSession := Session {
  dest : path; tmp : path; f : option Z;
  size : Z; sha : list Z; fmode : Z;
  written : Z; created : Z;
  hash : list Z; hashed : Z
}.

Record Uploads := { up_os : os; ups : gmap string uploadSession }.
Abbreviation U := (SE Uploads).
Definition inOs {B} (m : F B) : U B := fun s => let r := m (up_os s) in (r.1, Build_Uploads r.2 (ups s)).
Definition put (id : string) (s : uploadSession) : U unit :=
  modify (fun u => Build_Uploads (up_os u) (<[id := s]> (ups u))).
Definition drop_ (id : string) : U unit := modify (fun u => Build_Uploads (up_os u) (delete id (ups u))).

Definition minutes (n : Z) : Z := n * 60000000000.
(** [strings.ToLower] of a hexadecimal sum. *)
Definition toLower (l : list Z) : list Z := map (fun c => if (65 <=? c) && (c <=? 90) then c + 32 else c) l.

Section Upload.
Context {E : OsEnv}.

Definition abort (s : uploadSession) : U unit :=
  (match f s with Some i => inOs (ignore (close i)) | None => mret tt end);;
  inOs (ignore (remove (tmp s))).

(** Older than ten minutes; Go's order over a map is unspecified. *)
Definition evictStale : U unit :=
  u ← gets (fun u => u);
  let now := os_Now (oslog (up_os u)) in
  let stale := List.filter (fun p => minutes 10 <? now - created p.2) (map_to_list (ups u)) in
  each (fun p => drop_ p.1) stale;;
  each (fun p => abort p.2) stale.

Definition newUpload (destName : string) (sz : Z) (sum : list Z) (m : Z) : U string :=
  let d := Clean destName in
  guard (negb (IsAbs d)) (EMsg "upload: dest must be absolute" []);;
  inOs (mkdirAll (Dir d));;
  evictStale;;
  n ← gets (fun u => Z.of_nat (base.size (ups u)));
  guard (8 <=? n) (EMsg "upload: too many concurrent sessions" []);;
  t ← inOs Now;
  let id := ("up-" +:+ FormatInt36 t)%string in
  let part := Join (Dir d) ("." +:+ id +:+ ".part")%string in
  i ← inOs (create part perm600);
  t ← inOs Now;
  put id (Session d part (Some i) sz (toLower sum) (if m =? 0 then perm755 else m) 0 t [] 0);;
  mret id.

Definition getUpload (id : string) : U uploadSession :=
  o ← gets (fun u => ups u !! id);
  match o with Some s => mret s | None => fail (EMsg "upload: unknown session %q" (text id)) end.

(** The count of bytes written; beside an error it is dropped. *)
Definition writeUpload (id : string) (offset : Z) (d : list Z) : U Z :=
  s ← getUpload id;
  match f s with
  | None => failMsg "upload: session closed" []
  | Some i =>
      guard ((0 <? size s) && (size s <? i64 (offset + Z.of_nat (length d)))) (EMsg "upload: chunk exceeds declared size" []);;
      w ← inOs (pwrite i offset d);
      let n := w.1 in
      let '(h, k) := if offset =? hashed s then (hash s ++ take (Z.to_nat n) d, hashed s + n) else (hash s, -1) in
      let s := Session (dest s) (tmp s) (f s) (size s) (sha s) (fmode s) (written s) (created s) h k in
      match w.2 with
      | Some e => put id s;; fail e
      | None =>
          let end_ := i64 (offset + n) in
          put id (Session (dest s) (tmp s) (f s) (size s) (sha s) (fmode s)
            (if written s <? end_ then end_ else written s) (created s) h k);;
          mret n
      end
  end.

Definition commitUpload (id : string) : U (path * list Z) :=
  s ← getUpload id;
  match f s with
  | None => failMsg "upload: session already committed" []
  | Some i =>
      inOs (fsync i);;
      inOs (close i);;
      put id (Session (dest s) (tmp s) None (size s) (sha s) (fmode s) (written s) (created s) (hash s) (hashed s));;
      if (0 <? size s) && negb (written s =? size s) then
        inOs (ignore (remove (tmp s)));; failMsg "upload: size mismatch (got %d, want %d)" [written s; size s]
      else if (0 <? size s) && bool_decide (sha s = []) then
        inOs (ignore (remove (tmp s)));; failMsg "upload: sha256 required when size is declared" []
      else
        sum ← (if hashed s =? written s then mret (hexSum (hash s)) else inOs (FileSHA256 (tmp s)));
        if negb (bool_decide (sha s = [])) && negb (bool_decide (sum = sha s)) then
          inOs (ignore (remove (tmp s)));; failMsg "upload: sha256 mismatch (got %s, want %s)" (sum ++ sha s)
        else
          inOs (chmod (tmp s) (fmode s));;
          inOs (rename (tmp s) (dest s));;
          drop_ id;;
          mret (dest s, sum)
  end.
End Upload.

(** ** A whole transfer *)

(** A client's calls: it may go on after a chunk's error. *)
Definition transfer {E : OsEnv} (destName : string) (sz : Z) (sum : list Z) (m : Z) (chunks : list (Z * list Z)) :
    U (path * list Z) :=
  id ← newUpload destName sz sum m;
  each (fun c => ignore (writeUpload id c.1 c.2)) chunks;;
  commitUpload id.

Section Transfer.
Context {E : OsEnv}.
Context (destName : string) (sz : Z) (sum : list Z) (u0 : Uploads).
Abbreviation d := (Clean destName).
Abbreviation o0 := (up_os u0).

(** The partial files: this transfer's, whatever its name, and those of the
    sessions there are. *)
Definition partOf (id : string) : path := Join (Dir d) ("." +:+ id +:+ ".part")%string.
Definition upT (q : path) : Prop := (exists id, q = partOf id) \/ exists id s, ups u0 !! id = Some s /\ q = tmp s.
(** The sum asked for. *)
Definition asked (D : list Z) : Prop := sum = [] \/ hexSum D = toLower sum.
Definition upP (mk : path -> option (option (list Z))) : Prop :=
  mk d = mark (cur o0) (names (cur o0)) d \/ exists D, mk d = Some (Some D) /\ asked D.
Context (Hset : settled o0) (Hd : ~ upT d).

Lemma up_blind mk mk' : (forall q, ~ upT q -> mk q = mk' q) -> upP mk -> upP mk'.
Proof using Hd. intros H. unfold upP. by rewrite (H d). Qed.
Abbreviation upS := (steady upT upP).
Abbreviation Cn := (sure upP).

Lemma wpc_inOs {B} (m : F B) (Q : outcome B -> Uploads -> Prop) u :
  wpc id Cn m (fun r o => Q r (Build_Uploads o (ups u))) (up_os u) -> wpc up_os Cn (inOs m) Q u.
Proof. done. Qed.

Lemma wpc_each {B} (g : B -> U unit) (I : Uploads -> Prop) (l : list B) u :
  (forall x u, x ∈ l -> I u -> wpc up_os Cn (g x) (fun r u' => r = Ret tt /\ I u') u) -> I u ->
  wpc up_os Cn (each g l) (fun r u' => r = Ret tt /\ I u') u.
Proof.
  revert u. induction l as [|x l IH]; intros u Hg Hu; cbn [each]; [by apply wpc_ret|].
  apply wpc_bind. eapply wpc_mono; [apply Hg; [apply list_elem_of_here|done]|]. intros r u' [-> Hu']. cbn [thenc].
  apply IH; [|done]. intros y u2 Hy. apply Hg. by apply list_elem_of_further.
Qed.

(** Nothing of the destination has changed yet. *)
Definition kept (u : Uploads) : Prop := upS (up_os u) /\ aside upT o0 (up_os u).

Lemma kept_same u o' us : kept u -> same (up_os u) o' -> kept (Build_Uploads o' us).
Proof.
  intros [H1 H2] Hs. split; [by apply (same_steady _ _ (up_os u))|]. transitivity (up_os u); [done|]. by apply same_aside.
Qed.

Lemma kept_evict u : kept u -> (forall id s, ups u !! id = Some s -> upT (tmp s)) ->
  wpc up_os Cn evictStale (fun r u' => r = Ret tt /\ kept u') u.
Proof using Hd.
  intros Hu Hups. unfold evictStale. apply wpc_bind, wpc_gets. cbn [thenc]. set (stale := List.filter _ _).
  assert (forall p, p ∈ stale -> upT (tmp p.2)) as Hst.
  { intros [id s] Hp. unfold stale in Hp. apply list_elem_of_In, filter_In in Hp as [Hp _].
    apply list_elem_of_In, elem_of_map_to_list in Hp. by apply (Hups id). }
  apply wpc_bind. eapply wpc_mono; [apply (wpc_each _ kept); [|done]|].
  { intros x u1 _ H1. by apply wpc_still. }
  intros r u1 [-> H1]. cbn [thenc]. apply wpc_each; [|done]. intros p u2 Hp H2. unfold abort.
  assert (forall u3, kept u3 -> wpc up_os Cn (inOs (ignore (remove (tmp p.2)))) (fun r u' => r = Ret tt /\ kept u') u3) as Hrm.
  { intros u3 [H3 A3]. apply wpc_inOs, wpc_ignore, (wpc_remove upT upP up_blind); [done|by apply Hst|].
    intros r' o' Ho Ha [->|[e ->]]; (split; [done|]); (split; [done|]); by transitivity (up_os u3). }
  apply wpc_bind. destruct (f p.2) as [i|].
  - apply wpc_inOs, wpc_ignore, wpc_sys. intros r' o' Hs [->|[e ->]]; cbn [thenc]; apply Hrm; by eapply kept_same.
  - apply wpc_ret. cbn [thenc]. by apply Hrm.
Qed.

(** ** The session *)

Record open_ (id : string) (m : Z) (u : Uploads) : Prop := {
  op_kept : kept u;
  op_ex : exists s i, ups u !! id = Some s /\ f s = Some i /\ dest s = d /\ tmp s = partOf id /\ size s = sz /\
    sha s = toLower sum /\ names (cur (up_os u)) !! partOf id = Some i /\ 0 <= written s /\
    (0 <= hashed s -> hash s = data (fileOf (up_os u) i) /\ hashed s = Z.of_nat (length (hash s)));
}.

Lemma wpc_newUpload m :
  wpc up_os Cn (newUpload destName sz sum m) (fun r u => match r with
    | Ret id => open_ id m u
    | Fail _ => kept u
    | _ => False end) u0.
Proof using Hset Hd.
  assert (kept u0) as H0.
  { split; [|reflexivity]. apply settled_steady; [done|]. by left. }
  unfold newUpload. apply wpc_bind. destruct (IsAbs d); cbn [negb guard]; [|by apply wpc_fail].
  apply wpc_ret. cbn [thenc]. apply wpc_bind, wpc_inOs, wpc_sys. intros r o1 Hs1 Hr1.
  assert (kept (Build_Uploads o1 (ups u0))) as H1 by (by eapply kept_same).
  destruct Hr1 as [->|[e ->]]; cbn [thenc]; [|done].
  apply wpc_bind. eapply wpc_mono; [apply kept_evict; [done|]|].
  { intros id s Hs. right. by exists id, s. }
  intros r u2 [-> H2]. cbn [thenc]. apply wpc_bind, wpc_gets. cbn [thenc]. apply wpc_bind.
  destruct (8 <=? _); cbn [guard]; [by apply wpc_fail|]. apply wpc_ret. cbn [thenc].
  apply wpc_bind, wpc_inOs, wpc_gets. cbn [thenc]. set (id := ("up-" +:+ _)%string). cbv zeta.
  assert (upT (partOf id)) as Ht by (left; by exists id).
  apply wpc_bind, wpc_inOs. destruct H2 as [H2 A2].
  apply (wpc_create upT upP up_blind); [done|done|..].
  { intros e o3 Hs3. apply (kept_same u2); [by split|done]. }
  intros i o3 Ho3 Ha3 Hi Hdt. cbn [thenc]. apply wpc_bind, wpc_inOs, wpc_gets. cbn [thenc].
  apply wpc_bind, wpc_still; [done|]. cbn [thenc]. apply wpc_ret. split.
  - split; [done|]. by transitivity (up_os u2).
  - eexists _, i. split; [apply lookup_insert_eq|]. simpl. do 5 (split; [done|]). split; [done|]. split; [lia|].
    intros _. by rewrite Hdt.
Qed.

Lemma wpc_getUpload id s u (Q : outcome uploadSession -> Uploads -> Prop) :
  ups u !! id = Some s -> Q (Ret s) u -> wpc up_os Cn (getUpload id) Q u.
Proof. intros Hs HQ. unfold getUpload. apply wpc_bind, wpc_gets. cbn [thenc]. rewrite Hs. by apply wpc_ret. Qed.

Lemma wpc_writeUpload id m off b u :
  open_ id m u -> wpc up_os Cn (ignore (writeUpload id off b)) (fun r u' => r = Ret tt /\ open_ id m u') u.
Proof using Hd.
  intros [[Ho Ha] (s & i & Hs & Hf & Hde & Htm & Hsz & Hsh & Hi & Hw & Hh)].
  assert (open_ id m u) as Hop by (split; [done|]; by exists s, i).
  apply wpc_ignore, wpc_bind, (wpc_getUpload _ s); [done|]. cbn [thenc]. rewrite Hf. apply wpc_bind.
  destruct ((0 <? size s) && _); cbn [guard]; [by apply wpc_fail|]. apply wpc_ret. cbn [thenc]. apply wpc_bind.
  (** what the write's count and content do to the session *)
  assert (forall k e o', upS o' -> aside upT (up_os u) o' -> names (cur o') = names (cur (up_os u)) ->
    0 <= k <= Z.of_nat (length b) -> (off < 0 -> k = 0) ->
    data (fileOf o' i) = (if off <? 0 then data (fileOf (up_os u) i)
      else overlay (Z.to_nat off) (take (Z.to_nat k) b) (data (fileOf (up_os u) i))) ->
    thenc up_os Cn (fun w => let n := w.1 in
      let '(h, k) := if off =? hashed s then (hash s ++ take (Z.to_nat n) b, hashed s + n) else (hash s, -1) in
      let s := Session (dest s) (tmp s) (Some i) (size s) (sha s) (fmode s) (written s) (created s) h k in
      match w.2 with
      | Some e => put id s;; fail e
      | None =>
          let end_ := i64 (off + n) in
          put id (Session (dest s) (tmp s) (f s) (size s) (sha s) (fmode s)
            (if written s <? end_ then end_ else written s) (created s) h k);; mret n
      end) (fun o s' => match o with
        | Ret _ | Fail _ => Ret tt = Ret tt /\ open_ id m s'
        | Panic => Panic = Ret tt /\ open_ id m s'
        | OutOfFuel => OutOfFuel = Ret tt /\ open_ id m s' end) (Ret (k, e)) (Build_Uploads o' (ups u))) as Hput.
  { intros k e o' Ho' Ha' Hn' Hk Hneg Hdata. cbn [thenc fst snd].
    set (hk := if off =? hashed s then (hash s ++ take (Z.to_nat k) b, hashed s + k) else (hash s, -1)).
    assert (0 <= hk.2 -> hk.1 = data (fileOf o' i) /\ hk.2 = Z.of_nat (length hk.1)) as Hhk.
    { unfold hk. destruct (Z.eqb_spec off (hashed s)) as [->|Hne]; cbn [fst snd]; [|lia]. intros H0.
      destruct (Z.ltb_spec (hashed s) 0) as [Hlt|Hge]; [rewrite (Hneg Hlt) in H0; lia|].
      destruct (Hh Hge) as [H1 H2]. rewrite Hdata, <- H1, H2, Nat2Z.id, overlay_end. split; [done|].
      rewrite length_app, length_take. lia. }
    rewrite (surjective_pairing hk). cbn [fst snd].
    assert (forall w, 0 <= w -> open_ id m (Build_Uploads o' (<[id := Session (dest s) (tmp s) (Some i) (size s) (sha s) (fmode s)
      w (created s) hk.1 hk.2]> (ups u)))) as Hopen.
    { intros w Hw0. split; [split; [done|by transitivity (up_os u)]|]. eexists _, i. split; [apply lookup_insert_eq|]. cbn.
      rewrite Hn'. do 6 (split; [done|]). by split. }
    destruct e as [e|]; cbn [snd]; (apply wpc_bind, wpc_still; [done|]);
      cbn [thenc put modify fst snd dest tmp f size sha fmode written created ups up_os].
    - apply wpc_fail. split; [done|]. by apply Hopen.
    - apply wpc_ret. split; [done|]. apply Hopen. destruct (Z.ltb_spec (written s) (i64 (off + k))); lia. }
  apply wpc_inOs. destruct (Z.ltb_spec off 0) as [Hlt|Hge].
  - assert (pwrite i off b = mret (0, Some (EMsg "negative offset" []))) as ->.
    { unfold pwrite. by rewrite (proj2 (Z.ltb_lt off 0) Hlt). }
    apply wpc_ret. apply (Hput 0 (Some (EMsg "negative offset" [])) (up_os u) Ho); [reflexivity|done|split; lia|lia|done].
  - apply (wpc_pwrite upT upP up_blind (partOf id)); [done|left; by exists id|done|lia|].
    intros k e o' Ho' Ha' Hn' Hk He Hdata. apply (Hput k e o' Ho'); [done|done|lia|lia|done].
Qed.

(** ** The commit *)

Lemma wpc_chmod t i md (Q : outcome unit -> os -> Prop) o :
  upS o -> upT t -> names (cur o) !! t = Some i -> (forall e o', same o o' -> Q (Fail e) o') ->
  (forall o', upS o' -> aside upT o o' -> names (cur o') = names (cur o) -> data (fileOf o' i) = data (fileOf o i) ->
    synced (fileOf o' i) = synced (fileOf o i) -> Q (Ret tt) o') ->
  wpc id Cn (chmod t md) Q o.
Proof using Hd.
  intros Ho Ht Hi Hf Hr. apply wpc_bind, wpc_sys. intros r o1 Hs [->|[e ->]]; cbn [thenc]; [|by apply Hf].
  assert (upS o1) as Ho1 by (by apply (same_steady _ _ o)). pose proof Hs as (Hc & _).
  unfold find. repeat wpc_step. rewrite Hc, Hi. repeat wpc_step. rewrite <- Hc in Hi.
  apply (wpc_setFile upT upP up_blind t); [done|done|done|]. intros o2 H2 Ha2 Hn2 Hf2. apply Hr; [done|..].
  - transitivity o1; [|done]. by apply same_aside.
  - by rewrite Hn2, Hc.
  - rewrite Hf2. cbn. unfold fileOf. by rewrite Hc.
  - rewrite Hf2. cbn. unfold fileOf. by rewrite Hc.
Qed.

(** What the commit's end leaves. *)
Definition upEnd (id : string) (r : outcome (path * list Z)) (u : Uploads) : Prop :=
  match r with
  | Ret (p, s) => p = d /\ ups u !! id = None /\ (0 < sz -> sum <> []) /\
      exists D, data <$> at_ (cur (up_os u)) d = Some D /\ s = hexSum D /\ asked D
  | Fail _ => at_ (cur (up_os u)) d = at_ (cur o0) d
  | _ => False
  end.

Lemma kept_end id e u : kept u -> upEnd id (Fail e) u.
Proof using Hd. intros [_ Ha]. by apply Ha. Qed.

Lemma wpc_discard id e u :
  kept u -> wpc up_os Cn (inOs (ignore (remove (partOf id)));; fail e) (upEnd id) u.
Proof using Hd.
  intros [H1 A1]. apply wpc_bind, wpc_inOs, wpc_ignore, (wpc_remove upT upP up_blind); [done|left; by exists id|].
  intros r o' Ho Ha [->|[e' ->]]; cbn [thenc]; apply wpc_fail, kept_end; (split; [done|]); by transitivity (up_os u).
Qed.

Lemma sha_empty : bool_decide (toLower sum = []) = bool_decide (sum = []).
Proof. by destruct sum. Qed.

Lemma wpc_commit id m u : open_ id m u -> wpc up_os Cn (commitUpload id) (upEnd id) u.
Proof using Hset Hd.
  intros [[Ho Ha] (s & i & Hs & Hf & Hde & Htm & Hsz & Hsh & Hi & Hw & Hh)].
  assert (upT (partOf id)) as Ht by (left; by exists id).
  apply wpc_bind, (wpc_getUpload _ s); [done|]. cbn [thenc]. rewrite Hf, Hde, Htm, Hsz, Hsh.
  apply wpc_bind, wpc_inOs, (wpc_fsync upT upP up_blind (partOf id)); [done|done|done|..].
  { intros e o1 Hs1. cbn [thenc]. apply kept_end. by apply (kept_same u). }
  intros o1 Ho1 Ha1 Hn1 Hy1 Hd1. cbn [thenc]. apply wpc_bind, wpc_inOs, wpc_sys. intros r o2 Hs2 Hr2.
  assert (forall us, kept (Build_Uploads o2 us)) as Hk2.
  { intros us. apply (kept_same (Build_Uploads o1 us)); [|done]. split; [done|]. by transitivity (up_os u). }
  destruct Hr2 as [->|[e ->]]; cbn [thenc]; [|by apply kept_end].
  apply wpc_bind, wpc_still; [done|]. cbn [thenc put modify fst snd up_os ups].
  set (u2 := Build_Uploads o2 _). assert (kept u2) as Hku2 by apply Hk2. pose proof Hku2 as [Ho2 Ha2].
  assert (fileOf o2 i = fileOf o1 i) as Hfi by (unfold fileOf; by destruct Hs2 as (-> & _)).
  assert (names (cur o2) !! partOf id = Some i) as Hi2 by (destruct Hs2 as (-> & _); cbn [up_os]; by rewrite Hn1).
  set (D := data (fileOf o2 i)). assert (D = data (fileOf (up_os u) i)) as HD by (unfold D; by rewrite Hfi).
  destruct ((0 <? sz) && negb (written s =? sz)); [by apply wpc_discard|]. rewrite sha_empty.
  destruct ((0 <? sz) && bool_decide (sum = [])) eqn:Hreq; [by apply wpc_discard|].
  assert (forall o3, same o2 o3 -> thenc up_os Cn (fun got =>
    if negb (bool_decide (sum = [])) && negb (bool_decide (got = toLower sum)) then
      inOs (ignore (remove (partOf id)));; failMsg "upload: sha256 mismatch (got %s, want %s)" (got ++ toLower sum)
    else inOs (chmod (partOf id) (fmode s));; inOs (rename (partOf id) d);; drop_ id;; mret (d, got))
    (upEnd id) (Ret (hexSum D)) (Build_Uploads o3 (ups u2))) as Hrest.
  { intros o3 Hs3. cbn [thenc]. assert (kept (Build_Uploads o3 (ups u2))) as Hk3 by (by apply (kept_same u2)).
    pose proof Hk3 as [Ho3 Ha3]. assert (fileOf o3 i = fileOf o2 i) as Hf3 by (unfold fileOf; by destruct Hs3 as (-> & _)).
    assert (names (cur o3) !! partOf id = Some i) as Hi3 by (by destruct Hs3 as (-> & _)).
    destruct (negb _ && negb _) eqn:Hsum; [by apply wpc_discard|].
    assert (asked D) as Hask.
    { unfold asked. apply andb_false_iff in Hsum as [H|H]; apply negb_false_iff, bool_decide_eq_true in H; auto. }
    apply wpc_bind, wpc_inOs, (wpc_chmod (partOf id) i); [done|done|done|..].
    { intros e o4 Hs4. cbn [thenc]. apply kept_end. by apply (kept_same (Build_Uploads o3 (ups u2))). }
    intros o4 Ho4 Ha4 Hn4 Hd4 Hy4. cbn [thenc]. cbn [up_os] in Ha4, Hn4, Hd4, Hy4. apply wpc_bind, wpc_inOs.
    assert (aside upT o0 o4) as Ha04 by (by transitivity o3).
    apply (wpc_replace upT upP (partOf id) d i o0 D); [done|done|done|done|..].
    - change (names (cur o4) !! partOf id = Some i). by rewrite Hn4.
    - change (synced (fileOf o4 i) = true). by rewrite Hy4, Hf3, Hfi.
    - change (data (fileOf o4 i) = D). by rewrite Hd4, Hf3.
    - intros mk Hm _. right. by exists D.
    - intros e o5 Ho5 Ha5. cbn [thenc]. apply kept_end. by split.
    - intros o5 Ho5 Hb5 (f5 & Hat & Hdf & _). cbn [thenc]. apply wpc_bind, wpc_still; [done|]. cbn [thenc].
      apply wpc_ret. cbn [upEnd]. split; [done|]. split; [apply lookup_delete_eq|]. split.
      + intros Hpos. apply andb_false_iff in Hreq as [H|H]; [apply Z.ltb_ge in H; lia|]. by apply bool_decide_eq_false in H.
      + exists D. split; [|done]. cbn [up_os drop_ modify fst snd]. by rewrite Hat, <- Hdf. }
  apply wpc_bind. destruct (Z.eqb_spec (hashed s) (written s)) as [Heq|Hne].
  - apply wpc_ret. destruct Hh as [Hh _]; [lia|]. rewrite Hh, <- HD. by apply (Hrest o2).
  - apply wpc_inOs, wpc_bind, wpc_ReadFile.
    + intros e o3 Hs3. cbn [thenc]. apply kept_end. by apply (kept_same u2).
    + intros j o3 Hs3 Hj. cbn [thenc]. change (names (cur o2) !! partOf id = Some j) in Hj. rewrite Hi2 in Hj. injection Hj as <-. apply wpc_ret. by apply Hrest.
Qed.

(** C6: Whatever the chunks, the failures and the cuts, the destination is the
    file it was or a whole one of the sum asked for; a commit that returns
    names the content there, and a size never goes without a sum. *)
Theorem transfer_whole m chunks :
  let r := transfer destName sz sum m chunks u0 in
  (forall x v, x ∈ during o0 (up_os r.2) -> cutTo x v ->
    v !! d = data <$> at_ (cur o0) d \/ exists D, v !! d = Some D /\ asked D) /\
  match r.1 with
  | Ret (p, s) => p = d /\ (0 < sz -> sum <> []) /\
      exists D, data <$> at_ (cur (up_os r.2)) d = Some D /\ s = hexSum D /\ asked D
  | Fail _ => at_ (cur (up_os r.2)) d = at_ (cur o0) d
  | _ => False
  end.
Proof using Hset Hd.
  assert (wpc up_os Cn (transfer destName sz sum m chunks) (fun r u => exists id, upEnd id r u) u0) as [(l & Hl & HC) [id HQ]].
  { unfold transfer. apply wpc_bind. eapply wpc_mono; [apply (wpc_newUpload m)|]. intros [id|e| |] u; try done; cbn [thenc].
    - intros Hop. apply wpc_bind. eapply wpc_mono; [apply (wpc_each _ (open_ id m))|].
      + intros c u1 _ H1. by apply wpc_writeUpload.
      + done.
      + intros r u1 [-> H1]. cbn [thenc]. eapply wpc_mono; [by apply (wpc_commit id m)|]. intros r2 u2 H2. by exists id.
    - intros Hk. exists ""%string. by apply kept_end. }
  intros r. fold r in Hl, HQ. split.
  - intros x v Hx Hv. assert (Cn x) as Hcx.
    { unfold during in Hx. rewrite Hl, drop_app_length in Hx. apply elem_of_cons in Hx as [->|Hx].
      - intros ns Hns. rewrite (se_past _ Hset) in Hns. apply list_elem_of_singleton in Hns as ->. by left.
      - by apply (proj1 (Forall_forall _ _) HC). }
    apply (sure_cut _ _ _ Hcx) in Hv as (mk & HP & Hag). specialize (Hag d). destruct HP as [HP|(D & HP & Hask)].
    + left. rewrite HP, settled_mark in Hag by done. destruct (at_ (cur o0) d); exact Hag.
    + right. exists D. by rewrite HP in Hag.
  - destruct r.1 as [[p s]|e| |]; try done. destruct HQ as (H1 & _ & H2 & H3). auto.
Qed.
End Transfer.
