(* ===== verification/Rollback.v ===== *)
(** * Going back from an app that fails

    The supervisor's rounds on an app that never reports healthy, whether it
    exits or hangs: after MaxFails of them the confirmed slot is the active
    one again. *)
From S2P Require Import Prelude Circular Machine Sha256 Files Crash Slots SlotsRun AgentState Agent Takeover Supervise Update.

(** ** Runs that return *)

Definition returns {S B} (m : SE S B) (Q : B -> S -> Prop) (s : S) : Prop := exists x s', m s = (Ret x, s') /\ Q x s'.

Lemma returns_bind {S B D} (m : SE S B) (f : B -> SE S D) Q s :
  returns m (fun x s' => returns (f x) Q s') s -> returns (m ≫= f) Q s.
Proof.
  intros (x & s1 & H1 & y & s2 & H2 & HQ). exists y, s2. split; [|done]. by rewrite (bind_Ret _ _ _ _ _ H1).
Qed.
Lemma returns_ret {S B} (x : B) (Q : B -> S -> Prop) s : Q x s -> returns (mret x) Q s.
Proof. intros HQ. by exists x, s. Qed.
Lemma returns_mono {S B} (m : SE S B) (Q Q' : B -> S -> Prop) s :
  returns m Q s -> (forall x s', Q x s' -> Q' x s') -> returns m Q' s.
Proof. intros (x & s' & H & HQ) HQ'. exists x, s'. auto. Qed.

Lemma returns_eq {S B} (m m' : SE S B) (Q : B -> S -> Prop) s s' : m s = m' s' -> returns m' Q s' -> returns m Q s.
Proof. unfold returns. by intros ->. Qed.

(** ** File calls that do not fail *)

Section Quiet.
Context {E : OsEnv}.
Context (quiet : forall h c, os_Err h c = None).

Lemma writePointer_ok q v o : (writePointer q v o).1 = Ret tt.
Proof using quiet.
  assert (forall c o, sys c o = (Ret tt, enter (EvFile c None) o)) as Hsys by (intros; by apply sys_ok).
  assert (forall t m o, exists i o', create t m o = (Ret i, o') /\ is_Some (names (cur o') !! t)) as Hcreate.
  { intros t m o1. unfold create. rewrite (bind_Ret _ _ _ _ _ (Hsys _ _)). unfold mbind, SE_bind. simpl.
    destruct (names (cur o1) !! t) as [i|] eqn:Hi; simpl; do 2 eexists; (split; [reflexivity|]); simpl; [by rewrite Hi|].
    by rewrite lookup_insert_eq. }
  assert (forall i d o, exists k o', pwrite i 0 d o = (Ret (k, None), o') /\ names (cur o') = names (cur o)) as Hwrite.
  { intros i d o1. unfold pwrite. simpl. destruct d as [|x d]; [by do 2 eexists|].
    unfold attempt, mbind, SE_bind. rewrite Hsys. simpl. by do 2 eexists. }
  unfold writePointer, WriteFile. destruct (Hcreate (plus q ".tmp") perm600 o) as (i & o1 & H1 & Hi).
  destruct (Hwrite i (text v ++ [10]) o1) as (k & o2 & H2 & Hn).
  set (t := plus q ".tmp") in *. set (d := text v ++ [10]) in *.
  rewrite (bind_Ret _ _ o tt (enter (EvFile (CClose i) None) o2)).
  - unfold rename. rewrite (bind_Ret _ _ _ _ _ (Hsys _ _)). unfold find, mbind, SE_bind. simpl. rewrite Hn.
    by destruct Hi as [j ->].
  - rewrite (bind_Ret _ _ _ _ _ H1), (bind_Ret _ _ _ _ _ H2).
    rewrite (bind_Ret _ _ o2 None (enter (EvFile (CClose i) None) o2)); [done|].
    unfold errOf, attempt, close, mbind, SE_bind. by rewrite Hsys.
Qed.
End Quiet.

(** ** The rounds *)

Section Rollback.
Context {E : OsEnv} {C : Config}.
(** No file call fails. *)
Context (quiet : forall h c, os_Err h c = None).
Abbreviation pidFile := (pidPath appPidFile).
Abbreviation act := (Join SlotRoot "active").
Definition rbT (q : path) : Prop := q = pidFile \/ q = plus act ".tmp".
Definition rbP (mk : path -> option (option (list Z))) : Prop := True.

(** The supervisor in charge: [s] is active, [c] confirmed, both have a binary. *)
Record charged (s c : string) (n : Z) (a : agent) : Prop := {
  ch_steady : steady rbT rbP (sysOf a);
  ch_active : activeIn (viewOf (cur (sysOf a))) = s;
  ch_confirmed : confirmedIn (viewOf (cur (sysOf a))) = c;
  ch_s : hasIn (viewOf (cur (sysOf a))) s = true;
  ch_c : hasIn (viewOf (cur (sysOf a))) c = true;
  ch_taken : TakenOver (sf_s (st a)) = true;
  ch_on : paused a = false;
  ch_fails : Fails (app a) = n;
}.

(** A step that leaves the slots, the state and the count. *)
Definition calm (a a' : agent) : Prop :=
  steady rbT rbP (sysOf a) -> steady rbT rbP (sysOf a') /\ aside rbT (sysOf a) (sysOf a') /\
  st a' = st a /\ paused a' = paused a /\ Fails (app a') = Fails (app a).

#[local] Instance calm_pre : PreOrder calm.
Proof.
  split.
  - intros a H. by do 4 (split; [done|]).
  - intros a1 a2 a3 H12 H23 H1. destruct (H12 H1) as (H2 & A2 & S2 & P2 & F2).
    destruct (H23 H2) as (H3 & A3 & S3 & P3 & F3). split; [done|]. split; [by transitivity (sysOf a2)|].
    repeat split; congruence.
Qed.

Lemma store_aside q : q ∈ [act; Join SlotRoot "confirmed"; BinPath SlotRoot SlotA; BinPath SlotRoot SlotB] -> ~ rbT q.
Proof.
  unfold rbT. intros Hq. rewrite !elem_of_cons in Hq.
  assert (pidFile = (HealthDir.1, HealthDir.2 ++ [appPidFile])) as -> by (apply Join_plain; plainly).
  assert (forall (b b' : bool) (l l' : list string) e, (b, l ++ [e]) = (b', l' ++ [appPidFile]) -> e = appPidFile) as Hl.
  { intros b b' l l' e H. apply (f_equal snd) in H. by apply app_inj_tail in H as [_ H]. }
  assert (forall (b b' : bool) (l l' : list string) s e, (b, l ++ [s; e]) = (b', l' ++ [appPidFile]) -> e = appPidFile) as Hl2.
  { intros b b' l l' s e. change [s; e] with ([s] ++ [e]). rewrite (assoc (++)). apply Hl. }
  destruct Hq as [->|[->|[->|[->|Hq]]]]; [| | | |by apply elem_of_nil in Hq]; (intros [H|H]; revert H; [|by store_apart]);
    store_path; intros H; (apply Hl2 in H || apply Hl in H); discriminate H.
Qed.

Lemma aside_view o o' q :
  aside rbT o o' -> q ∈ [act; Join SlotRoot "confirmed"; BinPath SlotRoot SlotA; BinPath SlotRoot SlotB] ->
  viewOf (cur o') !! q = viewOf (cur o) !! q.
Proof. intros Ha Hq. rewrite !viewOf_at. f_equal. apply Ha. by apply store_aside. Qed.

Lemma confirmedIn_slot v : isSlot (confirmedIn v) = true.
Proof. unfold confirmedIn, pointerIn. destruct (v !! _); [apply pointerText_slot|]; apply activeIn_slot. Qed.

Lemma bin_store slot : isSlot slot = true ->
  BinPath SlotRoot slot ∈ [act; Join SlotRoot "confirmed"; BinPath SlotRoot SlotA; BinPath SlotRoot SlotB].
Proof. intros [H|H]%orb_true_iff; apply String.eqb_eq in H as ->; set_solver. Qed.

Lemma calm_charged s c n a a' : charged s c n a -> calm a a' -> charged s c n a'.
Proof.
  intros [H1 H2 H3 H4 H5 H6 H7 H8] Hc. destruct (Hc H1) as (H1' & Ha & Hs & Hp & Hf).
  pose proof (fun q => aside_view (sysOf a) (sysOf a') q Ha) as Hv.
  assert (isSlot s = true) by (rewrite <- H2; apply activeIn_slot).
  assert (isSlot c = true) by (rewrite <- H3; apply confirmedIn_slot).
  assert (activeIn (viewOf (cur (sysOf a'))) = activeIn (viewOf (cur (sysOf a)))) as Hact.
  { unfold activeIn, pointerIn. rewrite Hv; [done|]. set_solver. }
  split; rewrite ?Hs, ?Hp, ?Hf; try done.
  - by rewrite Hact.
  - unfold confirmedIn, pointerIn. rewrite Hact, Hv by set_solver. exact H3.
  - unfold hasIn. rewrite Hv by (by apply bin_store). exact H4.
  - unfold hasIn. rewrite Hv by (by apply bin_store). exact H5.
Qed.

(** ** The parts of a round *)

(** A change of the fields that say nothing of the slots. *)
Lemma calm_field a a' : sysOf a' = sysOf a -> st a' = st a -> paused a' = paused a -> Fails (app a') = Fails (app a) -> calm a a'.
Proof. intros Hs H1 H2 H3 Hst. rewrite Hs. by do 4 (split; [done|]). Qed.
Lemma calm_alike a a' : alike a a' -> calm a a'.
Proof.
  intros (o' & Hs & ->) Hst. split; [by apply (same_steady _ _ (sysOf a))|]. split; [by apply same_aside|]. done.
Qed.
Lemma calm_note e a : calm a (withSys (enter e (sysOf a)) a).
Proof. apply calm_alike. by exists (enter e (sysOf a)). Qed.

(** A pid file's write or removal that may fail. *)
Lemma pid_returns (m : F unit) a :
  steady rbT rbP (sysOf a) ->
  (forall Q, (forall o', steady rbT rbP o' -> aside rbT (sysOf a) o' -> Q (Ret tt) o') ->
    wpc id (sure rbP) (ignore m) Q (sysOf a)) ->
  returns (zoom (ignore m)) (fun _ a' => calm a a') a.
Proof.
  intros Hst Hm. destruct (Hm (fun r o' => r = Ret tt /\ steady rbT rbP o' /\ aside rbT (sysOf a) o')) as [_ (Hr & H1 & H2)]; [done|].
  exists tt, (withSys (ignore m (sysOf a)).2 a). split.
  - unfold zoom. destruct (ignore m (sysOf a)) as [r o']. simpl in *. by rewrite Hr.
  - intros _. by do 4 (split; [done|]).
Qed.

Lemma rb_blind (mk mk' : path -> option (option (list Z))) : (forall q, ~ rbT q -> mk q = mk' q) -> rbP mk -> rbP mk'.
Proof. done. Qed.

Lemma pid_write d m a : steady rbT rbP (sysOf a) -> returns (zoom (ignore (WriteFile pidFile d m))) (fun _ a' => calm a a') a.
Proof.
  intros Hst. apply pid_returns; [done|]. intros Q HQ. apply wpc_ignore.
  apply (wpc_WriteFile rbT rbP rb_blind); [by left|done|..]; intros; by apply HQ.
Qed.
Lemma pid_remove a : steady rbT rbP (sysOf a) -> returns (zoom (ignore (remove pidFile))) (fun _ a' => calm a a') a.
Proof.
  intros Hst. apply pid_returns; [done|]. intros Q HQ. apply wpc_ignore.
  apply (wpc_remove rbT rbP rb_blind); [done|by left|]. intros r o' H1 H2 [->|[e ->]]; by apply HQ.
Qed.

(** Back to the confirmed slot. *)
Lemma pointerText_def b def def' : pointerText b def <> def -> pointerText b def' = pointerText b def.
Proof. unfold pointerText. by repeat case_decide. Qed.

Lemma confirmed_kept v v' c :
  confirmedIn v = c -> activeIn v <> c -> v' !! Join SlotRoot "confirmed" = v !! Join SlotRoot "confirmed" -> confirmedIn v' = c.
Proof.
  unfold confirmedIn, pointerIn. intros Hc Hne ->. destruct (v !! _) as [b|]; [|done].
  rewrite <- Hc. apply pointerText_def. by rewrite Hc.
Qed.

Lemma setActive_returns s c n a :
  charged s c n a -> s <> c ->
  returns (ignore (zoom (SetActive SlotRoot c))) (fun _ a' => charged c c n a') a.
Proof using quiet.
  intros Hch Hne. pose proof Hch as [H1 H2 H3 H4 H5 H6 H7 H8].
  assert (isSlot c = true) as Hcs by (rewrite <- H3; apply confirmedIn_slot).
  assert (SetActive SlotRoot c (sysOf a) = writePointer act c (sysOf a)) as Hset.
  { unfold SetActive. rewrite Hcs. done. }
  assert (~ rbT act) as Ha by (apply store_aside; set_solver).
  destruct (wpc_writePointer rbT rbP rb_blind act c (fun r o' => r = Ret tt ->
    steady rbT rbP o' /\ but rbT act (sysOf a) o' /\ data <$> at_ (cur o') act = Some (text c ++ [10])) (sysOf a))
    as [_ HQ]; [by right|done|done|done|done|by intros|].
  specialize (HQ (writePointer_ok quiet act c (sysOf a))). destruct HQ as (Hst & Hb & Hat).
  set (o' := (writePointer act c (sysOf a)).2) in *. exists tt, (withSys o' a). split.
  { unfold ignore, attempt, zoom, mbind, SE_bind. rewrite Hset.
    pose proof (writePointer_ok quiet act c (sysOf a)) as Hr. fold o'.
    destruct (writePointer act c (sysOf a)) as [r o2]. simpl in Hr. by subst r. }
  assert (forall q, q ∈ [Join SlotRoot "confirmed"; BinPath SlotRoot SlotA; BinPath SlotRoot SlotB] ->
    viewOf (cur o') !! q = viewOf (cur (sysOf a)) !! q) as Hv.
  { intros q Hq. rewrite !viewOf_at. f_equal. apply Hb; [apply store_aside; rewrite elem_of_cons; by right|].
    rewrite !elem_of_cons in Hq. destruct Hq as [->|[->|[->|Hq]]]; [..|by apply elem_of_nil in Hq]; store_apart. }
  assert (activeIn (viewOf (cur o')) = c) as Hact.
  { unfold activeIn, pointerIn. rewrite viewOf_at, Hat. by apply pointerText_own. }
  assert (hasIn (viewOf (cur o')) c = true) as Hc.
  { unfold hasIn. rewrite Hv; [exact H5|]. apply orb_true_iff in Hcs as [H|H]; apply String.eqb_eq in H as ->; set_solver. }
  split; try done. apply (confirmed_kept (viewOf (cur (sysOf a)))); [done|by rewrite H2|]. apply Hv. set_solver.
Qed.

Lemma rollback_returns s c n a :
  charged s c n a -> s <> c ->
  returns (rollbackIfNeeded s) (fun _ a' => if n <? MaxFails then charged s c n a' else charged c c 0 a') a.
Proof using quiet.
  intros Hch Hne. pose proof Hch as [H1 H2 H3 H4 H5 H6 H7 H8]. unfold rollbackIfNeeded.
  apply returns_bind. exists n, a. split; [unfold gets; by rewrite H8|]. destruct (n <? MaxFails); [by apply returns_ret|].
  destruct (zoom_ok (Confirmed SlotRoot) c a) as (a1 & Ha1 & R1).
  { rewrite <- H3. apply Confirmed_ok; [done|]. apply viewOf_shows. }
  apply returns_bind. exists c, a1. split; [exact R1|].
  assert (charged s c n a1) as Hch1 by (apply (calm_charged _ _ _ a); [done|by apply calm_alike]).
  rewrite (proj2 (String.eqb_neq s c)) by done.
  destruct (zoom_ok (HasBinary SlotRoot c) true a1) as (a2 & Ha2 & R2).
  { rewrite <- (ch_c _ _ _ _ Hch1). apply HasBinary_ok; [done|]. apply viewOf_shows. }
  apply returns_bind. exists true, a2. split; [exact R2|].
  assert (charged s c n a2) as Hch2 by (apply (calm_charged _ _ _ a1); [done|by apply calm_alike]).
  apply returns_bind. eapply returns_mono; [by apply (setActive_returns s)|]. intros x a3 Hch3. cbv beta in Hch3.
  apply returns_bind. eexists _, _. split; [reflexivity|]. set (a4 := withSys _ a3).
  assert (charged c c n a4) as [G1 G2 G3 G4 G5 G6 G7 G8] by (apply (calm_charged _ _ _ a3); [done|apply calm_note]).
  eexists _, _. split; [reflexivity|]. by split.
Qed.

(** The history only grows. *)
Definition grows (o o' : os) : Prop := exists l, oslog o' = oslog o ++ l.
#[local] Instance grows_pre : PreOrder grows.
Proof.
  split; [intros o; exists []; by rewrite app_nil_r|]. intros o1 o2 o3 [l1 H1] [l2 H2].
  exists (l1 ++ l2). by rewrite H2, H1, (assoc (++)).
Qed.
Lemma WriteFile_grows q d m : steps grows (WriteFile q d m).
Proof.
  assert (forall e, steps grows (note e)) as Hn by (intros e; apply steps_modify; intros o; by exists [e]).
  assert (forall c, steps grows (sys c)) as Hs by (intros c; unfold sys; steps_tac).
  assert (forall (f : os -> os), (forall o, oslog (f o) = oslog o) -> steps grows (modify f)) as Hm.
  { intros f Hf. apply steps_modify. intros o. exists []. by rewrite Hf, app_nil_r. }
  unfold WriteFile, create, pwrite, close, setFile, setNames, Now. steps_tac; by apply Hm.
Qed.

(** ** The rounds

    The agent runs on; nobody asks for anything; no other process holds the bus
    and no app was left; and the app never reports. *)
Context (on : forall h, os_Stopped h = false).
Context (alone : forall h, os_Select h = WTick \/ exists e, os_Select h = WExit e).
Context (free : forall h, os_Holders h = []) (gone : forall h pid, os_Alive h pid = false).
Context (silent : forall h, os_Token h = None).
(** The clock: [tick] between two ticks of the supervisor's. *)
Context (tick : Z) (Htick : 0 < tick).
Context (clock : forall h l, os_Now h <= os_Now (h ++ l)).
Context (ticks : forall h, os_Select h = WTick -> os_Now h + tick <= os_Now (h ++ [EvSelect WTick])).

Lemma idle_returns a : returns idleWait (fun _ a' => calm a a') a.
Proof using alone.
  unfold idleWait. apply returns_bind. exists (os_Select (oslog (sysOf a))). eexists. split; [reflexivity|].
  destruct (alone (oslog (sysOf a))) as [->|[e ->]]; apply returns_ret, calm_note.
Qed.

Lemma candidates_none a : exists a', alike a a' /\ zoom factoryCandidates a = (Ret [], a').
Proof using free.
  apply zoom_ok. exists (enter (EvHolders []) (sysOf a)). split; [done|].
  unfold factoryCandidates, mbind, SE_bind, gets, note, modify. by rewrite free.
Qed.

Lemma orphan_none a : exists a', alike a a' /\ zoom orphanAppPid a = (Ret (-1), a').
Proof using quiet gone.
  apply zoom_ok. destruct (ReadFile_ok pidFile (sysOf a)) as (o1 & H1 & R1); [by apply quiet_readable|].
  unfold orphanAppPid, attempt, mbind, SE_bind. rewrite R1. destruct (names (cur (sysOf a)) !! pidFile) as [i|]; [|by exists o1].
  destruct (Atoi _) as [pid|]; [|by exists o1]. destruct (pid <=? 1); [by exists o1|].
  unfold Alive, gets, note, modify, mbind, SE_bind. rewrite gone. by exists (enter (EvAlive pid false) o1).
Qed.

Lemma terminate_returns pid a : returns (terminate pid) (fun _ a' => calm a a') a.
Proof.
  unfold terminate. apply returns_bind.
  assert (forall force a, exists a', calm a a' /\ zoom (ignore (signal (- pid) force)) a = (Ret tt, a')) as Hsig.
  { intros force a0. exists (withSys (enter (EvKill (- pid) force (os_Kill (oslog (sysOf a0)) (- pid))) (sysOf a0)) a0).
    split; [apply calm_note|]. unfold zoom, ignore, attempt, signal, mbind, SE_bind. simpl. by destruct (os_Kill _ _). }
  destruct (Hsig false a) as (a1 & H1 & R1). exists tt, a1. split; [done|]. apply returns_bind.
  eexists _, _. split; [reflexivity|]. set (a2 := withSys _ a1). assert (calm a a2) as H2 by (transitivity a1; [done|apply calm_note]).
  destruct (isExit _); [by apply returns_ret|]. destruct (Hsig true a2) as (a3 & H3 & R3).
  apply returns_bind. exists tt, a3. split; [done|]. apply returns_bind. eexists _, _. split; [reflexivity|].
  apply returns_ret. transitivity a3; [by transitivity a2|apply calm_note].
Qed.

(** A tick on an app that has not reported: only time and the app's shown
    health move. *)
Lemma watch_tick slot pid start fuel h a :
  healthyOnce h = false -> os_Select (oslog (sysOf a)) = WTick ->
  exists a', calm a a' /\ os_Now (oslog (sysOf a)) + tick <= os_Now (oslog (sysOf a')) /\
  watch (S fuel) slot pid start h a =
    (if AppGrace <? os_Now (oslog (sysOf a')) - started h
     then terminate pid;; mret (Ended ("unhealthy: " +:+ "no first health report within grace") h)
     else watch fuel slot pid start h) a'.
Proof using silent clock ticks.
  intros Hh Hw. set (o1 := enter (EvSelect WTick) (sysOf a)). set (o2 := enter (EvToken None) o1).
  set (a2 := withSys o2 a). set (hs := {| HealthyOnce := false; SinceChange := 0; Token := lastContent h |}).
  set (a' := set_app (AppState (Running (app a2)) (Adopted (app a2)) (app_PID (app a2)) (Slot (app a2)) (Fails (app a2))
    (LastExit (app a2)) (Some hs)) a2).
  exists a'. split; [|split].
  - transitivity a2; [|by apply calm_field]. transitivity (withSys o1 a); [apply calm_note|].
    exact (calm_note (EvToken None) (withSys o1 a)).
  - transitivity (os_Now (oslog o1)); [by apply ticks|]. apply clock.
  - cbn [watch]. rewrite (bind_Ret _ _ a WTick (withSys o1 a)).
    2: { unfold select, zoom, mbind, SE_bind, gets, note, modify. by rewrite Hw. }
    rewrite (bind_Ret _ _ _ h a2).
    2: { unfold zoom, poll, mbind, SE_bind, gets, note, modify. by rewrite silent. }
    rewrite (bind_Ret _ _ _ hs a2).
    2: { unfold zoom, healthStatusOf, Now, mbind, SE_bind, gets. cbn. by rewrite Hh. }
    rewrite (bind_Ret _ _ a2 tt a') by done.
    rewrite (bind_Ret _ _ a' (if AppGrace <? os_Now (oslog o2) - started h
      then (false, "no first health report within grace"%string) else (true, "waiting first report"%string)) a').
    2: { unfold zoom, verdict, Now, mbind, SE_bind, gets. cbn. rewrite Hh. by destruct (AppGrace <? _). }
    change (oslog (sysOf a')) with (oslog o2). by destruct (AppGrace <? _).
Qed.

(** The loop on an app that never reports ends as its exit or its grace does. *)
Lemma watch_returns slot pid start fuel : forall h a,
  healthyOnce h = false -> (0 < fuel)%nat ->
  AppGrace < os_Now (oslog (sysOf a)) - started h + tick * Z.of_nat fuel ->
  returns (watch fuel slot pid start h) (fun e a' => exists reason h', e = Ended reason h' /\ healthyOnce h' = false /\
    String.prefix "ctl:" reason = false /\ calm a a') a.
Proof using Htick alone silent clock ticks.
  induction fuel as [|fuel IH]; intros h a Hh Hf Hg; [lia|].
  destruct (alone (oslog (sysOf a))) as [Hw|[e Hw]].
  - destruct (watch_tick slot pid start fuel h a Hh Hw) as (a' & Hc & Ht & Hr).
    apply (returns_eq _ _ _ _ _ Hr). clear Hr.
    destruct (Z.ltb_spec AppGrace (os_Now (oslog (sysOf a')) - started h)) as [Hlt|Hge].
    + apply returns_bind. eapply returns_mono; [apply terminate_returns|]. intros x a2 H2. apply returns_ret.
      eexists _, h. do 3 (split; [done|]). by transitivity a'.
    + eapply returns_mono; [apply IH; [done|lia|lia]|]. intros x a2 (r & h' & ? & ? & ? & ?).
      exists r, h'. do 3 (split; [done|]). by transitivity a'.
  - cbn [watch]. apply returns_bind. eexists (WExit e), _. split.
    { unfold select, zoom, mbind, SE_bind, gets, note, modify. by rewrite Hw. }
    apply returns_ret. exists "exited"%string, h. do 3 (split; [done|]). apply calm_note.
Qed.


Definition after (s c : string) (n : Z) (a' : agent) : Prop :=
  if n <? MaxFails then charged s c n a' else charged c c 0 a'.

Lemma after_calm s c n a a' : after s c n a -> calm a a' -> after s c n a'.
Proof. unfold after. destruct (n <? MaxFails); apply calm_charged. Qed.

Lemma bump_charged s c n why a : charged s c n a -> exists a', bumpFail why a = (Ret tt, a') /\ charged s c (int32 (n + 1)) a'.
Proof. intros [H1 H2 H3 H4 H5 H6 H7 H8]. eexists. split; [reflexivity|]. split; try done. simpl. by rewrite H8. Qed.

Lemma classify_returns s c n reason h start a :
  charged s c n a -> s <> c -> healthyOnce h = false -> String.prefix "ctl:" reason = false ->
  returns (classify s reason h start) (fun _ a' => after s c (int32 (n + 1)) a') a.
Proof using quiet alone.
  intros Hch Hne Hh Hr. unfold classify. apply returns_bind. eexists _, a. split; [by destruct a as [[] ? ? ? ? ?]|].
  apply returns_bind. eapply returns_mono; [apply pid_remove, Hch|]. intros x a1 H1. cbv beta in H1.
  apply calm_charged with (a' := a1) in Hch; [|done].
  apply returns_bind. eexists _, a1. split; [by destruct a1 as [[] ? ? ? ? ?]|]. rewrite Hr, Hh. cbn [HealthyOnce andb].
  destruct (bump_charged s c n reason a1 Hch) as (a2 & R2 & Hch2). apply returns_bind. exists tt, a2. split; [done|].
  apply returns_bind. eapply returns_mono; [by apply (rollback_returns s c)|]. intros y a3 H3. cbv beta in H3.
  eapply returns_mono; [apply idle_returns|]. intros z a4 H4. by apply (after_calm _ _ _ a3).
Qed.

(** A round runs the active slot. *)
Lemma round_runs s c n fuel (R : agent -> Prop) a :
  charged s c n a -> (forall a', charged s c n a' -> returns (runAppOnce fuel s) (fun _ => R) a') ->
  returns (superviseRound fuel) (fun b a' => b = true /\ R a') a.
Proof using quiet on free gone.
  intros Hch Hrun. pose proof Hch as [H1 H2 H3 H4 H5 H6 H7 H8]. unfold superviseRound.
  apply returns_bind. exists false, a. split.
  { unfold zoom, gets. rewrite on. by destruct a as [[] ? ? ? ? ?]. }
  apply returns_bind. exists (sf_s (st a)), a. split; [by destruct a as [[] ? ? ? ? ?]|].
  apply returns_bind. exists false, a. split; [unfold gets; by rewrite H7|]. rewrite H6. cbn [negb orb].
  destruct (candidates_none a) as (a1 & Ha1 & R1). apply returns_bind. exists [], a1. split; [done|].
  destruct (orphan_none a1) as (a2 & Ha2 & R2). apply returns_bind. exists (-1), a2. split; [done|]. cbn [Z.ltb Z.compare].
  assert (charged s c n a2) as Hch2.
  { apply (calm_charged _ _ _ a); [done|]. transitivity a1; by apply calm_alike. }
  destruct (pickSlot_ok quiet a2 (viewOf (cur (sysOf a2)))) as (a3 & Ha3 & R3); [apply viewOf_shows|].
  assert (pickIn (viewOf (cur (sysOf a2))) = s) as Hpick.
  { unfold pickIn. by rewrite (ch_active _ _ _ _ Hch2), (ch_s _ _ _ _ Hch2). }
  apply returns_bind. exists s, a3. split; [by rewrite <- Hpick|].
  assert (charged s c n a3) as Hch3 by (apply (calm_charged _ _ _ a2); [done|by apply calm_alike]).
  assert (String.eqb s "" = false) as ->.
  { assert (isSlot s = true) as [Hs|Hs]%orb_true_iff by (rewrite <- H2; apply activeIn_slot);
      apply String.eqb_eq in Hs as ->; done. }
  apply returns_bind. eapply returns_mono; [by apply Hrun|]. intros x a4 H9. by apply returns_ret.
Qed.


(** A binary the system cannot start is never left: its failures are counted
    and nothing more. *)
Lemma start_failures_stay s c fuel k : forall n a,
  (forall h b, exists e, os_Start h b = inr e) ->
  charged s c n a -> 0 <= n -> n + Z.of_nat k < 2 ^ 31 ->
  returns (superviseLoop k fuel) (fun _ a' => charged s c (n + Z.of_nat k) a') a.
Proof using quiet on free gone alone.
  induction k as [|k IH]; intros n a Hfail Hch Hn Hk.
  { apply returns_ret. by rewrite Z.add_0_r. }
  cbn [superviseLoop]. apply returns_bind. eapply returns_mono.
  - apply (round_runs s c n fuel (charged s c (n + 1))); [done|]. intros a1 H1. unfold runAppOnce.
    set (a2 := withSys (enter EvTokenRemove (sysOf a1)) a1).
    apply returns_bind. eexists _, a2. split; [reflexivity|]. apply returns_bind. eexists _, _. split; [reflexivity|].
    set (a3 := set_confirmed "" "" a2). apply returns_bind. eexists _, a3. split; [reflexivity|].
    apply returns_bind. destruct (Hfail (oslog (sysOf a3)) (BinPath SlotRoot s)) as [e He].
    set (a4 := withSys (enter (EvStart (BinPath SlotRoot s) (inr e)) (sysOf a3)) a3). exists (inr e), a4. split.
    { unfold attempt, zoom, startApp, mbind, SE_bind, gets, note, modify. by rewrite He. }
    assert (charged s c n a4) as H4.
    { apply (calm_charged _ _ _ a1); [done|]. transitivity a3; [|apply calm_note].
      transitivity a2; [apply calm_note|by apply calm_field]. }
    destruct (bump_charged s c n "start: " a4 H4) as (a5 & R5 & H5). rewrite int32_small in H5 by lia.
    apply returns_bind. exists tt, a5. split; [done|]. eapply returns_mono; [apply idle_returns|].
    intros x a6 H6. by apply (calm_charged _ _ _ a5).
  - intros b a1 [-> H1]. replace (n + Z.of_nat (S k)) with (n + 1 + Z.of_nat k) by lia. apply IH; done || lia.
Qed.

(** The app can be started. *)
Context (starts : forall h b, exists pid, os_Start h b = inl pid).

Lemma run_returns s c n fuel a :
  charged s c n a -> s <> c -> 0 <= AppGrace -> AppGrace < tick * Z.of_nat fuel ->
  returns (runAppOnce fuel s) (fun _ a' => after s c (int32 (n + 1)) a') a.
Proof using All.
  intros Hch Hne Hg Hf. unfold runAppOnce. set (t0 := os_Now (oslog (sysOf a) ++ [EvTokenRemove])).
  set (h := HealthWatcher (HealthSig 0 0 false) 0 false t0 []). set (a1 := withSys (enter EvTokenRemove (sysOf a)) a).
  apply returns_bind. exists h, a1. split; [reflexivity|]. apply returns_bind. eexists _, _. split; [reflexivity|].
  set (a2 := set_confirmed "" "" a1). assert (charged s c n a2) as H2.
  { apply (calm_charged _ _ _ a); [done|]. transitivity a1; [apply calm_note|by apply calm_field]. }
  apply returns_bind. exists t0, a2. split; [done|]. apply returns_bind.
  destruct (starts (oslog (sysOf a2)) (BinPath SlotRoot s)) as [pid Hp].
  set (a3 := withSys (enter (EvStart (BinPath SlotRoot s) (inl pid)) (sysOf a2)) a2).
  exists (inl pid), a3. split.
  { unfold attempt, zoom, startApp, mbind, SE_bind, gets, note, modify. by rewrite Hp. }
  assert (charged s c n a3) as H3 by (apply (calm_charged _ _ _ a2); [done|apply calm_note]).
  apply returns_bind. destruct (pid_write (text (pretty.pretty pid) ++ [10]) perm600 a3) as (x & a4 & R4 & H4); [apply H3|].
  exists x, a4. split; [exact R4|]. assert (charged s c n a4) as Hch4 by (by apply (calm_charged _ _ _ a3)).
  apply returns_bind. eexists _, _. split; [reflexivity|]. apply returns_bind. eexists _, _. split; [reflexivity|].
  set (a6 := withSys _ _). assert (charged s c n a6) as H6.
  { apply (calm_charged _ _ _ a4); [done|]. eapply transitivity; [|apply calm_note]. by apply calm_field. }
  apply returns_bind. assert (t0 <= os_Now (oslog (sysOf a6))) as Ht0.
  { assert (exists l, oslog (sysOf a4) = oslog (sysOf a3) ++ l) as [l Hl].
    { pose proof (WriteFile_grows pidFile (text (pretty.pretty pid) ++ [10]) perm600) as Hgr.
      apply (steps_ignore grows) in Hgr. specialize (Hgr (sysOf a3)). unfold zoom in R4. by injection R4 as _ <-. }
    transitivity (os_Now (oslog (sysOf a4))); [|apply (clock _ [_])]. rewrite Hl.
    change (oslog (sysOf a3)) with ((oslog (sysOf a) ++ [EvTokenRemove]) ++ [EvStart (BinPath SlotRoot s) (inl pid)]).
    rewrite <- (assoc (++)). apply clock. }
  eapply returns_mono; [apply watch_returns; [done|lia|cbn [started h]; lia]|].
  intros e a7 (reason & h' & -> & Hh' & Hp' & H7). apply classify_returns; [|done..].
  by apply (calm_charged _ _ _ a6).
Qed.

(** One round: a failure more, or the way back. *)
Lemma round_returns s c n fuel a :
  charged s c n a -> s <> c -> 0 <= AppGrace -> AppGrace < tick * Z.of_nat fuel ->
  returns (superviseRound fuel) (fun b a' => b = true /\ after s c (int32 (n + 1)) a') a.
Proof using All.
  intros Hch Hne Hg Hf. apply (round_runs s c n); [done|]. intros a' Hch'. by apply (run_returns s c).
Qed.

Lemma loop_returns s c fuel k : forall n a,
  charged s c n a -> s <> c -> 0 <= AppGrace -> AppGrace < tick * Z.of_nat fuel -> MaxFails < 2 ^ 31 ->
  0 <= n < MaxFails -> n + Z.of_nat k <= MaxFails ->
  returns (superviseLoop k fuel) (fun _ a' => after s c (n + Z.of_nat k) a') a.
Proof using All.
  induction k as [|k IH]; intros n a Hch Hne Hg Hf Hm Hn Hk.
  { apply returns_ret. unfold after. rewrite Z.add_0_r. by rewrite (proj2 (Z.ltb_lt n MaxFails)) by lia. }
  cbn [superviseLoop]. apply returns_bind. eapply returns_mono; [by apply (round_returns s c n)|].
  intros b a1 [-> H1]. rewrite int32_small in H1 by lia. unfold after in H1.
  destruct (Z.ltb_spec (n + 1) MaxFails).
  - replace (n + Z.of_nat (S k)) with (n + 1 + Z.of_nat k) by lia. apply IH; done || lia.
  - assert (k = 0%nat) as -> by lia. apply returns_ret. unfold after. by rewrite (proj2 (Z.ltb_ge _ _)) by lia.
Qed.

End Rollback.
