(* ===== verification/Xdr.v ===== *)
(** * XDR and record marking

    What the two ends of the LAN link share: the width of Go's int (the
    instrument's is 32 bits, a test's host 64), slices that panic out of range,
    big-endian words, opaque data and ONC RPC's record marks. *)
From S2P Require Import Prelude Machine.

(** ** The width of an int *)

Class GoInt := { intBits : Z; int_wide : intBits = 32 \/ intBits = 64 }.
Definition arm : GoInt := {| intBits := 32; int_wide := or_introl eq_refl |}.
Definition amd64 : GoInt := {| intBits := 64; int_wide := or_intror eq_refl |}.

Definition asInt {W : GoInt} (x : Z) : Z := (x + 2 ^ (intBits - 1)) mod 2 ^ intBits - 2 ^ (intBits - 1).

Lemma asInt_small {W : GoInt} x : - 2 ^ (intBits - 1) <= x < 2 ^ (intBits - 1) -> asInt x = x.
Proof.
  intros Hx. unfold asInt. rewrite Z.mod_small; [lia|].
  destruct int_wide as [E|E]; rewrite E in *; lia.
Qed.
(** Whatever the width, a value under 2^31 is an int. *)
Lemma asInt_31 {W : GoInt} x : 0 <= x < 2 ^ 31 -> asInt x = x.
Proof. intros. apply asInt_small. destruct int_wide as [E|E]; rewrite E; simpl; lia. Qed.
Lemma asInt_range {W : GoInt} x : - 2 ^ (intBits - 1) <= asInt x < 2 ^ (intBits - 1).
Proof.
  unfold asInt. pose proof (Z.mod_pos_bound (x + 2 ^ (intBits - 1)) (2 ^ intBits)).
  destruct int_wide as [E|E]; rewrite E in *; lia.
Qed.

Definition len {A} (l : list A) : Z := Z.of_nat (length l).

(** [b[o:o+n]]: out of range it panics. *)
Definition sub {S} (o n : Z) (b : list Z) : SE S (list Z) :=
  if (0 <=? o) && (0 <=? n) && (o + n <=? len b) then mret (slice (Z.to_nat o) (Z.to_nat n) b) else panic.

(** ** XDR *)

Definition putU32 (v : Z) : list Z := beBytes 4 (u32 v).
Definition pad4 (n : nat) : nat := Z.to_nat ((4 - Z.of_nat n mod 4) mod 4).
Definition putOpaque (d : list Z) : list Z := putU32 (len d) ++ d ++ replicate (pad4 (length d)) 0.

Lemma length_putU32 v : length (putU32 v) = 4%nat.
Proof. apply length_beBytes. Qed.
Lemma beVal_putU32 v : fits 32 v -> beVal (putU32 v) = v.
Proof. intros. unfold putU32. rewrite u32_fits by done. by apply beVal_beBytes. Qed.
Lemma isBytes_putU32 v : isBytes (putU32 v).
Proof. apply isBytes_beBytes. Qed.
Lemma isBytes_putOpaque d : isBytes d -> isBytes (putOpaque d).
Proof.
  intros. unfold putOpaque. apply Forall_app; split; [apply isBytes_putU32|].
  apply Forall_app; split; [done|]. apply Forall_replicate. unfold fits. lia.
Qed.
Lemma isBytes_app a b : isBytes a -> isBytes b -> isBytes (a ++ b).
Proof. apply Forall_app_2. Qed.
(** The bytes of an encoded message. *)
Ltac wire_bytes :=
  lazymatch goal with
  | |- isBytes (putU32 _) => apply isBytes_putU32
  | |- isBytes (putOpaque _) => apply isBytes_putOpaque; wire_bytes
  | |- isBytes (_ ++ _) => apply isBytes_app; wire_bytes
  | _ => try assumption
  end.
#[global] Arguments putU32 : simpl never.
#[global] Arguments putOpaque : simpl never.

(** ** Record marks *)

(** A record of one fragment, the last. *)
Definition marked (msg : list Z) : list Z := beBytes 4 (Z.lor 0x80000000 (u32 (len msg))) ++ msg.

(** Fragments of a record, in the parts [l] and [last]. *)
Definition fragment (final : bool) (d : list Z) : list Z := beBytes 4 (Z.lor (bit final 0x80000000) (u32 (len d))) ++ d.
Definition fragments (l : list (list Z)) (last : list Z) : list Z := concat (map (fragment false) l) ++ fragment true last.

Lemma marked_fragment msg : marked msg = fragment true msg.
Proof. done. Qed.

(** The mark of a fragment, read back. *)
Lemma mark_parts (final : bool) n :
  0 <= n < 2 ^ 31 ->
  let m := beVal (beBytes 4 (Z.lor (bit final 0x80000000) (u32 n))) in
  m .& 0x7fffffff = n /\ has m 0x80000000 = final.
Proof.
  intros Hn m. assert (fits 31 n) as Hf by (unfold fits; lia).
  assert (m = n .| ((if final then 1 else 0) .<< 31)) as ->.
  { unfold m. rewrite u32_fits by (apply (fits_le 31); [lia|done]).
    assert (Z.lor (bit final 0x80000000) n = n .| ((if final then 1 else 0) .<< 31)) as ->.
    { rewrite Z.lor_comm. by destruct final. }
    apply beVal_beBytes. apply (fits_lor_shl 31 1); [lia|lia|done|]. destruct final; unfold fits; simpl; lia. }
  split.
  - change 0x7fffffff with (Z.ones 31). rewrite Z.land_ones by lia. rewrite lor_shl_add by (done || lia).
    rewrite Z.mod_add by lia. by apply Z.mod_small.
  - rewrite lor_shl_add by (done || lia). unfold has. change 0x80000000 with (1 .<< 31).
    destruct (Z.eqb_spec ((n + (if final then 1 else 0) * 2 ^ 31) .& (1 .<< 31)) 0) as [E|E]; simpl; destruct final; try done.
    + apply (f_equal (fun z => Z.testbit z 31)) in E. rewrite Z.land_spec, Z.bits_0 in E.
      rewrite <- (lor_shl_add 31 n 1) in E by (done || lia). rewrite Z.lor_spec in E.
      change (Z.testbit (1 .<< 31) 31) with true in E. by rewrite orb_true_r in E.
    + destruct E. rewrite Z.mul_0_l, Z.add_0_r. apply Z.bits_inj'. intros i Hi. rewrite Z.land_spec, Z.bits_0.
      destruct (Z.lt_ge_cases i 31) as [Hlt|Hge].
      * rewrite (Z.shiftl_spec_low 1 31 i Hlt). by rewrite andb_false_r.
      * by rewrite (fits_testbit 31 n i Hf Hge).
Qed.

(** [io.ReadFull] of [n] bytes from those that came. *)
Definition ReadFull (n : Z) (b : list Z) : option (list Z * list Z) :=
  if len b <? n then None else Some (take (Z.to_nat n) b, drop (Z.to_nat n) b).
Lemma ReadFull_app n d b : len d = n -> ReadFull n (d ++ b) = Some (d, b).
Proof.
  unfold len. intros <-. unfold ReadFull, len. rewrite length_app. rewrite (proj2 (Z.ltb_ge _ _)) by lia.
  by rewrite Nat2Z.id, take_app_length, drop_app_length.
Qed.
