(* ===== verification/Vxi11Srv.v ===== *)
(** * The LAN server: VXI-11 DEVICE_CORE

    src/app/internal/vxi11srv/server.go. A connection's requests are programs
    that share the server with the other connections only in the sections its
    mutex guards and in the handler's calls, so every interleaving of the
    connections is an interleaving of those steps ([step]). The handler's
    reply is a function of the lines it was given so far. *)
From stdpp Require Import gmap.
From S2P Require Import Prelude Machine Xdr.

Definition progCore : Z := 0x0607AF.
Definition procCreateLink : Z := 10.
Definition procDeviceWrite : Z := 11.
Definition procDeviceRead : Z := 12.
Definition procDeviceReadSt : Z := 13.
Definition procDeviceTrig : Z := 14.
Definition procDeviceClear : Z := 15.
Definition procDeviceRemote : Z := 16.
Definition procDeviceLocal : Z := 17.
Definition procDeviceLock : Z := 18.
Definition procDeviceUnlock : Z := 19.
Definition procEnableSRQ : Z := 20.
Definition procDestroyLink : Z := 23.
Definition errOK : Z := 0.
Definition errInvLink : Z := 4.
Definition errIO : Z := 17.
Definition errLocked : Z := 11.
Definition errTimeout : Z := 15.
Definition reasonEND : Z := 4.
Definition flagEND : Z := 8.
Definition maxRecvSize : Z := 0x800000.
Definition maxRecord : Z := maxRecvSize + 0x10000.

(** ** State *)

(** The link's owner is a connection, by number. *)
Record Server := MkServer { linkOwner : option Z; nextLID : Z }.
Record conn := MkConn { lid : Z; lineBuf : list Z; pending : list Z }.

(** ** Programs *)

(** A goroutine's steps the others may come between: a section of the
    server's mutex (what follows sees the server the section found), a call of
    the handler, a sleep of some milliseconds. *)
Inductive prog (A : Type) :=
| Done (a : A)
| Crashed
| Locked (f : Server -> Server) (k : Server -> prog A)
| Handle (line : list Z) (k : list Z -> prog A)
| Sleep (ms : Z) (k : prog A).
Arguments Done {A}.
Arguments Crashed {A}.
Arguments Locked {A}.
Arguments Handle {A}.
Arguments Sleep {A}.

#[export] Instance prog_ret : MRet prog := @Done.
#[export] Instance prog_bind : MBind prog := fun A B f => fix bind m :=
  match m with
  | Done a => f a
  | Crashed => Crashed
  | Locked g k => Locked g (fun s => bind (k s))
  | Handle l k => Handle l (fun r => bind (k r))
  | Sleep ms k => Sleep ms (bind k)
  end.

(** A guarded section. *)
Definition locked {A} (f : Server -> A * Server) : prog A := Locked (fun s => (f s).2) (fun s => Done (f s).1).
Definition handle (line : list Z) : prog (list Z) := Handle line Done.

(** ** Record marking *)

(** Reading off a connection: done with the bytes left, short of bytes that
    have not come, refused, or a panic. *)
Inductive reading (A : Type) := Got (a : A) (rest : list Z) | Short | Refused (e : err) | Panics.
Arguments Got {A}.
Arguments Short {A}.
Arguments Refused {A}.
Arguments Panics {A}.

Section Server.
Context {W : GoInt}.

(** Each fragment takes four bytes and more: [fuel] is a turn a byte. *)
Fixpoint readFragments (fuel : nat) (msg b : list Z) : reading (list Z) :=
  match fuel with
  | O => Short
  | S fuel =>
      match ReadFull 4 b with
      | None => Short
      | Some (hdr, b) =>
          let mark := beVal hdr in
          let n := asInt (mark .& 0x7fffffff) in
          if maxRecord <? asInt (len msg + n) then Refused (EMsg "vxi11: record too large (%d bytes)" [asInt (len msg + n)])
          else if asInt (len msg + n) <? 0 then Panics (* slices.Grow(msg, n)[:at+n] *)
          else
            match ReadFull n b with
            | None => Short
            | Some (d, b) => if has mark 0x80000000 then Got (msg ++ d) b else readFragments fuel (msg ++ d) b
            end
      end
  end.
Definition readRecord (b : list Z) : reading (list Z) := readFragments (S (length b)) [] b.

(** ** XDR *)

Record xdr := MkXdr { x_b : list Z; x_off : Z; x_err : bool }.
Abbreviation X := (SE xdr).
Definition advance (o : Z) (x : xdr) : xdr := MkXdr (x_b x) o (x_err x).
Definition wrong (x : xdr) : xdr := MkXdr (x_b x) (x_off x) true.

Definition xU32 : X Z :=
  x ← gets (fun x => x);
  if len (x_b x) <? asInt (x_off x + 4) then modify wrong;; mret 0
  else
    v ← sub (x_off x) 4 (x_b x);
    modify (advance (asInt (x_off x + 4)));;
    mret (beVal v).

(** [(n + 3) &^ 3] *)
Definition padded (n : Z) : Z := Z.ldiff (asInt (n + 3)) 3.

Definition xOpaque : X (list Z) :=
  n ← xU32;
  let n := asInt n in
  x ← gets (fun x => x);
  let left_ := asInt (len (x_b x) - x_off x) in
  if x_err x || (n <? 0) || (left_ <? n) then modify wrong;; mret []
  else
    v ← sub (x_off x) n (x_b x);
    (if (padded n <? n) || (left_ <? padded n) then modify (advance (len (x_b x)))
     else modify (advance (asInt (x_off x + padded n))));;
    mret v.

Definition skipAuth : X unit :=
  xU32;;
  n ← xU32;
  let n := asInt n in
  x ← gets (fun x => x);
  if x_err x || (n <? 0) || (padded n <? n) || (asInt (len (x_b x) - x_off x) <? padded n)
  then modify (advance (len (x_b x)))
  else modify (advance (asInt (x_off x + padded n))).

(** The reads of a request, in its connection's goroutine. *)
Definition parse {A} (m : X A) (x : xdr) : prog A :=
  match (m x).1 with Ret a => Done a | _ => Crashed end.

(** ** A connection's requests *)

Section Conn.
Context (self : Z).

Definition owns (c : conn) (id : Z) : prog bool :=
  locked (fun s => (bool_decide (linkOwner s = Some self) && (lid c =? id) && negb (id =? 0), s)).

Definition createLink (c : conn) (x : xdr) : prog (conn * list Z) :=
  parse (xU32;; xU32;; xU32;; xOpaque) x;;
  locked (fun s =>
    if decide (linkOwner s <> None /\ linkOwner s <> Some self) then
      ((c, putU32 errLocked ++ putU32 0 ++ putU32 0 ++ putU32 maxRecvSize), s)
    else
      let n := u32 (nextLID s + 1) in
      ((MkConn n [] [], putU32 errOK ++ putU32 n ++ putU32 0 ++ putU32 maxRecvSize), MkServer (Some self) n)).

(** The whole lines of [buf] after [part], handed to the handler one by one;
    the rest stays. The scan is [bytes.IndexByte]'s. *)
Fixpoint lineLoop (part buf pend : list Z) : prog (list Z * list Z) :=
  match buf with
  | [] => Done (part, pend)
  | c :: buf =>
      if c =? 10 then r ← handle (part ++ [10]); lineLoop [] buf (pend ++ r)
      else lineLoop (part ++ [c]) buf pend
  end.

Definition writeArgs : X (Z * Z * list Z * bool) :=
  id ← xU32; xU32;; xU32;; flags ← xU32; data ← xOpaque; e ← gets x_err; mret (id, flags, data, e).

Definition deviceWrite (c : conn) (x : xdr) : prog (conn * list Z) :=
  p ← parse writeArgs x;
  let '(id, flags, data, bad) := p in
  own ← owns c id;
  if negb own || bad then mret (c, putU32 errInvLink ++ putU32 0)
  else if maxRecvSize <? len (lineBuf c) + len data then
    mret (MkConn (lid c) [] (pending c), putU32 errIO ++ putU32 0)
  else
    l ← lineLoop [] (lineBuf c ++ data) (pending c);
    let '(buf, pend) := l in
    c ← (if has flags flagEND && bool_decide (buf <> []) then
           r ← handle (buf ++ [10]); mret (MkConn (lid c) [] (pend ++ r))
         else mret (MkConn (lid c) buf pend));
    mret (c, putU32 errOK ++ putU32 (len data)).

Definition readArgs : X (Z * Z * Z) :=
  id ← xU32; size ← xU32; t ← xU32; mret (id, asInt size, Z.min t 10000).

(** With nothing pending it polls every 10 ms until the timeout; no other
    goroutine writes pending, so every poll finds it as it was. *)
Definition deviceRead (c : conn) (x : xdr) : prog (conn * list Z) :=
  p ← parse readArgs x;
  let '(id, reqSize, ioMs) := p in
  own ← owns c id;
  if negb own then mret (c, putU32 errInvLink ++ putU32 0 ++ putOpaque [])
  else if decide (pending c = []) then Sleep ioMs (mret (c, putU32 errTimeout ++ putU32 0 ++ putOpaque []))
  else
    let n := Z.min (len (pending c)) reqSize in
    if n <? 0 then Crashed (* cn.pending[:n] *)
    else
      let chunk := take (Z.to_nat n) (pending c) in
      let rest := drop (Z.to_nat n) (pending c) in
      mret (MkConn (lid c) (lineBuf c) rest,
            putU32 errOK ++ putU32 (if decide (rest = []) then reasonEND else 0) ++ putOpaque chunk).

Definition destroyLink (c : conn) (x : xdr) : prog (conn * list Z) :=
  id ← parse xU32 x;
  locked (fun s =>
    if bool_decide (linkOwner s <> Some self) || negb (lid c =? id) || (id =? 0) then ((c, putU32 errInvLink), s)
    else ((MkConn 0 (lineBuf c) (pending c), putU32 errOK), MkServer None (nextLID s))).

(** None: not a procedure of the server. *)
Definition dispatch (proc : Z) (c : conn) (x : xdr) : prog (conn * option (list Z)) :=
  let reply m := r ← m; mret (r.1, Some r.2) in
  if proc =? procCreateLink then reply (createLink c x)
  else if proc =? procDeviceWrite then reply (deviceWrite c x)
  else if proc =? procDeviceRead then reply (deviceRead c x)
  else if proc =? procDeviceClear then mret (MkConn (lid c) [] [], Some (putU32 errOK))
  else if proc =? procDeviceReadSt then mret (c, Some (putU32 errOK ++ putU32 0))
  else if bool_decide (proc ∈ [procDeviceTrig; procDeviceRemote; procDeviceLocal; procDeviceLock; procDeviceUnlock; procEnableSRQ])
  then mret (c, Some (putU32 errOK))
  else if proc =? procDestroyLink then reply (destroyLink c x)
  else mret (c, None).

(** The call's header; None when the message is not a call. *)
Definition callHeader : X (option (Z * Z * Z)) :=
  xid ← xU32;
  t ← xU32;
  if negb (t =? 0) then mret None
  else xU32;; prog ← xU32; xU32;; proc ← xU32; skipAuth;; skipAuth;; mret (Some (xid, prog, proc)).

Definition replyTo (xid : Z) (results : option (list Z)) : list Z :=
  putU32 xid ++ putU32 1 ++ putU32 0 ++ putU32 0 ++ putU32 0 ++
  match results with None => putU32 3 | Some r => putU32 0 ++ r end.

(** One turn of serve: a record's reply, None for a message that is no call. *)
Definition serveRecord (c : conn) (msg : list Z) : prog (conn * option (list Z)) :=
  match callHeader (MkXdr msg 0 false) with
  | (Ret None, _) => mret (c, None)
  | (Ret (Some (xid, prog, proc)), x) =>
      r ← (if prog =? progCore then dispatch proc c x else mret (c, None));
      mret (r.1, Some (replyTo xid r.2))
  | _ => Crashed
  end.
End Conn.

(** The connection is over: a link it owns is free. *)
Definition release (self : Z) (s : Server) : Server :=
  if decide (linkOwner s = Some self) then MkServer None (nextLID s) else s.

(** ** The server with its connections *)

(** The history: the links granted and given back, and the handler's lines. *)
Inductive lanEvent := Link (c : Z) | Unlink (c : Z) | Line (c : Z) (line : list Z).

(** What a section of the mutex by a connection did to the link. *)
Definition linkEvent (self : Z) (s s' : Server) : list lanEvent :=
  if decide (nextLID s <> nextLID s') then [Link self]
  else if decide (linkOwner s <> linkOwner s') then [Unlink self] else [].

Definition linesOf (l : list lanEvent) : list (list Z) :=
  omap (fun e => match e with Line _ l => Some l | _ => None end) l.

(** A connection's goroutine: waiting for a record among the bytes that came,
    or serving one. *)
Inductive task := Waiting (c : conn) (input : list Z) | Serving (p : prog (conn * option (list Z))) (input : list Z).

Record lan := MkLan { server : Server; events : list lanEvent; tasks : gmap Z task; accepted : Z; output : list (Z * list Z) }.

Definition zeroConn : conn := MkConn 0 [] [].
Definition started : lan := MkLan (MkServer None 1) [] ∅ 0 [].

Definition putTask (i : Z) (t : task) (l : lan) : lan :=
  MkLan (server l) (events l) (<[i := t]> (tasks l)) (accepted l) (output l).
(** A section of the mutex by connection [i]. *)
Definition section (i : Z) (f : Server -> Server) (l : lan) : lan :=
  MkLan (f (server l)) (events l ++ linkEvent i (server l) (f (server l))) (tasks l) (accepted l) (output l).
Definition called (i : Z) (line : list Z) (l : lan) : lan :=
  MkLan (server l) (events l ++ [Line i line]) (tasks l) (accepted l) (output l).
Definition sent (i : Z) (d : list Z) (l : lan) : lan :=
  MkLan (server l) (events l) (tasks l) (accepted l) (output l ++ [(i, d)]).
Definition ended (i : Z) (l : lan) : lan :=
  let l := section i (release i) l in
  MkLan (server l) (events l) (delete i (tasks l)) (accepted l) (output l).

(** One step of any goroutine, or of the network. *)
Inductive step (h : list (list Z) -> list Z -> list Z) : lan -> lan -> Prop :=
| st_accept l :
    step h l (MkLan (server l) (events l) (<[accepted l := Waiting zeroConn []]> (tasks l)) (accepted l + 1) (output l))
| st_bytes l i c b d : tasks l !! i = Some (Waiting c b) -> isBytes d -> step h l (putTask i (Waiting c (b ++ d)) l)
| st_record l i c b msg rest : tasks l !! i = Some (Waiting c b) -> readRecord b = Got msg rest ->
    step h l (putTask i (Serving (serveRecord i c msg) rest) l)
| st_locked l i f k b : tasks l !! i = Some (Serving (Locked f k) b) ->
    step h l (putTask i (Serving (k (server l)) b) (section i f l))
| st_handle l i line k b : tasks l !! i = Some (Serving (Handle line k) b) ->
    step h l (putTask i (Serving (k (h (linesOf (events l)) line)) b) (called i line l))
| st_sleep l i ms k b : tasks l !! i = Some (Serving (Sleep ms k) b) -> step h l (putTask i (Serving k b) l)
| st_silent l i c b : tasks l !! i = Some (Serving (Done (c, None)) b) -> step h l (putTask i (Waiting c b) l)
| st_reply l i c r b : tasks l !! i = Some (Serving (Done (c, Some r)) b) ->
    step h l (putTask i (Waiting c b) (sent i (marked r) l))
(** the peer is gone, or its record is refused, or its reply cannot be sent *)
| st_hangup l i c b : tasks l !! i = Some (Waiting c b) -> step h l (ended i l)
| st_unsent l i c r b : tasks l !! i = Some (Serving (Done (c, Some r)) b) -> step h l (ended i l).

(** A goroutine that panics takes the process with it. *)
Definition crashed (l : lan) : Prop :=
  exists i, (exists b, tasks l !! i = Some (Serving Crashed b)) \/
    exists c b, tasks l !! i = Some (Waiting c b) /\ readRecord b = Panics.

(** The owner of the link after a history, if it is one: a link is granted
    when none is held or to its holder again, and only its holder gives it
    back or reaches the handler. *)
Fixpoint holder (l : list lanEvent) (o : option Z) : option (option Z) :=
  match l with
  | [] => Some o
  | Link c :: l => if decide (o = None \/ o = Some c) then holder l (Some c) else None
  | Unlink c :: l => if decide (o = Some c) then holder l None else None
  | Line c _ :: l => if decide (o = Some c) then holder l o else None
  end.
End Server.
