(* ===== verification/Vxi11Lan.v ===== *)
(** * Many connections, one link

    Invariants of the LAN server under every interleaving of its connections:
    whose lines reach the handler, what a connection holds on to, and that no
    bytes off the network bring a goroutine down where an int is wide enough. *)
From stdpp Require Import gmap relations.
From S2P Require Import Prelude Machine Xdr Vxi11Srv.

(** ** What a program does to the link *)

(** The sections a connection may leave the server with. *)
Definition moves (i : Z) (s s' : Server) : Prop :=
  s' = s \/
  ((linkOwner s = None \/ linkOwner s = Some i) /\ linkOwner s' = Some i /\ nextLID s' = u32 (nextLID s + 1)) \/
  (linkOwner s = Some i /\ linkOwner s' = None /\ nextLID s' = nextLID s).

(** [own]: the link is known to be the connection's. The handler is called
    only then; what the program ends with satisfies [R]. *)
Fixpoint guarded {A} (i : Z) (R : A -> bool -> Prop) (own : bool) (p : prog A) : Prop :=
  match p with
  | Done a => R a own
  | Crashed => True
  | Locked f k => forall s, (own = true -> linkOwner s = Some i) ->
      moves i s (f s) /\ exists own', (own' = true -> linkOwner (f s) = Some i) /\ guarded i R own' (k s)
  | Handle _ k => own = true /\ forall r, guarded i R own (k r)
  | Sleep _ k => guarded i R own k
  end.

Lemma guarded_bind {A B} i (R : B -> bool -> Prop) (m : prog A) (f : A -> prog B) own :
  guarded i (fun a own => guarded i R own (f a)) own m -> guarded i R own (m ≫= f).
Proof.
  revert own. induction m as [a| |g k IH|l k IH|ms k IH]; intros own; simpl; [done|done|..].
  - intros H s Hs. destruct (H s Hs) as [H1 (own' & H2 & H3)]. split; [done|]. exists own'. split; [done|]. by apply IH.
  - intros [-> H]. split; [done|]. intros r. by apply IH.
  - apply IH.
Qed.
Lemma guarded_mono {A} i (R R' : A -> bool -> Prop) (p : prog A) own :
  (forall a own, R a own -> R' a own) -> guarded i R own p -> guarded i R' own p.
Proof.
  intros HR. revert own. induction p as [a| |g k IH|l k IH|ms k IH]; intros own; simpl; [apply HR|done|..].
  - intros H s Hs. destruct (H s Hs) as [H1 (own' & H2 & H3)]. split; [done|]. exists own'. auto.
  - intros [-> H]. auto.
  - apply IH.
Qed.
(** Knowing more of the link never hurts. *)
Lemma guarded_parse {W : GoInt} {A} i (R : A -> bool -> Prop) (m : SE xdr A) x own :
  (forall a, R a own) -> guarded i R own (parse m x).
Proof. intros H. unfold parse. destruct (m x).1; simpl; auto. Qed.

Section Guarded.
Context {W : GoInt} (i : Z).

(** The bounds a connection keeps. *)
Definition kept (c : conn) : Prop := len (lineBuf c) <= maxRecvSize.

Lemma guarded_owns c id (R : bool -> bool -> Prop) own :
  R false own -> R true true -> guarded i R own (owns i c id).
Proof.
  intros Hf Ht s Hs. split; [by left|]. simpl.
  destruct (bool_decide_reflect (linkOwner s = Some i)) as [Ho|Ho]; simpl; [|exists own; auto].
  destruct ((lid c =? id) && negb (id =? 0)); [exists true|exists own]; auto.
Qed.

Lemma guarded_lineLoop part buf pend (R : list Z * list Z -> bool -> Prop) :
  (forall part' pend', len part' <= len part + len buf -> R (part', pend') true) -> guarded i R true (lineLoop part buf pend).
Proof.
  revert part pend. induction buf as [|c buf IH]; intros part pend HR; cbn [lineLoop].
  { apply HR. unfold len. simpl. lia. }
  destruct (c =? 10).
  - split; [done|]. intros r. apply IH. intros p' d' H. apply HR. unfold len in *. simpl in *. lia.
  - apply IH. intros p' d' H. apply HR. unfold len in *. rewrite length_app in H. simpl in *. lia.
Qed.

Lemma guarded_serveRecord c msg : kept c -> guarded i (fun r _ => kept r.1) false (serveRecord i c msg).
Proof.
  intros Hc. assert (kept (MkConn (lid c) [] (pending c)) /\ forall n p, kept (MkConn n [] p)) as [_ He].
  { unfold kept. simpl. split; [|intros _ _]; unfold len, maxRecvSize; simpl; lia. }
  unfold serveRecord. destruct (callHeader (MkXdr msg 0 false)) as [[[[[xid prog_] proc]|]|e| |] x]; try done.
  apply guarded_bind. assert (forall p, guarded i (fun r _ => kept r.1) false p ->
    guarded i (fun a own => guarded i (fun r _ => kept r.1) own (mret (a.1, Some (replyTo xid a.2)))) false p) as Hend.
  { intros p. apply guarded_mono. by intros [c' r] own. }
  apply Hend. destruct (prog_ =? progCore); [|done]. unfold dispatch.
  assert (forall m, guarded i (fun r _ => kept r.1) false m ->
    guarded i (fun r _ => kept r.1) false (r ← m; mret (r.1, Some r.2) : prog (conn * option (list Z)))) as Hreply.
  { intros m Hm. apply guarded_bind. revert Hm. apply guarded_mono. by intros [c' r] own. }
  destruct (proc =? procCreateLink).
  { apply Hreply, guarded_bind, guarded_parse. intros _ s _.
    destruct (decide _) as [Ho|Ho]; simpl; [split; [by left|by exists false]|].
    split; [|exists false; simpl; auto]. right. left. split; [|done].
    destruct (linkOwner s) as [j|]; [|by left]. right. destruct (decide (j = i)) as [->|Hj]; [done|]. destruct Ho. split; congruence. }
  destruct (proc =? procDeviceWrite).
  { apply Hreply, guarded_bind, guarded_parse. intros [[[id flags] data] bad]. apply guarded_bind, guarded_owns; [done|].
    destruct bad; [done|]. cbn [negb orb]. destruct (Z.ltb_spec maxRecvSize (len (lineBuf c) + len data)) as [Hl|Hl]; [apply He|].
    apply guarded_bind, guarded_lineLoop. intros part pend Hp. apply guarded_bind.
    destruct (has flags flagEND && bool_decide (part <> [])).
    - apply guarded_bind. split; [done|]. intros r. simpl. apply He.
    - simpl. unfold kept. simpl. unfold len in *. rewrite length_app in Hp. simpl in *. lia. }
  destruct (proc =? procDeviceRead).
  { apply Hreply, guarded_bind, guarded_parse. intros [[id reqSize] ioMs]. apply guarded_bind, guarded_owns; [done|].
    cbn [negb]. destruct (decide _); [done|]. by destruct (_ <? 0). }
  destruct (proc =? procDeviceClear); [apply He|]. destruct (proc =? procDeviceReadSt); [done|].
  destruct (bool_decide _); [done|]. destruct (proc =? procDestroyLink); [|done].
  apply Hreply, guarded_bind, guarded_parse. intros id s _.
  destruct (bool_decide_reflect (linkOwner s <> Some i)) as [Ho|Ho]; simpl; [split; [by left|by exists false]|].
  destruct (_ || _); simpl; [split; [by left|by exists false]|].
  split; [|by exists false]. right. right. split; [|done]. destruct (linkOwner s) as [j|]; [|by destruct Ho].
  destruct (decide (j = i)) as [->|Hj]; [done|]. destruct Ho. congruence.
Qed.
End Guarded.

(** ** The invariant *)

Lemma holder_app l l' o o' : holder l o = Some o' -> holder (l ++ l') o = holder l' o'.
Proof.
  revert o. induction l as [|[c|c|c line] l IH]; intros o; simpl; [by intros [= ->]|..];
    (destruct (decide _); [apply IH|done]).
Qed.

Lemma u32_succ n : fits 32 n -> n <> u32 (n + 1).
Proof.
  unfold fits, u32. intros Hn He. pose proof (Z.mod_pos_bound (n + 1) (2 ^ 32)).
  destruct (Z.eq_dec n (2 ^ 32 - 1)) as [->|Hne]; [done|]. rewrite Z.mod_small in He; lia.
Qed.

Lemma moves_holder i s s' : fits 32 (nextLID s) -> moves i s s' -> holder (linkEvent i s s') (linkOwner s) = Some (linkOwner s').
Proof.
  intros Hf [->|[([Ho|Ho] & Ho' & Hn)|(Ho & Ho' & Hn)]]; unfold linkEvent.
  - by rewrite !decide_False by (by intros []).
  - pose proof (u32_succ _ Hf). rewrite decide_True by congruence. simpl. rewrite decide_True by auto. congruence.
  - pose proof (u32_succ _ Hf). rewrite decide_True by congruence. simpl. rewrite decide_True by auto. congruence.
  - rewrite decide_False by congruence. rewrite decide_True by congruence. simpl. rewrite decide_True by done. congruence.
Qed.
Lemma moves_fits i s s' : fits 32 (nextLID s) -> moves i s s' -> fits 32 (nextLID s').
Proof. intros Hf [->|[(_ & _ & ->)|(_ & _ & ->)]]; [done|apply fits_u32|done]. Qed.
(** Another connection's section leaves an owner its link. *)
Lemma moves_other i j s s' : moves j s s' -> i <> j -> linkOwner s = Some i -> linkOwner s' = Some i.
Proof. intros [->|[([Ho|Ho] & _ & _)|(Ho & _ & _)]] Hne Hi; congruence. Qed.
Lemma release_moves i s : moves i s (release i s).
Proof. unfold release. destruct (decide _) as [Ho|Ho]; [right; right; auto|by left]. Qed.

Section Lan.
Context {W : GoInt} (h : list (list Z) -> list Z -> list Z).

Definition taskOk (s : Server) (i : Z) (t : task) : Prop :=
  match t with
  | Waiting c _ => kept c
  | Serving p _ => exists own, (own = true -> linkOwner s = Some i) /\ guarded i (fun r _ => kept r.1) own p
  end.

Record lanInv (l : lan) : Prop := {
  li_holder : holder (events l) None = Some (linkOwner (server l));
  li_lid : fits 32 (nextLID (server l));
  li_tasks : forall i t, tasks l !! i = Some t -> taskOk (server l) i t;
  li_live : forall i, linkOwner (server l) = Some i -> is_Some (tasks l !! i);
  li_fresh : forall i, is_Some (tasks l !! i) -> i < accepted l;
}.

(** A step that leaves the server alone and gives one connection a task. *)
Lemma inv_putTask i t l :
  lanInv l -> is_Some (tasks l !! i) -> taskOk (server l) i t -> lanInv (putTask i t l).
Proof using.
  intros [H1 H2 H3 H4 H5] Hi Ht. split; simpl; try done.
  - intros j u. destruct (decide (i = j)) as [<-|Hne]; [rewrite lookup_insert_eq; by intros [= <-]|].
    rewrite lookup_insert_ne by done. apply H3.
  - intros j Hj. destruct (decide (i = j)) as [<-|Hne]; [by rewrite lookup_insert_eq|].
    rewrite lookup_insert_ne by done. by apply H4.
  - intros j. destruct (decide (i = j)) as [<-|Hne]; [intros _; by apply H5|].
    rewrite lookup_insert_ne by done. apply H5.
Qed.

Lemma section_tasks i f l j t :
  lanInv l -> moves i (server l) (f (server l)) -> i <> j -> tasks l !! j = Some t -> taskOk (f (server l)) j t.
Proof using.
  intros Hl Hm Hne Hj. apply (li_tasks _ Hl) in Hj. destruct t as [c b|p b]; [done|].
  destruct Hj as (own & Ho & Hg). exists own. split; [|done]. intros E. apply (moves_other j i (server l)); auto.
Qed.

Lemma moves_owner i s s' j : moves i s s' -> linkOwner s' = Some j -> j = i \/ linkOwner s = Some j.
Proof using. intros [->|[(_ & Ho & _)|(_ & Ho & _)]] Hj; [by right|left|]; congruence. Qed.

Lemma inv_section i f l p b :
  lanInv l -> is_Some (tasks l !! i) -> moves i (server l) (f (server l)) -> taskOk (f (server l)) i (Serving p b) ->
  lanInv (putTask i (Serving p b) (section i f l)).
Proof using.
  intros Hl Hi Hm Ht. split; simpl.
  - rewrite (holder_app _ _ _ _ (li_holder _ Hl)). apply moves_holder; [exact (li_lid _ Hl)|done].
  - apply (moves_fits i (server l)); [exact (li_lid _ Hl)|done].
  - intros j u. destruct (decide (i = j)) as [<-|Hne]; [rewrite lookup_insert_eq; by intros [= <-]|].
    rewrite lookup_insert_ne by done. by apply (section_tasks i).
  - intros j Hj. destruct (decide (i = j)) as [<-|Hne]; [by rewrite lookup_insert_eq|].
    rewrite lookup_insert_ne by done. apply (moves_owner i (server l)) in Hj as [->|Hj]; [done|by apply (li_live _ Hl)|done].
  - intros j. destruct (decide (i = j)) as [<-|Hne]; [intros _; by apply (li_fresh _ Hl)|].
    rewrite lookup_insert_ne by done. apply (li_fresh _ Hl).
Qed.

Lemma inv_ended i l : lanInv l -> is_Some (tasks l !! i) -> lanInv (ended i l).
Proof using.
  intros Hl Hi. pose proof (release_moves i (server l)) as Hm. split; simpl.
  - rewrite (holder_app _ _ _ _ (li_holder _ Hl)). apply moves_holder; [exact (li_lid _ Hl)|done].
  - apply (moves_fits i (server l)); [exact (li_lid _ Hl)|done].
  - intros j u. destruct (decide (i = j)) as [<-|Hne]; [by rewrite lookup_delete_eq|].
    rewrite lookup_delete_ne by done. by apply (section_tasks i).
  - intros j Hj. assert (i <> j) as Hne.
    { intros <-. unfold release in Hj. destruct (decide _) as [Ho|Ho]; [discriminate Hj|by destruct Ho]. }
    rewrite lookup_delete_ne by done. apply (moves_owner i (server l)) in Hj as [->|Hj]; [done|by apply (li_live _ Hl)|done].
  - intros j. destruct (decide (i = j)) as [<-|Hne]; [by rewrite lookup_delete_eq; intros []|].
    rewrite lookup_delete_ne by done. apply (li_fresh _ Hl).
Qed.

Lemma inv_lan l l' : step h l l' -> lanInv l -> lanInv l'.
Proof using.
  intros Hs Hl. pose proof (li_tasks _ Hl) as Ht.
  destruct Hs as [l|l i c b d Hi Hd|l i c b msg rest Hi Hr|l i f k b Hi|l i line k b Hi|l i ms k b Hi|l i c b Hi|l i c r b Hi|
    l i c b Hi|l i c r b Hi]; try (pose proof (Ht _ _ Hi) as Hok).
  - destruct Hl as [H1 H2 H3 H4 H5]. split; simpl; try done.
    + intros j u. destruct (decide (accepted l = j)) as [<-|Hne]; [rewrite lookup_insert_eq; by intros [= <-]|].
      rewrite lookup_insert_ne by done. apply H3.
    + intros j Hj. destruct (decide (accepted l = j)) as [<-|Hne]; [by rewrite lookup_insert_eq|].
      rewrite lookup_insert_ne by done. by apply H4.
    + intros j. destruct (decide (accepted l = j)) as [<-|Hne]; [intros _; lia|].
      rewrite lookup_insert_ne by done. intros Hj. specialize (H5 _ Hj). lia.
  - apply inv_putTask; [done|by rewrite Hi|done].
  - apply inv_putTask; [done|by rewrite Hi|]. exists false. split; [done|]. by apply guarded_serveRecord.
  - destruct Hok as (own & Ho & Hg). destruct (Hg (server l) Ho) as [Hm (own' & Ho' & Hg')].
    apply inv_section; [done|by rewrite Hi|done|]. by exists own'.
  - destruct Hok as (own & Ho & -> & Hg). assert (lanInv (called i line l)) as Hc.
    { destruct Hl as [H1 H2 H3 H4 H5]. split; simpl; try done. rewrite (holder_app _ _ _ _ H1). simpl.
      rewrite decide_True by auto. done. }
    apply inv_putTask; [done|simpl; by rewrite Hi|]. by exists true.
  - apply inv_putTask; [done|by rewrite Hi|done].
  - destruct Hok as (own & Ho & Hg). apply inv_putTask; [done|by rewrite Hi|done].
  - destruct Hok as (own & Ho & Hg). apply inv_putTask; [by destruct Hl|simpl; by rewrite Hi|done].
  - apply inv_ended; [done|by rewrite Hi].
  - apply inv_ended; [done|by rewrite Hi].
Qed.

Lemma inv_started : lanInv started.
Proof using.
  split; simpl; try done. intros i [t Hi]. by rewrite lookup_empty in Hi.
Qed.

(** C14: Whatever the clients send and however their connections interleave,
    the link has one owner at a time: the history of grants, hang-ups and
    lines is one of single links, each line its owner's, no connection reaches
    the handler but the owner, an owner is a live connection (a client that
    drops never keeps the link), and no connection holds more of an unfinished
    line than the largest write. *)
Theorem single_link l :
  rtc (step h) started l ->
  holder (events l) None = Some (linkOwner (server l)) /\
  (forall i line k b, tasks l !! i = Some (Serving (Handle line k) b) -> linkOwner (server l) = Some i) /\
  (forall i, linkOwner (server l) = Some i -> is_Some (tasks l !! i)) /\
  (forall i c b, tasks l !! i = Some (Waiting c b) -> len (lineBuf c) <= maxRecvSize).
Proof using.
  intros Hr. assert (lanInv l) as [H1 H2 H3 H4 H5].
  { remember started as l0 eqn:E. assert (lanInv l0) as Hi by (subst; apply inv_started). clear E.
    induction Hr as [|l0 l1 l2 Hs Hr IH]; [done|]. apply IH. by apply (inv_lan l0). }
  split; [done|]. split.
  - intros i line k b Hi. destruct (H3 _ _ Hi) as (own & Ho & -> & _). auto.
  - split; [done|]. intros i c b Hi. exact (H3 _ _ Hi).
Qed.
End Lan.

(** ** No bytes bring it down *)

Fixpoint calm {A} (R : A -> Prop) (p : prog A) : Prop :=
  match p with
  | Done a => R a
  | Crashed => False
  | Locked _ k => forall s, calm R (k s)
  | Handle _ k => forall r, calm R (k r)
  | Sleep _ k => calm R k
  end.

Lemma calm_bind {A B} (R : B -> Prop) (m : prog A) (f : A -> prog B) :
  calm (fun a => calm R (f a)) m -> calm R (m ≫= f).
Proof. induction m; simpl; auto. Qed.
Lemma calm_mono {A} (R R' : A -> Prop) (p : prog A) : (forall a, R a -> R' a) -> calm R p -> calm R' p.
Proof. intros HR. induction p; simpl; auto. Qed.

Section Calm.
Context {W : GoInt}.

(** A message under 2^31 bytes, read up to somewhere within it. *)
Definition xok (x : xdr) : Prop := isBytes (x_b x) /\ len (x_b x) < 2 ^ 31 - 4 /\ 0 <= x_off x <= len (x_b x).
Definition reads {A} (m : SE xdr A) (R : A -> Prop) : Prop :=
  forall x, xok x -> exists a x', m x = (Ret a, x') /\ xok x' /\ R a.

Lemma reads_bind {A B} (m : SE xdr A) (f : A -> SE xdr B) Q R : reads m Q -> (forall a, Q a -> reads (f a) R) -> reads (m ≫= f) R.
Proof using.
  intros Hm Hf x Hx. destruct (Hm x Hx) as (a & x1 & H1 & Hx1 & Ha). destruct (Hf a Ha x1 Hx1) as (b & x2 & H2 & Hx2 & Hb).
  exists b, x2. split; [|done]. by rewrite (bind_Ret _ _ _ _ _ H1).
Qed.
Lemma reads_ret {A} (a : A) (R : A -> Prop) : R a -> reads (mret a) R.
Proof using. intros Ha x Hx. by exists a, x. Qed.

Lemma sub_ok {S} o n b (s : S) : 0 <= o -> 0 <= n -> o + n <= len b -> sub o n b s = (Ret (slice (Z.to_nat o) (Z.to_nat n) b), s).
Proof using.
  intros. unfold sub. rewrite (proj2 (Z.leb_le 0 o)), (proj2 (Z.leb_le 0 n)), (proj2 (Z.leb_le (o + n) (len b))) by done. done.
Qed.
Lemma asInt_off x d : xok x -> 0 <= d <= 4 -> asInt (x_off x + d) = x_off x + d.
Proof using. intros (_ & H1 & H2) Hd. apply asInt_31. lia. Qed.
Lemma asInt_left x : xok x -> asInt (len (x_b x) - x_off x) = len (x_b x) - x_off x.
Proof using. intros (_ & H1 & H2). apply asInt_31. lia. Qed.

Lemma xU32_reads : reads xU32 (fits 32).
Proof using.
  intros x Hx. pose proof Hx as (Hb & Hl & Ho). unfold xU32, mbind, SE_bind, gets. rewrite asInt_off by (done || lia).
  destruct (Z.ltb_spec (len (x_b x)) (x_off x + 4)) as [Hlt|Hge].
  { exists 0, (wrong x). split; [done|]. split; [exact Hx|unfold fits; lia]. }
  rewrite sub_ok by lia. eexists _, _. split; [reflexivity|]. split; [repeat split; simpl; try done; lia|].
  assert (length (slice (Z.to_nat (x_off x)) (Z.to_nat 4) (x_b x)) = 4%nat) as Hn.
  { apply length_slice. unfold len in *. lia. }
  pose proof (beVal_bound _ (isBytes_slice (Z.to_nat (x_off x)) (Z.to_nat 4) _ Hb)) as Hv. by rewrite Hn in Hv.
Qed.

Lemma padded_range n : 0 <= n -> n <= padded n -> 0 <= padded n.
Proof using. lia. Qed.

Lemma xOpaque_reads : reads xOpaque isBytes.
Proof using.
  unfold xOpaque. eapply reads_bind; [apply xU32_reads|]. intros v Hv x Hx. pose proof Hx as (Hb & Hl & Ho).
  unfold mbind, SE_bind, gets. rewrite asInt_left by done. set (n := asInt v).
  destruct (x_err x || (n <? 0) || (len (x_b x) - x_off x <? n)) eqn:E.
  { exists [], (wrong x). split; [done|]. split; [exact Hx|constructor]. }
  apply orb_false_iff in E as [[_ E1%Z.ltb_ge]%orb_false_iff E2%Z.ltb_ge]. rewrite sub_ok by lia.
  destruct ((padded n <? n) || _) eqn:E3; eexists _, _; (split; [reflexivity|]);
    (split; [|by apply isBytes_slice]); unfold xok; simpl.
  - split; [done|]. split; [done|]. unfold len in *. lia.
  - apply orb_false_iff in E3 as [E3%Z.ltb_ge E4%Z.ltb_ge]. split; [done|]. split; [done|]. rewrite asInt_31; lia.
Qed.

Lemma skipAuth_reads : reads skipAuth (fun _ => True).
Proof using.
  unfold skipAuth. eapply reads_bind; [apply xU32_reads|]. intros _ _. eapply reads_bind; [apply xU32_reads|].
  intros v Hv x Hx. pose proof Hx as (Hb & Hl & Ho). unfold mbind, SE_bind, gets. rewrite asInt_left by done. set (n := asInt v).
  destruct (_ || _) eqn:E; eexists _, _; (split; [reflexivity|]); (split; [|done]); unfold xok; simpl.
  - split; [done|]. split; [done|]. unfold len in *. lia.
  - apply orb_false_iff in E as [[[_ E1%Z.ltb_ge]%orb_false_iff E2%Z.ltb_ge]%orb_false_iff E3%Z.ltb_ge].
    split; [done|]. split; [done|]. rewrite asInt_31; lia.
Qed.

Lemma calm_parse {A} (m : SE xdr A) x Q (R : A -> Prop) : reads m Q -> xok x -> (forall a, Q a -> R a) -> calm R (parse m x).
Proof using. intros Hm Hx HR. unfold parse. destruct (Hm x Hx) as (a & x' & -> & _ & Ha). simpl. auto. Qed.

Lemma callHeader_reads : reads callHeader (fun _ => True).
Proof using.
  unfold callHeader. eapply reads_bind; [apply xU32_reads|]. intros xid _. eapply reads_bind; [apply xU32_reads|].
  intros t _. destruct (negb _); [by apply reads_ret|].
  eapply reads_bind; [apply xU32_reads|]. intros _ _. eapply reads_bind; [apply xU32_reads|]. intros p _.
  eapply reads_bind; [apply xU32_reads|]. intros _ _. eapply reads_bind; [apply xU32_reads|]. intros q _.
  eapply reads_bind; [apply skipAuth_reads|]. intros _ _. eapply reads_bind; [apply skipAuth_reads|]. intros _ _.
  by apply reads_ret.
Qed.

Lemma calm_lineLoop part buf pend : calm (fun _ => True) (lineLoop part buf pend).
Proof using.
  revert part pend. induction buf as [|c buf IH]; intros part pend; [done|]. cbn [lineLoop].
  destruct (c =? 10); [intros r|]; apply IH.
Qed.

Lemma calm_owns i c id (R : bool -> Prop) : (forall b, R b) -> calm R (owns i c id).
Proof using. intros H s. apply H. Qed.

Hypothesis wide : intBits = 64.

Lemma asInt_wide v : fits 32 v -> asInt v = v.
Proof using wide. intros [H1 H2]. apply asInt_small. rewrite wide. change (2 ^ (64 - 1)) with (2 ^ 63). lia. Qed.

Lemma calm_serveRecord i c msg : isBytes msg -> len msg < 2 ^ 31 - 4 -> calm (fun _ => True) (serveRecord i c msg).
Proof using wide.
  intros Hb Hl. unfold serveRecord.
  assert (xok (MkXdr msg 0 false)) as Hx0 by (split; [done|split; [done|simpl; unfold len; lia]]).
  destruct (callHeader_reads _ Hx0) as (hd & x & -> & Hx & _). destruct hd as [[[xid p] proc]|]; [|done].
  apply calm_bind. apply (calm_mono (fun _ => True)); [by intros []|]. destruct (p =? progCore); [|done].
  assert (forall m : prog (conn * list Z), calm (fun _ => True) m ->
    calm (fun _ => True) (r ← m; mret (r.1, Some r.2) : prog (conn * option (list Z)))) as Hreply.
  { intros m Hm. by apply calm_bind. }
  unfold dispatch. destruct (proc =? procCreateLink).
  { apply Hreply, calm_bind. apply (calm_parse _ _ (fun _ => True)); [|done|].
    - do 3 (eapply reads_bind; [apply xU32_reads|intros _ _]). intros y Hy.
      destruct (xOpaque_reads y Hy) as (a & y' & H1 & H2 & _). by exists a, y'.
    - intros _ _ s. done. }
  destruct (proc =? procDeviceWrite).
  { apply Hreply, calm_bind. apply (calm_parse _ _ (fun _ => True)); [|done|].
    - eapply reads_bind; [apply xU32_reads|intros ? _]. do 2 (eapply reads_bind; [apply xU32_reads|intros _ _]).
      eapply reads_bind; [apply xU32_reads|intros ? _]. eapply reads_bind; [apply xOpaque_reads|intros ? _].
      intros y Hy. by eexists _, y.
    - intros [[[id flags] data] bad] _. apply calm_bind, calm_owns. intros own. destruct (negb own || bad); [done|].
      destruct (maxRecvSize <? _); [done|]. apply calm_bind. apply (calm_mono (fun _ => True)); [|apply calm_lineLoop]. intros [buf pend] _.
      apply calm_bind. by destruct (has flags flagEND && bool_decide (buf <> [])). }
  destruct (proc =? procDeviceRead).
  { apply Hreply, calm_bind. apply (calm_parse _ _ (fun a => 0 <= a.1.2)); [|done|].
    - eapply reads_bind; [apply xU32_reads|intros ? _]. eapply reads_bind; [apply xU32_reads|intros n Hn].
      eapply reads_bind; [apply xU32_reads|intros ? _]. apply reads_ret. simpl. rewrite asInt_wide by done. apply Hn.
    - intros [[id n] t] Hn. cbn [fst snd] in *. apply calm_bind, calm_owns. intros own. destruct (negb own); [done|].
      case_decide; [done|].
      destruct (Z.ltb_spec (Z.min (len (pending c)) n) 0); [|done]. unfold len in *. lia. }
  destruct (proc =? procDeviceClear); [done|]. destruct (proc =? procDeviceReadSt); [done|].
  destruct (bool_decide _); [done|]. destruct (proc =? procDestroyLink); [|done].
  apply Hreply, calm_bind. apply (calm_parse _ _ (fun _ => True)); [|done|].
  - intros y Hy. destruct (xU32_reads y Hy) as (a & y' & H1 & H2 & _). by exists a, y'.
  - intros id _ s. done.
Qed.
End Calm.

Section Hostile.
Context {W : GoInt}.

Lemma mark_bound m : 0 <= m .& 0x7fffffff < 2 ^ 31.
Proof using. change 0x7fffffff with (Z.ones 31). rewrite Z.land_ones by lia. apply Z.mod_pos_bound. lia. Qed.

Lemma isBytes_ReadFull n b d r : isBytes b -> ReadFull n b = Some (d, r) -> isBytes d /\ isBytes r /\ (0 <= n -> len d = n).
Proof using.
  intros Hb. unfold ReadFull. destruct (Z.ltb_spec (len b) n) as [|Hl]; [discriminate|]. intros [= <- <-].
  split; [by apply Forall_take|]. split; [by apply Forall_drop|]. intros. unfold len in *. rewrite length_take. lia.
Qed.

(** What a record read is: bytes, within the bound; only a narrow int panics. *)
Lemma readFragments_bounds fuel msg b :
  isBytes msg -> isBytes b -> len msg <= maxRecord ->
  match readFragments fuel msg b with
  | Got m rest => isBytes m /\ isBytes rest /\ len m <= maxRecord
  | Panics => intBits = 32
  | _ => True
  end.
Proof using.
  revert msg b. induction fuel as [|fuel IH]; intros msg b Hm Hb Hl; simpl; [done|].
  destruct (ReadFull 4 b) as [[hdr b1]|] eqn:E1; [|done]. apply isBytes_ReadFull in E1 as (_ & Hb1 & _); [|done].
  pose proof (mark_bound (beVal hdr)) as Hn. set (n := beVal hdr .& 0x7fffffff) in *. rewrite (asInt_31 n) by done.
  assert (0 <= len msg) as H0 by (unfold len; lia). assert (maxRecord = 8454144) as Hmax by done.
  destruct (Z.ltb_spec maxRecord (asInt (len msg + n))) as [|Hle]; [done|].
  destruct (Z.ltb_spec (asInt (len msg + n)) 0) as [Hneg|Hpos].
  { destruct int_wide as [E|E]; [done|]. rewrite asInt_small in Hneg; [lia|]. rewrite E. simpl. lia. }
  assert (asInt (len msg + n) = len msg + n) as Heq.
  { destruct (Z.lt_ge_cases (len msg + n) (2 ^ 31)); [apply asInt_31; lia|].
    destruct int_wide as [E|E]; [|apply asInt_small; rewrite E; simpl; lia].
    unfold asInt in Hpos. rewrite E in Hpos. change (2 ^ (32 - 1)) with (2 ^ 31) in Hpos.
    replace (len msg + n + 2 ^ 31) with (len msg + n - 2 ^ 31 + 1 * 2 ^ 32) in Hpos by lia.
    rewrite Z.mod_add, Z.mod_small in Hpos by lia. lia. }
  destruct (ReadFull n b1) as [[d b2]|] eqn:E2; [|done]. apply isBytes_ReadFull in E2 as (Hd & Hb2 & Hlen); [|done].
  assert (isBytes (msg ++ d) /\ len (msg ++ d) <= maxRecord) as [H1 H2].
  { split; [by apply Forall_app|]. unfold len in *. rewrite length_app. lia. }
  destruct (has (beVal hdr) 0x80000000); [done|]. by apply IH.
Qed.

Lemma readRecord_bounds b :
  isBytes b -> match readRecord b with
               | Got m rest => isBytes m /\ isBytes rest /\ len m <= maxRecord
               | Panics => intBits = 32
               | _ => True
               end.
Proof using. intros. apply readFragments_bounds; [constructor|done|done]. Qed.

Context (h : list (list Z) -> list Z -> list Z) (wide : intBits = 64).

Definition calmTask (t : task) : Prop :=
  match t with
  | Waiting _ b => isBytes b
  | Serving p b => isBytes b /\ calm (fun _ => True) p
  end.

Lemma calm_step l l' : step h l l' -> map_Forall (fun _ => calmTask) (tasks l) -> map_Forall (fun _ => calmTask) (tasks l').
Proof using wide.
  intros Hs Ht. destruct Hs as [l|l i c b d Hi Hd|l i c b msg rest Hi Hr|l i f k b Hi|l i line k b Hi|l i ms k b Hi|l i c b Hi|
    l i c r b Hi|l i c b Hi|l i c r b Hi]; simpl; try (apply map_Forall_insert_2; [|done]); try (by apply map_Forall_delete);
    try (apply Ht in Hi; simpl in Hi).
  - constructor.
  - simpl. by apply Forall_app.
  - pose proof (readRecord_bounds b Hi) as Hb. rewrite Hr in Hb. destruct Hb as (H1 & H2 & H3). split; [done|].
    apply calm_serveRecord; [done|done|]. change maxRecord with 8454144 in H3. lia.
  - destruct Hi as [H1 H2]. split; [done|]. apply H2.
  - destruct Hi as [H1 H2]. split; [done|]. apply H2.
  - exact Hi.
  - apply Hi.
  - apply Hi.
Qed.

End Hostile.
