(* ===== verification/Vxi11.v ===== *)
(** * The factory app's LAN client

    src/ota/internal/vxi11/vxi11.go: what the takeover stops the factory app
    with. The network is the class [Net]: the calls the code makes of it, over
    a state of their own; [NetOk] is what it relies on. *)
From stdpp Require Import pretty.
From S2P Require Import Prelude Machine Xdr.

Definition pmapProg : Z := 100000.
Definition pmapVers : Z := 2.
Definition pmapGetport : Z := 3.
Definition coreProg : Z := 0x0607AF.
Definition coreVers : Z := 1.
Definition procCreateLink : Z := 10.
Definition procDeviceWrite : Z := 11.
Definition procDeviceRead : Z := 12.
Definition procDestroyLink : Z := 23.
Definition ipprotoTCP : Z := 6.
Definition flagEnd : Z := 8.
Definition readReasonMask : Z := 7.
Definition maxReply : Z := 8 * 2 ^ 20.
Definition maxAuthBody : Z := 400.
Definition maxStale : nat := 8.

(** ** The network *)

Class Net (S : Type) := {
  net_dial : string -> SE S Z;
  net_write : Z -> list Z -> SE S unit;
  net_read : Z -> Z -> SE S (list Z) (* io.ReadFull *);
  net_close : Z -> SE S unit;
  net_deadline : Z -> Z -> SE S unit;
  net_now : SE S Z (* nanoseconds *);
  net_sleep : Z -> SE S unit;
}.

(** A call of the network returns or fails; a full read is of that many bytes. *)
Definition quiet {S A} (m : SE S A) (R : A -> Prop) : Prop :=
  forall s, match (m s).1 with Ret a => R a | Fail _ => True | _ => False end.
Class NetOk (S : Type) {N : Net S} : Prop := {
  dial_ok a : quiet (net_dial a) (fun _ => True);
  write_ok c d : quiet (net_write c d) (fun _ => True);
  read_ok c n : 0 <= n -> quiet (net_read c n) (fun d => len d = n /\ isBytes d);
  close_ok c : quiet (net_close c) (fun _ => True);
  deadline_ok c t : quiet (net_deadline c t) (fun _ => True);
  now_ok : quiet net_now (fun _ => True);
  sleep_ok t : quiet (net_sleep t) (fun _ => True);
}.

Definition JoinHostPort (host port : string) : string :=
  if existsb (fun c => (c =? 58) || (c =? 37)) (text host) (* a colon or a percent sign *)
  then "[" +:+ host +:+ "]:" +:+ port else host +:+ ":" +:+ port.

Definition ms (x : Z) : Z := x * 1000000.

(** A slice to the end. *)
Definition from {S} (o : Z) (b : list Z) : SE S (list Z) := sub o (len b - o) b.
(** [binary.BigEndian.Uint32(b[o:o+4])] *)
Definition word {S} (o : Z) (b : list Z) : SE S Z := d ← sub o 4 b; mret (beVal d).

Section Client.
Context {S : Type} {N : Net S}.

(** xdrBuf.opaque pads the whole buffer. *)
Definition opaque (b p : list Z) : list Z :=
  let b := b ++ putU32 (len p) ++ p in b ++ replicate (pad4 (length b)) 0.

(** [fuel] bounds the fragments of a reply, which the call's deadline ends. *)
Fixpoint readFragments (fuel : nat) (c : Z) (reply : list Z) : SE S (list Z) :=
  match fuel with
  | O => outOfFuel
  | Datatypes.S fuel =>
      r ← attempt (net_read c 4);
      match r with
      | inr e => fail (EWrap "vxi11: read record mark: %w" [] e)
      | inl rm =>
          h ← word 0 rm;
          let size := h .& 0x7fffffff in
          guard (maxReply <? len reply + size) (EMsg "vxi11: reply over %d bytes" [maxReply]);;
          r ← attempt (net_read c size);
          match r with
          | inr e => fail (EWrap "vxi11: read fragment: %w" [] e)
          | inl d => if has h 0x80000000 then mret (reply ++ d) else readFragments fuel c (reply ++ d)
          end
      end
  end.
Definition readRPCRecord (fuel : nat) (c : Z) : SE S (list Z) := readFragments fuel c [].

(** A call's record: AUTH_NULL, then the arguments. *)
Definition callMsg (xid prog vers proc : Z) (args : list Z) : list Z :=
  putU32 xid ++ putU32 0 ++ putU32 2 ++ putU32 prog ++ putU32 vers ++ putU32 proc ++
  putU32 0 ++ putU32 0 ++ putU32 0 ++ putU32 0 ++ args.

(** Replies to earlier calls, [left_] of them at most, are read past. *)
Fixpoint ownReply (left_ : nat) (fuel : nat) (c xid : Z) : SE S (list Z) :=
  r ← readRPCRecord fuel c;
  guard (len r <? 24) (EMsg "vxi11: short reply (%d bytes)" [len r]);;
  x ← word 0 r;
  if x =? xid then mret r
  else
    match left_ with
    | O => failMsg "vxi11: xid mismatch" []
    | Datatypes.S left_ => ownReply left_ fuel c xid
    end.

Definition rpcResults (reply : list Z) : SE S (list Z) :=
  t ← word 4 reply;
  guard (negb (t =? 1)) (EMsg "vxi11: not a reply" []);;
  a ← word 8 reply;
  guard (negb (a =? 0)) (EMsg "vxi11: rpc denied" []);;
  verfLen ← word 16 reply;
  guard (maxAuthBody <? verfLen) (EMsg "vxi11: verifier of %d bytes" [verfLen]);;
  let off := 20 + Z.quot (verfLen + 3) 4 * 4 in
  guard (len reply <? off + 4) (EMsg "vxi11: truncated reply" []);;
  st ← word off reply;
  guard (negb (st =? 0)) (EMsg "vxi11: accept_stat=%d" [st]);;
  from (off + 4) reply.

Definition rpcCall (fuel : nat) (c timeout prog vers proc : Z) (args : list Z) : SE S (list Z) :=
  now ← net_now;
  let xid := u32 now in
  now ← net_now;
  ignore (net_deadline c (now + timeout));;
  r ← errOf (net_write c (marked (callMsg xid prog vers proc args)));
  match r with
  | Some e => fail (EWrap "vxi11: write: %w" [] e)
  | None => reply ← ownReply maxStale fuel c xid; rpcResults reply
  end.

Record Client := MkClient { c_conn : Z; c_lid : Z; c_timeout : Z }.

Definition linkArgs : list Z := opaque (putU32 1 ++ putU32 0 ++ putU32 0) (text "inst0").

(** create_link, [tries] times more; the last error when none succeeds. *)
Fixpoint createLoop (tries : nat) (fuel : nat) (c timeout : Z) (last : option err) : SE S Client :=
  match tries with
  | O => ignore (net_close c);; (match last with Some e => fail e | None => panic end)
  | Datatypes.S tries =>
      r ← attempt (rpcCall fuel c timeout coreProg coreVers procCreateLink linkArgs);
      let again e := net_sleep (ms 500);; createLoop tries fuel c timeout (Some e) in
      match r with
      | inr e => again e
      | inl res =>
          if len res <? 16 then again (EMsg "vxi11: create_link short result" [])
          else
            e ← word 0 res;
            if negb (e =? 0) then again (EMsg "vxi11: create_link error %d (stale link?)" [e])
            else id ← word 4 res; mret (MkClient c id timeout)
      end
  end.

Definition DialAt (fuel : nat) (pmAddr host : string) (timeout : Z) : SE S Client :=
  r ← attempt (net_dial pmAddr);
  match r with
  | inr e => fail (EWrap "vxi11: portmap dial: %w" [] e)
  | inl pm =>
      r ← attempt (rpcCall fuel pm timeout pmapProg pmapVers pmapGetport
                     (putU32 coreProg ++ putU32 coreVers ++ putU32 ipprotoTCP ++ putU32 0));
      ignore (net_close pm);;
      match r with
      | inr e => fail (EWrap "vxi11: GETPORT: %w" [] e)
      | inl res =>
          guard (len res <? 4) (EMsg "vxi11: GETPORT short result" []);;
          port ← word 0 res;
          guard ((port =? 0) || (65535 <? port)) (EMsg "vxi11: DEVICE_CORE not registered (port=%d)" [port]);;
          r ← attempt (net_dial (JoinHostPort host (pretty port)));
          match r with
          | inr e => fail (EWrap "vxi11: core dial :%d: %w" [port] e)
          | inl c => createLoop 3 fuel c timeout None
          end
      end
  end.
Definition Dial (fuel : nat) (host : string) (timeout : Z) : SE S Client := DialAt fuel (JoinHostPort host "111") host timeout.

(** A line, its newline appended if missing. *)
Definition lineOf (cmd : list Z) : list Z := if decide (cmd <> [] /\ List.last cmd 0 = 10) then cmd else cmd ++ [10].
Definition sendArgs (c : Client) (cmd : list Z) : list Z :=
  opaque (putU32 (c_lid c) ++ putU32 5000 ++ putU32 0 ++ putU32 flagEnd) (lineOf cmd).

Definition Send (fuel : nat) (c : Client) (cmd : list Z) : SE S unit :=
  res ← rpcCall fuel (c_conn c) (c_timeout c) coreProg coreVers procDeviceWrite (sendArgs c cmd);
  if 4 <=? len res then
    e ← word 0 res;
    guard (negb (e =? 0)) (EMsg "vxi11: device_write error %d" [e])
  else mret tt.

Definition requestSize : Z := 0x400000.
Definition readArgs (c : Client) : list Z :=
  putU32 (c_lid c) ++ putU32 requestSize ++ putU32 5000 ++ putU32 0 ++ putU32 0 ++ putU32 0.

(** [turns] more device_reads; beside an error what came is dropped. *)
Fixpoint queryLoop (turns : nat) (fuel : nat) (c : Client) (out : list Z) : SE S (list Z) :=
  match turns with
  | O => mret out
  | Datatypes.S turns =>
      res ← rpcCall fuel (c_conn c) (c_timeout c) coreProg coreVers procDeviceRead (readArgs c);
      guard (len res <? 12) (EMsg "vxi11: device_read short result" []);;
      e ← word 0 res;
      reason ← word 4 res;
      data ← from 12 res;
      n ← word 8 res;
      data ← (if n <? len data then sub 0 n data else mret data);
      let out := out ++ data in
      guard (negb (e =? 0)) (EMsg "vxi11: device_read error %d" [e]);;
      if has reason readReasonMask then mret out else queryLoop turns fuel c out
  end.

Definition Query (fuel : nat) (c : Client) (cmd : list Z) : SE S (list Z) :=
  Send fuel c cmd;; queryLoop 64 fuel c [].

Definition Close (fuel : nat) (c : Client) : SE S unit :=
  ignore (rpcCall fuel (c_conn c) (c_timeout c) coreProg coreVers procDestroyLink (putU32 (c_lid c)));;
  ignore (net_close (c_conn c)).
End Client.

(** ** Whatever answers, the client holds *)

(** A run never panics, and what it returns satisfies [R]. *)
Definition tame {S A} (m : SE S A) (R : A -> Prop) : Prop :=
  forall s, match (m s).1 with Ret a => R a | Panic => False | _ => True end.

Section Tame.
Context {S : Type}.

Lemma tame_bind {A B} (m : SE S A) (f : A -> SE S B) Q R : tame m Q -> (forall a, Q a -> tame (f a) R) -> tame (m ≫= f) R.
Proof using.
  intros Hm Hf s. specialize (Hm s). unfold mbind, SE_bind. destruct (m s) as [[a|e| |] s']; simpl in *; try done.
  by apply Hf.
Qed.
Lemma tame_ret {A} (a : A) (R : A -> Prop) : R a -> tame (S := S) (mret a) R.
Proof using. by intros Ha s. Qed.
Lemma tame_attempt {A} (m : SE S A) (Q : A -> Prop) (R : A + err -> Prop) :
  tame m Q -> (forall a, Q a -> R (inl a)) -> (forall e, R (inr e)) -> tame (attempt m) R.
Proof using.
  intros Hm Hl Hr s. specialize (Hm s). unfold attempt. destruct (m s) as [[a|e| |] s']; simpl in *; auto.
Qed.
Lemma tame_quiet {A} (m : SE S A) R : quiet m R -> tame m R.
Proof using. intros Hm s. specialize (Hm s). by destruct (m s).1. Qed.
Lemma tame_mono {A} (m : SE S A) (Q R : A -> Prop) : tame m Q -> (forall a, Q a -> R a) -> tame m R.
Proof using. intros Hm H s. specialize (Hm s). destruct (m s).1; auto. Qed.
Lemma tame_fail {A} e (R : A -> Prop) : tame (S := S) (fail e) R.
Proof using. by intros s. Qed.
Lemma tame_guard {B} b e (f : unit -> SE S B) R : (b = false -> tame (f tt) R) -> tame (guard b e ≫= f) R.
Proof using. intros H. destruct b; [by intros s|]. exact (H eq_refl). Qed.
Lemma tame_ignore {A B} (m : SE S A) (f : unit -> SE S B) Q R : tame m Q -> tame (f tt) R -> tame (ignore m ≫= f) R.
Proof using.
  intros Hm Hf. apply (tame_bind _ _ (fun _ => True)); [|by intros [] _]. unfold ignore. apply (tame_bind _ _ (fun _ => True)).
  - by apply (tame_attempt m Q (fun _ => True)).
  - intros _ _. by apply tame_ret.
Qed.

(** Slices within what came. *)
Lemma tame_sub o n b (R : list Z -> Prop) :
  0 <= o -> 0 <= n -> o + n <= len b -> (forall d, len d = n -> (isBytes b -> isBytes d) -> R d) -> tame (S := S) (sub o n b) R.
Proof using.
  intros Ho Hn Hl HR s. unfold sub.
  rewrite (proj2 (Z.leb_le 0 o)), (proj2 (Z.leb_le 0 n)), (proj2 (Z.leb_le (o + n) (len b))) by done. simpl. apply HR.
  - unfold len in *. rewrite length_slice; lia.
  - apply isBytes_slice.
Qed.
Lemma tame_from o b (R : list Z -> Prop) :
  0 <= o <= len b -> (forall d, len d = len b - o -> (isBytes b -> isBytes d) -> R d) -> tame (S := S) (from o b) R.
Proof using. intros Ho HR. apply tame_sub; [lia..|done]. Qed.
Lemma tame_word o b (R : Z -> Prop) :
  0 <= o -> o + 4 <= len b -> isBytes b -> (forall v, fits 32 v -> R v) -> tame (S := S) (word o b) R.
Proof using.
  intros Ho Hl Hb HR. unfold word. apply (tame_bind _ _ (fun d => len d = 4 /\ isBytes d)).
  - apply tame_sub; [lia..|auto].
  - intros d [Hd Hbd]. apply tame_ret, HR. pose proof (beVal_bound d Hbd) as H. unfold len in Hd.
    by replace (8 * Z.of_nat (length d)) with 32 in H by lia.
Qed.
End Tame.

Section Safe.
Context {S : Type} {N : Net S} {NK : NetOk S}.

(** What a record read may be. *)
Definition record (r : list Z) : Prop := isBytes r /\ len r <= maxReply.

Lemma land31_range h : 0 <= h .& 0x7fffffff.
Proof using. change 0x7fffffff with (Z.ones 31). rewrite Z.land_ones by lia. apply Z.mod_pos_bound. lia. Qed.

Lemma tame_readFragments fuel c reply : record reply -> tame (readFragments fuel c reply) record.
Proof using NK.
  revert reply. induction fuel as [|fuel IH]; intros reply [Hb Hl]; [by intros s|]. cbn [readFragments].
  eapply tame_bind; [apply (tame_attempt _ (fun d => len d = 4 /\ isBytes d) (fun r => match r with inl d => len d = 4 /\ isBytes d | _ => True end))|].
  { apply tame_quiet, read_ok. lia. }
  { done. }
  { done. }
  intros [rm|e] Hrm; [|apply tame_fail]. destruct Hrm as [Hrl Hrb].
  eapply (tame_bind _ _ (fun _ => True)); [apply tame_word; [lia|lia|done|done]|]. intros h _. cbv zeta.
  pose proof (land31_range h) as H0. apply tame_guard. intros Hg%Z.ltb_ge.
  eapply tame_bind; [apply (tame_attempt _ (fun d => len d = h .& 0x7fffffff /\ isBytes d) (fun r => match r with inl d => len d = h .& 0x7fffffff /\ isBytes d | _ => True end))|].
  { by apply tame_quiet, read_ok. }
  { done. }
  { done. }
  intros [d|e] Hd; [|apply tame_fail]. destruct Hd as [Hdl Hdb].
  assert (record (reply ++ d)) as Hr.
  { split; [by apply Forall_app|]. unfold len in *. rewrite length_app. lia. }
  destruct (has h 0x80000000); [by apply tame_ret|by apply IH].
Qed.

Lemma tame_ownReply left_ fuel c xid : tame (ownReply left_ fuel c xid) (fun r => record r /\ 24 <= len r).
Proof using NK.
  induction left_ as [|n IH]; cbn [ownReply]; (eapply tame_bind;
    [apply tame_readFragments; split; [constructor|done]|]); intros r [Hb Hl]; apply tame_guard; intros Hg%Z.ltb_ge;
    (eapply (tame_bind _ _ (fun _ => True)); [apply tame_word; [lia|lia|done|done]|]); intros x _;
    (destruct (x =? xid); [by apply tame_ret|]); [apply tame_fail|apply IH].
Qed.

Lemma tame_rpcResults r : record r -> 24 <= len r -> tame (S := S) (rpcResults r) record.
Proof using.
  intros [Hb Hl] H24. unfold rpcResults.
  eapply (tame_bind _ _ (fun _ => True)); [apply tame_word; [lia|lia|done|done]|]. intros t _. apply tame_guard. intros _.
  eapply (tame_bind _ _ (fun _ => True)); [apply tame_word; [lia|lia|done|done]|]. intros a _. apply tame_guard. intros _.
  eapply (tame_bind _ _ (fits 32)); [apply tame_word; [lia|lia|done|auto]|]. intros v [Hv _]. apply tame_guard. intros _.
  cbv zeta. set (off := 20 + Z.quot (v + 3) 4 * 4).
  assert (0 <= off) as Ho by (pose proof (Z.quot_pos (v + 3) 4 ltac:(lia) ltac:(lia)); lia). clearbody off.
  apply tame_guard. intros Hg%Z.ltb_ge. eapply (tame_bind _ _ (fun _ => True)); [apply tame_word; [lia|lia|done|done]|].
  intros st _. apply tame_guard. intros _. apply tame_from; [lia|]. intros d Hd Hbd. split; [auto|lia].
Qed.

Lemma tame_rpcCall fuel c t prog vers proc args : tame (rpcCall fuel c t prog vers proc args) record.
Proof using NK.
  unfold rpcCall. eapply tame_bind; [apply tame_quiet, now_ok|]. intros n1 _. eapply tame_bind; [apply tame_quiet, now_ok|].
  intros n2 _. eapply tame_ignore; [apply tame_quiet, deadline_ok|].
  eapply (tame_bind _ _ (fun _ => True)).
  { unfold errOf. eapply (tame_bind _ _ (fun _ => True)); [|by intros r _ s].
    by apply (tame_attempt _ (fun _ => True)); [apply tame_quiet, write_ok|..]. }
  intros [e|] _; [apply tame_fail|]. eapply tame_bind; [apply tame_ownReply|]. intros r [Hr H24]. by apply tame_rpcResults.
Qed.

Lemma tame_call fuel c t prog vers proc args : tame (attempt (rpcCall fuel c t prog vers proc args)) (fun r => match r with inl d => record d | _ => True end).
Proof using NK. apply (tame_attempt _ record); [apply tame_rpcCall|done|done]. Qed.

Lemma tame_createLoop tries fuel c t last :
  (tries = O -> last <> None) -> tame (createLoop tries fuel c t last) (fun cl => c_conn cl = c /\ c_timeout cl = t /\ fits 32 (c_lid cl)).
Proof using NK.
  revert last. induction tries as [|n IH]; intros last Hlast; cbn [createLoop].
  { eapply tame_ignore; [apply tame_quiet, close_ok|]. destruct last; [apply tame_fail|]. by destruct Hlast. }
  eapply tame_bind; [apply tame_call|]. intros r Hr. cbv zeta.
  assert (forall e, tame (net_sleep (ms 500);; createLoop n fuel c t (Some e))
    (fun cl => c_conn cl = c /\ c_timeout cl = t /\ fits 32 (c_lid cl))) as Hagain.
  { intros e. eapply tame_bind; [apply tame_quiet, sleep_ok|]. intros _ _. by apply IH. }
  destruct r as [res|e]; [|apply Hagain]. destruct Hr as [Hb _]. destruct (Z.ltb_spec (len res) 16); [apply Hagain|].
  eapply (tame_bind _ _ (fun _ => True)); [apply tame_word; [lia|lia|done|done]|]. intros e _.
  destruct (negb (e =? 0)); [apply Hagain|]. eapply (tame_bind _ _ (fits 32)); [apply tame_word; [lia|lia|done|auto]|].
  intros id Hid. by apply tame_ret.
Qed.

Lemma tame_Dial fuel host t : tame (Dial fuel host t) (fun cl => fits 32 (c_lid cl)).
Proof using NK.
  unfold Dial, DialAt. eapply (tame_bind _ _ (fun _ => True)).
  { by apply (tame_attempt _ (fun _ => True)); [apply tame_quiet, dial_ok|..]. }
  intros [pm|e] _; [|apply tame_fail]. eapply tame_bind; [apply tame_call|]. intros r Hr.
  eapply tame_ignore; [apply tame_quiet, close_ok|]. destruct r as [res|e]; [|apply tame_fail]. destruct Hr as [Hb _].
  apply tame_guard. intros Hg%Z.ltb_ge. eapply (tame_bind _ _ (fun _ => True)); [apply tame_word; [lia|lia|done|done]|].
  intros port _. apply tame_guard. intros _. eapply (tame_bind _ _ (fun _ => True)).
  { by apply (tame_attempt _ (fun _ => True)); [apply tame_quiet, dial_ok|..]. }
  intros [c|e] _; [|apply tame_fail]. eapply tame_mono; [by apply tame_createLoop|]. by intros cl (_ & _ & H).
Qed.

Lemma tame_Send fuel c cmd : tame (Send fuel c cmd) (fun _ => True).
Proof using NK.
  unfold Send. eapply tame_bind; [apply tame_rpcCall|]. intros res [Hb _]. destruct (Z.leb_spec 4 (len res)); [|by apply tame_ret].
  eapply (tame_bind _ _ (fun _ => True)); [apply tame_word; [lia|lia|done|done]|]. intros e _. by destruct (negb (e =? 0)); intros s.
Qed.

Lemma tame_queryLoop turns fuel c out :
  isBytes out -> tame (queryLoop turns fuel c out) (fun d => isBytes d /\ len d <= len out + Z.of_nat turns * maxReply).
Proof using NK.
  revert out. induction turns as [|n IH]; intros out Hb.
  { apply tame_ret. split; [done|lia]. }
  cbn [queryLoop]. eapply tame_bind; [apply tame_rpcCall|]. intros res [Hrb Hrl]. apply tame_guard. intros Hg%Z.ltb_ge.
  eapply (tame_bind _ _ (fun _ => True)); [apply tame_word; [lia|lia|done|done]|]. intros e _.
  eapply (tame_bind _ _ (fun _ => True)); [apply tame_word; [lia|lia|done|done]|]. intros reason _.
  eapply (tame_bind _ _ (fun d => len d = len res - 12 /\ isBytes d)).
  { apply tame_from; [lia|]. auto. }
  intros data [Hdl Hdb]. eapply (tame_bind _ _ (fits 32)); [apply tame_word; [lia|lia|done|auto]|]. intros k [Hk _].
  eapply (tame_bind _ _ (fun d => isBytes d /\ len d <= len data)).
  { destruct (Z.ltb_spec k (len data)); [|apply tame_ret; split; [done|lia]]. apply tame_sub; [lia..|].
    intros d Hd Hbd. split; [auto|lia]. }
  intros d [Hdb' Hdl']. cbv zeta. apply tame_guard. intros _.
  assert (isBytes (out ++ d) /\ len (out ++ d) <= len out + maxReply) as [Hob Hol].
  { split; [by apply Forall_app|]. unfold len in *. rewrite length_app. lia. }
  destruct (has reason readReasonMask).
  - apply tame_ret. split; [done|]. unfold maxReply in *. lia.
  - eapply tame_mono; [by apply IH|]. intros a [H1 H2]. split; [done|]. unfold maxReply in *. lia.
Qed.

End Safe.
