(* ===== verification/Vxi11Run.v ===== *)
(** * The LAN client against the LAN server

    The client of src/ota (vxi11.go) and the server of src/app (server.go) over
    a connection: what one encodes the other decodes, a line sent in any pieces
    reaches the handler whole, and a query returns the handler's reply. *)
From stdpp Require Import gmap relations.
From S2P Require Import Prelude Machine Xdr Vxi11Srv Vxi11Lan Vxi11.

(** ** A connection's program by itself *)

Section Exec.
Context {W : GoInt} (h : list (list Z) -> list Z -> list Z) (i : Z).

(** The server, and the history, as a program that no other comes between
    leaves them; None when it panics. *)
Fixpoint exec {A} (p : prog A) (s : Server) (ev : list lanEvent) : option (A * (Server * list lanEvent)) :=
  match p with
  | Done a => Some (a, (s, ev))
  | Crashed => None
  | Locked f k => exec (k s) (f s) (ev ++ linkEvent i s (f s))
  | Handle line k => exec (k (h (linesOf ev) line)) s (ev ++ [Line i line])
  | Sleep _ k => exec k s ev
  end.

Lemma exec_bind {A B} (m : prog A) (f : A -> prog B) s ev :
  exec (m ≫= f) s ev = match exec m s ev with Some (a, (s', ev')) => exec (f a) s' ev' | None => None end.
Proof using. revert s ev. induction m as [a| |g k IH|line k IH|ms k IH]; intros s ev; simpl; auto. Qed.

(** It is a run of the whole server. *)
Lemma exec_steps p s ev r s' ev' b ts n out :
  exec p s ev = Some (r, (s', ev')) -> ts !! i = Some (Serving p b) ->
  rtc (step h) (MkLan s ev ts n out) (MkLan s' ev' (<[i := Serving (Done r) b]> ts) n out).
Proof using.
  revert s ev ts. induction p as [a| |f k IH|line k IH|ms k IH]; intros s ev ts; simpl.
  - intros [= <- <- <-] Ht. rewrite (insert_id ts i _ Ht). apply rtc_refl.
  - done.
  - intros He Ht. eapply rtc_l; [by eapply st_locked|]. unfold putTask, section. simpl.
    rewrite <- (insert_insert_eq ts i (Serving (Done r) b) (Serving (k s) b)).
    apply (IH s (f s) (ev ++ linkEvent i s (f s))); [exact He|]. by rewrite lookup_insert_eq.
  - intros He Ht. eapply rtc_l; [by eapply st_handle|]. unfold putTask, called. simpl.
    rewrite <- (insert_insert_eq ts i (Serving (Done r) b) (Serving (k (h (linesOf ev) line)) b)).
    apply (IH (h (linesOf ev) line) s (ev ++ [Line i line])); [exact He|]. by rewrite lookup_insert_eq.
  - intros He Ht. eapply rtc_l; [by eapply st_sleep|]. unfold putTask. simpl.
    rewrite <- (insert_insert_eq ts i (Serving (Done r) b) (Serving k b)).
    apply (IH s ev); [exact He|]. by rewrite lookup_insert_eq.
Qed.
End Exec.

(** ** What the client encodes, the server reads *)

Section Parse.
Context {W : GoInt}.

(** The bytes not read yet. *)
Definition rests (x : xdr) (suf : list Z) : Prop :=
  xok x /\ x_err x = false /\ drop (Z.to_nat (x_off x)) (x_b x) = suf.
Definition parses {A} (m : SE xdr A) (d : list Z) (a : A) : Prop :=
  forall x suf, rests x (d ++ suf) -> exists x', m x = (Ret a, x') /\ rests x' suf.

Lemma parses_bind {A B} (m : SE xdr A) (f : A -> SE xdr B) d d' a b :
  parses m d a -> parses (f a) d' b -> parses (m ≫= f) (d ++ d') b.
Proof using.
  intros Hm Hf x suf Hx. rewrite <- app_assoc in Hx. destruct (Hm _ _ Hx) as (x1 & H1 & Hx1).
  destruct (Hf _ _ Hx1) as (x2 & H2 & Hx2). exists x2. split; [|done]. by rewrite (bind_Ret _ _ _ _ _ H1).
Qed.
Lemma parses_last {A B} (m : SE xdr A) (f : A -> B) d a : parses m d a -> parses (a ← m; mret (f a)) d (f a).
Proof using. intros Hm. rewrite <- (app_nil_r d). apply (parses_bind _ _ _ _ a); [done|]. intros x suf Hx. by exists x. Qed.

(** Past [n] bytes. *)
Lemma rests_advance x d suf :
  rests x (d ++ suf) -> rests (advance (asInt (x_off x + len d)) x) suf /\ x_off x + len d <= len (x_b x) /\
  slice (Z.to_nat (x_off x)) (length d) (x_b x) = d.
Proof using.
  intros (Hx & He & Hd). pose proof Hx as (Hb & Hl & Ho).
  assert (x_off x + len d <= len (x_b x)) as Hle.
  { apply (f_equal length) in Hd. rewrite length_drop, length_app in Hd. unfold len in *. lia. }
  assert (0 <= len d) as H0 by (unfold len; lia). rewrite asInt_31 by lia.
  split; [|split; [done|]].
  - split; [split; [done|]; split; [done|]; simpl; lia|]. split; [done|]. simpl.
    replace (Z.to_nat (x_off x + len d)) with (Z.to_nat (x_off x) + length d)%nat by (unfold len; lia).
    rewrite <- drop_drop, Hd. by rewrite drop_app_length.
  - unfold slice. rewrite Hd. by rewrite take_app_length.
Qed.

Lemma parses_u32 v : fits 32 v -> parses xU32 (putU32 v) v.
Proof using.
  intros Hv x suf Hx. pose proof (rests_advance _ _ _ Hx) as (Hx' & Hle & Hs). pose proof Hx as ((Hb & Hl & Ho) & _).
  assert (len (putU32 v) = 4) as H4 by (unfold len; by rewrite length_putU32). rewrite H4 in *. rewrite length_putU32 in Hs.
  unfold xU32, mbind, SE_bind, gets. assert (asInt (x_off x + 4) = x_off x + 4) as Ha by (apply asInt_31; lia).
  rewrite Ha in *. rewrite (proj2 (Z.ltb_ge (len (x_b x)) (x_off x + 4))) by done. rewrite sub_ok by lia.
  eexists. split; [|exact Hx']. unfold modify, mret, SE_ret. f_equal. f_equal.
  change (Z.to_nat 4) with 4%nat. rewrite Hs. by apply beVal_putU32.
Qed.

Lemma padded_pad4 n : 0 <= n -> n + 3 < 2 ^ 31 -> padded n = n + Z.of_nat (pad4 (Z.to_nat n)).
Proof using.
  intros Hn Hl. unfold padded, pad4. rewrite asInt_31 by lia. rewrite (Z2Nat.id n) by done.
  change 3 with (Z.ones 2) at 2. rewrite Z.ldiff_ones_r, Z.shiftr_div_pow2, Z.shiftl_mul_pow2 by lia. change (2 ^ 2) with 4.
  pose proof (Z.mod_pos_bound (4 - n mod 4) 4). rewrite Z2Nat.id by lia.
  pose proof (Z.div_mod n 4 ltac:(lia)) as E. pose proof (Z.mod_pos_bound n 4 ltac:(lia)) as Hr.
  set (q := n / 4) in *. set (r := n mod 4) in *. clearbody q r. subst n.
  assert (r = 0 \/ r = 1 \/ r = 2 \/ r = 3) as [->|[->|[->| ->]]] by lia.
  - replace (4 * q + 0 + 3) with (q * 4 + 3) by lia. rewrite Z.div_add_l by lia. change (3 / 4) with 0. change ((4 - 0) mod 4) with 0. lia.
  - replace (4 * q + 1 + 3) with ((q + 1) * 4 + 0) by lia. rewrite Z.div_add_l by lia. change (0 / 4) with 0. change ((4 - 1) mod 4) with 3. lia.
  - replace (4 * q + 2 + 3) with ((q + 1) * 4 + 1) by lia. rewrite Z.div_add_l by lia. change (1 / 4) with 0. change ((4 - 2) mod 4) with 2. lia.
  - replace (4 * q + 3 + 3) with ((q + 1) * 4 + 2) by lia. rewrite Z.div_add_l by lia. change (2 / 4) with 0. change ((4 - 3) mod 4) with 1. lia.
Qed.

Lemma parses_opaque d : len d < 2 ^ 30 -> parses xOpaque (putOpaque d) d.
Proof using.
  intros Hd x suf Hx. unfold putOpaque in Hx. rewrite <- app_assoc in Hx. assert (0 <= len d) as H0 by (unfold len; lia).
  destruct (parses_u32 (len d) ltac:(unfold fits; lia) x _ Hx) as (x1 & H1 & Hx1).
  unfold xOpaque. rewrite (bind_Ret _ _ _ _ _ H1). pose proof Hx1 as ((Hb & Hl & Ho) & He & _).
  pose proof (rests_advance _ _ _ Hx1) as (Hx' & Hle & Hs).
  rewrite <- app_assoc in Hx1. pose proof (rests_advance _ _ _ Hx1) as (_ & Hle1 & Hs1).
  unfold mbind, SE_bind, gets. rewrite (asInt_31 (len d)) by lia. rewrite asInt_31 by (unfold len in *; lia). rewrite He. cbn [orb].
  rewrite (proj2 (Z.ltb_ge (len d) 0)) by done. rewrite (proj2 (Z.ltb_ge _ _)) by lia. cbn [orb]. cbv iota. rewrite sub_ok by lia.
  assert (len (d ++ replicate (pad4 (length d)) 0) = padded (len d)) as Hp.
  { rewrite padded_pad4 by lia. unfold len. rewrite length_app, length_replicate, Nat2Z.id. lia. }
  rewrite Hp in *. assert (len d <= padded (len d)) by (rewrite <- Hp; unfold len; rewrite length_app; lia).
  rewrite (proj2 (Z.ltb_ge (padded (len d)) (len d))) by done. rewrite (proj2 (Z.ltb_ge _ _)) by lia. cbn [orb]. cbv iota.
  eexists. split; [|exact Hx']. unfold modify, mret, SE_ret. f_equal. f_equal. unfold len. by rewrite Nat2Z.id.
Qed.
End Parse.

(** ** Lines *)

(** The whole lines of [buf] after [part], and what is left. *)
Fixpoint cutLines (part buf : list Z) : list (list Z) * list Z :=
  match buf with
  | [] => ([], part)
  | c :: buf => if c =? 10 then let r := cutLines [] buf in ((part ++ [10]) :: r.1, r.2) else cutLines (part ++ [c]) buf
  end.

Lemma cutLines_app part a b :
  cutLines part (a ++ b) =
  let r := cutLines part a in let r' := cutLines r.2 b in (r.1 ++ r'.1, r'.2).
Proof.
  revert part. induction a as [|c a IH]; intros part; simpl; [by destruct (cutLines part b)|].
  destruct (c =? 10); simpl; [by rewrite IH|apply IH].
Qed.
Lemma cutLines_part part p : 10 ∉ p -> cutLines part p = ([], part ++ p).
Proof.
  revert part. induction p as [|c p IH]; intros part Hp; simpl; [by rewrite app_nil_r|].
  apply not_elem_of_cons in Hp as [Hc Hp]. rewrite (proj2 (Z.eqb_neq c 10)) by done. by rewrite IH, <- app_assoc.
Qed.
Lemma cutLines_rest part buf : 10 ∉ part -> 10 ∉ (cutLines part buf).2.
Proof.
  revert part. induction buf as [|c buf IH]; intros part Hp; simpl; [done|].
  destruct (Z.eqb_spec c 10); [apply IH, not_elem_of_nil|]. apply IH. rewrite elem_of_app, elem_of_cons.
  intros [?|[?|?%elem_of_nil]]; congruence.
Qed.
Lemma cutLines_ended part d : (cutLines part (d ++ [10])).2 = [].
Proof. rewrite cutLines_app. done. Qed.

Section Answers.
Context (h : list (list Z) -> list Z -> list Z).

(** The handler's replies to lines, one after the other. *)
Fixpoint answers (past ls : list (list Z)) : list Z :=
  match ls with
  | [] => []
  | l :: ls => h past l ++ answers (past ++ [l]) ls
  end.
Lemma answers_app past a b : answers past (a ++ b) = answers past a ++ answers (past ++ a) b.
Proof using.
  revert past. induction a as [|l a IH]; intros past; simpl; [by rewrite app_nil_r|]. by rewrite IH, <- !app_assoc.
Qed.
Lemma isBytes_answers past ls : (forall p l, isBytes (h p l)) -> isBytes (answers past ls).
Proof using. intros Hh. revert past. induction ls as [|l ls IH]; intros past; simpl; [constructor|]. apply Forall_app_2; [apply Hh|apply IH]. Qed.
End Answers.

Lemma linesOf_app l l' : linesOf (l ++ l') = linesOf l ++ linesOf l'.
Proof. apply omap_app. Qed.
Lemma linesOf_lines i ls : linesOf (map (Line i) ls) = ls.
Proof. induction ls as [|l ls IH]; [done|]. simpl. unfold linesOf in *. simpl. by rewrite IH. Qed.

(** ** One request *)

(** The arguments of device_write and device_read. *)
Definition writeWire (id flags : Z) (d : list Z) : list Z := putU32 id ++ putU32 5000 ++ putU32 0 ++ putU32 flags ++ putOpaque d.
Definition readWire (id size : Z) : list Z := putU32 id ++ putU32 size ++ putU32 5000 ++ putU32 0 ++ putU32 0 ++ putU32 0.

(** What the end of a message adds: its unfinished line, if any. *)
Definition finish (final : bool) (r : list (list Z) * list Z) : list (list Z) * list Z :=
  if final && bool_decide (r.2 <> []) then (r.1 ++ [r.2 ++ [10]], []) else r.

Section Request.
Context {W : GoInt} (h : list (list Z) -> list Z -> list Z) (i : Z).

Definition header (xid prog vers proc : Z) : list Z :=
  putU32 xid ++ putU32 0 ++ putU32 2 ++ putU32 prog ++ putU32 vers ++ putU32 proc ++ putU32 0 ++ putU32 0 ++ putU32 0 ++ putU32 0.
Lemma callMsg_header xid prog vers proc args : callMsg xid prog vers proc args = header xid prog vers proc ++ args.
Proof using. unfold callMsg, header. by rewrite <- !app_assoc. Qed.

Lemma parses_skipAuth : parses skipAuth (putU32 0 ++ putU32 0) tt.
Proof using.
  unfold skipAuth. apply (parses_bind _ _ _ _ 0); [by apply parses_u32|]. rewrite <- (app_nil_r (putU32 0)).
  apply (parses_bind _ _ _ _ 0); [by apply parses_u32|]. intros x suf Hx. pose proof Hx as ((Hb & Hl & Ho) & He & Hd).
  unfold mbind, SE_bind, gets. change (asInt 0) with 0 || rewrite (asInt_31 0) by lia.
  assert (padded 0 = 0) as Hp by (rewrite padded_pad4 by lia; done). rewrite Hp, He.
  rewrite asInt_31 by (unfold len in *; lia). rewrite (proj2 (Z.ltb_ge (len (x_b x) - x_off x) 0)) by (unfold len in *; lia).
  cbn [orb Z.ltb Z.compare]. rewrite asInt_31 by (unfold len in *; lia). eexists. split; [reflexivity|].
  simpl in Hx. rewrite Z.add_0_r. by destruct x.
Qed.

Lemma parses_header xid prog vers proc :
  fits 32 xid -> fits 32 prog -> fits 32 vers -> fits 32 proc ->
  parses callHeader (header xid prog vers proc) (Some (xid, prog, proc)).
Proof using.
  intros H1 H2 H3 H4. unfold callHeader, header. assert (fits 32 0 /\ fits 32 2) as [H5 H6] by (split; unfold fits; lia).
  eapply parses_bind; [by apply parses_u32|]. eapply parses_bind; [by apply parses_u32|]. cbn [Z.eqb negb].
  do 4 (eapply parses_bind; [by apply parses_u32|]). rewrite (app_assoc (putU32 0) (putU32 0)).
  eapply parses_bind; [apply parses_skipAuth|]. apply (parses_last _ (fun _ => Some (xid, prog, proc)) _ tt), parses_skipAuth.
Qed.

(** A core call reaches its procedure with its arguments. *)
Lemma serveRecord_call c xid proc args :
  fits 32 xid -> fits 32 proc -> isBytes args -> len args < 2 ^ 30 ->
  exists x, rests x args /\
    serveRecord i c (callMsg xid coreProg coreVers proc args) = (r ← dispatch i proc c x; mret (r.1, Some (replyTo xid r.2))).
Proof using.
  intros Hx Hp Hb Hl. rewrite callMsg_header. set (hd := header xid coreProg coreVers proc).
  assert (isBytes hd /\ len hd = 40) as [Hhb Hhl].
  { split; [unfold hd, header; wire_bytes|]. unfold hd, header, len. by rewrite !length_app, !length_putU32. }
  assert (rests (MkXdr (hd ++ args) 0 false) (hd ++ args)) as H0.
  { split; [|done]. split; [by apply isBytes_app|]. cbn [x_b x_off]. unfold len in *. rewrite length_app. lia. }
  destruct (parses_header xid coreProg coreVers proc Hx ltac:(unfold fits, coreProg; lia) ltac:(unfold fits, coreVers; lia) Hp _ _ H0) as (x & H1 & H2).
  exists x. split; [done|]. unfold serveRecord. rewrite H1. by change (coreProg =? progCore) with true.
Qed.

Lemma exec_lineLoop part buf pend s ev :
  exec h i (lineLoop part buf pend) s ev =
  let r := cutLines part buf in Some ((r.2, pend ++ answers h (linesOf ev) r.1), (s, ev ++ map (Line i) r.1)).
Proof using.
  revert part pend ev. induction buf as [|c buf IH]; intros part pend ev; simpl; [by rewrite !app_nil_r|].
  destruct (c =? 10); simpl; [|apply IH]. rewrite IH. simpl. rewrite linesOf_app, <- !app_assoc. done.
Qed.

Lemma rests_parse {A} (m : SE xdr A) d suf a x : parses m d a -> rests x (d ++ suf) -> parse m x = Done a.
Proof using. intros Hm Hx. destruct (Hm _ _ Hx) as (x' & H & _). unfold parse. by rewrite H. Qed.

Lemma parses_writeArgs id flags d :
  fits 32 id -> fits 32 flags -> len d < 2 ^ 30 -> parses Vxi11Srv.writeArgs (writeWire id flags d) (id, flags, d, false).
Proof using.
  intros H1 H2 H3. unfold Vxi11Srv.writeArgs, writeWire. eapply parses_bind; [by apply parses_u32|].
  eapply parses_bind; [apply parses_u32; unfold fits; lia|]. eapply parses_bind; [apply parses_u32; unfold fits; lia|].
  eapply parses_bind; [by apply parses_u32|]. rewrite <- (app_nil_r (putOpaque d)). eapply parses_bind; [by apply parses_opaque|].
  intros x suf Hx. exists x. split; [|done]. unfold mbind, SE_bind, gets. destruct Hx as (_ & -> & _). done.
Qed.
Lemma parses_readArgs id size t :
  fits 32 id -> 0 <= size < 2 ^ 31 -> 0 <= t <= 10000 ->
  parses Vxi11Srv.readArgs (putU32 id ++ putU32 size ++ putU32 t) (id, size, t).
Proof using.
  intros H1 H2 H3. unfold Vxi11Srv.readArgs. eapply parses_bind; [by apply parses_u32|].
  eapply parses_bind; [apply parses_u32; unfold fits; lia|].
  replace (id, size, t) with (id, asInt size, Z.min t 10000) by (by rewrite asInt_31, Z.min_l by lia).
  apply (parses_last _ (fun t => (id, asInt size, Z.min t 10000)) _ t), parses_u32. unfold fits. lia.
Qed.

Lemma exec_owns {A} c id (f : bool -> prog A) s ev :
  linkOwner s = Some i -> lid c = id -> id <> 0 -> exec h i (owns i c id ≫= f) s ev = exec h i (f true) s ev.
Proof using.
  intros Ho Hl H0. rewrite exec_bind. simpl. unfold linkEvent. rewrite !decide_False by (by intros []). rewrite app_nil_r.
  rewrite bool_decide_true by done. by rewrite Hl, Z.eqb_refl, (proj2 (Z.eqb_neq id 0)).
Qed.

Lemma dispatch_write c x : dispatch i procDeviceWrite c x = (r ← deviceWrite i c x; mret (r.1, Some r.2)).
Proof using. done. Qed.
Lemma dispatch_read c x : dispatch i procDeviceRead c x = (r ← deviceRead i c x; mret (r.1, Some r.2)).
Proof using. done. Qed.

(** The owner's write: its whole lines reach the handler, in order. *)
Lemma exec_write c xid id final d s ev :
  fits 32 xid -> fits 32 id -> id <> 0 -> linkOwner s = Some i -> lid c = id -> isBytes d ->
  len (lineBuf c) + len d <= maxRecvSize ->
  let r := finish final (cutLines [] (lineBuf c ++ d)) in
  exec h i (serveRecord i c (callMsg xid coreProg coreVers procDeviceWrite (writeWire id (bit final flagEND) d))) s ev =
  Some ((MkConn id r.2 (pending c ++ answers h (linesOf ev) r.1), Some (replyTo xid (Some (putU32 0 ++ putU32 (len d))))),
        (s, ev ++ map (Line i) r.1)).
Proof using.
  intros Hx Hid H0 Ho Hlid Hd Hl r. assert (maxRecvSize = 8388608) as Hmax by done.
  assert (len d < 2 ^ 30) as Hdl by (unfold len in *; lia).
  assert (isBytes (writeWire id (bit final flagEND) d) /\ len (writeWire id (bit final flagEND) d) < 2 ^ 30) as [Hwb Hwl].
  { split; [unfold writeWire; wire_bytes|].
    unfold writeWire, putOpaque, len in *. rewrite !length_app, !length_putU32, length_replicate. unfold pad4.
    pose proof (Z.mod_pos_bound (4 - Z.of_nat (length d) mod 4) 4). lia. }
  destruct (serveRecord_call c xid procDeviceWrite _ Hx ltac:(unfold fits, procDeviceWrite; lia) Hwb Hwl) as (x & Hr & ->).
  assert (has (bit final flagEND) flagEND = final) as Hfin by (by destruct final).
  rewrite <- (app_nil_r (writeWire _ _ _)) in Hr.
  assert (parse Vxi11Srv.writeArgs x = Done (id, bit final flagEND, d, false)) as Hp.
  { apply (rests_parse _ _ _ _ _ (parses_writeArgs id (bit final flagEND) d Hid ltac:(destruct final; unfold fits, bit, flagEND; lia) Hdl) Hr). }
  rewrite dispatch_write, !exec_bind. unfold deviceWrite. rewrite Hp. cbn [prog_bind mbind]. rewrite exec_owns by done.
  cbn [negb orb]. rewrite (proj2 (Z.ltb_ge maxRecvSize _)) by done. rewrite exec_bind, exec_lineLoop. cbv zeta.
  cbv beta iota. rewrite exec_bind, Hfin. subst r. unfold finish. set (r := cutLines [] (lineBuf c ++ d)). destruct r as [ls rest]. cbn [fst snd].
  destruct (final && bool_decide (rest <> [])); simpl; [|by rewrite Hlid].
  rewrite Hlid. by rewrite answers_app, linesOf_app, linesOf_lines, map_app, <- !app_assoc; simpl; rewrite ?app_nil_r.
Qed.

(** The owner's read of what is pending: a chunk, and END with the last. *)
Lemma exec_read c xid id size s ev :
  fits 32 xid -> fits 32 id -> id <> 0 -> 0 <= size < 2 ^ 31 -> linkOwner s = Some i -> lid c = id ->
  let p := take (Z.to_nat size) (pending c) in let q := drop (Z.to_nat size) (pending c) in
  exec h i (serveRecord i c (callMsg xid coreProg coreVers procDeviceRead (readWire id size))) s ev =
  Some (if decide (pending c = []) then (c, Some (replyTo xid (Some (putU32 errTimeout ++ putU32 0 ++ putOpaque []))))
        else (MkConn id (lineBuf c) q,
              Some (replyTo xid (Some (putU32 0 ++ putU32 (if decide (q = []) then reasonEND else 0) ++ putOpaque p)))), (s, ev)).
Proof using.
  intros Hx Hid H0 Hs Ho Hlid p q.
  assert (isBytes (readWire id size) /\ len (readWire id size) < 2 ^ 30) as [Hwb Hwl].
  { split; [unfold readWire; wire_bytes|]. unfold readWire, len. by rewrite !length_app, !length_putU32. }
  destruct (serveRecord_call c xid procDeviceRead _ Hx ltac:(unfold fits, procDeviceRead; lia) Hwb Hwl) as (x & Hr & ->).
  assert (readWire id size = (putU32 id ++ putU32 size ++ putU32 5000) ++ putU32 0 ++ putU32 0 ++ putU32 0) as Hw.
  { unfold readWire. by rewrite <- !app_assoc. }
  rewrite Hw in Hr. pose proof (rests_parse _ _ _ _ _ (parses_readArgs id size 5000 Hid Hs ltac:(lia)) Hr) as Hp.
  rewrite dispatch_read, !exec_bind. unfold deviceRead. rewrite Hp. cbn [prog_bind mbind]. rewrite exec_owns by done. cbn [negb].
  destruct (decide (pending c = [])) as [E|E]; [done|].
  rewrite (proj2 (Z.ltb_ge (Z.min (len (pending c)) size) 0)) by (unfold len; lia). simpl.
  assert (forall A (l : list A), take (Z.to_nat (Z.min (len l) size)) l = take (Z.to_nat size) l /\
    drop (Z.to_nat (Z.min (len l) size)) l = drop (Z.to_nat size) l) as Hmin.
  { intros A l. unfold len. destruct (Z.min_spec (Z.of_nat (length l)) size) as [[H1 ->]|[H1 ->]]; [|done].
    rewrite Nat2Z.id, firstn_all, drop_all, take_ge, drop_ge by lia. done. }
  destruct (Hmin _ (pending c)) as [-> ->]. by rewrite Hlid.
Qed.
End Request.

(** ** A message in any pieces *)

Section Pieces.
Context {W : GoInt} (h : list (list Z) -> list Z -> list Z) (i : Z).

(** device_writes one after the other, the last of them with END. *)
Fixpoint writeAll (xid id : Z) (ds : list (list Z)) (c : conn) (s : Server) (ev : list lanEvent) : option (conn * (Server * list lanEvent)) :=
  match ds with
  | [] => Some (c, (s, ev))
  | d :: ds =>
      let final := bool_decide (ds = []) in
      match exec h i (serveRecord i c (callMsg xid coreProg coreVers procDeviceWrite (writeWire id (bit final flagEND) d))) s ev with
      | Some ((c, _), (s, ev)) => writeAll xid id ds c s ev
      | None => None
      end
  end.

(** C19: However a client cuts a message into device_writes, the handler gets
    the same lines in the same order, a last line without a newline ended by
    END, and the replies wait in that order: the pieces leave no trace. *)
Theorem pieces_whole xid id ds c s ev :
  fits 32 xid -> fits 32 id -> id <> 0 -> linkOwner s = Some i -> lid c = id ->
  Forall isBytes ds -> ds <> [] -> 10 ∉ lineBuf c -> len (lineBuf c) + len (concat ds) <= maxRecvSize ->
  let r := finish true (cutLines [] (lineBuf c ++ concat ds)) in
  writeAll xid id ds c s ev =
  Some (MkConn id [] (pending c ++ answers h (linesOf ev) r.1), (s, ev ++ map (Line i) r.1)).
Proof using.
  intros Hx Hid H0 Ho Hl Hb Hne. revert c ev Hl. induction Hb as [|d ds Hd Hb IH]; intros c ev Hl Hn Hlen r; [done|].
  cbn [writeAll concat] in *. unfold len in Hlen. rewrite length_app in Hlen.
  rewrite (exec_write h i c xid id _ d) by (done || unfold len; lia). cbv zeta.
  destruct (bool_decide_reflect (ds = [])) as [->|Hne'].
  { cbn [concat writeAll] in *. subst r. rewrite app_nil_r. set (q := cutLines [] (lineBuf c ++ d)).
    unfold finish. destruct (bool_decide_reflect (q.2 <> [])) as [E|E]; cbn [andb fst snd]; [done|].
    destruct (decide (q.2 = [])) as [E'|E']; [by rewrite E'|by destruct E]. }
  pose proof (cutLines_rest [] (lineBuf c ++ d) ltac:(apply not_elem_of_nil)) as Hrest.
  assert (forall b part, (length (cutLines part b).2 <= length part + length b)%nat) as Hshort.
  { induction b as [|x b IHb]; intros part; simpl; [lia|]. destruct (x =? 10); simpl; [pose proof (IHb []); simpl in *; lia|].
    specialize (IHb (part ++ [x])). rewrite length_app in IHb. simpl in IHb. lia. }
  pose proof (Hshort (lineBuf c ++ d) []) as Hq. rewrite length_app in Hq. simpl in Hq.
  unfold finish at 1 2 3. cbn [andb]. rewrite IH; [|done|done|exact Hrest|cbn [lineBuf]; unfold len; lia].
  cbn [lineBuf pending]. set (q := cutLines [] (lineBuf c ++ d)) in *.
  assert (cutLines [] (q.2 ++ concat ds) = cutLines q.2 (concat ds)) as ->.
  { rewrite cutLines_app, (cutLines_part [] q.2) by done. cbn [fst snd app]. by destruct (cutLines q.2 (concat ds)). }
  assert (r = (q.1 ++ (finish true (cutLines q.2 (concat ds))).1, (finish true (cutLines q.2 (concat ds))).2)) as Hr.
  { subst r. rewrite app_assoc, cutLines_app. fold q. cbv zeta. unfold finish. cbn [fst snd].
    destruct (true && bool_decide ((cutLines q.2 (concat ds)).2 <> [])); cbn [fst snd]; by rewrite ?app_assoc. }
  rewrite Hr. cbn [fst snd]. rewrite answers_app, linesOf_app, linesOf_lines, map_app, <- !app_assoc. done.
Qed.
End Pieces.

(** ** Records in any fragments *)

Section Records.
Context {W : GoInt}.

Lemma readFragments_one fuel msg b final d :
  len msg + len d <= maxRecord ->
  Vxi11Srv.readFragments (S fuel) msg (fragment final d ++ b) =
  if final then Got (msg ++ d) b else Vxi11Srv.readFragments fuel (msg ++ d) b.
Proof using.
  intros Hl. assert (maxRecord = 8454144) as Hmax by done. assert (0 <= len msg /\ 0 <= len d) as [H0 H1] by (unfold len; lia).
  unfold fragment. cbn [Vxi11Srv.readFragments]. rewrite <- app_assoc, ReadFull_app by (unfold len; by rewrite length_beBytes).
  destruct (mark_parts final (len d)) as [Hn Hf]; [lia|]. cbv zeta in Hn, Hf. rewrite Hn, Hf.
  rewrite (asInt_31 (len d)) by lia. rewrite asInt_31 by lia.
  rewrite (proj2 (Z.ltb_ge maxRecord _)), (proj2 (Z.ltb_ge _ 0)) by lia. by rewrite ReadFull_app.
Qed.

Lemma readFragments_all l last fuel msg b :
  (length l < fuel)%nat -> len msg + len (concat l ++ last) <= maxRecord ->
  Vxi11Srv.readFragments fuel msg (fragments l last ++ b) = Got (msg ++ concat l ++ last) b.
Proof using.
  revert fuel msg. induction l as [|d l IH]; intros fuel msg Hf Hl; (destruct fuel as [|fuel]; [simpl in Hf; lia|]).
  - unfold fragments. cbn [map concat app] in *. by rewrite readFragments_one.
  - unfold fragments in *. cbn [map concat] in *. rewrite <- !app_assoc in *. unfold len in *. rewrite !length_app in Hl.
    rewrite readFragments_one by (unfold len; lia). rewrite IH.
    + by rewrite <- !app_assoc.
    + simpl in Hf. lia.
    + rewrite !length_app. lia.
Qed.

(** C21: A record comes out as it went in, however the sender cut it into
    fragments (empty ones too), and nothing after it is touched. *)
Theorem readRecord_fragments l last b :
  len (concat l ++ last) <= maxRecord -> readRecord (fragments l last ++ b) = Got (concat l ++ last) b.
Proof using.
  intros Hl. unfold readRecord. apply (readFragments_all l last _ []); [|done].
  unfold fragments. rewrite length_app, length_app.
  assert (length l <= length (concat (map (fragment false) l)))%nat; [|lia].
  induction l as [|d l IH]; cbn [map concat length]; [lia|].
  assert (length (fragment false d) = 4 + length d)%nat as Hd by (unfold fragment; by rewrite length_app, length_beBytes).
  rewrite length_app, Hd.
  assert (len (concat l ++ last) <= maxRecord) as H; [|specialize (IH H); lia].
  unfold len in *. cbn [concat] in Hl. rewrite !length_app in *. lia.
Qed.
End Records.
