(* ===== verification/Vxi11Link.v ===== *)
(** * A query over a connection

    The client of src/ota on a connection that is the server's: what it writes
    the server reads, record by record, and what the server replies it reads.
    Replies to earlier calls may still be on their way. *)
From stdpp Require Import gmap relations.
From S2P Require Import Prelude Machine Xdr Vxi11Srv Vxi11Lan Vxi11 Vxi11Run.

(** The server's end, the bytes each way, and the times of the clock read. *)
Record wire := MkWire {
  w_srv : Server; w_ev : list lanEvent; w_conn : conn; w_up : list Z; w_down : list Z; w_ticks : nat
}.

Section Wire.
Context {W : GoInt} (h : list (list Z) -> list Z -> list Z) (i : Z) (clock : nat -> Z).

(** The server's turns on the records that came; [fuel] bounds their number. *)
Fixpoint pump (fuel : nat) (w : wire) : wire :=
  match fuel with
  | O => w
  | S fuel =>
      match readRecord (w_up w) with
      | Got msg rest =>
          match exec h i (serveRecord i (w_conn w) msg) (w_srv w) (w_ev w) with
          | Some ((c, r), (s, ev)) =>
              pump fuel (MkWire s ev c rest (w_down w ++ match r with Some r => marked r | None => [] end) (w_ticks w))
          | None => w
          end
      | _ => w
      end
  end.

Definition timedOut : err := EMsg "i/o timeout" [].

#[export] Instance wire_net : Net wire := {
  net_dial a := fail timedOut;
  net_write c d := modify (fun w =>
    let up := w_up w ++ d in pump (length up) (MkWire (w_srv w) (w_ev w) (w_conn w) up (w_down w) (w_ticks w)));
  net_read c n := w ← gets (fun w => w);
    match ReadFull n (w_down w) with
    | None => fail timedOut
    | Some (d, rest) => modify (fun w => MkWire (w_srv w) (w_ev w) (w_conn w) (w_up w) rest (w_ticks w));; mret d
    end;
  net_close c := mret tt;
  net_deadline c t := mret tt;
  net_now := t ← gets (fun w => clock (w_ticks w));
    modify (fun w => MkWire (w_srv w) (w_ev w) (w_conn w) (w_up w) (w_down w) (S (w_ticks w)));; mret t;
  net_sleep t := mret tt
}.

(** The bytes that come down. *)
Definition set_down (d : list Z) (w : wire) : wire := MkWire (w_srv w) (w_ev w) (w_conn w) (w_up w) d (w_ticks w).

Lemma read_wire c n d rest w : len d = n -> w_down w = d ++ rest -> net_read c n w = (Ret d, set_down rest w).
Proof using.
  intros Hn Hd. unfold net_read, wire_net, mbind, SE_bind, gets. rewrite Hd, ReadFull_app by done. done.
Qed.

(** ** Replies *)

Lemma word_at {S} o pre v suf (s : S) : len pre = o -> fits 32 v -> word o (pre ++ putU32 v ++ suf) s = (Ret v, s).
Proof using.
  intros <- Hv. assert (0 <= len pre) by (unfold len; lia). unfold word, mbind, SE_bind. rewrite sub_ok; [|lia|lia|].
  - unfold slice, len. rewrite Nat2Z.id, drop_app_length. change (Z.to_nat 4) with 4%nat.
    rewrite take_app_length' by (by rewrite length_putU32). by rewrite beVal_putU32.
  - unfold len. rewrite !length_app, length_putU32. lia.
Qed.
Lemma word_0 {S} v suf (s : S) : fits 32 v -> word 0 (putU32 v ++ suf) s = (Ret v, s).
Proof using. apply (word_at 0 []). done. Qed.
Lemma from_at {S} o pre suf (s : S) : len pre = o -> from o (pre ++ suf) s = (Ret suf, s).
Proof using.
  intros <-. unfold from. assert (len (pre ++ suf) = len pre + len suf) as Hl by (unfold len; rewrite length_app; lia).
  assert (0 <= len pre /\ 0 <= len suf) by (unfold len; lia). rewrite sub_ok by lia. unfold slice.
  rewrite Hl. replace (len pre + len suf - len pre) with (len suf) by lia. unfold len. rewrite !Nat2Z.id, drop_app_length.
  by rewrite firstn_all.
Qed.

Lemma reply_words xid r : replyTo xid (Some r) = putU32 xid ++ putU32 1 ++ putU32 0 ++ putU32 0 ++ putU32 0 ++ putU32 0 ++ r.
Proof using. done. Qed.
Lemma len_reply xid r : len (replyTo xid (Some r)) = 24 + len r.
Proof using. rewrite reply_words. unfold len. rewrite !length_app, !length_putU32. lia. Qed.

(** An accepted reply's results. *)
Lemma rpcResults_reply {S} xid r (s : S) : rpcResults (replyTo xid (Some r)) s = (Ret r, s).
Proof using.
  assert (fits 32 0 /\ fits 32 1) as [H0 H1] by (split; unfold fits; lia).
  unfold rpcResults. rewrite len_reply, reply_words. unfold mbind, SE_bind at 1.
  rewrite (word_at 4 (putU32 xid)) by done. cbn [Z.eqb Pos.eqb negb guard]. unfold mret, SE_ret, SE_bind at 1.
  rewrite (app_assoc (putU32 xid)). unfold SE_bind at 1. rewrite (word_at 8 (putU32 xid ++ putU32 1)) by done.
  cbn [Z.eqb negb guard]. unfold mret, SE_ret, SE_bind at 1. rewrite (app_assoc (_ ++ _) (putU32 0)).
  rewrite (app_assoc ((_ ++ _) ++ _) (putU32 0)). unfold SE_bind at 1.
  rewrite (word_at 16 (((putU32 xid ++ putU32 1) ++ putU32 0) ++ putU32 0)) by done.
  cbn [Z.ltb Z.compare maxAuthBody guard]. unfold mret, SE_ret, SE_bind at 1.
  change (20 + Z.quot (0 + 3) 4 * 4) with 20. rewrite (proj2 (Z.ltb_ge (24 + len r) (20 + 4))) by (unfold len; lia).
  cbn [guard]. unfold mret, SE_ret, SE_bind at 1. rewrite (app_assoc (((_ ++ _) ++ _) ++ _) (putU32 0)). unfold SE_bind at 1.
  rewrite (word_at 20 ((((putU32 xid ++ putU32 1) ++ putU32 0) ++ putU32 0) ++ putU32 0)) by done.
  cbn [Z.eqb negb guard]. unfold mret, SE_ret, SE_bind at 1. rewrite (app_assoc ((((_ ++ _) ++ _) ++ _) ++ _) (putU32 0)).
  change (20 + 4) with 24. by apply from_at.
Qed.

(** ** One call *)

Lemma bind_run {S A B} (m : SE S A) (f : A -> SE S B) s a s' o : m s = (Ret a, s') -> f a s' = o -> (m ≫= f) s = o.
Proof using. unfold mbind, SE_bind. by intros -> <-. Qed.

Lemma readRPC_wire fuel c r rest w :
  (0 < fuel)%nat -> len r <= maxReply -> w_down w = marked r ++ rest ->
  readRPCRecord fuel c w = (Ret r, set_down rest w).
Proof using.
  intros Hf Hl Hd. destruct fuel as [|fuel]; [lia|]. unfold readRPCRecord. cbn [Vxi11.readFragments].
  assert (0 <= len r) as H0 by (unfold len; lia). assert (maxReply = 8388608) as Hmax by done.
  unfold marked in Hd. set (mark := beBytes 4 (Z.lor 0x80000000 (u32 (len r)))) in *. rewrite <- app_assoc in Hd.
  assert (len mark = 4) as Hm by (unfold mark, len; by rewrite length_beBytes).
  eapply bind_run; [unfold attempt; by rewrite (read_wire c 4 mark (r ++ rest) w Hm Hd)|]. cbv iota.
  eapply bind_run.
  { unfold word. eapply bind_run; [apply sub_ok; lia|]. reflexivity. }
  unfold slice. change (Z.to_nat 0) with 0%nat. change (Z.to_nat 4) with 4%nat. rewrite drop_0, take_ge by (unfold len in Hm; lia).
  destruct (mark_parts true (len r)) as [Hn Hfin]; [lia|]. cbv zeta in Hn, Hfin. unfold bit in Hn, Hfin.
  fold mark in Hn, Hfin. cbv zeta. rewrite Hn, Hfin. change (len (@nil Z)) with 0. rewrite Z.add_0_l.
  rewrite (proj2 (Z.ltb_ge maxReply (len r))) by lia. eapply bind_run; [reflexivity|].
  eapply bind_run; [unfold attempt; by rewrite (read_wire c (len r) r rest (set_down (r ++ rest) w) eq_refl eq_refl)|]. done.
Qed.

(** A reply that answers an earlier call. *)
Definition late (xid : Z) (r : list Z) : Prop :=
  24 <= len r <= maxReply /\ beVal (take 4 r) <> xid.

Lemma word_take {S} (r : list Z) (s : S) : 4 <= len r -> word 0 r s = (Ret (beVal (take 4 r)), s).
Proof using. intros Hl. unfold word. eapply bind_run; [apply sub_ok; lia|]. done. Qed.

Lemma ownReply_wire stale left_ fuel c xid r rest w :
  (0 < fuel)%nat -> (length stale <= left_)%nat -> Forall (late xid) stale -> 24 <= len r <= maxReply ->
  beVal (take 4 r) = xid -> w_down w = concat (map marked stale) ++ marked r ++ rest ->
  ownReply left_ fuel c xid w = (Ret r, set_down rest w).
Proof using.
  intros Hf. revert left_ w. induction stale as [|q stale IH]; intros left_ w Hn Hs Hr Hx Hd.
  - assert (forall n, ownReply n fuel c xid w = (Ret r, set_down rest w)) as Hown; [|done]. intros n.
    assert (forall n, ownReply n fuel c xid = (q ← readRPCRecord fuel c; guard (len q <? 24) (EMsg "vxi11: short reply (%d bytes)" [len q]);;
      x ← word 0 q; if x =? xid then mret q else match n with O => failMsg "vxi11: xid mismatch" [] | S n => ownReply n fuel c xid end)) as Hun
      by (by intros []).
    rewrite Hun. eapply bind_run; [apply (readRPC_wire fuel c r rest); [done|lia|done]|]. rewrite (proj2 (Z.ltb_ge (len r) 24)) by lia.
    eapply bind_run; [reflexivity|]. eapply bind_run; [apply word_take; lia|]. by rewrite Hx, Z.eqb_refl.
  - inversion_clear Hs as [|? ? [Hq Hqx] Hs']. destruct left_ as [|n]; [simpl in Hn; lia|]. cbn [ownReply map concat] in *.
    rewrite <- app_assoc in Hd. eapply bind_run; [apply (readRPC_wire fuel c q (concat (map marked stale) ++ marked r ++ rest)); [done|lia|done]|]. rewrite (proj2 (Z.ltb_ge (len q) 24)) by lia.
    eapply bind_run; [reflexivity|]. eapply bind_run; [apply word_take; lia|]. rewrite (proj2 (Z.eqb_neq _ _)) by done.
    rewrite IH; [done|simpl in Hn; lia|done..].
Qed.

(** The server's turn on one call. *)
Lemma write_wire c msg w r cn s ev :
  w_up w = [] -> len msg <= maxRecord ->
  exec h i (serveRecord i (w_conn w) msg) (w_srv w) (w_ev w) = Some ((cn, Some r), (s, ev)) ->
  net_write c (marked msg) w = (Ret tt, MkWire s ev cn [] (w_down w ++ marked r) (w_ticks w)).
Proof using.
  intros Hu Hl He. unfold net_write, wire_net, modify. rewrite Hu. cbn [app]. f_equal.
  assert (exists n, length (marked msg) = S (S n)) as [n ->].
  { unfold marked. rewrite length_app, length_beBytes. by exists (2 + length msg)%nat. }
  cbn [pump w_up w_conn w_srv w_ev w_down w_ticks]. rewrite marked_fragment.
  pose proof (readRecord_fragments [] msg [] Hl) as Hr. unfold fragments in Hr. cbn [map concat app] in Hr.
  rewrite app_nil_r in Hr. rewrite Hr, He. cbn [w_up]. done.
Qed.

Lemma rpcCall_wire stale fuel c t proc args w r cn s ev :
  let xid := u32 (clock (w_ticks w)) in
  (0 < fuel)%nat -> w_up w = [] -> w_down w = concat (map marked stale) -> (length stale <= maxStale)%nat ->
  Forall (late xid) stale -> len args <= maxRecvSize + 1024 -> len r + 24 <= maxReply ->
  exec h i (serveRecord i (w_conn w) (callMsg xid coreProg coreVers proc args)) (w_srv w) (w_ev w) =
    Some ((cn, Some (replyTo xid (Some r))), (s, ev)) ->
  rpcCall fuel c t coreProg coreVers proc args w = (Ret r, MkWire s ev cn [] [] (S (S (w_ticks w)))).
Proof using.
  intros xid Hf Hu Hd Hn Hs Hl Hr He. unfold rpcCall. eapply bind_run; [reflexivity|]. eapply bind_run; [reflexivity|].
  eapply bind_run; [reflexivity|]. cbn [w_ticks].
  set (w1 := MkWire (w_srv w) (w_ev w) (w_conn w) (w_up w) (w_down w) (S (S (w_ticks w)))).
  eapply bind_run.
  { unfold errOf, attempt, mbind, SE_bind. fold xid. erewrite (write_wire c _ w1); [reflexivity|done| |exact He].
    rewrite callMsg_header. unfold header, len in *. rewrite !length_app, !length_putU32.
    assert (maxRecvSize = 8388608 /\ maxRecord = 8454144) as [E1 E2] by done. lia. }
  cbv iota. assert (len (replyTo xid (Some r)) = 24 + len r) as Hlr by apply len_reply.
  eapply bind_run.
  { apply (ownReply_wire stale maxStale fuel c xid (replyTo xid (Some r)) []); [done..|unfold len in *; lia| |].
    - rewrite reply_words. rewrite take_app_length' by (by rewrite length_putU32). apply beVal_putU32, fits_u32.
    - cbn [w_down]. unfold w1. cbn [w_down]. by rewrite Hd, app_nil_r. }
  unfold set_down. cbn [w_srv w_ev w_conn w_up w_ticks w1]. apply rpcResults_reply.
Qed.

(** ** Send and Query *)

Lemma pad4_aligned n k : Z.of_nat n mod 4 = 0 -> pad4 (n + k) = pad4 k.
Proof using.
  intros Hn. unfold pad4. do 2 f_equal. rewrite Nat2Z.inj_add, Z.add_mod, Hn by lia. rewrite Z.add_0_l, Z.mod_mod by lia. done.
Qed.
Lemma sendArgs_wire c cmd : sendArgs c cmd = writeWire (c_lid c) (bit true flagEND) (lineOf cmd).
Proof using.
  unfold sendArgs, opaque, writeWire, putOpaque. cbv zeta. set (d := lineOf cmd).
  rewrite <- !app_assoc. do 4 f_equal. f_equal. f_equal. rewrite !length_app, !length_putU32.
  replace (4 + (4 + (4 + (4 + (4 + length d)))))%nat with (20 + length d)%nat by lia. by rewrite pad4_aligned.
Qed.

Lemma isBytes_lineOf cmd : isBytes cmd -> isBytes (lineOf cmd) /\ len (lineOf cmd) <= len cmd + 1.
Proof using.
  intros Hb. unfold lineOf. case_decide; [split; [done|unfold len; lia]|]. split.
  - apply isBytes_app; [done|]. by repeat constructor.
  - unfold len. rewrite length_app. simpl. lia.
Qed.
Lemma lineOf_ended cmd : exists d, lineOf cmd = d ++ [10].
Proof using.
  unfold lineOf. case_decide as Hc; [|by exists cmd]. destruct Hc as [Hne Hl]. exists (removelast cmd).
  pose proof (app_removelast_last 0 Hne) as E. by rewrite Hl in E.
Qed.

(** The connection as a client finds it. *)
Record linked (c : Client) (w : wire) : Prop := {
  ln_owner : linkOwner (w_srv w) = Some i;
  ln_lid : lid (w_conn w) = c_lid c;
  ln_fits : fits 32 (c_lid c) /\ c_lid c <> 0;
  ln_line : lineBuf (w_conn w) = [];
  ln_up : w_up w = [];
}.

Lemma Send_wire stale fuel c cmd w :
  (0 < fuel)%nat -> linked c w -> w_down w = concat (map marked stale) -> (length stale <= maxStale)%nat ->
  Forall (late (u32 (clock (w_ticks w)))) stale -> isBytes cmd -> len cmd < maxRecvSize ->
  let ls := (cutLines [] (lineOf cmd)).1 in
  Send fuel c cmd w =
  (Ret tt, MkWire (w_srv w) (w_ev w ++ map (Line i) ls) (MkConn (c_lid c) [] (pending (w_conn w) ++ answers h (linesOf (w_ev w)) ls)) [] [] (S (S (w_ticks w)))).
Proof using.
  intros Hf [H1 H2 [H3 H3'] H4 H5] Hd Hn Hs Hb Hl ls. destruct (isBytes_lineOf cmd Hb) as [Hlb Hll].
  assert (maxRecvSize = 8388608 /\ maxReply = 8388608) as [Hmax Hmax'] by done.
  unfold Send. rewrite sendArgs_wire.
  destruct (lineOf_ended cmd) as [d Hcmd]. pose proof (cutLines_ended [] d) as Hend. rewrite <- Hcmd in Hend.
  eapply bind_run.
  { eapply (rpcCall_wire stale); [done..| | |].
    - unfold writeWire, putOpaque, len in *. rewrite !length_app, !length_putU32, length_replicate. unfold pad4.
      pose proof (Z.mod_pos_bound (4 - Z.of_nat (length (lineOf cmd)) mod 4) 4). lia.
    - shelve.
    - erewrite (exec_write h i (w_conn w) _ (c_lid c) true (lineOf cmd)); [reflexivity|apply fits_u32|done..|].
      rewrite H4. change (len (@nil Z)) with 0. lia. }
  Unshelve. 2:{ unfold len. rewrite length_app, !length_putU32. rewrite Hmax'. simpl. lia. }
  assert ((4 <=? len (putU32 0 ++ putU32 (len (lineOf cmd)))) = true) as ->.
  { apply Z.leb_le. unfold len. rewrite length_app, length_putU32. lia. }
  eapply bind_run; [apply word_0; unfold fits; lia|]. cbn [Z.eqb negb guard]. unfold mret, SE_ret. f_equal.
  rewrite H4. cbn [app]. unfold finish. rewrite Hend. cbn [andb]. rewrite bool_decide_false by (by intros []). cbv iota. rewrite Hend. done.
Qed.

(** A read's results, taken apart. *)
Lemma queryLoop_step turns fuel c out w stale reason chunk cn s ev :
  (0 < fuel)%nat -> w_up w = [] -> w_down w = concat (map marked stale) -> (length stale <= maxStale)%nat ->
  Forall (late (u32 (clock (w_ticks w)))) stale -> fits 32 reason -> len chunk <= requestSize ->
  exec h i (serveRecord i (w_conn w) (callMsg (u32 (clock (w_ticks w))) coreProg coreVers procDeviceRead (readWire (c_lid c) requestSize))) (w_srv w) (w_ev w) =
    Some ((cn, Some (replyTo (u32 (clock (w_ticks w))) (Some (putU32 0 ++ putU32 reason ++ putOpaque chunk)))), (s, ev)) ->
  queryLoop (S turns) fuel c out w =
  (if has reason readReasonMask then mret (out ++ chunk) else queryLoop turns fuel c (out ++ chunk))
    (MkWire s ev cn [] [] (S (S (w_ticks w)))).
Proof using.
  intros Hf Hu Hd Hn Hs Hr Hl He. assert (requestSize = 4194304 /\ maxReply = 8388608) as [Hreq Hmax] by done.
  assert (0 <= len chunk /\ fits 32 0) as [H0 Hf0] by (unfold len, fits; lia).
  assert (0 <= Z.of_nat (pad4 (length chunk)) <= 3) as Hpad.
  { unfold pad4. pose proof (Z.mod_pos_bound (4 - Z.of_nat (length chunk) mod 4) 4). lia. }
  set (tail := chunk ++ replicate (pad4 (length chunk)) 0).
  assert (len tail = len chunk + Z.of_nat (pad4 (length chunk))) as Htl.
  { unfold tail, len. rewrite length_app, length_replicate. lia. }
  assert (putOpaque chunk = putU32 (len chunk) ++ tail) as Hop by done. rewrite Hop in He.
  set (res := putU32 0 ++ putU32 reason ++ putU32 (len chunk) ++ tail) in *.
  assert (len res = 12 + len tail) as Hrl.
  { unfold res, len. rewrite !length_app, !length_putU32. lia. }
  cbn [queryLoop]. eapply bind_run.
  { apply (rpcCall_wire stale _ _ _ _ _ _ res cn s ev); [done..|unfold Vxi11.readArgs, len; by rewrite !length_app, !length_putU32|lia|exact He]. }
  rewrite (proj2 (Z.ltb_ge (len res) 12)) by lia. eapply bind_run; [reflexivity|].
  eapply bind_run; [by apply word_0|]. eapply bind_run; [by apply (word_at 4 (putU32 0))|].
  eapply bind_run.
  { unfold res. rewrite !app_assoc. apply from_at. unfold len. by rewrite !length_app, !length_putU32. }
  eapply bind_run.
  { unfold res. rewrite (app_assoc (putU32 0)). apply word_at; [unfold len; by rewrite length_app, !length_putU32|unfold fits; lia]. }
  eapply (bind_run _ _ _ chunk).
  { destruct (Z.ltb_spec (len chunk) (len tail)) as [Hlt|Hge].
    - rewrite sub_ok by lia. unfold slice, tail, len. change (Z.to_nat 0) with 0%nat. by rewrite drop_0, Nat2Z.id, take_app_length.
    - assert (pad4 (length chunk) = O) as Hp by lia. unfold tail. by rewrite Hp, app_nil_r. }
  cbv zeta. cbn [Z.eqb negb]. eapply bind_run; [reflexivity|]. by destruct (has reason readReasonMask).
Qed.

Lemma queryLoop_wire turns fuel c out w :
  (0 < fuel)%nat -> linked c w -> w_down w = [] -> pending (w_conn w) <> [] ->
  len (pending (w_conn w)) <= Z.of_nat turns * requestSize ->
  exists n, queryLoop turns fuel c out w =
    (Ret (out ++ pending (w_conn w)), MkWire (w_srv w) (w_ev w) (MkConn (c_lid c) [] []) [] [] n).
Proof using.
  intros Hf. revert out w. induction turns as [|turns IH]; intros out w [H1 H2 [H3 H3'] H4 H5] Hd Hp Hl.
  { destruct (pending (w_conn w)); [done|]. unfold len in Hl. simpl in Hl. lia. }
  set (p := pending (w_conn w)) in *. assert (requestSize = 4194304) as Hreq by done.
  pose proof (exec_read h i (w_conn w) (u32 (clock (w_ticks w))) (c_lid c) requestSize (w_srv w) (w_ev w)
    ltac:(apply fits_u32) H3 H3' ltac:(rewrite Hreq; lia) H1 H2) as He.
  cbv zeta in He. fold p in He. rewrite (decide_False (P := p = [])) in He by done. rewrite H4 in He.
  set (q := drop (Z.to_nat requestSize) p) in *. set (k := take (Z.to_nat requestSize) p) in *.
  set (reason := if decide (q = []) then reasonEND else 0) in *.
  assert (len k <= requestSize) as Hk.
  { unfold k, len. rewrite length_take. lia. }
  assert (k ++ q = p) as Hkq by apply take_drop.
  rewrite (queryLoop_step turns fuel c out w [] reason k _ _ _ Hf H5 Hd ltac:(simpl; lia) ltac:(constructor)
    ltac:(unfold reason; destruct (decide _); unfold fits, reasonEND; lia) Hk He).
  destruct (decide (q = [])) as [Hq|Hq]; unfold reason.
  - change (has reasonEND readReasonMask) with true. cbv iota. exists (S (S (w_ticks w))).
    rewrite Hq, app_nil_r in Hkq. by rewrite Hkq, Hq.
  - change (has 0 readReasonMask) with false. cbv iota. set (w1 := MkWire _ _ _ _ _ _).
    destruct (IH (out ++ k) w1) as [n Hn]; [by split|done|done| |].
    + cbn [w_conn w1 pending]. unfold q, len in *. rewrite length_drop. lia.
    + exists n. rewrite Hn. cbn [w_conn w1 pending w_srv w_ev]. by rewrite <- app_assoc, Hkq.
Qed.

(** C13: A query on the link's own connection returns the handler's replies to
    the command's lines, handed to it in order once each and never sooner,
    whatever late replies to earlier calls come first; with no reply it fails
    with the server's timeout. The connection is left ready for the next. *)
Theorem Query_answers stale fuel c cmd w :
  (0 < fuel)%nat -> linked c w -> pending (w_conn w) = [] ->
  w_down w = concat (map marked stale) -> (length stale <= maxStale)%nat ->
  Forall (late (u32 (clock (w_ticks w)))) stale -> isBytes cmd -> len cmd < maxRecvSize ->
  let ls := (cutLines [] (lineOf cmd)).1 in
  let answer := answers h (linesOf (w_ev w)) ls in
  len answer <= 64 * requestSize ->
  exists n, Query fuel c cmd w =
    (if decide (answer = []) then Fail (EMsg "vxi11: device_read error %d" [errTimeout]) else Ret answer,
     MkWire (w_srv w) (w_ev w ++ map (Line i) ls) (MkConn (c_lid c) [] []) [] [] n).
Proof using.
  intros Hf Hw Hp Hd Hn Hs Hb Hl ls answer Ha. unfold Query. unfold mbind, SE_bind.
  rewrite (Send_wire stale) by done. cbv zeta. fold ls. fold answer. rewrite Hp. cbn [app].
  set (w1 := MkWire _ _ _ _ _ _). assert (linked c w1) as Hw1 by (destruct Hw; by split).
  destruct (decide (answer = [])) as [E|E].
  - destruct Hw as [H1 H2 [H3 H3'] H4 H5].
    pose proof (exec_read h i (w_conn w1) (u32 (clock (w_ticks w1))) (c_lid c) requestSize (w_srv w1) (w_ev w1)
      ltac:(apply fits_u32) H3 H3' ltac:(by split) H1 eq_refl) as He. cbv zeta in He. rewrite decide_True in He by exact E. exists (S (S (w_ticks w1))).
    change 64%nat with (S 63). unfold mbind, SE_bind.
    assert (len (readWire (c_lid c) requestSize) <= maxRecvSize + 1024) as Hrl.
    { unfold readWire, len. by rewrite !length_app, !length_putU32. }
    assert (len (putU32 errTimeout ++ putU32 0 ++ putOpaque []) + 24 <= maxReply) as Hpl by done.
    pose proof (rpcCall_wire [] fuel (c_conn c) (c_timeout c) procDeviceRead _ w1 _ _ _ _ Hf eq_refl eq_refl
      ltac:(simpl; lia) ltac:(constructor) Hrl Hpl He) as Hrpc.
    cbn [queryLoop]. unfold mbind, SE_bind. change (Vxi11.readArgs c) with (readWire (c_lid c) requestSize).
    rewrite Hrpc. subst w1. cbn [w_srv w_ev w_conn w_ticks]. by rewrite E.
  - destruct (queryLoop_wire 64 fuel c [] w1 Hf Hw1 eq_refl) as [n Hq]; [done|done|]. exists n. by rewrite Hq.
Qed.
End Wire.
