(* ===== verification/EdgeLine.v ===== *)
(** * Digital lines as their edges

    src/app/internal/decode/edgeline.go: a line held as its length, its first
    level and the samples where the level changes, and what each operation
    makes of the samples the line stands for. The working arrays the decodes
    borrow (scratch) and the analysis of a line (runs, slice) are left out. *)
From stdpp Require Import sorting list.
From S2P Require Import Prelude.

Record EdgeLine := MkEdgeLine { N : Z; First : Z; At : list Z }.

Definition empty : EdgeLine := MkEdgeLine 0 0 [].

(** ** Operations *)

(** [sort.SearchInts]: the first index whose element is [x] or more. *)
Fixpoint SearchInts (l : list Z) (x : Z) : nat :=
  match l with
  | [] => O
  | a :: l => if x <=? a then O else S (SearchInts l x)
  end.

(** [v ^ uint8(k&1)] *)
Definition flip (v : Z) (k : nat) : Z := Z.lxor v (Z.of_nat k .& 1).

Definition Reset (l : EdgeLine) : EdgeLine := MkEdgeLine 0 0 [].
Definition Last (l : EdgeLine) : Z := if N l =? 0 then 0 else flip (First l) (length (At l)).
Definition start (lvl : Z) (l : EdgeLine) : EdgeLine :=
  if N l =? 0 then MkEdgeLine (N l) lvl []
  else if negb (Last l =? lvl) then MkEdgeLine (N l) (First l) (At l ++ [N l])
  else l.
Definition AppendLevel (lvl n : Z) (l : EdgeLine) : EdgeLine :=
  if n <=? 0 then l else let l := start (lvl .& 1) l in MkEdgeLine (N l + n) (First l) (At l).

(** The edges of a word: its set bits, from the lowest ([TrailingZeros32],
    [t &= t-1]); a word has sixteen. *)
Fixpoint trailingZeros (fuel : nat) (t : Z) : Z :=
  match fuel with O => 0 | S fuel => if Z.odd t then 0 else 1 + trailingZeros fuel (t .>> 1) end.
Fixpoint wordEdges (fuel : nat) (t at_ : Z) : list Z :=
  match fuel with
  | O => []
  | S fuel => if t =? 0 then [] else (at_ + trailingZeros 32 t) :: wordEdges fuel (t .& (t - 1)) at_
  end.
(** The words' 16-bit halves of line [ch], the bytes little-endian. *)
Fixpoint appendWords (raw : list Z) (o : nat) (n : nat) (prev at_ : Z) (edges : list Z) : Z * list Z :=
  match n with
  | O => (at_, edges)
  | S n =>
      let w := leVal (slice o 2 raw) in
      let t := Z.lxor w ((w .<< 1) .| prev) .& 0xffff in
      appendWords (drop 4 raw) o n (w .>> 15) (at_ + 16) (edges ++ wordEdges 16 t at_)
  end.
Definition AppendWords (raw : list Z) (ch : Z) (l : EdgeLine) : EdgeLine :=
  let n := (length raw / 4)%nat in
  if decide (n = O) then l
  else
    let o := Z.to_nat (2 * (ch .& 1)) in
    let l := if N l =? 0 then MkEdgeLine (N l) (leVal (slice o 1 raw) .& 1) [] else l in
    let r := appendWords raw o n (flip (First l) (length (At l))) (N l) (At l) in
    MkEdgeLine r.1 (First l) r.2.

Definition AppendRange (src : EdgeLine) (from to : Z) (l : EdgeLine) : EdgeLine :=
  let from := Z.max from 0 in
  let to := Z.min to (N src) in
  if to <=? from then l
  else
    let k := SearchInts (At src) (from + 1) in
    let l := start (flip (First src) k) l in
    let rest := drop k (At src) in
    let new := take (SearchInts rest to) rest in
    MkEdgeLine (N l + (to - from)) (First l) (At l ++ map (fun a => N l + a - from) new).

Definition Drop (n : Z) (l : EdgeLine) : EdgeLine :=
  if n <=? 0 then l
  else if N l <=? n then Reset l
  else
    let k := SearchInts (At l) (n + 1) in
    MkEdgeLine (N l - n) (flip (First l) k) (map (fun a => a - n) (drop k (At l))).

(** Runs of levels in turn, written as samples. *)
Fixpoint sampleRuns (lvl from : Z) (ats : list Z) : list Z :=
  match ats with
  | [] => []
  | a :: ats => replicate (Z.to_nat (a - from)) (if lvl =? 0 then 0 else 255) ++ sampleRuns (Z.lxor lvl 1) a ats
  end.
Definition Samples (l : EdgeLine) : list Z := sampleRuns (First l) 0 (At l ++ [N l]).

(** ** The samples a line stands for *)

(** A sample's level: the first, turned at each edge up to it. *)
Definition levelAt (first : Z) (ats : list Z) (i : Z) : Z := flip first (SearchInts ats (i + 1)).
Definition levels (l : EdgeLine) : list Z :=
  map (fun i => levelAt (First l) (At l) (Z.of_nat i)) (seq 0 (Z.to_nat (N l))).

Record wf (l : EdgeLine) : Prop := {
  wf_N : 0 <= N l;
  wf_first : First l = 0 \/ First l = 1;
  wf_sorted : StronglySorted Z.lt (At l);
  wf_range : Forall (fun a => 0 < a < N l) (At l);
  wf_empty : N l = 0 -> First l = 0;
}.

(** *** Search and parity *)

Lemma flip_0 v : flip v 0 = v.
Proof. unfold flip. simpl. apply Z.lxor_0_r. Qed.
Lemma flip_add v a b : flip (flip v a) b = flip v (a + b).
Proof.
  unfold flip. rewrite Z.lxor_assoc. f_equal. rewrite Nat2Z.inj_add. apply Z.bits_inj'. intros i Hi.
  rewrite Z.lxor_spec, !Z.land_spec. destruct (Z.eq_dec i 0) as [->|Hne].
  - rewrite !Z.bit0_odd, Z.odd_add. simpl. by rewrite !andb_true_r.
  - change 1 with (2 ^ 0). rewrite !Z.pow2_bits_false by lia. by rewrite !andb_false_r.
Qed.
Lemma flip_bit v k : v = 0 \/ v = 1 -> flip v k = 0 \/ flip v k = 1.
Proof.
  unfold flip. assert (Z.of_nat k .& 1 = Z.of_nat k mod 2) as -> by (apply (Z.land_ones _ 1); lia).
  pose proof (Z.mod_pos_bound (Z.of_nat k) 2 ltac:(lia)) as Hk.
  assert (Z.of_nat k mod 2 = 0 \/ Z.of_nat k mod 2 = 1) as [-> | ->] by lia; intros [-> | ->]; auto.
Qed.
(** One more edge turns a level; two bits that differ are each other's turn. *)
Lemma flip_other v w : (v = 0 \/ v = 1) -> (w = 0 \/ w = 1) -> v <> w -> flip v 1 = w.
Proof. intros [-> | ->] [-> | ->]; done. Qed.

Lemma search_le l x : (SearchInts l x <= length l)%nat.
Proof. induction l as [|a l IH]; simpl; [done|]. destruct (x <=? a); lia. Qed.
Lemma search_app l l' x : Forall (fun a => a < x) l -> SearchInts (l ++ l') x = (length l + SearchInts l' x)%nat.
Proof.
  induction 1 as [|a l Ha _ IH]; simpl; [done|]. rewrite (proj2 (Z.leb_gt x a)) by done. by rewrite IH.
Qed.
Lemma search_ge l x : Forall (fun a => x <= a) l -> SearchInts l x = O.
Proof. destruct 1 as [|a l Ha _]; simpl; [done|]. by rewrite (proj2 (Z.leb_le x a)). Qed.
Lemma search_short l l' x : Forall (fun a => x <= a) l' -> SearchInts (l ++ l') x = SearchInts l x.
Proof. intros H. induction l as [|a l IH]; simpl; [by apply search_ge|]. destruct (x <=? a); [done|]. by rewrite IH. Qed.
Lemma search_map l d x : SearchInts (map (fun a => a + d) l) x = SearchInts l (x - d).
Proof.
  induction l as [|a l IH]; simpl; [done|]. rewrite IH. destruct (Z.leb_spec x (a + d)), (Z.leb_spec (x - d) a); lia || done.
Qed.
(** What a search parts. *)
Lemma search_take l x : Forall (fun a => a < x) (take (SearchInts l x) l).
Proof. induction l as [|a l IH]; simpl; [done|]. destruct (Z.leb_spec x a); simpl; [done|]. by constructor. Qed.
Lemma search_drop l x : StronglySorted Z.lt l -> Forall (fun a => x <= a) (drop (SearchInts l x) l).
Proof.
  induction 1 as [|a l Hs IH Ha]; simpl; [done|]. destruct (Z.leb_spec x a); simpl; [|done]. constructor; [done|].
  eapply Forall_impl; [exact Ha|]. simpl. lia.
Qed.
Lemma search_later l x y : y <= x -> SearchInts l x = (SearchInts l y + SearchInts (drop (SearchInts l y) l) x)%nat.
Proof.
  intros H. rewrite <- (take_drop (SearchInts l y) l) at 1. rewrite search_app.
  - by rewrite length_take_le by apply search_le.
  - eapply Forall_impl; [apply search_take|]. simpl. lia.
Qed.

Lemma sorted_app {A} (R : relation A) (l l' : list A) :
  StronglySorted R l -> StronglySorted R l' -> (forall a b, a ∈ l -> b ∈ l' -> R a b) -> StronglySorted R (l ++ l').
Proof.
  intros Hl Hl' H. induction Hl as [|a l Hs IH Ha]; simpl; [done|]. constructor.
  - apply IH. intros x y Hx. apply H. by right.
  - apply Forall_app. split; [done|]. apply list.Forall_forall. intros b Hb. apply H; [by left|done].
Qed.
Lemma sorted_drop k (l : list Z) : StronglySorted Z.lt l -> StronglySorted Z.lt (drop k l).
Proof. intros H. revert k. induction H as [|a l Hs IH Ha]; intros [|k]; simpl; first [apply SSorted_nil|apply IH|by apply SSorted_cons]. Qed.
Lemma sorted_take k (l : list Z) : StronglySorted Z.lt l -> StronglySorted Z.lt (take k l).
Proof.
  intros H. revert k. induction H as [|a l Hs IH Ha]; intros [|k]; simpl; try apply SSorted_nil.
  apply SSorted_cons; [apply IH|by apply Forall_take].
Qed.
Lemma sorted_shift d (l : list Z) : StronglySorted Z.lt l -> StronglySorted Z.lt (map (fun a => a + d) l).
Proof.
  induction 1 as [|a l Hs IH Ha]; simpl; [apply SSorted_nil|]. apply SSorted_cons; [exact IH|]. apply Forall_map.
  eapply Forall_impl; [exact Ha|]. simpl. lia.
Qed.

(** *** Levels *)

Lemma length_levels l : length (levels l) = Z.to_nat (N l).
Proof. unfold levels. by rewrite length_map, length_seq. Qed.
Lemma lookup_levels l i : (i < Z.to_nat (N l))%nat -> levels l !! i = Some (levelAt (First l) (At l) (Z.of_nat i)).
Proof.
  intros Hi. unfold levels. rewrite list_lookup_fmap, lookup_seq_lt by done. done.
Qed.
Lemma levels_N0 l : N l = 0 -> levels l = [].
Proof. intros H. unfold levels. by rewrite H. Qed.

(** A line that goes on from another. *)
Lemma levels_longer l l' xs :
  0 <= N l -> N l' = N l + Z.of_nat (length xs) ->
  (forall i, 0 <= i < N l -> levelAt (First l') (At l') i = levelAt (First l) (At l) i) ->
  (forall j, (j < length xs)%nat -> xs !! j = Some (levelAt (First l') (At l') (N l + Z.of_nat j))) ->
  levels l' = levels l ++ xs.
Proof.
  intros H0 Hn Hold Hnew. apply list_eq. intros i. destruct (decide (i < Z.to_nat (N l'))%nat) as [Hi|Hi].
  - rewrite lookup_levels by done. destruct (decide (i < Z.to_nat (N l))%nat) as [Hl|Hl].
    + rewrite lookup_app_l by (by rewrite length_levels). rewrite lookup_levels by done. f_equal. apply Hold. lia.
    + rewrite lookup_app_r by (rewrite length_levels; lia). rewrite length_levels. rewrite Hnew by lia. do 2 f_equal. lia.
  - trans (@None Z); [|symmetry]; apply lookup_ge_None_2.
    + rewrite length_levels. lia.
    + rewrite length_app, length_levels. lia.
Qed.

Lemma levelAt_bit first ats i : first = 0 \/ first = 1 -> levelAt first ats i = 0 \/ levelAt first ats i = 1.
Proof. apply flip_bit. Qed.

Lemma empty_wf : wf empty.
Proof. split; simpl; try done; [by left|apply SSorted_nil]. Qed.

(** The level the next sample goes on from. *)
Lemma Last_level l : wf l -> 0 < N l -> Last l = levelAt (First l) (At l) (N l - 1).
Proof.
  intros [H0 Hf Hs Hr _] Hn. unfold Last, levelAt. rewrite (proj2 (Z.eqb_neq (N l) 0)) by lia. f_equal.
  rewrite <- (app_nil_r (At l)) at 2. rewrite search_app; [simpl; lia|]. eapply Forall_impl; [exact Hr|]. simpl. lia.
Qed.

Lemma old_levels first ats more n i :
  i < n -> Forall (fun a => n <= a) more -> levelAt first (ats ++ more) i = levelAt first ats i.
Proof. intros Hi Hm. unfold levelAt. rewrite search_short; [done|]. eapply Forall_impl; [exact Hm|]. simpl. lia. Qed.

(** A start makes the next samples of its level: [rest], the edges after. *)
Lemma start_levels lvl l m rest :
  wf l -> (lvl = 0 \/ lvl = 1) -> 0 < m -> StronglySorted Z.lt rest -> Forall (fun a => N l < a < N l + m) rest ->
  let l1 := start lvl l in
  let l' := MkEdgeLine (N l + m) (First l1) (At l1 ++ rest) in
  N l1 = N l /\ wf l' /\
  levels l' = levels l ++ map (fun j => flip lvl (SearchInts rest (N l + Z.of_nat j + 1))) (seq 0 (Z.to_nat m)).
Proof.
  intros Hw Hl Hm Hs Hr l1 l'. pose proof Hw as [H0 Hf Hsl Hrl He].
  assert (N l1 = N l /\ (First l1 = 0 \/ First l1 = 1) /\
    exists e, At l1 = At l ++ e /\ (forall a, a ∈ e -> a = N l /\ 0 < N l) /\ StronglySorted Z.lt e /\
      flip (First l1) (length (At l ++ e)) = lvl /\ (0 < N l -> First l1 = First l)) as (Hn1 & Hf1 & e & Ha1 & He1 & Hse & Hlvl & Hfe).
  { subst l1. unfold start. destruct (Z.eqb_spec (N l) 0) as [E|E]; [|pose proof (Last_level l Hw ltac:(lia)) as HL; destruct (Z.eqb_spec (Last l) lvl) as [E1|E1]]; simpl.
    - split; [done|]. split; [done|]. exists []. assert (At l = []) as ->.
      { destruct (At l) as [|a ?]; [done|]. inversion Hrl; subst. lia. }
      split; [done|]. split; [by intros a Ha%not_elem_of_nil|]. split; [constructor|]. split; [apply flip_0|lia].
    - split; [done|]. split; [done|]. exists []. rewrite app_nil_r. split; [done|]. split; [by intros a Ha%not_elem_of_nil|].
      split; [constructor|]. split; [|done]. revert E1. unfold Last. by rewrite (proj2 (Z.eqb_neq (N l) 0)).
    - split; [done|]. split; [done|]. exists [N l]. split; [done|]. split; [intros a ->%list_elem_of_singleton; split; lia|].
      split; [by repeat constructor|]. split; [|done]. rewrite length_app. simpl. rewrite <- flip_add. apply flip_other; [by apply flip_bit|done|].
      revert E1. unfold Last. by rewrite (proj2 (Z.eqb_neq (N l) 0)). }
  assert (Forall (fun a => N l <= a) (e ++ rest)) as Hge.
  { apply Forall_app. split; [|eapply Forall_impl; [exact Hr|simpl; lia]]. apply list.Forall_forall. intros a [-> _]%He1. lia. }
  assert (Forall (fun a => 0 < a < N l + m) (e ++ rest)) as Hrange.
  { apply Forall_app. split; [|eapply Forall_impl; [exact Hr|simpl; lia]]. apply list.Forall_forall. intros a [-> ?]%He1. lia. }
  split; [done|]. split.
  - split; simpl.
    + lia.
    + done.
    + rewrite Ha1, <- app_assoc. apply sorted_app; [done| |].
      * apply sorted_app; [done..|]. intros a b [-> _]%He1 Hb. rewrite list.Forall_forall in Hr. apply Hr in Hb. lia.
      * intros a b Ha Hb. rewrite list.Forall_forall in Hge, Hrl. apply Hge in Hb. apply Hrl in Ha. lia.
    + rewrite Ha1, <- app_assoc. apply Forall_app. split; [|done]. eapply Forall_impl; [exact Hrl|simpl; lia].
    + lia.
  - apply levels_longer.
    + done.
    + simpl. rewrite length_map, length_seq. lia.
    + intros i Hi. simpl. rewrite Ha1, <- app_assoc, (old_levels _ _ _ (N l)) by (done || lia). rewrite Hfe by lia. done.
    + intros j Hj. rewrite length_map, length_seq in Hj. simpl. rewrite Ha1. unfold levelAt.
      rewrite list_lookup_fmap, lookup_seq_lt by done. simpl. rewrite search_app.
      * rewrite <- flip_add, Hlvl. done.
      * apply Forall_app. split; [eapply Forall_impl; [exact Hrl|simpl; lia]|]. apply list.Forall_forall. intros a [-> _]%He1. lia.
Qed.

(** ** What each operation makes of the samples *)

Lemma seq_const {A} (v : A) o n : map (fun _ => v) (seq o n) = replicate n v.
Proof. revert o. induction n as [|n IH]; intros o; simpl; [done|]. by rewrite IH. Qed.

Lemma seq_from d n : seq d n = map (fun i => (d + i)%nat) (seq 0 n).
Proof.
  revert d. induction n as [|n IH]; intros d; simpl; [done|]. rewrite Nat.add_0_r. f_equal. rewrite (IH (S d)), (IH 1%nat), map_map.
  apply map_ext. intros i. lia.
Qed.

Lemma land1_mod v : v .& 1 = v mod 2.
Proof. apply (Z.land_ones _ 1). lia. Qed.
Lemma land1_bit v : v .& 1 = 0 \/ v .& 1 = 1.
Proof. rewrite land1_mod. pose proof (Z.mod_pos_bound v 2). lia. Qed.

Lemma AppendLevel_levels lvl n l :
  wf l -> wf (AppendLevel lvl n l) /\ levels (AppendLevel lvl n l) = levels l ++ replicate (Z.to_nat n) (lvl .& 1).
Proof.
  intros Hw. unfold AppendLevel. destruct (Z.leb_spec n 0) as [Hn|Hn].
  { split; [done|]. replace (Z.to_nat n) with O by lia. simpl. by rewrite app_nil_r. }
  destruct (start_levels (lvl .& 1) l n [] Hw (land1_bit lvl) Hn) as (H1 & H2 & H3); [apply SSorted_nil|done|].
  cbv zeta in *. rewrite app_nil_r in H2, H3. rewrite H1. split; [exact H2|]. rewrite H3. f_equal.
  simpl. rewrite (map_ext _ (fun _ => lvl .& 1)); [apply seq_const|]. intros j. apply flip_0.
Qed.

Lemma levelAt_later first ats from j :
  0 <= j -> levelAt first ats (from + j) = flip (flip first (SearchInts ats (from + 1))) (SearchInts (drop (SearchInts ats (from + 1)) ats) (from + j + 1)).
Proof. intros Hj. unfold levelAt. rewrite (search_later ats (from + j + 1) (from + 1)) by lia. by rewrite flip_add. Qed.

Lemma AppendRange_levels src from to l :
  wf src -> wf l ->
  let from' := Z.max from 0 in
  wf (AppendRange src from to l) /\
  levels (AppendRange src from to l) = levels l ++ slice (Z.to_nat from') (Z.to_nat (Z.min to (N src) - from')) (levels src).
Proof.
  intros Hs Hw from'. unfold AppendRange. fold from'. set (to' := Z.min to (N src)).
  destruct (Z.leb_spec to' from') as [Hn|Hn].
  { split; [done|]. replace (Z.to_nat (to' - from')) with O by lia. unfold slice. simpl. by rewrite app_nil_r. }
  pose proof Hs as [H0 Hf Hsl Hr He]. set (k := SearchInts (At src) (from' + 1)). set (rest := drop k (At src)).
  assert (StronglySorted Z.lt rest) as Hrs by by apply sorted_drop.
  set (new := take (SearchInts rest to') rest). set (more := map (fun a => a + (N l - from')) new).
  assert (Forall (fun a => from' < a < to') new) as Hnew.
  { apply Forall_and. split; [|apply search_take]. apply Forall_take. pose proof (search_drop (At src) (from' + 1) Hsl) as H.
    eapply Forall_impl; [exact H|]. simpl. lia. }
  destruct (start_levels (flip (First src) k) l (to' - from') more Hw) as (H1 & H2 & H3).
  { by apply flip_bit. }
  { lia. }
  { apply sorted_shift, sorted_take, Hrs. }
  { unfold more. apply Forall_map. eapply Forall_impl; [exact Hnew|]. simpl. lia. }
  cbv zeta in *. assert (forall n, map (fun a => n + a - from') new = map (fun a => a + (n - from')) new) as Hm.
  { intros n. apply map_ext. intros a. lia. }
  rewrite Hm, H1. fold more. split; [exact H2|]. rewrite H3. f_equal. apply list_eq. intros j.
  destruct (decide (j < Z.to_nat (to' - from'))%nat) as [Hj|Hj].
  - rewrite list_lookup_fmap, lookup_seq_lt by done. unfold slice. rewrite lookup_take_lt, lookup_drop by done.
    rewrite lookup_levels by lia. simpl. f_equal. replace (Z.of_nat (Z.to_nat from' + j)) with (from' + Z.of_nat j) by lia.
    rewrite levelAt_later by lia. fold k. fold rest. f_equal. unfold more. rewrite search_map.
    assert (forall x, x <= to' -> SearchInts rest x = SearchInts new x) as Hnr.
    { intros x Hx. rewrite <- (take_drop (SearchInts rest to') rest) at 1. apply search_short.
      eapply Forall_impl; [apply (search_drop rest to' Hrs)|]. simpl. lia. }
    rewrite Hnr by lia. f_equal. lia.
  - trans (@None Z); [|symmetry]; apply lookup_ge_None_2.
    + rewrite length_map, length_seq. lia.
    + unfold slice. rewrite length_take. lia.
Qed.

Lemma Drop_levels n l : wf l -> wf (Drop n l) /\ levels (Drop n l) = drop (Z.to_nat n) (levels l).
Proof.
  intros Hw. unfold Drop. destruct (Z.leb_spec n 0) as [Hn|Hn]; [by replace (Z.to_nat n) with O by lia|].
  pose proof Hw as [H0 Hf Hs Hr He]. destruct (Z.leb_spec (N l) n) as [Hl|Hl].
  { split; [apply empty_wf|]. rewrite drop_ge by (rewrite length_levels; lia). done. }
  set (k := SearchInts (At l) (n + 1)). assert (Forall (fun a => n < a < N l) (drop k (At l))) as Hd.
  { apply Forall_and. split.
    - eapply Forall_impl; [apply (search_drop (At l) (n + 1) Hs)|]. simpl. lia.
    - apply Forall_drop. eapply Forall_impl; [exact Hr|]. simpl. lia. }
  set (ats := map (fun a => a + - n) (drop k (At l))).
  replace (map (fun a => a - n) (drop k (At l))) with ats by done. split.
  - split; simpl; [lia|by apply flip_bit|by apply sorted_shift, sorted_drop| |lia].
    unfold ats. apply Forall_map. eapply Forall_impl; [exact Hd|]. simpl. lia.
  - apply list_eq. intros j. rewrite lookup_drop. destruct (decide (j < Z.to_nat (N l - n))%nat) as [Hj|Hj].
    + rewrite !lookup_levels by (simpl; lia). simpl. f_equal.
      replace (Z.of_nat (Z.to_nat n + j)) with (n + Z.of_nat j) by lia. rewrite levelAt_later by lia. fold k.
      unfold levelAt, ats. rewrite search_map. do 2 f_equal. lia.
    + trans (@None Z); [|symmetry]; apply lookup_ge_None_2; rewrite length_levels; simpl; lia.
Qed.

(** The samples written out. *)
Lemma sampleRuns_levels lvl from ats n :
  (lvl = 0 \/ lvl = 1) -> StronglySorted Z.lt (from :: ats ++ [n]) ->
  sampleRuns lvl from (ats ++ [n]) =
  map (fun i => if flip lvl (SearchInts ats (from + Z.of_nat i + 1)) =? 0 then 0 else 255) (seq 0 (Z.to_nat (n - from))).
Proof.
  revert lvl from. induction ats as [|a ats IH]; intros lvl from Hl Hs; cbn [app sampleRuns].
  - rewrite app_nil_r. simpl. rewrite flip_0. by rewrite seq_const.
  - inversion_clear Hs as [|? ? Hs' Hfrom]. inversion_clear Hs' as [|? ? Hs Ha].
    assert (from < a) as H1 by (by inversion_clear Hfrom).
    assert (a < n) as H2 by (rewrite list.Forall_forall in Ha; apply Ha, elem_of_app; right; by left).
    replace (Z.to_nat (n - from)) with (Z.to_nat (a - from) + Z.to_nat (n - a))%nat by lia.
    rewrite seq_app, map_app. f_equal.
    + rewrite (map_ext_in _ (fun _ => if lvl =? 0 then 0 else 255)); [by rewrite seq_const|]. intros i Hi%in_seq. simpl.
      rewrite (proj2 (Z.leb_le _ a)) by lia. by rewrite flip_0.
    + change (Z.lxor lvl 1) with (flip lvl 1). rewrite IH; [|by apply flip_bit|by apply SSorted_cons].
      rewrite (seq_from (0 + Z.to_nat (a - from))), map_map. apply map_ext. intros i. cbn [SearchInts].
      assert (from + Z.of_nat (0 + Z.to_nat (a - from) + i) + 1 = a + Z.of_nat i + 1) as -> by lia.
      rewrite (proj2 (Z.leb_gt _ a)) by lia. by rewrite flip_add.
Qed.

Lemma Samples_levels l : wf l -> Samples l = map (fun v => if v =? 0 then 0 else 255) (levels l).
Proof.
  intros [H0 Hf Hs Hr He]. unfold Samples, levels. destruct (decide (N l = 0)) as [E|E].
  - assert (At l = []) as ->; [|by rewrite E]. destruct (At l) as [|a ?]; [done|]. inversion Hr; subst. lia.
  - rewrite sampleRuns_levels; [|done|].
    + rewrite map_map, Z.sub_0_r. apply map_ext. intros i. unfold levelAt. by rewrite Z.add_0_l.
    + apply SSorted_cons.
      * apply sorted_app; [done|by repeat constructor|]. intros a b Ha ->%list_elem_of_singleton. rewrite list.Forall_forall in Hr. by apply Hr.
      * apply Forall_app. split; [eapply Forall_impl; [exact Hr|simpl; lia]|]. constructor; [lia|constructor].
Qed.

(** ** The digital stream's words *)

(** A word's levels, the earliest first. *)
Fixpoint wordLevels (k : nat) (w : Z) : list Z :=
  match k with O => [] | S k => (w .& 1) :: wordLevels k (w .>> 1) end.
Fixpoint lineLevels (raw : list Z) (o n : nat) : list Z :=
  match n with O => [] | S n => wordLevels 16 (leVal (slice o 2 raw)) ++ lineLevels (drop 4 raw) o n end.

(** Where the levels turn, after one of [prev]. *)
Fixpoint edgesOf (prev : Z) (ls : list Z) (at_ : Z) : list Z :=
  match ls with
  | [] => []
  | v :: ls => (if v =? prev then [] else [at_]) ++ edgesOf v ls (at_ + 1)
  end.
(** The set bits, one by one. *)
Fixpoint setBits (k : nat) (t at_ : Z) : list Z :=
  match k with
  | O => []
  | S k => (if Z.odd t then [at_] else []) ++ setBits k (t .>> 1) (at_ + 1)
  end.

Lemma trailingZeros_fuel f f' t : 0 < t < 2 ^ Z.of_nat f -> t < 2 ^ Z.of_nat f' -> trailingZeros f t = trailingZeros f' t.
Proof.
  revert f' t. induction f as [|f IH]; intros [|f'] t Ht Ht'; simpl; [done|simpl in Ht; lia|simpl in Ht'; lia|].
  destruct (Z.odd t) eqn:E; [done|]. f_equal. rewrite Nat2Z.inj_succ, Z.pow_succ_r in Ht by lia.
  rewrite Nat2Z.inj_succ, Z.pow_succ_r in Ht' by lia. rewrite Z.shiftr_div_pow2 by lia. change (2 ^ 1) with 2.
  assert (t = 2 * (t / 2)) as Et.
  { pose proof (Z.div_mod t 2 ltac:(lia)) as Hd. rewrite Zmod_odd, E in Hd. lia. }
  apply IH; lia.
Qed.

Lemma clear_even u : 0 < u -> (2 * u) .& (2 * u - 1) = 2 * (u .& (u - 1)).
Proof.
  intros Hu. replace (2 * u - 1) with (2 * (u - 1) + 1) by lia. apply Z.bits_inj'. intros i Hi. rewrite Z.land_spec.
  destruct (Z.eq_dec i 0) as [->|Hne].
  - by rewrite !Z.testbit_even_0.
  - replace i with (Z.succ (i - 1)) by lia. rewrite !Z.testbit_even_succ, Z.testbit_odd_succ, Z.land_spec by lia. done.
Qed.
Lemma clear_odd u : (2 * u + 1) .& (2 * u + 1 - 1) = 2 * u.
Proof.
  replace (2 * u + 1 - 1) with (2 * u) by lia. apply Z.bits_inj'. intros i Hi. rewrite Z.land_spec.
  destruct (Z.eq_dec i 0) as [->|Hne].
  - by rewrite Z.testbit_even_0, andb_false_r.
  - replace i with (Z.succ (i - 1)) by lia. rewrite Z.testbit_even_succ, Z.testbit_odd_succ by lia. apply andb_diag.
Qed.

Lemma land_pred_range u : 0 < u -> 0 <= u .& (u - 1) < u.
Proof.
  intros Hu. split; [apply Z.land_nonneg; lia|].
  assert (u .& (u - 1) <= u - 1); [|lia]. rewrite Z.land_comm.
  assert (forall a b, 0 <= a -> 0 <= b -> a .& b <= a) as H; [|apply H; lia].
  intros a b Ha Hb. pose proof (Z.land_ldiff a b) as Hl. pose proof (Z.lor_ldiff_and a b) as Hd.
  assert (Z.ldiff a b + (a .& b) = a) as Hs.
  { rewrite Z.add_nocarry_lxor, Z.lxor_lor; [done|..]; apply Z.bits_inj'; intros i Hi;
      rewrite !Z.land_spec, Z.ldiff_spec, Z.bits_0; by destruct (Z.testbit a i), (Z.testbit b i). }
  assert (0 <= Z.ldiff a b) by (apply Z.ldiff_nonneg; lia). lia.
Qed.

(** Twice a word, its edges a sample later. *)
Lemma wordEdges_double fuel u at_ : 0 <= u < 2 ^ 31 -> wordEdges fuel (2 * u) at_ = wordEdges fuel u (at_ + 1).
Proof.
  revert u. induction fuel as [|fuel IH]; intros u Hu; cbn [wordEdges]; [done|].
  destruct (Z.eqb_spec u 0) as [->|Hne]; [done|]. rewrite (proj2 (Z.eqb_neq (2 * u) 0)) by lia.
  pose proof (land_pred_range u ltac:(lia)). rewrite clear_even, IH by lia. f_equal.
  assert (trailingZeros 32 (2 * u) = 1 + trailingZeros 31 u) as ->.
  { cbn [trailingZeros]. rewrite Z.odd_mul, Z.shiftr_div_pow2 by lia. cbn [andb Z.odd]. change (2 ^ 1) with 2.
    by rewrite (Z.mul_comm 2), Z.div_mul by lia. }
  rewrite (trailingZeros_fuel 31 32 u) by (simpl; lia). lia.
Qed.
Lemma wordEdges_bits k fuel t at_ :
  0 <= t < 2 ^ Z.of_nat k -> (k <= fuel)%nat -> (k <= 31)%nat -> wordEdges fuel t at_ = setBits k t at_.
Proof.
  revert fuel t at_. induction k as [|k IH]; intros fuel t at_ Ht Hf Hk.
  { simpl in Ht. assert (t = 0) as -> by lia. by destruct fuel. }
  destruct fuel as [|fuel]; [lia|]. rewrite Nat2Z.inj_succ, Z.pow_succ_r in Ht by lia.
  assert (2 ^ Z.of_nat k <= 2 ^ 30) by (apply Z.pow_le_mono_r; lia). set (u := t .>> 1).
  assert (t = 2 * u + (if Z.odd t then 1 else 0)) as Et.
  { unfold u. rewrite Z.shiftr_div_pow2 by lia. change (2 ^ 1) with 2. rewrite <- Zmod_odd. apply Z.div_mod. lia. }
  cbn [setBits]. fold u. clearbody u. destruct (Z.odd t) eqn:E.
  - rewrite <- (IH fuel) by lia. cbn [app wordEdges]. rewrite (proj2 (Z.eqb_neq t 0)) by lia.
    cbn [trailingZeros]. rewrite E. assert (t .& (t - 1) = 2 * u) as -> by (rewrite Et; apply clear_odd).
    rewrite wordEdges_double by lia. f_equal. lia.
  - rewrite <- (IH (S fuel)) by lia. rewrite Et, Z.add_0_r, wordEdges_double by lia. done.
Qed.

(** A word against itself a period earlier. *)
Lemma setBits_turns k w prev at_ :
  0 <= w -> prev = 0 \/ prev = 1 -> setBits k (Z.lxor w ((w .<< 1) .| prev) .& Z.ones (Z.of_nat k)) at_ = edgesOf prev (wordLevels k w) at_.
Proof.
  revert w prev at_. induction k as [|k IH]; intros w prev at_ Hw Hp; [done|]. cbn [setBits wordLevels edgesOf].
  pose proof (land1_bit w) as Hb. f_equal.
  - assert (Z.odd (Z.lxor w ((w .<< 1) .| prev) .& Z.ones (Z.of_nat (S k))) = negb ((w .& 1) =? prev)) as ->.
    { rewrite <- Z.bit0_odd, Z.land_spec, Z.lxor_spec, Z.lor_spec, Z.shiftl_spec_low by lia.
      rewrite (Z.ones_spec_low _ 0) by lia. rewrite andb_true_r, orb_false_l.
      assert (w .& 1 = Z.b2z (Z.testbit w 0)) as -> by (change 1 with (Z.ones 1); rewrite Z.land_ones by lia; symmetry; apply Z.bit0_mod).
      destruct (Z.testbit w 0), Hp as [-> | ->]; done. }
    by destruct ((w .& 1) =? prev).
  - assert (0 <= w .>> 1) as Hw1 by (apply Z.shiftr_nonneg; lia). rewrite <- (IH _ _ _ Hw1 Hb). f_equal.
    assert (Z.ones (Z.of_nat (S k)) .>> 1 = Z.ones (Z.of_nat k)) as Ho.
    { apply Z.bits_inj'. intros i Hi.
      rewrite Z.shiftr_spec, !Z.testbit_ones_nonneg by lia. destruct (Z.ltb_spec (i + 1) (Z.of_nat (S k))), (Z.ltb_spec i (Z.of_nat k)); lia || done. }
    rewrite Z.shiftr_land, Z.shiftr_lxor, Z.shiftr_lor, Ho. f_equal. f_equal.
    assert (prev .>> 1 = 0) as -> by (by destruct Hp as [-> | ->]). rewrite Z.shiftr_shiftl_l, Z.lor_0_r by lia. rewrite Z.shiftl_0_r.
    apply Z.bits_inj'. intros i Hi. rewrite Z.lor_spec, Z.land_spec. destruct (Z.eq_dec i 0) as [->|Hne].
    + rewrite Z.shiftl_spec_low by lia. change (Z.testbit 1 0) with true. by rewrite andb_true_r.
    + rewrite Z.shiftl_spec, Z.shiftr_spec by lia. change 1 with (2 ^ 0) at 3. rewrite Z.pow2_bits_false by lia.
      rewrite andb_false_r, orb_false_r. f_equal. lia.
Qed.

(** A line and the level its next sample is compared with. *)
Record part (l : EdgeLine) (prev : Z) : Prop := {
  pt_N : 0 <= N l;
  pt_first : First l = 0 \/ First l = 1;
  pt_sorted : StronglySorted Z.lt (At l);
  pt_range : Forall (fun a => 0 < a < N l) (At l);
  pt_prev : flip (First l) (length (At l)) = prev;
}.

Lemma part_bit l prev : part l prev -> prev = 0 \/ prev = 1.
Proof. intros [_ Hf _ _ <-]. by apply flip_bit. Qed.

Lemma last_default {A} (l : list A) d d' : l <> [] -> List.last l d = List.last l d'.
Proof. induction l as [|x [|y l] IH]; intros H; [done|done|]. by apply IH. Qed.
Lemma last_cons_default {A} (v : A) vs d : List.last (v :: vs) d = List.last vs v.
Proof. destruct vs as [|x vs]; [done|]. change (List.last (x :: vs) d = List.last (x :: vs) v). by apply last_default. Qed.

(** Samples added one by one. *)
Lemma edgesOf_part vs l prev :
  part l prev -> Forall (fun v => v = 0 \/ v = 1) vs -> (N l = 0 -> forall v, head vs = Some v -> v = prev) ->
  let l' := MkEdgeLine (N l + Z.of_nat (length vs)) (First l) (At l ++ edgesOf prev vs (N l)) in
  part l' (List.last vs prev) /\ levels l' = levels l ++ vs.
Proof.
  revert l prev. induction vs as [|v vs IH]; intros l prev Hp Hv Hn l'.
  { subst l'. simpl. rewrite !app_nil_r, Z.add_0_r. by destruct l. }
  pose proof Hp as [H0 Hf Hs Hr Hpr]. apply list.Forall_cons in Hv as [Hv Hvs].
  set (e := if v =? prev then [] else [N l]). set (l1 := MkEdgeLine (N l + 1) (First l) (At l ++ e)).
  assert (Forall (fun a => a = N l /\ 0 < N l) e) as He.
  { unfold e. destruct (Z.eqb_spec v prev) as [E|E]; [constructor|]. constructor; [|constructor]. split; [done|].
    destruct (Z.eq_dec (N l) 0) as [E0|E0]; [|lia]. destruct E. by apply (Hn E0). }
  assert (part l1 v) as Hp1.
  { split; simpl; [lia|done| | |].
    - apply sorted_app; [done|unfold e; destruct (v =? prev); [apply SSorted_nil|by repeat constructor]|].
      intros a b Ha Hb. rewrite list.Forall_forall in Hr, He. apply Hr in Ha. apply He in Hb. lia.
    - apply Forall_app. split; [eapply Forall_impl; [exact Hr|simpl; lia]|eapply Forall_impl; [exact He|simpl; lia]].
    - rewrite length_app, <- flip_add, Hpr. unfold e. destruct (Z.eqb_spec v prev) as [->|E]; [apply flip_0|].
      apply flip_other; [by apply (part_bit l)|done|by intros ->]. }
  assert (levels l1 = levels l ++ [v]) as Hl1.
  { apply levels_longer; [done|done| |].
    - intros i Hi. simpl. apply (old_levels _ _ _ (N l)); [lia|]. eapply Forall_impl; [exact He|simpl; lia].
    - intros [|j] Hj; [|simpl in Hj; lia]. simpl. f_equal. rewrite Z.add_0_r. destruct Hp1 as [_ _ _ _ H]. simpl in H. rewrite <- H at 1.
      unfold levelAt. f_equal. rewrite <- (app_nil_r (At l ++ e)) at 2. rewrite search_app; [simpl; lia|].
      apply Forall_app. split; [eapply Forall_impl; [exact Hr|simpl; lia]|eapply Forall_impl; [exact He|simpl; lia]]. }
  destruct (IH l1 v Hp1 Hvs ltac:(simpl; lia)) as [H1 H2].
  assert (MkEdgeLine (N l1 + Z.of_nat (length vs)) (First l1) (At l1 ++ edgesOf v vs (N l1)) = l') as El.
  { subst l' l1. cbn [N First At length edgesOf]. fold e. rewrite <- app_assoc. f_equal. lia. }
  rewrite El in H1, H2. split.
  - by rewrite last_cons_default.
  - rewrite H2, Hl1, <- app_assoc. done.
Qed.

Lemma wordLevels_bits k w : Forall (fun v => v = 0 \/ v = 1) (wordLevels k w).
Proof. revert w. induction k as [|k IH]; intros w; simpl; [done|]. constructor; [apply land1_bit|apply IH]. Qed.
Lemma length_wordLevels k w : length (wordLevels k w) = k.
Proof. revert w. induction k as [|k IH]; intros w; simpl; [done|]. by rewrite IH. Qed.
(** The last level of a word is its top bit. *)
Lemma last_wordLevels k w prev : 0 <= w < 2 ^ Z.of_nat (S k) -> List.last (wordLevels (S k) w) prev = w .>> Z.of_nat k.
Proof.
  revert w prev. induction k as [|k IH]; intros w prev Hw.
  - simpl. rewrite Z.shiftr_0_r. simpl in Hw. change 1 with (Z.ones 1). rewrite Z.land_ones by lia. apply Z.mod_small. done.
  - change (wordLevels (S (S k)) w) with ((w .& 1) :: wordLevels (S k) (w .>> 1)).
    assert (List.last ((w .& 1) :: wordLevels (S k) (w .>> 1)) prev = List.last (wordLevels (S k) (w .>> 1)) prev) as -> by done.
    rewrite IH; [rewrite Z.shiftr_shiftr by lia; f_equal; lia|]. rewrite Z.shiftr_div_pow2 by lia. change (2 ^ 1) with 2.
    rewrite Nat2Z.inj_succ, Z.pow_succ_r in Hw by lia. split; [apply Z.div_pos; lia|]. apply Z.div_lt_upper_bound; lia.
Qed.

Lemma leVal_lowBit x y : leVal [x] .& 1 = leVal [x; y] .& 1.
Proof. rewrite !land1_mod. unfold leVal. replace (x + 256 * (y + 256 * 0)) with (x + 256 * 0 + 128 * y * 2) by lia. by rewrite Z.mod_add. Qed.

Lemma slice_first {A} o (b : list A) x y : slice o 2 b = [x; y] -> slice o 1 b = [x].
Proof. unfold slice. destruct (drop o b) as [|z [|t l]]; simpl; [done|done|]. by intros [= -> _]. Qed.

Lemma appendWords_levels n raw o l prev :
  part l prev -> isBytes raw -> (4 * n <= length raw)%nat -> (o = 0 \/ o = 2)%nat ->
  (N l = 0 -> (0 < n)%nat -> leVal (slice o 1 raw) .& 1 = prev) ->
  let r := appendWords raw o n prev (N l) (At l) in
  let l' := MkEdgeLine r.1 (First l) r.2 in
  (exists p, part l' p) /\ levels l' = levels l ++ lineLevels raw o n /\ N l' = N l + 16 * Z.of_nat n.
Proof.
  revert raw l prev. induction n as [|n IH]; intros raw l prev Hp Hb Hl Ho Hn r l'.
  { subst l' r. simpl. rewrite app_nil_r, Z.add_0_r. destruct l. split; [by exists prev|done]. }
  set (w := leVal (slice o 2 raw)). assert (length (slice o 2 raw) = 2%nat) as Hlw by (apply length_slice; lia).
  assert (fits 16 w) as Hw.
  { pose proof (leVal_bound _ (isBytes_slice o 2 raw Hb)) as H. by rewrite Hlw in H. }
  pose proof (part_bit _ _ Hp) as Hpb.
  assert (wordEdges 16 (Z.lxor w ((w .<< 1) .| prev) .& 0xffff) (N l) = edgesOf prev (wordLevels 16 w) (N l)) as He.
  { rewrite <- (setBits_turns 16) by (done || apply Hw). apply wordEdges_bits; [|lia|lia]. change 0xffff with (Z.ones 16).
    rewrite Z.land_ones by lia. apply Z.mod_pos_bound. lia. }
  destruct (edgesOf_part (wordLevels 16 w) l prev Hp (wordLevels_bits 16 w)) as [H1 H2].
  { intros E v Hv. specialize (Hn E ltac:(lia)). rewrite <- Hn. simpl in Hv. injection Hv as <-. unfold w.
    destruct (slice o 2 raw) as [|x [|y [|]]] eqn:Es; try done.
    by rewrite (slice_first _ _ _ _ Es), (leVal_lowBit x y). }
  rewrite length_wordLevels in H1, H2. rewrite (last_wordLevels 15) in H1; [|exact Hw]. rewrite <- He in H1, H2.
  set (l1 := MkEdgeLine _ _ _) in H1, H2.
  destruct (IH (drop 4 raw) l1 _ H1) as (H3 & H4 & H5).
  { by apply Forall_drop. }
  { rewrite length_drop. lia. }
  { done. }
  { simpl. destruct Hp. lia. }
  subst l' r. cbn [appendWords lineLevels]. fold w. split; [exact H3|]. rewrite app_assoc, <- H2. split; [exact H4|].
  etrans; [exact H5|]. unfold l1. cbn [N]. lia.
Qed.

Lemma AppendWords_levels raw ch l :
  wf l -> isBytes raw ->
  wf (AppendWords raw ch l) /\
  levels (AppendWords raw ch l) = levels l ++ lineLevels raw (Z.to_nat (2 * (ch .& 1))) (length raw / 4).
Proof.
  intros Hw Hb. unfold AppendWords. case_decide as Hn.
  { rewrite Hn. simpl. by rewrite app_nil_r. }
  set (o := Z.to_nat (2 * (ch .& 1))). assert (o = 0 \/ o = 2)%nat as Ho.
  { unfold o. destruct (land1_bit ch) as [-> | ->]; auto. }
  set (l0 := if N l =? 0 then _ else _). pose proof Hw as [H0 Hf Hs Hr He].
  assert (part l0 (flip (First l0) (length (At l0))) /\ N l0 = N l /\ levels l0 = levels l /\
    (N l = 0 -> leVal (slice o 1 raw) .& 1 = flip (First l0) (length (At l0)))) as (Hp & Hn0 & Hl0 & Hf0).
  { unfold l0. destruct (Z.eqb_spec (N l) 0) as [E|E].
    - split; [split; simpl; [lia|apply land1_bit|apply SSorted_nil|constructor|done]|]. split; [done|]. split; [by rewrite !levels_N0|].
      intros _. simpl. by rewrite flip_0.
    - by split; [split|]. }
  assert (4 * (length raw / 4) <= length raw)%nat as Hlen by (apply Nat.Div0.mul_div_le).
  destruct (appendWords_levels (length raw / 4) raw o l0 _ Hp Hb Hlen Ho) as ([p Hp'] & H2 & H3).
  { rewrite Hn0. auto. }
  cbv zeta in *. rewrite Hl0 in H2. split; [|exact H2]. destruct Hp' as [P1 P2 P3 P4 _]. split; try done.
  cbn [N] in H3 |- *. rewrite H3, Hn0. lia.
Qed.

(** ** Any sequence of operations *)

Inductive lineOp :=
| OLevel (lvl n : Z) | OWords (raw : list Z) (ch : Z) | ORange (src : EdgeLine) (from to : Z) | ODrop (n : Z) | OReset.

Definition onLine (l : EdgeLine) (o : lineOp) : EdgeLine :=
  match o with
  | OLevel lvl n => AppendLevel lvl n l
  | OWords raw ch => AppendWords raw ch l
  | ORange src from to => AppendRange src from to l
  | ODrop n => Drop n l
  | OReset => Reset l
  end.
(** The same on the samples themselves. *)
Definition onLevels (ls : list Z) (o : lineOp) : list Z :=
  match o with
  | OLevel lvl n => ls ++ replicate (Z.to_nat n) (lvl .& 1)
  | OWords raw ch => ls ++ lineLevels raw (Z.to_nat (2 * (ch .& 1))) (length raw / 4)
  | ORange src from to => let from := Z.max from 0 in ls ++ slice (Z.to_nat from) (Z.to_nat (Z.min to (N src) - from)) (levels src)
  | ODrop n => drop (Z.to_nat n) ls
  | OReset => []
  end.
Definition opOk (o : lineOp) : Prop :=
  match o with OWords raw _ => isBytes raw | ORange src _ _ => wf src | _ => True end.

Lemma onLine_levels l o : wf l -> opOk o -> wf (onLine l o) /\ levels (onLine l o) = onLevels (levels l) o.
Proof.
  intros Hw Ho. destruct o as [lvl n|raw ch|src from to|n|]; simpl in *.
  - by apply AppendLevel_levels.
  - by apply AppendWords_levels.
  - by apply AppendRange_levels.
  - by apply Drop_levels.
  - split; [apply empty_wf|done].
Qed.

(** C11: Whatever is appended to a line and dropped from it, in whatever order,
    its edges stand for exactly the samples the same operations leave of a
    plain list of samples, and that list is what Samples writes out. *)
Theorem edges_samples ops :
  Forall opOk ops ->
  let l := foldl onLine empty ops in
  wf l /\ levels l = foldl onLevels [] ops /\
  Samples l = map (fun v => if v =? 0 then 0 else 255) (foldl onLevels [] ops).
Proof.
  intros Ho. cbv zeta.
  assert (forall l, wf l -> wf (foldl onLine l ops) /\ levels (foldl onLine l ops) = foldl onLevels (levels l) ops) as H.
  { induction Ho as [|o ops Ho Hos IH]; intros l Hw; simpl; [done|].
    destruct (onLine_levels l o Hw Ho) as [H1 H2]. rewrite <- H2. by apply IH. }
  destruct (H empty empty_wf) as [H1 H2]. split; [done|]. split; [done|]. by rewrite (Samples_levels _ H1), H2.
Qed.
