(* ===== verification/StreamDec.v ===== *)
(** * Frames out of a continuous stream

    src/app/internal/decode/stream.go: a whole-buffer decoder run over a stream
    that arrives in chunks, on samples or on edges. The decoders are the
    functions the decoder is made with. Lengths and indices within a window
    are ints without bounds, the stream's indices 64-bit. *)
From stdpp Require Import sorting list.
From S2P Require Import Prelude EdgeLine.

(** A decoded token, in samples of the window it was read in. *)
Record Span := MkSpan { I0 : Z; I1 : Z; Text : string; Kind : string; Val : Z }.
(** The same, and a frame of them, in samples of the stream. *)
Record StreamSpan := MkStreamSpan { S0 : Z; S1 : Z; SText : string; SKind : string; SVal : Z }.
Record StreamFrame := MkStreamFrame { F0 : Z; F1 : Z; Spans : list StreamSpan }.

Definition kindSOF : string := "sof".
Definition kindBreak : string := "break".
Definition kindRW : string := "rw".

(** The window and where it lies; the working arrays of a decode are left out. *)
Record StreamDecoder := MkStreamDecoder {
  closeN : Z; maxN : Z;
  winA : list Z; winB : list Z;
  base : Z; done_ : Z;
  subframes : bool; leadN : Z;
  atStart : bool; startAt : Z;
  edges : bool; ea : EdgeLine; eb : EdgeLine
}.

Definition len {A} (l : list A) : Z := Z.of_nat (length l).

(** A frame under way: its spans, and its extent in the window. *)
Record streamGroup := MkGroup { g_spans : list Span; g_i0 : Z; g_i1 : Z }.

Section Stream.
Context (decode : list Z -> option (list Z) -> list Span) (edec : EdgeLine -> option EdgeLine -> list Span).

Definition NewStreamDecoder (closeN maxN : Z) : StreamDecoder :=
  let closeN := Z.max closeN 2 in
  MkStreamDecoder closeN (Z.max maxN (4 * closeN)) [] [] 0 0 false 0 false 0 false empty empty.
Definition NewEdgeStreamDecoder (closeN maxN : Z) : StreamDecoder :=
  let d := NewStreamDecoder closeN maxN in
  MkStreamDecoder (StreamDec.closeN d) (StreamDec.maxN d) [] [] 0 0 false 0 false 0 true empty empty.

Definition set_window (a b : list Z) (la lb : EdgeLine) (d : StreamDecoder) : StreamDecoder :=
  MkStreamDecoder (closeN d) (maxN d) a b (base d) (done_ d) (subframes d) (leadN d) (atStart d) (startAt d) (edges d) la lb.
Definition set_place (b n : Z) (d : StreamDecoder) : StreamDecoder :=
  MkStreamDecoder (closeN d) (maxN d) (winA d) (winB d) b n (subframes d) (leadN d) (atStart d) (startAt d) (edges d) (ea d) (eb d).
Definition set_start (s : bool) (d : StreamDecoder) : StreamDecoder :=
  MkStreamDecoder (closeN d) (maxN d) (winA d) (winB d) (base d) (done_ d) (subframes d) (leadN d) s (startAt d) (edges d) (ea d) (eb d).

Definition SetLead (n : Z) (d : StreamDecoder) : StreamDecoder :=
  MkStreamDecoder (closeN d) (maxN d) (winA d) (winB d) (base d) (done_ d) (subframes d) (Z.max n 0) (atStart d) (startAt d) (edges d) (ea d) (eb d).
Definition CutStart (at_ : Z) (d : StreamDecoder) : StreamDecoder :=
  MkStreamDecoder (closeN d) (maxN d) (winA d) (winB d) (base d) (done_ d) (subframes d) (leadN d) true at_ (edges d) (ea d) (eb d).
Definition SetSubframes (on : bool) (d : StreamDecoder) : StreamDecoder :=
  MkStreamDecoder (closeN d) (maxN d) (winA d) (winB d) (base d) (done_ d) on (leadN d) (atStart d) (startAt d) (edges d) (ea d) (eb d).

Definition Held (d : StreamDecoder) : Z := if edges d then N (ea d) else len (winA d).
Definition Next (d : StreamDecoder) : Z := u64 (base d + Held d).

Definition isFrameStart (d : StreamDecoder) (s : Span) : bool :=
  bool_decide (Kind s = kindSOF) || bool_decide (Kind s = kindBreak) || (subframes d && bool_decide (Kind s = kindRW)).

Definition keepFirst (i0 : Z) (sp : Span) (d : StreamDecoder) : bool * StreamDecoder :=
  if negb (atStart d) || (u64 (base d + i0) <? startAt d) then (true, d)
  else (isFrameStart d sp && (u64 (startAt d + closeN d) <=? u64 (base d + i0)), set_start false d).

(** *** A window's spans *)

Fixpoint spansSorted (sp : list Span) : bool :=
  match sp with
  | s :: (t :: _) as sp' => negb (I0 t <? I0 s) && spansSorted sp'
  | _ => true
  end.
(** [sort.SliceStable] by the starts. *)
Fixpoint insertSpan (s : Span) (sp : list Span) : list Span :=
  match sp with
  | [] => [s]
  | t :: sp' => if I0 t <? I0 s then t :: insertSpan s sp' else s :: sp
  end.
Definition sortSpans (sp : list Span) : list Span := foldr insertSpan [] sp.

Definition windowSpan (d : StreamDecoder) (n : Z) (s : Span) : option Span :=
  if (0 <=? I0 s) && (I0 s <? n) && (done_ d <=? u64 (base d + I0 s))
  then Some (MkSpan (I0 s) (Z.max (I0 s) (I1 s)) (Text s) (Kind s) (Val s)) else None.
Definition windowSpans (d : StreamDecoder) (n : Z) (r : list Span) : list Span :=
  let sp := omap (windowSpan d n) r in
  if spansSorted sp then sp else sortSpans sp.

(** *** Frames *)

Definition single (s : Span) : streamGroup := MkGroup [s] (I0 s) (I1 s).
Definition joined (g : streamGroup) (s : Span) : streamGroup := MkGroup (g_spans g ++ [s]) (g_i0 g) (Z.max (g_i1 g) (I1 s)).
Definition opens (d : StreamDecoder) (g : streamGroup) (s : Span) : bool :=
  isFrameStart d s || (closeN d <? I0 s - g_i1 g).
Fixpoint grouping (d : StreamDecoder) (g : streamGroup) (sp : list Span) : list streamGroup :=
  match sp with
  | [] => [g]
  | s :: sp => if opens d g s then g :: grouping d (single s) sp else grouping d (joined g s) sp
  end.
Definition groups (d : StreamDecoder) (sp : list Span) : list streamGroup :=
  match sp with [] => [] | s :: sp => grouping d (single s) sp end.

Definition streamSpan (d : StreamDecoder) (s : Span) : StreamSpan :=
  MkStreamSpan (u64 (base d + I0 s)) (u64 (base d + I1 s)) (Text s) (Kind s) (Val s).
Definition streamFrame (d : StreamDecoder) (g : streamGroup) : StreamFrame :=
  MkStreamFrame (u64 (base d + g_i0 g)) (u64 (base d + g_i1 g)) (map (streamSpan d) (g_spans g)).

(** The frames taken so far, and the end of the last of them or of a dropped one. *)
Record taken := MkTaken { t_out : list StreamFrame; t_last : option Z; t_dec : StreamDecoder }.
Definition takeGroup (g : streamGroup) (t : taken) : taken :=
  match g_spans g with
  | [] => t (* no group is empty *)
  | sp :: _ =>
      let '(keep, d) := keepFirst (g_i0 g) sp (t_dec t) in
      MkTaken (if (keep : bool) then t_out t ++ [streamFrame d g] else t_out t) (Some (g_i1 g)) d
  end.

(** The whole groups, those with Close samples after them; the others. *)
Fixpoint takeWhole (n : Z) (gs : list streamGroup) (t : taken) : list streamGroup * taken :=
  match gs with
  | [] => ([], t)
  | g :: gs' => if n - 1 - g_i1 g <=? closeN (t_dec t) then (gs, t) else takeWhole n gs' (takeGroup g t)
  end.

(** The spans ahead of the first that ends within Close of the window's end. *)
Fixpoint settled (limit : Z) (sp : list Span) : list Span * list Span :=
  match sp with
  | [] => ([], [])
  | s :: sp' => if I1 s <? limit then let r := settled limit sp' in (s :: r.1, r.2) else ([], sp)
  end.
(** A bus that never pauses: those spans as a frame. *)
Definition takeForced (n : Z) (rest : list streamGroup) (t : taken) : list streamGroup * taken :=
  match rest with
  | g :: gs =>
      if maxN (t_dec t) <? n - g_i0 g then
        let r := settled (n - closeN (t_dec t)) (g_spans g) in
        match last r.1 with
        | None => (rest, t)
        | Some s =>
            (MkGroup r.2 (match r.2 with s :: _ => I0 s | [] => g_i0 g end) (g_i1 g) :: gs,
             takeGroup (MkGroup r.1 (g_i0 g) (I1 s)) t)
        end
      else (rest, t)
  | [] => (rest, t)
  end.

(** Where the next window starts, and done. *)
Definition nextCut (n : Z) (rest : list streamGroup) (t : taken) : Z * Z :=
  let d := t_dec t in
  let open := match rest with g :: _ => if decide (g_spans g = []) then None else Some (g_i0 g) | [] => None end in
  let '(cut, fin) :=
    match t_last t with
    | Some last =>
        let next := match open with Some i => i | None => n end in
        let cut := Z.max (last + 1) (last + Z.quot (next - last) 2) in
        let cut := Z.min (Z.min cut (Z.max (last + 1) (n - closeN d))) next in
        (Z.max 0 (Z.min cut (next - leadN d)), u64 (base d + last + 1))
    | None =>
        match open with
        | None => (Z.max 0 (n - closeN d - leadN d), done_ d)
        | Some i => (Z.max 0 (i - closeN d - leadN d), done_ d)
        end
    end in
  let limit := 2 * maxN d + leadN d in
  if limit <? n - cut then (n - limit, Z.max fin (u64 (base d + (n - limit)))) else (cut, fin).

Definition dropWindow (cut n : Z) (d : StreamDecoder) : StreamDecoder :=
  let d' :=
    if edges d then
      set_window (winA d) (winB d) (Drop cut (ea d)) (if N (eb d) =? n then Drop cut (eb d) else eb d) d
    else
      set_window (drop (Z.to_nat cut) (winA d)) (if len (winB d) =? n then drop (Z.to_nat cut) (winB d) else winB d) (ea d) (eb d) d in
  set_place (u64 (base d + cut)) (done_ d) d'.

Definition decoded (d : StreamDecoder) : list Span :=
  let n := Held d in
  if edges d then edec (ea d) (if N (eb d) =? n then Some (eb d) else None)
  else decode (winA d) (if len (winB d) =? n then Some (winB d) else None).

Definition run (d : StreamDecoder) : list StreamFrame * StreamDecoder :=
  let n := Held d in
  if n =? 0 then ([], d)
  else
    let gs := groups d (windowSpans d n (decoded d)) in
    let '(rest, t) := takeWhole n gs (MkTaken [] None d) in
    let '(rest, t) := takeForced n rest t in
    let '(cut, fin) := nextCut n rest t in
    let d := set_place (base d) fin (t_dec t) in
    (t_out t, if 0 <? cut then dropWindow (Z.min cut n) n d else d).

Definition Push (a : list Z) (b : option (list Z)) (d : StreamDecoder) : list StreamFrame * StreamDecoder :=
  run (set_window (winA d ++ a) (winB d ++ default [] b) (ea d) (eb d) d).
Definition PushEdges (a : EdgeLine) (b : option EdgeLine) (from to : Z) (d : StreamDecoder) : list StreamFrame * StreamDecoder :=
  run (set_window (winA d) (winB d) (AppendRange a from to (ea d)) (match b with Some b => AppendRange b from to (eb d) | None => eb d end) d).
Definition Skip (n : Z) (d : StreamDecoder) : StreamDecoder :=
  let b := u64 (base d + u64 (Held d + n)) in
  set_window [] [] (Reset (ea d)) (Reset (eb d)) (set_place b (Z.max (done_ d) b) d).
Definition Flush (d : StreamDecoder) : list StreamFrame * StreamDecoder :=
  let '(out, d) := run d in (out, Skip 0 d).
End Stream.
