(* ===== verification/StreamDecRun.v ===== *)
(** * What a stream's decoder hands out

    Whatever the decoder underneath reports: no span is handed out twice or out
    of order, and the window stays bounded and is the stream's tail. *)
From stdpp Require Import sorting list.
From S2P Require Import Prelude EdgeLine StreamDec.

(** ** Lists in order *)

Abbreviation ascending := (StronglySorted (fun s t : Span => I0 s <= I0 t)).

Lemma sublist_sorted {A} (R : relation A) l k : sublist l k -> StronglySorted R k -> StronglySorted R l.
Proof.
  induction 1 as [|x l k Hs IH|x l k Hs IH]; intros Hk; [constructor|..]; inversion_clear Hk as [|? ? Hk' Hx].
  - apply SSorted_cons; [by apply IH|]. rewrite list.Forall_forall in *. intros y Hy. apply Hx. eapply elem_of_submseteq; [exact Hy|by apply sublist_submseteq].
  - by apply IH.
Qed.
Lemma sublist_concat {A B} (f : A -> list B) l k : sublist l k -> sublist (concat (map f l)) (concat (map f k)).
Proof.
  induction 1 as [|x l k Hs IH|x l k Hs IH]; simpl; [done|by apply sublist_app|by apply sublist_inserts_l].
Qed.
Lemma sorted_app_inv {A} (R : relation A) l k :
  StronglySorted R (l ++ k) -> StronglySorted R l /\ StronglySorted R k /\ (forall x y, x ∈ l -> y ∈ k -> R x y).
Proof.
  induction l as [|a l IH]; simpl; intros H.
  { split; [constructor|]. split; [done|]. by intros x y Hx%not_elem_of_nil. }
  inversion_clear H as [|? ? H' Ha]. destruct (IH H') as (H1 & H2 & H3). apply Forall_app in Ha as [Ha1 Ha2].
  split; [by apply SSorted_cons|]. split; [done|]. intros x y [->|Hx]%elem_of_cons Hy; [|by apply H3].
  rewrite list.Forall_forall in Ha2. by apply Ha2.
Qed.

Lemma filter_split {A} (R : relation A) (P Q : A -> Prop) `{!forall x, Decision (P x), !forall x, Decision (Q x)} (l : list A) :
  StronglySorted R l -> (forall x y, x ∈ l -> y ∈ l -> R x y -> Q y -> Q x) ->
  filter P l = filter (fun x => P x /\ Q x) l ++ filter (fun x => P x /\ ~ Q x) l.
Proof.
  intros Hs HQ. induction Hs as [|x l Hs IH Hx]; [done|]. rewrite !filter_cons. rewrite list.Forall_forall in Hx.
  destruct (decide (Q x)) as [Hq|Hq].
  - rewrite IH by (intros a b Ha Hb; apply HQ; by right). destruct (decide (P x)).
    + rewrite (decide_True (P := P x /\ Q x)), (decide_False (P := P x /\ ~ Q x)) by tauto. done.
    + rewrite (decide_False (P := P x /\ Q x)), (decide_False (P := P x /\ ~ Q x)) by tauto. done.
  - assert (forall y, y ∈ l -> ~ Q y) as Hn.
    { intros y Hy HQy. apply Hq. apply (HQ x y); [by left|by right|by apply Hx|done]. }
    assert (filter (fun y => P y /\ Q y) l = []) as ->.
    { clear -Hn. induction l as [|y l IH]; [done|]. rewrite filter_cons. rewrite decide_False by (intros [_ Hy]; apply (Hn y); [by left|done]).
      apply IH. intros z Hz. apply Hn. by right. }
    assert (filter (fun y => P y /\ ~ Q y) l = filter P l) as ->.
    { clear -Hn. induction l as [|y l IH]; [done|]. rewrite !filter_cons, IH by (intros z Hz; apply Hn; by right).
      assert (~ Q y) by (apply Hn; by left). destruct (decide (P y)), (decide (P y /\ ~ Q y)); tauto. }
    rewrite (decide_False (P := P x /\ Q x)) by tauto. destruct (decide (P x)), (decide (P x /\ ~ Q x)); tauto.
Qed.
Lemma filter_same {A} (P Q : A -> Prop) `{!forall x, Decision (P x), !forall x, Decision (Q x)} (l : list A) :
  (forall x, x ∈ l -> P x <-> Q x) -> filter P l = filter Q l.
Proof.
  induction l as [|x l IH]; intros HPQ; [done|]. rewrite !filter_cons, IH by (intros y Hy; apply HPQ; by right).
  assert (P x <-> Q x) by (apply HPQ; by left). destruct (decide (P x)), (decide (Q x)); tauto.
Qed.
Lemma filter_sorted {A} (R : relation A) (P : A -> Prop) `{!forall x, Decision (P x)} (l : list A) : StronglySorted R l -> StronglySorted R (filter P l).
Proof. intros Hs. eapply sublist_sorted; [apply sublist_filter|done]. Qed.
Lemma last_sorted {A} (R : relation A) (l : list A) x y : StronglySorted R l -> last l = Some y -> x ∈ l -> x = y \/ R x y.
Proof.
  intros Hs Hl Hx. apply last_Some in Hl as [l' ->]. apply sorted_app_inv in Hs as (_ & _ & H).
  apply elem_of_app in Hx as [Hx| ->%list_elem_of_singleton]; [right|by left]. apply H; [done|by left].
Qed.

(** ** The window's spans *)

Lemma insertSpan_perm s sp : insertSpan s sp ≡ₚ s :: sp.
Proof. induction sp as [|t sp IH]; simpl; [done|]. destruct (I0 t <? I0 s); [|done]. rewrite IH. apply perm_swap. Qed.
Lemma insertSpan_sorted s sp : ascending sp -> ascending (insertSpan s sp).
Proof.
  induction 1 as [|t sp Hs IH Ht]; simpl; [by repeat constructor|]. destruct (Z.ltb_spec (I0 t) (I0 s)) as [Hlt|Hge].
  - apply SSorted_cons; [done|]. rewrite insertSpan_perm. by constructor; [lia|].
  - apply SSorted_cons; [by apply SSorted_cons|]. constructor; [done|]. eapply Forall_impl; [exact Ht|]. simpl. lia.
Qed.
Lemma sortSpans_ok sp : ascending (sortSpans sp) /\ sortSpans sp ≡ₚ sp.
Proof.
  induction sp as [|s sp [IH1 IH2]]; simpl; [by split; [apply SSorted_nil|]|]. split; [by apply insertSpan_sorted|].
  rewrite insertSpan_perm. by constructor.
Qed.
Lemma spansSorted_ok sp : spansSorted sp = true -> ascending sp.
Proof.
  intros H. assert (Sorted (fun s t : Span => I0 s <= I0 t) sp) as Hs.
  { induction sp as [|s [|t sp] IH]; [constructor|by repeat constructor|]. simpl in H.
    apply andb_true_iff in H as [H1%negb_true_iff%Z.ltb_ge H2]. constructor; [by apply IH|by constructor]. }
  apply Sorted_StronglySorted in Hs; [done|]. intros x y z. lia.
Qed.

(** A span that may be handed out. *)
Definition spanOk (d : StreamDecoder) (n : Z) (s : Span) : Prop :=
  0 <= I0 s < n /\ I0 s <= I1 s /\ done_ d <= u64 (base d + I0 s).

Lemma windowSpans_ok d n r : ascending (windowSpans d n r) /\ Forall (spanOk d n) (windowSpans d n r).
Proof.
  assert (Forall (spanOk d n) (omap (windowSpan d n) r)) as Hok.
  { apply list.Forall_forall. intros s (t & _ & Ht)%list_elem_of_omap. unfold windowSpan in Ht.
    destruct ((0 <=? I0 t) && (I0 t <? n) && (done_ d <=? u64 (base d + I0 t))) eqn:E; [|done]. injection Ht as <-.
    apply andb_true_iff in E as [[E1%Z.leb_le E2%Z.ltb_lt]%andb_true_iff E3%Z.leb_le]. unfold spanOk. simpl. lia. }
  unfold windowSpans. destruct (spansSorted (omap (windowSpan d n) r)) eqn:E.
  - split; [by apply spansSorted_ok|done].
  - destruct (sortSpans_ok (omap (windowSpan d n) r)) as [H1 H2]. split; [done|]. by rewrite H2.
Qed.

(** ** Groups *)

Record groupOk (g : streamGroup) : Prop := {
  go_head : exists s l, g_spans g = s :: l /\ g_i0 g = I0 s;
  go_ends : Forall (fun s => I1 s <= g_i1 g) (g_spans g);
}.

Lemma single_ok s : groupOk (single s).
Proof. split; [by exists s, []|]. constructor; [simpl; lia|constructor]. Qed.
Lemma grouping_ok d g sp :
  groupOk g -> Forall groupOk (grouping d g sp) /\ concat (map g_spans (grouping d g sp)) = g_spans g ++ sp.
Proof.
  revert g. induction sp as [|s sp IH]; intros g Hg; simpl.
  { split; [by constructor|done]. }
  destruct (opens d g s).
  - destruct (IH (single s)) as [H1 H2].
    { apply single_ok. }
    simpl. rewrite H2. by split; [constructor|].
  - destruct (IH (joined g s)) as [H1 H2].
    { destruct Hg as [(t & l & H & Hi) He]. split.
      - exists t, (l ++ [s]). simpl. by rewrite H.
      - simpl. apply Forall_app. split; [eapply Forall_impl; [exact He|simpl; lia]|]. constructor; [lia|constructor]. }
    rewrite H2. simpl. by rewrite <- app_assoc.
Qed.
Lemma groups_ok d sp : Forall groupOk (groups d sp) /\ concat (map g_spans (groups d sp)) = sp.
Proof.
  destruct sp as [|s sp]; simpl; [by split; [constructor|]|]. apply grouping_ok, single_ok.
Qed.

(** ** Taking frames *)

(** Everything but the start's mark. *)
Definition sameAs (d d' : StreamDecoder) : Prop := exists b, d' = set_start b d.
Lemma sameAs_refl d : sameAs d d.
Proof. exists (atStart d). by destruct d. Qed.
Lemma sameAs_trans d d' d'' : sameAs d d' -> sameAs d' d'' -> sameAs d d''.
Proof. intros [b ->] [b' ->]. by exists b'. Qed.

(** [t'] goes on from [t] with the groups [pre], of which it kept [kept]. *)
Record takes (t t' : taken) (pre kept : list streamGroup) : Prop := {
  tk_dec : sameAs (t_dec t) (t_dec t');
  tk_kept : sublist kept pre;
  tk_out : t_out t' = t_out t ++ map (streamFrame (t_dec t)) kept;
  tk_last : t_last t' = match last pre with Some g => Some (g_i1 g) | None => t_last t end;
}.

Lemma streamFrame_same d d' g : sameAs d d' -> streamFrame d' g = streamFrame d g.
Proof. by intros [b ->]. Qed.

Lemma takesGroups_nil t : takes t t [] [].
Proof. split; simpl; [apply sameAs_refl|done|by rewrite app_nil_r|done]. Qed.
Lemma takes_one g t : g_spans g <> [] -> exists kept, takes t (takeGroup g t) [g] kept.
Proof.
  intros Hg. unfold takeGroup. destruct (g_spans g) as [|s l]; [done|].
  assert (sameAs (t_dec t) (keepFirst (g_i0 g) s (t_dec t)).2) as Hs.
  { unfold keepFirst. destruct (_ || _); [apply sameAs_refl|by exists false]. }
  destruct (keepFirst (g_i0 g) s (t_dec t)) as [[|] d]; simpl in Hs.
  - exists [g]. split; simpl; [done|done| |done]. by rewrite (streamFrame_same _ _ _ Hs).
  - exists []. split; simpl; [done|by apply sublist_nil_l| |done]. by rewrite app_nil_r.
Qed.
Lemma takesGroups_trans t t1 t2 pre1 pre2 k1 k2 :
  takes t t1 pre1 k1 -> takes t1 t2 pre2 k2 -> takes t t2 (pre1 ++ pre2) (k1 ++ k2).
Proof.
  intros [A1 A2 A3 A4] [B1 B2 B3 B4]. split.
  - by eapply sameAs_trans.
  - by apply sublist_app.
  - rewrite B3, A3, map_app, <- app_assoc. do 2 f_equal. apply map_ext. intros g. by apply streamFrame_same.
  - rewrite B4, A4, last_app. by destruct (last pre2).
Qed.

Lemma takeWhole_takes n gs t :
  Forall groupOk gs ->
  let r := takeWhole n gs t in
  exists pre kept, gs = pre ++ r.1 /\ takes t r.2 pre kept /\
    Forall (fun g => closeN (t_dec t) < n - 1 - g_i1 g) pre /\
    (forall g gs', r.1 = g :: gs' -> n - 1 - g_i1 g <= closeN (t_dec t)).
Proof.
  intros Hg. revert t. induction Hg as [|g gs Hg Hgs IH]; intros t; simpl.
  { exists [], []. split; [done|]. split; [apply takesGroups_nil|]. split; [constructor|done]. }
  destruct (Z.leb_spec (n - 1 - g_i1 g) (closeN (t_dec t))) as [Hle|Hgt].
  { exists [], []. split; [done|]. split; [apply takesGroups_nil|]. split; [constructor|]. by intros ? ? [= <- _]. }
  destruct Hg as [(s & l & Hs & _) _]. destruct (takes_one g t) as [k Hk]; [by rewrite Hs|].
  destruct (IH (takeGroup g t)) as (pre & kept & H1 & H2 & H3 & H4).
  assert (closeN (t_dec (takeGroup g t)) = closeN (t_dec t)) as Hc by (by destruct (tk_dec _ _ _ _ Hk) as [b ->]).
  exists (g :: pre), (k ++ kept). rewrite Hc in H3, H4. split; [simpl; by f_equal|].
  split; [by apply (takesGroups_trans _ _ _ [g] pre _ _ Hk)|]. split; [by constructor|done].
Qed.

Lemma settled_ok limit sp : let r := settled limit sp in sp = r.1 ++ r.2 /\ Forall (fun s => I1 s < limit) r.1.
Proof.
  induction sp as [|s sp [IH1 IH2]]; simpl; [done|]. destruct (Z.ltb_spec (I1 s) limit) as [H|H]; simpl; [|done].
  split; [by f_equal|by constructor].
Qed.

(** All that a run takes: whole groups, then perhaps the settled part of the next. *)
Lemma takeForced_takes n rest t :
  Forall groupOk rest ->
  let r := takeForced n rest t in
  (r = (rest, t)) \/
  exists g gs kept s, rest = g :: gs /\ maxN (t_dec t) < n - g_i0 g /\
    let p := settled (n - closeN (t_dec t)) (g_spans g) in
    last p.1 = Some s /\ takes t r.2 [MkGroup p.1 (g_i0 g) (I1 s)] kept.
Proof.
  intros Hr. unfold takeForced. destruct rest as [|g gs]; [by left|].
  destruct (Z.ltb_spec (maxN (t_dec t)) (n - g_i0 g)) as [Hm|Hm]; [|by left].
  set (p := settled (n - closeN (t_dec t)) (g_spans g)). destruct (last p.1) as [s|] eqn:E; [|by left]. right.
  destruct (takes_one (MkGroup p.1 (g_i0 g) (I1 s)) t) as [k Hk].
  { simpl. intros E'. by rewrite E' in E. }
  by exists g, gs, k, s.
Qed.

(** ** A run *)

Lemma last_highest l x : ascending l -> last l = Some x -> forall y, y ∈ l -> I0 y <= I0 x.
Proof.
  intros Ha Hl. apply last_Some in Hl as [l' ->]. apply sorted_app_inv in Ha as (_ & _ & H).
  intros y [Hy| ->%list_elem_of_singleton]%elem_of_app; [|lia]. apply H; [done|by apply list_elem_of_singleton].
Qed.

(** Groups in order, the last one's end past every start. *)
Definition upTo (pre : list streamGroup) (i : Z) : Prop := forall s, s ∈ concat (map g_spans pre) -> I0 s <= i.

Lemma whole_upTo d n pre g :
  Forall groupOk (pre ++ [g]) -> ascending (concat (map g_spans (pre ++ [g]))) -> Forall (spanOk d n) (concat (map g_spans (pre ++ [g]))) ->
  upTo (pre ++ [g]) (g_i1 g).
Proof.
  intros Hg Ha Hs. apply Forall_app in Hg as [_ Hg]. apply Forall_cons_1 in Hg as [[(s & l & Hl & Hi) He] _].
  unfold upTo. rewrite map_app, concat_app in *. simpl in *. rewrite app_nil_r in *. apply Forall_app in Hs as [_ Hs]. apply sorted_app_inv in Ha as (_ & _ & Ha).
  rewrite list.Forall_forall in He, Hs. assert (s ∈ g_spans g) as Hin by (rewrite Hl; by left).
  assert (forall x, x ∈ g_spans g -> I0 x <= g_i1 g) as Hx.
  { intros x Hx. specialize (He x Hx). destruct (Hs x Hx) as (_ & H & _). lia. }
  intros x [Hp|Hp]%elem_of_app; [|auto]. specialize (Ha x s Hp Hin). specialize (Hx s Hin). simpl in Ha. lia.
Qed.

Lemma group_high d n g : groupOk g -> Forall (spanOk d n) (g_spans g) -> exists s, s ∈ g_spans g /\ I0 s <= g_i1 g.
Proof.
  intros [(s & l & Hl & Hi) He] Hs. assert (s ∈ g_spans g) as Hin by (rewrite Hl; by left). exists s. split; [done|].
  rewrite list.Forall_forall in He. rewrite list.Forall_forall in Hs. specialize (He s Hin). destruct (Hs s Hin) as (_ & H & _). simpl in He. lia.
Qed.
Lemma in_concat g (pre : list streamGroup) s : g ∈ pre -> s ∈ g_spans g -> s ∈ concat (map g_spans pre).
Proof. intros Hg Hs. apply list_elem_of_In, List.in_concat. exists (g_spans g). split; [apply in_map|]; by apply list_elem_of_In. Qed.

Record ran (d : StreamDecoder) (n : Z) (sp : list Span) (t : taken) (pre kept : list streamGroup) : Prop := {
  rn_takes : takes (MkTaken [] None d) t pre kept;
  rn_prefix : exists suf, sp = concat (map g_spans pre) ++ suf;
  rn_closed : Forall (fun g => g_i1 g + closeN d < n) pre;
  rn_high : Forall (fun g => exists s, s ∈ sp /\ I0 s <= g_i1 g) pre;
  rn_last : forall g, last pre = Some g -> upTo pre (g_i1 g);
}.

Lemma run_ran d n sp :
  ascending sp -> Forall (spanOk d n) sp ->
  let w := takeWhole n (groups d sp) (MkTaken [] None d) in
  let f := takeForced n w.1 w.2 in
  exists pre kept, ran d n sp f.2 pre kept.
Proof.
  intros Ha Hs w f. destruct (groups_ok d sp) as [Hg Hc].
  destruct (takeWhole_takes n (groups d sp) (MkTaken [] None d) Hg) as (pre & kept & H1 & H2 & H3 & H4). fold w in H1, H2, H4.
  assert (sp = concat (map g_spans pre) ++ concat (map g_spans w.1)) as Hsp by (by rewrite <- concat_app, <- map_app, <- H1).
  assert (Forall groupOk pre /\ Forall groupOk w.1) as [Hgp Hgw] by (by apply Forall_app; rewrite <- H1).
  assert (Forall (fun g => exists s, s ∈ sp /\ I0 s <= g_i1 g) pre) as Hhigh.
  { apply list.Forall_forall. intros g Hin. rewrite list.Forall_forall in Hgp. rewrite list.Forall_forall in Hs.
    assert (forall x, x ∈ g_spans g -> x ∈ sp) as Hx.
    { intros x Hx. rewrite Hsp. apply elem_of_app. left. by apply (in_concat g). }
    destruct (group_high d n g (Hgp g Hin)) as (s & H & Hi); [|by exists s; auto]. apply list.Forall_forall. intros x H. by apply Hs, Hx. }
  assert (forall g, last pre = Some g -> upTo pre (g_i1 g)) as Hwhole.
  { intros g Hl. apply last_Some in Hl as [pre' ->]. rewrite Hsp in Ha. rewrite Hsp in Hs. apply sorted_app_inv in Ha as (Ha & _ & _).
    apply Forall_app in Hs as [Hs _]. by apply (whole_upTo d n pre' g). }
  pose proof (takeForced_takes n w.1 w.2 Hgw) as HF. cbv zeta in HF. fold f in HF.
  destruct HF as [Hf|(g & gs & k & s & Hr & _ & Hlast & Ht)].
  - exists pre, kept. rewrite Hf. split; [done|by eexists|eapply Forall_impl; [exact H3|simpl; lia]|done|done].
  - assert (closeN (t_dec w.2) = closeN d) as Hcl by (by destruct (tk_dec _ _ _ _ H2) as [b ->]). rewrite Hcl in *.
    destruct (settled_ok (n - closeN d) (g_spans g)) as [Hp Hlt]. set (p := settled (n - closeN d) (g_spans g)) in *.
    set (q := MkGroup p.1 (g_i0 g) (I1 s)) in *. exists (pre ++ [q]), (kept ++ k).
    assert (sp = concat (map g_spans (pre ++ [q])) ++ p.2 ++ concat (map g_spans gs)) as Hsp'.
    { rewrite Hsp at 1. rewrite map_app, concat_app, Hr. simpl. rewrite app_nil_r, Hp at 1. by rewrite <- !app_assoc. }
    assert (s ∈ p.1) as Hin by (apply last_Some in Hlast as [l Hl]; rewrite Hl; apply elem_of_app; right; by left).
    assert (s ∈ sp) as Hsin by (rewrite Hsp'; apply elem_of_app; left; apply (in_concat q); [apply elem_of_app; right; by left|done]).
    assert (I0 s <= I1 s) as Hle by (rewrite list.Forall_forall in Hs; by apply Hs).
    split.
    + by eapply takesGroups_trans.
    + by eexists.
    + apply Forall_app. split; [eapply Forall_impl; [exact H3|simpl; lia]|]. constructor; [|constructor]. simpl.
      rewrite list.Forall_forall in Hlt. specialize (Hlt s Hin). simpl in Hlt. lia.
    + apply Forall_app. split; [done|]. constructor; [|constructor]. by exists s.
    + intros g' Hl. rewrite last_snoc in Hl. injection Hl as <-. intros y Hy. cbn [g_i1 q].
      rewrite Hsp' in Ha. apply sorted_app_inv in Ha as (Ha & _ & _).
      assert (I0 y <= I0 s); [|lia]. apply (last_highest _ s Ha); [|done]. rewrite map_app, concat_app. simpl. rewrite app_nil_r, last_app.
      change (g_spans q) with p.1. by rewrite Hlast.
Qed.

(** A decoder as it is between calls. *)
Record small (d : StreamDecoder) : Prop := {
  sm_close : 2 <= closeN d /\ 4 * closeN d <= maxN d /\ 0 <= leadN d;
  sm_place : 0 <= base d /\ 0 <= done_ d <= base d + Held d /\ base d + Held d < 2 ^ 63;
  sm_lines : wf (ea d) /\ wf (eb d);
}.

Lemma u64_small x : 0 <= x < 2 ^ 63 -> u64 x = x.
Proof. intros. apply u64_fits. unfold fits. lia. Qed.
Lemma Held_nonneg d : wf (ea d) -> 0 <= Held d.
Proof. intros [H _ _ _ _]. unfold Held, len. destruct (edges d); lia. Qed.

Lemma nextCut_ok n rest t :
  let d := t_dec t in
  2 <= closeN d /\ 4 * closeN d <= maxN d /\ 0 <= leadN d -> 0 <= base d -> 0 <= n -> base d + n < 2 ^ 63 ->
  0 <= done_ d <= base d + n -> (forall i, t_last t = Some i -> 0 <= i /\ i + closeN d < n /\ done_ d <= base d + i + 1) ->
  let r := nextCut n rest t in
  0 <= r.1 /\ n - r.1 <= 2 * maxN d + leadN d /\ done_ d <= r.2 <= base d + n /\
  (forall i, t_last t = Some i -> base d + i + 1 <= r.2).
Proof.
  intros d Hc Hb Hn0 Hn Hd Hl r. subst r. unfold nextCut. fold d.
  set (open := match rest with g :: _ => _ | [] => None end). set (pr := match t_last t with Some _ => _ | None => _ end).
  assert (0 <= pr.1 /\ done_ d <= pr.2 <= base d + n /\ (forall i, t_last t = Some i -> base d + i + 1 <= pr.2)) as (H1 & H2 & H3).
  { unfold pr. destruct (t_last t) as [i|]; [|destruct open; simpl; (split; [lia|]); (split; [lia|done])].
    destruct (Hl i eq_refl) as (Hi & Hi' & Hi''). cbv zeta. cbn [fst snd]. rewrite u64_small by lia. split; [lia|]. split; [lia|].
    intros j [= <-]. lia. }
  destruct pr as [cut fin]. cbn [fst snd] in *. destruct (Z.ltb_spec (2 * maxN d + leadN d) (n - cut)) as [Hlt|Hge]; cbn [fst snd].
  - rewrite u64_small by lia. split; [lia|]. split; [lia|]. split; [lia|]. intros i Hi. specialize (H3 i Hi). lia.
  - auto.
Qed.

Lemma Held_drop cut d :
  0 < cut <= Held d -> wf (ea d) -> Held (dropWindow cut (Held d) d) = Held d - cut.
Proof.
  intros Hc Hw. unfold dropWindow, Held in *. destruct (edges d) eqn:E; simpl; rewrite E.
  - unfold Drop. rewrite (proj2 (Z.leb_gt cut 0)) by lia. destruct (Z.leb_spec (N (ea d)) cut); simpl; lia.
  - unfold len in *. rewrite length_drop. lia.
Qed.

Definition starts (fs : list StreamFrame) : list Z := concat (map (fun f => map S0 (Spans f)) fs).

Lemma starts_app fs fs' : starts (fs ++ fs') = starts fs ++ starts fs'.
Proof. unfold starts. by rewrite map_app, concat_app. Qed.
Lemma starts_kept d n kept :
  0 <= base d -> base d + n < 2 ^ 63 -> Forall (spanOk d n) (concat (map g_spans kept)) ->
  starts (map (streamFrame d) kept) = map (fun s => base d + I0 s) (concat (map g_spans kept)).
Proof.
  intros Hb Hn. induction kept as [|g kept IH]; intros Hs; [done|]. simpl in *. apply Forall_app in Hs as [Hg Hk].
  unfold starts in *. cbn [map concat streamFrame Spans]. rewrite map_app, IH by done. f_equal. rewrite map_map. apply map_ext_in.
  intros s Hin%list_elem_of_In. rewrite list.Forall_forall in Hg. destruct (Hg s Hin) as (H & _). simpl. apply u64_small. lia.
Qed.

Section Run.
Context (decode : list Z -> option (list Z) -> list Span) (edec : EdgeLine -> option EdgeLine -> list Span).

(** What a run leaves of the decoder [d]: its window shorter by [cut]. *)
Record moved (d d' : StreamDecoder) (cut : Z) : Prop := {
  mv_cut : 0 <= cut <= Held d /\ base d' = base d + cut /\ Held d' = Held d - cut;
  mv_win : edges d = false -> winA d' = drop (Z.to_nat cut) (winA d);
  mv_same : closeN d' = closeN d /\ maxN d' = maxN d /\ leadN d' = leadN d /\ edges d' = edges d /\ subframes d' = subframes d;
  mv_small : small d';
}.

Lemma run_moved d d1 cut fin b :
  small d -> 0 < Held d -> d1 = set_place (base d) fin (set_start b d) -> 0 <= cut -> 0 <= fin <= base d + Held d ->
  moved d (if 0 <? cut then dropWindow (Z.min cut (Held d)) (Held d) d1 else d1) (Z.min cut (Held d)).
Proof using.
  intros [Hc (Hb & Hd & Hn) [Hwa Hwb]] H0 -> Hcut Hfin.
  set (d1 := set_place (base d) fin (set_start b d)). assert (Held d1 = Held d) as Hh by done.
  destruct (Z.ltb_spec 0 cut) as [Hpos|Hz].
  2:{ replace (Z.min cut (Held d)) with 0 by lia. split; [rewrite Hh; simpl; lia|done|done|]. split; [done|rewrite Hh; simpl; lia|done]. }
  set (c := Z.min cut (Held d)). assert (0 < c <= Held d) as Hcr by lia. rewrite <- Hh. pose proof (Held_drop c d1) as Hd1. rewrite Hh in Hd1 at 1.
  specialize (Hd1 Hcr Hwa). set (d2 := dropWindow c (Held d1) d1) in *.
  assert (base d2 = base d + c) as Hb2 by (cbn; apply u64_small; lia).
  assert (closeN d2 = closeN d /\ maxN d2 = maxN d /\ leadN d2 = leadN d /\ edges d2 = edges d /\ subframes d2 = subframes d /\ done_ d2 = fin) as Hs2.
  { unfold d2, dropWindow. destruct (edges d1) eqn:E; cbn; repeat (split; [done|]); done. }
  destruct Hs2 as (S1 & S2 & S3 & S4 & S5 & S6). split.
  - rewrite Hb2, Hd1, Hh. lia.
  - intros E. unfold d2, dropWindow. change (edges d1) with (edges d). by rewrite E.
  - done.
  - split; [by rewrite S1, S2, S3|rewrite Hb2, S6, Hd1, Hh; lia|]. unfold d2, dropWindow.
    destruct (edges d1); cbn; (split; [|]); try done; [by apply Drop_levels|]. destruct (_ =? _); [by apply Drop_levels|done].
Qed.

Lemma run_spec d :
  small d ->
  let r := run decode edec d in
  (exists cut, moved d r.2 cut) /\ Held r.2 <= 2 * maxN d + leadN d /\ done_ d <= done_ r.2 /\
  StronglySorted Z.le (starts r.1) /\ Forall (fun x => done_ d <= x < done_ r.2) (starts r.1) /\
  Forall (fun f => F1 f + closeN d < base d + Held d) r.1.
Proof using.
  intros Hsm r. pose proof Hsm as [Hc (Hb & Hd & Hn) [Hwa Hwb]]. pose proof (Held_nonneg d Hwa) as H0. subst r. unfold run.
  set (n := Held d) in *. destruct (Z.eqb_spec n 0) as [E|E].
  { split; [exists 0; split; [simpl; lia|done|done|done]|]. simpl. fold n. split; [lia|]. split; [lia|].
    split; [constructor|]. by split; constructor. }
  set (sp := windowSpans d n (decoded decode edec d)). destruct (windowSpans_ok d n (decoded decode edec d)) as [Ha Hs]. fold sp in Ha, Hs.
  destruct (run_ran d n sp Ha Hs) as (pre & kept & Hran). cbv zeta in Hran.
  destruct (takeWhole n (groups d sp) (MkTaken [] None d)) as [rest0 t0]. cbn [fst snd] in Hran.
  destruct (takeForced n rest0 t0) as [rest t]. cbn [fst snd] in Hran. destruct Hran as [[[b Hdec] Hk Hout Hlast] [suf Hsuf] Hclosed Hhigh Hup].
  cbn [t_dec t_out t_last] in *. rewrite app_nil_l in Hout.
  assert (forall g, g ∈ pre -> g_i1 g + closeN d < n /\ 0 <= g_i1 g /\ done_ d <= base d + g_i1 g) as Hlow.
  { intros g Hg. rewrite list.Forall_forall in Hs. rewrite list.Forall_forall in Hclosed. rewrite list.Forall_forall in Hhigh.
    destruct (Hhigh g Hg) as (s & Hin & Hle). destruct (Hs s Hin) as (Hs1 & _ & Hs2). rewrite u64_small in Hs2 by lia.
    specialize (Hclosed g Hg). simpl in Hclosed. lia. }
  assert (forall i, t_last t = Some i -> 0 <= i /\ i + closeN d < n /\ done_ d <= base d + i + 1 /\ upTo pre i) as Hi.
  { intros i Hi. rewrite Hlast in Hi. destruct (last pre) as [g|] eqn:Eg; [|done]. injection Hi as <-.
    assert (g ∈ pre) as Hg by (apply last_Some in Eg as [l ->]; apply elem_of_app; right; by left).
    destruct (Hlow g Hg). specialize (Hup g eq_refl). split; [lia|]. split; [lia|]. by split; [lia|]. }
  destruct (nextCut_ok n rest t) as (N1 & N2 & N3 & N4); [rewrite ?Hdec; simpl; try done; lia..| |].
  { intros i Ht. rewrite Hdec. simpl. destruct (Hi i Ht) as (A1 & A2 & A3 & _). auto. }
  rewrite Hdec in N2, N3. cbn [set_start maxN leadN done_ base] in N2, N3. destruct (nextCut n rest t) as [cut fin]. cbn [fst snd] in *.
  rewrite Hdec, Hout. set (d1 := set_place (base d) fin (set_start b d)).
  assert (exists c, moved d (if 0 <? cut then dropWindow (Z.min cut n) n d1 else d1) c /\ c = Z.min cut n /\
    done_ (if 0 <? cut then dropWindow (Z.min cut n) n d1 else d1) = fin) as (c & Hmv & Hcc & Hfin).
  { exists (Z.min cut n). split; [apply (run_moved d d1 cut fin b); [done|lia|done|lia|fold n; lia]|]. split; [done|]. destruct (0 <? cut); [|done]. unfold dropWindow. by destruct (edges d1). }
  set (d' := if 0 <? cut then _ else _) in *. split; [by exists c|]. pose proof (mv_cut _ _ _ Hmv) as (M1 & M2 & M3). fold n in M1, M3.
  split; [lia|]. split; [lia|].
  assert (Forall (spanOk d n) (concat (map g_spans kept)) /\ ascending (concat (map g_spans kept))) as [Hks Hka].
  { pose proof (sublist_concat g_spans _ _ Hk) as Hsub. rewrite Hsuf in Hs, Ha. apply Forall_app in Hs as [Hs _]. apply sorted_app_inv in Ha as (Ha & _ & _).
    split; [|by eapply sublist_sorted]. rewrite list.Forall_forall in *. intros s Hin. apply Hs. eapply elem_of_submseteq; [exact Hin|by apply sublist_submseteq]. }
  rewrite (starts_kept d n) by done. split.
  - clear -Hka. induction Hka as [|s l Hl IH Hall]; simpl; [constructor|]. apply SSorted_cons; [done|]. apply Forall_map.
    eapply Forall_impl; [exact Hall|]. simpl. lia.
  - split.
    + apply Forall_map, list.Forall_forall. intros s Hin. rewrite list.Forall_forall in Hks. destruct (Hks s Hin) as (K1 & _ & K2).
      rewrite u64_small in K2 by lia. split; [lia|]. rewrite Hfin.
      destruct (last pre) as [g|] eqn:Eg.
      * destruct (Hi (g_i1 g) Hlast) as (_ & _ & _ & Hu). specialize (N4 (g_i1 g) Hlast). rewrite Hdec in N4. simpl in N4.
        assert (I0 s <= g_i1 g); [|lia]. apply Hu. eapply elem_of_submseteq; [exact Hin|]. by apply sublist_submseteq, sublist_concat.
      * apply last_None in Eg as ->. apply sublist_nil_r in Hk as ->. by apply not_elem_of_nil in Hin.
    + apply Forall_map, list.Forall_forall. intros g Hin.
      assert (g ∈ pre) as Hg by (eapply elem_of_submseteq; [exact Hin|by apply sublist_submseteq]). destruct (Hlow g Hg). simpl. rewrite u64_small; lia.
Qed.

(** ** Any sequence of calls *)

Inductive streamOp :=
| OpPush (a : list Z) (b : option (list Z)) | OpEdges (a : EdgeLine) (b : option EdgeLine) (from to : Z)
| OpFlush | OpSkip (n : Z) | OpCut (at_ : Z) | OpLead (n : Z) | OpSub (on : bool).

Definition onStream (o : streamOp) (d : StreamDecoder) : list StreamFrame * StreamDecoder :=
  match o with
  | OpPush a b => Push decode edec a b d
  | OpEdges a b from to => PushEdges decode edec a b from to d
  | OpFlush => Flush decode edec d
  | OpSkip n => ([], Skip n d)
  | OpCut at_ => ([], CutStart at_ d)
  | OpLead n => ([], SetLead n d)
  | OpSub on => ([], SetSubframes on d)
  end.
Fixpoint onStreams (os : list streamOp) (d : StreamDecoder) : list (list StreamFrame) * StreamDecoder :=
  match os with
  | [] => ([], d)
  | o :: os => let r := onStream o d in let r' := onStreams os r.2 in (r.1 :: r'.1, r'.2)
  end.

(** The samples a call adds or skips. *)
Definition weight (o : streamOp) : Z :=
  match o with
  | OpPush a _ => len a
  | OpEdges a _ from to => Z.max 0 (Z.min to (N a) - Z.max from 0)
  | OpSkip n => n
  | _ => 0
  end.
Definition callOk (o : streamOp) : Prop :=
  0 <= weight o /\ match o with OpEdges a b _ _ => wf a /\ (forall b', b = Some b' -> wf b') | _ => True end.

Lemma N_AppendRange src from to l :
  wf src -> wf l -> N (AppendRange src from to l) = N l + Z.max 0 (Z.min to (N src) - Z.max from 0).
Proof using.
  intros Hs Hl. destruct (AppendRange_levels src from to l Hs Hl) as [[H0 _ _ _ _] H]. apply (f_equal length) in H.
  rewrite length_app, !length_levels in H. unfold slice in H. rewrite length_take, length_drop, length_levels in H.
  pose proof (wf_N _ Hs). pose proof (wf_N _ Hl). lia.
Qed.

(** One call: its starts lie from what was done to what is. *)
Record called (d d' : StreamDecoder) (o : streamOp) (fs : list StreamFrame) : Prop := {
  cl_small : small d';
  cl_next : base d' + Held d' <= base d + Held d + weight o;
  cl_done : done_ d <= done_ d';
  cl_sorted : StronglySorted Z.le (starts fs);
  cl_range : Forall (fun x => done_ d <= x < done_ d') (starts fs);
  cl_held : match o with OpPush _ _ | OpEdges _ _ _ _ => Held d' <= 2 * maxN d + leadN d | _ => True end;
}.

Lemma called_run d d1 o :
  small d1 -> base d1 + Held d1 <= base d + Held d + weight o -> done_ d1 = done_ d -> maxN d1 = maxN d -> leadN d1 = leadN d ->
  called d (run decode edec d1).2 o (run decode edec d1).1.
Proof using.
  intros Hs Hn Hd Hm Hl. destruct (run_spec d1 Hs) as ((c & [Hc _ _ Hs']) & Hh & H1 & H2 & H3 & _). rewrite Hd in *.
  split; [done|lia|done|done|done|]. rewrite Hm, Hl in Hh. by destruct o.
Qed.
Lemma called_quiet d d' o :
  small d' -> base d' + Held d' <= base d + Held d + weight o -> done_ d <= done_ d' ->
  match o with OpPush _ _ | OpEdges _ _ _ _ => False | _ => True end -> called d d' o [].
Proof using. intros Hs Hn Hd Ho. split; [done|done|done|constructor|constructor|by destruct o]. Qed.

Lemma small_Skip n d : small d -> 0 <= n -> base d + Held d + n < 2 ^ 63 -> small (Skip n d) /\ Held (Skip n d) = 0 /\ base (Skip n d) = base d + Held d + n /\ done_ d <= done_ (Skip n d).
Proof using.
  intros [Hc (Hb & Hd & Hn) [Hwa Hwb]] H0 Hlt. pose proof (Held_nonneg d Hwa).
  assert (base (Skip n d) = base d + Held d + n) as Hbase.
  { cbn. rewrite (u64_small (Held d + n)) by lia. rewrite u64_small by lia. lia. }
  assert (Held (Skip n d) = 0) as Hheld by (unfold Held; cbn; by destruct (edges d)).
  assert (done_ (Skip n d) = Z.max (done_ d) (base (Skip n d))) as Hdone by done.
  split; [|rewrite Hdone; lia]. split; [done|rewrite Hheld, Hdone, Hbase; lia|]. split; apply empty_wf.
Qed.

Lemma onStream_called o d :
  small d -> callOk o -> base d + Held d + weight o < 2 ^ 63 -> called d (onStream o d).2 o (onStream o d).1.
Proof using.
  intros Hs [Hw Ho] Hlt. pose proof Hs as [Hc (Hb & Hd & Hn) [Hwa Hwb]]. pose proof (Held_nonneg d Hwa) as H0.
  destruct o as [a b|a b from to| |n|at_|n|on]; simpl in Hw, Hlt; cbn [onStream].
  - set (d1 := set_window (winA d ++ a) (winB d ++ default [] b) (ea d) (eb d) d). assert (Held d <= Held d1 <= Held d + len a) as Hh.
    { unfold Held, d1, len. simpl. destruct (edges d); rewrite ?length_app; lia. }
    assert (base d1 = base d /\ done_ d1 = done_ d) as [E1 E2] by done.
    apply (called_run d d1 (OpPush a b)); [split; [done|lia|done]|cbn [weight]; lia|done..].
  - destruct Ho as [Hoa Hob]. set (d1 := set_window (winA d) (winB d) (AppendRange a from to (ea d)) (match b with Some b => AppendRange b from to (eb d) | None => eb d end) d).
    assert (Held d <= Held d1 <= Held d + weight (OpEdges a b from to)) as Hh.
    { unfold Held, d1. simpl. rewrite N_AppendRange by done. destruct (edges d); lia. }
    assert (base d1 = base d /\ done_ d1 = done_ d) as [E1 E2] by done.
    apply (called_run d d1 (OpEdges a b from to)); [|lia|done..]. split; [done|cbn [weight] in Hh; lia|]. split; [by apply AppendRange_levels|].
    simpl. destruct b as [b|]; [|done]. apply AppendRange_levels; [by apply Hob|done].
  - unfold Flush. pose proof (called_run d d OpFlush Hs ltac:(simpl; lia) eq_refl eq_refl eq_refl) as [R1 R2 R3 R4 R5 _].
    destruct (run decode edec d) as [out d1]. cbn [fst snd weight] in *.
    pose proof R1 as [_ (Rb & Rd & _) [Rwa _]]. pose proof (Held_nonneg d1 Rwa).
    destruct (small_Skip 0 d1 R1) as (S1 & S2 & S3 & S4); [lia|lia|]. split; [done|cbn [snd weight]; lia|cbn [snd]; lia|done| |done].
    eapply Forall_impl; [exact R5|]. cbn [snd]. intros x Hx. cbv beta in Hx |- *. lia.
  - destruct (small_Skip n d Hs) as (S1 & S2 & S3 & S4); [done|done|]. apply called_quiet; [done|cbn [snd weight]; lia|done|done].
  - by apply called_quiet; [split|cbn [snd]; unfold Held; simpl; lia|simpl; lia|].
  - apply called_quiet; [split; [simpl; lia|done|done]|simpl; unfold Held; simpl; lia|simpl; lia|done].
  - by apply called_quiet; [split|cbn [snd]; unfold Held; simpl; lia|simpl; lia|].
Qed.

Definition apart (l l' : list Z) : Prop := forall x y, x ∈ l -> y ∈ l' -> x < y.

Lemma onStreams_starts os d :
  small d -> Forall callOk os -> base d + Held d + foldr Z.add 0 (map weight os) < 2 ^ 63 ->
  let outs := map starts (onStreams os d).1 in
  Forall (StronglySorted Z.le) outs /\ Forall (Forall (fun x => done_ d <= x)) outs /\ StronglySorted apart outs.
Proof using.
  revert d. induction os as [|o os IH]; intros d Hs Ho Hlt outs.
  { split; [constructor|]. split; [constructor|apply SSorted_nil]. }
  inversion_clear Ho as [|? ? Hok Hos]. subst outs. cbn [onStreams map foldr fst] in *.
  assert (0 <= foldr Z.add 0 (map weight os)) as H0.
  { clear -Hos. induction Hos as [|o os [H _] Hos IH]; simpl; lia. }
  destruct (onStream_called o d Hs Hok) as [C1 C2 C3 C4 C5 _]; [lia|].
  destruct (IH (onStream o d).2 C1 Hos) as (H1 & H2 & H3); [lia|]. split; [by constructor|]. split.
  - constructor; [eapply Forall_impl; [exact C5|simpl; lia]|]. eapply Forall_impl; [exact H2|]. intros l Hl. eapply Forall_impl; [exact Hl|simpl; lia].
  - apply SSorted_cons; [done|]. eapply Forall_impl; [exact H2|]. intros l Hl x y Hx Hy. rewrite list.Forall_forall in C5. rewrite list.Forall_forall in Hl.
    specialize (C5 x Hx). specialize (Hl y Hy). simpl in *. lia.
Qed.

Lemma small_New c m : small (NewStreamDecoder c m) /\ small (NewEdgeStreamDecoder c m).
Proof using.
  split; (split; [simpl; lia|unfold Held; simpl; unfold len; simpl; lia|split; apply empty_wf]).
Qed.


(** ** Samples pushed *)

Definition pushes (cs : list (list Z)) (d : StreamDecoder) : StreamDecoder := foldl (fun d c => (Push decode edec c None d).2) d cs.

Lemma pushes_window cs d pre :
  small d -> edges d = false -> base d + Held d = len pre -> winA d = drop (Z.to_nat (base d)) pre ->
  len (pre ++ concat cs) < 2 ^ 63 -> Held d <= 2 * maxN d + leadN d ->
  let d' := pushes cs d in
  small d' /\ winA d' = drop (Z.to_nat (base d')) (pre ++ concat cs) /\ base d' + Held d' = len (pre ++ concat cs) /\
  Held d' <= 2 * maxN d + leadN d.
Proof using.
  revert d pre. induction cs as [|c cs IH]; intros d pre Hs He Hn Hw Hlt Hh.
  { simpl in *. rewrite app_nil_r in *. auto. }
  simpl in *. rewrite app_assoc in *. pose proof Hs as [_ (Hb & _) [Hwa _]].
  assert (len (pre ++ c) = len pre + len c) as Hl by (unfold len; rewrite length_app; lia).
  assert (len (pre ++ c) <= len ((pre ++ c) ++ concat cs)) as Hl' by (unfold len; rewrite !length_app; lia).
  set (d1 := set_window (winA d ++ c) (winB d ++ []) (ea d) (eb d) d).
  assert (Held d1 = Held d + len c) as Hh1.
  { unfold Held, d1, len. simpl. rewrite He, length_app. lia. }
  assert (small d1) as Hs1.
  { assert (base d1 = base d /\ done_ d1 = done_ d) as [E1 E2] by done. destruct Hs as [Hc (_ & Hd & _) Hwf].
    assert (0 <= len c) by (unfold len; lia). split; [done|lia|done]. }
  destruct (run_spec d1 Hs1) as ((k & [(K1 & K2 & K3) Kw (S1 & S2 & S3 & S4 & _) Ks]) & Kh & _).
  change (Push decode edec c None d) with (run decode edec d1). set (d2 := (run decode edec d1).2) in *.
  assert (base d1 = base d) as Eb by done. specialize (Kw He). change (maxN d1) with (maxN d) in *. change (leadN d1) with (leadN d) in *. rewrite Eb in K2.
  destruct (IH d2 (pre ++ c)) as (I1 & I2 & I3 & I4); [done|by rewrite S4|rewrite K2, K3; lia| |done|rewrite S2, S3; done|].
  - rewrite Kw, K2. change (winA d1) with (winA d ++ c). rewrite Hw.
    assert (Z.to_nat (base d) <= length pre)%nat as Hle.
    { unfold len in Hn. pose proof (Held_nonneg d Hwa). lia. }
    rewrite <- (drop_app_le pre c) by done. rewrite drop_drop. f_equal. lia.
  - rewrite S2, S3 in I4. auto.
Qed.

End Run.
