(* ===== verification/StreamDecFrames.v ===== *)
(** * The frames of a stream, however it is cut

    Against a decoder that reads whole a frame its window holds whole, and of a
    frame the window's end cuts at most a head that reaches Close of the end:
    the contract stream.go states of Close and Max. *)
From stdpp Require Import sorting list.
From S2P Require Import Prelude EdgeLine StreamDec StreamDecRun.

(** ** Groups *)

Definition shift (k : Z) (s : Span) : Span := MkSpan (I0 s + k) (I1 s + k) (Text s) (Kind s) (Val s).
Definition shiftGroup (k : Z) (g : streamGroup) : streamGroup := MkGroup (map (shift k) (g_spans g)) (g_i0 g + k) (g_i1 g + k).

Lemma grouping_shift d k g sp : grouping d (shiftGroup k g) (map (shift k) sp) = map (shiftGroup k) (grouping d g sp).
Proof.
  revert g. induction sp as [|s sp IH]; intros g; simpl; [done|].
  assert (opens d (shiftGroup k g) (shift k s) = opens d g s) as ->.
  { unfold opens. f_equal. simpl. f_equal. lia. }
  destruct (opens d g s); simpl.
  - f_equal. rewrite <- IH. done.
  - rewrite <- IH. f_equal. unfold joined, shiftGroup. simpl. rewrite map_app. f_equal. lia.
Qed.
Lemma groups_shift d k sp : groups d (map (shift k) sp) = map (shiftGroup k) (groups d sp).
Proof. destruct sp as [|s sp]; [done|]. simpl. by rewrite <- grouping_shift. Qed.

(** Only Close and the subframes matter to the grouping. *)
Lemma grouping_same d d' g sp : closeN d' = closeN d -> subframes d' = subframes d -> grouping d' g sp = grouping d g sp.
Proof.
  intros Hc Hs. revert g. induction sp as [|s sp IH]; intros g; simpl; [done|].
  unfold opens, isFrameStart. rewrite Hc, Hs. by rewrite !IH.
Qed.
Lemma groups_same d d' sp : closeN d' = closeN d -> subframes d' = subframes d -> groups d' sp = groups d sp.
Proof. intros. destruct sp; [done|]. by apply grouping_same. Qed.

Lemma grouping_ne d g sp : grouping d g sp <> [].
Proof. revert g. induction sp as [|s sp IH]; intros g; simpl; [done|]. by destruct (opens d g s). Qed.
Lemma grouping_one d g l g' tl :
  grouping d g l = [g'] ->
  grouping d g (l ++ tl) = match tl with [] => [g'] | t :: ts => if opens d g' t then g' :: grouping d (single t) ts else grouping d (joined g' t) ts end.
Proof.
  revert g. induction l as [|s l IH]; intros g; simpl; [intros [= <-]; by destruct tl|].
  destruct (opens d g s); [|apply IH]. intros [= _ H]. by destruct (grouping_ne d (single s) l).
Qed.

(** A frame as the group of its spans. *)
Definition frameGroup (f : list Span) : streamGroup :=
  match f with s :: l => foldl joined (single s) l | [] => MkGroup [] 0 0 end.
Definition f0 (f : list Span) : Z := g_i0 (frameGroup f).
Definition f1 (f : list Span) : Z := g_i1 (frameGroup f).
Definition toFrame (f : list Span) : StreamFrame :=
  MkStreamFrame (f0 f) (f1 f) (map (fun s => MkStreamSpan (I0 s) (I1 s) (Text s) (Kind s) (Val s)) f).

Lemma joined_all g l : g_spans (foldl joined g l) = g_spans g ++ l /\ g_i0 (foldl joined g l) = g_i0 g /\ g_i1 g <= g_i1 (foldl joined g l) /\
  Forall (fun s => I1 s <= g_i1 (foldl joined g l)) l.
Proof.
  revert g. induction l as [|s l IH]; intros g; simpl; [by rewrite app_nil_r|].
  destruct (IH (joined g s)) as (H1 & H2 & H3 & H4). rewrite H1, H2. simpl in *. rewrite <- app_assoc. split; [done|]. split; [done|].
  split; [lia|]. constructor; [lia|done].
Qed.
Lemma frameGroup_spans f : g_spans (frameGroup f) = f.
Proof. destruct f as [|s l]; [done|]. apply (joined_all (single s) l). Qed.
Lemma f0_head s l : f0 (s :: l) = I0 s.
Proof. apply (joined_all (single s) l). Qed.
Lemma f1_ends f : Forall (fun s => I1 s <= f1 f) f.
Proof. destruct f as [|s l]; [constructor|]. destruct (joined_all (single s) l) as (_ & _ & H3 & H4). constructor; [exact H3|exact H4]. Qed.

(** ** A bus *)

Section Bus.
Context (decode : list Z -> option (list Z) -> list Span) (edec : EdgeLine -> option EdgeLine -> list Span).
Context (c m : Z) (sub : bool).
Definition opened : StreamDecoder := SetSubframes sub (NewStreamDecoder c m).
Definition C : Z := closeN opened.
Definition M : Z := maxN opened.

(** A frame: its spans in order and in one piece, not longer than Max allows. *)
Record frameOk (f : list Span) : Prop := {
  fo_spans : f <> [] /\ 0 <= f0 f /\ ascending f /\ Forall (fun s => I0 s <= I1 s) f;
  fo_one : groups opened f = [frameGroup f];
  fo_max : f1 f - f0 f + C + 1 <= M;
}.
(** The next frame opens with a start of frame, or after a silence. *)
Definition follows (f f' : list Span) : Prop := f1 f < f0 f' /\ forall s l, f' = s :: l -> isFrameStart opened s = true \/ C < f0 f' - f1 f.

Context (line : list Z) (frames : list (list Span)).

Record bus : Prop := {
  bus_frames : Forall frameOk frames;
  bus_order : StronglySorted follows frames;
}.

(** No frame lies across sample [s]. *)
Definition idle (s : Z) : Prop := forall f, f ∈ frames -> f1 f < s \/ s <= f0 f.

(** What may be read of a frame that a window [s, e) cuts: nothing within Close
    of the frame's start, else a head that begins as the frame and whose first
    piece ends within Close of the window's end. *)
Definition cutAt (s e : Z) (J : list Span) : Prop :=
  match J with
  | [] => forall f, f ∈ frames -> s <= f0 f -> e <= f1 f -> e - f0 f <= C
  | j :: _ =>
      exists f, f ∈ frames /\ s <= f0 f /\ f0 f < e <= f1 f /\ I0 j = f0 f /\
        (forall t l, f = t :: l -> isFrameStart opened j = isFrameStart opened t) /\
        ascending J /\ Forall (fun t => I0 t <= I1 t /\ I0 t < e) J /\
        (forall g gs, groups opened J = g :: gs -> e - 1 - g_i1 g <= C)
  end.
Definition inside (s e : Z) (f : list Span) : Prop := s <= f0 f /\ f1 f < e.
#[export] Instance inside_dec s e f : Decision (inside s e f).
Proof. unfold inside. apply _. Defined.

(** The decoder reads the bus from any idle sample. *)
Definition readsBus : Prop := forall s e, 0 <= s < e -> e <= len line -> idle s ->
  exists J, cutAt s e J /\ decode (slice (Z.to_nat s) (Z.to_nat (e - s)) line) None = map (shift (- s)) (concat (filter (inside s e) frames) ++ J).

(** *** The window's groups *)

Lemma in_frame f s : frameOk f -> s ∈ f -> f0 f <= I0 s /\ I0 s <= I1 s /\ I1 s <= f1 f.
Proof using.
  intros [(Hne & H0 & Ha & Hi) _ _] Hs. pose proof (f1_ends f) as He. rewrite list.Forall_forall in Hi. rewrite list.Forall_forall in He.
  split; [|split; [by apply Hi|by apply He]]. destruct f as [|t l]; [done|]. rewrite f0_head. inversion_clear Ha as [|? ? _ Ht].
  apply elem_of_cons in Hs as [->|Hs]; [lia|]. rewrite list.Forall_forall in Ht. by apply Ht.
Qed.
Lemma frame_extent f : frameOk f -> f0 f <= f1 f.
Proof using.
  intros Hf. pose proof Hf as [(Hne & _) _ _]. destruct f as [|s l]; [done|]. destruct (in_frame _ s Hf); [by left|]. lia.
Qed.

(** [J] after the frames [W]. *)
Definition after (W : list (list Span)) (J : list Span) : Prop :=
  forall w j l, w ∈ W -> J = j :: l -> f1 w < I0 j /\ (isFrameStart opened j = true \/ C < I0 j - f1 w).

Lemma opens_next w j : isFrameStart opened j = true \/ C < I0 j - f1 w -> opens opened (frameGroup w) j = true.
Proof using.
  intros H. unfold opens. apply orb_true_iff. destruct H as [H|H]; [by left|right]. apply Z.ltb_lt. done.
Qed.

Lemma groups_window W J :
  Forall frameOk W -> StronglySorted follows W -> after W J -> ascending J ->
  groups opened (concat W ++ J) = map frameGroup W ++ groups opened J /\ ascending (concat W ++ J).
Proof using.
  intros HW Hs HJ Ha. induction Hs as [|w W Hs IH Hw]; [done|]. apply list.Forall_cons in HW as [Hwo HW].
  destruct IH as [IH1 IH2]; [done|intros v j l Hv; apply HJ; by right|]. pose proof Hwo as [(Hne & _ & Hwa & _) Hone _].
  cbn [concat map app]. rewrite <- app_assoc.
  assert (forall t ts, concat W ++ J = t :: ts -> f1 w < I0 t /\ opens opened (frameGroup w) t = true) as Hnext.
  { intros t ts Ht. destruct W as [|v W].
    - simpl in Ht. destruct (HJ w t ts) as [H1 H2]; [by left|done|]. split; [done|by apply opens_next].
    - apply list.Forall_cons in Hw as [[Hv1 Hv2] _]. apply list.Forall_cons in HW as [[(Hvne & _) _ _] _]. destruct v as [|u v]; [done|].
      simpl in Ht. injection Ht as -> _. rewrite f0_head in *. split; [done|]. apply opens_next. by apply (Hv2 t v). }
  split.
  - destruct w as [|s l]; [done|]. cbn [groups app] in *. rewrite (grouping_one _ _ _ _ _ Hone).
    rewrite <- IH1. destruct (concat W ++ J) as [|t ts]; [done|]. destruct (Hnext t ts eq_refl) as [_ ->]. done.
  - assert (forall x, x ∈ concat W ++ J -> f1 w < I0 x) as Hx.
    { destruct (concat W ++ J) as [|t ts] eqn:E; [by intros x Hx%not_elem_of_nil|]. destruct (Hnext t ts eq_refl) as [H1 _].
      inversion_clear IH2 as [|? ? _ Ht]. rewrite list.Forall_forall in Ht. intros x [->|Hx]%elem_of_cons; [done|]. specialize (Ht x Hx). simpl in Ht. lia. }
    apply sorted_app; [done..|]. intros y x Hy Hxin. destruct (in_frame w y Hwo Hy) as (_ & H1 & H2). specialize (Hx x Hxin). lia.
Qed.

(** *** Taking them *)

Lemma takeGroup_all g t : g_spans g <> [] -> atStart (t_dec t) = false -> takeGroup g t = MkTaken (t_out t ++ [streamFrame (t_dec t) g]) (Some (g_i1 g)) (t_dec t).
Proof using.
  intros Hg Ha. unfold takeGroup. destruct (g_spans g) as [|s l]; [done|]. unfold keepFirst. by rewrite Ha.
Qed.
Lemma takeWhole_all n gs rest t :
  Forall (fun g => g_spans g <> [] /\ closeN (t_dec t) < n - 1 - g_i1 g) gs -> atStart (t_dec t) = false ->
  (forall g l, rest = g :: l -> n - 1 - g_i1 g <= closeN (t_dec t)) ->
  takeWhole n (gs ++ rest) t =
  (rest, MkTaken (t_out t ++ map (streamFrame (t_dec t)) gs) (match last gs with Some g => Some (g_i1 g) | None => t_last t end) (t_dec t)).
Proof using.
  intros Hg Ha Hr. revert t Hg Ha Hr. induction gs as [|g gs IH]; intros t Hg Ha Hr.
  - simpl. rewrite app_nil_r. destruct t; simpl in *. destruct rest as [|g l]; [done|]. simpl. rewrite (proj2 (Z.leb_le _ _)); [done|]. by apply (Hr g l).
  - apply list.Forall_cons in Hg as [[Hg1 Hg2] Hg]. cbn [app takeWhole]. rewrite (proj2 (Z.leb_gt _ _)) by done.
    rewrite takeGroup_all by done. rewrite IH by done. cbn [t_out t_dec t_last map]. rewrite <- app_assoc. f_equal. f_equal.
    rewrite last_cons. by destruct (last gs).
Qed.

(** *** Where the next window starts *)

Lemma nextCut_idle n rest t open :
  let d := t_dec t in
  closeN d = C -> maxN d = M -> leadN d = 0 -> 0 <= base d -> 0 < n -> base d + n < 2 ^ 63 -> 0 <= done_ d <= base d ->
  (match rest with g :: _ => if decide (g_spans g = []) then None else Some (g_i0 g) | [] => None end) = open ->
  (forall l, t_last t = Some l -> 0 <= l /\ l + C < n) ->
  (forall i, open = Some i -> 0 <= i <= n /\ n - i <= M /\ forall l, t_last t = Some l -> l < i) ->
  let r := nextCut n rest t in
  0 <= r.1 <= n /\ (forall l, t_last t = Some l -> l < r.1) /\
  (forall i, open = Some i -> r.1 <= i) /\
  (open = None -> forall x, n - C <= x -> (forall l, t_last t = Some l -> l < x) -> 0 <= x -> r.1 <= x) /\ 0 <= r.2 <= base d + r.1.
Proof using.
  intros d Hc Hm Hle Hb Hn Hlt Hd Hopen Hl Hi r. subst r. unfold nextCut. fold d. rewrite Hopen, Hc, Hm, Hle.
  assert (2 <= C /\ 4 * C <= M) as [HC HM] by (unfold C, M; simpl; lia).
  destruct (t_last t) as [l|].
  - specialize (Hl l eq_refl). rewrite (u64_small (base d + l + 1)) by lia. cbv zeta.
    assert (forall a b, a <= b -> 0 <= Z.quot (b - a) 2 <= b - a) as Hq.
    { intros a b Hab. split; [apply Z.quot_pos; lia|]. rewrite Z.quot_div_nonneg by lia. pose proof (Z.div_le_upper_bound (b - a) 2 (b - a)). lia. }
    set (next := match open with Some i => i | None => n end).
    assert (l < next <= n /\ n - next <= M) as [Hnx HnM].
    { unfold next. destruct open as [i|]; [|lia]. destruct (Hi i eq_refl) as (H1 & H2 & H3). specialize (H3 l eq_refl). lia. }
    assert (forall i, open = Some i -> next = i) as Hni by (by intros i ->). specialize (Hq l next ltac:(lia)). rewrite Z.sub_0_r.
    set (q := Z.quot (next - l) 2) in *. clearbody q next.
    set (cut := Z.max 0 (Z.min (Z.min (Z.min (Z.max (l + 1) (l + q)) (Z.max (l + 1) (n - C))) next) next)).
    assert (l < cut <= next /\ (cut <= l + 1 \/ cut <= n - C)) as [Hcut Hcut'] by lia. clearbody cut.
    destruct (Z.ltb_spec (2 * M + 0) (n - cut)) as [Hlim|Hlim]; cbn [fst snd]; rewrite ?u64_small by lia.
    + split; [lia|]. split; [intros ? [= <-]; lia|]. split; [intros i Ho; rewrite <- (Hni i Ho); lia|]. split; [intros _ x Hx _ _; lia|lia].
    + split; [lia|]. split; [intros ? [= <-]; lia|]. split; [intros i Ho; rewrite <- (Hni i Ho); lia|].
      split; [intros _ x Hx Hlx _; specialize (Hlx l eq_refl); lia|lia].
  - destruct open as [i|]; cbv zeta.
    + destruct (Hi i eq_refl) as (H1 & H2 & _).
      destruct (Z.ltb_spec (2 * M + 0) (n - Z.max 0 (i - C - 0))) as [Hlim|Hlim]; cbn [fst snd]; rewrite ?u64_small by lia;
        (split; [lia|]); (split; [done|]); (split; [intros ? [= <-]; lia|]); (split; [done|lia]).
    + destruct (Z.ltb_spec (2 * M + 0) (n - Z.max 0 (n - C - 0))) as [Hlim|Hlim]; cbn [fst snd]; [lia|].
      split; [lia|]. split; [done|]. split; [done|]. split; [intros _ x Hx _ Hx0; lia|lia].
Qed.

(** *** Frames in order *)

Lemma order_total f g : StronglySorted follows frames -> f ∈ frames -> g ∈ frames -> f = g \/ follows f g \/ follows g f.
Proof using.
  intros Hs. induction Hs as [|x l Hs IH Hx]; [by intros Hf%not_elem_of_nil|]. rewrite list.Forall_forall in Hx.
  intros [->|Hf]%elem_of_cons [->|Hg]%elem_of_cons; auto.
Qed.

Hypothesis ok : bus.

Lemma ends_order f g : f ∈ frames -> g ∈ frames -> f1 f < f1 g -> follows f g.
Proof using ok.
  intros Hf Hg Hlt. destruct (order_total f g (bus_order ok) Hf Hg) as [->|[H|H]]; [lia|done|].
  assert (frameOk g /\ frameOk f) as [Hgo Hfo] by (pose proof (bus_frames ok) as Ho; rewrite list.Forall_forall in Ho; auto).
  destruct H as [H _]. pose proof (frame_extent f Hfo). lia.
Qed.
Lemma frame_ok f : f ∈ frames -> frameOk f.
Proof using ok. intros Hf. pose proof (bus_frames ok) as Ho. rewrite list.Forall_forall in Ho. auto. Qed.

(** *** One window *)

(** The frames a window [s, e) has whole and settled, and the others in it. *)
Definition settledIn (s e : Z) (f : list Span) : Prop := s <= f0 f /\ C < e - 1 - f1 f.
#[export] Instance settledIn_dec s e f : Decision (settledIn s e f).
Proof using. unfold settledIn. apply _. Defined.
Definition openIn (s e : Z) (f : list Span) : Prop := inside s e f /\ ~ C < e - 1 - f1 f.
#[export] Instance openIn_dec s e f : Decision (openIn s e f).
Proof using. unfold openIn. apply _. Defined.

Lemma C_pos : 2 <= C /\ 4 * C <= M.
Proof using. unfold C, M. simpl. lia. Qed.

Lemma inside_split s e : filter (inside s e) frames = filter (settledIn s e) frames ++ filter (openIn s e) frames.
Proof using ok.
  rewrite (filter_split follows (inside s e) (fun f => C < e - 1 - f1 f) frames (bus_order ok)).
  - f_equal. apply filter_same. intros f _. unfold inside, settledIn. pose proof C_pos. lia.
  - intros f g Hf Hg [Hlt _] H. pose proof (frame_extent g (frame_ok g Hg)). lia.
Qed.

Lemma cut_after s e J : cutAt s e J -> after (filter (inside s e) frames) J /\ ascending J.
Proof using ok.
  intros HJ. destruct J as [|j J]; [by split; [|apply SSorted_nil]|]. destruct HJ as (f & Hf & H1 & H2 & H3 & H4 & H5 & _).
  split; [|done]. intros w j' l [[Hw1 Hw2] Hw]%list_elem_of_filter [= <- <-]. destruct (ends_order w f Hw Hf) as [G1 G2]; [lia|].
  split; [lia|]. destruct (frame_ok f Hf) as [(Hne & _) _ _]. destruct f as [|t l']; [done|]. rewrite (H4 t l' eq_refl), H3. by apply (G2 t l').
Qed.

(** What follows the settled frames: nothing, or a group of the first of the
    others, from its start. *)
Lemma rest_head s e J k :
  cutAt s e J ->
  let rest := map (fun f => shiftGroup k (frameGroup f)) (filter (openIn s e) frames) ++ map (shiftGroup k) (groups opened J) in
  (rest = [] /\ forall f, f ∈ frames -> s <= f0 f -> ~ settledIn s e f -> e - f0 f <= C) \/
  exists g l f, rest = g :: l /\ g_spans g <> [] /\ g_i0 g = f0 f + k /\ f ∈ frames /\ s <= f0 f < e /\ e - 1 - f1 f <= C /\
    e - 1 - (g_i1 g - k) <= C /\ forall f', f' ∈ frames -> s <= f0 f' -> ~ settledIn s e f' -> f0 f <= f0 f'.
Proof using ok.
  intros HJ rest. pose proof C_pos as HC. destruct (filter (openIn s e) frames) as [|f W2] eqn:EW.
  - assert (forall f, f ∈ frames -> s <= f0 f -> ~ settledIn s e f -> e <= f1 f) as Hout.
    { intros f Hf Hs Hn. destruct (decide (f1 f < e)) as [Hlt|]; [|lia]. assert (f ∈ filter (openIn s e) frames) as H.
      { apply list_elem_of_filter. split; [|done]. unfold openIn, inside, settledIn in *. lia. }
      rewrite EW in H. by apply not_elem_of_nil in H. }
    destruct J as [|j J]; [left|right].
    + split; [done|]. intros f Hf Hs Hn. apply HJ; [done..|]. by apply Hout.
    + destruct HJ as (f & Hf & H1 & H2 & H3 & H4 & H5 & H6 & H7). destruct (groups_ok opened (j :: J)) as [Hg Hc].
      unfold rest. cbn [map app]. destruct (groups opened (j :: J)) as [|g gs] eqn:EG; [done|]. specialize (H7 g gs eq_refl).
      apply list.Forall_cons in Hg as [[(t & l & Ht & Hi) _] _]. simpl in Hc. rewrite Ht in Hc. injection Hc as -> _.
      exists (shiftGroup k g), (map (shiftGroup k) gs), f. split; [done|]. split; [simpl; by rewrite Ht|]. split; [simpl; lia|]. split; [done|].
      split; [lia|]. split; [lia|]. split; [simpl; lia|]. intros f' Hf' Hs' Hn'. specialize (Hout f' Hf' Hs' Hn').
      destruct (order_total f f' (bus_order ok) Hf Hf') as [->|[[H _]|[H _]]]; [lia| |]; pose proof (frame_extent f (frame_ok f Hf)); lia.
  - right. assert (f ∈ filter (openIn s e) frames) as Hf by (rewrite EW; by left). apply list_elem_of_filter in Hf as [[[Hf1 Hf2] Hf3] Hf].
    pose proof (frame_ok f Hf) as Hfo. pose proof (frame_extent f Hfo).
    exists (shiftGroup k (frameGroup f)), (map (fun f => shiftGroup k (frameGroup f)) W2 ++ map (shiftGroup k) (groups opened J)), f.
    split; [unfold rest; done|]. split; [simpl; rewrite frameGroup_spans; destruct Hfo as [(Hne & _) _ _]; by destruct f|].
    split; [done|]. split; [done|]. split; [lia|]. split; [lia|]. split; [simpl; fold (f1 f); lia|].
    intros f' Hf' Hs' Hn'. destruct (decide (f1 f' < e)) as [Hlt|Hge].
    + assert (f' ∈ filter (openIn s e) frames) as H' by (apply list_elem_of_filter; unfold openIn, inside, settledIn in *; split; [lia|done]).
      pose proof (filter_sorted follows (openIn s e) frames (bus_order ok)) as HS. rewrite EW in H', HS. inversion_clear HS as [|? ? _ Hall].
      apply elem_of_cons in H' as [->|H']; [lia|]. rewrite list.Forall_forall in Hall. destruct (Hall f' H'). lia.
    + destruct (ends_order f f' Hf Hf'); lia.
Qed.

Lemma spansSorted_true sp : ascending sp -> spansSorted sp = true.
Proof using.
  induction 1 as [|s [|t sp] Hs IH Hall]; [done..|].
  change (spansSorted (s :: t :: sp)) with (negb (I0 t <? I0 s) && spansSorted (t :: sp)). rewrite IH, andb_true_r. apply list.Forall_cons in Hall as [H _].
  by apply negb_true_iff, Z.ltb_ge.
Qed.
Lemma windowSpans_id d n r : ascending r -> Forall (spanOk d n) r -> windowSpans d n r = r.
Proof using.
  intros Ha Hr. unfold windowSpans. assert (omap (windowSpan d n) r = r) as ->; [|by rewrite spansSorted_true].
  clear Ha. induction Hr as [|s r (H1 & H2 & H3) Hr IH]; [done|]. cbn. unfold windowSpan at 1.
  rewrite (proj2 (Z.leb_le 0 (I0 s))), (proj2 (Z.ltb_lt (I0 s) n)), (proj2 (Z.leb_le (done_ d) _)) by lia. cbn [andb].
  rewrite Z.max_r by lia. rewrite IH. by destruct s.
Qed.

(** The window of a decoder at base [b], up to sample [e]. *)
Record follower (d : StreamDecoder) (e : Z) : Prop := {
  fw_small : small d;
  fw_kind : edges d = false /\ atStart d = false /\ leadN d = 0 /\ closeN d = C /\ maxN d = M /\ subframes d = sub /\ winB d = [];
  fw_window : winA d = slice (Z.to_nat (base d)) (Z.to_nat (e - base d)) line /\ base d + Held d = e /\ done_ d <= base d;
  fw_frames : forall f, f ∈ frames -> (f1 f < base d /\ C < e - 1 - f1 f) \/ (base d <= f0 f /\ ~ C < e - 1 - f1 f);
}.

Lemma read_spans d e J :
  small d -> done_ d <= base d -> base d + Held d = e -> cutAt (base d) e J ->
  let r := map (shift (- base d)) (concat (filter (inside (base d) e) frames) ++ J) in
  windowSpans d (Held d) r = r.
Proof using ok.
  intros Hs Hd He HJ r. destruct (cut_after _ _ _ HJ) as [Haf HJa]. pose proof Hs as [_ (Hb & _ & Hn) _].
  set (W := filter (inside (base d) e) frames) in *.
  assert (Forall frameOk W) as HW.
  { apply list.Forall_forall. intros f [_ Hf]%list_elem_of_filter. by apply frame_ok. }
  destruct (groups_window W J HW (filter_sorted _ _ _ (bus_order ok)) Haf HJa) as [_ Ha].
  assert (Forall (fun s => base d <= I0 s < e /\ I0 s <= I1 s) (concat W ++ J)) as Hin.
  { apply Forall_app. split.
    - apply list.Forall_forall. intros s Hc. apply list_elem_of_In, List.in_concat in Hc as (f & Hf%list_elem_of_In & Hsf%list_elem_of_In).
      unfold W in Hf. apply list_elem_of_filter in Hf as [[H1 H2] Hf]. pose proof (in_frame f s (frame_ok f Hf) Hsf). lia.
    - destruct J as [|j J]; [constructor|]. destruct HJ as (f & _ & H1 & H2 & H3 & _ & H5 & H6 & _). inversion_clear H5 as [|? ? _ Hj].
      rewrite list.Forall_forall in H6. rewrite list.Forall_forall in Hj. apply list.Forall_forall. intros s Hs'. destruct (H6 s Hs').
      split; [|lia]. split; [|lia]. apply elem_of_cons in Hs' as [->|Hs']; [lia|]. specialize (Hj s Hs'). simpl in Hj. lia. }
  apply windowSpans_id.
  - unfold r. clear -Ha. induction Ha as [|s l Hl IH Hall]; [apply SSorted_nil|]. cbn [map]. apply SSorted_cons; [done|].
    apply Forall_map. eapply Forall_impl; [exact Hall|]. simpl. lia.
  - unfold r. apply Forall_map. eapply Forall_impl; [exact Hin|]. intros s Hsp. unfold spanOk. simpl. simpl in Hsp. rewrite u64_small by lia. lia.
Qed.

Lemma streamFrame_frame d f :
  0 <= base d -> frameOk f -> base d <= f0 f -> f1 f < 2 ^ 63 -> streamFrame d (shiftGroup (- base d) (frameGroup f)) = toFrame f.
Proof using.
  intros Hb Hf H0 H1. unfold streamFrame, toFrame. cbn [shiftGroup g_i0 g_i1 g_spans]. fold (f0 f). fold (f1 f). pose proof (frame_extent f Hf).
  rewrite !u64_small by lia. f_equal; [lia|lia|]. rewrite map_map, frameGroup_spans. apply map_ext_in. intros s Hs%list_elem_of_In.
  pose proof (in_frame f s Hf Hs). unfold streamSpan. simpl. rewrite !u64_small by lia. f_equal; lia.
Qed.

Lemma last_settled s e l :
  match last (map (fun f => shiftGroup (- s) (frameGroup f)) (filter (settledIn s e) frames)) with Some g => Some (g_i1 g) | None => None end = Some l ->
  exists w, w ∈ filter (settledIn s e) frames /\ l = f1 w - s /\ forall v, v ∈ filter (settledIn s e) frames -> f1 v <= f1 w.
Proof using ok.
  pose proof (filter_sorted _ (settledIn s e) _ (bus_order ok)) as HS.
  assert (forall v, v ∈ filter (settledIn s e) frames -> v ∈ frames) as Hsub by (by intros v [_ H]%list_elem_of_filter).
  destruct (last (filter (settledIn s e) frames)) as [w|] eqn:E.
  - pose proof E as [l' El]%last_Some. rewrite El at 1. rewrite map_app. cbn [map]. rewrite last_snoc. intros [= <-].
    assert (w ∈ filter (settledIn s e) frames) as Hw by (rewrite El; apply elem_of_app; right; by left). exists w. split; [done|]. split; [simpl; fold (f1 w); lia|].
    intros v Hv. destruct (last_sorted follows _ v w HS E Hv) as [->|[H _]]; [lia|]. pose proof (frame_extent w (frame_ok w (Hsub w Hw))). lia.
  - apply last_None in E as ->. done.
Qed.

(** A run of a window that is not empty. *)
(** The window's groups: those of the settled frames, then the rest. *)
Lemma window_groups d e :
  readsBus -> small d -> edges d = false -> closeN d = C -> subframes d = sub -> winB d = [] ->
  winA d = slice (Z.to_nat (base d)) (Z.to_nat (e - base d)) line -> base d + Held d = e -> 0 < Held d -> e <= len line -> done_ d <= base d ->
  idle (base d) ->
  exists J, cutAt (base d) e J /\
    groups d (windowSpans d (Held d) (decoded decode edec d)) =
    map (fun f => shiftGroup (- base d) (frameGroup f)) (filter (settledIn (base d) e) frames) ++
    map (fun f => shiftGroup (- base d) (frameGroup f)) (filter (openIn (base d) e) frames) ++ map (shiftGroup (- base d)) (groups opened J).
Proof using ok.
  intros Hread Hs Ke Kc Ks Kb Hwin Hn H0 Hle Hd Hidle. pose proof Hs as [_ (Hb & _) _].
  destruct (Hread (base d) e) as (J & HJ & Hdec); [lia|done|done|]. exists J. split; [done|].
  assert (decoded decode edec d = map (shift (- base d)) (concat (filter (inside (base d) e) frames) ++ J)) as ->.
  { unfold decoded. rewrite Ke, Kb. change (len (@nil Z)) with 0. rewrite (proj2 (Z.eqb_neq 0 (Held d))) by lia. by rewrite Hwin. }
  pose proof (read_spans d e J Hs Hd Hn HJ) as Hws. cbv zeta in Hws. rewrite Hws. rewrite groups_shift.
  rewrite (groups_same opened d) by (rewrite ?Kc, ?Ks; done). destruct (cut_after _ _ _ HJ) as [Haf HJa].
  assert (Forall frameOk (filter (inside (base d) e) frames)) as HW.
  { apply list.Forall_forall. intros f [_ Hf]%list_elem_of_filter. by apply frame_ok. }
  destruct (groups_window _ J HW (filter_sorted _ _ _ (bus_order ok)) Haf HJa) as [-> _]. rewrite inside_split.
  by rewrite !map_app, !map_map, <- app_assoc.
Qed.

(** A decoder of samples and one line, moved on by [cut]. *)
Lemma dropped_place d n cut fin :
  edges d = false -> winB d = [] -> 0 <= cut <= n -> 0 <= base d -> base d + n < 2 ^ 63 ->
  let d1 := set_place (base d) fin d in
  let d2 := if 0 <? cut then dropWindow (Z.min cut n) n d1 else d1 in
  base d2 = base d + cut /\ atStart d2 = atStart d /\ winB d2 = [] /\ done_ d2 = fin.
Proof using.
  intros Ke Kb Hc Hb Hlt d1 d2. unfold d2, d1, dropWindow. destruct (Z.ltb_spec 0 cut); [|cbn; repeat (split; [lia || done|]); done].
  cbn. rewrite Ke. cbn. rewrite Kb. rewrite Z.min_l by lia. rewrite u64_small by lia. split; [done|]. split; [done|]. split; [|done].
  by destruct (len (@nil Z) =? n); [rewrite drop_nil|].
Qed.

Lemma run_frames d e :
  readsBus -> small d -> edges d = false /\ atStart d = false /\ leadN d = 0 /\ closeN d = C /\ maxN d = M /\ subframes d = sub /\ winB d = [] ->
  winA d = slice (Z.to_nat (base d)) (Z.to_nat (e - base d)) line -> base d + Held d = e -> 0 < Held d -> e <= len line -> done_ d <= base d ->
  idle (base d) ->
  let r := run decode edec d in
  r.1 = map toFrame (filter (settledIn (base d) e) frames) /\ atStart r.2 = false /\ winB r.2 = [] /\ done_ r.2 <= base r.2 /\
  forall f, f ∈ frames -> base d <= f0 f ->
    (settledIn (base d) e f /\ f1 f < base r.2) \/ (~ settledIn (base d) e f /\ base r.2 <= f0 f).
Proof using ok.
  intros Hread Hs (Ke & Ka & Kl & Kc & Km & Ks & Kb) Hwin Hn H0 Hle Hd Hidle r. subst r. unfold run. set (n := Held d) in *.
  rewrite (proj2 (Z.eqb_neq n 0)) by lia. pose proof Hs as [_ (Hb & Hdn & Hlt) _]. fold n in Hlt, Hdn.
  destruct (window_groups d e) as (J & HJ & Hg); [done..|]. fold n in Hg. rewrite Hg. clear Hg.
  set (W1 := filter (settledIn (base d) e) frames). set (gs := map (fun f => shiftGroup (- base d) (frameGroup f)) W1).
  pose proof (rest_head (base d) e J (- base d) HJ) as Hrest. cbv zeta in Hrest.
  set (rest := map _ (filter (openIn (base d) e) frames) ++ _) in *.
  assert (takeWhole n (gs ++ rest) (MkTaken [] None d) =
    (rest, MkTaken (map (streamFrame d) gs) (match last gs with Some g => Some (g_i1 g) | None => None end) d)) as ->.
  { apply (takeWhole_all n gs rest (MkTaken [] None d)); [|done|].
    - unfold gs. apply Forall_map, list.Forall_forall. intros f [[H1 H2] Hf]%list_elem_of_filter. cbn [shiftGroup g_spans g_i1 t_dec]. rewrite frameGroup_spans, Kc. fold (f1 f).
      split; [|lia]. destruct (frame_ok f Hf) as [(Hne & _) _ _]. by destruct f.
    - intros g l Hgl. cbn [t_dec]. rewrite Kc. destruct Hrest as [[Hr _]|(g' & l' & f & Hr & _ & _ & _ & _ & _ & R6 & _)]; rewrite Hr in Hgl; [done|].
      injection Hgl as <- _. lia. }
  pose proof C_pos as HC. assert (takeForced n rest (MkTaken (map (streamFrame d) gs) (match last gs with Some g => Some (g_i1 g) | None => None end) d) =
    (rest, MkTaken (map (streamFrame d) gs) (match last gs with Some g => Some (g_i1 g) | None => None end) d)) as ->.
  { unfold takeForced. destruct Hrest as [[-> _]|(g & l & f & -> & _ & R2 & R3 & R4 & R5 & _)]; [done|]. cbn [t_dec]. rewrite Km.
    pose proof (fo_max _ (frame_ok f R3)). by rewrite (proj2 (Z.ltb_ge M _)) by lia. }
  set (t := MkTaken (map (streamFrame d) gs) _ d).
  assert (forall l, t_last t = Some l -> exists w, w ∈ W1 /\ l = f1 w - base d /\ forall v, v ∈ W1 -> f1 v <= f1 w) as Hlast.
  { intros l Hl. apply (last_settled (base d) e l). exact Hl. }
  set (open := match rest with g :: _ => if decide (g_spans g = []) then None else Some (g_i0 g) | [] => None end).
  assert (forall w, w ∈ W1 -> w ∈ frames /\ base d <= f0 w /\ f0 w <= f1 w /\ C < e - 1 - f1 w) as HW1.
  { intros w [[H1 H2] Hw]%list_elem_of_filter. pose proof (frame_extent w (frame_ok w Hw)). auto. }
  destruct (nextCut_idle n rest t open Kc Km Kl Hb H0 Hlt) as (N1 & N2 & N3 & N4 & N5); [simpl; lia|done| | |].
  { intros l (w & Hw & -> & _)%Hlast. destruct (HW1 w Hw) as (_ & H1 & H2 & H3). lia. }
  { intros i Hi. unfold open in Hi. destruct Hrest as [[Hr _]|(g & l & f & Hr & R1 & R2 & R3 & R4 & R5 & _ & _)]; rewrite Hr in Hi; [done|].
    rewrite decide_False in Hi by done. injection Hi as <-. pose proof (fo_max _ (frame_ok f R3)). split; [lia|]. split; [lia|].
    intros l' (w & Hw & -> & _)%Hlast. destruct (HW1 w Hw) as (Hw1 & H1 & H2 & H3). destruct (ends_order w f Hw1 R3); lia. }
  destruct (nextCut n rest t) as [cut fin]. cbn [fst snd t_dec t] in *.
  destruct (dropped_place d n cut fin) as (D1 & D2 & D3 & D4); [done|done|lia|lia|lia|]. rewrite Ka in D2.
  set (d2 := if 0 <? cut then _ else _) in *.
  split.
  { change (map (streamFrame d) gs = map toFrame W1). unfold gs. rewrite map_map. apply map_ext_in. intros f Hf%list_elem_of_In. destruct (HW1 f Hf) as (F1' & F2' & F3' & F4').
    apply streamFrame_frame; [done|by apply frame_ok|done|lia]. }
  split; [done|]. split; [done|]. split; [lia|]. intros f Hf Hbf. rewrite D1. destruct (decide (settledIn (base d) e f)) as [Hset|Hset].
  - left. split; [done|]. assert (f ∈ W1) as Hin by by apply list_elem_of_filter.
    destruct (last gs) as [g|] eqn:Eg.
    + destruct (Hlast (g_i1 g)) as (w & _ & Hl & Hmax); [done|]. specialize (Hmax f Hin). specialize (N2 (g_i1 g) eq_refl). lia.
    + apply last_None in Eg. unfold gs in Eg. destruct W1; [by apply not_elem_of_nil in Hin|done].
  - right. split; [done|]. destruct Hrest as [[Hr Hnone]|(g & l & f' & Hr & R1 & R2 & R3 & R4 & R5 & _ & R7)].
    + assert (cut <= f0 f - base d); [|lia]. apply N4; [unfold open; by rewrite Hr|specialize (Hnone f Hf Hbf Hset); lia| |lia].
      intros l (w & Hw & -> & _)%Hlast. destruct (HW1 w Hw) as (Hw1 & H1 & H2 & H3). unfold settledIn in Hset. destruct (ends_order w f Hw1 Hf); lia.
    + specialize (R7 f Hf Hbf Hset). assert (cut <= g_i0 g) by (apply N3; unfold open; rewrite Hr; by rewrite decide_False). lia.
Qed.

(** *** Pushes *)

Definition settledBy (e : Z) (f : list Span) : Prop := C < e - 1 - f1 f.
#[export] Instance settledBy_dec e f : Decision (settledBy e f).
Proof using. unfold settledBy. apply _. Defined.

Lemma none_settled d e : follower d e -> filter (settledIn (base d) e) frames = [].
Proof using ok.
  intros Hd. destruct (filter (settledIn (base d) e) frames) as [|f l] eqn:E; [done|].
  assert (f ∈ filter (settledIn (base d) e) frames) as Hin by (rewrite E; by left). apply list_elem_of_filter in Hin as [[A1 A2] Hin].
  pose proof (frame_extent f (frame_ok f Hin)). destruct (fw_frames _ _ Hd f Hin) as [[A _]|[_ A]]; [lia|done].
Qed.

Lemma slice_to_end {A} (b e : Z) (l x : list A) :
  0 <= b <= e -> e + Z.of_nat (length x) <= Z.of_nat (length l) -> x = slice (Z.to_nat e) (length x) l ->
  slice (Z.to_nat b) (Z.to_nat (e - b)) l ++ x = slice (Z.to_nat b) (Z.to_nat (e + Z.of_nat (length x) - b)) l.
Proof using.
  intros Hb Hl Hx. replace (Z.to_nat (e + Z.of_nat (length x) - b)) with (Z.to_nat (e - b) + length x)%nat by lia.
  rewrite slice_app. f_equal. rewrite Hx at 1. f_equal. lia.
Qed.

Lemma push_frames d e x :
  readsBus -> follower d e -> e + len x <= len line -> len line < 2 ^ 63 -> x = slice (Z.to_nat e) (length x) line ->
  let e' := e + len x in
  let r := Push decode edec x None d in
  r.1 = map toFrame (filter (settledIn (base d) e') frames) /\ follower r.2 e'.
Proof using ok.
  intros Hread Hfw Hle Hlt Hx e'. pose proof Hfw as [Hs (Ke & Ka & Kl & Kc & Km & Ks & Kb) (Hwin & Hn & Hd) Hf].
  pose proof Hs as [Hc (Hb & Hdn & _) Hwf]. pose proof (Held_nonneg d (proj1 Hwf)) as Hh0. assert (0 <= len x) as Hx0 by (unfold len; lia).
  set (d1 := set_window (winA d ++ x) (winB d ++ []) (ea d) (eb d) d). change (Push decode edec x None d) with (run decode edec d1). cbv zeta.
  assert (Held d1 = Held d + len x) as Hh1 by (unfold Held, d1, len; simpl; rewrite Ke, length_app; lia).
  assert (base d1 = base d /\ done_ d1 = done_ d /\ winB d1 = []) as (E1 & E2 & E3) by (repeat split; simpl; by rewrite Kb).
  assert (small d1) as Hs1 by (split; [done|lia|done]).
  assert (winA d1 = slice (Z.to_nat (base d1)) (Z.to_nat (e' - base d1)) line) as Hw1.
  { rewrite E1. change (winA d1) with (winA d ++ x). rewrite Hwin. apply slice_to_end; [lia|exact Hle|done]. }
  assert (forall f, f ∈ frames -> f1 f < base d -> settledBy e' f) as Hold.
  { intros f Hin Hlow. destruct (Hf f Hin) as [[_ H]|[H _]]; [unfold settledBy, e'; lia|]. pose proof (frame_extent f (frame_ok f Hin)). lia. }
  destruct (Z.eq_dec (Held d1) 0) as [Hz|Hz].
  { unfold run. rewrite Hz. cbn [Z.eqb fst snd]. assert (len x = 0 /\ Held d = 0) as [Hl0 Hd0] by lia. pose proof C_pos. split.
    - unfold e'. rewrite Hl0, Z.add_0_r. by rewrite (none_settled d e Hfw).
    - split; [done|by repeat (split; [done|])|rewrite E1, E2; split; [by rewrite <- E1|split; [unfold e'; lia|done]]|].
      intros f Hin. rewrite E1. unfold e'. rewrite Hl0, Z.add_0_r. by apply Hf. }
  destruct (run_frames d1 e') as (R1 & R2 & R3 & R4 & R5); [done|done|by repeat (split; [done|])|done|unfold e'; lia|pose proof (Held_nonneg d1 (proj1 Hwf)); lia|done|lia| |].
  { intros f Hin. rewrite E1. destruct (Hf f Hin) as [[H _]|[H _]]; [by left|by right]. }
  rewrite E1 in R1, R5. split; [exact R1|].
  destruct (run_spec decode edec d1 Hs1) as ((k & [(M1 & M2 & M3) M4 (S1 & S2 & S3 & S4 & S5) M6]) & _).
  set (d2 := (run decode edec d1).2) in *. split.
  - done.
  - rewrite S1, S2, S3, S4, S5. by repeat (split; [done|]).
  - split; [|split; [rewrite M2, M3; unfold e'; lia|done]]. rewrite (M4 Ke), Hw1, M2, E1. unfold slice.
    rewrite <- take_drop_commute || rewrite skipn_firstn_comm. rewrite drop_drop.
    replace (Z.to_nat (base d) + Z.to_nat k)%nat with (Z.to_nat (base d + k)) by lia. f_equal. unfold e' in *. lia.
  - intros f Hin. destruct (Z.lt_ge_cases (f1 f) (base d)) as [Hlow|Hhigh].
    + left. split; [lia|]. by apply Hold.
    + assert (base d <= f0 f) as Hbf by (destruct (Hf f Hin) as [[H _]|[H _]]; lia).
      destruct (R5 f Hin Hbf) as [[[_ H1] H2]|[H1 H2]]; [by left|right]. split; [done|]. intros H. apply H1. by split.
Qed.

Fixpoint pushAll (cs : list (list Z)) (d : StreamDecoder) : list StreamFrame * StreamDecoder :=
  match cs with
  | [] => ([], d)
  | x :: cs => let r := Push decode edec x None d in let r' := pushAll cs r.2 in (r.1 ++ r'.1, r'.2)
  end.

Lemma pushAll_frames cs d e :
  readsBus -> follower d e -> 0 <= e -> drop (Z.to_nat e) line = concat cs -> e + len (concat cs) = len line -> len line < 2 ^ 63 ->
  let r := pushAll cs d in
  r.1 = map toFrame (filter (settledIn (base d) (len line)) frames) /\ follower r.2 (len line).
Proof using ok.
  intros Hread. revert d e. induction cs as [|x cs IH]; intros d e Hd He Hdrop Hlen Hlt; cbn [pushAll].
  - change (len (concat [])) with 0 in Hlen. rewrite Z.add_0_r in Hlen. subst e. split; [|done]. by rewrite (none_settled d (len line) Hd).
  - cbn [concat] in Hdrop, Hlen. assert (len (x ++ concat cs) = len x + len (concat cs)) as Hl by (unfold len; rewrite length_app; lia).
    assert (0 <= len (concat cs) /\ 0 <= len x) as [Hc0 Hx0] by (unfold len; lia).
    assert (x = slice (Z.to_nat e) (length x) line) as Hx by (unfold slice; by rewrite Hdrop, take_app_length).
    destruct (push_frames d e x Hread Hd) as [H1 H2]; [lia|done|done|]. cbv zeta in *. set (d' := (Push decode edec x None d).2) in *.
    destruct (IH d' (e + len x) H2) as [H3 H4]; [lia| |lia|done|].
    { replace (Z.to_nat (e + len x)) with (Z.to_nat e + length x)%nat by (unfold len; lia). by rewrite <- drop_drop, Hdrop, drop_app_length. }
    split; [|exact H4]. cbn [fst]. rewrite H1, H3, <- map_app. f_equal. symmetry.
    rewrite (filter_split follows (settledIn (base d) (len line)) (settledBy (e + len x)) frames (bus_order ok)).
    + f_equal; apply filter_same; intros f Hf; unfold settledIn, settledBy; pose proof (frame_extent f (frame_ok f Hf)).
      * lia.
      * destruct (fw_frames _ _ H2 f Hf) as [[A1 A2]|[A1 A2]], (fw_frames _ _ Hd f Hf) as [[B1 B2]|[B1 B2]]; lia.
    + intros f g Hf Hg [Hfg _] Hq. unfold settledBy in *. pose proof (frame_extent g (frame_ok g Hg)). lia.
Qed.

Lemma follower_opened : follower opened 0.
Proof using ok.
  split; [|by repeat (split; [done|])|done|].
  - destruct (small_New c m) as [[H1 H2 H3] _]. by split.
  - intros f Hf. right. destruct (frame_ok f Hf) as [(_ & H0 & _) _ _]. pose proof (frame_extent f (frame_ok f Hf)). pose proof C_pos. simpl. lia.
Qed.

(** C8: A stream's frames come out whole, in order, each once and all of them
    but those the stream's last Close samples may still cut, and they are the
    same however the samples were cut into pushes; flushing adds none. *)
Theorem chunks_frames cs :
  readsBus -> concat cs = line -> len line < 2 ^ 63 ->
  let r := pushAll cs opened in
  r.1 = map toFrame (filter (settledBy (len line)) frames) /\ (Flush decode edec r.2).1 = [].
Proof using ok.
  intros Hread Hcs Hlt r. destruct (pushAll_frames cs opened 0 Hread follower_opened) as [H1 H2]; [done|by rewrite Hcs|by rewrite Hcs|done|].
  fold r in H1, H2. assert (forall f, f ∈ frames -> settledIn (base opened) (len line) f <-> settledBy (len line) f) as Hs.
  { intros f Hf. destruct (frame_ok f Hf) as [(_ & H0 & _) _ _]. unfold settledIn, settledBy. simpl. lia. }
  split; [by rewrite H1, (filter_same _ _ _ Hs)|].
  destruct (push_frames r.2 (len line) [] Hread H2) as [H3 _]; [change (len (@nil Z)) with 0; lia|done|reflexivity|].
  change (len (@nil Z)) with 0 in H3. rewrite Z.add_0_r in H3.
  assert (Push decode edec [] None r.2 = run decode edec r.2) as Hp.
  { unfold Push. f_equal. unfold set_window. cbn [default]. rewrite !app_nil_r. by destruct r.2. }
  rewrite Hp in H3. unfold Flush. destruct (run decode edec r.2) as [out d]. cbn [fst] in *. rewrite H3.
  by rewrite (none_settled r.2 (len line) H2).
Qed.
End Bus.
