(* ===== verification/StreamDecEdges.v ===== *)
(** * Edges or samples

    A stream decoded from its edges hands out the frames of its samples: the
    window's operations on the lines are those on the samples, and everything
    else of the decoder does not see which it has. *)
From stdpp Require Import sorting list.
From S2P Require Import Prelude EdgeLine StreamDec StreamDecRun StreamDecFrames.

(** ** Samples of a line, after each operation *)

Definition code (v : Z) : Z := if v =? 0 then 0 else 255.

Lemma Samples_code l : wf l -> Samples l = map code (levels l).
Proof. apply Samples_levels. Qed.
Lemma map_slice {A B} (f : A -> B) o n l : map f (slice o n l) = slice o n (map f l).
Proof. unfold slice. by rewrite skipn_map, firstn_map. Qed.
Lemma len_Samples l : wf l -> len (Samples l) = N l.
Proof. intros Hl. rewrite (Samples_code l Hl). unfold len. rewrite length_map, length_levels. pose proof (wf_N l Hl). lia. Qed.
Lemma Samples_Drop n l : wf l -> Samples (Drop n l) = drop (Z.to_nat n) (Samples l).
Proof. intros Hl. destruct (Drop_levels n l Hl) as [H1 H2]. rewrite !Samples_code, H2 by done. symmetry. apply skipn_map. Qed.

(** The samples an edge push brings. *)
Definition ranged (src : EdgeLine) (from to : Z) : list Z :=
  slice (Z.to_nat (Z.max from 0)) (Z.to_nat (Z.min to (N src) - Z.max from 0)) (Samples src).
Lemma Samples_AppendRange src from to l : wf src -> wf l -> Samples (AppendRange src from to l) = Samples l ++ ranged src from to.
Proof.
  intros Hs Hl. destruct (AppendRange_levels src from to l Hs Hl) as [H1 H2]. unfold ranged.
  rewrite !Samples_code, H2 by done. by rewrite map_app, map_slice.
Qed.

(** ** The same decoder on samples *)

Definition asSamples (d : StreamDecoder) : StreamDecoder :=
  MkStreamDecoder (closeN d) (maxN d) (Samples (ea d)) (Samples (eb d)) (base d) (done_ d) (subframes d) (leadN d) (atStart d) (startAt d) false empty empty.
Definition takenSamples (t : taken) : taken := MkTaken (t_out t) (t_last t) (asSamples (t_dec t)).

Lemma takeGroup_samples g t : takeGroup g (takenSamples t) = takenSamples (takeGroup g t).
Proof.
  unfold takeGroup. destruct (g_spans g) as [|s l]; [done|]. unfold keepFirst. cbn [takenSamples t_dec asSamples atStart base startAt].
  destruct (_ || _); [done|]. cbn [set_start asSamples]. by destruct (isFrameStart _ s && _).
Qed.
Lemma takeWhole_samples n gs t : takeWhole n gs (takenSamples t) = let r := takeWhole n gs t in (r.1, takenSamples r.2).
Proof.
  revert t. induction gs as [|g gs IH]; intros t; [done|]. cbn [takeWhole]. change (closeN (t_dec (takenSamples t))) with (closeN (t_dec t)).
  destruct (_ <=? _); [done|]. by rewrite takeGroup_samples, IH.
Qed.
Lemma takeForced_samples n rest t : takeForced n rest (takenSamples t) = let r := takeForced n rest t in (r.1, takenSamples r.2).
Proof.
  unfold takeForced. destruct rest as [|g rest]; [done|]. change (maxN (t_dec (takenSamples t))) with (maxN (t_dec t)).
  change (closeN (t_dec (takenSamples t))) with (closeN (t_dec t)).
  destruct (_ <? _); [|done]. destruct (last _); [|done]. by rewrite takeGroup_samples.
Qed.

(** An edge decoder, its lines well formed. *)
Definition onEdges (d : StreamDecoder) : Prop := edges d = true /\ wf (ea d) /\ wf (eb d).

Lemma Held_samples d : onEdges d -> Held (asSamples d) = Held d.
Proof. intros (He & Ha & _). unfold Held. rewrite He. cbn [asSamples edges winA]. by apply len_Samples. Qed.

Lemma dropWindow_samples cut n d :
  onEdges d -> dropWindow cut n (asSamples d) = asSamples (dropWindow cut n d) /\ onEdges (dropWindow cut n d).
Proof.
  intros (He & Ha & Hb). unfold dropWindow. rewrite He. cbn [asSamples edges winB eb]. rewrite len_Samples by done. split.
  - unfold asSamples, set_place, set_window. cbn. rewrite (Samples_Drop cut (ea d)) by done.
    destruct (N (eb d) =? n); [by rewrite (Samples_Drop cut (eb d))|done].
  - split; [done|]. split; [by apply Drop_levels|]. cbn. destruct (N (eb d) =? n); [by apply Drop_levels|done].
Qed.

Lemma takeGroup_kind g t : onEdges (t_dec t) -> onEdges (t_dec (takeGroup g t)).
Proof.
  unfold takeGroup. destruct (g_spans g) as [|s l]; [done|]. unfold keepFirst. by destruct (_ || _).
Qed.
Lemma takeWhole_kind n gs t : onEdges (t_dec t) -> onEdges (t_dec (takeWhole n gs t).2).
Proof.
  revert t. induction gs as [|g gs IH]; intros t Ht; [done|]. cbn [takeWhole]. destruct (_ <=? _); [done|]. by apply IH, takeGroup_kind.
Qed.
Lemma takeForced_kind n rest t : onEdges (t_dec t) -> onEdges (t_dec (takeForced n rest t).2).
Proof.
  intros Ht. unfold takeForced. destruct rest as [|g rest]; [done|]. destruct (_ <? _); [|done]. destruct (last _); [by apply takeGroup_kind|done].
Qed.

Section Edges.
Context (decode : list Z -> option (list Z) -> list Span) (edec : EdgeLine -> option EdgeLine -> list Span).

(** The edges' decoder reads of the lines what the samples' reads of them. *)
Definition sameReading : Prop := forall la lb, wf la -> (forall b, lb = Some b -> wf b) -> edec la lb = decode (Samples la) (Samples <$> lb).
Context (same : sameReading).

Lemma decoded_samples d : onEdges d -> decoded decode edec (asSamples d) = decoded decode edec d.
Proof using same.
  intros Hd. pose proof Hd as (He & Ha & Hb). unfold decoded. rewrite (Held_samples d Hd), He. cbn [asSamples edges winA winB].
  rewrite len_Samples by done. rewrite same; [|done|intros b; destruct (_ =? _); [by intros [= <-]|done]]. by destruct (_ =? _).
Qed.

Lemma run_samples d :
  onEdges d -> let r := run decode edec d in
  run decode edec (asSamples d) = (r.1, asSamples r.2) /\ onEdges r.2.
Proof using same.
  intros Hd r. subst r. unfold run. rewrite (Held_samples d Hd), (decoded_samples d Hd). set (n := Held d).
  destruct (n =? 0); [done|]. change (windowSpans (asSamples d) n) with (windowSpans d n). rewrite (groups_same d (asSamples d)) by done.
  change (MkTaken [] None (asSamples d)) with (takenSamples (MkTaken [] None d)). set (gs := groups d _). rewrite takeWhole_samples. cbv zeta.
  pose proof (takeWhole_kind n gs (MkTaken [] None d) Hd) as Hw. destruct (takeWhole n gs (MkTaken [] None d)) as [rest0 t0]. cbn [fst snd] in *.
  rewrite takeForced_samples. cbv zeta. pose proof (takeForced_kind n rest0 t0 Hw) as Hf. destruct (takeForced n rest0 t0) as [rest t]. cbn [fst snd] in *.
  change (nextCut n rest (takenSamples t)) with (nextCut n rest t). destruct (nextCut n rest t) as [cut fin].
  change (set_place (base (asSamples d)) fin (t_dec (takenSamples t))) with (asSamples (set_place (base d) fin (t_dec t))).
  assert (onEdges (set_place (base d) fin (t_dec t))) as Hp by exact Hf. destruct (0 <? cut); [|done].
  destruct (dropWindow_samples (Z.min cut n) n _ Hp) as [H1 H2]. rewrite H1. done.
Qed.

(** An edge call as the call on samples. *)
Definition plain (o : streamOp) : streamOp :=
  match o with
  | OpEdges a b from to => OpPush (ranged a from to) ((fun b => ranged b from to) <$> b)
  | _ => o
  end.
Definition noPush (o : streamOp) : Prop := match o with OpPush _ _ => False | _ => True end.

Lemma Skip_samples n d : onEdges d -> Skip n (asSamples d) = asSamples (Skip n d) /\ onEdges (Skip n d).
Proof using.
  intros Hd. split.
  - unfold Skip. rewrite (Held_samples d Hd). done.
  - destruct Hd as (He & _). by split; [|split; apply empty_wf].
Qed.

Lemma onStream_samples o d :
  onEdges d -> callOk o -> noPush o ->
  onStream decode edec (plain o) (asSamples d) = ((onStream decode edec o d).1, asSamples (onStream decode edec o d).2) /\
  onEdges (onStream decode edec o d).2.
Proof using same.
  intros Hd [_ Ho] Hn. destruct o as [a b|a b from to| |n|at_|n|on]; cbn [plain onStream]; try done.
  - destruct Ho as [Hoa Hob]. unfold Push, PushEdges. pose proof Hd as (He & Ha & Hb).
    set (d1 := set_window (winA d) (winB d) _ _ d).
    assert (onEdges d1) as Hd1.
    { split; [done|]. split; [by apply AppendRange_levels|]. cbn. destruct b as [b|]; [|done]. apply AppendRange_levels; [by apply Hob|done]. }
    destruct (run_samples d1 Hd1) as [H1 H2]. split; [|exact H2]. rewrite <- H1. f_equal.
    unfold set_window, asSamples, d1. cbn. rewrite Samples_AppendRange by done. destruct b as [b|]; cbn; [|by rewrite app_nil_r].
    rewrite Samples_AppendRange; [done|by apply Hob|done].
  - unfold Flush. destruct (run_samples d Hd) as [H1 H2]. rewrite H1. destruct (run decode edec d) as [out d1]. cbn [fst snd] in *.
    destruct (Skip_samples 0 d1 H2) as [H3 H4]. by rewrite H3.
  - destruct (Skip_samples n d Hd) as [H3 H4]. by rewrite H3.
Qed.

(** C10: An edge stream hands out, call by call, the frames the samples' decoder
    hands out from the same lines, however they were pushed, skipped and
    flushed. *)
Theorem edge_frames os c m :
  Forall callOk os -> Forall noPush os ->
  (onStreams decode edec os (NewEdgeStreamDecoder c m)).1 = (onStreams decode edec (map plain os) (NewStreamDecoder c m)).1.
Proof using same.
  intros Ho Hn. change (NewStreamDecoder c m) with (asSamples (NewEdgeStreamDecoder c m)).
  assert (onEdges (NewEdgeStreamDecoder c m)) as Hd by (split; [done|split; apply empty_wf]).
  revert Hd. generalize (NewEdgeStreamDecoder c m) as d. induction Ho as [|o os Ho Hos IH]; intros d Hd; [done|].
  apply list.Forall_cons in Hn as [Hno Hn]. destruct (onStream_samples o d Hd Ho Hno) as [H1 H2].
  cbn [onStreams map fst]. rewrite H1. cbn [fst snd]. f_equal. by apply IH.
Qed.
End Edges.
