(* ===== verification/AgentWitnesses.v ===== *)
(** * The update agent on a concrete stick

    Disks given by their files, and a system on which every call succeeds; the
    agent's properties applied on them; and runs of src/ota in which the code
    does not do what it means to ([start_failures_stay] of Rollback and
    [two_loops] of Watchdog are two more). *)
From stdpp Require Import relations.
From S2P Require Import Prelude Circular Machine Sha256 Files Crash Slots SlotsRun AgentState Agent Takeover Landing Supervise.
From S2P Require Import Watchdog Update Upload Rollback.

(** ** Disks *)

Definition namesOf (l : list (path * list Z)) : gmap path Z := list_to_map (imap (fun n x => (x.1, Z.of_nat n)) l).
Definition inodesOf (l : list (path * list Z)) : gmap Z file :=
  list_to_map (imap (fun n x => (Z.of_nat n, File x.2 true 0 perm755)) l).
Definition osOf (l : list (path * list Z)) : os := Os (Disk (namesOf l) (inodesOf l) []) [] [] (Z.of_nat (length l)).

Lemma imap_fst {X Y Z'} (g : nat -> X -> Y * Z') l : (imap g l).*1 = imap (fun n x => (g n x).1) l.
Proof. by rewrite fmap_imap. Qed.

Lemma namesOf_lookup l p i : NoDup (l.*1) -> namesOf l !! p = Some i -> exists n x, l !! n = Some x /\ p = x.1 /\ i = Z.of_nat n.
Proof.
  intros Hn Hp. apply elem_of_list_to_map_2, elem_of_lookup_imap in Hp as (n & x & [= -> ->] & Hx). by exists n, x.
Qed.
Lemma NoDup_inodes (l : list (path * list Z)) : NoDup ((imap (fun n x => (Z.of_nat n, File x.2 true 0 perm755)) l).*1).
Proof.
  rewrite imap_fst. apply NoDup_alt. intros i j x Hi Hj. rewrite list_lookup_imap in Hi, Hj.
  destruct (l !! i), (l !! j); simpl in *; simplify_eq. lia.
Qed.

Lemma osOf_settled l : NoDup (l.*1) -> settled (osOf l).
Proof.
  intros Hn. split; [done|..].
  - intros p i Hp. apply namesOf_lookup in Hp as (n & x & Hx & -> & ->); [|done].
    split; [apply lookup_lt_Some in Hx; cbn; lia|]. exists (File x.2 true 0 perm755). split; [|done].
    apply elem_of_list_to_map; [apply NoDup_inodes|]. apply elem_of_lookup_imap. by exists n, x.
  - intros p q i Hp Hq. apply namesOf_lookup in Hp as (n & x & Hx & -> & ->); [|done].
    apply namesOf_lookup in Hq as (m & y & Hy & -> & Hm); [|done]. apply Nat2Z.inj in Hm as ->. congruence.
Qed.

(** ** The system *)

(** Every call succeeds and takes a second; a select's wakes are a tick and the
    app's exit in turn; the FPGA is idle and nobody but us is on its bus. *)
#[export] Instance calmOs : OsEnv := {|
  os_Err _ _ := None;
  os_Count _ := 0;
  os_Now h := sec (Z.of_nat (length h));
  os_Token _ := None;
  os_TokenData _ := [];
  os_Stopped _ := false;
  os_Select h := if Nat.even (length h) then WTick else WExit None;
  os_Start _ _ := inl 100;
  os_Alive _ _ := false;
  os_Kill _ _ := None;
  os_Holders _ := [];
  os_Parent _ _ := 1;
  os_Links _ _ := None;
  os_Vxi _ _ := None;
  os_Reg _ sel := inl (if sel =? SelVersion then VersionMagic else 5);
  os_Request _ _ := None;
  os_Acquire _ := None
|}.

#[export] Instance someJson : JsonEnv := {| os_Unmarshal _ := zeroState |}.

#[export] Instance someConfig : Config := {|
  SlotRootName := "/usb/slots";
  HealthDir := Clean "/tmp";
  StatePath := Clean "/usb/state.json";
  AppGrace := sec 30;
  HealthTimeout := sec 3;
  Stable := sec 30;
  MaxFails := 3;
  FactoryNames := ["sds"%string];
  Self := 50;
  OurExe := Clean "/usb/agentA";
  gpmcFD := 7
|}.

Definition slotFile (s : string) : path := Clean ("/usb/slots/" +:+ s).
(** A stick with both slots, pointers, the state and an upload. *)
Definition stick (active confirmed : string) (taken : bool) : list (path * list Z) :=
  [(slotFile "A/app", [1; 2; 3]); (slotFile "B/app", [4; 5]); (slotFile "active", text active ++ [10]);
   (slotFile "confirmed", text confirmed ++ [10]);
   (Clean "/usb/state.json", document {| TakenOver := taken; AutoTakeover := false |}); (Clean "/usb/new", [9; 9; 9])].

Lemma stick_settled active confirmed taken : settled (osOf (stick active confirmed taken)).
Proof. apply osOf_settled. apply (bool_decide_unpack _). vm_compute. exact I. Qed.

Definition agentOn (active confirmed : string) (taken : bool) : agent :=
  let s := {| TakenOver := taken; AutoTakeover := false |} in
  Agent (Build_Store (osOf (stick active confirmed taken)) ∅) {| sf_path := StatePath; sf_s := s; sf_disk := s |} zeroApp false "" "".

(** ** Copies and updates *)

Definition newApp : path := Clean "/usb/new".
Definition os1 : os := osOf (stick "A" "A" true).


Definition updateNew : updateArgs := {| up_Src := "/usb/new"; up_SHA := "" |}.
Definition agent1 : agent := agentOn "A" "A" true.


(** ** The state file *)

Lemma held_stick taken : held {| TakenOver := taken; AutoTakeover := false |} StatePath (osOf (stick "A" "A" taken)).
Proof.
  apply settled_steady; [apply stick_settled|]. unfold known. destruct taken; vm_compute; reflexivity.
Qed.

Lemma update_durable_witness :
  let s := {| TakenOver := false; AutoTakeover := false |} in
  let sf := {| sf_path := StatePath; sf_s := s; sf_disk := s |} in
  let o := osOf (stick "A" "A" false) in
  let r := update (fun s => {| TakenOver := true; AutoTakeover := AutoTakeover s |}) (o, sf) in
  (forall d, d ∈ during o r.2.1 -> loads (fun s => TakenOver s = false \/ TakenOver s = true) StatePath d) /\
  TakenOver (sf_s r.2.2) = true /\ held {| TakenOver := true; AutoTakeover := false |} StatePath r.2.1.
Proof.
  intros s sf o r. destruct (update_durable (fun s => {| TakenOver := true; AutoTakeover := AutoTakeover s |}) o sf) as [H1 H2].
  - exact (held_stick false).
  - fold r in H1, H2. split.
    + intros d Hd v Hv. cbv beta. change StatePath with (sf_path sf).
      destruct (H1 d Hd v Hv) as [Hl|Hl]; rewrite Hl; [left|right]; reflexivity.
    + destruct r.1 as [x|e| |] eqn:Hr; [| |destruct H2|destruct H2].
      * destruct H2 as (Hs & _ & _ & _ & Hh). split; [by rewrite Hs|]. apply Hh. right. vm_compute. reflexivity.
      * assert (match r.1 with Ret _ => true | _ => false end = true) as Hret by (vm_compute; reflexivity).
        rewrite Hr in Hret. discriminate Hret.
Defined.

(** ** Taking over *)

Definition agent0 : agent := agentOn "A" "A" false.
Lemma Takeover_lands_witness :
  let r := Takeover 10 {| DryRun := false; Force := false |} agent0 in
  safeEnd agent0 r.2 /\ exists res, r.1 = Ret res /\ OK res = true.
Proof.
  intros r. split; [apply (Takeover_lands 10 {| DryRun := false; Force := false |} agent0); reflexivity|].
  eexists. split; vm_compute; reflexivity.
Defined.

(** ** Going back *)


(** ** Uploads *)

Lemma append_assoc (a b c : string) : ((a +:+ b) +:+ c)%string = (a +:+ (b +:+ c))%string.
Proof. induction a as [|x a IH]; [reflexivity|]. change (String x ((a +:+ b) +:+ c) = String x (a +:+ (b +:+ c))). by rewrite IH. Qed.

(** A partial file's name ends in its suffix. *)
Lemma split_part s : forall acc, exists l x, split (s +:+ ".part") acc = l ++ [(x +:+ ".part")%string].
Proof.
  induction s as [|c s IH]; intros acc.
  - exists [], acc. simpl. by rewrite !append_assoc.
  - change (String c s +:+ ".part")%string with (String c (s +:+ ".part"))%string. cbn [split]. destruct (Ascii.eqb c (Ascii.ascii_of_nat 47)).
    + destruct (IH EmptyString) as (l & x & Hx). exists (acc :: l), x. simpl. f_equal. exact Hx.
    + apply IH.
Qed.
Lemma part_last p s : exists l x, (Join p (s +:+ ".part")%string).2 = l ++ [(x +:+ ".part")%string].
Proof.
  unfold Join. destruct (split_part s "") as (l & x & ->). cbn [snd]. rewrite foldl_app. cbn [foldl].
  set (acc := foldl _ _ l). exists (rev acc), x. unfold element.
  rewrite decide_False; [|intros [H|H]; by destruct x as [|? [|]]]. rewrite decide_False by (by destruct x as [|? [|? [|]]]).
  reflexivity.
Qed.

Definition uploads0 : Uploads := Build_Uploads os1 ∅.
Definition sum123 : list Z := Eval vm_compute in hexSum [1; 2; 3].

Lemma transfer_whole_witness :
  exists p s, (transfer "/usb/up" 3 sum123 0 [(2, [3]); (0, [1; 2])] uploads0).1 = Ret (p, s) /\
    exists D, data <$> at_ (cur (up_os (transfer "/usb/up" 3 sum123 0 [(2, [3]); (0, [1; 2])] uploads0).2)) (Clean "/usb/up") = Some D /\
      hexSum D = toLower sum123.
Proof.
  destruct (transfer_whole "/usb/up" 3 sum123 uploads0 (stick_settled "A" "A" true)) with (m := 0) (chunks := [(2, [3]); (0, [1; 2])])
    as [_ H].
  - intros [[id Hid]|(id & s & Hs & _)].
    + unfold partOf in Hid. rewrite <- append_assoc in Hid. destruct (part_last (Dir (Clean "/usb/up")) ("." +:+ id)%string) as (l & x & Hl).
      rewrite <- Hid in Hl. assert ((Clean "/usb/up").2 = ["usb"%string] ++ ["up"%string]) as Hup by (vm_compute; reflexivity).
      rewrite Hup in Hl. apply app_inj_tail in Hl as [_ Hl]. destruct x as [|? [|? [|]]]; discriminate Hl.
    + cbn in Hs. rewrite lookup_empty in Hs. discriminate Hs.
  - destruct (transfer "/usb/up" 3 sum123 0 [(2, [3]); (0, [1; 2])] uploads0).1 as [[p s]|e| |] eqn:Hr.
    + destruct H as (_ & _ & D & HD & _ & Hask). exists p, s. split; [reflexivity|]. exists D. split; [exact HD|].
      destruct Hask as [Hask|Hask]; [vm_compute in Hask; discriminate Hask|exact Hask].
    + assert (match (transfer "/usb/up" 3 sum123 0 [(2, [3]); (0, [1; 2])] uploads0).1 with Ret _ => true | _ => false end = true)
        as Hret by (vm_compute; reflexivity).
      rewrite Hr in Hret. discriminate Hret.
    + destruct H.
    + destruct H.
Defined.

(** ** The watchdog *)

(** An Acquire armed it, and its loop waits. *)
Definition armedDevice : Device :=
  Eval vm_compute in set_loops [LoopWait 1] (set_loops [LoopTop] (Watchdog.pet (set_acquires [] (arm 7 (set_acquires [AcqPet]
    (opens 7 (set_acquires [AcqGot 7] Watchdog.New))))))).
Lemma armed_reached : rtc Watchdog.step Watchdog.New armedDevice.
Proof.
  eapply rtc_l; [apply st_call|]. eapply rtc_l; [by apply (st_unarmed _ [] [])|].
  eapply rtc_l; [apply (st_open _ [] [] 7); [done|by apply not_elem_of_nil]|].
  eapply rtc_l; [by apply (st_arm _ [] [] 7)|]. eapply rtc_l; [by apply (st_first _ [] [])|].
  eapply rtc_l; [by apply (st_read _ [] [])|]. apply rtc_refl.
Qed.

(** * Divergences *)

(** ** A second update before the first is confirmed *)

Definition twice : agent := (hAppUpdate updateNew (hAppUpdate updateNew agent1).2).2.

(** The slot the second one overwrites is the confirmed one: both pointers name
    it, the binary that ran stably is gone, and failures bring nothing back. *)
Lemma update_overwrites_confirmed :
  confirmedIn (viewOf (cur (sysOf agent1))) = "A"%string /\
  viewOf (cur (sysOf agent1)) !! slotFile "A/app" = Some [1; 2; 3] /\
  confirmedIn (viewOf (cur (sysOf twice))) = "A"%string /\ activeIn (viewOf (cur (sysOf twice))) = "A"%string /\
  viewOf (cur (sysOf twice)) !! slotFile "A/app" = Some [9; 9; 9].
Proof. repeat split; vm_compute; reflexivity. Qed.

(** ** An update from its own temporary file *)

Definition staged : list (path * list Z) := stick "A" "A" true ++ [(slotFile "B/app.tmp", [7; 7])].
Definition emptied := CopyExecutable (slotFile "B/app.tmp") (slotFile "B/app") (osOf staged).

(** The copy truncates its own source: it installs an empty file and returns
    the sum of nothing. *)
Lemma copy_own_temporary :
  emptied.1 = Ret (hexSum []) /\ viewOf (cur emptied.2) !! slotFile "B/app" = Some [].
Proof. split; vm_compute; reflexivity. Qed.

(** ** A pointer that cannot be read *)

Section unreadable.
(** The active pointer cannot be opened. *)
Definition unreadable : OsEnv := {|
  os_Err _ c := match c with COpen p => if decide (p = slotFile "active") then Some (EBus 5) else None | _ => None end;
  os_Count _ := 0; os_Now h := sec (Z.of_nat (length h)); os_Token _ := None; os_TokenData _ := [];
  os_Stopped _ := false; os_Select _ := WTick; os_Start _ _ := inl 100; os_Alive _ _ := false; os_Kill _ _ := None;
  os_Holders _ := []; os_Parent _ _ := 1; os_Links _ _ := None; os_Vxi _ _ := None; os_Reg _ _ := inl 0;
  os_Request _ _ := None; os_Acquire _ := None
|}.

(** B runs; the update takes A for the active slot and overwrites B. *)
Lemma unreadable_overwrites_running :
  activeIn (viewOf (cur (sysOf (agentOn "B" "B" true)))) = "B"%string /\
  (exists s, (hAppUpdate (E := unreadable) updateNew (agentOn "B" "B" true)).1 = Ret ("B"%string, s)) /\
  viewOf (cur (sysOf (hAppUpdate (E := unreadable) updateNew (agentOn "B" "B" true)).2)) !! slotFile "B/app" = Some [9; 9; 9].
Proof. split; [vm_compute; reflexivity|]. split; [eexists|]; vm_compute; reflexivity. Qed.
End unreadable.
