(* ===== verification/Vxi11Witnesses.v ===== *)
(** * LAN link: concrete runs

    A player of the server's steps, the witnesses of the LAN theorems, and the
    two calls that bring the server down where an int has 32 bits. *)
From stdpp Require Import gmap relations.
From S2P Require Import Prelude Machine Xdr Vxi11Srv Vxi11Lan Vxi11 Vxi11Run Vxi11Link.

(** ** Playing the server *)

Inductive play := Accept | Bytes (i : Z) (d : list Z) | Turn (i : Z) | Hangup (i : Z).

Section Player.
Context {W : GoInt} (h : list (list Z) -> list Z -> list Z).

(** What cannot be played is passed over. *)
Definition playOne (l : lan) (p : play) : lan :=
  match p with
  | Accept => MkLan (server l) (events l) (<[accepted l := Waiting zeroConn []]> (tasks l)) (accepted l + 1) (output l)
  | Bytes i d =>
      match tasks l !! i with
      | Some (Waiting c b) => if decide (isBytes d) then putTask i (Waiting c (b ++ d)) l else l
      | _ => l
      end
  | Hangup i => match tasks l !! i with Some (Waiting c b) => ended i l | _ => l end
  | Turn i =>
      match tasks l !! i with
      | Some (Waiting c b) =>
          match readRecord b with Got msg rest => putTask i (Serving (serveRecord i c msg) rest) l | _ => l end
      | Some (Serving (Locked f k) b) => putTask i (Serving (k (server l)) b) (section i f l)
      | Some (Serving (Handle line k) b) => putTask i (Serving (k (h (linesOf (events l)) line)) b) (called i line l)
      | Some (Serving (Sleep ms k) b) => putTask i (Serving k b) l
      | Some (Serving (Done (c, None)) b) => putTask i (Waiting c b) l
      | Some (Serving (Done (c, Some r)) b) => putTask i (Waiting c b) (sent i (marked r) l)
      | _ => l
      end
  end.
Definition playAll (ps : list play) : lan := foldl playOne started ps.

Lemma playOne_steps l p : rtc (step h) l (playOne l p).
Proof using.
  destruct p as [|i d|i|i]; simpl.
  - apply rtc_once, st_accept.
  - destruct (tasks l !! i) as [[c b|p b]|] eqn:E; try apply rtc_refl. destruct (decide _); [|apply rtc_refl].
    by apply rtc_once, st_bytes.
  - destruct (tasks l !! i) as [[c b|[[c [r|]]| |f k|line k|ms k] b]|] eqn:E; try apply rtc_refl.
    + destruct (readRecord b) eqn:Er; try apply rtc_refl. apply rtc_once. by eapply st_record.
    + apply rtc_once. by eapply st_reply.
    + apply rtc_once. by eapply st_silent.
    + apply rtc_once. by eapply st_locked.
    + apply rtc_once. by eapply st_handle.
    + apply rtc_once. by eapply st_sleep.
  - destruct (tasks l !! i) as [[c b|p b]|] eqn:E; try apply rtc_refl. apply rtc_once. by eapply st_hangup.
Qed.
Lemma playAll_reached ps : rtc (step h) started (playAll ps).
Proof using.
  unfold playAll. generalize started at 1 2 as l. induction ps as [|p ps IH]; intros l; [apply rtc_refl|].
  simpl. etrans; [apply playOne_steps|apply IH].
Qed.
End Player.

(** A handler that knows one question. *)
Definition question : list Z := [42; 73; 68; 78; 63].
Definition knows (past : list (list Z)) (line : list Z) : list Z :=
  if decide (line = question ++ [10]) then [83; 50; 10] else [].

Definition turns (i : Z) (n : nat) : list play := replicate n (Turn i).
Definition create (xid : Z) : list Z :=
  marked (callMsg xid coreProg coreVers Vxi11Srv.procCreateLink (putU32 0 ++ putU32 0 ++ putU32 0 ++ putOpaque [])).
Definition asking (id : Z) : list Z :=
  marked (callMsg 7 coreProg coreVers Vxi11Srv.procDeviceWrite (writeWire id flagEND question)).
Definition reading_ (id size : Z) : list Z :=
  marked (callMsg 8 coreProg coreVers Vxi11Srv.procDeviceRead (readWire id size)).

(** Two clients: the second is refused while the first asks, and granted the
    link once the first has hung up. *)
Definition twoClients : list play :=
  [Accept; Bytes 0 (create 1); Accept; Bytes 1 (create 2)] ++ turns 0 3 ++ turns 1 3 ++
  [Bytes 0 (asking 2)] ++ turns 0 4 ++ [Hangup 0; Bytes 1 (create 3)] ++ turns 1 3.

Lemma single_link_witness :
  let l := playAll (W := arm) knows twoClients in
  events l = [Link 0; Line 0 (question ++ [10]); Unlink 0; Link 1] /\
  holder (events l) None = Some (linkOwner (server l)) /\ is_Some (tasks l !! 1) /\ linkOwner (server l) = Some 1.
Proof.
  intros l. assert (rtc (step (W := arm) knows) started l) as Hr by apply playAll_reached.
  destruct (single_link (W := arm) knows l Hr) as (H1 & _ & H3 & _).
  assert (linkOwner (server l) = Some 1) as Ho by (vm_compute; reflexivity).
  split; [vm_compute; reflexivity|]. split; [exact H1|]. split; [exact (H3 1 Ho)|exact Ho].
Defined.

(** The largest read, a mark that would wrap, a message cut short. *)
Definition hostile : list play :=
  [Accept; Accept; Bytes 0 (create 1)] ++ turns 0 3 ++ [Bytes 0 (asking 2)] ++ turns 0 4 ++
  [Bytes 0 (reading_ 2 0xffffffff)] ++ turns 0 2 ++ [Bytes 1 (fragment false [0] ++ beBytes 4 0x7fffffff)] ++ turns 1 1.


(** ** The instrument's width *)

(** A read's size of 2^31 and more is a negative int, and slices out of range:
    the process panics. *)
Lemma read_size_crashes :
  exists l, rtc (step (W := arm) knows) started l /\ crashed (W := arm) l.
Proof.
  exists (playAll (W := arm) knows (take 14 hostile)). split; [apply playAll_reached|].
  exists 0. left. eexists. vm_compute. reflexivity.
Qed.
(** A mark after a first fragment passes the bound once the sum wraps. *)
Lemma record_mark_crashes :
  exists l, rtc (step (W := arm) knows) started l /\ crashed (W := arm) l /\ linkOwner (server l) = None.
Proof.
  exists (playAll (W := arm) knows [Accept; Bytes 0 (fragment false [0] ++ beBytes 4 0x7fffffff)]).
  split; [apply playAll_reached|]. split; [|vm_compute; reflexivity].
  exists 0. right. eexists _, _. split; [vm_compute; reflexivity|]. vm_compute. reflexivity.
Qed.

(** ** The connection and the client *)

(** A question in three pieces, after half a line; two fragments and more. *)
Lemma pieces_whole_witness :
  writeAll (W := arm) knows 0 7 2 [[42; 73]; []; [68; 78; 63]] (MkConn 2 [] [1]) (MkServer (Some 0) 2) [Link 0] =
  Some (MkConn 2 [] [1; 83; 50; 10], (MkServer (Some 0) 2, [Link 0; Line 0 (question ++ [10])])).
Proof.
  assert (fits 32 7 /\ fits 32 2) as [H7 H2] by (unfold fits; lia).
  assert (Forall isBytes [[42; 73]; []; [68; 78; 63]]) as Hb by (apply (bool_decide_unpack _); vm_compute; exact I).
  assert (2 <> 0) as H0 by lia.
  apply (pieces_whole (W := arm) knows 0 7 2 _ (MkConn 2 [] [1]) (MkServer (Some 0) 2) [Link 0] H7 H2 H0 eq_refl eq_refl Hb).
  - discriminate.
  - apply not_elem_of_nil.
  - vm_compute. discriminate.
Defined.

Lemma readRecord_fragments_witness :
  readRecord (W := arm) (fragments [[1; 2]; []] [3] ++ [9]) = Got [1; 2; 3] [9].
Proof. apply (readRecord_fragments (W := arm) [[1; 2]; []] [3] [9]). vm_compute. discriminate. Defined.

(** A peer that says what it likes: the bytes are given beforehand. *)
Definition script := list Z.
#[export] Instance script_net : Net script := {
  net_dial a := mret 0;
  net_write c d := mret tt;
  net_read c n := s ← gets (fun s => s);
    match ReadFull n s with
    | Some (d, rest) => if decide (isBytes d) then modify (fun _ => rest);; mret d else fail timedOut
    | None => fail timedOut
    end;
  net_close c := mret tt;
  net_deadline c t := mret tt;
  net_now := mret 5;
  net_sleep t := mret tt
}.
#[export] Instance script_ok : NetOk script.
Proof.
  split; try done. intros c n Hn s. unfold net_read, script_net, mbind, SE_bind, gets.
  destruct (ReadFull n s) as [[d rest]|] eqn:E; [|done]. destruct (decide (isBytes d)) as [Hb|Hb]; [|done]. simpl.
  split; [|done]. revert E. unfold ReadFull. destruct (Z.ltb_spec (len s) n); [done|]. intros [= <- <-].
  unfold len in *. rewrite length_take. lia.
Qed.

(** A read whose reply claims 2^32-1 bytes and has three. *)
Definition liar : script :=
  marked (replyTo 5 (Some (putU32 0 ++ putU32 1))) ++
  marked (replyTo 5 (Some (putU32 0 ++ putU32 reasonEND ++ putU32 0xffffffff ++ [1; 2; 3]))).

(** A query behind a late reply. *)
Definition lateReply : list Z := replyTo 3 (Some (putU32 0)).
Definition answering : wire := MkWire (MkServer (Some 0) 2) [Link 0] (MkConn 2 [] []) [] (marked lateReply) 0.
Lemma Query_answers_witness :
  exists n, Query (N := wire_net (W := arm) knows 0 (fun t => Z.of_nat t + 10)) 1 (MkClient 0 2 0) question answering =
    (Ret [83; 50; 10], MkWire (MkServer (Some 0) 2) [Link 0; Line 0 (question ++ [10])] (MkConn 2 [] []) [] [] n).
Proof.
  assert (linked 0 (MkClient 0 2 0) answering) as Hl.
  { by split. }
  destruct (Query_answers (W := arm) knows 0 (fun t => Z.of_nat t + 10) [lateReply] 1 (MkClient 0 2 0) question answering
    ltac:(lia) Hl eq_refl) as [n Hq].
  - vm_compute. reflexivity.
  - unfold maxStale. simpl. lia.
  - constructor; [|constructor]. split; [vm_compute; split; discriminate|vm_compute; discriminate].
  - apply (bool_decide_unpack _). vm_compute. exact I.
  - vm_compute. reflexivity.
  - vm_compute. discriminate.
  - exists n. exact Hq.
Defined.
