(* ===== verification/StreamDecWitnesses.v ===== *)
(** * Streams and lines: concrete runs

    A decoder that reads every sample but the idle ones as a span, a line of two
    frames, and the stream's theorems on them. *)
From stdpp Require Import sorting list.
From S2P Require Import Prelude EdgeLine StreamDec StreamDecRun StreamDecFrames StreamDecEdges.

(** ** Lines *)

Definition lineOps : list lineOp :=
  [OLevel 1 3; OWords [0x0f; 0x80; 0; 0] 0; ODrop 5; ORange (MkEdgeLine 6 0 [2; 5]) 1 6].
Lemma edges_samples_witness :
  let l := foldl onLine empty lineOps in
  l = MkEdgeLine 19 1 [2; 13; 14; 15; 18] /\ levels l = foldl onLevels [] lineOps.
Proof.
  split; [vm_compute; reflexivity|]. apply (edges_samples lineOps).
  assert (wf (MkEdgeLine 6 0 [2; 5])) as Hw.
  { split; simpl; [lia|by left|by repeat constructor| |lia]. repeat constructor; lia. }
  constructor; [exact I|]. constructor; [|constructor; [exact I|by constructor]].
  apply (bool_decide_unpack _). vm_compute. exact I.
Defined.

(** ** A toy bus *)

Fixpoint samplesFrom (i : Z) (l : list Z) : list Span :=
  match l with
  | [] => []
  | v :: l => (if v =? 0 then [] else [MkSpan i i "" (if v =? 2 then "sof" else "data") v]) ++ samplesFrom (i + 1) l
  end.
Definition toy (a : list Z) (b : option (list Z)) : list Span := samplesFrom 0 a.
Definition toyEdges (a : EdgeLine) (b : option EdgeLine) : list Span := toy (Samples a) (Samples <$> b).

Definition toyLine : list Z := [0; 0; 0; 2; 1; 1; 0; 0; 2; 1; 0; 1; 0; 0; 0; 0; 0].
Definition toyFrames : list (list Span) :=
  [[MkSpan 3 3 "" "sof" 2; MkSpan 4 4 "" "data" 1; MkSpan 5 5 "" "data" 1];
   [MkSpan 8 8 "" "sof" 2; MkSpan 9 9 "" "data" 1; MkSpan 11 11 "" "data" 1]].
Definition toyChunks : list (list Z) := [[0; 0; 0; 2; 1]; [1; 0; 0; 2]; []; [1; 0; 1; 0]; [0; 0; 0; 0]].



(** ** The toy bus is a bus, and the toy decoder reads it *)

Lemma toy_bus : bus 2 8 false toyFrames.
Proof.
  assert (forall f, f ∈ toyFrames -> frameOk 2 8 false f) as Hok.
  { intros f Hf. repeat (apply elem_of_cons in Hf as [->|Hf]); [..|by apply not_elem_of_nil in Hf].
    all: split; [|vm_compute; reflexivity|vm_compute; discriminate].
    all: split; [discriminate|]; split; [vm_compute; discriminate|]; split.
    all: repeat (first [apply SSorted_cons|apply SSorted_nil|constructor]); vm_compute; discriminate. }
  split; [by apply list.Forall_forall|]. apply SSorted_cons; [apply SSorted_cons; [apply SSorted_nil|constructor]|].
  constructor; [|constructor]. split; [vm_compute; reflexivity|]. intros s l [= <- <-]. left. vm_compute. reflexivity.
Qed.

#[export] Instance Span_eq_dec : EqDecision Span.
Proof. solve_decision. Defined.

(** What is read of a window, checked. *)
Definition idleb (s : Z) : bool := forallb (fun f => (f1 f <? s) || (s <=? f0 f)) toyFrames.
Definition cutb (s e : Z) (J : list Span) : bool :=
  match J with
  | [] => forallb (fun f => negb (s <=? f0 f) || negb (e <=? f1 f) || (e - f0 f <=? 2)) toyFrames
  | j :: _ =>
      existsb (fun f => (s <=? f0 f) && (f0 f <? e) && (e <=? f1 f) && (I0 j =? f0 f) &&
        match f with t :: _ => Bool.eqb (isFrameStart (opened 2 8 false) j) (isFrameStart (opened 2 8 false) t) | [] => false end) toyFrames &&
      spansSorted J && forallb (fun t => (I0 t <=? I1 t) && (I0 t <? e)) J &&
      match groups (opened 2 8 false) J with g :: _ => e - 1 - g_i1 g <=? 2 | [] => false end
  end.
Definition readb (s e : Z) : bool :=
  let r := toy (slice (Z.to_nat s) (Z.to_nat (e - s)) toyLine) None in
  let W := concat (filter (inside s e) toyFrames) in
  let J := map (shift s) (drop (length W) r) in
  bool_decide (r = map (shift (- s)) (W ++ J)) && cutb s e J.

Lemma cutb_ok s e J : cutb s e J = true -> cutAt 2 8 false toyFrames s e J.
Proof.
  unfold cutb, cutAt. destruct J as [|j J].
  - intros H f Hf Hs He. rewrite forallb_forall in H. specialize (H f (proj1 (list_elem_of_In _ _) Hf)).
    apply orb_true_iff in H as [[H%negb_true_iff%Z.leb_gt|H%negb_true_iff%Z.leb_gt]%orb_true_iff|H%Z.leb_le]; [lia|lia|exact H].
  - intros [[[H1 H2]%andb_true_iff H3]%andb_true_iff H4]%andb_true_iff. apply existsb_exists in H1 as (f & Hf & H1).
    apply andb_true_iff in H1 as [[[[A1%Z.leb_le A2%Z.ltb_lt]%andb_true_iff A3%Z.leb_le]%andb_true_iff A4%Z.eqb_eq]%andb_true_iff A5].
    exists f. split; [by apply list_elem_of_In|]. split; [done|]. split; [done|]. split; [done|]. split.
    { intros t l ->. by apply Bool.eqb_prop. }
    split; [by apply spansSorted_ok|]. split.
    { apply list.Forall_forall. intros t Ht%list_elem_of_In. rewrite forallb_forall in H3. specialize (H3 t Ht).
      apply andb_true_iff in H3 as [B1%Z.leb_le B2%Z.ltb_lt]. done. }
    intros g gs Hg. rewrite Hg in H4. by apply Z.leb_le in H4.
Qed.

Definition toyCheck : bool :=
  forallb (fun s => forallb (fun n => negb (idleb (Z.of_nat s)) || readb (Z.of_nat s) (Z.of_nat (s + S n))) (seq 0 (17 - s))) (seq 0 17).
Lemma toy_checked : toyCheck = true.
Proof. vm_compute. reflexivity. Qed.
Lemma toy_reads : readsBus toy 2 8 false toyLine toyFrames.
Proof.
  intros s e Hs He Hi. change (len toyLine) with 17 in He. pose proof toy_checked as H. unfold toyCheck in H. rewrite forallb_forall in H.
  assert (In (Z.to_nat s) (seq 0 17)) as H1 by (apply in_seq; lia).
  assert (In (Z.to_nat (e - s - 1)) (seq 0 (17 - Z.to_nat s))) as H2 by (apply in_seq; lia).
  specialize (H _ H1). rewrite forallb_forall in H. specialize (H _ H2).
  replace (Z.of_nat (Z.to_nat s + S (Z.to_nat (e - s - 1)))) with e in H by lia. rewrite Z2Nat.id in H by lia.
  clear H1 H2. apply orb_true_iff in H as [H%negb_true_iff|H].
  - assert (idleb s = true) as Ht; [|congruence]. apply forallb_forall. intros f Hf%list_elem_of_In. apply orb_true_iff.
    destruct (Hi f Hf); [left; by apply Z.ltb_lt|right; by apply Z.leb_le].
  - unfold readb in H. set (J := map (shift s) _) in H. apply andb_true_iff in H as [H1 H2]. exists J. split; [by apply cutb_ok|].
    by apply bool_decide_eq_true in H1.
Qed.

Lemma chunks_frames_witness :
  let r := pushAll toy toyEdges toyChunks (opened 2 8 false) in
  r.1 = map toFrame toyFrames /\ (Flush toy toyEdges r.2).1 = [].
Proof.
  assert (len toyLine < 2 ^ 63) as Hlt by (vm_compute; reflexivity).
  exact (chunks_frames toy toyEdges 2 8 false toyLine toyFrames toy_bus toyChunks toy_reads eq_refl Hlt).
Defined.

Lemma edge_frames_witness :
  let line := MkEdgeLine 16 0 [3; 6; 9; 12] in
  let os := [OpEdges line None 0 7; OpEdges line None 7 16; OpFlush] in
  (onStreams toy toyEdges os (NewEdgeStreamDecoder 2 8)).1 = (onStreams toy toyEdges (map plain os) (NewStreamDecoder 2 8)).1 /\
  map starts (onStreams toy toyEdges os (NewEdgeStreamDecoder 2 8)).1 = [[]; [3; 4; 5; 9; 10; 11]; []].
Proof.
  intros line os. assert (wf line) as Hw.
  { split; simpl; [lia|by left|by repeat constructor| |lia]. repeat constructor; lia. }
  split; [|vm_compute; reflexivity]. apply (edge_frames toy toyEdges).
  - intros la lb _ _. reflexivity.
  - constructor; [split; [vm_compute; discriminate|by split]|]. constructor; [split; [vm_compute; discriminate|by split]|].
    constructor; [split; [vm_compute; discriminate|exact I]|constructor].
  - repeat (constructor; [exact I|]). constructor.
Defined.
