(* ===== verification/Findings.v ===== *)
(** * Divergences

    Runs in which the code (src/app/internal/sramcapture) does not do what it
    means to, or what a comment promises, each on a concrete fabric. *)
From S2P Require Import Prelude Machine Fabric Bus Command Ends TrigSymbol Status Open Arm Recall Sinks RecallDevice.
From S2P Require Import Stream StreamRun Stack StackScan Sim Witnesses.

(** A run's outcome and its final state. *)
Ltac shows := vm_compute; reflexivity.

(** ** The symbol trigger's table cache *)

Section symbol.
(** The fabric holds the fives; its table control refuses a write. *)
Definition brokenTable : Env :=
  bench 1 (fun h sel =>
    if sel =? 98 then bit (Symbol.isLoaded (Symbol.memory heldTable (writesOf h))) 1
    else withStatus (fun _ => registers [(13, 10); (76, 0x5359)]) h sel)
    None None (fun _ sel _ => if sel =? 98 then Some (EBus 5) else None).
#[local] Existing Instance brokenTable.

Definition sixes : Symbol.SymbolTriggerConfig :=
  {| Symbol.Enabled := true; Symbol.Channel := 1; Symbol.InvA := true; Symbol.InvB := false; Symbol.AndAB := true;
     Symbol.ClockFall := false; Symbol.TwoLines := true; Symbol.Mode := 2; Symbol.LeadLen := 3; Symbol.Prescale := 5;
     Symbol.UnitQ8 := 70000; Symbol.FrameUnits := 40; Symbol.Period := 20; Symbol.Phase0 := 7; Symbol.K := 1000;
     Symbol.Pattern := 1; Symbol.Mask := 1; Symbol.Table := replicate (Z.to_nat 2048) 6 |}.
Definition sixesCapture : Config :=
  {| Arm.Qualifier := noQualifier; Arm.Zones := Arm.Zones uartCapture; Arm.Symbol := sixes;
     Arm.Sequence := Arm.Sequence uartCapture; Arm.Packet := noPacket; Arm.Manchester := noManchester;
     Arm.USBLS := Arm.USBLS uartCapture; Arm.MIL1553 := Arm.MIL1553 uartCapture; Arm.DecodedEvents := false;
     Arm.SENT := Arm.SENT uartCapture; Arm.SPI := Arm.SPI uartCapture; Arm.I2C := Arm.I2C uartCapture;
     Arm.UART := {| UART.Enabled := false; UART.Channel := 0; UART.Inverted := false; UART.BitTicks := 0; UART.Pattern := 0;
                    UART.Length := 0; UART.Period16 := 0; UART.Bits := 0; UART.Parity := 0; UART.Resync := false |};
     Arm.Source := ADC; Arm.DecimationLog2 := 0; Arm.Pick := false; Arm.Pair := 0; Arm.PreWords := 100;
     Arm.PostWords := 200; Arm.Normal := true; Arm.Falling := false; Arm.TriggerChannel := 0; Arm.TriggerLevel := 128;
     Arm.TriggerHysteresis := 4; Arm.SecondLevel := 0; Arm.SliceLines := false |}.
Definition afterSixes : capture := (Arm 4 background sixesCapture holding).2.

(** The table's load is only queued when the cache takes the new table: the
    flush fails, the arm fails, and the cache names a table the fabric does not
    hold while the fabric still says it has one. The next arm of this table
    would skip its load. *)
Lemma symbol_cache_stale :
  (Arm 4 background sixesCapture holding).1 = Fail (EBus 5) /\
  symbolTableOK afterSixes = true /\ symbolTable afterSixes = Symbol.Table sixes /\
  Symbol.isLoaded (Symbol.memory heldTable (writesOf (trace afterSixes))) = true /\
  Symbol.entries (Symbol.memory heldTable (writesOf (trace afterSixes))) 0 = 5.
Proof. split_and!; shows. Qed.
End symbol.

(** ** The envelope reducer *)

Section reducer.
Definition stuckReducer : Env :=
  bench 1 (withStatus sramReg) (Some sramBytes) None (fun _ sel _ => if sel =? 44 then Some (EBus 5) else None).
#[local] Existing Instance stuckReducer.
Definition reducing : capture := set_envelopeOn true zeroCapture.
Definition afterRecall : capture := (recallFrozen 4 background record8 0 3 (SExt 1) false reducing).2.

(** The write that turns the reducer off is only queued when envelopeOn is
    cleared: its flush fails, and no later recall will try again. *)
Lemma recall_forgets_reducer :
  (recallFrozen 4 background record8 0 3 (SExt 1) false reducing).1 = Fail (EBus 5) /\
  envelopeOn afterRecall = false /\ existsb (fun r => r.1 =? 44) (writesOf (trace afterRecall)) = false.
Proof. split_and!; shows. Qed.

(** A Q8.8 record: 2^31 buckets of two words are a window of no words and no
    output, and pass for a valid one. *)
Lemma envelope_window_wraps m :
  FractionBits m = 8 -> Length m = 8 -> envelopeInvalid m 0 2 (2 ^ 31) = false /\ envelopeWords 2 (2 ^ 31) = 0.
Proof.
  intros Hf Hl. unfold envelopeInvalid, perBucket. rewrite Hf, Hl. split; reflexivity.
Qed.
End reducer.

(** ** A drain whose release fails *)

Section drain.
Definition stuckRelease : Env :=
  bench 1 (withStatus drumReg) (Some drumBytes) None (fun _ sel _ => if sel =? 20 then Some (EBus 5) else None).
#[local] Existing Instance stuckRelease.
Definition afterDrain : capture := (DrainStream background 100 (SExt 3) zeroCapture).2.

(** The sink's room is committed before the release, so a drain that fails has
    given the sink its five words. *)
Lemma drain_fails_committed :
  (DrainStream background 100 (SExt 3) zeroCapture).1 = Fail (EBus 5) /\
  got (sinkOf 3 (Sink [] [] []) afterDrain) = wordBytes [100; 101; 102; 103; 104].
Proof. split; shows. Qed.
End drain.

(** ** A grant that never comes *)

Section grant.
Definition noGrant : Env :=
  bench second (withStatus (fun _ => registers [(2, 8); (13, 5)])) None None accepts.
#[local] Existing Instance noGrant.
Definition afterScan : capture := (StackScan 4 background 0 100 5 zeroCapture).2.

(** The scan's wait for the grant times out before its return is deferred: the
    last write to the grant register is still the request. *)
Lemma scan_leaves_request :
  (exists e, (StackScan 4 background 0 100 5 zeroCapture).1 = Fail e) /\
  written (writesOf (trace afterScan)) (fun _ => 0) selStackGrant = 1.
Proof. split; [eexists|]; shows. Qed.
End grant.
